(* ===== verification/_CoqProject ===== *)
-Q . S2P
Prelude.v
Errors.v
ServerOps.v
Dist.v
DistBasic.v
SimpleStripe.v
Request.v
Distribute.v
Process.v
RequestTree.v
ProcessWalk.v
ProcessSpec.v
RequestBuild.v
ProcessCalls.v
Avl.v
Extentlist.v
Quickhash.v
Tcache.v
Ncache.v
Ledger.v
ReqSched.v
ReqSchedInv.v
ReqSchedOps.v
Wire.v
DistTable.v
WireTypes.v
Hint.v
WireReq.v
WireResp.v
WireSizes.v
LeBytefield.v
LeBytefieldSpec.v
WireBounds.v
RequestCommit.v
RequestSend.v
RequestFree.v
RequestTypes.v
StateMachine.v
StateMachineSpec.v
StateMachineRun.v
StateMachineEvents.v
Statecomp.v
MachinesCommon.v
MachinesClient.v
MachinesServer.v
Machines.v
ServerStart.v
Security.v
AccessCheck.v
ServerParams.v
ServerPrelude.v
DistDir.v
Keyval.v
SmWalk.v
Msgpair.v
Tree.v
