(* ===== verification/Prelude.v ===== *)
(** * OrangeFS: a verification library

    OrangeFS is a parallel file system.  A client turns a call of the user
    into requests to servers; a server decodes a request, checks what its
    sender may do, waits until no conflicting request runs, does the work on
    its storage, and answers.  Both sides run state machines, which are
    written in a language of their own and translated to tables.  The bytes of
    a file are striped over servers by a distribution, and the entries of a
    directory by a hash.  This library is a shallow embedding of the parts
    below in Gallina, with theorems about them.  Paths are relative to the
    root of the sources, which is itself called src.

    * Conventions

    Machine integers are numbers in [Z] with the wrap of their width written
    out ([u32], [u64], [i32], [i64] of this file).  A function that can fail
    an assertion, touch memory it must not touch or divide by zero returns in
    the monad [exec] of this file: [Done x] or [Fault f].  An error that the
    code reports is a value, with the numbers of Errors.v.  Structs are
    records; where the code shares them through pointers (requests, entries of
    a cache, elements of the scheduler, control blocks) there is a heap from
    addresses to structs, and a pointer that dangles is [Fault BadAccess].
    The clock, the result of malloc, and code that is not part of the sources
    (OpenSSL, the database, the network) are arguments; what is assumed of
    them is a hypothesis of the section or the theorem.

    * Files and what they model

    This file holds the machine integers, the monad [exec], arrays, and the
    lemmas, tactics and hints that the components share.  Errors.v has the
    error codes, ServerOps.v the numbers of the operations.

    Describing and distributing data (src/src/io/description):
    - Dist.v: the interface [PINT_dist_methods] and the class [DistLaws] of
      what its client relies on; DistBasic.v (dist-basic.c) and SimpleStripe.v
      (dist-simple-stripe.c) are its instances; DistTable.v: the tables of
      distributions and of their parameters (pint-distribution.c,
      pint-dist-utils.c).
    - Request.v: the structs of pint-request.h; Distribute.v:
      [PINT_distribute]; Process.v: [PINT_process_request], with its stack.
      RequestTree.v says which bytes a request means; ProcessWalk.v,
      ProcessSpec.v and ProcessCalls.v prove that one call, and any sequence
      of calls, outputs these bytes.
    - RequestBuild.v: the constructors of pvfs-request.c; RequestCommit.v:
      packing and freeing them; RequestSend.v, RequestFree.v, RequestTypes.v:
      theorems about sending, freeing and the types of their fields.

    Free handles (src/src/io/trove/trove-handle-mgmt): Avl.v (avltree.c),
    Extentlist.v (trove-extentlist.c), Ledger.v (trove-ledger.c and
    trove-handle-mgmt.c), each on top of the one before it.

    Keys and values (src/src/io/trove/trove-dbpf): Keyval.v (dbpf-keyval.c
    over dbpf-db-lmdb.c).

    Tables and caches: Quickhash.v (src/src/common/quickhash/quickhash.h),
    Tcache.v (src/src/common/misc/tcache.c), Ncache.v
    (src/src/client/sysint/ncache.c), each on top of the one before it.

    Messages (src/src/proto): Wire.v (the codecs of endecode-funcs.h),
    WireTypes.v, WireReq.v and WireResp.v (the structs of
    pvfs2-req-proto.h and the headers it includes), Hint.v
    (src/src/common/misc/pint-hint.c), WireSizes.v and LeBytefield.v
    (PINT-le-bytefield.c, PINT-reqproto-encode.c); LeBytefieldSpec.v and
    WireBounds.v are theorems about versions and sizes.

    State machines:
    - StateMachine.v: the engine (src/src/common/misc/state-machine-fns.c),
      for any tables and any actions; StateMachineSpec.v: nested machines as
      procedure calls; StateMachineRun.v: its invariant over all runs;
      StateMachineEvents.v: what happens on every path through a machine.
    - Statecomp.v: the translator (src/src/common/statecomp), from tokens to
      tables.  MachinesCommon.v, MachinesClient.v and MachinesServer.v: every
      machine that is built, as tokens; Machines.v: the tables that come out,
      the dispatch tables, and the engine on them.
    - SmWalk.v: walking through the states of one such machine with actions
      that are modelled; used by the next two files.
    - Msgpair.v: the actions of src/src/common/misc/msgpairarray.sm, by which
      messages are sent, awaited and sent again; Tree.v: those of
      src/src/server/tree-communicate.sm, by which servers pass on work.

    The server (src/src/server): ServerStart.v (the receipt of requests in
    pvfs2-server.c and unexpected.sm); ReqSched.v, ReqSchedInv.v and
    ReqSchedOps.v (request-scheduler.c); Security.v (capabilities and
    credentials, src/src/common/security); AccessCheck.v (modes and ACLs of
    check.c); ServerParams.v (the parameters that every .sm file gives for its
    operation, and [PINT_perm_check]); ServerPrelude.v (the actions of
    prelude.sm, and the one of get-attr.sm that issues capabilities);
    DistDir.v (src/src/common/misc/dist-dir-utils.c).

    * What the theorems show

    - A request means a sequence of bytes.  The constructors build requests
      that mean what they should, as long as blocks are in ascending order; a
      request survives being packed, sent and unpacked; the request processor
      outputs exactly the bytes of it that its server stores, however often it
      is interrupted.  The striping is a bijection, and file sizes are
      recovered from the sizes of the parts.
    - A message that is well formed and fits its buffer is delivered as it was
      sent, for every operation; what happens to one that does not; which
      operations always fit the buffers that are reckoned with, and which do
      not.  A message that arrives is an event of the engine, and the receive
      for the next one is posted.
    - The engine fails no assertion, joins all parallel children, and runs
      nested machines as procedure calls, in all interleavings.  On the
      machines of the server every request is scheduled, released and answered
      in this order and once (with the exceptions that the theorems name).
    - The scheduler never runs conflicting requests on a handle at a time,
      lets none be overtaken, and always has something to run.
    - Whatever the prelude lets through with a capability was authorized by a
      server for the object that the operation names, if no host signs a
      credential for a user id that spells its own name: capabilities and
      credentials are signed with the same keys.  The rights in a capability
      are those of ACL and mode, where a mode gives more than UNIX semantics
      to members of the group; ACLs are evaluated as POSIX says.  Users are
      made anonymous as the export says.  (Operations whose object comes from
      a hint are not checked against it.)
    - Handles are never lost or handed out twice.  The trees and tables keep
      their invariants and implement finite maps.
    - Every hash of a name belongs to one server of a directory, and a split
      moves hashes of the split server to the new one alone, unless it reads
      beyond the bitmap.  Entries are a counted map, and reading page by page
      lists each of them once.
    - An array of messages returns within the retry limit whatever the
      network does; work that is passed on through a tree of servers is done
      once for each handle.

    Some theorems are about what goes wrong: requests with blocks out of
    order, legal requests that overflow their buffer, a negative operation, a
    credential with too many groups, errors that are forgotten when a message
    is sent again, handles that were not reached and are reported as done, the
    parts of a tree that are divided wrongly, a bitmap that is read beyond its
    end, an entry that is counted twice, a credential whose signature is that
    of a capability.

    * Fuel and bounds

    Loops that are not structural take fuel, and running out of it is
    [Fault OutOfFuel], which no result of a [Done] can hide.
    - In Extentlist.v, Ledger.v, ReqSched.v and Distribute.v a function
      computes its fuel from its arguments (the number of elements, or the
      bytes of a region), and is proved to return.
    - [PINT_process_request] needs [tree_size] of the request for its depth
      and [cost] for its steps; the theorems hold for all fuel above.
    - [array_fuel] of Msgpair.v allows for every trip of the retry limit all
      jobs of the array; a tree of servers needs one more than the number of
      handles, as each server passes on fewer than it got.
    - In DistDir.v the loops over the bits of a server number take 33 and 64
      rounds, which numbers of 32 bits cannot reach.
    - An action of the engine may go on for ever (a machine may loop for as
      long as its actions say), so the theorems about the engine say that an
      event runs out of fuel or ends well, for all fuel; no run that the code
      has is left out.  The array of states to return to has eight entries,
      and the nesting of all machines is computed to be at most that.

    * What is not modelled

    The kernel module, the network drivers, flows, jobs and threads: what the
    models need of them is a message that arrives or not, an order of
    completions, or a job status, all of which are arguments over which the
    theorems quantify.  The actions of the other machines of the server and
    of the client: their states, transitions, permissions and scheduling are
    modelled, their effects are not.  The storage of bytes and of attributes,
    the variant for Berkeley DB, and the copy of LMDB.  The scanner of the
    translator and the text of what it generates.  Certificates and the
    caches of the security code, which are built by option only.  Client
    libraries, applications, configuration files, logging and counters. *)

From stdpp Require Import base tactics numbers list gmap relations.

#[global] Open Scope Z_scope.

(** * Machine integers

    The C sources compute in [uint32_t], [uint64_t], [int32_t] and [int64_t].
    A machine integer is a [Z]; every arithmetic operation whose C result has
    a width is followed by the wrap function of that width. *)

Definition u32 (z : Z) : Z := z mod 4294967296.
Definition u64 (z : Z) : Z := z mod 18446744073709551616.
Definition i32 (z : Z) : Z := (z + 2147483648) mod 4294967296 - 2147483648.
Definition i64 (z : Z) : Z :=
  (z + 9223372036854775808) mod 18446744073709551616 - 9223372036854775808.

#[global] Arguments u32 : simpl never.
#[global] Arguments u64 : simpl never.
#[global] Arguments i32 : simpl never.
#[global] Arguments i64 : simpl never.

(** Largest values plus one. *)
Abbreviation B31 := (2147483648%Z) (only parsing).
Abbreviation B32 := (4294967296%Z) (only parsing).
Abbreviation B63 := (9223372036854775808%Z) (only parsing).
Abbreviation B64 := (18446744073709551616%Z) (only parsing).

(** Arithmetic in [int64_t], [uint32_t] and [uint64_t], as the sources write
    it; division and remainder truncate toward zero as in C. *)
Declare Scope cint_scope.
Delimit Scope cint_scope with cint.
Notation "a +ₗ b" := (i64 (a + b)) (at level 50, left associativity) : cint_scope.
Notation "a -ₗ b" := (i64 (a - b)) (at level 50, left associativity) : cint_scope.
Notation "a *ₗ b" := (i64 (a * b)) (at level 40, left associativity) : cint_scope.
Notation "a /ₗ b" := (i64 (Z.quot a b)) (at level 40, left associativity) : cint_scope.
Notation "a %ₗ b" := (i64 (Z.rem a b)) (at level 40, left associativity) : cint_scope.
Notation "a +ᵤ b" := (u32 (a + b)) (at level 50, left associativity) : cint_scope.
Notation "a -ᵤ b" := (u32 (a - b)) (at level 50, left associativity) : cint_scope.
Notation "a *ᵤ b" := (u32 (a * b)) (at level 40, left associativity) : cint_scope.
Notation "a /ᵤ b" := (u32 (Z.quot a b)) (at level 40, left associativity) : cint_scope.

#[global] Open Scope cint_scope.

Create HintDb cint.

Lemma u32_id z : 0 ≤ z < B32 → u32 z = z.
Proof. intros. unfold u32. by rewrite Z.mod_small. Qed.

Lemma u64_id z : 0 ≤ z < B64 → u64 z = z.
Proof. intros. unfold u64. by rewrite Z.mod_small. Qed.

Lemma i64_id z : - B63 ≤ z < B63 → i64 z = z.
Proof. intros. unfold i64. rewrite Z.mod_small; lia. Qed.

Lemma i32_id z : - B31 ≤ z < B31 → i32 z = z.
Proof. intros. unfold i32. rewrite Z.mod_small; lia. Qed.

Lemma u32_range z : 0 ≤ u32 z < B32.
Proof. unfold u32. apply Z.mod_pos_bound. lia. Qed.

Lemma u64_range z : 0 ≤ u64 z < B64.
Proof. unfold u64. apply Z.mod_pos_bound. lia. Qed.

Lemma i64_range z : - B63 ≤ i64 z < B63.
Proof.
  unfold i64.
  pose proof (Z.mod_pos_bound (z + B63) B64 ltac:(lia)). lia.
Qed.

Lemma i32_range z : - B31 ≤ i32 z < B31.
Proof.
  unfold i32.
  pose proof (Z.mod_pos_bound (z + B31) B32 ltac:(lia)). lia.
Qed.

#[export] Hint Resolve u32_range u64_range i64_range i32_range : cint.

(** [nowrap tac] removes the wraps of the goal whose argument [tac] proves to
    be in range, innermost first. *)
Ltac nowrap_step tac :=
  match goal with
  | |- context [i64 ?e] =>
      lazymatch e with
      | context [i64 _] => fail
      | context [u32 _] => fail
      | _ => rewrite (i64_id e) by tac
      end
  | |- context [u32 ?e] =>
      lazymatch e with
      | context [i64 _] => fail
      | context [u32 _] => fail
      | _ => rewrite (u32_id e) by tac
      end
  end.
Ltac nowrap tac := repeat nowrap_step tac.

(** [vm_decide] proves a closed decidable proposition by evaluation. *)
Ltac vm_decide :=
  match goal with
  | |- ?P => refine (bool_decide_eq_true_1 P _); vm_compute; reflexivity
  end.

(** * Congruence modulo 2^64

    A 64-bit computation is right if its mathematical counterpart is congruent
    to it and in range. *)

Definition eq64 (a b : Z) : Prop := a mod B64 = b mod B64.
Infix "≡₆₄" := eq64 (at level 70, no associativity) : cint_scope.

#[export] Instance eq64_equiv : Equivalence eq64.
Proof. split; unfold eq64; repeat intros ?; congruence. Qed.
#[export] Instance eq64_add : Proper (eq64 ==> eq64 ==> eq64) Z.add.
Proof. intros a b H c d H'. unfold eq64 in *. rewrite Z.add_mod, H, H', <- Z.add_mod; lia. Qed.
#[export] Instance eq64_sub : Proper (eq64 ==> eq64 ==> eq64) Z.sub.
Proof. intros a b H c d H'. unfold eq64 in *. rewrite Zminus_mod, H, H', <- Zminus_mod; lia. Qed.
#[export] Instance eq64_mul : Proper (eq64 ==> eq64 ==> eq64) Z.mul.
Proof. intros a b H c d H'. unfold eq64 in *. rewrite Z.mul_mod, H, H', <- Z.mul_mod; lia. Qed.

Lemma i64_eq64 z : i64 z ≡₆₄ z.
Proof.
  unfold eq64, i64. rewrite Zminus_mod_idemp_l. f_equal. lia.
Qed.

Lemma i64_proper a b : a ≡₆₄ b → i64 a = i64 b.
Proof.
  intros H. unfold i64. f_equal. change (a + B63 ≡₆₄ b + B63). by rewrite H.
Qed.

(** [i64_flat] proves an equation between 64-bit computations whose
    mathematical counterparts are equal in the ring of integers. *)
Ltac i64_flat := apply i64_proper; rewrite ?i64_eq64; match goal with |- eq64 ?a ?b => replace a with b by ring; reflexivity end.

(** * Executions that can go wrong

    [Done a] is a normal return; a [Fault] is a failed [assert], a read or
    write outside of an object, a division by zero, or a loop that outruns the
    fuel of its model (theorems show that the last does not happen). *)

Inductive fault := AssertFailed | BadAccess | DivByZero | OutOfFuel.

Inductive exec (A : Type) :=
  | Done (a : A)
  | Fault (f : fault).
Arguments Done {A} _.
Arguments Fault {A} _.

#[export] Instance exec_ret : MRet exec := λ A a, Done a.
#[export] Instance exec_bind : MBind exec := λ A B k m,
  match m with Done a => k a | Fault f => Fault f end.

Lemma Done_inj {A} (a b : A) : Done a = Done b → a = b.
Proof. by intros [= ->]. Qed.

(** An array cell; a NULL array has no cell. *)
Definition array_get (a : option (list Z)) (i : Z) : exec Z :=
  match a with
  | Some l =>
      if decide (0 ≤ i) then
        match l !! Z.to_nat i with Some v => Done v | None => Fault BadAccess end
      else Fault BadAccess
  | None => Fault BadAccess
  end.

Definition array_set (a : option (list Z)) (i v : Z) : exec (option (list Z)) :=
  match a with
  | Some l =>
      if decide (0 ≤ i < Z.of_nat (length l)) then Done (Some (<[Z.to_nat i := v]> l))
      else Fault BadAccess
  | None => Fault BadAccess
  end.

#[global] Arguments array_get : simpl never.
#[global] Arguments array_set : simpl never.

Lemma array_get_Some l i v :
  0 ≤ i → l !! Z.to_nat i = Some v → array_get (Some l) i = Done v.
Proof. intros ? Hl. unfold array_get. rewrite decide_True by done. by rewrite Hl. Qed.

Lemma array_set_Some l i v :
  0 ≤ i < Z.of_nat (length l) →
  array_set (Some l) i v = Done (Some (<[Z.to_nat i := v]> l)).
Proof. intros. unfold array_set. by rewrite decide_True. Qed.

(** * Euclidean facts used by the striping arithmetic *)

Lemma quot_nonneg a b : 0 ≤ a → 0 < b → Z.quot a b = a / b.
Proof. intros. apply Z.quot_div_nonneg; lia. Qed.

Lemma rem_nonneg a b : 0 ≤ a → 0 < b → Z.rem a b = a mod b.
Proof. intros. apply Z.rem_mod_nonneg; lia. Qed.

(** The quotient and remainder of [q * b + r]. *)
Lemma div_mul_add q b r : 0 ≤ r < b → (q * b + r) / b = q.
Proof. intros. rewrite Z.div_add_l by lia. rewrite Z.div_small; lia. Qed.

Lemma mod_mul_add q b r : 0 ≤ r < b → (q * b + r) mod b = r.
Proof.
  intros. rewrite Z.add_comm, Z.mod_add by lia. by apply Z.mod_small.
Qed.

(** [divmod a b] names the quotient and the remainder of [a] by [b]. *)
Ltac divmod a b :=
  let q := fresh "q" in let r := fresh "r" in
  let Hq := fresh "Hq" in let Hr := fresh "Hr" in let E := fresh "E" in
  pose proof (Z.div_mod a b ltac:(lia)) as E;
  pose proof (Z.mod_pos_bound a b ltac:(lia)) as Hr;
  set (q := a / b) in *; set (r := a mod b) in *; clearbody q r.

(** * Counting over an initial segment of the offsets *)

(** [rank P l] is the number of [k] with [0 ≤ k < l] and [P k]. *)
Definition rank (P : Z → bool) (l : Z) : Z :=
  Z.of_nat (length (filter (λ k, P k = true) (seqZ 0 l))).

Lemma rank_0 (P : Z → bool) : rank P 0 = 0.
Proof. reflexivity. Qed.

Lemma seqZ_snoc m n : 0 ≤ n → seqZ m (n + 1) = seqZ m n ++ [m + n].
Proof.
  intros. rewrite seqZ_app by lia. f_equal.
Qed.

Lemma rank_succ (P : Z → bool) l : 0 ≤ l → rank P (l + 1) = rank P l + (if P l then 1 else 0).
Proof.
  intros. unfold rank. rewrite seqZ_snoc by lia.
  rewrite filter_app, length_app, Z.add_0_l.
  rewrite filter_cons, filter_nil. destruct (P l); simpl; lia.
Qed.

Lemma rank_nonneg (P : Z → bool) l : 0 ≤ rank P l.
Proof. unfold rank. lia. Qed.

Lemma rank_le (P : Z → bool) l : 0 ≤ l → rank P l ≤ l.
Proof.
  intros. unfold rank.
  pose proof (length_filter (λ k, P k = true) (seqZ 0 l)) as Hf.
  rewrite length_seqZ in Hf. lia.
Qed.

(** A function that starts at 0 and steps like the count is the count. *)
Lemma rank_unique (P : Z → bool) (f : Z → Z) (b : Z) :
  f 0 = 0 →
  (∀ l, 0 ≤ l < b → f (l + 1) = f l + (if P l then 1 else 0)) →
  ∀ l, 0 ≤ l ≤ b → f l = rank P l.
Proof.
  intros H0 Hs l Hl. destruct Hl as [Hl Hb]. revert Hb.
  pattern l. apply natlike_ind; [by rewrite H0 | | done].
  intros k Hk IH Hb. replace (Z.succ k) with (k + 1) in * by lia.
  rewrite Hs, rank_succ, IH by lia. done.
Qed.

Lemma rank_mono (P : Z → bool) l m : 0 ≤ l ≤ m → rank P l ≤ rank P m.
Proof.
  intros [Hl Hm]. replace m with (l + (m - l)) by lia.
  assert (0 ≤ m - l) as Hd by lia. revert Hd. generalize (m - l). intros d Hd.
  pattern d. apply natlike_ind; [rewrite Z.add_0_r; lia | | done].
  intros k Hk IH. replace (l + Z.succ k) with ((l + k) + 1) by lia.
  rewrite rank_succ by lia. case_match; lia.
Qed.

(** No counted offset in between: the count does not move. *)
Lemma rank_gap (P : Z → bool) l m :
  0 ≤ l ≤ m → (∀ k, l ≤ k < m → P k = false) → rank P m = rank P l.
Proof.
  intros [Hl Hm]. replace m with (l + (m - l)) by lia.
  assert (0 ≤ m - l) as Hd by lia. revert Hd. generalize (m - l). intros d Hd.
  pattern d. apply natlike_ind; [by rewrite Z.add_0_r | | done].
  intros k Hk IH HP. replace (l + Z.succ k) with ((l + k) + 1) by lia.
  rewrite rank_succ, HP by lia. rewrite IH; [lia|]. intros; apply HP; lia.
Qed.

(** Every offset in between is counted: the count moves by the distance. *)
Lemma rank_run_add (P : Z → bool) l d :
  0 ≤ l → 0 ≤ d → (∀ k, l ≤ k < l + d → P k = true) → rank P (l + d) = rank P l + d.
Proof.
  intros Hl Hd. pattern d. apply natlike_ind; [rewrite Z.add_0_r; lia | | done].
  intros k Hk IH HP. replace (l + Z.succ k) with ((l + k) + 1) by lia.
  rewrite rank_succ, HP by lia. rewrite IH; [lia|]. intros; apply HP; lia.
Qed.

Lemma rank_run (P : Z → bool) l m :
  0 ≤ l ≤ m → (∀ k, l ≤ k < m → P k = true) → rank P m = rank P l + (m - l).
Proof.
  intros Hm HP. rewrite <- (rank_run_add P l (m - l)); [f_equal; lia|lia|lia|].
  intros; apply HP; lia.
Qed.

(** The count is injective on counted offsets. *)
Lemma rank_lt (P : Z → bool) l m : 0 ≤ l < m → P l = true → rank P l < rank P m.
Proof.
  intros Hlm HP. pose proof (rank_succ P l ltac:(lia)) as Hs. rewrite HP in Hs.
  pose proof (rank_mono P (l + 1) m). lia.
Qed.

Lemma rank_inj (P : Z → bool) l m :
  0 ≤ l → 0 ≤ m → P l = true → P m = true → rank P l = rank P m → l = m.
Proof.
  intros. destruct (Z.lt_trichotomy l m) as [?|[?|?]]; [|done|];
    [pose proof (rank_lt P l m ltac:(lia) ltac:(done))
    |pose proof (rank_lt P m l ltac:(lia) ltac:(done))]; lia.
Qed.

(** * Lists *)

Lemma seqZ_S m n : 0 < n → seqZ m n = m :: seqZ (m + 1) (n - 1).
Proof.
  intros. rewrite seqZ_cons by lia. by rewrite Z.sub_1_r, Z.add_1_r.
Qed.

Lemma bind_ext {A B} (f g : A → list B) l :
  (∀ x, x ∈ l → f x = g x) → l ≫= f = l ≫= g.
Proof.
  induction l as [|x l IH]; intros H; [done|]. cbn. rewrite H by (by left).
  f_equal. apply IH. intros y Hy. apply H. by right.
Qed.

Lemma length_bind {A B} (f : A → list B) l n :
  (∀ x, x ∈ l → length (f x) = n) → length (l ≫= f) = (length l * n)%nat.
Proof.
  induction l as [|x l IH]; intros H; [done|]. cbn. rewrite length_app, H by (by left).
  f_equal. apply IH. intros y Hy. apply H. by right.
Qed.

(** Shifting the index of a bind over consecutive integers. *)
Lemma bind_seqZ_shift {B} (f : Z → list B) m n d :
  seqZ (m + d) n ≫= f = seqZ m n ≫= λ i, f (i + d).
Proof.
  destruct (Z.le_gt_cases n 0) as [Hn|Hn].
  { by rewrite !seqZ_nil by lia. }
  assert (0 ≤ n) as Hn' by lia. revert m. pattern n.
  apply natlike_ind; [done| |done]. intros k Hk IH m.
  rewrite !(seqZ_S _ (Z.succ k)) by lia. cbn. f_equal.
  replace (Z.succ k - 1) with k by lia. replace (m + d + 1) with (m + 1 + d) by lia. apply IH.
Qed.

(** Consecutive runs of the same length form one run. *)
Lemma bind_seqZ_runs o k s :
  0 ≤ k → 0 ≤ s → seqZ 0 k ≫= (λ i, seqZ (o + i * s) s) = seqZ o (k * s).
Proof.
  intros Hk Hs. pattern k. apply natlike_ind; [done| |done].
  intros j Hj IH. replace (Z.succ j) with (j + 1) by lia.
  rewrite seqZ_snoc, bind_app, IH, Z.mul_add_distr_r, (seqZ_app _ (j * s)) by nia.
  f_equal. cbn. rewrite app_nil_r. f_equal; lia.
Qed.

Lemma drop_seqZ o n k : 0 ≤ k ≤ n → drop (Z.to_nat k) (seqZ o n) = seqZ (o + k) (n - k).
Proof.
  intros. replace n with (k + (n - k)) at 1 by lia. rewrite seqZ_app by lia.
  rewrite drop_app_length'; [done|]. rewrite length_seqZ. lia.
Qed.

Lemma take_seqZ o n k : 0 ≤ k ≤ n → take (Z.to_nat k) (seqZ o n) = seqZ o k.
Proof.
  intros. replace n with (k + (n - k)) at 1 by lia. rewrite seqZ_app by lia.
  rewrite take_app_length'; [done|]. rewrite length_seqZ. lia.
Qed.

Lemma forallb_Forall {A} (f : A → bool) (P : A → Prop) l :
  (∀ x, f x = true → P x) → forallb f l = true → Forall P l.
Proof.
  intros HP. induction l as [|x l IH]; cbn; [constructor|].
  intros [Hx Hl]%andb_true_iff. constructor; auto.
Qed.

(** * Reachability *)

(** What every step preserves holds of every reachable state. *)
Lemma rtc_invariant {A} (R : relation A) (P : A → Prop) x y :
  rtc R x y → P x → (∀ a b, P a → R a b → P b) → P y.
Proof. induction 1; eauto. Qed.
