(* ===== verification/Errors.v ===== *)
(** Error codes of src/include/pvfs2-types.h and of
    src/src/io/trove/trove-types.h. *)

From stdpp Require Import numbers.
From S2P Require Import Prelude.

Definition PVFS_ERROR_BIT : Z := Z.shiftl 1 30.
Definition PVFS_NON_ERRNO_ERROR_BIT : Z := Z.shiftl 1 29.
Definition PVFS_ERROR_TROVE : Z := Z.shiftl 2 7.

Definition E (num : Z) : Z := Z.lor num PVFS_ERROR_BIT.

Definition PVFS_EPERM : Z := E 1.
Definition PVFS_ENOENT : Z := E 2.
Definition PVFS_EIO : Z := E 4.
Definition PVFS_EAGAIN : Z := E 7.
Definition PVFS_ENOMEM : Z := E 8.
Definition PVFS_EEXIST : Z := E 11.
Definition PVFS_ENOTDIR : Z := E 13.
Definition PVFS_EINVAL : Z := E 15.
Definition PVFS_ENOSPC : Z := E 18.
Definition PVFS_EROFS : Z := E 19.
Definition PVFS_ENOSYS : Z := E 25.
Definition PVFS_ENOTEMPTY : Z := E 26.
Definition PVFS_ENODATA : Z := E 33.
Definition PVFS_ETIME : Z := E 34.
Definition PVFS_EPROTO : Z := E 38.
Definition PVFS_EOVERFLOW : Z := E 40.
Definition PVFS_EPROTONOSUPPORT : Z := E 45.
Definition PVFS_EALREADY : Z := E 57.
Definition PVFS_EACCES : Z := E 58.
Definition TROVE_EINVAL : Z := Z.lor PVFS_EINVAL PVFS_ERROR_TROVE.
Definition TROVE_ENOSPC : Z := Z.lor PVFS_ENOSPC PVFS_ERROR_TROVE.
Definition TROVE_ENOENT : Z := Z.lor PVFS_ENOENT PVFS_ERROR_TROVE.
Definition TROVE_EEXIST : Z := Z.lor PVFS_EEXIST PVFS_ERROR_TROVE.

#[global] Arguments E : simpl never.
