(* ===== verification/ServerOps.v ===== *)
(** The operations of a server: [enum PVFS_server_op] of
    src/src/proto/pvfs2-req-proto.h. *)

From Stdlib Require Import ZArith.

#[local] Open Scope Z_scope.

Definition PVFS_SERV_INVALID : Z := 0.
Definition PVFS_SERV_CREATE : Z := 1.
Definition PVFS_SERV_REMOVE : Z := 2.
Definition PVFS_SERV_IO : Z := 3.
Definition PVFS_SERV_GETATTR : Z := 4.
Definition PVFS_SERV_SETATTR : Z := 5.
Definition PVFS_SERV_LOOKUP_PATH : Z := 6.
Definition PVFS_SERV_CRDIRENT : Z := 7.
Definition PVFS_SERV_RMDIRENT : Z := 8.
Definition PVFS_SERV_CHDIRENT : Z := 9.
Definition PVFS_SERV_TRUNCATE : Z := 10.
Definition PVFS_SERV_MKDIR : Z := 11.
Definition PVFS_SERV_READDIR : Z := 12.
Definition PVFS_SERV_GETCONFIG : Z := 13.
Definition PVFS_SERV_WRITE_COMPLETION : Z := 14.
Definition PVFS_SERV_FLUSH : Z := 15.
Definition PVFS_SERV_MGMT_SETPARAM : Z := 16.
Definition PVFS_SERV_MGMT_NOOP : Z := 17.
Definition PVFS_SERV_STATFS : Z := 18.
Definition PVFS_SERV_PERF_UPDATE : Z := 19.
Definition PVFS_SERV_MGMT_PERF_MON : Z := 20.
Definition PVFS_SERV_MGMT_ITERATE_HANDLES : Z := 21.
Definition PVFS_SERV_MGMT_DSPACE_INFO_LIST : Z := 22.
Definition PVFS_SERV_MGMT_EVENT_MON : Z := 23.
Definition PVFS_SERV_MGMT_REMOVE_OBJECT : Z := 24.
Definition PVFS_SERV_MGMT_REMOVE_DIRENT : Z := 25.
Definition PVFS_SERV_MGMT_GET_DIRDATA_HANDLE : Z := 26.
Definition PVFS_SERV_JOB_TIMER : Z := 27.
Definition PVFS_SERV_PROTO_ERROR : Z := 28.
Definition PVFS_SERV_GETEATTR : Z := 29.
Definition PVFS_SERV_SETEATTR : Z := 30.
Definition PVFS_SERV_DELEATTR : Z := 31.
Definition PVFS_SERV_LISTEATTR : Z := 32.
Definition PVFS_SERV_SMALL_IO : Z := 33.
Definition PVFS_SERV_LISTATTR : Z := 34.
Definition PVFS_SERV_BATCH_CREATE : Z := 35.
Definition PVFS_SERV_BATCH_REMOVE : Z := 36.
Definition PVFS_SERV_PRECREATE_POOL_REFILLER : Z := 37.
Definition PVFS_SERV_UNSTUFF : Z := 38.
Definition PVFS_SERV_MIRROR : Z := 39.
Definition PVFS_SERV_IMM_COPIES : Z := 40.
Definition PVFS_SERV_TREE_REMOVE : Z := 41.
Definition PVFS_SERV_TREE_GET_FILE_SIZE : Z := 42.
Definition PVFS_SERV_MGMT_GET_UID : Z := 43.
Definition PVFS_SERV_TREE_SETATTR : Z := 44.
Definition PVFS_SERV_MGMT_GET_DIRENT : Z := 45.
Definition PVFS_SERV_MGMT_CREATE_ROOT_DIR : Z := 46.
Definition PVFS_SERV_MGMT_SPLIT_DIRENT : Z := 47.
Definition PVFS_SERV_ATOMICEATTR : Z := 48.
Definition PVFS_SERV_TREE_GETATTR : Z := 49.
Definition PVFS_SERV_MGMT_GET_USER_CERT : Z := 50.
Definition PVFS_SERV_MGMT_GET_USER_CERT_KEYREQ : Z := 51.
Definition PVFS_SERV_NUM_OPS : Z := 52.
