(* ===== verification/Dist.v ===== *)
(** The distribution interface of src/src/io/description/pint-distribution.h.

    A distribution decides which server stores which byte of a logical file.
    Every distribution supplies the methods of [PINT_dist_methods]; the client
    of the interface is [PINT_distribute] (file Distribute.v).  [DistLaws]
    states what that client relies on, relative to an ownership predicate on
    logical offsets; each distribution proves an instance. *)

From stdpp Require Import list numbers.
From S2P Require Import Prelude.

(** The fields of [PINT_request_file_data] a distribution method reads; the
    [dist] pointer of the struct is carried by [PINT_request_file_data] in
    Distribute.v, because the methods take the struct as an argument. *)
Record file_data := mkFileData {
  fsize : Z;           (* PVFS_size: actual size of local storage object *)
  server_nr : Z;       (* uint32_t *)
  server_ct : Z;       (* uint32_t *)
  extend_flag : bool;  (* PVFS_boolean *)
}.

(** Distribution functions supplied by each implementation.  A size method
    that reads an array returns [None] where the C code would read outside
    of it. *)
Record PINT_dist_methods (params : Type) := {
  dm_logical_to_physical_offset : params → file_data → Z → Z;
  dm_physical_to_logical_offset : params → file_data → Z → Z;
  dm_next_mapped_offset : params → file_data → Z → Z;
  dm_contiguous_length : params → file_data → Z → Z;
  dm_logical_file_size : params → Z → option (list Z) → option Z;
  dm_get_num_dfiles : params → Z → Z → Z;
  dm_get_blksize : params → Z → Z;
}.
Arguments dm_logical_to_physical_offset {_}.
Arguments dm_physical_to_logical_offset {_}.
Arguments dm_next_mapped_offset {_}.
Arguments dm_contiguous_length {_}.
Arguments dm_logical_file_size {_}.
Arguments dm_get_num_dfiles {_}.
Arguments dm_get_blksize {_}.

(** [PINT_dist_default_get_num_dfiles] of pint-dist-utils.c. *)
Definition PINT_dist_default_get_num_dfiles {params : Type} (_ : params)
    (num_servers_requested num_dfiles_requested : Z) : Z :=
  if decide (0 < num_dfiles_requested) then i32 num_dfiles_requested
  else i32 num_servers_requested.

(** What [PINT_distribute] relies on.  [owned l] says that the server of [fd]
    stores logical byte [l]; [lim] bounds the logical offsets for which
    [next_mapped_offset] does not leave 64-bit range. *)
Class DistLaws {params : Type} (m : PINT_dist_methods params) (p : params)
    (fd : file_data) (owned : Z → bool) (lim : Z) : Prop := {
  dl_lim : lim ≤ B63;
  (** the physical offset of an owned byte is its rank among the owned bytes *)
  dl_l2p l : 0 ≤ l < B63 → owned l = true →
    dm_logical_to_physical_offset m p fd l = rank owned l;
  (** and the reverse map recovers the byte *)
  dl_p2l l : 0 ≤ l < B63 → owned l = true →
    dm_physical_to_logical_offset m p fd (rank owned l) = l;
  (** [next_mapped_offset] is the first owned byte at or after its argument *)
  dl_next_ge l : 0 ≤ l < lim →
    l ≤ dm_next_mapped_offset m p fd l < B63;
  dl_next_owned l : 0 ≤ l < lim →
    owned (dm_next_mapped_offset m p fd l) = true;
  dl_next_first l k : 0 ≤ l < lim →
    l ≤ k < dm_next_mapped_offset m p fd l → owned k = false;
  (** [contiguous_length] is the length of a run of owned bytes *)
  dl_contig_pos l : 0 ≤ l < B63 → owned l = true →
    0 < dm_contiguous_length m p fd (rank owned l) < B63;
  dl_contig_owned l k : 0 ≤ l < B63 → owned l = true →
    l ≤ k < l + dm_contiguous_length m p fd (rank owned l) → owned k = true;
  (** a lone server owns every byte *)
  dl_single l : 0 ≤ l → server_ct fd = 1 → owned l = true;
}.
