(* ===== verification/DistBasic.v ===== *)
(** src/src/io/description/dist-basic.c: all data of a file on one server. *)

From stdpp Require Import list numbers.
From S2P Require Import Prelude Dist.

Definition CONTIGBLOCKSZ : Z := 65536.

(** [PVFS_basic_params] has no field. *)
Definition PVFS_basic_params := unit.

Definition logical_to_physical_offset (_ : PVFS_basic_params) (_ : file_data)
    (logical_offset : Z) : Z := logical_offset.

Definition physical_to_logical_offset (_ : PVFS_basic_params) (_ : file_data)
    (physical_offset : Z) : Z := physical_offset.

Definition next_mapped_offset (_ : PVFS_basic_params) (_ : file_data)
    (logical_offset : Z) : Z := logical_offset.

Definition contiguous_length (_ : PVFS_basic_params) (_ : file_data)
    (_ : Z) : Z := CONTIGBLOCKSZ.

Definition logical_file_size (_ : PVFS_basic_params) (_ : Z)
    (psizes : option (list Z)) : option Z :=
  match psizes with
  | None => Some (-1)
  | Some ps => ps !! 0%nat
  end.

Definition get_num_dfiles (_ : PVFS_basic_params) (_ _ : Z) : Z := 1.

Definition get_blksize (_ : PVFS_basic_params) (_ : Z) : Z := CONTIGBLOCKSZ.

Definition basic_methods : PINT_dist_methods PVFS_basic_params := {|
  dm_logical_to_physical_offset := logical_to_physical_offset;
  dm_physical_to_logical_offset := physical_to_logical_offset;
  dm_next_mapped_offset := next_mapped_offset;
  dm_contiguous_length := contiguous_length;
  dm_logical_file_size := logical_file_size;
  dm_get_num_dfiles := get_num_dfiles;
  dm_get_blksize := get_blksize;
|}.

Definition owned (_ : Z) : bool := true.

Lemma rank_owned l : 0 ≤ l → rank owned l = l.
Proof.
  intros. rewrite <- (rank_unique owned (λ x, x) l); try lia. done.
Qed.

(** The one server owns every byte. *)
#[export] Instance basic_laws fd : DistLaws basic_methods tt fd owned B63.
Proof.
  split; simpl; unfold logical_to_physical_offset, physical_to_logical_offset,
    next_mapped_offset, contiguous_length, CONTIGBLOCKSZ; intros;
    rewrite ?rank_owned by lia; done || lia.
Qed.
