(* ===== verification/SimpleStripe.v ===== *)
(** src/src/io/description/dist-simple-stripe.c: round-robin striping with a
    fixed strip size, the default distribution of the file system. *)

From stdpp Require Import list numbers.
From S2P Require Import Prelude Dist.

Record PVFS_simple_stripe_params := { strip_size : Z (* PVFS_size *) }.

Definition logical_to_physical_offset (dparam : PVFS_simple_stripe_params)
    (fd : file_data) (logical_offset : Z) : Z :=
  let server_nr := server_nr fd in
  let server_ct := server_ct fd in
  (* how many complete stripes are in there? *)
  let full_stripes := logical_offset /ₗ (strip_size dparam *ₗ server_ct) in
  let ret_offset := full_stripes *ₗ strip_size dparam in
  (* do the leftovers fall within our region? *)
  let leftover :=
    logical_offset -ₗ full_stripes *ₗ strip_size dparam *ₗ server_ct in
  if decide (leftover >= server_nr *ₗ strip_size dparam) then
    if decide (leftover < (server_nr +ᵤ 1) *ₗ strip_size dparam) then
      ret_offset +ₗ (leftover -ₗ server_nr *ₗ strip_size dparam)
    else ret_offset +ₗ strip_size dparam
  else ret_offset.

Definition physical_to_logical_size (dparam : PVFS_simple_stripe_params)
    (fd : file_data) (physical_size : Z) : Z :=
  let physical_size_n1 :=
    if decide (physical_size = 0) then 0 else physical_size -ₗ 1 in
  let strips_div := physical_size_n1 /ₗ strip_size dparam in
  let strips_mod := physical_size_n1 %ₗ strip_size dparam +ₗ 1 in
  strips_div *ₗ strip_size dparam *ₗ server_ct fd +ₗ
  strip_size dparam *ₗ server_nr fd +ₗ strips_mod.

Definition physical_to_logical_offset (dparam : PVFS_simple_stripe_params)
    (fd : file_data) (physical_offset : Z) : Z :=
  let strips_div := physical_offset /ₗ strip_size dparam in
  let strips_mod := physical_offset %ₗ strip_size dparam in
  strips_div *ₗ strip_size dparam *ₗ server_ct fd +ₗ
  strip_size dparam *ₗ server_nr fd +ₗ strips_mod.

Definition next_mapped_offset (dparam : PVFS_simple_stripe_params)
    (fd : file_data) (logical_offset : Z) : Z :=
  let server_starting_offset := server_nr fd *ₗ strip_size dparam in
  let stripe_size := server_ct fd *ₗ strip_size dparam in
  let diff := (logical_offset -ₗ server_starting_offset) %ₗ stripe_size in
  if decide (diff < 0) then
    (* loff is before this strip - move to server_so *)
    server_starting_offset
  else if decide (diff >= strip_size dparam) then
    (* loff is after this strip - go to next strip *)
    logical_offset +ₗ (stripe_size -ₗ diff)
  else
    (* loff is within this strip - just return loff *)
    logical_offset.

Definition contiguous_length (dparam : PVFS_simple_stripe_params)
    (_ : file_data) (physical_offset : Z) : Z :=
  strip_size dparam -ₗ physical_offset %ₗ strip_size dparam.

(** The loop of [logical_file_size] from server [s] on, over the [n] servers
    that remain. *)
Fixpoint logical_file_size_loop (dparam : PVFS_simple_stripe_params)
    (ct : Z) (psizes : list Z) (s n : nat) (max : Z) : option Z :=
  match n with
  | O => Some max
  | S n' =>
      match psizes !! s with
      | None => None
      | Some psize =>
          let tmp_max := physical_to_logical_size dparam
            (mkFileData 0 (Z.of_nat s) ct false) psize in
          let max' :=
            if decide (psize ≠ 0) then if decide (tmp_max > max) then tmp_max else max
            else max in
          logical_file_size_loop dparam ct psizes (S s) n' max'
      end
  end.

Definition logical_file_size (dparam : PVFS_simple_stripe_params)
    (server_ct : Z) (psizes : option (list Z)) : option Z :=
  match psizes with
  | None => Some (-1)
  | Some ps =>
      logical_file_size_loop dparam server_ct ps 0 (Z.to_nat server_ct) 0
  end.

Definition get_blksize (dparam : PVFS_simple_stripe_params)
    (dfile_count : Z) : Z := strip_size dparam *ₗ dfile_count.

Definition simple_stripe_methods : PINT_dist_methods PVFS_simple_stripe_params := {|
  dm_logical_to_physical_offset := logical_to_physical_offset;
  dm_physical_to_logical_offset := physical_to_logical_offset;
  dm_next_mapped_offset := next_mapped_offset;
  dm_contiguous_length := contiguous_length;
  dm_logical_file_size := logical_file_size;
  dm_get_num_dfiles := PINT_dist_default_get_num_dfiles;
  dm_get_blksize := get_blksize;
|}.

(** The default parameters of the distribution. *)
Definition simple_stripe_params : PVFS_simple_stripe_params :=
  {| strip_size := 65536 |}.

(** * Specification *)

(** Parameters the arithmetic is meant for: a positive strip, a server that
    exists, and a stripe that fits in 64 bits. *)
Definition valid (p : PVFS_simple_stripe_params) (fd : file_data) : Prop :=
  0 < strip_size p ∧ 0 ≤ server_nr fd < server_ct fd ∧ server_ct fd < B32 ∧
  server_ct fd * strip_size p < B63.

#[export] Instance valid_dec p fd : Decision (valid p fd).
Proof. unfold valid. apply _. Defined.

(** Logical byte [l] is stored on the server of [fd]. *)
Definition owned (p : PVFS_simple_stripe_params) (fd : file_data) (l : Z) : bool :=
  bool_decide
    ((l mod (server_ct fd * strip_size p)) / strip_size p = server_nr fd).

(** The physical offset without 64-bit wraps: the strips of the complete
    stripes plus the part of the last stripe that falls in our strip. *)
Definition phys (p : PVFS_simple_stripe_params) (fd : file_data) (l : Z) : Z :=
  let s := strip_size p in
  let n := server_nr fd in
  let stripe := server_ct fd * s in
  l / stripe * s + Z.min s (Z.max 0 (l mod stripe - n * s)).

(** The file as server [n] of [ct] sees it. *)
Definition on_server (ct n : Z) : file_data := mkFileData 0 n ct false.

(** The server that owns a byte. *)
Definition owner (p : PVFS_simple_stripe_params) (ct l : Z) : Z :=
  (l mod (ct * strip_size p)) / strip_size p.

(** * Arithmetic of one stripe *)

Section arith.
Context (p : PVFS_simple_stripe_params) (fd : file_data) (Hv : valid p fd).

Abbreviation ss := (strip_size p) (only parsing).
Abbreviation nr := (server_nr fd) (only parsing).
Abbreviation ct := (server_ct fd) (only parsing).

Lemma bounds :
  0 < ss ∧ 0 ≤ nr < ct ∧ ct < B32 ∧ ct * ss < B63 ∧ 0 ≤ nr * ss ∧
  nr * ss + ss ≤ ct * ss ∧ 0 < ct * ss ∧ ss ≤ ct * ss.
Proof using Hv. destruct Hv as (?&?&?&?). repeat split; nia. Qed.

Lemma owned_spec l :
  owned p fd l = true ↔ nr * ss ≤ l mod (ct * ss) < nr * ss + ss.
Proof using Hv.
  pose proof bounds as Hb. unfold owned. rewrite bool_decide_eq_true. split.
  - intros <-. divmod (l mod (ct * ss)) (strip_size p). nia.
  - intros. replace (l mod (ct * ss)) with (nr * ss + (l mod (ct * ss) - nr * ss)) by lia.
    apply div_mul_add. lia.
Qed.

Lemma not_owned_spec l :
  owned p fd l = false ↔ ¬ (nr * ss ≤ l mod (ct * ss) < nr * ss + ss).
Proof using Hv. rewrite <- owned_spec. destruct (owned p fd l); naive_solver. Qed.

(** Moving one byte forward stays in the stripe or enters the next one. *)
Lemma stripe_step l :
  0 ≤ l →
  ((l + 1) / (ct * ss) = l / (ct * ss) ∧ (l + 1) mod (ct * ss) = l mod (ct * ss) + 1) ∨
  ((l + 1) / (ct * ss) = l / (ct * ss) + 1 ∧ (l + 1) mod (ct * ss) = 0 ∧
   l mod (ct * ss) = ct * ss - 1).
Proof using Hv.
  intros Hl. pose proof bounds as Hb. divmod l (ct * ss).
  destruct (decide (r + 1 < ct * ss)) as [Hd1|Hd1]; [left|right].
  - rewrite E. replace (ct * ss * q + r + 1) with (q * (ct * ss) + (r + 1)) by lia.
    rewrite div_mul_add, mod_mul_add; lia.
  - rewrite E. replace (ct * ss * q + r + 1) with ((q + 1) * (ct * ss) + 0) by nia.
    rewrite div_mul_add, mod_mul_add; lia.
Qed.

Lemma phys_rank l : 0 ≤ l → phys p fd l = rank (owned p fd) l.
Proof using Hv.
  intros Hl. pose proof bounds as Hb. apply (rank_unique _ _ l); [| |lia].
  - unfold phys. rewrite Z.div_0_l, Z.mod_0_l by lia. lia.
  - intros k Hk. unfold phys.
    pose proof (Z.mod_pos_bound k (ct * ss) ltac:(lia)).
    destruct (owned p fd k) eqn:Ho;
      [apply owned_spec in Ho | apply not_owned_spec in Ho];
      destruct (stripe_step k ltac:(lia)) as [[-> ->]|(-> & -> & Hr)]; nia.
Qed.

(** On offsets that fit in 64 bits no operation of the code wraps. *)
Lemma l2p_phys l :
  0 ≤ l < B63 → logical_to_physical_offset p fd l = phys p fd l.
Proof using Hv.
  intros Hl. pose proof bounds as Hb.
  unfold logical_to_physical_offset, phys.
  rewrite (Z.mul_comm ss ct), (i64_id (ct * ss)) by lia.
  rewrite quot_nonneg by lia. divmod l (ct * ss).
  assert (0 ≤ q ∧ q * ss ≤ l ∧ q * (ct * ss) ≤ l) by nia.
  rewrite (i64_id q), (i64_id (q * ss)) by nia.
  replace (q * ss * ct) with (q * (ct * ss)) by lia.
  rewrite (i64_id (q * (ct * ss))), (i64_id (l - _)) by nia.
  replace (l - q * (ct * ss)) with r by lia.
  rewrite (u32_id (nr + 1)), (i64_id (nr * ss)), (i64_id ((nr + 1) * ss)) by nia.
  rewrite (i64_id (r - nr * ss)) by lia.
  repeat case_decide; rewrite ?i64_id by nia; nia.
Qed.

Lemma l2p_rank l :
  0 ≤ l < B63 → logical_to_physical_offset p fd l = rank (owned p fd) l.
Proof using Hv. intros. rewrite l2p_phys, phys_rank by lia. done. Qed.

(** The logical offset of the byte at physical offset [q * ss + r]. *)
Lemma p2l_phys x :
  0 ≤ x → x / ss * (ct * ss) + nr * ss + x mod ss < B63 →
  physical_to_logical_offset p fd x = x / ss * (ct * ss) + nr * ss + x mod ss.
Proof using Hv.
  intros Hx Hlt. pose proof bounds as Hb. unfold physical_to_logical_offset.
  rewrite quot_nonneg, rem_nonneg by lia. divmod x (strip_size p).
  assert (0 ≤ q) by nia.
  assert (0 ≤ q * ss ≤ q * (ct * ss) ∧ q ≤ q * ss) by nia.
  rewrite (i64_id q), (i64_id r), (i64_id (q * ss)) by lia.
  replace (q * ss * ct) with (q * (ct * ss)) by lia.
  rewrite (Z.mul_comm ss nr).
  rewrite (i64_id (q * (ct * ss))), (i64_id (nr * ss)) by lia.
  rewrite (i64_id (_ + nr * ss)), i64_id by lia. done.
Qed.

(** Rank and position of an owned byte. *)
Lemma rank_owned_byte l :
  0 ≤ l → owned p fd l = true →
  rank (owned p fd) l = l / (ct * ss) * ss + (l mod (ct * ss) - nr * ss).
Proof using Hv.
  intros Hl Ho%owned_spec. rewrite <- phys_rank by lia. unfold phys. lia.
Qed.

Lemma p2l_rank l :
  0 ≤ l < B63 → owned p fd l = true →
  physical_to_logical_offset p fd (rank (owned p fd) l) = l.
Proof using Hv.
  intros Hl Ho. pose proof bounds as Hb. rewrite rank_owned_byte by (done || lia).
  apply owned_spec in Ho. divmod l (ct * ss).
  assert (0 ≤ q) by nia.
  rewrite p2l_phys; rewrite ?div_mul_add, ?mod_mul_add; nia.
Qed.

(** The byte at a physical offset is owned, and its rank is that offset. *)
Lemma p2l_owned x :
  0 ≤ x → x / ss * (ct * ss) + nr * ss + x mod ss < B63 →
  owned p fd (physical_to_logical_offset p fd x) = true ∧
  rank (owned p fd) (physical_to_logical_offset p fd x) = x.
Proof using Hv.
  intros Hx Hlt. pose proof bounds as Hb. rewrite p2l_phys by done.
  divmod x (strip_size p). assert (0 ≤ q) by nia.
  assert (0 ≤ q * (ct * ss)) by nia.
  assert (owned p fd (q * (ct * ss) + nr * ss + r) = true) as Ho.
  { apply owned_spec. rewrite <- Z.add_assoc, mod_mul_add; lia. }
  split; [done|]. rewrite rank_owned_byte by (done || lia).
  rewrite <- Z.add_assoc, div_mul_add, mod_mul_add; lia.
Qed.

(** The distance of [l] from the start of our strip, modulo the stripe. *)
Lemma owned_shift l :
  owned p fd l = true ↔ (l - nr * ss) mod (ct * ss) < ss.
Proof using Hv.
  pose proof bounds as Hb. rewrite owned_spec. divmod l (ct * ss).
  destruct (decide (nr * ss ≤ r)) as [Hd1|Hd1].
  - replace (l - nr * ss) with (q * (ct * ss) + (r - nr * ss)) by lia.
    rewrite mod_mul_add; lia.
  - replace (l - nr * ss) with ((q - 1) * (ct * ss) + (r - nr * ss + ct * ss)) by lia.
    rewrite mod_mul_add; lia.
Qed.

(** The three cases of [next_mapped_offset]. *)
Lemma next_cases l :
  0 ≤ l < B63 - ct * ss →
  let d := (l - nr * ss) mod (ct * ss) in
  next_mapped_offset p fd l =
    if decide (l < nr * ss) then nr * ss
    else if decide (ss ≤ d) then l + (ct * ss - d) else l.
Proof using Hv.
  intros Hl d. pose proof bounds as Hb. unfold next_mapped_offset.
  rewrite (i64_id (nr * ss)), (i64_id (ct * ss)), (i64_id (l - nr * ss)) by lia.
  destruct (decide (l < nr * ss)) as [Hd1|Hd1].
  - replace (Z.rem (l - nr * ss) (ct * ss)) with (l - nr * ss).
    2: { rewrite <- (Z.opp_involutive (l - nr * ss)), Z.rem_opp_l by lia.
         rewrite Z.rem_small; lia. }
    rewrite i64_id by lia. rewrite decide_True by lia. done.
  - rewrite rem_nonneg by lia. fold d.
    pose proof (Z.mod_pos_bound (l - nr * ss) (ct * ss) ltac:(lia)) as Hd. fold d in Hd.
    rewrite (i64_id d) by lia. rewrite decide_False by lia.
    destruct (decide (d >= ss)) as [Hd3|Hd3], (decide (ss ≤ d)) as [Hd2|Hd2]; try lia.
    rewrite (i64_id (ct * ss - d)), i64_id by lia. done.
Qed.

Lemma next_owned l :
  0 ≤ l < B63 - ct * ss → owned p fd (next_mapped_offset p fd l) = true.
Proof using Hv.
  intros Hl. pose proof bounds as Hb. rewrite next_cases by done.
  apply owned_shift. repeat case_decide.
  - rewrite Z.sub_diag, Z.mod_0_l; lia.
  - divmod (l - nr * ss) (ct * ss).
    replace (l + (ct * ss - r) - nr * ss) with ((q + 1) * (ct * ss) + 0) by lia.
    rewrite mod_mul_add; lia.
  - lia.
Qed.

Lemma next_ge l :
  0 ≤ l < B63 - ct * ss → l ≤ next_mapped_offset p fd l < B63.
Proof using Hv.
  intros Hl. pose proof bounds as Hb. rewrite next_cases by done.
  pose proof (Z.mod_pos_bound (l - nr * ss) (ct * ss) ltac:(lia)).
  repeat case_decide; lia.
Qed.

Lemma next_first l k :
  0 ≤ l < B63 - ct * ss →
  l ≤ k < next_mapped_offset p fd l → owned p fd k = false.
Proof using Hv.
  intros Hl Hk. pose proof bounds as Hb. rewrite next_cases in Hk by done.
  apply not_true_is_false. rewrite owned_shift.
  repeat case_decide; [| |lia].
  - replace (k - nr * ss) with (-1 * (ct * ss) + (k - nr * ss + ct * ss)) by lia.
    rewrite mod_mul_add; lia.
  - divmod (l - nr * ss) (ct * ss).
    replace (k - nr * ss) with (q * (ct * ss) + (r + (k - l))) by lia.
    rewrite mod_mul_add; lia.
Qed.

(** The run of owned bytes that starts at an owned byte. *)
Lemma contig_rank l :
  0 ≤ l < B63 → owned p fd l = true →
  contiguous_length p fd (rank (owned p fd) l) = ss - (l - nr * ss) mod (ct * ss).
Proof using Hv.
  intros Hl Ho. pose proof bounds as Hb. rewrite rank_owned_byte by (done || lia).
  apply owned_spec in Ho. unfold contiguous_length. divmod l (ct * ss).
  assert (0 ≤ q) by nia.
  rewrite rem_nonneg, mod_mul_add, (i64_id (r - nr * ss)), i64_id by nia.
  replace (l - nr * ss) with (q * (ct * ss) + (r - nr * ss)) by lia.
  rewrite mod_mul_add; lia.
Qed.

Lemma contig_owned l k :
  0 ≤ l < B63 → owned p fd l = true →
  l ≤ k < l + contiguous_length p fd (rank (owned p fd) l) → owned p fd k = true.
Proof using Hv.
  intros Hl Ho. pose proof bounds as Hb. rewrite contig_rank by done. intros Hk.
  apply owned_shift in Ho. apply owned_shift. divmod (l - nr * ss) (ct * ss).
  replace (k - nr * ss) with (q * (ct * ss) + (r + (k - l))) by lia.
  rewrite mod_mul_add; lia.
Qed.
End arith.

(** Simple stripe keeps every promise of the distribution interface. *)
#[export] Instance simple_stripe_laws p fd :
  valid p fd →
  DistLaws simple_stripe_methods p fd (owned p fd)
    (B63 - server_ct fd * strip_size p).
Proof.
  intros Hv. pose proof (bounds p fd Hv) as Hb.
  split; simpl; intros; eauto using l2p_rank, p2l_rank, next_ge, next_owned,
    next_first, contig_owned; [lia| |].
  - rewrite contig_rank by done. apply owned_shift in H0; [|done].
    pose proof (Z.mod_pos_bound (l - server_nr fd * strip_size p)
      (server_ct fd * strip_size p) ltac:(lia)). lia.
  - apply owned_spec; [done|].
    pose proof (Z.mod_pos_bound l (server_ct fd * strip_size p) ltac:(lia)). nia.
Qed.

(** * The three offset methods agree with each other *)

(** Converting a physical offset to a logical one and back is the
    identity, for every physical offset whose stripe lies below 2^63. *)
Theorem simple_stripe_p2l_l2p p fd x :
  valid p fd → 0 ≤ x →
  (x / strip_size p + 1) * (server_ct fd * strip_size p) ≤ B63 →
  logical_to_physical_offset p fd (physical_to_logical_offset p fd x) = x.
Proof.
  intros Hv Hx Hlt. pose proof (bounds p fd Hv) as Hb.
  pose proof (Z.mod_pos_bound x (strip_size p) ltac:(lia)).
  pose proof (Z.div_pos x (strip_size p) ltac:(lia) ltac:(lia)).
  assert (x / strip_size p * (server_ct fd * strip_size p) +
          server_nr fd * strip_size p + x mod strip_size p < B63) by lia.
  destruct (p2l_owned p fd Hv x) as [Ho Hr]; [done..|].
  rewrite l2p_rank; [done..|]. rewrite p2l_phys by done. split; [nia|lia].
Qed.

Lemma simple_stripe_p2l_l2p_witness :
  logical_to_physical_offset {| strip_size := 4 |} (mkFileData 0 2 3 false)
    (physical_to_logical_offset {| strip_size := 4 |} (mkFileData 0 2 3 false) 9)
  = 9.
Proof.
  apply simple_stripe_p2l_l2p; [vm_decide|lia|].
  vm_compute. congruence.
Defined.

Lemma l2p_p2l_next p fd l :
  valid p fd → 0 ≤ l < B63 - server_ct fd * strip_size p →
  physical_to_logical_offset p fd (logical_to_physical_offset p fd l) =
  next_mapped_offset p fd l.
Proof.
  intros Hv Hl. pose proof (bounds p fd Hv) as Hb.
  pose proof (next_ge p fd Hv l Hl) as Hge.
  rewrite l2p_rank by (done || lia).
  rewrite <- (rank_gap _ l (next_mapped_offset p fd l)).
  - apply p2l_rank; [done|lia|]. by apply next_owned.
  - lia.
  - intros k Hk. by apply (next_first p fd Hv l).
Qed.

(** C17. For any logical offset, converting to physical and back yields the
    offset [next_mapped_offset] computes, and that offset is the first byte at
    or after it that this server stores. *)
Theorem simple_stripe_l2p_p2l p fd l :
  valid p fd → 0 ≤ l < B63 - server_ct fd * strip_size p →
  let l' := next_mapped_offset p fd l in
  physical_to_logical_offset p fd (logical_to_physical_offset p fd l) = l' ∧
  l ≤ l' ∧ owned p fd l' = true ∧ ∀ k, l ≤ k < l' → owned p fd k = false.
Proof.
  intros Hv Hl l'. pose proof (next_ge p fd Hv l Hl).
  split_and!; [by apply l2p_p2l_next|unfold l'; lia|by apply next_owned|].
  intros k. by apply next_first.
Qed.

Lemma simple_stripe_l2p_p2l_witness :
  physical_to_logical_offset {| strip_size := 4 |} (mkFileData 0 1 3 false)
    (logical_to_physical_offset {| strip_size := 4 |} (mkFileData 0 1 3 false) 21)
  = 28.
Proof.
  edestruct simple_stripe_l2p_p2l as [-> _]; [| |reflexivity]; [vm_decide|simpl; lia].
Defined.

(** * Every byte lives on exactly one server *)

Lemma on_server_valid p ct n :
  0 < strip_size p → 0 < ct < B32 → ct * strip_size p < B63 → 0 ≤ n < ct →
  valid p (on_server ct n).
Proof. intros. unfold valid, on_server; simpl. lia. Qed.

Lemma owner_range p ct l :
  0 < strip_size p → 0 < ct → 0 ≤ owner p ct l < ct.
Proof.
  intros. unfold owner.
  pose proof (Z.mod_pos_bound l (ct * strip_size p) ltac:(nia)) as Hr.
  split; [apply Z.div_pos; lia|]. apply Z.div_lt_upper_bound; lia.
Qed.

Lemma owned_owner p ct n l :
  owned p (on_server ct n) l = bool_decide (owner p ct l = n).
Proof. reflexivity. Qed.

(** Every logical byte is stored on exactly one server: one server maps
    it to a physical offset that maps back to it, and no other does. *)
Theorem simple_stripe_partition p ct l :
  0 < strip_size p → 0 < ct < B32 → ct * strip_size p < B63 →
  0 ≤ l < B63 - ct * strip_size p →
  exists! n, 0 ≤ n < ct ∧
    physical_to_logical_offset p (on_server ct n)
      (logical_to_physical_offset p (on_server ct n) l) = l.
Proof.
  intros Hs Hc Hsc Hl. exists (owner p ct l).
  assert (∀ n, 0 ≤ n < ct →
    (physical_to_logical_offset p (on_server ct n)
       (logical_to_physical_offset p (on_server ct n) l) = l ↔ owner p ct l = n)) as Hiff.
  { intros n Hn. pose proof (on_server_valid p ct n Hs Hc Hsc Hn) as Hv.
    rewrite l2p_p2l_next by done. split; intros H.
    - pose proof (next_owned p _ Hv l Hl) as Ho. rewrite H, owned_owner in Ho.
      by apply bool_decide_eq_true in Ho.
    - destruct (decide (next_mapped_offset p (on_server ct n) l = l)) as [?|Hne]; [done|].
      pose proof (next_ge p _ Hv l Hl).
      pose proof (next_first p _ Hv l l Hl ltac:(lia)) as Ho.
      rewrite owned_owner in Ho. by apply bool_decide_eq_false in Ho. }
  split.
  - pose proof (owner_range p ct l Hs ltac:(lia)). split; [done|]. by apply Hiff.
  - intros n [Hn H]. by apply Hiff in H.
Qed.

Lemma simple_stripe_partition_witness :
  exists! n, 0 ≤ n < 5 ∧
    physical_to_logical_offset simple_stripe_params (on_server 5 n)
      (logical_to_physical_offset simple_stripe_params (on_server 5 n) 200000) = 200000.
Proof. apply simple_stripe_partition; simpl; lia. Defined.

(** * File size *)

(** A server whose last byte is logical byte [l] accounts for [l + 1] bytes. *)
Lemma size_owned_byte p fd l :
  valid p fd → 0 ≤ l < B63 - 1 → owned p fd l = true →
  physical_to_logical_size p fd (rank (owned p fd) l + 1) = l + 1.
Proof.
  intros Hv Hl Ho. pose proof (bounds p fd Hv) as Hb.
  rewrite rank_owned_byte by (done || lia). apply owned_spec in Ho; [|done].
  divmod l (server_ct fd * strip_size p).
  assert (0 ≤ q) by nia.
  assert (0 ≤ q * strip_size p ≤ q * (server_ct fd * strip_size p)
          ∧ q ≤ q * strip_size p) by nia.
  unfold physical_to_logical_size. rewrite decide_False by lia.
  replace (q * strip_size p + (r - server_nr fd * strip_size p) + 1 - 1)
    with (q * strip_size p + (r - server_nr fd * strip_size p)) by lia.
  rewrite (i64_id (q * strip_size p + (r - server_nr fd * strip_size p))) by lia.
  rewrite quot_nonneg, rem_nonneg, div_mul_add, mod_mul_add by lia.
  rewrite (i64_id q), (i64_id (r - _)), (i64_id (q * strip_size p)) by lia.
  rewrite (i64_id (r - _ + 1)) by lia.
  replace (q * strip_size p * server_ct fd)
    with (q * (server_ct fd * strip_size p)) by lia.
  rewrite (Z.mul_comm (strip_size p) (server_nr fd)).
  rewrite (i64_id (q * _)), (i64_id (server_nr fd * _)) by lia.
  rewrite (i64_id (_ + server_nr fd * strip_size p)), i64_id by lia. lia.
Qed.

(** The last owned byte below [l], when there is one. *)
Lemma last_owned (P : Z → bool) l :
  0 ≤ l → 0 < rank P l →
  ∃ k, 0 ≤ k < l ∧ P k = true ∧ rank P k + 1 = rank P l.
Proof.
  intros Hl. pattern l. apply natlike_ind; [rewrite rank_0; lia| |done].
  intros m Hm IH. replace (Z.succ m) with (m + 1) by lia.
  rewrite rank_succ by done. destruct (P m) eqn:HP; intros Hr.
  - exists m. split_and!; [lia..|done|lia].
  - destruct IH as (k & ? & ? & ?); [lia|]. exists k. split_and!; [lia..|done|lia].
Qed.

(** What a server reports for a file of [l] bytes: nothing, or a size between
    1 and [l], and exactly [l] on the server that stores the last byte. *)
Lemma size_server p fd l :
  valid p fd → 0 ≤ l < B63 →
  let ps := logical_to_physical_offset p fd l in
  (ps ≠ 0 → 0 < physical_to_logical_size p fd ps ≤ l) ∧
  (0 < l → owned p fd (l - 1) = true →
    ps ≠ 0 ∧ physical_to_logical_size p fd ps = l).
Proof.
  intros Hv Hl ps. subst ps. rewrite l2p_rank by done.
  pose proof (rank_nonneg (owned p fd) l). split.
  - intros Hne. destruct (last_owned (owned p fd) l) as (k & Hk & Ho & <-); [lia..|].
    rewrite size_owned_byte by (done || lia). lia.
  - intros H0 Ho. pose proof (rank_succ (owned p fd) (l - 1) ltac:(lia)) as Hs.
    rewrite Ho in Hs. replace (l - 1 + 1) with l in Hs by lia. rewrite Hs.
    pose proof (rank_nonneg (owned p fd) (l - 1)).
    rewrite size_owned_byte by (done || lia). lia.
Qed.

(** The loop computes the maximum of what the servers report. *)
Lemma logical_file_size_loop_spec p ct psizes s n max (l : Z) :
  (s + n ≤ length psizes)%nat → max ≤ l →
  (∀ i ps, (s ≤ i < s + n)%nat → psizes !! i = Some ps → ps ≠ 0 →
    physical_to_logical_size p (on_server ct (Z.of_nat i)) ps ≤ l) →
  (max = l ∨ ∃ i ps, (s ≤ i < s + n)%nat ∧ psizes !! i = Some ps ∧ ps ≠ 0 ∧
    physical_to_logical_size p (on_server ct (Z.of_nat i)) ps = l) →
  logical_file_size_loop p ct psizes s n max = Some l.
Proof.
  revert s max. induction n as [|n IH]; intros s max Hlen Hmax Hall Hex; cbn [logical_file_size_loop].
  { destruct Hex as [->|(i & ps & ? & _)]; [done|lia]. }
  destruct (lookup_lt_is_Some_2 psizes s ltac:(lia)) as [ps Hps]. rewrite Hps.
  assert (ps ≠ 0 → physical_to_logical_size p (on_server ct (Z.of_nat s)) ps ≤ l) as Hle.
  { intros. eapply Hall; [|done..]. lia. }
  unfold on_server in *. apply IH.
  - lia.
  - repeat case_decide; lia.
  - intros i ps' Hi. apply Hall. lia.
  - destruct Hex as [->|(i & ps' & Hi & Hl & Hne & Heq)].
    + left. repeat case_decide; lia.
    + destruct (decide (i = s)) as [->|].
      * simplify_eq. left. rewrite decide_True by done. case_decide; lia.
      * right. exists i, ps'. split_and!; (done || lia).
Qed.

(** C18. A file of [l] bytes written without holes is reported to have [l]
    bytes: [logical_file_size] inverts the physical sizes the servers hold. *)
Theorem simple_stripe_file_size p ct l :
  0 < strip_size p → 0 < ct < B32 → ct * strip_size p < B63 → 0 ≤ l < B63 →
  logical_file_size p ct
    (Some (map (λ n, logical_to_physical_offset p (on_server ct n) l) (seqZ 0 ct)))
  = Some l.
Proof.
  intros Hs Hc Hsc Hl. unfold logical_file_size.
  set (ps := map _ _).
  assert (∀ i, (i < Z.to_nat ct)%nat → ps !! i =
    Some (logical_to_physical_offset p (on_server ct (Z.of_nat i)) l)) as Hlook.
  { intros i Hi. unfold ps. rewrite list_lookup_fmap, lookup_seqZ_lt by lia.
    simpl. do 3 f_equal. }
  apply logical_file_size_loop_spec.
  - unfold ps. rewrite length_map, length_seqZ. lia.
  - lia.
  - intros i x Hi Hx. rewrite Hlook in Hx by lia. simplify_eq.
    pose proof (size_server p (on_server ct (Z.of_nat i)) l) as Hsz.
    intros. apply Hsz; [|lia|done]. apply on_server_valid; lia.
  - destruct (decide (l = 0)) as [->|]; [by left|right].
    pose proof (owner_range p ct (l - 1) Hs ltac:(lia)) as Hown.
    exists (Z.to_nat (owner p ct (l - 1))). eexists.
    split_and!; [lia..|apply Hlook; lia| |]; rewrite Z2Nat.id by lia;
      apply size_server; try lia; try (apply on_server_valid; lia);
      rewrite owned_owner; by apply bool_decide_eq_true.
Qed.

Lemma simple_stripe_file_size_witness :
  logical_file_size simple_stripe_params 3
    (Some (map (λ n, logical_to_physical_offset simple_stripe_params (on_server 3 n)
                       1000000) (seqZ 0 3))) = Some 1000000.
Proof. apply simple_stripe_file_size; simpl; lia. Defined.
