(* ===== verification/Request.v ===== *)
(** Request processing data of src/src/io/description/pint-request.h: modes,
    request structures, request state and the result of processing. *)

From stdpp Require Import list numbers gmap.
From S2P Require Import Prelude Dist.

(** * Modes *)

Definition PINT_SERVER : Z := 1.
Definition PINT_CLIENT : Z := 2.
Definition PINT_CKSIZE : Z := 4.
Definition PINT_LOGICAL_SKIP : Z := 16.
Definition PINT_MEMREQ : Z := 64.

Definition PINT_IS_CLIENT (x : Z) : bool := bool_decide (Z.land x PINT_CLIENT ≠ 0).
Definition PINT_IS_CKSIZE (x : Z) : bool := bool_decide (Z.land x PINT_CKSIZE ≠ 0).
Definition PINT_EQ_CKSIZE (x : Z) : bool := bool_decide (x = PINT_CKSIZE).
Definition PINT_IS_LOGICAL_SKIP (x : Z) : bool :=
  bool_decide (Z.land x PINT_LOGICAL_SKIP ≠ 0).
Definition PINT_IS_MEMREQ (x : Z) : bool := bool_decide (Z.land x PINT_MEMREQ ≠ 0).
Definition PINT_SET_LOGICAL_SKIP (x : Z) : Z := Z.lor x PINT_LOGICAL_SKIP.
Definition PINT_CLR_LOGICAL_SKIP (x : Z) : Z := Z.land x (Z.lnot PINT_LOGICAL_SKIP).

#[global] Arguments PINT_IS_CLIENT : simpl never.
#[global] Arguments PINT_IS_CKSIZE : simpl never.
#[global] Arguments PINT_EQ_CKSIZE : simpl never.
#[global] Arguments PINT_IS_LOGICAL_SKIP : simpl never.
#[global] Arguments PINT_IS_MEMREQ : simpl never.

(** * Request structures

    Requests form a graph of structs linked by [ereq] and [sreq]; a pointer is
    an address in a heap, [None] is the NULL pointer. *)

Definition ptr := option positive.

Record PINT_Request := mkRequest {
  offset : Z;            (* PVFS_offset: offset from start of last set of elements *)
  num_ereqs : Z;         (* int32_t: number of ereqs in a block *)
  num_blocks : Z;        (* int32_t: number of blocks *)
  stride : Z;            (* PVFS_size: stride between blocks in bytes *)
  ub : Z;                (* PVFS_offset: upper bound of the type in bytes *)
  lb : Z;                (* PVFS_offset: lower bound of the type in bytes *)
  aggregate_size : Z;    (* PVFS_size: amount of aggregate data in bytes *)
  num_contig_chunks : Z; (* int32_t: number of contiguous data chunks *)
  depth : Z;             (* int32_t: number of levels of nesting *)
  num_nested_req : Z;    (* int32_t: number of requests nested under this one *)
  committed : Z;         (* int32_t: indicates if request has been commited *)
  refcount : Z;          (* int32_t: number of references to this struct *)
  ereq : ptr;            (* element type *)
  sreq : ptr;            (* sequence type *)
}.

Abbreviation req_heap := (gmap positive PINT_Request).

(** Reading a struct through a pointer. *)
Definition deref (h : req_heap) (p : ptr) : exec PINT_Request :=
  match p with
  | Some a => match h !! a with Some r => Done r | None => Fault BadAccess end
  | None => Fault BadAccess
  end.

(** * Request state *)

Record PINT_reqstack := mkReqstack {
  el : Z;            (* int64_t: number of element being processed *)
  maxel : Z;         (* int64_t: total number of these elements to process *)
  rq : ptr;          (* pointer to request structure *)
  rqbase : ptr;      (* pointer to first request in sequence chain *)
  blk : Z;           (* int32_t: number of block being processed *)
  chunk_offset : Z;  (* PVFS_offset: beginning of current contiguous chunk *)
}.

Record PINT_Request_state := mkState {
  cur : list PINT_reqstack; (* request element chain stack *)
  lvl : Z;                  (* int32_t: level in element chain *)
  rs_bytes : Z;             (* PVFS_size: bytes in current contiguous chunk processed *)
  type_offset : Z;          (* PVFS_offset: logical offset within request type *)
  target_offset : Z;        (* PVFS_offset: first type offset to process *)
  final_offset : Z;         (* PVFS_offset: last type offset to process *)
  eof_flag : bool;          (* PVFS_boolean: is file at end of file *)
}.

(** * Results *)

Record PINT_Request_result := mkResult {
  offset_array : option (list Z); (* array of offsets for each segment output *)
  size_array : option (list Z);   (* array of sizes for each segment output *)
  segmax : Z;                     (* int32_t: maximum number of segments *)
  segs : Z;                       (* int32_t: number of segments output *)
  bytemax : Z;                    (* PVFS_size: maximum number of bytes *)
  bytes : Z;                      (* PVFS_size: number of bytes output *)
}.

Definition set_offset_array (r : PINT_Request_result) (a : option (list Z)) :=
  mkResult a (size_array r) (segmax r) (segs r) (bytemax r) (bytes r).
Definition set_size_array (r : PINT_Request_result) (a : option (list Z)) :=
  mkResult (offset_array r) a (segmax r) (segs r) (bytemax r) (bytes r).
Definition set_segs (r : PINT_Request_result) (n : Z) :=
  mkResult (offset_array r) (size_array r) (segmax r) n (bytemax r) (bytes r).
Definition set_bytes (r : PINT_Request_result) (n : Z) :=
  mkResult (offset_array r) (size_array r) (segmax r) (segs r) (bytemax r) n.

(** The macro [PINT_ADD_SEGMENT] of pint-request.c: add a segment to the
    result list, combining it with the last one when they are adjacent. *)
Definition PINT_ADD_SEGMENT (result : PINT_Request_result) (offset size mode : Z)
    : exec PINT_Request_result :=
  if decide (size > 0) then
    result1 ←
      (if PINT_IS_CKSIZE mode then Done (set_segs result (i32 (segs result + 1)))
       else
         adjacent ←
           (if decide (segs result > 0) then
              o ← array_get (offset_array result) (segs result - 1);
              s ← array_get (size_array result) (segs result - 1);
              Done (bool_decide (o +ₗ s = offset))
            else Done false);
         if (adjacent : bool) then
           (* combine adjacent segments *)
           s ← array_get (size_array result) (segs result - 1);
           sa ← array_set (size_array result) (segs result - 1) (s +ₗ size);
           Done (set_size_array result sa)
         else
           (* add a segment *)
           oa ← array_set (offset_array result) (segs result) offset;
           sa ← array_set (size_array result) (segs result) size;
           Done (set_segs (set_size_array (set_offset_array result oa) sa)
                   (i32 (segs result + 1))));
    Done (set_bytes result1 (bytes result1 +ₗ size))
  else Done result.

(** The segments output so far, and the byte offsets they stand for. *)
Definition segments (r : PINT_Request_result) : list (Z * Z) :=
  match offset_array r, size_array r with
  | Some oa, Some sa => take (Z.to_nat (segs r)) (zip oa sa)
  | _, _ => []
  end.

Definition expand (ss : list (Z * Z)) : list Z :=
  ss ≫= λ '(o, s), seqZ o s.

(** A result whose arrays hold [segmax] cells and whose counters are in
    range: what every caller of the request processor sets up. *)
Definition result_ok (r : PINT_Request_result) : Prop :=
  ∃ oa sa, offset_array r = Some oa ∧ size_array r = Some sa ∧
    Z.of_nat (length oa) = segmax r ∧ Z.of_nat (length sa) = segmax r ∧
    0 ≤ segs r ≤ segmax r ∧ segmax r < B31 ∧ 0 ≤ bytes r ≤ bytemax r ∧ bytemax r < B63 ∧
    Forall (λ '(o, s), 0 ≤ o ∧ 0 < s ∧ o + s < B63) (segments r).

(** * Adding a segment *)

Lemma take_insert_snoc {A} (l : list A) i x :
  (i < length l)%nat → take (S i) (<[i:=x]> l) = take i l ++ [x].
Proof.
  intros Hi. rewrite (take_S_r _ _ x) by (by rewrite list_lookup_insert_eq).
  by rewrite take_insert_ge.
Qed.

Lemma expand_app ss1 ss2 : expand (ss1 ++ ss2) = expand ss1 ++ expand ss2.
Proof. unfold expand. by rewrite bind_app. Qed.

Lemma expand_one o s : expand [(o, s)] = seqZ o s.
Proof. unfold expand. simpl. by rewrite app_nil_r. Qed.

(** Writing cell [i] of both arrays writes cell [i] of their zip. *)
Lemma zip_insert (oa sa : list Z) i o s :
  zip (<[i:=o]> oa) (<[i:=s]> sa) = <[i:=(o, s)]> (zip oa sa).
Proof. symmetry. apply (insert_zip_with pair oa sa i o s). Qed.

Lemma zip_insert_r (oa sa : list Z) i o s :
  oa !! i = Some o → zip oa (<[i:=s]> sa) = <[i:=(o, s)]> (zip oa sa).
Proof. intros H. rewrite <- zip_insert. by rewrite (list_insert_id oa). Qed.

(** The two ways the macro extends the segment list. *)
Lemma segments_push (oa sa : list Z) smax sg bm b o s :
  0 ≤ sg → sg < Z.of_nat (length oa) → sg < Z.of_nat (length sa) →
  segments (mkResult (Some (<[Z.to_nat sg:=o]> oa)) (Some (<[Z.to_nat sg:=s]> sa))
              smax (sg + 1) bm b) =
  segments (mkResult (Some oa) (Some sa) smax sg bm b) ++ [(o, s)].
Proof.
  intros. unfold segments. simpl. rewrite zip_insert.
  replace (Z.to_nat (sg + 1)) with (S (Z.to_nat sg)) by lia.
  apply take_insert_snoc. rewrite length_zip_with. lia.
Qed.

Lemma segments_last (oa sa : list Z) smax sg bm b :
  0 < sg → sg ≤ Z.of_nat (length oa) → sg ≤ Z.of_nat (length sa) →
  ∃ pre o0 s0,
    segments (mkResult (Some oa) (Some sa) smax sg bm b) = pre ++ [(o0, s0)] ∧
    oa !! Z.to_nat (sg - 1) = Some o0 ∧ sa !! Z.to_nat (sg - 1) = Some s0 ∧
    ∀ x b', segments (mkResult (Some oa) (Some (<[Z.to_nat (sg - 1):=x]> sa))
                        smax sg bm b') = pre ++ [(o0, x)].
Proof.
  intros Hsg Ho Hs. set (i := Z.to_nat (sg - 1)).
  destruct (lookup_lt_is_Some_2 oa i ltac:(lia)) as [o0 Ho0].
  destruct (lookup_lt_is_Some_2 sa i ltac:(lia)) as [s0 Hs0].
  exists (take i (zip oa sa)), o0, s0. unfold segments. simpl.
  replace (Z.to_nat sg) with (S i) by lia. split_and!; [|done..|].
  - apply take_S_r. rewrite lookup_zip_with, Ho0. simpl. by rewrite Hs0.
  - intros x b'. rewrite (zip_insert_r oa sa i o0) by done.
    apply take_insert_snoc. rewrite length_zip_with. lia.
Qed.

Section add_segment.
Context (r : PINT_Request_result) (o s mode : Z).
Hypothesis (Hok : result_ok r) (Hseg : segs r < segmax r) (Hs : 0 < s).
Hypothesis (Ho : 0 ≤ o) (Hos : o + s < B63) (Hb : bytes r + s ≤ bytemax r).
Hypothesis (Hmode : PINT_IS_CKSIZE mode = false).

(** The segment is recorded exactly once, alone or merged with the last. *)
Lemma add_segment_spec :
  ∃ r', PINT_ADD_SEGMENT r o s mode = Done r' ∧ result_ok r' ∧
    expand (segments r') = expand (segments r) ++ seqZ o s ∧
    bytes r' = bytes r + s ∧ bytemax r' = bytemax r ∧ segmax r' = segmax r ∧
    segs r ≤ segs r' ≤ segs r + 1.
Proof using All.
  destruct Hok as (oa & sa & Eo & Es & Hlo & Hls & Hsegs & Hmax & Hbytes & Hbm & Hall).
  destruct r as [oar sar smax sg bm b]. simpl in *. subst oar sar smax.
  set (rnew := mkResult (Some (<[Z.to_nat sg:=o]> oa)) (Some (<[Z.to_nat sg:=s]> sa))
                 (Z.of_nat (length oa)) (sg + 1) bm (b + s)).
  assert (result_ok rnew ∧
    expand (segments rnew) = expand (segments
      (mkResult (Some oa) (Some sa) (Z.of_nat (length oa)) sg bm b)) ++ seqZ o s) as Hnew.
  { split.
    - exists (<[Z.to_nat sg:=o]> oa), (<[Z.to_nat sg:=s]> sa).
      unfold rnew; simpl. rewrite !length_insert.
      split_and!; try done; try lia.
      rewrite segments_push by lia. apply Forall_app. split; [exact Hall|].
      by apply Forall_singleton.
    - unfold rnew. rewrite segments_push by lia.
      by rewrite expand_app, expand_one. }
  unfold PINT_ADD_SEGMENT. rewrite decide_True by lia. simpl. rewrite Hmode.
  destruct (decide (sg > 0)) as [Hpos|Hz].
  2: { simpl. rewrite !array_set_Some by lia. simpl. unfold set_bytes; simpl.
       rewrite i32_id, i64_id by lia. exists rnew. destruct Hnew.
       split_and!; simpl; done || lia. }
  destruct (segments_last oa sa (Z.of_nat (length oa)) sg bm b)
    as (pre & o0 & s0 & Hseg0 & Ho0 & Hs0 & Hupd); [lia..|].
  rewrite (array_get_Some oa _ o0), (array_get_Some sa _ s0) by (lia || done). simpl.
  rewrite Hseg0 in Hall. apply Forall_app in Hall as [Hpre Hlast].
  apply Forall_singleton in Hlast as (? & ? & ?).
  rewrite (i64_id (o0 + s0)) by lia.
  case_bool_decide as Hadj.
  2: { simpl. rewrite !array_set_Some by lia. simpl. unfold set_bytes; simpl.
       rewrite i32_id, i64_id by lia. exists rnew. destruct Hnew.
       split_and!; simpl; done || lia. }
  rewrite array_set_Some by lia. simpl. rewrite !i64_id by lia.
  eexists. split; [done|]. split; [|split_and!; simpl; try lia].
  - exists oa, (<[Z.to_nat (sg - 1):=s0 + s]> sa).
    unfold set_bytes; simpl. rewrite !length_insert.
    split_and!; try done; try lia. rewrite Hupd. apply Forall_app.
    split; [done|]. apply Forall_singleton. lia.
  - unfold set_bytes; simpl. rewrite Hupd, Hseg0, !expand_app, !expand_one.
    rewrite <- app_assoc. f_equal. rewrite seqZ_app by lia. by rewrite Hadj.
Qed.
End add_segment.
