(* ===== verification/Distribute.v ===== *)
(** [PINT_distribute] of src/src/io/description/pint-request.c: maps one
    contiguous region of the logical file to the segments of it that one
    server stores.  Proved against the distribution interface of Dist.v. *)

From stdpp Require Import list numbers gmap.
From S2P Require Import Prelude Dist DistBasic SimpleStripe Request.

(** [PINT_dist]: the parameters and the methods of a distribution; the C
    struct holds a [void *] next to the method table that interprets it. *)
Record PINT_dist := mkDist {
  dist_params_type : Type;
  dist_params : option dist_params_type;
  dist_methods : option (PINT_dist_methods dist_params_type);
}.

(** [PINT_request_file_data]: the fields the methods read, and the
    distribution itself. *)
Record PINT_request_file_data := mkRfdata {
  rf_data : file_data;
  dist : option PINT_dist;
}.

Definition set_fsize (fd : file_data) (n : Z) : file_data :=
  mkFileData n (server_nr fd) (server_ct fd) (extend_flag fd).

Definition PINT_REQUEST_STATE_SET_TARGET (s : PINT_Request_state) (v : Z) :=
  mkState (cur s) (lvl s) (rs_bytes s) (type_offset s) v (final_offset s) (eof_flag s).
Definition PINT_REQUEST_STATE_SET_FINAL (s : PINT_Request_state) (v : Z) :=
  mkState (cur s) (lvl s) (rs_bytes s) (type_offset s) (target_offset s) v (eof_flag s).

(** The variables of the loop. *)
Record dloop := mkDloop {
  d_offset : Z;
  d_size : Z;
  d_loff : Z;
  d_rf : file_data;
  d_mem : option PINT_Request_state;
  d_result : PINT_Request_result;
  d_eof : bool;
}.

(** [break] leaves the loop, [next] goes on with it. *)
Inductive flow := Break (st : dloop) | Next (st : dloop).

Section distribute.
(** The recursive call [PINT_process_request(mem, NULL, rfdata, result,
    mode|PINT_MEMREQ)]; Process.v supplies it. *)
Context (process_mem : PINT_Request_state → file_data → PINT_Request_result →
           Z → exec (PINT_Request_state * PINT_Request_result)).
Context {params : Type} (m : PINT_dist_methods params) (p : params).

(** From "process a segment" to the end of one iteration, with [sz] clipped
    to the strip, the byte limit and the end of file. *)
Definition distribute_segment (st : dloop) (diff poff sz : Z) (mode : Z) : exec flow :=
  let result := d_result st in
  poff ←
    (if PINT_IS_CLIENT mode then
       o ← array_get (offset_array result) (segs result); Done (o +ₗ diff)
     else Done poff);
  r ←
    (match d_mem st with
     | Some mem =>
         if PINT_IS_CLIENT mode then
           let current_segs := segs result in
           let mem1 := PINT_REQUEST_STATE_SET_FINAL
             (PINT_REQUEST_STATE_SET_TARGET mem poff) (poff +ₗ sz) in
           '(mem2, result2) ← process_mem mem1 (d_rf st) result (Z.lor mode PINT_MEMREQ);
           let sz' := type_offset mem2 -ₗ poff in
           Done (Some mem2, result2, sz',
                 bool_decide (sz' ≤ 0) && bool_decide (segs result2 = current_segs))
         else
           result2 ← PINT_ADD_SEGMENT result poff sz mode;
           Done (Some mem, result2, sz, false)
     | None =>
         result2 ← PINT_ADD_SEGMENT result poff sz mode;
         Done (None, result2, sz, false)
     end);
  let '(mem, result, sz, stop) := r in
  if (stop : bool) then
    Done (Break (mkDloop (d_offset st) (d_size st) (d_loff st) (d_rf st) mem result (d_eof st)))
  else
    (* this is used by client code *)
    result ←
      (if PINT_IS_CLIENT mode && bool_decide (segs result < segmax result) then
         o ← array_get (offset_array result) (segs result - 1);
         s ← array_get (size_array result) (segs result - 1);
         oa ← array_set (offset_array result) (segs result) (o +ₗ s);
         Done (set_offset_array result oa)
       else Done result);
    (* sz should never be zero or negative *)
    if decide (sz < 1) then
      Done (Break (mkDloop (d_offset st) (d_size st) (d_loff st) (d_rf st) mem result (d_eof st)))
    else
      (* prepare for next iteration *)
      let loff := d_loff st +ₗ sz in
      let size := d_size st -ₗ (loff -ₗ d_offset st) in
      let offset := loff in
      let loff := dm_next_mapped_offset m p (d_rf st) offset in
      if decide (loff = -1) then Fault AssertFailed else
      let st' := mkDloop offset size loff (d_rf st) mem result (d_eof st) in
      (* see if we are finished *)
      if bool_decide (bytes result >= bytemax result) ||
         (negb (PINT_IS_CKSIZE mode) && bool_decide (segs result >= segmax result))
      then Done (Break st') else Done (Next st').

(** How much to process: the rest of the region after [loff], clipped to the
    strip and to the byte limit. *)
Definition distribute_clip (st : dloop) (diff poff : Z) : Z :=
  let rf := d_rf st in
  let result := d_result st in
  (* find how much of requested region remains after loff *)
  let sz := d_size st -ₗ diff in
  (* find how much data after loff/poff is on this server *)
  let fraglen := dm_contiguous_length m p rf poff in
  (* compare that amount to amount of data in requested region *)
  let sz := if bool_decide (sz > fraglen) && bool_decide (server_ct rf ≠ 1)
            then fraglen else sz in
  (* check to see if exceeds bytemax *)
  if decide (bytes result +ₗ sz > bytemax result)
  then bytemax result -ₗ bytes result else sz.

(** One iteration of the loop; [diff] is below [d_size st]. *)
Definition distribute_iter (st : dloop) (diff : Z) (mode : Z) : exec flow :=
  let rf := d_rf st in
  (* find physical offset for this loff *)
  let poff := dm_logical_to_physical_offset m p rf (d_loff st) in
  let sz := distribute_clip st diff poff in
  (* check to see if exceeds end of file *)
  if decide (poff +ₗ sz > fsize rf) then
    if extend_flag rf then
      (* update the file size info *)
      distribute_segment
        (mkDloop (d_offset st) (d_size st) (d_loff st) (set_fsize rf (poff +ₗ sz))
           (d_mem st) (d_result st) (d_eof st)) diff poff sz mode
    else
      (* hit end of file *)
      let sz := fsize rf -ₗ poff in
      let st' := mkDloop (d_offset st) (d_size st) (d_loff st) rf (d_mem st)
                   (d_result st) true in
      if decide (sz ≤ 0) then Done (Break st')
      else distribute_segment st' diff poff sz mode
  else distribute_segment st diff poff sz mode.

(** The loop [while ((diff = loff - offset) < size)]. *)
Fixpoint distribute_loop (fuel : nat) (st : dloop) (mode : Z) : exec dloop :=
  let diff := d_loff st -ₗ d_offset st in
  if decide (diff < d_size st) then
    match fuel with
    | O => Fault OutOfFuel
    | S fuel' =>
        f ← distribute_iter st diff mode;
        match f with
        | Break st' => Done st'
        | Next st' => distribute_loop fuel' st' mode
        end
    end
  else Done st.

(** The function after its argument checks: loop, then end of file test and
    return value.  Every iteration that goes on advances by a byte at least,
    so [size] iterations are enough. *)
Definition distribute_run (offset size : Z) (rf : file_data)
    (mem : option PINT_Request_state) (result : PINT_Request_result) (mode : Z)
    : exec (Z * file_data * option PINT_Request_state * PINT_Request_result * bool) :=
  (* find next logical offset on this server *)
  let loff := dm_next_mapped_offset m p rf offset in
  if decide (loff = -1) then Done (-1, rf, mem, result, false) else
  st ← distribute_loop (Z.to_nat size) (mkDloop offset size loff rf mem result false) mode;
  let poff := dm_logical_to_physical_offset m p (d_rf st) (d_loff st) in
  (* end of file - thus end of request; the value assigned to [retval] here
     is overwritten on both branches below *)
  let eof := if bool_decide (poff >= fsize (d_rf st)) && negb (extend_flag (d_rf st))
             then true else d_eof st in
  let retval := if decide (d_loff st >= offset +ₗ size) then size
                else d_offset st -ₗ offset in
  Done (retval, d_rf st, d_mem st, d_result st, eof).
End distribute.

(** [PINT_distribute]: returns the number of logical bytes processed, the
    updated file data, memory request state and result, and [*eof_flag]. *)
Definition PINT_distribute
    (process_mem : PINT_Request_state → file_data → PINT_Request_result →
       Z → exec (PINT_Request_state * PINT_Request_result))
    (offset size : Z) (rfdata : option PINT_request_file_data)
    (mem : option PINT_Request_state) (result : PINT_Request_result) (mode : Z)
    : exec (Z * option PINT_request_file_data * option PINT_Request_state *
            PINT_Request_result * bool) :=
  (* check if we have maxed out result *)
  if (negb (PINT_IS_CKSIZE mode) && bool_decide (segs result >= segmax result)) ||
     bool_decide (bytes result >= bytemax result) || bool_decide (size = 0) then
    (* not an error, but we didn't process any bytes *)
    Done (0, rfdata, mem, result, false)
  else
    (* verify some critical pointers *)
    match rfdata with
    | Some (mkRfdata rf (Some (mkDist P (Some p) (Some m)))) =>
        '(retval, rf', mem', result', eof) ←
          distribute_run process_mem m p offset size rf mem result mode;
        Done (retval, Some (mkRfdata rf' (Some (mkDist P (Some p) (Some m)))),
              mem', result', eof)
    | _ => Done (0, rfdata, mem, result, false)
    end.

(** * The server side: exactly the owned bytes of the region, in order *)

(** Ranks of consecutive owned bytes are consecutive. *)
Lemma map_rank_owned (owned : Z → bool) a k :
  0 ≤ a → 0 ≤ k →
  map (rank owned) (filter (λ l, owned l = true) (seqZ a k)) =
  seqZ (rank owned a) (rank owned (a + k) - rank owned a).
Proof.
  intros Ha Hk. pattern k. apply natlike_ind; [| |done].
  - rewrite Z.add_0_r, Z.sub_diag. done.
  - intros j Hj IH. replace (Z.succ j) with (j + 1) by lia.
    rewrite seqZ_snoc, filter_app, map_app, IH by done.
    rewrite Z.add_assoc, rank_succ by lia. rewrite filter_cons, filter_nil.
    pose proof (rank_mono owned a (a + j) ltac:(lia)).
    destruct (owned (a + j)) eqn:Ho; simpl.
    + replace (rank owned (a + j) + 1 - rank owned a)
        with (rank owned (a + j) - rank owned a + 1) by lia.
      rewrite seqZ_snoc by lia. do 3 f_equal. lia.
    + rewrite app_nil_r. f_equal. lia.
Qed.

Section server.
Context (process_mem : PINT_Request_state → file_data → PINT_Request_result →
           Z → exec (PINT_Request_state * PINT_Request_result)).
Context {params : Type} (m : PINT_dist_methods params) (p : params) (fd : file_data).
Context (owned : Z → bool) (lim : Z).
Context (L : ∀ n, DistLaws m p (set_fsize fd n) owned lim).
Context (mode : Z) (Hclient : PINT_IS_CLIENT mode = false)
  (Hcksize : PINT_IS_CKSIZE mode = false).
Context (offset size : Z) (mem : option PINT_Request_state) (r0 : PINT_Request_result).
Context (Hoff : 0 ≤ offset) (Hsize : 0 < size) (Hlim : offset + size < lim).
Context (Hok : result_ok r0) (Hbm : bytemax r0 + size < B63).
Context (Hfs : 0 ≤ fsize fd < B63).

Abbreviation rk := (rank owned).

(** The file size after the bytes up to [o] have been emitted. *)
Definition fsize_at (o : Z) : Z :=
  if extend_flag fd && bool_decide (rk offset < rk o) then Z.max (fsize fd) (rk o)
  else fsize fd.

(** The loop invariant: the segments emitted so far are the owned bytes from
    the start of the region up to the current offset. *)
Record dinv (st : dloop) : Prop := {
  di_offset : offset ≤ d_offset st ≤ offset + size;
  di_size : d_size st = offset + size - d_offset st;
  di_loff : d_loff st = dm_next_mapped_offset m p (d_rf st) (d_offset st);
  di_rf : d_rf st = set_fsize fd (fsize_at (d_offset st));
  di_mem : d_mem st = mem;
  di_ok : result_ok (d_result st);
  di_out : expand (segments (d_result st)) =
    expand (segments r0) ++ seqZ (rk offset) (rk (d_offset st) - rk offset);
  di_bytes : bytes (d_result st) = bytes r0 + (rk (d_offset st) - rk offset);
  di_bytemax : bytemax (d_result st) = bytemax r0;
  di_segmax : segmax (d_result st) = segmax r0;
  di_below : extend_flag fd = false →
    rk (d_offset st) = rk offset ∨ rk (d_offset st) ≤ fsize fd;
  di_eof : d_eof st = true → extend_flag fd = false ∧ fsize fd ≤ rk (d_offset st);
}.

Definition room (st : dloop) : Prop :=
  segs (d_result st) < segmax r0 ∧ bytes (d_result st) < bytemax r0.

(** Why the loop can stop before the region is exhausted. *)
Definition stopped (st : dloop) : Prop :=
  bytes (d_result st) = bytemax r0 ∨ segs (d_result st) = segmax r0 ∨
  (extend_flag fd = false ∧ fsize fd ≤ rk (d_offset st)).

Lemma lim_bound : offset + size < B63.
Proof using L Hlim. pose proof (dl_lim (DistLaws := L 0)). lia. Qed.

(** The next owned byte after the current offset. *)
Lemma next_facts n o :
  offset ≤ o ≤ offset + size →
  let l := dm_next_mapped_offset m p (set_fsize fd n) o in
  o ≤ l < B63 ∧ owned l = true ∧ rk l = rk o ∧
  dm_logical_to_physical_offset m p (set_fsize fd n) l = rk o.
Proof using L Hoff Hlim.
  intros Ho l. pose proof (dl_next_ge (DistLaws := L n) o ltac:(lia)) as Hge.
  pose proof (dl_next_owned (DistLaws := L n) o ltac:(lia)) as Hown.
  assert (rk l = rk o) as Hrk.
  { apply rank_gap; [unfold l; lia|]. intros k Hk.
    apply (dl_next_first (DistLaws := L n) o); unfold l in *; lia. }
  split_and!; try done; try (unfold l; lia).
  unfold l. rewrite (dl_l2p (DistLaws := L n)); [exact Hrk|lia|done].
Qed.

(** Emitting [sz] owned bytes that start at the current logical offset. *)
Lemma distribute_segment_spec st n e sz :
  dinv st → room st →
  let l := d_loff st in
  let r := d_result st in
  0 < sz → l + sz ≤ offset + size → (∀ k, l ≤ k < l + sz → owned k = true) →
  bytes r + sz ≤ bytemax r0 → n = fsize_at (l + sz) →
  (extend_flag fd = false → rk (d_offset st) + sz ≤ fsize fd) →
  (e = true → extend_flag fd = false ∧ fsize fd ≤ rk (d_offset st) + sz) →
  ∃ st',
    (distribute_segment process_mem m p
       (mkDloop (d_offset st) (d_size st) l (set_fsize fd n) (d_mem st) r e)
       (l - d_offset st) (rk (d_offset st)) sz mode = Done (Next st') ∧ room st' ∨
     distribute_segment process_mem m p
       (mkDloop (d_offset st) (d_size st) l (set_fsize fd n) (d_mem st) r e)
       (l - d_offset st) (rk (d_offset st)) sz mode = Done (Break st') ∧ stopped st') ∧
    dinv st' ∧ d_offset st < d_offset st'.
Proof using L Hclient Hcksize Hoff Hlim Hbm.
  intros I [Hs Hb] l r Hsz Hle Hrun Hbytes Hn Hbelow He. subst r.
  pose proof lim_bound as HB. pose proof (di_offset _ I) as Ho.
  destruct (next_facts (fsize_at (d_offset st)) (d_offset st) Ho) as (Hge & _ & Hrk & _).
  rewrite <- (di_rf _ I), <- (di_loff _ I) in Hge, Hrk. fold l in Hge, Hrk.
  pose proof (rank_nonneg owned (d_offset st)).
  pose proof (rank_run owned l (l + sz) ltac:(lia) Hrun) as Hrk'.
  pose proof (rank_mono owned offset (d_offset st) ltac:(lia)).
  pose proof (rank_le owned (l + sz) ltac:(lia)).
  destruct (add_segment_spec (d_result st) (rk (d_offset st)) sz mode)
    as (r' & Eadd & Hok' & Hexp & Hby & Hbmx & Hsmx & Hsg);
    try done; try (rewrite ?(di_bytemax _ I), ?(di_segmax _ I); lia).
  { apply (di_ok _ I). }
  set (st' := mkDloop (l + sz) (offset + size - (l + sz))
    (dm_next_mapped_offset m p (set_fsize fd n) (l + sz)) (set_fsize fd n) mem r' e).
  assert (distribute_segment process_mem m p
       (mkDloop (d_offset st) (d_size st) l (set_fsize fd n) (d_mem st) (d_result st) e)
       (l - d_offset st) (rk (d_offset st)) sz mode =
    if bool_decide (bytes r' >= bytemax r') || bool_decide (segs r' >= segmax r')
    then Done (Break st') else Done (Next st')) as ->.
  { unfold distribute_segment. simpl. rewrite Hclient, Hcksize. simpl.
    rewrite (di_mem _ I), (di_size _ I).
    destruct (next_facts n (l + sz) ltac:(lia)) as (Hge' & _).
    unfold st'.
    destruct mem; simpl; rewrite Eadd; simpl; rewrite (decide_False (P := sz < 1)) by lia;
      rewrite (i64_id (l + sz)), (i64_id (l + sz - _)), i64_id by lia;
      rewrite decide_False by lia;
      replace (offset + size - d_offset st - (l + sz - d_offset st))
        with (offset + size - (l + sz)) by lia; done. }
  exists st'. split_and!.
  - destruct (bool_decide_reflect (bytes r' >= bytemax r')); simpl.
    { right. split; [done|]. left. simpl. rewrite (di_bytemax _ I) in *. lia. }
    destruct (bool_decide_reflect (segs r' >= segmax r')).
    { right. split; [done|]. right. left. simpl.
      rewrite (di_segmax _ I) in *. lia. }
    left. split; [done|]. split; simpl;
      rewrite ?(di_bytemax _ I), ?(di_segmax _ I) in *; lia.
  - split; simpl; try done; try lia.
    + by rewrite Hn.
    + rewrite Hexp, (di_out _ I), <- app_assoc. f_equal.
      rewrite Hrk', Hrk.
      replace (rk (d_offset st) + (l + sz - l) - rk offset)
        with ((rk (d_offset st) - rk offset) + sz) by lia.
      rewrite seqZ_app by lia. do 2 f_equal. lia.
    + rewrite Hby, (di_bytes _ I). lia.
    + by rewrite Hbmx, (di_bytemax _ I).
    + by rewrite Hsmx, (di_segmax _ I).
    + intros Hx. specialize (Hbelow Hx). lia.
    + intros Hx. destruct (He Hx). split; [done|lia].
  - simpl. lia.
Qed.

(** The clipped size is a positive number of owned bytes of the region. *)
Lemma distribute_clip_spec st :
  dinv st → room st → d_loff st - d_offset st < d_size st →
  let l := d_loff st in
  let sz := distribute_clip m p st (l - d_offset st) (rk (d_offset st)) in
  0 < sz ∧ l + sz ≤ offset + size ∧ (∀ k, l ≤ k < l + sz → owned k = true) ∧
  bytes (d_result st) + sz ≤ bytemax r0.
Proof using L Hoff Hsize Hlim Hbm.
  intros I [Hs Hb] Hdiff l sz.
  pose proof lim_bound as HB. pose proof (di_offset _ I) as Ho.
  destruct (next_facts (fsize_at (d_offset st)) (d_offset st) Ho) as (Hge & Hown & Hrk & _).
  rewrite <- (di_rf _ I), <- (di_loff _ I) in Hge, Hown, Hrk.
  rewrite (di_size _ I) in Hdiff.
  destruct (di_ok _ I) as (_ & _ & _ & _ & _ & _ & _ & _ & Hby & _).
  subst sz. unfold distribute_clip. rewrite (di_size _ I), (di_bytemax _ I) in *.
  fold l in Hge, Hown, Hrk, Hdiff.
  rewrite (i64_id (_ - (l - _))) by lia.
  replace (offset + size - d_offset st - (l - d_offset st))
    with (offset + size - l) by lia.
  set (frag := dm_contiguous_length m p (d_rf st) (rk (d_offset st))).
  assert (0 < frag < B63) as Hfrag.
  { unfold frag. rewrite <- Hrk, (di_rf _ I). apply (dl_contig_pos (DistLaws := L _)); [lia|done]. }
  assert (∀ k, l ≤ k < l + frag → owned k = true) as Hfown.
  { unfold frag. rewrite <- Hrk, (di_rf _ I).
    intros k. apply (dl_contig_owned (DistLaws := L _)); [lia|done]. }
  set (sz1 := if _ && _ then frag else _).
  assert (0 < sz1 ≤ offset + size - l ∧ ∀ k, l ≤ k < l + sz1 → owned k = true)
    as [Hsz1 Hown1].
  { unfold sz1. destruct (bool_decide_reflect (offset + size - l > frag)) as [|Hn]; simpl.
    - destruct (bool_decide_reflect (server_ct (d_rf st) ≠ 1)) as [|Hct]; [by split; [lia|]|].
      split; [lia|]. intros k Hk. apply (dl_single (DistLaws := L 0)); [lia|].
      apply dec_stable in Hct. by rewrite (di_rf _ I) in Hct.
    - split; [lia|]. intros k Hk. apply Hfown. lia. }
  rewrite (i64_id (_ + sz1)), (i64_id (bytemax r0 - _)) by lia.
  case_decide; split_and!; try lia; intros k Hk; apply Hown1; lia.
Qed.

(** The file size never decreases, and grows to the last byte emitted. *)
Lemma fsize_at_step o l sz :
  rk l = rk o → rk offset ≤ rk o → 0 < sz → rk (l + sz) = rk l + sz →
  fsize_at (l + sz) =
    if extend_flag fd then Z.max (fsize_at o) (rk o + sz) else fsize_at o.
Proof using Type.
  intros Hl Ho Hsz Hr. unfold fsize_at. destruct (extend_flag fd); simpl; [|done].
  repeat case_bool_decide; lia.
Qed.

(** One iteration: it goes on with a larger offset, or it stops for one of
    the three reasons, in both cases inside the invariant. *)
Lemma distribute_iter_spec st :
  dinv st → room st → d_loff st - d_offset st < d_size st →
  ∃ st', dinv st' ∧
    (distribute_iter process_mem m p st (d_loff st - d_offset st) mode = Done (Next st') ∧
       room st' ∧ d_offset st < d_offset st' ∨
     distribute_iter process_mem m p st (d_loff st - d_offset st) mode = Done (Break st') ∧
       stopped st').
Proof using L Hclient Hcksize Hoff Hsize Hlim Hbm Hfs.
  intros I Hroom Hdiff.
  pose proof lim_bound as HB. pose proof (di_offset _ I) as Ho.
  destruct (next_facts (fsize_at (d_offset st)) (d_offset st) Ho) as (Hge & Hown & Hrk & Hl2p).
  rewrite <- (di_rf _ I), <- (di_loff _ I) in Hge, Hown, Hrk, Hl2p.
  destruct (distribute_clip_spec st I Hroom Hdiff) as (Hsz & Hend & Hrun & Hbytes).
  pose proof (rank_nonneg owned (d_offset st)).
  pose proof (rank_mono owned offset (d_offset st) ltac:(lia)).
  unfold distribute_iter. rewrite Hl2p.
  set (sz := distribute_clip _ _ _ _ _) in *.
  pose proof (rank_run owned (d_loff st) (d_loff st + sz) ltac:(lia) Hrun) as Hrun'.
  pose proof (rank_le owned (d_loff st + sz) ltac:(lia)).
  assert (fsize (d_rf st) = fsize_at (d_offset st)) as Hfsz by by rewrite (di_rf _ I).
  assert (extend_flag (d_rf st) = extend_flag fd) as Hext by by rewrite (di_rf _ I).
  rewrite (i64_id (rk _ + sz)), Hfsz, Hext by lia.
  (* a segment of [sz'] bytes keeps the invariant *)
  assert (∀ n e sz', 0 < sz' ≤ sz → n = fsize_at (d_loff st + sz') →
    (extend_flag fd = false → rk (d_offset st) + sz' ≤ fsize fd) →
    (e = true → extend_flag fd = false ∧ fsize fd ≤ rk (d_offset st) + sz') →
    let x := distribute_segment process_mem m p
       (mkDloop (d_offset st) (d_size st) (d_loff st) (set_fsize fd n) (d_mem st)
          (d_result st) e) (d_loff st - d_offset st) (rk (d_offset st)) sz' mode in
    ∃ st', dinv st' ∧ (x = Done (Next st') ∧ room st' ∧ d_offset st < d_offset st' ∨
                       x = Done (Break st') ∧ stopped st')) as Hseg.
  { intros n e sz' Hsz' Hn Hbelow He x.
    destruct (distribute_segment_spec st n e sz') as (st' & Hx & I' & Hlt);
      try done; try lia; [intros k Hk; apply Hrun; lia|].
    exists st'. split; [done|].
    destruct Hx as [[? ?]|[? ?]]; [left|right]; by split_and!. }
  assert (∀ sz', 0 < sz' ≤ sz → fsize_at (d_loff st + sz') =
    if extend_flag fd then Z.max (fsize_at (d_offset st)) (rk (d_offset st) + sz')
    else fsize_at (d_offset st)) as Hfat.
  { intros sz' Hsz'. apply fsize_at_step; try done; try lia.
    rewrite (rank_run owned (d_loff st)); [lia|lia|]. intros k Hk. apply Hrun. lia. }
  case_decide as Hpast; [destruct (extend_flag fd) eqn:Ex|].
  - rewrite (di_rf _ I). apply Hseg; [lia| |done|].
    + rewrite Hfat by lia. lia.
    + intros He. destruct (di_eof _ I He). congruence.
  - assert (fsize_at (d_offset st) = fsize fd) as Hff by (unfold fsize_at; by rewrite Ex).
    rewrite (i64_id (_ - rk _)), Hff by lia. case_decide as Hle.
    + eexists. split; [|right; split; [done|]].
      * destruct I. split; simpl; try done. intros _. split; [done|lia].
      * right. right. simpl. split; [done|lia].
    + rewrite (di_rf _ I). apply Hseg; [lia| |lia|].
      * rewrite Hfat by lia. done.
      * intros _. split; [done|lia].
  - destruct st as [o s l rf mm r e]; simpl in *.
    pose proof (di_rf _ I) as Hrf. simpl in Hrf. subst rf. apply Hseg; [lia| | |].
    + rewrite Hfat by lia. destruct (extend_flag fd); lia.
    + intros Ex. unfold fsize_at in Hpast. rewrite Ex in Hpast. simpl in Hpast. lia.
    + intros He. destruct (di_eof _ I He) as [? Hle]. simpl in Hle. split; [done|lia].
Qed.

(** The loop returns, within the invariant, when it has passed the end of
    the region or for one of the three reasons to stop early. *)
Lemma distribute_loop_spec fuel st :
  dinv st → room st → offset + size - d_offset st ≤ Z.of_nat fuel →
  ∃ st', distribute_loop process_mem m p fuel st mode = Done st' ∧ dinv st' ∧
    (offset + size ≤ d_loff st' ∨ stopped st').
Proof using L Hclient Hcksize Hoff Hsize Hlim Hbm Hfs.
  revert st. induction fuel as [|fuel IH]; intros st I Hroom Hfuel;
    pose proof lim_bound as HB; pose proof (di_offset _ I) as Ho;
    destruct (next_facts (fsize_at (d_offset st)) (d_offset st) Ho) as (Hge & _);
    rewrite <- (di_rf _ I), <- (di_loff _ I) in Hge;
    cbn [distribute_loop]; rewrite i64_id by lia; case_decide as Hd.
  - rewrite (di_size _ I) in Hd. lia.
  - exists st. rewrite (di_size _ I) in Hd. split_and!; [done..|left; lia].
  - destruct (distribute_iter_spec st I Hroom Hd)
      as (st' & I' & [(Hx & Hroom' & Hlt)|(Hx & Hstop)]); rewrite Hx; simpl.
    + apply IH; [done..|lia].
    + exists st'. split_and!; [done..|by right].
  - exists st. rewrite (di_size _ I) in Hd. split_and!; [done..|left; lia].
Qed.

(** After the loop: the return value counts the logical bytes dealt with. *)
Lemma distribute_run_spec :
  segs r0 < segmax r0 → bytes r0 < bytemax r0 →
  ∃ ret r' eof,
    distribute_run process_mem m p offset size fd mem r0 mode =
      Done (ret, set_fsize fd (fsize_at (offset + ret)), mem, r', eof) ∧
    0 ≤ ret ≤ size ∧ (result_ok r' ∧ bytemax r' = bytemax r0 ∧ segmax r' = segmax r0) ∧
    expand (segments r') = expand (segments r0) ++
      map rk (filter (λ l, owned l = true) (seqZ offset ret)) ∧
    bytes r' = bytes r0 + (rk (offset + ret) - rk offset) ∧
    (extend_flag fd = false →
       rk (offset + ret) = rk offset ∨ rk (offset + ret) ≤ fsize fd) ∧
    (eof = true ↔ extend_flag fd = false ∧ fsize fd ≤ rk (offset + ret)) ∧
    (ret = size ∨ bytes r' = bytemax r0 ∨ segs r' = segmax r0 ∨ eof = true).
Proof using L Hclient Hcksize Hoff Hsize Hlim Hok Hbm Hfs.
  intros Hs Hb. pose proof lim_bound as HB.
  assert (fd = set_fsize fd (fsize_at offset)) as Hfd.
  { unfold fsize_at. rewrite bool_decide_false, andb_false_r by lia. by destruct fd. }
  destruct (next_facts (fsize_at offset) offset ltac:(lia)) as (Hge & _).
  rewrite <- Hfd in Hge. unfold distribute_run. rewrite decide_False by lia.
  edestruct (distribute_loop_spec (Z.to_nat size)) as (st & -> & I & Hfin);
    [|split; [exact Hs|exact Hb]|simpl; lia|].
  { split; simpl; try done; try lia. by rewrite Z.sub_diag, seqZ_nil, app_nil_r by lia. }
  simpl. pose proof (di_offset _ I) as Ho.
  destruct (next_facts (fsize_at (d_offset st)) (d_offset st) Ho) as (Hge' & Hown & Hrk & Hl2p).
  rewrite <- (di_rf _ I), <- (di_loff _ I) in Hge', Hown, Hrk, Hl2p. rewrite Hl2p.
  rewrite !i64_id by lia.
  set (ret := if decide (d_loff st >= offset + size) then size else d_offset st - offset).
  assert (0 ≤ ret ≤ size ∧ rk (offset + ret) = rk (d_offset st) ∧
          (ret = size ∨ offset + ret = d_offset st)) as (Hret & Hrr & Hro).
  { unfold ret. case_decide as Hd; [|split_and!; try lia; f_equal; lia].
    split_and!; [lia..| |by left].
    apply Z.le_antisymm; [rewrite <- Hrk|]; apply rank_mono; lia. }
  assert (fsize_at (offset + ret) = fsize_at (d_offset st)) as Hfa
    by (unfold fsize_at; by rewrite Hrr).
  assert (extend_flag fd = false → fsize (d_rf st) = fsize fd) as Hff.
  { intros Ex. rewrite (di_rf _ I). simpl. unfold fsize_at. by rewrite Ex. }
  assert (extend_flag (d_rf st) = extend_flag fd) as Hext by by rewrite (di_rf _ I).
  exists ret, (d_result st). eexists. split_and!.
  - rewrite Hfa, (di_mem _ I), <- (di_rf _ I). done.
  - lia.
  - lia.
  - apply (di_ok _ I).
  - apply (di_bytemax _ I).
  - apply (di_segmax _ I).
  - rewrite (di_out _ I), map_rank_owned, Hrr by lia. done.
  - rewrite Hrr. apply (di_bytes _ I).
  - rewrite Hrr. apply (di_below _ I).
  - rewrite Hrr, Hext. destruct (extend_flag fd) eqn:Ex; simpl.
    + rewrite andb_false_r. split; [intros He; by destruct (di_eof _ I He); congruence|by intros [? _]].
    + rewrite andb_true_r, Hff by done. case_bool_decide; split; try done.
      * intros _. split; [done|lia].
      * intros He. by destruct (di_eof _ I He).
      * lia.
  - rewrite Hext. destruct Hfin as [Hd|[Hd|[Hd|[Ex Hd]]]].
    + left. unfold ret. by rewrite decide_True by lia.
    + right; left. done.
    + right; right; left. done.
    + right; right; right. rewrite Hff, Ex, bool_decide_true by (done || lia). done.
Qed.
End server.

(** C7. On the server side [PINT_distribute] returns, emits exactly the
    physical offsets of the bytes of the region that this server stores, in
    order and each once, up to the returned count of logical bytes; never
    touches memory outside the result arrays; never emits a byte at or after
    the end of a file it may not extend; extends the file size exactly to the
    last byte emitted otherwise; and stops early only for a full result or
    for end of file. *)
Theorem distribute_server {params : Type} process_mem
    (m : PINT_dist_methods params) p fd owned lim mode offset size mem r0 :
  (∀ n, DistLaws m p (set_fsize fd n) owned lim) →
  PINT_IS_CLIENT mode = false → PINT_IS_CKSIZE mode = false →
  0 ≤ offset → 0 < size → offset + size < lim → 0 ≤ fsize fd < B63 →
  result_ok r0 → segs r0 < segmax r0 → bytes r0 < bytemax r0 → bytemax r0 + size < B63 →
  let dist := mkDist params (Some p) (Some m) in
  ∃ ret fd' r' eof,
    PINT_distribute process_mem offset size (Some (mkRfdata fd (Some dist))) mem r0 mode =
      Done (ret, Some (mkRfdata fd' (Some dist)), mem, r', eof) ∧
    0 ≤ ret ≤ size ∧ result_ok r' ∧
    expand (segments r') = expand (segments r0) ++
      map (dm_logical_to_physical_offset m p fd)
        (filter (λ l, owned l = true) (seqZ offset ret)) ∧
    bytes r' = bytes r0 + (rank owned (offset + ret) - rank owned offset) ∧
    (extend_flag fd = false →
       rank owned (offset + ret) = rank owned offset ∨
       rank owned (offset + ret) ≤ fsize fd) ∧
    fd' = set_fsize fd (fsize_at fd owned offset (offset + ret)) ∧
    (eof = true ↔ extend_flag fd = false ∧ fsize fd ≤ rank owned (offset + ret)) ∧
    (ret = size ∨ bytes r' = bytemax r0 ∨ segs r' = segmax r0 ∨ eof = true).
Proof.
  intros L Hc Hk Ho Hs Hlim Hfs Hok Hsg Hb Hbm dist.
  destruct (distribute_run_spec process_mem m p fd owned lim L mode Hc Hk offset size
              mem r0 Ho Hs Hlim Hok Hbm Hfs Hsg Hb)
    as (ret & r' & eof & Hrun & Hret & (Hok' & _) & Hout & Hrest).
  exists ret, (set_fsize fd (fsize_at fd owned offset (offset + ret))), r', eof.
  unfold PINT_distribute. rewrite Hk. cbn [negb andb].
  rewrite !bool_decide_false by lia. cbn [orb]. unfold dist. rewrite Hrun. simpl.
  destruct Hrest as (? & ? & ? & ?). split_and!; try done; try lia.
  rewrite Hout. f_equal. apply map_ext_Forall, Forall_forall.
  intros l [Hl Hin%elem_of_seqZ]%list_elem_of_filter.
  pose proof (dl_lim (DistLaws := L 0)).
  assert (fd = set_fsize fd (fsize fd)) as -> by by destruct fd.
  rewrite (dl_l2p (DistLaws := L _)) by (done || lia). done.
Qed.

(** Laws that do not depend on the size of the local file. *)
Lemma simple_stripe_laws_fsize p fd :
  valid p fd →
  ∀ n, DistLaws simple_stripe_methods p (set_fsize fd n) (owned p fd)
         (B63 - server_ct fd * strip_size p).
Proof. intros Hv n. exact (simple_stripe_laws p (set_fsize fd n) Hv). Qed.

(** An empty result with room for [n] segments and [b] bytes. *)
Definition empty_result (n : nat) (b : Z) : PINT_Request_result :=
  mkResult (Some (replicate n 0)) (Some (replicate n 0)) (Z.of_nat n) 0 b 0.

Lemma empty_result_ok n b :
  Z.of_nat n < B31 → 0 ≤ b < B63 → result_ok (empty_result n b).
Proof.
  intros. do 2 eexists. split_and!; simpl; try done; rewrite ?length_replicate; lia.
Qed.

(** Server 1 of 3 with 4-byte strips holding 6 bytes, asked for bytes 2..31. *)
Lemma distribute_server_witness :
  let p := {| strip_size := 4 |} in
  let fd := mkFileData 6 1 3 false in
  let dist := mkDist _ (Some p) (Some simple_stripe_methods) in
  ∃ ret r' eof,
    PINT_distribute (λ _ _ _ _, Fault OutOfFuel) 2 30 (Some (mkRfdata fd (Some dist)))
      None (empty_result 8 100) PINT_SERVER =
      Done (ret, Some (mkRfdata fd (Some dist)), None, r', eof) ∧
    expand (segments r') =
      map (logical_to_physical_offset p fd)
        (filter (λ l, owned p fd l = true) (seqZ 2 ret)).
Proof.
  intros p fd dist.
  destruct (distribute_server (λ _ _ _ _, Fault OutOfFuel) simple_stripe_methods p fd
    (owned p fd) (B63 - server_ct fd * strip_size p) PINT_SERVER 2 30 None
    (empty_result 8 100)) as (ret & fd' & r' & eof & Hrun & _ & _ & Hout & _ & _ & -> & _);
    [|reflexivity|reflexivity|lia|lia|simpl; lia|simpl; lia| |simpl; lia|simpl; lia|simpl; lia|].
  - apply simple_stripe_laws_fsize. vm_decide.
  - apply empty_result_ok; lia.
  - exists ret, r', eof. split; [exact Hrun|exact Hout].
Defined.

(** At end of file the return value is the number of bytes dealt with, not
    the size of the region: the assignment of [orig_size] to [retval] in the
    end of file branch has no effect. *)
Example distribute_eof_short :
  let dist := mkDist _ (Some {| strip_size := 4 |}) (Some simple_stripe_methods) in
  let rf := Some (mkRfdata (mkFileData 6 1 3 false) (Some dist)) in
  match PINT_distribute (λ _ _ _ _, Fault OutOfFuel) 2 30 rf None (empty_result 8 100)
          PINT_SERVER with
  | Done (ret, _, _, r', eof) => (ret, segments r', eof) = (16, [(0, 6)], true)
  | Fault _ => False
  end.
Proof. vm_compute. reflexivity. Qed.
