(* ===== verification/Process.v ===== *)
(** [PINT_process_request] of src/src/io/description/pint-request.c: walks a
    request (a description of byte regions built by pvfs-request.c) with an
    explicit stack and turns it into the list of segments to transfer.  The
    function can stop when the result is full and be called again to go on. *)

From stdpp Require Import list numbers gmap.
From S2P Require Import Prelude Errors Dist Request Distribute.

(** * Request states *)

Definition set_cur (s : PINT_Request_state) c :=
  mkState c (lvl s) (rs_bytes s) (type_offset s) (target_offset s) (final_offset s) (eof_flag s).
Definition set_lvl (s : PINT_Request_state) l :=
  mkState (cur s) l (rs_bytes s) (type_offset s) (target_offset s) (final_offset s) (eof_flag s).
Definition set_rs_bytes (s : PINT_Request_state) b :=
  mkState (cur s) (lvl s) b (type_offset s) (target_offset s) (final_offset s) (eof_flag s).
Definition set_type_offset (s : PINT_Request_state) o :=
  mkState (cur s) (lvl s) (rs_bytes s) o (target_offset s) (final_offset s) (eof_flag s).
Definition set_eof_flag (s : PINT_Request_state) b :=
  mkState (cur s) (lvl s) (rs_bytes s) (type_offset s) (target_offset s) (final_offset s) b.

(** [req->cur[i]] *)
Definition get_level (req : PINT_Request_state) (i : Z) : exec PINT_reqstack :=
  if decide (0 ≤ i) then
    match cur req !! Z.to_nat i with Some s => Done s | None => Fault BadAccess end
  else Fault BadAccess.

Definition set_level (req : PINT_Request_state) (i : Z) (s : PINT_reqstack)
    : exec PINT_Request_state :=
  if decide (0 ≤ i < Z.of_nat (length (cur req)))
  then Done (set_cur req (<[Z.to_nat i := s]> (cur req))) else Fault BadAccess.

(** [PINT_new_request_states(request, 1)]; what the memory of the upper levels
    holds is [junk].  [request] is read even if it is NULL. *)
Definition PINT_new_request_state (h : req_heap) (junk : nat → PINT_reqstack) (request : ptr)
    : exec PINT_Request_state :=
  r ← deref h request;
  let s := mkReqstack 0 1 request request 0 0 in
  Done (mkState (s :: map junk (seq 1 (Z.to_nat (depth r) - 1))) 0 0 0 0 (aggregate_size r) false).

Definition PINT_REQUEST_STATE_RST (req : PINT_Request_state) : exec PINT_Request_state :=
  s ← get_level req 0;
  req ← set_level req 0 (mkReqstack 0 (maxel s) (rqbase s) (rqbase s) 0 0);
  Done (mkState (cur req) 0 0 0 (target_offset req) (final_offset req) false).

Definition PINT_REQUEST_DONE (req : PINT_Request_state) : bool :=
  bool_decide (type_offset req >= final_offset req) || eof_flag req.

(** [PINT_request_disp]: adds up the offsets down the [ereq] list. *)
Fixpoint request_disp_loop (fuel : nat) (h : req_heap) (p : ptr) (disp : Z) : exec Z :=
  match p with
  | None => Done disp
  | Some _ =>
      match fuel with
      | O => Fault OutOfFuel
      | S fuel' => r ← deref h p; request_disp_loop fuel' h (ereq r) (disp +ₗ offset r)
      end
  end.

Definition PINT_request_disp (fuel : nat) (h : req_heap) (request : PINT_Request) : exec Z :=
  request_disp_loop fuel h (ereq request) 0.

(** * The next step of the walk *)

(** A contiguous region, with the flag that it ends its level, or the next
    level has to be entered. *)
Inductive chunk := Region (contig_offset contig_size : Z) (lvl_flag : bool) | NextLevel.

Definition process_chunk (fuel : nat) (h : req_heap) (req : PINT_Request_state) : exec chunk :=
  s ← get_level req (lvl req);
  match rq s with
  | None =>
      (* NULL type indicates packed data - handle directly *)
      Done (Region (chunk_offset s +ₗ rs_bytes req) (maxel s -ₗ rs_bytes req) true)
  | Some _ =>
      r ← deref h (rq s);
      (* current type is contiguous because its size equals extent *)
      whole ←
        (match ereq r with
         | None => Done true
         | Some _ =>
             b ← deref h (rqbase s);
             if decide (aggregate_size r = ub b -ₗ lb b) then
               e ← deref h (ereq r); Done (bool_decide (num_contig_chunks e = 1))
             else Done false
         end);
      if (whole : bool) && bool_decide (rq s = rqbase s) then
        (* basic data type or contiguous data - handle directly *)
        d ← PINT_request_disp fuel h r;
        Done (Region (offset r +ₗ chunk_offset s +ₗ rs_bytes req +ₗ d)
                (maxel s *ₗ aggregate_size r -ₗ rs_bytes req) true)
      else
        e ← deref h (ereq r);
        if bool_decide (aggregate_size e = ub e -ₗ lb e) &&
           bool_decide (num_contig_chunks e = 1) then
          (* subtype is contiguous because its size equals its extent *)
          b ← deref h (rqbase s);
          d ← PINT_request_disp fuel h r;
          Done (Region (chunk_offset s +ₗ el s *ₗ (ub b -ₗ lb b) +ₗ offset r +ₗ
                          stride r *ₗ blk s +ₗ rs_bytes req +ₗ d)
                  (aggregate_size e *ₗ num_ereqs r -ₗ rs_bytes req) false)
        else Done NextLevel
  end.

(** Go to the next level and "recurse"; [None] is the return of
    [-PVFS_EINVAL]. *)
Definition enter_level (h : req_heap) (req : PINT_Request_state)
    : exec (option PINT_Request_state) :=
  s ← get_level req (lvl req);
  r ← deref h (rq s);
  s0 ← get_level req 0;
  b0 ← deref h (rqbase s0);
  if bool_decide (ereq r = None) || bool_decide (lvl req + 1 >= depth b0) then Done None else
  b ← deref h (rqbase s);
  req ← set_level req (lvl req + 1)
          (mkReqstack 0 (num_ereqs r) (ereq r) (ereq r) 0
             (chunk_offset s +ₗ el s *ₗ (ub b -ₗ lb b) +ₗ offset r +ₗ stride r *ₗ blk s));
  Done (Some (set_lvl req (lvl req + 1))).

(** From the label [return_from_level] to the tests for the end: the next
    block, the next item in the sequence chain, the next element, or the level
    above.  [n] bounds the levels left; the flag says that the whole request
    has been processed. *)
Fixpoint return_from_level (n : nat) (h : req_heap) (req : PINT_Request_state)
    : exec (PINT_Request_state * bool) :=
  let req := set_rs_bytes req 0 in
  if decide (lvl req < 0) then Done (req, true) else
  match n with
  | O => Fault OutOfFuel
  | S n' =>
      s ← get_level req (lvl req);
      r ← deref h (rq s);
      (* go to the next block *)
      let b := i32 (blk s + 1) in
      if decide (b >= num_blocks r) then
        match sreq r with
        | Some _ =>
            (* go to next item in sequence chain *)
            req ← set_level req (lvl req)
                    (mkReqstack (el s) (maxel s) (sreq r) (rqbase s) 0 (chunk_offset s));
            Done (req, false)
        | None =>
            (* go to next element in block of level above *)
            req ← set_level req (lvl req)
                    (mkReqstack (el s +ₗ 1) (maxel s) (rqbase s) (rqbase s) 0 (chunk_offset s));
            if decide (el s +ₗ 1 >= maxel s)
            then return_from_level n' h (set_lvl req (lvl req - 1))
            else Done (req, false)
        end
      else
        req ← set_level req (lvl req)
                (mkReqstack (el s) (maxel s) (rq s) (rqbase s) b (chunk_offset s));
        Done (req, false)
  end.

(** * The loop *)

(** The variables of the loop. *)
Record ploop := mkPloop {
  p_req : PINT_Request_state;
  p_mem : option PINT_Request_state;
  p_rf : option PINT_request_file_data;
  p_result : PINT_Request_result;
  p_mode : Z;
}.

Definition set_req (st : ploop) r := mkPloop r (p_mem st) (p_rf st) (p_result st) (p_mode st).

(** [break], the end of the body, and [return]. *)
Inductive pflow := PBreak (st : ploop) | PNext (st : ploop) | PReturn (ret : Z) (st : ploop).

Section process.
(** [PINT_distribute]; not called when the request describes memory. *)
Context (distribute : Z → Z → option PINT_request_file_data → option PINT_Request_state →
  PINT_Request_result → Z →
  exec (Z * option PINT_request_file_data * option PINT_Request_state *
        PINT_Request_result * bool)).
Context (fuel : nat) (h : req_heap).

(** "BEFORE CALLING DISTRIBUTE" and "CALLING DISTRIBUTE": the region is
    skipped, added to the result, or distributed.  [None] is the value -1 of
    [PINT_distribute]. *)
Definition process_region (st : ploop) (contig_offset contig_size : Z)
    : exec (option Z * ploop) :=
  let req := p_req st in
  let result := p_result st in
  if PINT_IS_LOGICAL_SKIP (p_mode st) then
    let retval := if decide (type_offset req +ₗ contig_size >= target_offset req)
                  then target_offset req -ₗ type_offset req else contig_size in
    match p_rf st with
    | None => Fault BadAccess
    | Some rf =>
        let eof := bool_decide (fsize (rf_data rf) ≤ type_offset req) &&
                   negb (extend_flag (rf_data rf)) in
        Done (Some retval, set_req st (set_eof_flag req eof))
    end
  else
    (* stop at final offset *)
    let sz := if decide (type_offset req +ₗ contig_size > final_offset req)
              then final_offset req -ₗ type_offset req else contig_size in
    if PINT_IS_MEMREQ (p_mode st) then
      (* check for too many bytes or segs *)
      let sz := if decide (bytes result +ₗ sz >= bytemax result)
                then bytemax result -ₗ bytes result else sz in
      result ← PINT_ADD_SEGMENT result contig_offset sz (p_mode st);
      Done (Some sz, mkPloop req (p_mem st) (p_rf st) result (p_mode st))
    else
      '(retval, rf, mem, result, eof) ←
        distribute contig_offset sz (p_rf st) (p_mem st) result (p_mode st);
      let st := mkPloop (set_eof_flag req eof) mem rf result (p_mode st) in
      Done (if decide (retval = -1) then None else Some retval, st).

(** "AFTER CALLING DISTRIBUTE". *)
Definition process_after (st : ploop) (contig_size : Z) (lvl_flag : bool) (retval : Z)
    : exec pflow :=
  let req := set_type_offset (p_req st) (type_offset (p_req st) +ₗ retval) in
  (* see if we processed all of the bytes expected *)
  if decide (retval ≠ contig_size) then
    let req := set_rs_bytes req (rs_bytes req +ₗ retval) in
    if PINT_IS_LOGICAL_SKIP (p_mode st) then
      (* now starting processing for real *)
      Done (PNext (mkPloop req (p_mem st) (p_rf st) (p_result st)
                     (PINT_CLR_LOGICAL_SKIP (p_mode st))))
    else Done (PBreak (set_req st req))
  else
    (* processed all bytes so continue on and return from level *)
    let req := if lvl_flag then set_lvl req (lvl req - 1) else req in
    '(req, finished) ← return_from_level (Z.to_nat (lvl req + 1)) h req;
    let st := set_req st req in
    let result := p_result st in
    if (finished : bool) then Done (PBreak st)
    (* check to see if we are finished *)
    else if bool_decide (bytes result = bytemax result) ||
            (negb (PINT_IS_CKSIZE (p_mode st)) && bool_decide (segs result = segmax result))
    then Done (PBreak st)
    (* look for end of request *)
    else if decide (type_offset req >= final_offset req) then Done (PBreak st)
    else Done (PNext st).

Definition process_iter (st : ploop) : exec pflow :=
  let req := p_req st in
  c ← process_chunk fuel h req;
  match c with
  | NextLevel =>
      r ← enter_level h req;
      match r with
      | None => Done (PReturn (- PVFS_EINVAL) st)
      | Some req => Done (PNext (set_req st req))
      end
  | Region contig_offset contig_size lvl_flag =>
      (* set this up for client processing *)
      result ←
        (if PINT_IS_CLIENT (p_mode st) then
           oa ← array_set (offset_array (p_result st)) (segs (p_result st))
                  (type_offset req -ₗ target_offset req);
           Done (set_offset_array (p_result st) oa)
         else Done (p_result st));
      let st := mkPloop req (p_mem st) (p_rf st) result (p_mode st) in
      '(retval, st) ← process_region st contig_offset contig_size;
      match retval with
      | None =>
          let st := mkPloop (set_type_offset (p_req st) (final_offset (p_req st))) (p_mem st)
                      (p_rf st) (set_bytes (set_segs (p_result st) 0) 0) (p_mode st) in
          Done (PReturn 0 st)
      | Some retval => process_after st contig_size lvl_flag retval
      end
  end.

Fixpoint process_loop (n : nat) (st : ploop) : exec (Z * ploop) :=
  match n with
  | O => Fault OutOfFuel
  | S n' =>
      f ← process_iter st;
      match f with
      | PBreak st => Done (0, st)
      | PReturn ret st => Done (ret, st)
      | PNext st => process_loop n' st
      end
  end.

(** The tests at the top of the function. *)
Definition process_check (result : PINT_Request_result) (mode : Z) : bool :=
  bool_decide (segmax result ≠ 0) && bool_decide (bytemax result ≠ 0) &&
  bool_decide (segs result < segmax result) && bool_decide (bytes result < bytemax result) &&
  (PINT_IS_CKSIZE mode ||
   (bool_decide (offset_array result ≠ None) && bool_decide (size_array result ≠ None))).

(** The request state made ready for the loop: started over when it has been
    processed completely, its final offset set from the memory request, and
    tiled. *)
Definition process_setup (req : PINT_Request_state) (mem : option PINT_Request_state) (mode : Z)
    : exec PINT_Request_state :=
  req ← (if decide (lvl req < 0) then PINT_REQUEST_STATE_RST req else Done req);
  (* automatically set final_offset of req based on mem size *)
  req ←
    (match mem with
     | Some mem =>
         if PINT_IS_CLIENT mode && bool_decide (final_offset req = 0) then
           s ← get_level mem 0;
           b ← deref h (rqbase s);
           Done (PINT_REQUEST_STATE_SET_FINAL req (target_offset req +ₗ aggregate_size b))
         else Done req
     | None => Done req
     end);
  (* automatically tile the req *)
  if PINT_IS_MEMREQ mode then Done req else
  s ← get_level req 0;
  count ←
    (match rqbase s with
     | Some _ =>
         b ← deref h (rqbase s);
         if decide (aggregate_size b = 0) then Fault DivByZero
         else Done (i64 (Z.quot (final_offset req) (aggregate_size b)))
     | None => Done (final_offset req)
     end);
  set_level req 0 (mkReqstack (el s) (count +ₗ 1) (rq s) (rqbase s) (blk s) (chunk_offset s)).

(** The function: return value, the two request states, the file data and the
    result.  [alloc] says whether the copy of the state can be allocated. *)
Definition process_request (alloc : bool) (req0 : PINT_Request_state)
    (mem : option PINT_Request_state) (rfdata : option PINT_request_file_data)
    (result : PINT_Request_result) (mode : Z)
    : exec (Z * PINT_Request_state * option PINT_Request_state *
            option PINT_request_file_data * PINT_Request_result) :=
  if negb (process_check result mode) then Done (- PVFS_EINVAL, req0, mem, rfdata, result) else
  (* the size of the copy of the state *)
  _ ← (if PINT_EQ_CKSIZE mode then s ← get_level req0 0; deref h (rqbase s) ≫= λ _, Done tt
       else Done tt);
  if PINT_EQ_CKSIZE mode && negb alloc then Done (- PVFS_ENOMEM, req0, mem, rfdata, result) else
  req ← process_setup req0 mem mode;
  (* deal with skipping over some bytes (type offset) *)
  let mode' := if decide (target_offset req > type_offset req)
               then PINT_SET_LOGICAL_SKIP mode else mode in
  '(ret, st) ← process_loop fuel (mkPloop req mem rfdata result mode');
  (* request for a size check - do not alter request state *)
  let req := if PINT_EQ_CKSIZE mode then req0 else p_req st in
  Done (ret, req, p_mem st, p_rf st, p_result st).
End process.

(** The recursive call for the memory request: distributes nothing. *)
Definition process_mem (fuel : nat) (h : req_heap) (mem : PINT_Request_state) (rf : file_data)
    (result : PINT_Request_result) (mode : Z) : exec (PINT_Request_state * PINT_Request_result) :=
  '(_, mem, _, _, result) ←
    process_request (λ _ _ _ _ _ _, Fault BadAccess) fuel h true mem None
      (Some (mkRfdata rf None)) result mode;
  Done (mem, result).

Definition PINT_process_request (fuel : nat) (h : req_heap) :=
  process_request (PINT_distribute (process_mem fuel h)) fuel h.
