(* ===== verification/RequestTree.v ===== *)
(** What a request means: the sequence of byte offsets it describes.

    A request is a graph of structs; walking it from a pointer gives a tree.
    [elem t o] are the bytes of one element of type [t] placed at offset [o],
    in the order in which they are transferred, and [elems t k o] those of [k]
    elements in a row. *)

From stdpp Require Import list numbers gmap.
From S2P Require Import Prelude Dist Request.

(** * Trees *)

(** [RReq a r e q] is the struct [r] at address [a], its element type [e] and
    the rest [q] of its sequence chain. *)
Inductive rtree := RNull | RReq (a : positive) (r : PINT_Request) (e q : rtree).

(** Reference counts and commit marks do not matter to the meaning. *)
Definition strip (r : PINT_Request) : PINT_Request :=
  mkRequest (offset r) (num_ereqs r) (num_blocks r) (stride r) (ub r) (lb r) (aggregate_size r)
    (num_contig_chunks r) (depth r) (num_nested_req r) 0 0 (ereq r) (sreq r).

(** [p] points to the tree [t]. *)
Fixpoint repr (h : req_heap) (p : ptr) (t : rtree) : Prop :=
  match t with
  | RNull => p = None
  | RReq a r e q => p = Some a ∧ (∃ r', h !! a = Some r' ∧ r = strip r') ∧
                    repr h (ereq r) e ∧ repr h (sreq r) q
  end.

Definition tree_ext (t : rtree) : Z := match t with RNull => 0 | RReq _ r _ _ => ub r - lb r end.
Definition tree_agg (t : rtree) : Z := match t with RNull => 0 | RReq _ r _ _ => aggregate_size r end.
Definition tree_chunks (t : rtree) : Z :=
  match t with RNull => 0 | RReq _ r _ _ => num_contig_chunks r end.
Definition tree_depth (t : rtree) : Z := match t with RNull => 0 | RReq _ r _ _ => depth r end.

(** The offset of the first byte of an element. *)
Fixpoint tree_disp (t : rtree) : Z :=
  match t with RNull => 0 | RReq _ r e _ => offset r + tree_disp e end.

Fixpoint tree_size (t : rtree) : nat :=
  match t with RNull => 0 | RReq _ _ e q => S (tree_size e + tree_size q) end.

(** * Meaning *)

(** One element of a request without element type is [aggregate_size] bytes. *)
Fixpoint elem (t : rtree) (o : Z) : list Z :=
  match t with
  | RNull => []
  | RReq _ r e q =>
      match e with
      | RNull => seqZ (o + offset r) (aggregate_size r)
      | RReq _ _ _ _ =>
          b ← seqZ 0 (num_blocks r);
          i ← seqZ 0 (num_ereqs r);
          elem e (o + offset r + stride r * b + i * tree_ext e)
      end ++ elem q o
  end.

Definition elems (t : rtree) (k o : Z) : list Z :=
  i ← seqZ 0 k; elem t (o + i * tree_ext t).

(** Block [b] of the struct [r] with element type [e] in an element at [o]. *)
Definition block (r : PINT_Request) (e : rtree) (o b : Z) : list Z :=
  elems e (num_ereqs r) (o + offset r + stride r * b).

Lemma elem_blocks a r e q o :
  e ≠ RNull → elem (RReq a r e q) o = (seqZ 0 (num_blocks r) ≫= block r e o) ++ elem q o.
Proof. by destruct e. Qed.

(** The bytes of [k] elements are consecutive. *)
Definition contig (t : rtree) : Prop :=
  ∀ k o, 0 ≤ k → elems t k o = seqZ (o + tree_disp t) (k * tree_agg t).

(** * Well-formed requests *)

(** The tests of [PINT_process_request] for a contiguous type and subtype. *)
Definition sub_test (t : rtree) : bool :=
  bool_decide (tree_agg t = tree_ext t) && bool_decide (tree_chunks t = 1).

Definition whole_test (t : rtree) : bool :=
  match t with
  | RNull => false
  | RReq _ _ RNull _ => true
  | RReq _ r e _ => bool_decide (aggregate_size r = tree_ext t) && bool_decide (tree_chunks e = 1)
  end.

(** Not an elementary type. *)
Definition compound (t : rtree) : Prop :=
  match t with RReq _ _ RNull _ => False | _ => True end.

(** What the tests take for contiguous is contiguous. *)
Definition sound (t : rtree) : Prop :=
  (sub_test t = true → contig t) ∧ (whole_test t = true → contig t).

(** The fields fit their types, the depth is enough for the nesting, every
    block has an element, and the tests are right about the element type. *)
Fixpoint wf (t : rtree) : Prop :=
  match t with
  | RNull => True
  | RReq _ r e q =>
      - B63 ≤ ub r - lb r < B63 ∧ 1 ≤ depth r < B31 ∧ 0 ≤ aggregate_size r < B63 ∧
      match e with
      | RNull => q = RNull
      | RReq _ _ _ _ =>
          wf e ∧ wf q ∧ compound q ∧ sound e ∧
          1 ≤ num_ereqs r < B31 ∧ 1 ≤ num_blocks r < B31 ∧
          tree_depth e < depth r ∧ tree_depth q ≤ depth r
      end
  end.

(** [t] is the rest of the chain [u]. *)
Inductive suffix (t : rtree) : rtree → Prop :=
  | suffix_refl : suffix t t
  | suffix_next a r e q : suffix t q → suffix t (RReq a r e q).

(** * Facts *)

Lemma repr_fun h p t u : repr h p t → repr h p u → t = u.
Proof.
  revert p u. induction t as [|a r e IHe q IHq]; intros p [|a' r' e' q']; cbn; [done| | |].
  - by intros -> [? _].
  - by intros [-> _].
  - intros (-> & (x & Hx & ->) & He & Hq) ([= <-] & (x' & Hx' & ->) & He' & Hq').
    simplify_eq. f_equal; eauto.
Qed.

Lemma repr_deref h p a r e q :
  repr h p (RReq a r e q) →
  ∃ x, deref h p = Done x ∧ r = strip x ∧ p = Some a ∧ repr h (ereq x) e ∧ repr h (sreq x) q.
Proof.
  intros (-> & (x & Hx & ->) & He & Hq). exists x. unfold deref. by rewrite Hx.
Qed.

Lemma suffix_size t u : suffix t u → t = u ∨ (tree_size t < tree_size u)%nat.
Proof. induction 1 as [|a r e q _ [->|?]]; [by left|right; cbn; lia..]. Qed.

(** Different places of a chain are different addresses. *)
Lemma suffix_ptr h p t u : repr h p u → suffix t u → t ≠ u → repr h p t → False.
Proof. intros Hu _ Hne Ht. apply Hne. by eapply repr_fun. Qed.

Lemma suffix_wf t u : suffix t u → wf u → wf t.
Proof.
  induction 1 as [|a r [|a' r' e' q'] q Hs IH]; [done| |]; cbn.
  - intros (_ & _ & _ & ->). apply IH. done.
  - intros (_ & _ & _ & _ & ? & _). auto.
Qed.

Lemma suffix_compound t u : suffix t u → compound u → wf u → compound t.
Proof.
  induction 1 as [|a r [|a' r' e' q'] q Hs IH]; [done| |]; cbn; [done|].
  intros _ (_ & _ & _ & _ & ? & ? & _). auto.
Qed.

Lemma suffix_depth t u : suffix t u → compound u → wf u → tree_depth t ≤ tree_depth u.
Proof.
  induction 1 as [|a r [|a' r' e' q'] q Hs IH]; [done| |]; cbn; [done|].
  intros _ (_ & _ & _ & _ & ? & ? & _ & _ & _ & _ & ?). specialize (IH ltac:(done) ltac:(done)). lia.
Qed.

Lemma elems_0 t o : elems t 0 o = [].
Proof. done. Qed.

Lemma elems_cons t k o : 0 < k → elems t k o = elem t o ++ elems t (k - 1) (o + tree_ext t).
Proof.
  intros. unfold elems. rewrite seqZ_S by lia. cbn. f_equal; [f_equal; lia|].
  rewrite (bind_seqZ_shift _ 0 (k - 1) 1). apply bind_ext. intros i _. f_equal. lia.
Qed.

Lemma elems_1 t o : elems t 1 o = elem t o.
Proof. rewrite elems_cons by lia. cbn. by rewrite app_nil_r. Qed.

(** An elementary type whose extent is its size is contiguous. *)
Lemma elementary_contig a r :
  ub r - lb r = aggregate_size r → 0 ≤ aggregate_size r → contig (RReq a r RNull RNull).
Proof.
  intros He Ha k o Hk. unfold elems. cbn. rewrite <- bind_seqZ_runs by done.
  apply bind_ext. intros i _. rewrite app_nil_r, He. f_equal. lia.
Qed.

(** The size of a request is the number of its bytes. *)
Definition sized (t : rtree) : Prop := ∀ o, Z.of_nat (length (elem t o)) = tree_agg t.

Lemma length_elems t k o :
  sized t → 0 ≤ k → Z.of_nat (length (elems t k o)) = k * tree_agg t.
Proof.
  intros Hs Hk. unfold elems. rewrite (length_bind _ _ (Z.to_nat (tree_agg t))).
  - rewrite length_seqZ. pose proof (Hs 0). lia.
  - intros i _. pose proof (Hs (o + i * tree_ext t)). lia.
Qed.
