(* ===== verification/ProcessWalk.v ===== *)
(** The walk of [PINT_process_request] over a request visits the bytes that the
    request means (RequestTree.v): what is left to do at a state of the stack,
    and how entering a level and returning from one change it. *)

From stdpp Require Import list numbers gmap.
From S2P Require Import Prelude Errors Dist Request Distribute Process RequestTree.

(** * Positions *)

(** A level of the stack: chain [tb], current struct [tq] of it, the other
    fields as mathematical integers. *)
Record pos := mkPos { tb : rtree; tq : rtree; pel : Z; pmax : Z; pblk : Z; pco : Z }.

Definition origin (p : pos) : Z := pco p + pel p * tree_ext (tb p).

(** The region that is processed in one go at this level, or the block whose
    elements the next level processes. *)
Definition region (p : pos) : list Z :=
  if whole_test (tb p) then elems (tb p) (pmax p) (pco p)
  else match tq p with
       | RNull => []
       | RReq _ r e _ => block r e (origin p) (pblk p)
       end.

(** What comes after it at this level. *)
Definition rest (p : pos) : list Z :=
  if whole_test (tb p) then []
  else match tq p with
       | RNull => []
       | RReq _ r e q =>
           (seqZ (pblk p + 1) (num_blocks r - pblk p - 1) ≫= block r e (origin p)) ++
           elem q (origin p) ++
           (i ← seqZ (pel p + 1) (pmax p - pel p - 1); elem (tb p) (pco p + i * tree_ext (tb p)))
       end.

Definition rests (ps : list pos) : list Z := ps ≫= rest.

(** All that is left, when [b] bytes of the current region are done. *)
Definition todo (ps : list pos) (b : Z) : list Z :=
  match ps with
  | [] => []
  | p :: ps' => drop (Z.to_nat b) (region p) ++ rest p ++ rests ps'
  end.

(** The next level is entered at this position. *)
Definition enters (p : pos) : bool :=
  negb (whole_test (tb p)) &&
  match tq p with RNull => false | RReq _ _ e _ => negb (sub_test e) end.

(** * Steps left *)

Fixpoint cost_elem (t : rtree) : nat :=
  match t with
  | RNull => 0
  | RReq _ r e q =>
      Z.to_nat (num_blocks r) *
        (if sub_test e then 1
         else S (if whole_test e then 1 else Z.to_nat (num_ereqs r) * cost_elem e)) +
      cost_elem q
  end.

Definition cost_elems (t : rtree) (k : Z) : nat :=
  if whole_test t then 1 else Z.to_nat k * cost_elem t.

Definition cost_block (r : PINT_Request) (e : rtree) : nat :=
  if sub_test e then 1 else S (cost_elems e (num_ereqs r)).

Definition cost_region (p : pos) : nat :=
  if whole_test (tb p) then 1
  else match tq p with RNull => 0 | RReq _ r e _ => cost_block r e end.

Definition cost_rest (p : pos) : nat :=
  if whole_test (tb p) then 0
  else match tq p with
       | RNull => 0
       | RReq _ r e q =>
           Z.to_nat (num_blocks r - pblk p - 1) * cost_block r e + cost_elem q +
           Z.to_nat (pmax p - pel p - 1) * cost_elem (tb p)
       end.

Definition cost_rests (ps : list pos) : nat := foldr (λ p n, cost_rest p + n)%nat 0%nat ps.

Definition cost (ps : list pos) : nat :=
  match ps with [] => 0 | p :: ps' => cost_region p + cost_rest p + cost_rests ps' end.

(** * Stacks that represent positions *)

Definition level_rep (h : req_heap) (s : PINT_reqstack) (p : pos) : Prop :=
  repr h (rqbase s) (tb p) ∧ repr h (rq s) (tq p) ∧ el s = pel p ∧ maxel s = pmax p ∧
  blk s = pblk p ∧ chunk_offset s = i64 (pco p).

Definition pos_ok (p : pos) : Prop :=
  wf (tb p) ∧ sound (tb p) ∧ suffix (tq p) (tb p) ∧ 0 ≤ pel p < pmax p ∧ pmax p < B63 ∧
  match tq p with
  | RNull => False
  | RReq _ r _ _ =>
      if whole_test (tb p) then tq p = tb p ∧ pel p = 0 ∧ pblk p = 0
      else 0 ≤ pblk p < num_blocks r
  end.

(** Level [length ps'] of the stack [c] is [p]; [D] is the depth of the whole
    request.  Only the top of the stack can be a contiguous type. *)
Fixpoint stack_ok (h : req_heap) (c : list PINT_reqstack) (D : Z) (ps : list pos) : Prop :=
  match ps with
  | [] => True
  | p :: ps' =>
      (∃ s, c !! length ps' = Some s ∧ level_rep h s p) ∧ pos_ok p ∧
      Z.of_nat (length ps') + tree_depth (tb p) ≤ D ∧
      match ps' with [] => tree_depth (tb p) = D | pp :: _ => whole_test (tb pp) = false end ∧
      stack_ok h c D ps'
  end.

(** The state [req] of a walk, with the bytes that are left. *)
Definition walk (h : req_heap) (req : PINT_Request_state) (ps : list pos) : Prop :=
  ∃ D, lvl req = Z.of_nat (length ps) - 1 ∧ stack_ok h (cur req) D ps ∧
    D ≤ Z.of_nat (length (cur req)) ∧
    match ps with
    | [] => rs_bytes req = 0
    | p :: _ => 0 ≤ rs_bytes req ≤ Z.of_nat (length (region p)) ∧
                (enters p = true → rs_bytes req = 0)
    end.

(** * The next region *)

(** Offset and size of the region. *)
Definition rstart (p : pos) : Z :=
  if whole_test (tb p) then pco p + tree_disp (tb p)
  else match tq p with
       | RNull => 0
       | RReq _ r e _ => origin p + offset r + stride r * pblk p + tree_disp e
       end.

Definition rsize (p : pos) : Z :=
  if whole_test (tb p) then pmax p * tree_agg (tb p)
  else match tq p with RNull => 0 | RReq _ r e _ => num_ereqs r * tree_agg e end.

Lemma pos_wf p : pos_ok p → wf (tq p).
Proof. intros (Hwf & _ & Hs & _). by eapply suffix_wf. Qed.

Lemma pos_compound p : pos_ok p → whole_test (tb p) = false → compound (tb p) ∧ compound (tq p).
Proof.
  intros (Hwf & _ & Hs & _) Hw. assert (compound (tb p)) as Hc.
  { by destruct (tb p) as [|a r [|a' r' e' q'] q]. }
  split; [done|]. by eapply suffix_compound.
Qed.

Lemma region_seq p :
  pos_ok p → enters p = false → region p = seqZ (rstart p) (rsize p).
Proof.
  intros Hp He. pose proof (pos_wf p Hp) as Hwq. pose proof (pos_compound p Hp) as Hc.
  destruct Hp as (Hwf & [_ Hw] & Hs & Hel & _ & Hq).
  unfold region, rstart, rsize, enters in *. destruct (whole_test (tb p)).
  { apply Hw; [done|lia]. }
  destruct (Hc eq_refl) as [_ Hcq]. destruct (tq p) as [|a r e q]; [done|]. cbn in He.
  destruct e as [|a' r' e' q']; [done|]. cbn in Hwq.
  destruct Hwq as (_ & _ & _ & _ & _ & _ & [Hsub _] & Hne & _).
  apply negb_false_iff in He. unfold block. by rewrite (Hsub He) by lia.
Qed.

Lemma disp_loop_spec h fuel t p d :
  repr h p t → (tree_size t ≤ fuel)%nat →
  ∃ x, request_disp_loop fuel h p d = Done x ∧ x ≡₆₄ d + tree_disp t.
Proof.
  revert fuel p d. induction t as [|a r e IHe q _]; intros fuel p d Hr Hf.
  - cbn in Hr. subst. exists d. destruct fuel; cbn; (split; [done|]); by rewrite Z.add_0_r.
  - destruct (repr_deref _ _ _ _ _ _ Hr) as (x & Hd & -> & -> & He & _).
    destruct fuel as [|fuel]; [cbn in Hf; lia|]. cbn [request_disp_loop]. rewrite Hd. cbn.
    destruct (IHe fuel (ereq x) (d +ₗ offset x) He) as (y & -> & Hy); [cbn in Hf; lia|].
    exists y. split; [done|]. rewrite Hy, i64_eq64. cbn. by rewrite Z.add_assoc.
Qed.

Lemma request_disp_spec h fuel x e :
  repr h (ereq x) e → (tree_size e ≤ fuel)%nat →
  ∃ d, PINT_request_disp fuel h x = Done d ∧ d ≡₆₄ tree_disp e.
Proof.
  intros He Hf. destruct (disp_loop_spec h fuel e (ereq x) 0 He Hf) as (d & ? & Hd).
  exists d. split; [done|]. by rewrite Hd, Z.add_0_l.
Qed.

Lemma get_level_Done req i s :
  cur req !! i = Some s → get_level req (Z.of_nat i) = Done s.
Proof.
  intros Hs. unfold get_level. rewrite decide_True by lia. by rewrite Nat2Z.id, Hs.
Qed.

Lemma suffix_tree_size p : pos_ok p → (tree_size (tq p) ≤ tree_size (tb p))%nat.
Proof. intros (_ & _ & [->|?]%suffix_size & _); lia. Qed.

Lemma i64_ext r : - B63 ≤ ub r - lb r < B63 → ub r -ₗ lb r = ub r - lb r.
Proof. apply i64_id. Qed.

Lemma RReq_inj a r e q a' r' e' q' :
  RReq a r e q = RReq a' r' e' q' → a = a' ∧ r = r' ∧ e = e' ∧ q = q'.
Proof. by intros [= -> -> -> ->]. Qed.

(** The test for a contiguous type. *)
Lemma whole_code h x e y a0 q0 rqb :
  repr h (ereq x) e → deref h rqb = Done y → - B63 ≤ ub y - lb y < B63 →
  ∃ w : bool,
    match ereq x with
    | None => Done true
    | Some _ =>
        b ← deref h rqb;
        if decide (aggregate_size x = ub b -ₗ lb b) then
          e ← deref h (ereq x); Done (bool_decide (num_contig_chunks e = 1))
        else Done false
    end = Done w ∧
    (strip x = strip y → w = whole_test (RReq a0 (strip y) e q0)).
Proof.
  intros He Hy Hfit. destruct e as [|ae re ee qe].
  { cbn in He. rewrite He. by exists true. }
  destruct (repr_deref _ _ _ _ _ _ He) as (z & Hz & -> & Hez & _ & _).
  rewrite Hz, Hez, Hy. cbn [mbind exec_bind]. rewrite i64_ext by done.
  case_decide as Hagg; eexists; (split; [done|]); intros Hxy; cbn;
    apply (f_equal aggregate_size) in Hxy; cbn in Hxy.
  - rewrite (bool_decide_eq_true_2 (aggregate_size y = _)) by congruence. done.
  - rewrite (bool_decide_eq_false_2 (aggregate_size y = _)) by congruence. done.
Qed.

(** What the function computes for the region that is next. *)
Lemma process_chunk_spec h fuel req p ps :
  walk h req (p :: ps) → (tree_size (tb p) ≤ fuel)%nat →
  process_chunk fuel h req = Done
    (if enters p then NextLevel
     else Region (i64 (rstart p + rs_bytes req)) (i64 (rsize p - rs_bytes req)) (whole_test (tb p))).
Proof.
  intros (D & Hlvl & ((s & Hs & Hb & Hq & Hel & Hmax & Hblk & Hco) & Hp & _) & _) Hf.
  pose proof (pos_wf p Hp) as Hwq. pose proof (pos_compound p Hp) as Hc.
  pose proof (suffix_tree_size p Hp) as Hsz.
  unfold process_chunk. rewrite Hlvl. replace (_ - 1) with (Z.of_nat (length ps)) by (cbn; lia).
  rewrite (get_level_Done _ _ s) by done. cbn [mbind exec_bind].
  destruct Hp as (Hwf & _ & Hsuf & _ & _ & Hpq).
  destruct p as [t u n m b c]. cbn [tb tq pel pmax pblk pco] in *. subst.
  destruct u as [|a r e q]; [done|].
  destruct (repr_deref _ _ _ _ _ _ Hq) as (x & Hx & -> & Hrq & Hxe & Hxq).
  rewrite Hx. rewrite Hrq at 1. cbn [mbind exec_bind].
  destruct t as [|a0 r0 e0 q0]; [by inversion Hsuf|].
  destruct (repr_deref _ _ _ _ _ _ Hb) as (y & Hy & -> & Hrb & Hye & Hyq).
  destruct (request_disp_spec h fuel x e Hxe ltac:(cbn in *; lia)) as (d & Hd & Hdd).
  destruct (whole_code h x e y a0 q0 (rqbase s) Hxe Hy ltac:(apply Hwf)) as (w & -> & Hw).
  cbn [mbind exec_bind]. unfold enters, rstart, rsize, origin. cbn [tb tq pel pmax pblk pco].
  destruct (whole_test (RReq a0 (strip y) e0 q0)) eqn:Ewt.
  - destruct Hpq as (Heq & Hel & Hblk).
    destruct (RReq_inj _ _ _ _ _ _ _ _ Heq) as (-> & Hxy & -> & ->).
    pose proof (f_equal offset Hxy) as Ho. pose proof (f_equal aggregate_size Hxy) as Hag.
    cbn in Ho, Hag. rewrite Hw, Ewt, bool_decide_eq_true_2 by congruence.
    cbn [andb negb]. rewrite Hd. cbn [mbind exec_bind tree_disp tree_agg strip offset aggregate_size].
    rewrite Hco, <- Ho, <- Hag. do 2 f_equal; [|i64_flat].
    apply i64_proper. rewrite !i64_eq64, Hdd.
    match goal with |- eq64 ?a ?b => replace a with b by ring; reflexivity end.
  - assert (w && bool_decide (rq s = rqbase s) = false) as ->.
    { case_bool_decide as Hptr; [|apply andb_false_r]. rewrite andb_true_r.
      rewrite Hptr in Hq. pose proof (repr_fun h _ _ _ Hq Hb) as Heq.
      destruct (RReq_inj _ _ _ _ _ _ _ _ Heq) as (-> & Hxy & -> & ->). by rewrite Hw. }
    destruct (Hc eq_refl) as [_ Hcq]. destruct e as [|ae re ee qe]; [done|].
    destruct (repr_deref _ _ _ _ _ _ Hxe) as (z & Hz & -> & Hez & _ & _).
    rewrite Hz. cbn [mbind exec_bind]. cbn in Hwq.
    destruct Hwq as (_ & _ & _ & (Hfz & _) & _). rewrite i64_ext by done.
    cbn [negb andb]. unfold sub_test at 1. cbn [tree_agg tree_ext tree_chunks strip].
    destruct (bool_decide _ && bool_decide _) eqn:Esub; [|done]. cbn [negb].
    rewrite Hy. cbn [mbind exec_bind]. rewrite Hd. cbn [mbind exec_bind].
    rewrite Hco. cbn. do 2 f_equal; [|i64_flat].
    apply i64_proper. rewrite !i64_eq64, Hdd. cbn.
    match goal with |- eq64 ?a ?b => replace a with b by ring; reflexivity end.
Qed.

(** * Entering a level *)

Lemma stack_ok_insert h c D ps i s :
  (length ps ≤ i)%nat → stack_ok h c D ps → stack_ok h (<[i := s]> c) D ps.
Proof.
  induction ps as [|p ps IH]; [done|]. cbn. intros Hi ((s0 & Hs & Hr) & Hp & Hd & Hb & Hst).
  split_and!; [|done..|apply IH; [lia|done]]. exists s0. split; [|done].
  rewrite list_lookup_insert_ne; [done|lia].
Qed.

Lemma pos_nonnull p : pos_ok p → tb p ≠ RNull ∧ tq p ≠ RNull.
Proof.
  intros (_ & _ & Hs & _ & _ & Hq). destruct (tq p) as [|a r e q]; [done|].
  split; [|done]. intros Hn. rewrite Hn in Hs. inversion Hs.
Qed.

(** The bottom of the stack is the whole request. *)
Lemma stack_bottom h c D ps :
  stack_ok h c D ps → ps ≠ [] →
  ∃ s b, c !! 0%nat = Some s ∧ deref h (rqbase s) = Done b ∧ depth b = D.
Proof.
  induction ps as [|p ps IH]; [done|]. intros ((s & Hs & Hr) & Hp & _ & Hb & Hst) _.
  destruct ps as [|pp ps].
  - destruct Hr as (Hr & _). apply pos_nonnull in Hp as [Hp _]. destruct (tb p) as [|a r e q]; [done|].
    destruct (repr_deref _ _ _ _ _ _ Hr) as (x & Hx & -> & _). exists s, x. by cbn in *.
  - by apply IH.
Qed.

Lemma struct_split a r e q o :
  e ≠ RNull → 1 ≤ num_blocks r →
  elem (RReq a r e q) o =
    block r e o 0 ++ (seqZ 1 (num_blocks r - 1) ≫= block r e o) ++ elem q o.
Proof.
  intros He Hn. rewrite elem_blocks by done. rewrite seqZ_S by lia. cbn.
  by rewrite <- app_assoc.
Qed.

Lemma elems_split t k co :
  1 ≤ k → elems t k co = elem t co ++ (i ← seqZ 1 (k - 1); elem t (co + i * tree_ext t)).
Proof.
  intros. unfold elems. rewrite seqZ_S by lia. cbn. do 2 f_equal. lia.
Qed.

(** The first position of a level has everything before it. *)
Definition first_pos (t : rtree) (k co : Z) : pos := mkPos t t 0 k 0 co.

Lemma first_pos_todo t k co :
  wf t → t ≠ RNull → 1 ≤ k →
  region (first_pos t k co) ++ rest (first_pos t k co) = elems t k co.
Proof.
  intros Hwf Hne Hk. unfold region, rest, origin, first_pos. cbn [tb tq pel pmax pblk pco].
  destruct (whole_test t) eqn:Ew; [apply app_nil_r|].
  destruct t as [|a r [|a' r' e' q'] q]; [done..|].
  destruct Hwf as (_ & _ & _ & _ & _ & _ & _ & _ & Hnb & _).
  rewrite elems_split by done. rewrite (struct_split a r _ q co) by (done || lia).
  rewrite <- !app_assoc. rewrite !Z.sub_0_r.
  replace (co + 0 * tree_ext (RReq a r (RReq a' r' e' q') q)) with co by lia. done.
Qed.

Lemma first_pos_cost t k co :
  wf t → t ≠ RNull → 1 ≤ k →
  (cost_region (first_pos t k co) + cost_rest (first_pos t k co) = cost_elems t k)%nat.
Proof.
  intros Hwf Hne Hk. unfold cost_region, cost_rest, cost_elems, first_pos.
  cbn [tb tq pel pmax pblk pco]. destruct (whole_test t) eqn:Ew; [done|].
  destruct t as [|a r e q]; [done|].
  assert (1 ≤ num_blocks r) as Hnb.
  { destruct e; [done|]. destruct Hwf as (_ & _ & _ & _ & _ & _ & _ & _ & Hnb & _). lia. }
  change (cost_elem (RReq a r e q)) with (Z.to_nat (num_blocks r) * cost_block r e + cost_elem q)%nat.
  replace (Z.to_nat k) with (S (Z.to_nat (k - 0 - 1))) by lia.
  replace (Z.to_nat (num_blocks r)) with (S (Z.to_nat (num_blocks r - 0 - 1))) by lia. lia.
Qed.

Lemma first_pos_ok t k co :
  wf t → sound t → t ≠ RNull → 1 ≤ k < B63 → pos_ok (first_pos t k co).
Proof.
  intros Hwf Hs Hne Hk. unfold pos_ok, first_pos. cbn [tb tq pel pmax pblk pco].
  split_and!; [done..|apply suffix_refl|lia|lia|lia|].
  destruct t as [|a r e q]; [done|]. destruct (whole_test _) eqn:Ew; [done|].
  destruct e; [done|]. destruct Hwf as (_ & _ & _ & _ & _ & _ & _ & _ & Hnb & _). lia.
Qed.

Lemma set_level_Done req i s :
  (i < length (cur req))%nat →
  set_level req (Z.of_nat i) s = Done (set_cur req (<[i := s]> (cur req))).
Proof. intros Hi. unfold set_level. rewrite decide_True by lia. by rewrite Nat2Z.id. Qed.

(** Fields that the walk does not change. *)
Definition same_offsets (r1 r2 : PINT_Request_state) : Prop :=
  type_offset r1 = type_offset r2 ∧ target_offset r1 = target_offset r2 ∧
  final_offset r1 = final_offset r2 ∧ eof_flag r1 = eof_flag r2.

Lemma enter_level_spec h req p ps :
  walk h req (p :: ps) → enters p = true →
  ∃ req' p', enter_level h req = Done (Some req') ∧ walk h req' (p' :: p :: ps) ∧
    todo (p' :: p :: ps) (rs_bytes req') = todo (p :: ps) (rs_bytes req) ∧
    cost (p :: ps) = S (cost (p' :: p :: ps)) ∧ same_offsets req' req ∧
    rs_bytes req' = rs_bytes req ∧ (tree_size (tb p') < tree_size (tb p))%nat.
Proof.
  intros (D & Hlvl & Hst & HD & Hby & Hb0) He. specialize (Hb0 He).
  destruct (stack_bottom _ _ _ _ Hst ltac:(done)) as (s0 & b0 & Hs0 & Hb & Hdb).
  pose proof Hst as ((s & Hs & Hrb & Hrq & Hel & Hmax & Hblk & Hco) & Hp & Hdep & Hbot & Hst').
  assert (whole_test (tb p) = false) as Hw.
  { unfold enters in He. by destruct (whole_test (tb p)). }
  pose proof (pos_wf p Hp) as Hwq. destruct (pos_compound p Hp Hw) as [Hcb Hcq].
  pose proof (suffix_tree_size p Hp) as Hsz.
  assert (tree_depth (tq p) ≤ tree_depth (tb p)) as Hdq.
  { destruct Hp as (? & _ & ? & _). by apply suffix_depth. }
  unfold enter_level. replace (lvl req) with (Z.of_nat (length ps)) by (cbn in Hlvl; lia).
  rewrite (get_level_Done req _ s) by done. cbn [mbind exec_bind].
  unfold enters in He. rewrite Hw in He. cbn [negb andb] in He.
  pose proof Hp as (Hwf & _ & Hsuf & _).
  destruct (tq p) as [|a r e q] eqn:Etq; [done|].
  destruct (repr_deref _ _ _ _ _ _ Hrq) as (x & Hx & -> & Hpx & Hxe & _).
  rewrite Hx. cbn [mbind exec_bind]. change 0 with (Z.of_nat 0).
  rewrite (get_level_Done req _ s0) by done. cbn [mbind exec_bind]. rewrite Hb. cbn [mbind exec_bind].
  destruct e as [|ae re ee qe]; [done|].
  destruct Hwq as (_ & _ & _ & Hwe & _ & _ & Hse & Hne & _ & Hde & _).
  destruct (repr_deref _ _ _ _ _ _ Hxe) as (z & Hz & Hrz & Hez & _).
  rewrite (bool_decide_eq_false_2 (ereq x = None)) by congruence.
  assert (1 ≤ tree_depth (RReq ae re ee qe)) as Hde1 by (destruct Hwe as (_ & ? & _); cbn; lia).
  rewrite bool_decide_eq_false_2 by (cbn in *; lia). cbn [orb].
  destruct (tb p) as [|a1 r1 e1 q1] eqn:Etb; [by inversion Hsuf|].
  destruct (repr_deref _ _ _ _ _ _ Hrb) as (y & Hy & -> & _).
  rewrite Hy. cbn [mbind exec_bind].
  replace (Z.of_nat (length ps) + 1) with (Z.of_nat (length (p :: ps))) by (cbn; lia).
  rewrite set_level_Done by (cbn in *; lia). cbn [mbind exec_bind].
  set (e := RReq ae re ee qe) in *.
  exists (set_lvl (set_cur req (<[length (p :: ps) := mkReqstack 0 (num_ereqs x) (ereq x) (ereq x) 0
    (chunk_offset s +ₗ el s *ₗ (ub y -ₗ lb y) +ₗ offset x +ₗ stride x *ₗ blk s)]> (cur req)))
    (Z.of_nat (length (p :: ps)))),
    (first_pos e (num_ereqs x) (origin p + offset x + stride x * pblk p)).
  assert (region p = elems e (num_ereqs x) (origin p + offset x + stride x * pblk p)) as Hreg.
  { unfold region. rewrite Etb, Hw, Etq. done. }
  split_and!; [| | | |done|done|].
  - cbn [lvl set_cur]. do 3 f_equal. cbn in Hlvl |- *. lia.
  - exists D. cbn [lvl cur set_lvl set_cur rs_bytes]. split_and!.
    + cbn [length]. lia.
    + split_and!.
      * eexists. split; [apply list_lookup_insert_eq; cbn in *; lia|].
        unfold level_rep, first_pos, origin. cbn [rqbase rq el maxel blk chunk_offset tb tq pel pmax pblk pco].
        split_and!; try done. rewrite Hel, Hblk, Hco, Etb. cbn [tree_ext strip ub lb]. i64_flat.
      * apply first_pos_ok; [done..|]. cbn in Hne. lia.
      * cbn [first_pos tb length]. cbn in *. lia.
      * cbn. by rewrite Etb.
      * by apply stack_ok_insert.
    + rewrite length_insert. done.
    + rewrite Hb0. lia.
    + rewrite Hb0. lia.
    + by intros _.
  - unfold todo. cbn [rs_bytes set_lvl set_cur]. rewrite Hb0. cbn [Z.to_nat]. rewrite !drop_0.
    unfold rests. cbn [mbind list_bind]. rewrite Hreg, <- (first_pos_todo e) by (done || cbn in Hne; lia).
    by rewrite <- !app_assoc.
  - unfold cost. unfold cost_rests. cbn [foldr].
    pose proof (first_pos_cost e (num_ereqs x) (origin p + offset x + stride x * pblk p)
      ltac:(done) ltac:(done) ltac:(cbn in Hne; lia)) as Hc.
    assert (cost_region p = S (cost_elems e (num_ereqs x))) as ->.
    { unfold cost_region. rewrite Etb, Hw, Etq. unfold cost_block. apply negb_true_iff in He.
      by rewrite He. }
    lia.
  - cbn in *. lia.
Qed.

(** * Returning from a level *)

(** The next position of a level. *)
Definition advance (p : pos) : option pos :=
  match tq p with
  | RNull => None
  | RReq _ r e q =>
      if decide (pblk p + 1 < num_blocks r)
      then Some (mkPos (tb p) (tq p) (pel p) (pmax p) (pblk p + 1) (pco p))
      else match q with
           | RReq _ _ _ _ => Some (mkPos (tb p) q (pel p) (pmax p) 0 (pco p))
           | RNull =>
               if decide (pel p + 1 < pmax p)
               then Some (mkPos (tb p) (tb p) (pel p + 1) (pmax p) 0 (pco p)) else None
           end
  end.

Lemma suffix_tail a r e q u : suffix (RReq a r e q) u → suffix q u.
Proof.
  remember (RReq a r e q) as t. induction 1 as [|a' r' e' q' Hs IH].
  - subst. apply suffix_next, suffix_refl.
  - by apply suffix_next.
Qed.

Lemma advance_spec p :
  pos_ok p → whole_test (tb p) = false →
  match advance p with
  | Some p1 => pos_ok p1 ∧ (tb p1 = tb p ∧ pmax p1 = pmax p) ∧ region p1 ++ rest p1 = rest p ∧
               (cost_region p1 + cost_rest p1 = cost_rest p)%nat
  | None => rest p = [] ∧ cost_rest p = 0%nat
  end.
Proof.
  intros Hp Hw. pose proof (pos_wf p Hp) as Hwq. destruct (pos_compound p Hp Hw) as [Hcb Hcq].
  destruct Hp as (Hwf & Hs & Hsuf & Hel & Hmax & Hq).
  destruct p as [t u n m b c]. unfold advance, rest, cost_rest, region, cost_region, origin.
  cbn [tb tq pel pmax pblk pco] in *. rewrite Hw in Hq |- *.
  destruct u as [|a r e q]; [done|]. destruct e as [|ae re ee qe]; [done|].
  set (e := RReq ae re ee qe) in *. cbn zeta.
  destruct Hwq as (_ & _ & _ & _ & Hwq & Hcompq & _ & _ & Hnb & _).
  case_decide as Hb.
  { cbn [tb tq pel pmax pblk pco]. rewrite Hw. split_and!; try done; try lia.
    - unfold pos_ok. cbn [tb tq pel pmax pblk pco]. rewrite Hw. split_and!; done || lia.
    - rewrite (seqZ_S (b + 1)) by lia. cbn [mbind list_bind]. rewrite <- !app_assoc.
      do 4 f_equal; lia.
    - replace (Z.to_nat (num_blocks r - b - 1)) with (S (Z.to_nat (num_blocks r - (b + 1) - 1)))
        by lia. lia. }
  rewrite (seqZ_nil (b + 1)) by lia. replace (Z.to_nat (num_blocks r - b - 1)) with 0%nat by lia.
  destruct q as [|aq rq' eq qq].
  - case_decide as Hm; [|rewrite seqZ_nil by lia; replace (Z.to_nat (m - n - 1)) with 0%nat by lia; done].
    cbn [tb tq pel pmax pblk pco]. rewrite Hw.
    destruct t as [|at' rt et qt]; [by inversion Hsuf|]. destruct et as [|a1 r1 e1 q1]; [done|].
    set (et := RReq a1 r1 e1 q1) in *. set (t := RReq at' rt et qt) in *.
    pose proof Hwf as (_ & _ & _ & _ & _ & _ & _ & _ & Hnbt & _).
    split_and!; [|done|done| |].
    + unfold pos_ok. cbn [tb tq pel pmax pblk pco]. rewrite Hw.
      split_and!; try done; try lia; [apply suffix_refl|]. unfold t. lia.
    + cbn [elem app]. rewrite (seqZ_S (n + 1)) by lia. cbn [mbind list_bind].
      unfold t at 2. rewrite (struct_split at' rt et qt) by (done || lia). fold t.
      rewrite <- !app_assoc. replace (0 + 1) with 1 by lia. rewrite !Z.sub_0_r.
      by replace (m - (n + 1) - 1) with (m - n - 1 - 1) by lia.
    + change (cost_elem t) with (Z.to_nat (num_blocks rt) * cost_block rt et + cost_elem qt)%nat.
      replace (Z.to_nat (m - n - 1)) with (S (Z.to_nat (m - (n + 1) - 1))) by lia.
      replace (Z.to_nat (num_blocks rt)) with (S (Z.to_nat (num_blocks rt - 0 - 1))) by lia.
      cbn [cost_elem]. lia.
  - cbn [tb tq pel pmax pblk pco]. rewrite Hw.
    destruct eq as [|a1 r1 e1 q1]; [done|]. set (eq := RReq a1 r1 e1 q1) in *.
    pose proof Hwq as (_ & _ & _ & _ & _ & _ & _ & _ & Hnbq & _).
    split_and!; [|done|done| |].
    + unfold pos_ok. cbn [tb tq pel pmax pblk pco]. rewrite Hw.
      split_and!; try done; try lia. by eapply suffix_tail.
    + rewrite (struct_split aq rq' eq qq) by (done || lia). cbn [app mbind list_bind].
      rewrite <- !app_assoc. replace (0 + 1) with 1 by lia. rewrite !Z.sub_0_r. done.
    + change (cost_elem (RReq aq rq' eq qq)) with
        (Z.to_nat (num_blocks rq') * cost_block rq' eq + cost_elem qq)%nat.
      replace (Z.to_nat (num_blocks rq')) with (S (Z.to_nat (num_blocks rq' - 0 - 1))) by lia. lia.
Qed.

(** The request and the number of its elements, which the lowest level holds. *)
Definition bottom (ps : list pos) : option (rtree * Z) := (λ p, (tb p, pmax p)) <$> last ps.

Lemma bottom_nil ps : bottom ps = None → ps = [].
Proof. unfold bottom. rewrite fmap_None. apply last_None. Qed.

Lemma bottom_tail p ps ps' : ps' = [] ∨ bottom ps' = bottom ps → ps' = [] ∨ bottom ps' = bottom (p :: ps).
Proof. destruct ps; [|done]. intros [?|?%bottom_nil]; by left. Qed.

(** The level of the stack that represents the next position. *)
Lemma return_code h s p r q :
  level_rep h s p → pos_ok p → whole_test (tb p) = false →
  deref h (rq s) = Done r → repr h (sreq r) q → (∃ a e, tq p = RReq a (strip r) e q) →
  match advance p with
  | Some p1 =>
      ∃ s1, level_rep h s1 p1 ∧
        (if decide (i32 (blk s + 1) >= num_blocks r) then
           match sreq r with
           | Some _ => s1 = mkReqstack (el s) (maxel s) (sreq r) (rqbase s) 0 (chunk_offset s)
           | None => s1 = mkReqstack (el s +ₗ 1) (maxel s) (rqbase s) (rqbase s) 0 (chunk_offset s) ∧
                     ¬ el s +ₗ 1 >= maxel s
           end
         else s1 = mkReqstack (el s) (maxel s) (rq s) (rqbase s) (i32 (blk s + 1)) (chunk_offset s))
  | None => i32 (blk s + 1) >= num_blocks r ∧ sreq r = None ∧ el s +ₗ 1 >= maxel s
  end.
Proof.
  intros (Hb & Hq & Hel & Hmax & Hblk & Hco) Hp Hw Hr Hsq (a & e & Htq).
  pose proof (pos_wf p Hp) as Hwq. destruct (pos_compound p Hp Hw) as [_ Hcq].
  destruct Hp as (_ & _ & _ & Hpe & Hpm & Hpq). unfold advance. rewrite Htq in *.
  rewrite Hw in Hpq. destruct e as [|ae re ee qe]; [done|].
  destruct Hwq as (_ & _ & _ & _ & _ & _ & _ & _ & Hnb & _). cbn [strip num_blocks] in *.
  rewrite Hel, Hblk, Hmax, i32_id, i64_id by lia.
  case_decide as Hnext.
  { eexists. rewrite decide_False by lia. split; [|done].
    unfold level_rep. cbn [rqbase rq el maxel blk chunk_offset tb tq pel pmax pblk pco].
    split_and!; done. }
  destruct q as [|aq rq' eq qq]; cbn [repr] in Hsq.
  - rewrite Hsq. case_decide as Hm; [|split_and!; [lia|done|lia]]. eexists.
    rewrite decide_True by lia. split; [|split; [done|lia]].
    unfold level_rep. cbn [rqbase rq el maxel blk chunk_offset tb tq pel pmax pblk pco].
    split_and!; done.
  - destruct Hsq as [Hsq Hrest]. rewrite Hsq. eexists. rewrite decide_True by lia. split; [|done].
    unfold level_rep. cbn [rqbase rq el maxel blk chunk_offset tb tq pel pmax pblk pco].
    split_and!; done.
Qed.

Lemma return_from_level_spec h n D ps : ∀ req,
  lvl req = Z.of_nat (length ps) - 1 → stack_ok h (cur req) D ps →
  D ≤ Z.of_nat (length (cur req)) → (length ps ≤ n)%nat →
  match ps with [] => True | p :: _ => whole_test (tb p) = false end →
  ∃ req' fin ps', return_from_level n h req = Done (req', fin) ∧ walk h req' ps' ∧
    rs_bytes req' = 0 ∧ todo ps' 0 = rests ps ∧ cost ps' = cost_rests ps ∧
    same_offsets req' req ∧ (fin = true ↔ ps' = []) ∧ (ps' = [] ∨ bottom ps' = bottom ps) ∧
    (∀ F, Forall (λ p, tree_size (tb p) ≤ F)%nat ps → Forall (λ p, tree_size (tb p) ≤ F)%nat ps').
Proof.
  revert n. induction ps as [|p ps IH]; intros n req Hlvl Hst HD Hn Hw.
  { exists (set_rs_bytes req 0), true, []. split_and!; try done; [| |by left].
    - destruct n; cbn; by rewrite decide_True by (cbn in Hlvl; lia).
    - by exists D. }
  destruct n as [|n]; [cbn in Hn; lia|]. cbn [return_from_level].
  cbn [lvl set_rs_bytes]. rewrite decide_False by (cbn in Hlvl; lia).
  replace (lvl req) with (Z.of_nat (length ps)) by (cbn in Hlvl; lia).
  pose proof Hst as ((s & Hs & Hrep) & Hp & Hdep & Hbot & Hst').
  rewrite (get_level_Done _ _ s) by done. cbn [mbind exec_bind].
  destruct (tq p) as [|a r e q] eqn:Etq; [by destruct (pos_nonnull p Hp) as [_ ?]|].
  pose proof Hrep as (_ & Hrq & _). rewrite Etq in Hrq.
  destruct (repr_deref _ _ _ _ _ _ Hrq) as (x & Hx & -> & Hpx & _ & Hxq).
  rewrite Hx. cbn [mbind exec_bind].
  pose proof (return_code h s p x q Hrep Hp Hw Hx Hxq ltac:(eauto)) as Hcode.
  pose proof (advance_spec p Hp Hw) as Hadv.
  assert (length ps < length (cur req))%nat as Hlen by (by eapply lookup_lt_Some).
  destruct (advance p) as [p1|] eqn:Ead.
  - destruct Hcode as (s1 & Hrep1 & Hcode). destruct Hadv as (Hp1 & [Htb1 Hmax1] & Hreg1 & Hcost1).
    exists (set_cur (set_rs_bytes req 0) (<[length ps := s1]> (cur req))), false, (p1 :: ps).
    split_and!; try done.
    + case_decide.
      * destruct (sreq x).
        -- rewrite set_level_Done by done. subst s1. done.
        -- rewrite set_level_Done by done. destruct Hcode as [-> ?]. cbn [mbind exec_bind].
           by rewrite decide_False.
      * rewrite set_level_Done by done. subst s1. done.
    + exists D. cbn [lvl cur set_cur set_rs_bytes rs_bytes]. split_and!; try done.
      * cbn [stack_ok]. rewrite Htb1. split_and!; try done; [|by apply stack_ok_insert].
        exists s1. split; [by apply list_lookup_insert_eq|done].
      * by rewrite length_insert.
      * lia.
    + unfold todo, rests. cbn [Z.to_nat mbind list_bind]. by rewrite drop_0, app_assoc, Hreg1.
    + unfold cost, cost_rests. cbn [foldr]. lia.
    + right. unfold bottom. destruct ps; [|done]. cbn. by rewrite Htb1, Hmax1.
    + intros F [Hf Hfs]%Forall_cons. constructor; [by rewrite Htb1|done].
  - destruct Hcode as (Hc1 & -> & Hc3). destruct Hadv as (Hrest & Hcost).
    rewrite decide_True by done. rewrite set_level_Done by done. cbn [mbind exec_bind].
    rewrite decide_True by done.
    set (req1 := set_lvl _ _). destruct (IH n req1) as (req' & fin & ps' & Heq & Hwk & Hby & Htd & Hcs & Hso & Hfin & Hbt & Hfz).
    + unfold req1. cbn [lvl set_lvl set_cur set_rs_bytes]. cbn in Hlvl. lia.
    + by apply stack_ok_insert.
    + unfold req1. cbn [cur set_lvl set_cur]. by rewrite length_insert.
    + cbn in Hn. lia.
    + destruct ps; [done|]. by destruct Hbot.
    + exists req', fin, ps'. split_and!; try done.
      * unfold rests in *. cbn [mbind list_bind]. by rewrite Hrest.
      * unfold cost_rests in *. cbn [foldr]. lia.
      * by apply bottom_tail.
      * intros F [_ Hfs]%Forall_cons. auto.
Qed.
