(* ===== verification/ProcessSpec.v ===== *)
(** [PINT_process_request] transfers the bytes that the request means: a call
    skips to the target offset, processes a stretch of the bytes that are left
    and stops at the final offset, at the end of the request, or when the
    result is full; the next call goes on where it stopped. *)

From stdpp Require Import list numbers gmap.
From S2P Require Import Prelude Errors Dist Request Distribute Process RequestTree ProcessWalk.

(** * The loop, for any way to handle a region *)

(** The scratch cell that the client mode writes is not part of the segments. *)
Lemma client_write r v :
  result_ok r → segs r < segmax r →
  ∃ oa, array_set (offset_array r) (segs r) v = Done oa ∧
    result_ok (set_offset_array r oa) ∧ segments (set_offset_array r oa) = segments r.
Proof.
  intros (oa & sa & Ho & Hs & Hlo & Hls & Hsg & Hsm & Hb & Hbm & Hall) Hlt.
  exists (Some (<[Z.to_nat (segs r) := v]> oa)). rewrite Ho, array_set_Some by lia.
  assert (segments (set_offset_array r (Some (<[Z.to_nat (segs r) := v]> oa))) = segments r) as Heq.
  { unfold segments. cbn. rewrite Ho, Hs.
    destruct (lookup_lt_is_Some_2 sa (Z.to_nat (segs r)) ltac:(lia)) as [s0 Hs0].
    rewrite <- (list_insert_id sa _ _ Hs0) at 1. rewrite zip_insert. by rewrite take_insert_ge. }
  split_and!; [done| |done]. rewrite <- Heq in Hall.
  exists (<[Z.to_nat (segs r) := v]> oa), sa. cbn. rewrite length_insert. split_and!; try done; lia.
Qed.

(** The end of a region that has been processed completely. *)
Lemma process_after_full h st p ps m :
  walk h (p_req st) (p :: ps) → 0 ≤ m → type_offset (p_req st) + m < B63 →
  0 ≤ type_offset (p_req st) → PINT_IS_CKSIZE (p_mode st) = false →
  ∃ req' ps', process_after h st m (whole_test (tb p)) m =
      Done ((if decide (ps' = [] ∨ bytes (p_result st) = bytemax (p_result st) ∨
                        segs (p_result st) = segmax (p_result st) ∨
                        type_offset req' >= final_offset req')
             then PBreak else PNext) (set_req st req')) ∧
    walk h req' ps' ∧ rs_bytes req' = 0 ∧ todo ps' 0 = rest p ++ rests ps ∧
    cost ps' = (cost_rest p + cost_rests ps)%nat ∧
    type_offset req' = type_offset (p_req st) + m ∧
    target_offset req' = target_offset (p_req st) ∧ final_offset req' = final_offset (p_req st) ∧
    eof_flag req' = eof_flag (p_req st) ∧ (ps' = [] ∨ bottom ps' = bottom (p :: ps)) ∧
    (∀ F, Forall (λ p, tree_size (tb p) ≤ F)%nat (p :: ps) →
       Forall (λ p, tree_size (tb p) ≤ F)%nat ps').
Proof.
  intros (D & Hlvl & Hst & HD & _) Hm Hto Ht0 Hck. unfold process_after.
  rewrite i64_id by lia. rewrite decide_False by (intros Hx; by apply Hx).
  set (req1 := set_type_offset (p_req st) (type_offset (p_req st) + m)).
  set (req2 := if whole_test (tb p) then _ else _).
  set (qs := if whole_test (tb p) then ps else p :: ps).
  assert (rest p ++ rests ps = rests qs ∧ (cost_rest p + cost_rests ps = cost_rests qs)%nat) as [Hrs Hcs].
  { unfold qs, rest, cost_rest. destruct (whole_test (tb p)) eqn:Ew; [done|].
    unfold rests, cost_rests. cbn [mbind list_bind foldr]. unfold rest, cost_rest.
    by rewrite Ew. }
  assert (cur req2 = cur (p_req st) ∧ same_offsets req2 req1) as [Hcur Hso2].
  { unfold req2. by destruct (whole_test (tb p)). }
  destruct (return_from_level_spec h (Z.to_nat (lvl req2 + 1)) D qs req2)
    as (req' & fin & ps' & -> & Hwk & Hby & Htd & Hct & (Hto' & Hta & Hfi & Heof) & Hfin & Hbt & Hsz).
  - unfold req2, qs. destruct (whole_test (tb p)); cbn in Hlvl |- *; lia.
  - rewrite Hcur. unfold qs. destruct (whole_test (tb p)); [|done]. apply Hst.
  - by rewrite Hcur.
  - unfold req2, qs. destruct (whole_test (tb p)); cbn in Hlvl |- *; lia.
  - unfold qs. destruct (whole_test (tb p)) eqn:Ew; [|done].
    destruct Hst as (_ & _ & _ & Hb & _). by destruct ps.
  - exists req', ps'. cbn [mbind exec_bind p_mode p_result set_req]. rewrite Hck. cbn [negb andb].
    destruct Hso2 as (H1 & H2 & H3 & H4).
    split_and!; try done; try congruence.
    + destruct fin.
      { rewrite decide_True; [done|]. left. by apply Hfin. }
      assert (ps' ≠ []) by (intros Hn; by apply Hfin in Hn).
      destruct (decide (ps' = [] ∨ _)) as [Hd|Hd]; do 2 (case_bool_decide; [done || tauto|]);
        cbn [orb]; case_decide; done || tauto.
    + by rewrite Hto', H1.
    + by rewrite Hta, H2.
    + by rewrite Hfi, H3.
    + by rewrite Heof, H4.
    + unfold qs in Hbt. destruct (whole_test (tb p)); [by apply bottom_tail|done].
    + intros F HF. apply Hsz. unfold qs. destruct (whole_test (tb p)); [by apply Forall_cons in HF as [_ ?]|done].
Qed.

(** ** Progress

    From [ps] to [ps'] the steps left do not increase, the fuel for the
    displacements stays enough, and the lowest level stays the same. *)
Definition goes_on (fuel : nat) (ps ps' : list pos) : Prop :=
  (cost ps' ≤ cost ps)%nat ∧
  (Forall (λ p, tree_size (tb p) ≤ fuel)%nat ps → Forall (λ p, tree_size (tb p) ≤ fuel)%nat ps') ∧
  (ps' = [] ∨ bottom ps' = bottom ps).

#[export] Instance goes_on_preorder fuel : PreOrder (goes_on fuel).
Proof.
  split; [intros ps; split; [done|auto]|]. intros ps1 ps2 ps3 (H1 & H2 & H3) (H4 & H5 & H6).
  split_and!; [lia|auto|]. destruct H6 as [?|H6]; [by left|]. rewrite H6.
  destruct H3 as [->|H3]; [|by right]. left. by apply bottom_nil.
Qed.

(** * Regions *)

Lemma rsize_nonneg p : pos_ok p → 0 ≤ rsize p.
Proof.
  intros Hp. pose proof (pos_wf p Hp) as Hwq. pose proof (pos_compound p Hp) as Hc.
  destruct Hp as (Hwf & _ & _ & Hel & _ & Hq). unfold rsize. destruct (whole_test (tb p)).
  - destruct (tb p) as [|a r e q]; cbn; [lia|]. destruct Hwf as (_ & _ & Ha & _). nia.
  - destruct (Hc eq_refl) as [_ Hcq]. destruct (tq p) as [|a r [|a' r' e' q'] q]; [done..|]. cbn.
    destruct Hwq as (_ & _ & _ & Hwe & _ & _ & _ & Hne & _). destruct Hwe as (_ & _ & Ha & _). nia.
Qed.

Lemma cost_pos h req p ps : walk h req (p :: ps) → (1 ≤ cost_region p)%nat.
Proof.
  intros (D & _ & (_ & Hp & _) & _). destruct (pos_nonnull p Hp) as [_ Hq].
  unfold cost_region, cost_block. destruct (whole_test (tb p)); [done|].
  destruct (tq p) as [|a r e q]; [done|]. destruct (sub_test e); lia.
Qed.

(** The region that is next is the beginning of what is left. *)
Lemma todo_region h req p ps L :
  walk h req (p :: ps) → enters p = false → L = todo (p :: ps) (rs_bytes req) →
  0 ≤ rs_bytes req ≤ rsize p ∧
  L = seqZ (rstart p + rs_bytes req) (rsize p - rs_bytes req) ++ (rest p ++ rests ps).
Proof.
  intros (D & _ & (_ & Hp & _) & _ & Hb & _) He ->.
  pose proof (region_seq p Hp He) as Hr. pose proof (rsize_nonneg p Hp).
  rewrite Hr, length_seqZ in Hb. split; [lia|].
  unfold todo. rewrite Hr, drop_seqZ by lia. done.
Qed.

(** Some bytes of the region are done. *)
Lemma walk_partial h req req' p ps n :
  walk h req (p :: ps) → enters p = false → 0 ≤ n → rs_bytes req + n ≤ rsize p →
  cur req' = cur req → lvl req' = lvl req → rs_bytes req' = rs_bytes req + n →
  walk h req' (p :: ps) ∧
  todo (p :: ps) (rs_bytes req') = drop (Z.to_nat n) (todo (p :: ps) (rs_bytes req)).
Proof.
  intros (D & Hl & Hst & HD & Hb & Hb0) He Hn Hle Hc Hl' Hb'. pose proof Hst as (_ & Hp & _).
  pose proof (region_seq p Hp He) as Hr. pose proof (rsize_nonneg p Hp). split.
  - exists D. rewrite Hc, Hl', Hb', Hr, length_seqZ. rewrite Hr, length_seqZ in Hb.
    split_and!; try done; [lia..|]. by rewrite He.
  - unfold todo. rewrite Hb', Hr. rewrite Hr, length_seqZ in Hb. rewrite !drop_seqZ by lia.
    rewrite drop_app_le by (rewrite length_seqZ; lia). rewrite drop_seqZ by lia.
    f_equal. f_equal; lia.
Qed.

Section loop.
Context (distribute : Z → Z → option PINT_request_file_data → option PINT_Request_state →
  PINT_Request_result → Z →
  exec (Z * option PINT_request_file_data * option PINT_Request_state *
        PINT_Request_result * bool)).
Context (fuel : nat) (h : req_heap).
(** What is output for a byte, what holds of the file data and of the mode, a
    bound for the offsets, and whether processing stops at the end of file. *)
Context (emit : Z → list Z) (rf_ok : PINT_request_file_data → Prop) (mode_ok : Z → Prop) (lim : Z).
Context (eof_stops : Prop).

(** The state of the result is fit for another region. *)
Definition ready (st : ploop) : Prop :=
  (∃ rf, p_rf st = Some rf ∧ rf_ok rf) ∧ mode_ok (p_mode st) ∧
  result_ok (p_result st) ∧ segs (p_result st) < segmax (p_result st) ∧
  bytes (p_result st) < bytemax (p_result st).

(** The result cannot take more, or the end of the file has been reached. *)
Definition stopped (st : ploop) : Prop :=
  bytes (p_result st) = bytemax (p_result st) ∨ segs (p_result st) = segmax (p_result st) ∨
  (eof_stops ∧ eof_flag (p_req st) = true).

Context (Hlim : lim ≤ B63).
Context (Hmode : ∀ mode, mode_ok mode →
  PINT_IS_CKSIZE mode = false ∧ mode_ok (PINT_CLR_LOGICAL_SKIP mode) ∧
  PINT_IS_LOGICAL_SKIP (PINT_CLR_LOGICAL_SKIP mode) = false).

(** A region that is not skipped: a prefix of it is output. *)
Context (Hregion : ∀ st o sz,
  ready st → PINT_IS_LOGICAL_SKIP (p_mode st) = false → 0 ≤ sz →
  (0 < sz → 0 ≤ o ∧ o + sz < lim) → 0 ≤ type_offset (p_req st) ≤ final_offset (p_req st) →
  final_offset (p_req st) < B63 → type_offset (p_req st) + sz < B63 →
  bytemax (p_result st) + sz < B63 →
  let cut := Z.min sz (final_offset (p_req st) - type_offset (p_req st)) in
  ∃ n st', process_region distribute st o sz = Done (Some n, st') ∧ 0 ≤ n ≤ cut ∧
    (∃ eof, p_req st' = set_eof_flag (p_req st) eof) ∧ p_mode st' = p_mode st ∧
    (∃ rf, p_rf st' = Some rf ∧ rf_ok rf) ∧ result_ok (p_result st') ∧
    segmax (p_result st') = segmax (p_result st) ∧ bytemax (p_result st') = bytemax (p_result st) ∧
    expand (segments (p_result st')) = expand (segments (p_result st)) ++ (seqZ o n ≫= emit) ∧
    bytes (p_result st') = bytes (p_result st) + Z.of_nat (length (seqZ o n ≫= emit)) ∧
    (n = cut ∨ stopped st')).

(** The state of the loop: the bytes [L] are left. *)
Definition looping (st : ploop) (ps : list pos) (L : list Z) : Prop :=
  let req := p_req st in
  walk h req ps ∧ ps ≠ [] ∧ L = todo ps (rs_bytes req) ∧
  Forall (λ p, tree_size (tb p) ≤ fuel)%nat ps ∧ Forall (λ b, 0 ≤ b < lim - 1) L ∧
  0 ≤ rs_bytes req ≤ type_offset req ∧ type_offset req ≤ final_offset req ∧
  final_offset req < B63 ∧ type_offset req + Z.of_nat (length L) < B63 ∧
  bytemax (p_result st) + Z.of_nat (length L) < B63 ∧ ready st ∧
  (PINT_IS_LOGICAL_SKIP (p_mode st) = true →
   type_offset req ≤ target_offset req ≤ final_offset req).

(** The bytes still to be skipped. *)
Definition to_skip (st : ploop) : Z :=
  if PINT_IS_LOGICAL_SKIP (p_mode st)
  then target_offset (p_req st) - type_offset (p_req st) else 0.

(** What a call has done when [L] was left: [s] bytes are skipped and [k] bytes
    are processed. *)
Definition outcome (st : ploop) (L : list Z) (st' : ploop) (ps' : list pos) (s k : Z) : Prop :=
  let req := p_req st in
  let req' := p_req st' in
  let r := p_result st in
  let r' := p_result st' in
  walk h req' ps' ∧ todo ps' (rs_bytes req') = drop (Z.to_nat (s + k)) L ∧
  0 ≤ k ∧ s + k ≤ Z.of_nat (length L) ∧
  type_offset req' = type_offset req + s + k ∧ target_offset req' = target_offset req ∧
  (final_offset req' = final_offset req ∧ type_offset req' ≤ final_offset req') ∧
  0 ≤ rs_bytes req' ≤ type_offset req' ∧
  expand (segments r') = expand (segments r) ++ (take (Z.to_nat k) (drop (Z.to_nat s) L) ≫= emit) ∧
  bytes r' = bytes r + Z.of_nat (length (take (Z.to_nat k) (drop (Z.to_nat s) L) ≫= emit)) ∧
  result_ok r' ∧ segmax r' = segmax r ∧ bytemax r' = bytemax r ∧
  (∃ rf, p_rf st' = Some rf ∧ rf_ok rf) ∧
  Forall (λ p, tree_size (tb p) ≤ fuel)%nat ps' ∧
  (k = Z.min (Z.of_nat (length L) - s) (final_offset req - type_offset req - s) ∨ stopped st').

Lemma process_iter_region st p ps L :
  looping st (p :: ps) L → enters p = false →
  let m := rsize p - rs_bytes (p_req st) in
  let o := rstart p + rs_bytes (p_req st) in
  let left := final_offset (p_req st) - type_offset (p_req st) in
  ∃ n st1, process_iter distribute fuel h st = process_after h st1 m (whole_test (tb p)) n ∧
    0 ≤ n ≤ m ∧ (∃ eof, p_req st1 = set_eof_flag (p_req st) eof) ∧ p_mode st1 = p_mode st ∧
    (∃ rf, p_rf st1 = Some rf ∧ rf_ok rf) ∧ result_ok (p_result st1) ∧
    segmax (p_result st1) = segmax (p_result st) ∧
    bytemax (p_result st1) = bytemax (p_result st) ∧
    if PINT_IS_LOGICAL_SKIP (p_mode st) then
      n = Z.min m (to_skip st) ∧ ready st1 ∧
      expand (segments (p_result st1)) = expand (segments (p_result st)) ∧
      bytes (p_result st1) = bytes (p_result st)
    else
      n ≤ left ∧ (n = Z.min m left ∨ stopped st1) ∧
      expand (segments (p_result st1)) = expand (segments (p_result st)) ++ (seqZ o n ≫= emit) ∧
      bytes (p_result st1) = bytes (p_result st) + Z.of_nat (length (seqZ o n ≫= emit)).
Proof.
  intros (Hwk & _ & HL & Hf & Hrange & Hb & Hto & Hfi & HB & HB' & Hready & Hsk) He m o left.
  destruct (todo_region _ _ _ _ _ Hwk He HL) as [Hbr HL'].
  fold o m in HL'. assert (0 ≤ m) as Hm by (unfold m; lia).
  assert (m ≤ Z.of_nat (length L)) as HmL.
  { rewrite HL', length_app, length_seqZ. lia. }
  assert (0 < m → 0 ≤ o ∧ o + m < lim) as Ho.
  { intros Hpos. rewrite HL' in Hrange. apply Forall_app in Hrange as [Hrange _].
    rewrite Forall_forall in Hrange.
    pose proof (Hrange o ltac:(apply elem_of_seqZ; lia)).
    pose proof (Hrange (o + m - 1) ltac:(apply elem_of_seqZ; lia)). lia. }
  unfold process_iter. rewrite (process_chunk_spec h fuel _ p ps) by (done || by apply Forall_cons in Hf as [? _]).
  rewrite He. cbn [mbind exec_bind]. fold o m. rewrite (i64_id m) by lia.
  destruct Hready as ((rf & Hrf & Hrfok) & Hmok & Hok & Hsg & Hby).
  assert (∃ r1, (if PINT_IS_CLIENT (p_mode st) then
     oa ← array_set (offset_array (p_result st)) (segs (p_result st))
            (type_offset (p_req st) -ₗ target_offset (p_req st));
     Done (set_offset_array (p_result st) oa) else Done (p_result st)) = Done r1 ∧
     result_ok r1 ∧ segments r1 = segments (p_result st) ∧ segs r1 = segs (p_result st) ∧
     bytes r1 = bytes (p_result st) ∧ segmax r1 = segmax (p_result st) ∧
     bytemax r1 = bytemax (p_result st)) as (r1 & -> & Hok1 & Hseg1 & Hs1 & Hb1 & Hsm1 & Hbm1).
  { destruct (PINT_IS_CLIENT (p_mode st)); [|by exists (p_result st)].
    destruct (client_write (p_result st) (type_offset (p_req st) -ₗ target_offset (p_req st)) Hok Hsg)
      as (oa & -> & ? & ?). by eexists. }
  cbn [mbind exec_bind]. set (st0 := mkPloop (p_req st) (p_mem st) (p_rf st) r1 (p_mode st)).
  assert (ready st0) as Hready0.
  { unfold ready, st0. cbn. rewrite Hs1, Hb1, Hsm1, Hbm1. split_and!; eauto. }
  destruct (PINT_IS_LOGICAL_SKIP (p_mode st)) eqn:Eskip.
  - specialize (Hsk eq_refl). exists (Z.min m (to_skip st)).
    exists (set_req st0 (set_eof_flag (p_req st)
      (bool_decide (fsize (rf_data rf) ≤ type_offset (p_req st)) && negb (extend_flag (rf_data rf))))).
    unfold to_skip. rewrite Eskip. split_and!; try done; try lia.
    + unfold process_region, st0. cbn [p_mode p_req p_rf p_result]. rewrite Eskip, Hrf.
      rewrite !i64_id by lia. cbn [mbind exec_bind]. f_equal. case_decide; lia.
    + eauto.
    + eauto.
    + cbn. by rewrite Hseg1.
  - destruct (Hregion st0 (i64 o) m) as (n & st1 & Hpr & Hn & Hreq & Hmd & Hrf1 & Hok' & Hsm' & Hbm' & Hout & Hbo & Hstop);
      try done; cbn [st0 p_req p_result]; try lia.
    + intros Hpos. specialize (Ho Hpos). rewrite i64_id by lia. done.
    + cbn in Hn, Hreq, Hmd, Hsm', Hbm', Hout, Hbo, Hstop. exists n, st1. rewrite Hpr. cbn [mbind exec_bind].
      fold left in Hn, Hstop. split_and!; try done; try lia; try congruence.
      all: destruct (decide (0 < m)) as [Hpos|Hz];
        [specialize (Ho Hpos); rewrite i64_id in Hout, Hbo by lia
        |rewrite seqZ_nil in Hout, Hbo |- * by lia].
      all: by rewrite ?Hout, ?Hbo, ?Hseg1, ?Hb1.
Qed.

(** Going on after [n] of the bytes [L] that are left. *)
Lemma outcome_skip st L st1 L1 st' ps' n s k :
  0 ≤ n ≤ Z.of_nat (length L) → 0 ≤ s → L1 = drop (Z.to_nat n) L →
  type_offset (p_req st1) = type_offset (p_req st) + n →
  target_offset (p_req st1) = target_offset (p_req st) →
  final_offset (p_req st1) = final_offset (p_req st) →
  expand (segments (p_result st1)) = expand (segments (p_result st)) →
  bytes (p_result st1) = bytes (p_result st) →
  segmax (p_result st1) = segmax (p_result st) → bytemax (p_result st1) = bytemax (p_result st) →
  outcome st1 L1 st' ps' s k → outcome st L st' ps' (n + s) k.
Proof.
  intros Hn Hs -> Hto Hta Hfi Hex Hbx Hsm Hbm (Hwk & Htd & Hk & Hle & H1 & H2 & [H3 H3b] & H4 & H5 & H5b & H6 & H7 & H8 & H9 & H10 & H11).
  rewrite length_drop in Hle, H11. unfold outcome. cbn zeta.
  split_and!; try done; try lia; try congruence.
  - rewrite Htd, drop_drop. f_equal. lia.
  - rewrite H5, Hex. do 3 f_equal. rewrite drop_drop. f_equal. lia.
  - rewrite H5b, Hbx. do 5 f_equal. rewrite drop_drop. f_equal. lia.
  - destruct H11 as [->|?]; [left|by right]. rewrite Hfi, Hto. lia.
Qed.

Lemma outcome_more st L st1 L1 st' ps' n k :
  0 ≤ n ≤ Z.of_nat (length L) → L1 = drop (Z.to_nat n) L →
  type_offset (p_req st1) = type_offset (p_req st) + n →
  target_offset (p_req st1) = target_offset (p_req st) →
  final_offset (p_req st1) = final_offset (p_req st) →
  expand (segments (p_result st1)) =
    expand (segments (p_result st)) ++ (take (Z.to_nat n) L ≫= emit) →
  bytes (p_result st1) =
    bytes (p_result st) + Z.of_nat (length (take (Z.to_nat n) L ≫= emit)) →
  segmax (p_result st1) = segmax (p_result st) → bytemax (p_result st1) = bytemax (p_result st) →
  outcome st1 L1 st' ps' 0 k → outcome st L st' ps' 0 (n + k).
Proof.
  intros Hn -> Hto Hta Hfi Hex Hbx Hsm Hbm (Hwk & Htd & Hk & Hle & H1 & H2 & [H3 H3b] & H4 & H5 & H5b & H6 & H7 & H8 & H9 & H10 & H11).
  rewrite length_drop in Hle, H11. unfold outcome. cbn zeta.
  split_and!; try done; try lia; try congruence.
  - rewrite Htd, drop_drop. f_equal. lia.
  - rewrite H5, Hex. rewrite <- app_assoc. f_equal. rewrite <- bind_app. f_equal.
    cbn [Z.to_nat]. rewrite !drop_0, take_take_drop. f_equal. lia.
  - rewrite H5b, Hbx. cbn [Z.to_nat]. rewrite !drop_0.
    replace (Z.to_nat (n + k)) with (Z.to_nat n + Z.to_nat k)%nat by lia.
    rewrite <- take_take_drop, bind_app, length_app. lia.
  - destruct H11 as [->|?]; [left|by right]. rewrite Hfi, Hto. lia.
Qed.

(** What holds of the state after a region, however much of it was done. *)
Definition after_region (st st1 : ploop) (L : list Z) (o n m : Z) : Prop :=
  let left := final_offset (p_req st) - type_offset (p_req st) in
  0 ≤ n ≤ m ∧ (∃ eof, p_req st1 = set_eof_flag (p_req st) eof) ∧ p_mode st1 = p_mode st ∧
  (∃ rf, p_rf st1 = Some rf ∧ rf_ok rf) ∧ result_ok (p_result st1) ∧
  segmax (p_result st1) = segmax (p_result st) ∧
  bytemax (p_result st1) = bytemax (p_result st) ∧
  if PINT_IS_LOGICAL_SKIP (p_mode st) then
    n = Z.min m (to_skip st) ∧ ready st1 ∧
    expand (segments (p_result st1)) = expand (segments (p_result st)) ∧
    bytes (p_result st1) = bytes (p_result st)
  else
    n ≤ left ∧ (n = Z.min m left ∨ stopped st1) ∧
    expand (segments (p_result st1)) = expand (segments (p_result st)) ++ (seqZ o n ≫= emit) ∧
    bytes (p_result st1) = bytes (p_result st) + Z.of_nat (length (seqZ o n ≫= emit)).

Definition loops (n : nat) : Prop := ∀ st ps L,
  looping st ps L →
  (cost ps + (if PINT_IS_LOGICAL_SKIP (p_mode st) then 1 else 0) ≤ n)%nat →
  ∃ st' ps' k, process_loop distribute fuel h n st = Done (0, st') ∧
    outcome st L st' ps' (Z.min (to_skip st) (Z.of_nat (length L))) k ∧ goes_on fuel ps ps'.

(** The rest of the loop after an iteration. *)
Definition continue (n : nat) (f : exec pflow) : exec (Z * ploop) :=
  f ← f; match f with
         | PBreak st => Done (0, st)
         | PReturn ret st => Done (ret, st)
         | PNext st => process_loop distribute fuel h n st
         end.

Lemma loop_partial n st p ps L st1 j :
  looping st (p :: ps) L → enters p = false → loops n →
  (cost (p :: ps) ≤ (if PINT_IS_LOGICAL_SKIP (p_mode st) then n else S n))%nat →
  let m := rsize p - rs_bytes (p_req st) in
  after_region st st1 L (rstart p + rs_bytes (p_req st)) j m → j ≠ m →
  ∃ st' ps' k, continue n (process_after h st1 m (whole_test (tb p)) j) = Done (0, st') ∧
    outcome st L st' ps' (Z.min (to_skip st) (Z.of_nat (length L))) k ∧ goes_on fuel (p :: ps) ps'.
Proof.
  intros Hlp He IH Hc m (Hj & (eof & Hreq) & Hmd & Hrf & Hok & Hsm & Hbm & Hcase) Hne.
  pose proof Hlp as (Hwk & _ & HL & Hf & Hrange & Hb & Hto & Hfi & HB & HB' & Hready & Hsk).
  destruct (todo_region _ _ _ _ _ Hwk He HL) as [Hbr HL']. fold m in HL'.
  assert (m ≤ Z.of_nat (length L)) as HmL by (rewrite HL', length_app, length_seqZ; lia).
  unfold process_after. rewrite decide_True by done.
  rewrite Hreq. cbn [type_offset set_eof_flag set_type_offset rs_bytes].
  rewrite !i64_id by lia.
  set (req1 := set_rs_bytes _ _).
  destruct (walk_partial h (p_req st) req1 p ps j Hwk He ltac:(lia) ltac:(unfold m in *; lia))
    as [Hwk1 Htd1]; [done..|]. rewrite <- HL in Htd1. cbn in Htd1.
  rewrite Hmd. unfold to_skip in *. destruct (PINT_IS_LOGICAL_SKIP (p_mode st)) eqn:Esk.
  - destruct Hcase as (Hjm & Hrd1 & Hex & Hbx). specialize (Hsk eq_refl).
    set (st2 := mkPloop req1 _ _ _ _). destruct (Hmode (p_mode st)) as (Hck & Hmok & Hclr); [apply Hready|].
    destruct (IH st2 (p :: ps) (drop (Z.to_nat j) L)) as (st' & ps' & k & Hloop & Hout & Hgo).
    + unfold looping. cbn [st2 p_req p_mode p_result p_rf req1 set_rs_bytes set_type_offset set_eof_flag
        rs_bytes type_offset target_offset final_offset]. rewrite Hclr, length_drop, Hbm.
      split_and!; try done; try lia; [by apply Forall_drop|].
      destruct Hrd1 as (? & ? & ? & ? & ?). unfold ready, st2. cbn. split_and!; done.
    + cbn [st2 p_mode]. rewrite Hclr. lia.
    + exists st', ps', k. split; [exact Hloop|]. split; [|done].
      replace (Z.min _ (Z.of_nat (length L))) with (j + 0) by lia.
      apply (outcome_skip st L st2 (drop (Z.to_nat j) L)); [lia|lia|done..|].
      unfold to_skip in Hout. cbn [st2 p_mode] in Hout. rewrite Hclr, Z.min_l in Hout by lia. exact Hout.
  - destruct Hcase as (Hjl & Hstop & Hex & Hbx).
    exists (set_req st1 req1), (p :: ps), j. split; [done|]. split; [|done]. rewrite Z.min_l by lia.
    assert (take (Z.to_nat j) L = seqZ (rstart p + rs_bytes (p_req st)) j) as Htk.
    { rewrite HL', take_app_le, take_seqZ by (rewrite ?length_seqZ; lia). done. }
    unfold outcome. cbn [set_req p_req p_result p_rf req1 set_rs_bytes set_type_offset set_eof_flag
      rs_bytes type_offset target_offset final_offset Z.to_nat Z.add].
    rewrite drop_0, Htk. split_and!; try done; try lia.
    destruct Hstop as [Hst|Hst]; [left; lia|right]. unfold stopped in Hst |- *.
    rewrite Hreq in Hst. done.
Qed.

Lemma loop_full n st p ps L st1 :
  looping st (p :: ps) L → enters p = false → loops n →
  (cost (p :: ps) + (if PINT_IS_LOGICAL_SKIP (p_mode st) then 1 else 0) ≤ S n)%nat →
  let m := rsize p - rs_bytes (p_req st) in
  after_region st st1 L (rstart p + rs_bytes (p_req st)) m m →
  ∃ st' ps' k, continue n (process_after h st1 m (whole_test (tb p)) m) = Done (0, st') ∧
    outcome st L st' ps' (Z.min (to_skip st) (Z.of_nat (length L))) k ∧ goes_on fuel (p :: ps) ps'.
Proof.
  intros Hlp He IH Hc m (Hj & (eof & Hreq) & Hmd & Hrf & Hok & Hsm & Hbm & Hcase).
  pose proof Hlp as (Hwk & _ & HL & Hf & Hrange & Hb & Hto & Hfi & HB & HB' & Hready & Hsk).
  destruct (todo_region _ _ _ _ _ Hwk He HL) as [Hbr HL']. fold m in HL'.
  set (R := rest p ++ rests ps) in *.
  assert (Z.of_nat (length L) = m + Z.of_nat (length R)) as HlenL
    by (rewrite HL', length_app, length_seqZ; lia).
  assert (drop (Z.to_nat m) L = R) as HdR by (rewrite HL', drop_app_length' by (rewrite length_seqZ; lia); done).
  assert (take (Z.to_nat m) L = seqZ (rstart p + rs_bytes (p_req st)) m) as Htk
    by (rewrite HL', take_app_length' by (rewrite length_seqZ; lia); done).
  pose proof (cost_pos h _ p ps Hwk) as Hcp.
  destruct (Hmode (p_mode st)) as (Hck & _); [apply Hready|].
  destruct (process_after_full h st1 p ps m) as (req' & ps' & -> & Hwk' & Hby' & Htd' & Hct' & Hto' & Hta' & Hfi' & Heof' & Hbt & Hsz').
  { by rewrite Hreq. } { lia. } { rewrite Hreq. cbn. lia. } { rewrite Hreq. cbn. lia. } { by rewrite Hmd. }
  rewrite Hreq in Hto', Hta', Hfi', Heof'. cbn in Hto', Hta', Hfi', Heof'.
  fold R in Htd'.
  assert (goes_on fuel (p :: ps) ps') as Hgoes by (split_and!; [unfold cost at 2; lia|auto|done]).
  specialize (Hsz' fuel Hf).
  set (st2 := set_req st1 req'). cbn [mbind exec_bind continue].
  assert (length ps' = 0%nat → R = []) as Hnil by (destruct ps'; [by rewrite <- Htd'|done]).
  destruct (decide _) as [Hbrk|Hgo].
  - exists st2, ps'. unfold to_skip in *. destruct (PINT_IS_LOGICAL_SKIP (p_mode st)) eqn:Esk.
    + destruct Hcase as (Hjm & (_ & _ & _ & Hsg1 & Hby1) & Hex & Hbx). specialize (Hsk eq_refl).
      assert (R = [] ∨ type_offset req' >= final_offset req') as Hend.
      { destruct Hbrk as [->|[?|[?|?]]]; [left; auto|lia|lia|by right]. }
      assert (Z.min (target_offset (p_req st) - type_offset (p_req st)) (Z.of_nat (length L)) = m) as ->.
      { destruct Hend as [->|?]; [cbn in HlenL|]; lia. }
      exists 0. split; [done|]. split; [|done]. unfold outcome. cbn zeta. rewrite Z.add_0_r, HdR.
      cbn [Z.to_nat take mbind list_bind st2 set_req p_req p_result p_rf]. rewrite app_nil_r.
      rewrite Hby', Hto', Hta', Hfi'. split_and!; try done; try lia; [rewrite Hbx; change (Z.to_nat 0) with 0%nat; rewrite take_0; cbn [mbind list_bind length]; lia|].
      left. destruct Hend as [->|?]; [cbn in HlenL|]; lia.
    + destruct Hcase as (Hjl & Hstop & Hex & Hbx). exists m. rewrite Z.min_l by lia. split; [done|].
      split; [|done]. unfold outcome. cbn zeta. rewrite Z.add_0_l, HdR. cbn [Z.to_nat st2 set_req p_req p_result p_rf].
      rewrite drop_0, Htk, Hby', Hto', Hta', Hfi'. split_and!; try done; try lia.
      destruct Hbrk as [->|[?|[?|?]]]; [|by right; left|by right; right; left|left; lia].
      left. rewrite (Hnil eq_refl) in HlenL. cbn in HlenL. lia.
  - assert (ps' ≠ [] ∧ bytes (p_result st1) ≠ bytemax (p_result st1) ∧
            segs (p_result st1) ≠ segmax (p_result st1) ∧ type_offset req' < final_offset req')
      as (Hps' & Hg1 & Hg2 & Hg3) by (split_and!; [tauto..|lia]).
    assert (looping st2 ps' R) as Hlp2.
    { unfold looping. cbn [st2 set_req p_req p_mode p_result p_rf]. rewrite Hmd, Hby', Hto', Hta', Hfi', Hbm, <- HdR, length_drop.
      split_and!; try done; try lia.
      - by rewrite Htd', HdR.
      - by apply Forall_drop.
      - unfold ready. cbn [p_rf p_mode p_result st2 set_req]. rewrite Hmd.
        destruct Hok as (? & ? & ? & ? & ? & ? & ? & ? & ? & ?) eqn:E.
        split_and!; try done; [apply Hready|lia|lia].
      - intros Esk. rewrite Esk in Hcase. destruct Hcase as (Hjm & _). unfold to_skip in Hjm.
        rewrite Esk in Hjm. specialize (Hsk Esk). lia. }
    destruct (IH st2 ps' R Hlp2) as (st' & qs & k & Hloop & Hout & Hgo').
    { cbn [st2 set_req p_mode]. rewrite Hmd. cbn in Hc. lia. }
    unfold to_skip in *. cbn [st2 set_req p_mode p_req] in Hout. rewrite Hmd, Hto', Hta' in Hout.
    destruct (PINT_IS_LOGICAL_SKIP (p_mode st)) eqn:Esk.
    + destruct Hcase as (Hjm & Hrd1 & Hex & Hbx). specialize (Hsk eq_refl). exists st', qs, k.
      split; [exact Hloop|]. split; [|by etrans].
      replace (Z.min _ (Z.of_nat (length L))) with
        (m + Z.min (target_offset (p_req st) - (type_offset (p_req st) + m)) (Z.of_nat (length R))) by lia.
      apply (outcome_skip st L st2 R); cbn [st2 set_req p_req p_result]; done || lia.
    + destruct Hcase as (Hjl & Hstop & Hex & Hbx). exists st', qs, (m + k). split; [exact Hloop|]. split; [|by etrans].
      rewrite Z.min_l in Hout |- * by lia.
      apply (outcome_more st L st2 R); cbn [st2 set_req p_req p_result]; try done; try lia.
      all: by rewrite Htk.
Qed.

Lemma process_loop_spec n : loops n.
Proof.
  induction n as [|n IH]; intros st ps L Hlp Hc.
  { destruct ps as [|p ps]; [by destruct Hlp as (_ & ? & _)|].
    pose proof (cost_pos h _ p ps ltac:(apply Hlp)). cbn in Hc. lia. }
  destruct ps as [|p ps]; [by destruct Hlp as (_ & ? & _)|].
  change (process_loop distribute fuel h (S n) st) with
    (continue n (process_iter distribute fuel h st)).
  destruct (enters p) eqn:He.
  - pose proof Hlp as (Hwk & _ & HL & Hf & Hrest).
    destruct (enter_level_spec h _ p ps Hwk He) as (req' & p' & Hen & Hwk' & Htd & Hcost & (H1 & H2 & H3 & H4) & Hrb & Hsz).
    unfold process_iter. rewrite (process_chunk_spec h fuel _ p ps) by (done || by apply Forall_cons in Hf as [? _]).
    rewrite He. cbn [mbind exec_bind]. rewrite Hen. cbn [mbind exec_bind continue].
    set (st1 := set_req st req').
    destruct (IH st1 (p' :: p :: ps) L) as (st' & ps' & k & Hloop & Hout & Hgo).
    + destruct Hrest as (Hr1 & Hr2 & Hr3 & Hr4 & Hr5 & Hr6 & (Hrf & Hmo & Hres) & Hr8).
      unfold looping. cbn [st1 set_req p_req p_mode p_result p_rf].
      rewrite H1, H2, H3, Hrb, <- Hrb, Htd, Hrb. split_and!; try done; try lia.
      apply Forall_cons in Hf as [Hf1 Hf2]. constructor; [lia|by constructor].
    + cbn [st1 set_req p_mode]. lia.
    + exists st', ps', k. split; [exact Hloop|]. split.
      2: { destruct Hgo as (? & Hsz' & ?). split_and!; [lia| |done]. intros Hf'. apply Hsz'.
           constructor; [|done]. apply Forall_cons in Hf' as [? _]. lia. }
      unfold to_skip in *. cbn [st1 set_req p_mode p_req] in Hout. rewrite H1, H2 in Hout.
      rewrite <- (Z.add_0_l (Z.min _ _)). apply (outcome_skip st L st1 L); cbn [st1 set_req p_req p_result];
        try done; try lia. destruct (PINT_IS_LOGICAL_SKIP (p_mode st)) eqn:Esk; [|lia].
      destruct Hrest as (_ & _ & _ & _ & _ & _ & _ & Hsk). specialize (Hsk eq_refl). lia.
  - destruct (process_iter_region st p ps L Hlp He) as (j & st1 & -> & Haft).
    destruct (decide (j = rsize p - rs_bytes (p_req st))) as [->|Hne].
    + by apply (loop_full n st p ps).
    + apply (loop_partial n st p ps); try done. destruct (PINT_IS_LOGICAL_SKIP (p_mode st)); lia.
Qed.

(** The whole function, once the request state has been set up. *)
Lemma process_request_spec alloc req0 req mem rf result mode ps L :
  process_setup h req0 mem mode = Done req →
  PINT_IS_LOGICAL_SKIP mode = false → mode_ok mode → mode_ok (PINT_SET_LOGICAL_SKIP mode) →
  PINT_IS_LOGICAL_SKIP (PINT_SET_LOGICAL_SKIP mode) = true →
  walk h req ps → ps ≠ [] → L = todo ps (rs_bytes req) →
  Forall (λ p, tree_size (tb p) ≤ fuel)%nat ps → (cost ps < fuel)%nat →
  Forall (λ b, 0 ≤ b < lim - 1) L →
  0 ≤ rs_bytes req ≤ type_offset req → type_offset req ≤ final_offset req →
  target_offset req ≤ final_offset req → final_offset req < B63 →
  type_offset req + Z.of_nat (length L) < B63 → bytemax result + Z.of_nat (length L) < B63 →
  rf_ok rf → result_ok result → segs result < segmax result → bytes result < bytemax result →
  ∃ st' ps' k,
    process_request distribute fuel h alloc req0 mem (Some rf) result mode =
      Done (0, p_req st', p_mem st', p_rf st', p_result st') ∧
    outcome (mkPloop req mem (Some rf) result mode) L st' ps'
      (Z.min (Z.max 0 (target_offset req - type_offset req)) (Z.of_nat (length L))) k ∧
    goes_on fuel ps ps'.
Proof.
  intros Hset Hsk Hmok Hmok' Hsk' Hwk Hps HL Hf Hc Hrange Hb H1 H2 H3 HB HB' Hrf Hok Hsg Hby.
  destruct (Hmode mode Hmok) as (Hck & _).
  assert (process_check result mode = true) as Hchk.
  { pose proof Hok as (oa & sa & Eo & Es & _ & _ & ? & _ & ? & _). unfold process_check.
    rewrite Eo, Es, Hck, !bool_decide_true by (lia || done). done. }
  assert (PINT_EQ_CKSIZE mode = false) as Heq.
  { unfold PINT_EQ_CKSIZE. apply bool_decide_eq_false. intros ->. done. }
  unfold process_request. rewrite Hchk, Heq. cbn [negb andb mbind exec_bind]. rewrite Hset.
  cbn [mbind exec_bind].
  set (mode' := if decide _ then _ else _).
  set (st := mkPloop req mem (Some rf) result mode').
  destruct (process_loop_spec fuel st ps L) as (st' & ps' & k & Hloop & Hout & Hgo).
  - unfold looping. cbn [st p_req p_mode p_result p_rf].
    assert (PINT_IS_LOGICAL_SKIP mode' = true → type_offset req ≤ target_offset req)
      by (unfold mode'; case_decide; [lia|congruence]).
    split_and!; try done; try lia; [|auto].
    unfold ready, st. cbn [p_rf p_mode p_result]. split_and!; [by eexists| |done..].
    unfold mode'. by destruct (decide _).
  - cbn [st p_mode]. destruct (PINT_IS_LOGICAL_SKIP mode'); lia.
  - exists st', ps', k. rewrite Hloop. split; [done|].
    assert (to_skip st = Z.max 0 (target_offset req - type_offset req)) as Hts.
    { unfold to_skip, st, mode'. cbn [p_mode p_req]. case_decide; [rewrite Hsk'|rewrite Hsk]; lia. }
    rewrite Hts in Hout. done.
Qed.
End loop.

(** * Modes *)

Lemma clr_skip_bits mode b :
  Z.land (-17) b = b → Z.land (PINT_CLR_LOGICAL_SKIP mode) b = Z.land mode b.
Proof.
  intros Hb. unfold PINT_CLR_LOGICAL_SKIP. change (Z.lnot PINT_LOGICAL_SKIP) with (-17).
  by rewrite <- Z.land_assoc, Hb.
Qed.

Lemma set_skip_bits mode b :
  Z.land 16 b = 0 → Z.land (PINT_SET_LOGICAL_SKIP mode) b = Z.land mode b.
Proof.
  intros Hb. unfold PINT_SET_LOGICAL_SKIP. change PINT_LOGICAL_SKIP with 16.
  by rewrite Z.land_lor_distr_l, Hb, Z.lor_0_r.
Qed.

Lemma clr_skip mode : PINT_IS_LOGICAL_SKIP (PINT_CLR_LOGICAL_SKIP mode) = false.
Proof.
  unfold PINT_IS_LOGICAL_SKIP, PINT_CLR_LOGICAL_SKIP.
  change (Z.lnot PINT_LOGICAL_SKIP) with (-17). rewrite <- Z.land_assoc. cbn. by rewrite Z.land_0_r.
Qed.

Lemma set_skip mode : PINT_IS_LOGICAL_SKIP (PINT_SET_LOGICAL_SKIP mode) = true.
Proof.
  unfold PINT_IS_LOGICAL_SKIP, PINT_SET_LOGICAL_SKIP. rewrite Z.land_lor_distr_l.
  apply bool_decide_eq_true. change (Z.land PINT_LOGICAL_SKIP PINT_LOGICAL_SKIP) with 16.
  intros [_ ?]%Z.lor_eq_0_iff. done.
Qed.

(** A request for memory: its bytes are output as they are. *)
Definition mem_mode (mode : Z) : Prop :=
  PINT_IS_MEMREQ mode = true ∧ PINT_IS_CKSIZE mode = false.

(** A request for file data, on the server. *)
Definition server_mode (mode : Z) : Prop :=
  PINT_IS_MEMREQ mode = false ∧ PINT_IS_CLIENT mode = false ∧ PINT_IS_CKSIZE mode = false.

Lemma mode_flags mode :
  PINT_IS_MEMREQ (PINT_CLR_LOGICAL_SKIP mode) = PINT_IS_MEMREQ mode ∧
  PINT_IS_CLIENT (PINT_CLR_LOGICAL_SKIP mode) = PINT_IS_CLIENT mode ∧
  PINT_IS_CKSIZE (PINT_CLR_LOGICAL_SKIP mode) = PINT_IS_CKSIZE mode ∧
  PINT_IS_MEMREQ (PINT_SET_LOGICAL_SKIP mode) = PINT_IS_MEMREQ mode ∧
  PINT_IS_CLIENT (PINT_SET_LOGICAL_SKIP mode) = PINT_IS_CLIENT mode ∧
  PINT_IS_CKSIZE (PINT_SET_LOGICAL_SKIP mode) = PINT_IS_CKSIZE mode.
Proof.
  unfold PINT_IS_MEMREQ, PINT_IS_CLIENT, PINT_IS_CKSIZE.
  by rewrite !clr_skip_bits, !set_skip_bits by done.
Qed.

Lemma mem_mode_clr mode : mem_mode mode →
  PINT_IS_CKSIZE mode = false ∧ mem_mode (PINT_CLR_LOGICAL_SKIP mode) ∧
  PINT_IS_LOGICAL_SKIP (PINT_CLR_LOGICAL_SKIP mode) = false.
Proof.
  intros [H1 H2]. destruct (mode_flags mode) as (E1 & _ & E2 & _).
  split_and!; [done| |apply clr_skip]. unfold mem_mode. by rewrite E1, E2.
Qed.

Lemma bind_single (l : list Z) : l ≫= (λ b, [b]) = l.
Proof. induction l as [|x l IH]; [done|]. cbn. by f_equal. Qed.

(** The limits that apply to a memory region. *)
Lemma mem_region distribute st o sz :
  ready (λ _, True) mem_mode st → PINT_IS_LOGICAL_SKIP (p_mode st) = false → 0 ≤ sz →
  (0 < sz → 0 ≤ o ∧ o + sz < B63) → 0 ≤ type_offset (p_req st) ≤ final_offset (p_req st) →
  final_offset (p_req st) < B63 → type_offset (p_req st) + sz < B63 →
  bytemax (p_result st) + sz < B63 →
  let cut := Z.min sz (final_offset (p_req st) - type_offset (p_req st)) in
  ∃ n st', process_region distribute st o sz = Done (Some n, st') ∧ 0 ≤ n ≤ cut ∧
    (∃ eof, p_req st' = set_eof_flag (p_req st) eof) ∧ p_mode st' = p_mode st ∧
    (∃ rf, p_rf st' = Some rf ∧ True) ∧ result_ok (p_result st') ∧
    segmax (p_result st') = segmax (p_result st) ∧ bytemax (p_result st') = bytemax (p_result st) ∧
    expand (segments (p_result st')) =
      expand (segments (p_result st)) ++ (seqZ o n ≫= λ b, [b]) ∧
    bytes (p_result st') = bytes (p_result st) + Z.of_nat (length (seqZ o n ≫= λ b, [b])) ∧
    (n = cut ∨ stopped False st').
Proof.
  intros (Hrf & [Hm Hck] & Hok & Hsg & Hby) Hskip Hsz Ho Hto Hfi HB1 HB2 cut.
  pose proof Hok as (_ & _ & _ & _ & _ & _ & _ & _ & Hb0 & _).
  unfold process_region. rewrite Hskip, Hm. cbn [mbind exec_bind].
  rewrite (i64_id (type_offset (p_req st) + sz)), (i64_id (final_offset _ - _)) by lia.
  set (sz1 := if decide (_ > final_offset _) then _ else sz).
  assert (sz1 = cut) as -> by (unfold sz1, cut; case_decide; lia).
  rewrite (i64_id (bytes _ + cut)), (i64_id (bytemax _ - _)) by lia.
  set (n := if decide (_ >= bytemax _) then _ else cut).
  assert (n = Z.min cut (bytemax (p_result st) - bytes (p_result st))) as Hn
    by (unfold n; case_decide; lia). clearbody n.
  assert (0 ≤ n ≤ cut) as Hn0 by lia.
  destruct (decide (n = 0)) as [->|Hpos].
  - unfold PINT_ADD_SEGMENT. rewrite decide_False by lia. cbn [mbind exec_bind].
    do 2 eexists. split; [done|]. rewrite seqZ_nil by lia. cbn [mbind list_bind length p_req p_result].
    rewrite app_nil_r. split_and!; try done; try lia.
    exists (eof_flag (p_req st)). by destruct (p_req st).
  - destruct (add_segment_spec (p_result st) o n (p_mode st)) as (r' & -> & Hok' & Hex & Hb' & Hbm' & Hsm' & _);
      try done; try lia. cbn [mbind exec_bind].
    do 2 eexists. split; [done|]. cbn [p_req p_mode p_rf p_result].
    split_and!; try done; try lia.
    + exists (eof_flag (p_req st)). by destruct (p_req st).
    + by rewrite Hex, bind_single.
    + rewrite bind_single, length_seqZ. lia.
    + destruct (decide (n = cut)); [by left|right; left]. cbn. lia.
Qed.

(** * Server requests *)

Section server_region.
Context {params : Type} (m : PINT_dist_methods params) (p : params) (fd : file_data).
Context (owned : Z → bool) (lim : Z) (laws : ∀ n, DistLaws m p (set_fsize fd n) owned lim).

(** A byte that the server stores is output as its physical offset. *)
Definition physical (b : Z) : list Z := if owned b then [rank owned b] else [].

Lemma physical_seq l : l ≫= physical = map (rank owned) (filter (λ b, owned b = true) l).
Proof.
  induction l as [|b l IH]; [done|]. cbn [mbind list_bind]. rewrite IH. unfold physical.
  destruct (owned b) eqn:Eb.
  - by rewrite filter_cons_True.
  - by rewrite filter_cons_False by congruence.
Qed.

(** The file data: the file may have grown. *)
Definition file_of (rf : PINT_request_file_data) : Prop :=
  ∃ n, 0 ≤ n < B63 ∧ rf = mkRfdata (set_fsize fd n) (Some (mkDist params (Some p) (Some m))).

Lemma server_region process_mem st o sz :
  ready file_of server_mode st → PINT_IS_LOGICAL_SKIP (p_mode st) = false → 0 ≤ sz →
  (0 < sz → 0 ≤ o ∧ o + sz < lim) → 0 ≤ type_offset (p_req st) ≤ final_offset (p_req st) →
  final_offset (p_req st) < B63 → type_offset (p_req st) + sz < B63 →
  bytemax (p_result st) + sz < B63 →
  let cut := Z.min sz (final_offset (p_req st) - type_offset (p_req st)) in
  ∃ n st', process_region (PINT_distribute process_mem) st o sz = Done (Some n, st') ∧
    0 ≤ n ≤ cut ∧
    (∃ eof, p_req st' = set_eof_flag (p_req st) eof) ∧ p_mode st' = p_mode st ∧
    (∃ rf, p_rf st' = Some rf ∧ file_of rf) ∧ result_ok (p_result st') ∧
    segmax (p_result st') = segmax (p_result st) ∧ bytemax (p_result st') = bytemax (p_result st) ∧
    expand (segments (p_result st')) =
      expand (segments (p_result st)) ++ (seqZ o n ≫= physical) ∧
    bytes (p_result st') = bytes (p_result st) + Z.of_nat (length (seqZ o n ≫= physical)) ∧
    (n = cut ∨ stopped True st').
Proof.
  intros ((rf & Hrf & (fs & Hfs & ->)) & (Hm & Hcl & Hck) & Hok & Hsg & Hby) Hskip Hsz Ho Hto Hfi HB1 HB2 cut.
  unfold process_region. rewrite Hskip, Hm.
  rewrite (i64_id (type_offset (p_req st) + sz)), (i64_id (final_offset _ - _)) by lia.
  set (sz1 := if decide (_ > final_offset _) then _ else sz).
  assert (sz1 = cut) as -> by (unfold sz1, cut; case_decide; lia).
  unfold PINT_distribute. rewrite Hck. cbn [negb andb].
  rewrite (bool_decide_false (segs _ >= _)), (bool_decide_false (bytes _ >= _)) by lia. cbn [orb].
  case_bool_decide as Hz.
  { cbn [mbind exec_bind]. rewrite decide_False by lia. do 2 eexists. split; [done|].
    rewrite seqZ_nil by lia. cbn [mbind list_bind length p_req p_rf p_result].
    rewrite app_nil_r. split_and!; try done; try lia; [by eexists|].
    rewrite Hrf. eexists. split; [done|]. by exists fs. }
  rewrite Hrf. specialize (Ho ltac:(lia)).
  assert (∀ n, DistLaws m p (set_fsize (set_fsize fd fs) n) owned lim) as L by (intros n; apply laws).
  pose proof (dl_lim (DistLaws := laws 0)).
  destruct (distribute_run_spec process_mem m p (set_fsize fd fs) owned lim L (p_mode st) Hcl Hck o cut
              (p_mem st) (p_result st)) as (ret & r' & eof & -> & Hret & (Hok' & Hbm' & Hsm') & Hout & Hb' & _ & Heof & Hstop);
    try done; try lia.
  cbn [mbind exec_bind]. rewrite decide_False by lia. do 2 eexists. split; [done|].
  cbn [p_req p_mode p_rf p_result]. split_and!; try done; try lia; [by eexists| | | |].
  - eexists. split; [done|]. exists (fsize_at (set_fsize fd fs) owned o (o + ret)). split; [|done].
    unfold fsize_at. cbn [extend_flag fsize set_fsize].
    pose proof (rank_le owned (o + ret)). pose proof (rank_nonneg owned (o + ret)).
    destruct (_ && _); lia.
  - by rewrite Hout, physical_seq.
  - rewrite Hb', physical_seq, map_rank_owned, length_seqZ by lia.
    pose proof (rank_mono owned o (o + ret)). lia.
  - unfold stopped. cbn. rewrite Hbm', Hsm'. tauto.
Qed.
End server_region.

Lemma mem_mode_set mode : mem_mode mode → mem_mode (PINT_SET_LOGICAL_SKIP mode).
Proof.
  intros [H1 H2]. destruct (mode_flags mode) as (_ & _ & _ & E1 & _ & E2).
  unfold mem_mode. by rewrite E1, E2.
Qed.

Lemma server_mode_clr mode : server_mode mode →
  PINT_IS_CKSIZE mode = false ∧ server_mode (PINT_CLR_LOGICAL_SKIP mode) ∧
  PINT_IS_LOGICAL_SKIP (PINT_CLR_LOGICAL_SKIP mode) = false.
Proof.
  intros (H1 & H2 & H3). destruct (mode_flags mode) as (E1 & E2 & E3 & _).
  split_and!; [done| |apply clr_skip]. unfold server_mode. by rewrite E1, E2, E3.
Qed.

Lemma server_mode_set mode : server_mode mode → server_mode (PINT_SET_LOGICAL_SKIP mode).
Proof.
  intros (H1 & H2 & H3). destruct (mode_flags mode) as (_ & _ & _ & E1 & E2 & E3).
  unfold server_mode. by rewrite E1, E2, E3.
Qed.

(** Setting up a memory request that is under way does nothing. *)
Lemma mem_setup h req mode :
  mem_mode mode → 0 ≤ lvl req → process_setup h req None mode = Done req.
Proof.
  intros [Hm _] Hl. unfold process_setup. rewrite decide_False by lia.
  cbn [mbind exec_bind]. by rewrite Hm.
Qed.
