(* ===== verification/RequestBuild.v ===== *)
(** src/src/io/description/pvfs-request.c: the constructors of requests, the
    counterpart of MPI datatypes, and that what they build is well formed. *)

From stdpp Require Import list numbers gmap.
From S2P Require Import Prelude Dist Request RequestTree.

Definition PVFS_SUCCESS : Z := 0.
Definition PVFS_ERR_REQ : Z := -1.

(** * Elementary requests *)

Definition elementary (size : Z) : PINT_Request :=
  mkRequest 0 1 0 1 size 0 size 1 1 0 0 (-1) None None.

Definition PINT_CHAR : PINT_Request := elementary 1.
Definition PINT_SHORT : PINT_Request := elementary 2.
Definition PINT_INT : PINT_Request := elementary 4.
Definition PINT_LONG : PINT_Request := elementary 4.
Definition PINT_DOUBLE : PINT_Request := elementary 8.
Definition PINT_BYTE : PINT_Request := elementary 1.
Definition PINT_NULL : PINT_Request := mkRequest 0 0 0 0 0 0 0 0 1 0 0 (-1) None None.

(** * Heap updates *)

Definition set_refcount (r : PINT_Request) (n : Z) : PINT_Request :=
  mkRequest (offset r) (num_ereqs r) (num_blocks r) (stride r) (ub r) (lb r) (aggregate_size r)
    (num_contig_chunks r) (depth r) (num_nested_req r) (committed r) n (ereq r) (sreq r).
Definition set_bounds (r : PINT_Request) (l u : Z) : PINT_Request :=
  mkRequest (offset r) (num_ereqs r) (num_blocks r) (stride r) u l (aggregate_size r)
    (num_contig_chunks r) (depth r) (num_nested_req r) (committed r) (refcount r) (ereq r) (sreq r).

Definition update (h : req_heap) (p : ptr) (f : PINT_Request → PINT_Request) : exec req_heap :=
  match p with
  | Some a => match h !! a with Some r => Done (<[a := f r]> h) | None => Fault BadAccess end
  | None => Fault BadAccess
  end.

Definition PINT_REQUEST_REFSET (h : req_heap) (p : ptr) : exec req_heap :=
  update h p (λ r, if bool_decide (refcount r >= 0) then set_refcount r 1 else r).
Definition PINT_REQUEST_REFINC (h : req_heap) (p : ptr) : exec req_heap :=
  update h p (λ r, if bool_decide (refcount r >= 0) then set_refcount r (i32 (refcount r + 1)) else r).

(** * Queries *)

Definition PVFS_Request_extent (h : req_heap) (request : ptr) : exec (Z * Z) :=
  match request with
  | None => Done (PVFS_ERR_REQ, 0)
  | Some _ => r ← deref h request; Done (PVFS_SUCCESS, ub r -ₗ lb r)
  end.

Definition PVFS_Request_size (h : req_heap) (request : ptr) : exec (Z * Z) :=
  match request with
  | None => Done (PVFS_ERR_REQ, 0)
  | Some _ => r ← deref h request; Done (PVFS_SUCCESS, aggregate_size r)
  end.

Definition PVFS_Request_lb (h : req_heap) (request : ptr) : exec (Z * Z) :=
  match request with
  | None => Done (PVFS_ERR_REQ, 0)
  | Some _ => r ← deref h request; Done (PVFS_SUCCESS, lb r)
  end.

Definition PVFS_Request_ub (h : req_heap) (request : ptr) : exec (Z * Z) :=
  match request with
  | None => Done (PVFS_ERR_REQ, 0)
  | Some _ => r ← deref h request; Done (PVFS_SUCCESS, ub r)
  end.

(** * Constructors

    [a] is the address of a new struct; [malloc] is not checked in the source,
    and a list of addresses that is too short stands for its failure. *)

(** [PINT_subreq] fills in the struct at [a], whose [sreq] is set already. *)
Definition PINT_subreq (h : req_heap) (a : positive) (offset bsize stride count : Z)
    (oldreq : ptr) (oldext : Z) (sreq : ptr) : exec (Z * req_heap) :=
  match oldreq with
  | None => Done (PVFS_ERR_REQ, h)
  | Some _ =>
      old ← deref h oldreq;
      let chunks :=
        if bool_decide (aggregate_size old = oldext) && bool_decide (num_contig_chunks old = 1) then
          (* oldreq is contiguous *)
          if bool_decide (count = 1) || bool_decide (stride = bsize *ₗ oldext) ||
             bool_decide (i64 (- stride) = bsize *ₗ oldext)
          then 1 else count
        else (* nothing is contiguous *)
          i32 (i32 (num_contig_chunks old * bsize) * count) in
      let new := mkRequest offset bsize count stride
        (offset +ₗ i32 (count - 1) *ₗ stride +ₗ bsize *ₗ oldext) offset
        (aggregate_size old *ₗ count *ₗ bsize) chunks (i32 (depth old + 1))
        (i32 (num_nested_req old + 1)) 0 0 oldreq sreq in
      h ← PINT_REQUEST_REFINC (<[a := new]> h) oldreq;
      Done (PVFS_SUCCESS, h)
  end.

(** The return value, the new request and the heap. *)
Definition PVFS_Request_hvector (addrs : list positive) (h : req_heap) (count blocklength stride : Z)
    (oldreq : ptr) : exec (Z * ptr * req_heap) :=
  match oldreq with
  | None => Done (PVFS_ERR_REQ, None, h)
  | Some _ =>
      '(_, oldext) ← PVFS_Request_extent h oldreq;
      match addrs with
      | [] => Fault BadAccess
      | a :: _ =>
          '(_, h) ← PINT_subreq h a 0 blocklength stride count oldreq oldext None;
          (* calculate statistics like ub, lb, depth, etc. *)
          h ← (if decide (stride < 0)
               then update h (Some a) (λ r, set_bounds r (i32 (count - 1) *ₗ stride) (ub r))
               else Done h);
          h ← PINT_REQUEST_REFSET h (Some a);
          Done (PVFS_SUCCESS, Some a, h)
      end
  end.

Definition PVFS_Request_contiguous (addrs : list positive) (h : req_heap) (count : Z)
    (oldreq : ptr) : exec (Z * ptr * req_heap) :=
  PVFS_Request_hvector addrs h 1 count 0 oldreq.

Definition PVFS_Request_vector (addrs : list positive) (h : req_heap) (count blocklength stride : Z)
    (oldreq : ptr) : exec (Z * ptr * req_heap) :=
  match oldreq with
  | None => Done (PVFS_ERR_REQ, None, h)
  | Some _ =>
      '(_, extent) ← PVFS_Request_extent h oldreq;
      PVFS_Request_hvector addrs h count blocklength (stride *ₗ extent) oldreq
  end.

(** [PINT_reqstats] combines the statistics of the struct with those of the
    rest of its chain. *)
Definition PINT_reqstats (h : req_heap) (newreq : ptr) : exec req_heap :=
  n ← deref h newreq;
  match sreq n with
  | None => Done h
  | Some _ =>
      s ← deref h (sreq n);
      nested ←
        (let nested := i32 (num_nested_req n + (num_nested_req s + 1)) in
         (* this tries to deal with non-tree request graphs *)
         if decide (ereq n = ereq s) then
           e ← deref h (ereq n); Done (i32 (nested - (num_nested_req e + 1)))
         else Done nested);
      update h newreq (λ _, mkRequest (offset n) (num_ereqs n) (num_blocks n) (stride n)
        (if decide (ub n < ub s) then ub s else ub n) (if decide (lb n > lb s) then lb s else lb n)
        (aggregate_size n +ₗ aggregate_size s)
        (i32 (num_contig_chunks n + num_contig_chunks s))
        (if decide (depth n < depth s) then depth s else depth n)
        nested (committed n) (refcount n) (ereq n) (sreq n))
  end.

(** One round of the loops below: a block at [disp] goes in front of the chain. *)
Definition chain_block (a : positive) (h : req_heap) (disp blocklength : Z) (oldreq : ptr)
    (oldext : Z) (newreq : ptr) : exec req_heap :=
  '(_, h) ← PINT_subreq h a disp blocklength 0 1 oldreq oldext newreq;
  PINT_reqstats h (Some a).

(** The loop [while (count--)]: the blocks from the last to the first. *)
Fixpoint hindexed_loop (addrs : list positive) (h : req_heap) (blocks : list (Z * Z))
    (oldreq : ptr) (oldext : Z) (newreq : ptr) : exec (ptr * req_heap) :=
  match blocks with
  | [] => Done (newreq, h)
  | (blocklength, disp) :: blocks' =>
      match addrs with
      | [] => Fault BadAccess
      | a :: addrs' =>
          h ← chain_block a h disp blocklength oldreq oldext newreq;
          hindexed_loop addrs' h blocks' oldreq oldext (Some a)
      end
  end.

(** [blocks] are the pairs of block length and displacement, in the order of
    the arrays. *)
Definition PVFS_Request_hindexed (addrs : list positive) (h : req_heap) (blocks : list (Z * Z))
    (oldreq : ptr) : exec (Z * ptr * req_heap) :=
  match oldreq with
  | None => Done (PVFS_ERR_REQ, None, h)
  | Some _ =>
      '(_, oldext) ← PVFS_Request_extent h oldreq;
      '(newreq, h) ← hindexed_loop addrs h (reverse blocks) oldreq oldext None;
      h ← PINT_REQUEST_REFSET h newreq;
      Done (PVFS_SUCCESS, newreq, h)
  end.

Definition PVFS_Request_indexed (addrs : list positive) (h : req_heap) (blocks : list (Z * Z))
    (oldreq : ptr) : exec (Z * ptr * req_heap) :=
  match oldreq with
  | None => Done (PVFS_ERR_REQ, None, h)
  | Some _ =>
      '(_, oldext) ← PVFS_Request_extent h oldreq;
      '(newreq, h) ← hindexed_loop addrs h
        (reverse ((λ '(l, d), (l, d *ₗ oldext)) <$> blocks)) oldreq oldext None;
      h ← PINT_REQUEST_REFSET h newreq;
      Done (PVFS_SUCCESS, newreq, h)
  end.

Fixpoint struct_loop (addrs : list positive) (h : req_heap) (blocks : list (Z * Z * ptr))
    (newreq : ptr) : exec (Z * ptr * req_heap) :=
  match blocks with
  | [] => h ← PINT_REQUEST_REFSET h newreq; Done (PVFS_SUCCESS, newreq, h)
  | (blocklength, disp, oldreq) :: blocks' =>
      match oldreq with
      | None => Done (PVFS_ERR_REQ, newreq, h)
      | Some _ =>
          '(_, oldext) ← PVFS_Request_extent h oldreq;
          match addrs with
          | [] => Fault BadAccess
          | a :: addrs' =>
              h ← chain_block a h disp blocklength oldreq oldext newreq;
              struct_loop addrs' h blocks' (Some a)
          end
      end
  end.

Definition PVFS_Request_struct (addrs : list positive) (h : req_heap)
    (blocks : list (Z * Z * ptr)) : exec (Z * ptr * req_heap) :=
  struct_loop addrs h (reverse blocks) None.

Definition PVFS_Request_resized (addrs : list positive) (h : req_heap) (oldreq : ptr)
    (lb extent : Z) : exec (Z * ptr * req_heap) :=
  match oldreq with
  | None => Done (PVFS_ERR_REQ, None, h)
  | Some _ =>
      old ← deref h oldreq;
      (* existing resize record or useless vector - bypass it *)
      let base :=
        if bool_decide (ereq old ≠ None) && bool_decide (sreq old = None) &&
           bool_decide (offset old = 0) && bool_decide (num_ereqs old = 1) &&
           bool_decide (num_blocks old = 1) && bool_decide (stride old = 0)
        then ereq old else oldreq in
      '(retval, newreq, h) ← PVFS_Request_hvector addrs h 1 1 0 base;
      h ← update h newreq (λ r, set_bounds r lb (lb +ₗ extent));
      Done (retval, newreq, h)
  end.

(** * What the constructors build *)

(** Requests whose blocks do not overlap and do not go backwards: the size is
    at most the extent, and the bytes are consecutive if they are equal. *)
Definition good (t : rtree) : Prop :=
  t ≠ RNull ∧ wf t ∧ sized t ∧ 0 ≤ tree_agg t ≤ tree_ext t ∧
  (tree_agg t = tree_ext t → contig t) ∧ (whole_test t = true → tree_agg t = tree_ext t).

Lemma good_sound t : good t → sound t.
Proof.
  intros (_ & _ & _ & _ & Hc & Hw). split; [|auto].
  intros [Ha _]%andb_prop. apply bool_decide_eq_true in Ha. auto.
Qed.

Lemma elementary_good a n : 0 ≤ n < B63 → good (RReq a (strip (elementary n)) RNull RNull).
Proof.
  intros Hn. split_and!; [done|cbn; split_and!; done || lia| |cbn; lia|cbn; lia| |cbn; lia].
  { intros o. cbn. rewrite app_nil_r, length_seqZ. lia. }
  intros _. apply elementary_contig; cbn; lia.
Qed.

(** A tree whose elements are runs of the length of its extent is contiguous. *)
Lemma contig_runs t d :
  tree_agg t = tree_ext t → 0 ≤ tree_agg t → d = tree_disp t →
  (∀ o, elem t o = seqZ (o + d) (tree_agg t)) → contig t.
Proof.
  intros Ha Hp -> He k o Hk. unfold elems. rewrite <- bind_seqZ_runs by done.
  apply bind_ext. intros i _. rewrite He, <- Ha. f_equal. lia.
Qed.

(** A vector. *)
Lemma vector_good a r t :
  good t → 1 ≤ num_blocks r < B31 → 1 ≤ num_ereqs r < B31 →
  num_ereqs r * tree_ext t ≤ stride r ∨ (num_blocks r = 1 ∧ 0 ≤ stride r) →
  lb r = offset r →
  ub r = offset r + (num_blocks r - 1) * stride r + num_ereqs r * tree_ext t →
  ub r - lb r < B63 → aggregate_size r = tree_agg t * num_blocks r * num_ereqs r →
  depth r = tree_depth t + 1 → tree_depth t < B31 - 1 →
  good (RReq a r t RNull) ∧
  ∀ o, elem (RReq a r t RNull) o =
    b ← seqZ 0 (num_blocks r); elems t (num_ereqs r) (o + offset r + stride r * b).
Proof.
  intros Hg Hnb Hne Hst Hlb Hub Hub63 Hag Hd Hd31.
  pose proof (good_sound t Hg) as Hs. destruct Hg as (Hn & Hwf & Hsz & Hae & Hcont & _).
  assert (∀ o, elem (RReq a r t RNull) o =
    b ← seqZ 0 (num_blocks r); elems t (num_ereqs r) (o + offset r + stride r * b)) as Helem.
  { intros o. rewrite elem_blocks by done. cbn [elem]. by rewrite app_nil_r. }
  assert (1 ≤ tree_depth t) as Hd1 by (destruct t; [done|]; destruct Hwf as (_ & ? & _); cbn; lia).
  assert (0 ≤ (num_blocks r - 1) * (stride r - num_ereqs r * tree_ext t)) as Hgap.
  { destruct Hst as [?|[-> _]]; nia. }
  assert (tree_ext (RReq a r t RNull) = aggregate_size r +
    num_blocks r * num_ereqs r * (tree_ext t - tree_agg t) +
    (num_blocks r - 1) * (stride r - num_ereqs r * tree_ext t)) as Hext.
  { cbn [tree_ext]. rewrite Hub, Hlb, Hag. ring. }
  assert (0 ≤ num_blocks r * num_ereqs r * (tree_ext t - tree_agg t)) as Hgap2
    by (repeat apply Z.mul_nonneg_nonneg; lia).
  assert (0 ≤ aggregate_size r) as Hag0
    by (rewrite Hag; repeat apply Z.mul_nonneg_nonneg; lia).
  split; [|done]. split_and!; [done| | |done|cbn [tree_agg]; lia| |].
  - cbn [wf]. cbn [tree_ext] in Hext. destruct t as [|a' r' e' q']; [done|].
    split_and!; try done; try lia. cbn [tree_depth]. lia.
  - intros o. rewrite Helem, (length_bind _ _ (Z.to_nat (num_ereqs r * tree_agg t))).
    + rewrite length_seqZ. cbn [tree_agg]. rewrite Hag. nia.
    + intros b _. pose proof (length_elems t (num_ereqs r) (o + offset r + stride r * b) Hsz). lia.
  - cbn [tree_agg]. rewrite Hext. intros Heq.
    assert (num_blocks r * num_ereqs r * (tree_ext t - tree_agg t) = 0) as Hz1 by lia.
    assert ((num_blocks r - 1) * (stride r - num_ereqs r * tree_ext t) = 0) as Hz2 by lia.
    assert (tree_ext t = tree_agg t) as Het.
    { apply Z.mul_eq_0 in Hz1 as [[?|?]%Z.mul_eq_0|?]; lia. }
    assert (num_blocks r = 1 ∨ stride r = num_ereqs r * tree_agg t) as Hcase.
    { rewrite Het in Hz2. apply Z.mul_eq_0 in Hz2 as [?|?]; lia. }
    specialize (Hcont (eq_sym Het)).
    apply (contig_runs _ (offset r + tree_disp t)); [cbn [tree_agg]; lia|done|done|].
    intros o. rewrite Helem. cbn [tree_agg]. rewrite Hag.
    replace (tree_agg t * num_blocks r * num_ereqs r) with (num_blocks r * (num_ereqs r * tree_agg t)) by ring.
    rewrite <- bind_seqZ_runs by nia. apply bind_ext. intros b Hb%elem_of_seqZ.
    rewrite Hcont by lia. f_equal. destruct Hcase as [H1| ->]; [|ring].
    assert (b = 0) as -> by lia. lia.
  - cbn [whole_test]. destruct t; [done|]. intros [Ha _]%andb_prop. by apply bool_decide_eq_true in Ha.
Qed.

(** A block in front of a chain. *)
Lemma chain_good a r t u :
  good t → good u → compound u → num_blocks r = 1 → 1 ≤ num_ereqs r < B31 →
  (∃ a' r' e' q', u = RReq a' r' e' q' ∧ offset r + num_ereqs r * tree_ext t ≤ lb r' ∧
     tree_disp u = lb r' + tree_disp t ∧ lb r = offset r ∧ ub r = ub r') →
  - B63 ≤ ub r - lb r < B63 → aggregate_size r = tree_agg t * num_ereqs r + tree_agg u →
  depth r = Z.max (tree_depth t + 1) (tree_depth u) → tree_depth t < B31 - 1 →
  good (RReq a r t u) ∧
  ∀ o, elem (RReq a r t u) o = elems t (num_ereqs r) (o + offset r) ++ elem u o.
Proof.
  intros Ht Hu Hcu Hnb Hne (a' & r' & e' & q' & Hequ & Hgap & Hdisp & Hlb & Hub) Hfit Hag Hd Hd31.
  pose proof (good_sound t Ht) as Hs.
  destruct Ht as (Hn & Hwf & Hsz & Hae & Hcont & _).
  destruct Hu as (_ & Hwfu & Hszu & Haeu & Hcontu & _).
  assert (tree_ext u = ub r' - lb r') as Heu by (by rewrite Hequ).
  assert (1 ≤ tree_depth t) as Hd1 by (destruct t; [done|]; destruct Hwf as (_ & ? & _); cbn; lia).
  assert (tree_depth u < B31) as Hdu by (rewrite Hequ; rewrite Hequ in Hwfu; destruct Hwfu as (_ & ? & _); cbn; lia).
  assert (∀ o, elem (RReq a r t u) o = elems t (num_ereqs r) (o + offset r) ++ elem u o) as Helem.
  { intros o. rewrite elem_blocks by done. rewrite Hnb. cbn [seqZ mbind list_bind].
    change (seqZ 0 1) with [0]. cbn [mbind list_bind]. rewrite app_nil_r. unfold block.
    by rewrite Z.mul_0_r, Z.add_0_r. }
  split; [|done]. split_and!; [done| | |cbn; nia|cbn; nia| |].
  - cbn [wf]. destruct t as [|at' rt et qt]; [done|]. split_and!; try done; try lia; nia.
  - intros o. rewrite Helem, length_app. cbn [tree_agg]. rewrite Hag.
    pose proof (length_elems t (num_ereqs r) (o + offset r) Hsz). pose proof (Hszu o). lia.
  - cbn [tree_agg tree_ext]. rewrite Hub, Hlb, Hag. intros Heq.
    assert (num_ereqs r * (tree_ext t - tree_agg t) = 0 ∧ tree_agg u = tree_ext u ∧
      lb r' = offset r + num_ereqs r * tree_ext t) as (H1 & H2 & H3) by nia.
    assert (tree_agg t = tree_ext t) as H4 by nia.
    apply (contig_runs _ (offset r + tree_disp t)); [cbn [tree_agg tree_ext]; lia|cbn; nia|done|].
    intros o. rewrite Helem. cbn [tree_agg]. rewrite (Hcont H4) by lia.
    rewrite <- elems_1, (Hcontu H2), Hdisp, Hag by lia.
    rewrite seqZ_app by nia. f_equal; [f_equal; lia|]. f_equal; lia.
  - cbn [whole_test]. destruct t; [done|]. intros [Ha _]%andb_prop. by apply bool_decide_eq_true in Ha.
Qed.

(** * Trees in the heap *)

(** Every struct of [h] is in [h'] with the same contents, up to reference counts. *)
Definition keeps (h h' : req_heap) : Prop :=
  ∀ a r, h !! a = Some r → ∃ r', h' !! a = Some r' ∧ strip r' = strip r.

#[export] Instance keeps_preorder : PreOrder keeps.
Proof.
  split; [intros h a r Ha; eauto|]. intros ? ? ? H1 H2 a r Ha.
  destruct (H1 a r Ha) as (r1 & Ha1 & <-). eauto.
Qed.

Lemma keeps_repr h h' p t : keeps h h' → repr h p t → repr h' p t.
Proof.
  intros Hk. revert p. induction t as [|b r e IHe q IHq]; intros p; [done|]. cbn.
  intros (-> & (x & Hx & ->) & He & Hq). split_and!; eauto.
  destruct (Hk b x Hx) as (x' & Hx' & Hs). eauto.
Qed.

Lemma keeps_fresh h h' a r : h !! a = None → keeps h h' → keeps h (<[a := r]> h').
Proof. intros Ha Hk b x Hb. rewrite lookup_insert_ne by congruence. auto. Qed.

Lemma keeps_strip h a r r' : h !! a = Some r → strip r' = strip r → keeps h (<[a := r']> h).
Proof.
  intros Ha Hs b x Hb. destruct (decide (a = b)) as [->|].
  - exists r'. rewrite lookup_insert_eq. split; [done|]. congruence.
  - exists x. by rewrite lookup_insert_ne.
Qed.

Lemma update_refcount h p a r e q (c : PINT_Request → bool) (f : PINT_Request → Z) :
  repr h p (RReq a r e q) →
  ∃ h', update h p (λ r, if c r then set_refcount r (f r) else r) = Done h' ∧ keeps h h' ∧
    (∀ b, b ≠ a → h' !! b = h !! b) ∧ dom h' = dom h ∧
    ∃ x, h' !! a = Some x ∧ r = strip x.
Proof.
  intros (-> & (x & Hx & ->) & _). unfold update. rewrite Hx. eexists. split; [done|].
  split_and!.
  - eapply keeps_strip; [done|]. by destruct (c x).
  - intros b Hb. by rewrite lookup_insert_ne.
  - apply dom_insert_lookup_L. eauto.
  - eexists. rewrite lookup_insert_eq. split; [done|]. by destruct (c x).
Qed.

(** The struct that [PINT_subreq] fills in. *)
Lemma subreq_spec h a off bs st cnt p t oldext sq :
  h !! a = None → repr h p t → t ≠ RNull →
  ∃ r h', PINT_subreq h a off bs st cnt p oldext sq = Done (PVFS_SUCCESS, h') ∧
    keeps h h' ∧ h' !! a = Some r ∧ dom h' = {[a]} ∪ dom h ∧
    offset r = off ∧ num_ereqs r = bs ∧ num_blocks r = cnt ∧ stride r = st ∧
    ub r = off +ₗ i32 (cnt - 1) *ₗ st +ₗ bs *ₗ oldext ∧ lb r = off ∧
    aggregate_size r = tree_agg t *ₗ cnt *ₗ bs ∧ depth r = i32 (tree_depth t + 1) ∧
    ereq r = p ∧ sreq r = sq.
Proof.
  intros Ha Hr Ht. destruct t as [|b x e q]; [done|].
  pose proof Hr as (-> & (y & Hy & ->) & _). unfold PINT_subreq, deref. rewrite Hy.
  cbn [mbind exec_bind]. set (new := mkRequest _ _ _ _ _ _ _ _ _ _ _ _ _ _).
  pose proof (keeps_repr _ _ _ _ (keeps_fresh h h a new Ha ltac:(reflexivity)) Hr) as Hr'.
  destruct (update_refcount _ _ _ _ _ _ (λ r, bool_decide (refcount r >= 0))
    (λ r, i32 (refcount r + 1)) Hr') as (h' & Hup & Hk & Hsame & Hdom & _).
  exists new, h'. unfold PINT_REQUEST_REFINC.
  rewrite Hup. split; [done|]. split.
  { etrans; [by apply (keeps_fresh h h)|exact Hk]. }
  split. { rewrite Hsame by congruence. apply lookup_insert_eq. }
  split; [|done]. rewrite Hdom. apply dom_insert_L.
Qed.

Lemma vector_size c b e g s :
  0 ≤ g ≤ e → 1 ≤ c → 1 ≤ b → b * e ≤ s ∨ (c = 1 ∧ 0 ≤ s) →
  0 ≤ s ∧ 0 ≤ (c - 1) * s ∧ 0 ≤ b * e ∧ 0 ≤ g * c ≤ g * c * b ∧ g * c * b ≤ (c - 1) * s + b * e.
Proof.
  intros Hg Hc Hb Hs. assert (0 ≤ b * e) by nia. assert (0 ≤ s) by lia.
  assert (0 ≤ (c - 1) * s) by nia. assert (0 ≤ g * c) by nia. assert (g * c ≤ g * c * b) by nia.
  assert (g * (c * b) ≤ e * (c * b)) by (apply Z.mul_le_mono_nonneg_r; nia).
  assert ((c - 1) * (b * e) ≤ (c - 1) * s).
  { destruct Hs as [?|[-> _]]; [apply Z.mul_le_mono_nonneg_l; lia|lia]. }
  split_and!; lia.
Qed.

(** A vector request means its blocks: [PVFS_Request_hvector] on a good
    request with blocks that do not overlap returns a good request whose
    elements are [count] blocks of [blocklength] elements, [stride] bytes
    apart; the requests that exist keep their meaning. *)
Theorem hvector_builds a h count blocklength stride p t :
  h !! a = None → repr h p t → good t → tree_depth t < B31 - 1 →
  1 ≤ count < B31 → 1 ≤ blocklength < B31 →
  blocklength * tree_ext t ≤ stride ∨ (count = 1 ∧ 0 ≤ stride) →
  (count - 1) * stride + blocklength * tree_ext t < B63 →
  ∃ h' T, PVFS_Request_hvector [a] h count blocklength stride p = Done (PVFS_SUCCESS, Some a, h') ∧
    keeps h h' ∧ repr h' (Some a) T ∧ good T ∧
    tree_agg T = count * blocklength * tree_agg t ∧
    ∀ o, elem T o = b ← seqZ 0 count; elems t blocklength (o + stride * b).
Proof.
  intros Ha Hr Hg Hdep Hc Hb Hst Hsz. pose proof Hg as (Hn & Hwf & _ & Hae & _).
  destruct (vector_size count blocklength (tree_ext t) (tree_agg t) stride) as (Hs0 & ? & ? & ? & ?);
    [lia..|done|].
  destruct (subreq_spec h a 0 blocklength stride count p t (tree_ext t) None Ha Hr Hn)
    as (r & h1 & Hsub & Hk1 & Hra & Hdom & Ho & Hne & Hnb & Hs & Hub & Hlb & Hag & Hd & Hre & Hrs).
  assert (1 ≤ tree_depth t) as Hd1 by (destruct t; [done|]; destruct Hwf as (_ & ? & _); cbn; lia).
  rewrite i32_id in Hub, Hd by lia.
  assert (ub r = (count - 1) * stride + blocklength * tree_ext t) as Hub'.
  { rewrite Hub, <- (i64_id (_ * stride + _)) by lia. i64_flat. }
  assert (aggregate_size r = tree_agg t * count * blocklength) as Hag'.
  { by rewrite Hag, (i64_id (_ * count)), i64_id by lia. }
  set (T := RReq a (strip r) t RNull).
  assert (repr h1 (Some a) T) as HrT.
  { cbn. split_and!; try done; [by exists r|rewrite Hre; by eapply keeps_repr]. }
  destruct (vector_good a (strip r) t) as [HgT HeT]; try done; cbn [strip offset num_ereqs num_blocks
    Request.stride ub lb aggregate_size depth]; rewrite ?Hnb, ?Hne, ?Hs, ?Ho, ?Hlb; try done; try lia.
  destruct (update_refcount h1 (Some a) a (strip r) t RNull (λ r, bool_decide (refcount r >= 0)) (λ _, 1) HrT)
    as (h2 & Hup & Hk2 & _).
  exists h2, T. split_and!; try done.
  - unfold PVFS_Request_hvector. destruct t as [|b x e q]; [done|].
    pose proof Hr as (Hp & (y & Hy & Hyx) & _). rewrite Hp in *. unfold PVFS_Request_extent, deref. rewrite Hy.
    cbn [mbind exec_bind]. assert (ub y -ₗ lb y = tree_ext (RReq b x e q)) as ->.
    { rewrite i64_id; [by rewrite Hyx|]. destruct Hwf as (Hf & _). by rewrite Hyx in Hf. }
    rewrite Hsub. cbn [mbind exec_bind]. rewrite decide_False by lia. cbn [mbind exec_bind].
    unfold PINT_REQUEST_REFSET. by rewrite Hup.
  - by etrans.
  - by eapply keeps_repr.
  - cbn. rewrite Hag'. ring.
  - intros o. rewrite HeT. cbn [strip num_blocks num_ereqs offset Request.stride].
    rewrite Hnb, Hne, Ho, Hs. apply bind_ext. intros b _. by rewrite Z.add_0_r.
Qed.

(** * Indexed requests *)

(** The bytes of blocks of elements of [t]. *)
Definition blocks_elem (t : rtree) (blocks : list (Z * Z)) (o : Z) : list Z :=
  '(l, d) ← blocks; elems t l (o + d).

Definition blocks_agg (t : rtree) (blocks : list (Z * Z)) : Z :=
  foldr (λ '(l, _) n, l * tree_agg t + n) 0 blocks.

(** The blocks lie between [lo] and [hi] one after the other. *)
Fixpoint ascending (ext lo hi : Z) (blocks : list (Z * Z)) : Prop :=
  match blocks with
  | [] => lo ≤ hi
  | (l, d) :: blocks' => lo ≤ d ∧ 1 ≤ l < B31 ∧ ascending ext (d + l * ext) hi blocks'
  end.

(** [p] is the chain for [blocks], whose last byte is below [hi]. *)
Definition chain_of (h : req_heap) (p q : ptr) (t : rtree) (hi : Z) (blocks : list (Z * Z)) : Prop :=
  match blocks with
  | [] => q = None
  | (_, d) :: _ =>
      ∃ a r s, let u := RReq a r t s in
      repr h q u ∧ ereq r = p ∧ good u ∧ (∀ o, elem u o = blocks_elem t blocks o) ∧
      offset r = d ∧ lb r = d ∧ ub r ≤ hi ∧ depth r = tree_depth t + 1 ∧
      aggregate_size r = blocks_agg t blocks
  end.

Lemma ascending_le ext lo hi blocks : 0 ≤ ext → ascending ext lo hi blocks → lo ≤ hi.
Proof.
  intros He. revert lo. induction blocks as [|[l d] blocks IH]; intros lo; [done|].
  cbn. intros (? & ? & H%IH). nia.
Qed.

Lemma ascending_app ext lo hi l1 l2 :
  ascending ext lo hi (l1 ++ l2) → ∃ mid, ascending ext mid hi l2 ∧ ascending ext lo mid l1.
Proof.
  revert lo. induction l1 as [|[l d] l1 IH]; intros lo; cbn; [by exists lo|].
  intros (? & ? & (mid & ? & ?)%IH). eauto.
Qed.

Lemma deref_Some h a r : h !! a = Some r → deref h (Some a) = Done r.
Proof. intros Ha. unfold deref. by rewrite Ha. Qed.

(** [PINT_reqstats] on a block in front of a chain of blocks of the same type. *)
Lemma reqstats_spec h a b n s e :
  h !! a = Some n → sreq n = Some b → h !! b = Some s → ereq n = ereq s →
  deref h (ereq n) = Done e → ub n ≤ lb s → lb s ≤ ub s → lb n ≤ ub n → depth n = depth s →
  ∃ n', PINT_reqstats h (Some a) = Done (<[a := n']> h) ∧
    offset n' = offset n ∧ num_ereqs n' = num_ereqs n ∧ num_blocks n' = num_blocks n ∧
    stride n' = stride n ∧ ub n' = ub s ∧ lb n' = lb n ∧
    aggregate_size n' = aggregate_size n +ₗ aggregate_size s ∧ depth n' = depth n ∧
    ereq n' = ereq n ∧ sreq n' = sreq n.
Proof.
  intros Hn Hs Hb He Hde Hub Hlb Hnn Hd. unfold PINT_reqstats.
  rewrite (deref_Some _ _ _ Hn). cbn [mbind exec_bind]. rewrite Hs, (deref_Some _ _ _ Hb).
  cbn [mbind exec_bind].
  rewrite (decide_True (P := ereq n = ereq s)) by done. rewrite Hde. cbn [mbind exec_bind]. unfold update. rewrite Hn.
  eexists. split; [reflexivity|]. cbn. split_and!; try done.
  - case_decide; lia.
  - rewrite decide_False; lia.
  - case_decide; lia.
Qed.

Lemma good_agg t : good t → 0 ≤ tree_agg t ≤ tree_ext t.
Proof. by intros (_ & _ & _ & ? & _). Qed.

Section chain.
Context (p : ptr) (t : rtree) (lo hi : Z).
Hypothesis (Hg : good t) (Hdep : tree_depth t < B31 - 1).
Hypothesis (Hlo : - B63 ≤ lo) (Hhi : hi < B63) (Hfit : hi - lo < B63).

Lemma good_bounds : 0 ≤ tree_agg t ≤ tree_ext t ∧ 1 ≤ tree_depth t.
Proof.
  destruct Hg as (Hn & Hwf & _ & ? & _). split; [done|].
  destruct t; [done|]. destruct Hwf as (_ & ? & _). cbn. lia.
Qed.

(** The struct of a block, before [PINT_reqstats]. *)
Lemma block_spec h a l d q :
  h !! a = None → repr h p t → lo ≤ d → 1 ≤ l < B31 → d + l * tree_ext t ≤ hi →
  ∃ r h', PINT_subreq h a d l 0 1 p (tree_ext t) q = Done (PVFS_SUCCESS, h') ∧
    keeps h h' ∧ h' !! a = Some r ∧ dom h' = {[a]} ∪ dom h ∧
    offset r = d ∧ num_ereqs r = l ∧ num_blocks r = 1 ∧ stride r = 0 ∧
    ub r = d + l * tree_ext t ∧ lb r = d ∧ aggregate_size r = l * tree_agg t ∧
    depth r = tree_depth t + 1 ∧ ereq r = p ∧ sreq r = q.
Proof using Hdep Hfit Hg Hhi Hlo.
  intros Ha Hr Hd Hl Hub. pose proof good_bounds as [Hb Hd1].
  assert (0 ≤ l * tree_agg t ≤ l * tree_ext t) by (split; [|apply Z.mul_le_mono_nonneg_l]; nia).
  destruct (subreq_spec h a d l 0 1 p t (tree_ext t) q Ha Hr) as
    (r & h' & Hsub & Hk & Hra & Hdom & ? & ? & ? & ? & Hur & ? & Har & Hdr & ? & ?); [apply Hg|].
  exists r, h'. split_and!; try done.
  - rewrite Hur, i32_id, <- (i64_id (d + l * tree_ext t)) by lia. i64_flat.
  - rewrite Har, (i64_id (_ * 1)), i64_id by nia. lia.
  - by rewrite Hdr, i32_id by lia.
Qed.

Lemma chain_block_spec h a l d q blocks :
  h !! a = None → repr h p t → chain_of h p q t hi blocks →
  ascending (tree_ext t) lo hi ((l, d) :: blocks) →
  ∃ h', chain_block a h d l p (tree_ext t) q = Done h' ∧ keeps h h' ∧ dom h' = {[a]} ∪ dom h ∧
    chain_of h' p (Some a) t hi ((l, d) :: blocks).
Proof using Hdep Hfit Hg Hhi Hlo.
  intros Ha Hr Hch (Hd & Hl & Hasc). pose proof good_bounds as [Hb Hd1].
  pose proof (ascending_le (tree_ext t) _ _ _ ltac:(lia) Hasc) as Hub.
  destruct (block_spec h a l d q Ha Hr Hd Hl Hub) as
    (r & h1 & Hsub & Hk & Hra & Hdom & Ho & Hne & Hnb & Hs & Hur & Hlr & Har & Hdr & He & Hsr).
  assert (0 ≤ l * tree_agg t ≤ l * tree_ext t) by (split; [|apply Z.mul_le_mono_nonneg_l]; nia).
  unfold chain_block. rewrite Hsub. cbn [mbind exec_bind].
  destruct blocks as [|[l' d'] blocks]; cbn [chain_of] in Hch.
  - subst q. exists h1. split_and!; [|done|done|].
    { unfold PINT_reqstats. rewrite (deref_Some _ _ _ Hra). cbn [mbind exec_bind]. by rewrite Hsr. }
    exists a, (strip r), RNull. destruct (vector_good a (strip r) t) as [HgT HeT]; try done;
      cbn [strip offset num_ereqs num_blocks stride ub lb aggregate_size depth];
      rewrite ?Hnb, ?Hne, ?Hs, ?Ho, ?Hlr, ?Hur; try done; try lia.
    split_and!; try done; cbn [strip aggregate_size ub]; try lia.
    + cbn. split_and!; [done|by exists r| |by rewrite Hsr]. rewrite He. by eapply keeps_repr.
    + intros o. rewrite HeT. cbn [strip num_blocks num_ereqs offset stride].
      rewrite Hnb, Hs, Hne, Ho. unfold blocks_elem. change (seqZ 0 1) with [0].
      cbn [mbind list_bind]. by rewrite Z.mul_0_r, Z.add_0_r.
    + rewrite Har. cbn. lia.
  - destruct Hch as (b & s & sq & Hrq & Hes & Hgu & Heu & Hos & Hls & Hus & Hds & Has).
    pose proof (keeps_repr _ _ _ _ Hk Hrq) as Hrq1. pose proof Hrq1 as (-> & (y & Hy & Hsy) & _).
    pose proof (keeps_repr _ _ _ _ Hk Hr) as Hr1. destruct Hasc as (Hdd & _).
    pose proof (good_agg _ Hgu) as Hau. cbn [tree_agg tree_ext] in Hau.
    assert (offset y = offset s ∧ lb y = lb s ∧ ub y = ub s ∧ depth y = depth s ∧
      aggregate_size y = aggregate_size s ∧ ereq y = ereq s) as (Hy1 & Hy2 & Hy3 & Hy4 & Hy5 & Hy6)
      by (by rewrite Hsy).
    assert (∃ e, deref h1 p = Done e) as [e Hde].
    { destruct t as [|c x te tq] eqn:Et; [by destruct Hg|].
      destruct (repr_deref _ _ _ _ _ _ Hr1) as (x' & ? & _). eauto. }
    destruct (reqstats_spec h1 a b r y e) as (n & Hst & Hn1 & Hn2 & Hn3 & Hn4 & Hn5 & Hn6 & Hn7 & Hn8 & Hn9 & Hn10);
      [done..|congruence|congruence|lia|lia|lia|lia|].
    rewrite i64_id in Hn7 by lia.
    rewrite Hst. eexists. split; [done|].
    assert (keeps h (<[a := n]> h1)) as Hk2 by by apply keeps_fresh.
    split; [done|]. split; [rewrite <- Hdom; apply dom_insert_lookup_L; eauto|].
    exists a, (strip n), (RReq b s t sq).
    destruct (chain_good a (strip n) t (RReq b s t sq)) as [HgT HeT]; try done;
      cbn [strip offset num_ereqs num_blocks stride ub lb aggregate_size depth tree_agg tree_depth];
      [by destruct t, Hg|lia|lia| |lia|lia|lia|].
    { exists b, s, t, sq. cbn [tree_disp]. split_and!; [done|lia..]. }
    split_and!; try done; cbn [strip aggregate_size ub offset lb depth ereq]; try lia.
    + split; [done|]. split; [exists n; by rewrite lookup_insert_eq|]. cbn [strip ereq sreq].
      rewrite Hn9, Hn10, He, Hsr. split; by apply (keeps_repr h).
    + congruence.
    + intros o. rewrite HeT, Heu. cbn [strip num_ereqs offset]. by rewrite Hn2, Hne, Hn1, Ho.
    + rewrite Hn7, Hy5, Har, Has. done.
Qed.

Lemma hindexed_loop_spec todo addrs h q blocks :
  length addrs = length todo → NoDup addrs → (∀ a, a ∈ addrs → h !! a = None) →
  repr h p t → chain_of h p q t hi blocks →
  ascending (tree_ext t) lo hi (reverse todo ++ blocks) →
  ∃ h' q', hindexed_loop addrs h todo p (tree_ext t) q = Done (q', h') ∧ keeps h h' ∧
    chain_of h' p q' t hi (reverse todo ++ blocks).
Proof using Hdep Hfit Hg Hhi Hlo.
  revert addrs h q blocks. induction todo as [|[l d] todo IH]; intros [|a addrs] h q blocks;
    cbn [length]; intros Hlen Hnd Hfr Hr Hch Hasc; try lia; [by exists h, q|].
  apply NoDup_cons in Hnd as [Hna Hnd]. rewrite reverse_cons, <- app_assoc in Hasc. cbn in Hasc.
  pose proof (ascending_app _ _ _ _ _ Hasc) as (mid & Hasc2 & Hasc1).
  pose proof good_bounds as [Hb _].
  pose proof (ascending_le (tree_ext t) _ _ _ ltac:(lia) Hasc1) as Hmid.
  destruct (chain_block_spec h a l d q blocks) as (h1 & Hcb & Hk & Hdom & Hch1); try done.
  { apply Hfr. left. }
  { destruct Hasc2 as (? & ? & ?). split_and!; [lia..|done]. }
  destruct (IH addrs h1 (Some a) ((l, d) :: blocks)) as (h' & q' & Hl & Hk' & Hch'); try done; [lia| | |].
  { intros b Hb'. apply not_elem_of_dom. rewrite Hdom, not_elem_of_union, not_elem_of_singleton.
    split; [congruence|]. apply not_elem_of_dom, Hfr. by right. }
  { by eapply keeps_repr. }
  exists h', q'. cbn [hindexed_loop]. rewrite Hcb. cbn [mbind exec_bind].
  rewrite reverse_cons, <- app_assoc. split_and!; [done| |done]. by etrans.
Qed.
End chain.

(** What [PVFS_Request_indexed] does is [PVFS_Request_hindexed] with the
    displacements scaled by the extent. *)
Lemma indexed_hindexed addrs h blocks p t :
  repr h p t → wf t → t ≠ RNull →
  PVFS_Request_indexed addrs h blocks p =
  PVFS_Request_hindexed addrs h ((λ '(l, d), (l, d *ₗ tree_ext t)) <$> blocks) p.
Proof.
  intros Hr Hwf Ht. destruct t as [|b x e q]; [done|]. pose proof Hr as (-> & (y & Hy & Hyx) & _).
  unfold PVFS_Request_indexed, PVFS_Request_hindexed, PVFS_Request_extent.
  rewrite (deref_Some _ _ _ Hy). cbn [mbind exec_bind]. do 4 f_equal. 
  assert (ub y -ₗ lb y = ub x - lb x) as ->; [|done].
  destruct Hwf as (Hf & _). rewrite Hyx in *. by apply i64_id.
Qed.

(** C9. An indexed request means its blocks: [PVFS_Request_hindexed] on a good
    request with blocks in ascending order that do not overlap returns a good
    request whose element is the blocks one after the other; the requests
    that exist keep their meaning. *)
Theorem hindexed_builds addrs h blocks p t lo hi :
  length addrs = length blocks → NoDup addrs → (∀ a, a ∈ addrs → h !! a = None) →
  blocks ≠ [] → repr h p t → good t → tree_depth t < B31 - 1 →
  ascending (tree_ext t) lo hi blocks → - B63 ≤ lo → hi < B63 → hi - lo < B63 →
  ∃ h' q T, PVFS_Request_hindexed addrs h blocks p = Done (PVFS_SUCCESS, q, h') ∧
    keeps h h' ∧ repr h' q T ∧ good T ∧ tree_agg T = blocks_agg t blocks ∧
    ∀ o, elem T o = blocks_elem t blocks o.
Proof.
  intros Hlen Hnd Hfr Hne Hr Hg Hdep Hasc Hlo Hhi Hfit.
  destruct (hindexed_loop_spec p t lo hi Hg Hdep Hlo Hhi Hfit (reverse blocks) addrs h None [])
    as (h1 & q & Hl & Hk & Hch); try done; rewrite ?length_reverse, ?reverse_involutive, ?app_nil_r in *;
    try done.
  destruct blocks as [|[l d] blocks]; [done|].
  destruct Hch as (a & r & s & Hrq & _ & HgT & HeT & _ & _ & _ & _ & Hag).
  destruct (update_refcount h1 q a r t s (λ r, bool_decide (refcount r >= 0)) (λ _, 1) Hrq)
    as (h2 & Hup & Hk2 & _).
  exists h2, q, (RReq a r t s). split_and!; try done; [|by etrans|by eapply keeps_repr].
  destruct t as [|b x e q']; [by destruct Hg|]. pose proof Hr as (-> & (y & Hy & Hyx) & _).
  unfold PVFS_Request_hindexed, PVFS_Request_extent. rewrite (deref_Some _ _ _ Hy).
  cbn [mbind exec_bind]. assert (ub y -ₗ lb y = tree_ext (RReq b x e q')) as ->.
  { destruct Hg as (_ & (Hf & _) & _). rewrite Hyx in *. by apply i64_id. }
  rewrite Hl. cbn [mbind exec_bind]. unfold PINT_REQUEST_REFSET. by rewrite Hup.
Qed.

(** * Examples *)

Definition byte_heap : req_heap := {[1%positive := PINT_BYTE]}.
Definition byte_tree : rtree := RReq 1 (strip PINT_BYTE) RNull RNull.

Lemma byte_good : repr byte_heap (Some 1%positive) byte_tree ∧ good byte_tree.
Proof. split; [cbn; split_and!; eauto|by apply elementary_good]. Qed.

Lemma hvector_builds_witness :
  ∃ h' T, PVFS_Request_hvector [2%positive] byte_heap 2 2 4 (Some 1%positive) =
      Done (PVFS_SUCCESS, Some 2%positive, h') ∧
    repr h' (Some 2%positive) T ∧ elem T 0 = [0; 1; 4; 5].
Proof.
  destruct byte_good as [Hr Hg].
  destruct (hvector_builds 2 byte_heap 2 2 4 (Some 1%positive) byte_tree) as
    (h' & T & Hrun & _ & HrT & _ & _ & He); [done|done|done|cbn; lia..|].
  exists h', T. split_and!; [done|done|]. rewrite He. reflexivity.
Defined.

Lemma hindexed_builds_witness :
  ∃ h' q T, PVFS_Request_hindexed [2%positive; 3%positive] byte_heap [(2, 1); (3, 5)] (Some 1%positive) =
      Done (PVFS_SUCCESS, q, h') ∧ repr h' q T ∧ elem T 0 = [1; 2; 5; 6; 7].
Proof.
  destruct byte_good as [Hr Hg].
  destruct (hindexed_builds [2%positive; 3%positive] byte_heap [(2, 1); (3, 5)] (Some 1%positive)
    byte_tree 0 8) as (h' & q & T & Hrun & _ & HrT & _ & _ & He);
    [done|vm_decide| |done|done|done|cbn; lia|cbn; lia|lia|lia|lia|].
  { intros a Ha. repeat (apply elem_of_cons in Ha as [->|Ha]; [done|]). by apply not_elem_of_nil in Ha. }
  exists h', q, T. split_and!; [done|done|]. rewrite He. reflexivity.
Defined.
