(* ===== verification/ProcessCalls.v ===== *)
(** Sequences of calls of [PINT_process_request] on one request state, as the
    flow code makes them: every call fills a result and the next call goes on
    where it stopped.  The segments of all calls together are the bytes that
    the request means, from the target offset to the final offset. *)

From stdpp Require Import list numbers gmap.
From S2P Require Import Prelude Errors Dist SimpleStripe Request Distribute Process RequestTree ProcessWalk ProcessSpec RequestBuild.

(** * Calls *)

(** A result that is empty and has room. *)
Definition fresh_result (r : PINT_Request_result) : Prop :=
  result_ok r ∧ segs r = 0 ∧ bytes r = 0 ∧ 0 < segmax r ∧ 0 < bytemax r.

(** The type of a call: state, file data and result. *)
Abbreviation process_call :=
  (PINT_Request_state → option PINT_request_file_data → PINT_Request_result →
   exec (Z * PINT_Request_state * option PINT_Request_state *
         option PINT_request_file_data * PINT_Request_result)).

(** [calls run room (req, rf) out (req', rf')]: some calls in a row, each with an
    empty result of a capacity below [room], output the offsets [out].  There
    is no call after the final offset has been reached. *)
Inductive calls (run : process_call) (room : Z) (start : PINT_Request_state * option PINT_request_file_data) :
    list Z → PINT_Request_state * option PINT_request_file_data → Prop :=
  | calls_nil : calls run room start [] start
  | calls_step out req rf result ret req' mem rf' result' :
      calls run room start out (req, rf) → type_offset req < final_offset req →
      fresh_result result → bytemax result < room →
      run req rf result = Done (ret, req', mem, rf', result') →
      calls run room start (out ++ expand (segments result')) (req', rf').

Lemma expand_pos (l : list (Z * Z)) :
  Forall (λ '(o, s), 0 ≤ o ∧ 0 < s ∧ o + s < B63) l → expand l = [] → l = [].
Proof.
  destruct l as [|[o s] l]; [done|]. intros [(_ & Hs & _) _]%Forall_cons. cbn.
  by rewrite seqZ_cons by lia.
Qed.

Section calls.
Context (distribute : Z → Z → option PINT_request_file_data → option PINT_Request_state →
  PINT_Request_result → Z →
  exec (Z * option PINT_request_file_data * option PINT_Request_state *
        PINT_Request_result * bool)).
Context (fuel : nat) (h : req_heap) (alloc : bool) (mode : Z).
(** One call of the function, as described in ProcessSpec.v. *)
Context (emit : Z → list Z) (rf_ok : PINT_request_file_data → Prop) (lim : Z) (eof_stops : Prop).
Context (Hcall : ∀ req0 req rf result ps L,
  process_setup h req0 None mode = Done req →
  walk h req ps → ps ≠ [] → L = todo ps (rs_bytes req) →
  Forall (λ p, tree_size (tb p) ≤ fuel)%nat ps → (cost ps < fuel)%nat →
  Forall (λ b, 0 ≤ b < lim - 1) L →
  0 ≤ rs_bytes req ≤ type_offset req → type_offset req ≤ final_offset req →
  target_offset req ≤ final_offset req → final_offset req < B63 →
  type_offset req + Z.of_nat (length L) < B63 → bytemax result + Z.of_nat (length L) < B63 →
  rf_ok rf → result_ok result → segs result < segmax result → bytes result < bytemax result →
  ∃ st' ps' k,
    process_request distribute fuel h alloc req0 None (Some rf) result mode =
      Done (0, p_req st', p_mem st', p_rf st', p_result st') ∧
    outcome fuel h emit rf_ok eof_stops (mkPloop req None (Some rf) result mode) L st' ps'
      (Z.min (Z.max 0 (target_offset req - type_offset req)) (Z.of_nat (length L))) k ∧
    goes_on fuel ps ps').

(** The request: [count] elements of [t], of which the bytes from [T] to [F]
    are wanted. *)
Context (t : rtree) (count T F : Z).
Abbreviation ALL := (elems t count 0).
Context (Hset : ∀ req ps, walk h req ps → ps ≠ [] → bottom ps = Some (t, count) →
  final_offset req = F → process_setup h req None mode = Done req).
Context (HT : 0 ≤ T ≤ F) (HF : F ≤ Z.of_nat (length ALL)) (HA : Z.of_nat (length ALL) < B63).
Context (Hrange : Forall (λ b, 0 ≤ b < lim - 1) ALL).

(** The bytes wanted that are among the first [n]. *)
Definition wanted (n : Z) : list Z := take (Z.to_nat (n - T)) (drop (Z.to_nat T) ALL).

(** The state of the request when the bytes up to its type offset are done. *)
Definition under_way (req : PINT_Request_state) : Prop :=
  target_offset req = T ∧ final_offset req = F ∧ 0 ≤ type_offset req ≤ F ∧
  (type_offset req < F → ∃ req1 ps,
    process_setup h req None mode = Done req1 ∧ same_offsets req1 req ∧
    walk h req1 ps ∧ bottom ps = Some (t, count) ∧
    todo ps (rs_bytes req1) = drop (Z.to_nat (type_offset req)) ALL ∧
    0 ≤ rs_bytes req1 ≤ type_offset req ∧
    Forall (λ p, tree_size (tb p) ≤ fuel)%nat ps ∧ (cost ps < fuel)%nat).

Lemma call_under_way req rf result :
  under_way req → type_offset req < F → rf_ok rf → fresh_result result →
  bytemax result + Z.of_nat (length ALL) < B63 →
  ∃ req' mem rf' result',
    process_request distribute fuel h alloc req None (Some rf) result mode =
      Done (0, req', mem, Some rf', result') ∧
    under_way req' ∧ rf_ok rf' ∧
    (wanted (type_offset req) ≫= emit) ++ expand (segments result') =
      wanted (type_offset req') ≫= emit ∧
    (type_offset req < type_offset req' ∨ (eof_stops ∧ eof_flag req' = true)).
Proof using All.
  intros (Hta & Hfi & Hto & Hrun) Hlt Hrf (Hok & Hs0 & Hb0 & Hsm & Hbm) Hroom.
  destruct (Hrun Hlt) as (req1 & ps & Hsu & (Ho1 & Ho2 & Ho3 & _) & Hwk & Hbot & Htd & Hrs & Hsz & Hcost).
  set (n := type_offset req) in *. set (A := elems t count 0) in *.
  assert (ps ≠ []) as Hps by (intros ->; done).
  assert (Z.of_nat (length (drop (Z.to_nat n) A)) = Z.of_nat (length A) - n) as Hlen
    by (rewrite length_drop; lia).
  destruct (Hcall req req1 rf result ps (drop (Z.to_nat n) A)) as (st' & ps' & k & Hp & Hout & Hgo);
    try done; try (rewrite ?Hlen; lia); [by apply Forall_drop|].
  rewrite Hlen, Ho1, Ho2, Hta, Z.min_l in Hout by lia. set (s := Z.max 0 (T - n)) in *.
  destruct Hout as (Hwk' & Htd' & Hk & Hle & Hto' & Hta' & [Hfi' Hle'] & Hrs' & Hex & Hbx & Hok' & Hsm' &
    Hbm' & (rf' & Hrf' & Hrfok') & Hsz' & Hstop).
  cbn [p_req p_result] in *. rewrite drop_drop in Hex, Hbx.
  rewrite Ho1 in Hto'. rewrite Ho2 in Hta'. rewrite Ho3, Hfi in Hfi'. fold n in Hto'.
  exists (p_req st'), (p_mem st'), rf', (p_result st'). rewrite Hp, Hrf'. split_and!; try done.
  - split_and!; [congruence|done|lia|lia|]. intros Hlt'. exists (p_req st'), ps'.
    assert (ps' ≠ []) as Hps'.
    { intros ->. cbn in Htd'. apply (f_equal length) in Htd'. rewrite !length_drop in Htd'. cbn in Htd'. lia. }
    destruct Hgo as (Hc & _ & [?|Hb]); [done|]. rewrite Hb.
    split_and!; try done; try lia; [by apply (Hset _ ps'); [..|congruence|done]|].
    rewrite Htd', drop_drop, Hto'. f_equal. lia.
  - rewrite Hex. unfold segments at 1. rewrite Hs0. cbn [Z.to_nat take].
    replace (expand _) with (@nil Z) by (by destruct (offset_array result), (size_array result)).
    cbn [app]. rewrite <- bind_app. f_equal. unfold wanted. fold A.
    replace (Z.to_nat n + Z.to_nat s)%nat with (Z.to_nat T + Z.to_nat (n - T))%nat by lia.
    rewrite <- drop_drop, take_take_drop. f_equal. lia.
  - rewrite Hto'. destruct Hstop as [Hk'|[Hst|[Hst|Hst]]]; [left; lia| | |by right].
    + left. rewrite Hst, Hbm', Hb0 in Hbx. assert (k ≠ 0) by (intros ->; rewrite take_0 in Hbx; cbn in Hbx; lia). lia.
    + left. assert (k ≠ 0); [|lia]. intros ->. rewrite take_0, app_nil_r in Hex.
      assert (segments result = []) as Hnil by (unfold segments; rewrite Hs0; by destruct (offset_array result), (size_array result)).
      rewrite Hnil in Hex. destruct Hok' as (oa & sa & Eo & Es & Hl1 & Hl2 & Hsg & _ & _ & _ & Hall).
      apply expand_pos in Hex; [|done]. unfold segments in Hex. rewrite Eo, Es in Hex.
      apply (f_equal length) in Hex. rewrite length_take, length_zip_with in Hex. cbn in Hex. lia.
Qed.

(** Calls from a state that is under way. *)
Lemma calls_under_way room req0 rf0 out req rf :
  under_way req0 → type_offset req0 ≤ T → rf_ok rf0 → room + Z.of_nat (length ALL) ≤ B63 →
  calls (λ req rf result, process_request distribute fuel h alloc req None rf result mode) room
    (req0, Some rf0) out (req, rf) →
  under_way req ∧ (∃ rf', rf = Some rf' ∧ rf_ok rf') ∧ out = wanted (type_offset req) ≫= emit.
Proof using All.
  intros Hu0 Hn Hrf0 Hroom Hc. remember (req, rf) as e eqn:Ee. revert req rf Ee.
  induction Hc as [|out req1 rf1 result ret req' mem rf' result' Hc IH Hlt Hem Hbm Hrun];
    intros req rf [= <- <-].
  - split_and!; [done|by eauto|]. unfold wanted. by replace (Z.to_nat (type_offset req0 - T)) with 0%nat by lia.
  - destruct (IH _ _ eq_refl) as (Hu & (rfx & -> & Hrfx) & ->).
    pose proof Hu as (_ & Hfi & _).
    destruct (call_under_way req1 rfx result) as (req2 & mem2 & rf2 & res2 & Hp & Hu2 & Hrf2 & Hw & _);
      try done; [lia..|].
    rewrite Hp in Hrun. injection Hrun as <- <- <- <- <-. rewrite Hw. eauto.
Qed.
End calls.

(** * Fresh states *)

Lemma fresh_walk h req p t k :
  repr h p t → good t → 1 ≤ k < B63 → cur req !! 0%nat = Some (mkReqstack 0 k p p 0 0) →
  lvl req = 0 → rs_bytes req = 0 → tree_depth t ≤ Z.of_nat (length (cur req)) →
  walk h req [first_pos t k 0] ∧ todo [first_pos t k 0] (rs_bytes req) = elems t k 0 ∧
  cost [first_pos t k 0] = cost_elems t k.
Proof.
  intros Hr Hg Hk Hcur Hl Hb Hd. pose proof (good_sound t Hg) as Hs. destruct Hg as (Hn & Hwf & _).
  rewrite Hb. split_and!.
  - exists (tree_depth t). split; [done|]. split; [|split; [done|]; rewrite Hb; split; [lia|done]].
    split; [eexists; split; [exact Hcur|done]|]. split; [by apply first_pos_ok|]. done.
  - unfold todo, rests. cbn [Z.to_nat mbind list_bind]. rewrite drop_0, app_nil_r.
    apply first_pos_todo; done || lia.
  - unfold cost. rewrite <- (first_pos_cost t k 0) by (done || lia). cbn. lia.
Qed.

Lemma new_state_spec h junk p t req :
  repr h p t → good t → PINT_new_request_state h junk p = Done req →
  cur req !! 0%nat = Some (mkReqstack 0 1 p p 0 0) ∧ lvl req = 0 ∧ rs_bytes req = 0 ∧
  type_offset req = 0 ∧ target_offset req = 0 ∧ final_offset req = tree_agg t ∧
  tree_depth t ≤ Z.of_nat (length (cur req)).
Proof.
  intros Hr (Hn & Hwf & _). destruct t as [|a r e q]; [done|].
  pose proof Hr as (-> & (x & Hx & ->) & _). unfold PINT_new_request_state.
  rewrite (deref_Some _ _ _ Hx). cbn [mbind exec_bind]. intros [= <-]. cbn.
  split_and!; try done. rewrite length_map, length_seq. destruct Hwf as (_ & ? & _). cbn in *. lia.
Qed.

(** The lowest level of the stack. *)
Lemma stack_last h c D ps q :
  stack_ok h c D ps → last ps = Some q → ∃ s, c !! 0%nat = Some s ∧ level_rep h s q.
Proof.
  induction ps as [|p [|p' ps] IH]; [done| |].
  - intros (? & _) [= <-]. done.
  - intros (_ & _ & _ & _ & Hst) Hl. by apply IH.
Qed.

(** ** Files *)

(** The number of elements that a file request is tiled to. *)
Definition tiles (t : rtree) (F : Z) : Z := F / tree_agg t + 1.

Lemma tiles_size t F :
  0 < tree_agg t → 0 ≤ F → F < tiles t F * tree_agg t ≤ F + tree_agg t ∧ 1 ≤ tiles t F ≤ F + 1.
Proof.
  intros Ha HF. unfold tiles. pose proof (Z.div_mod F (tree_agg t)). pose proof (Z.mod_pos_bound F (tree_agg t)).
  assert (0 ≤ F / tree_agg t) by (apply Z.div_pos; lia). nia.
Qed.

Lemma file_setup h req mode s p t :
  PINT_IS_MEMREQ mode = false → 0 ≤ lvl req → cur req !! 0%nat = Some s → repr h (rqbase s) t →
  t ≠ RNull → 0 < tree_agg t → 0 ≤ final_offset req < B63 - 1 → p = rqbase s →
  process_setup h req None mode = Done (set_cur req
    (<[0%nat := mkReqstack (el s) (tiles t (final_offset req)) (rq s) p (blk s) (chunk_offset s)]> (cur req))).
Proof.
  intros Hm Hl Hs Hr Ht Ha HF ->. unfold process_setup. rewrite decide_False by lia.
  cbn [mbind exec_bind]. rewrite Hm. change 0 with (Z.of_nat 0). rewrite (get_level_Done _ _ s) by done.
  cbn [mbind exec_bind]. destruct t as [|a r e q]; [done|].
  destruct (repr_deref _ _ _ _ _ _ Hr) as (x & Hx & -> & Hpx & _). rewrite Hpx at 1. rewrite Hx.
  cbn [mbind exec_bind]. cbn [tree_agg strip aggregate_size] in Ha. rewrite decide_False by lia.
  cbn [mbind exec_bind]. rewrite set_level_Done by (by eapply lookup_lt_Some).
  unfold tiles. cbn [tree_agg strip aggregate_size].
  rewrite Z.quot_div_nonneg by lia.
  assert (0 ≤ final_offset req / aggregate_size x) by (apply Z.div_pos; lia).
  assert (final_offset req / aggregate_size x ≤ final_offset req)
    by (apply Z.div_le_upper_bound; nia).
  by rewrite (i64_id (_ / _)), i64_id by lia.
Qed.

Lemma file_setup_again h req mode ps t :
  PINT_IS_MEMREQ mode = false → walk h req ps → ps ≠ [] → t ≠ RNull → 0 < tree_agg t →
  0 ≤ final_offset req < B63 - 1 → bottom ps = Some (t, tiles t (final_offset req)) →
  process_setup h req None mode = Done req.
Proof.
  intros Hm (D & Hl & Hst & _) Hps Ht Ha HF Hb. unfold bottom in Hb.
  destruct (last ps) as [q|] eqn:Eq; [|done]. injection Hb as Hq1 Hq2.
  destruct (stack_last _ _ _ _ _ Hst Eq) as (s & Hs & Hb & Hq & He & Hmx & Hbl & Hco).
  rewrite Hq1 in Hb. rewrite (file_setup h req mode s (rqbase s) t); try done.
  - rewrite <- Hq2, <- Hmx. destruct req as [c l b ty ta fi eo], s as [e0 m0 q0 b0 k0 o0]. cbn in *.
    unfold set_cur. cbn. by rewrite list_insert_id.
  - destruct ps; [done|]. cbn in Hl. lia.
Qed.

(** * The calls for a memory request *)

(** Processing a memory request.  However small the results are, the calls
    on a fresh state output the bytes of the request in order: after any calls
    the output is the first [type_offset] bytes that the request means, and as
    long as it is not complete the next call returns 0 and outputs more. *)
Theorem mem_calls_output distribute fuel h alloc mode junk p t req0 rf0 room out req rf :
  repr h p t → good t → (tree_size t ≤ fuel)%nat → (cost_elems t 1 < fuel)%nat →
  Forall (λ b, 0 ≤ b < B63 - 1) (elem t 0) →
  mem_mode mode → PINT_IS_LOGICAL_SKIP mode = false →
  PINT_new_request_state h junk p = Done req0 → room + tree_agg t ≤ B63 →
  let run := λ req rf result, process_request distribute fuel h alloc req None rf result mode in
  calls run room (req0, Some rf0) out (req, rf) →
  out = take (Z.to_nat (type_offset req)) (elem t 0) ∧
  0 ≤ type_offset req ≤ tree_agg t ∧
  (type_offset req < tree_agg t → ∀ result, fresh_result result → bytemax result < room →
   ∃ req' mem rf' result', run req rf result = Done (0, req', mem, rf', result') ∧
     type_offset req < type_offset req').
Proof.
  intros Hr Hg Hf Hc Hrange Hm Hsk Hnew Hroom run Hcalls.
  pose proof (new_state_spec _ _ _ _ _ Hr Hg Hnew) as (Hcur & Hl & Hb & Hto & Hta & Hfi & Hd).
  destruct (fresh_walk h req0 p t 1 Hr Hg ltac:(lia) Hcur Hl Hb Hd) as (Hwk & Htd & Hco).
  pose proof (good_agg t Hg) as Hag. pose proof Hg as (_ & Hwf & Hsz & _).
  assert (tree_agg t < B63) by (destruct t; [done|]; destruct Hwf as (_ & _ & ? & _); cbn; lia).
  rewrite elems_1 in Htd. pose proof (Hsz 0) as Hlen.
  pose proof (λ req0 req rf result ps L Hset, process_request_spec distribute fuel h (λ b, [b]) (λ _, True)
    mem_mode B63 False ltac:(lia) mem_mode_clr (mem_region distribute) alloc req0 req None rf result
    mode ps L Hset Hsk Hm (mem_mode_set _ Hm) (set_skip _)) as Hcall.
  assert (∀ req ps, walk h req ps → ps ≠ [] → bottom ps = Some (t, 1) →
    final_offset req = tree_agg t → process_setup h req None mode = Done req) as Hset.
  { intros r [|q ps] (D & Hlr & _) Hps _ _; [done|]. apply mem_setup; [done|]. cbn in Hlr. lia. }
  assert (under_way fuel h mode t 1 0 (tree_agg t) req0) as Hu0.
  { split_and!; try done; try lia. intros _. exists req0, [first_pos t 1 0].
    rewrite Hto, elems_1. split_and!; try done; try lia; [|by constructor].
    apply mem_setup; [done|lia]. }
  destruct (calls_under_way distribute fuel h alloc mode (λ b, [b]) (λ _, True) B63 False Hcall
    t 1 0 (tree_agg t) Hset) with room req0 rf0 out req rf as (Hu & (rf' & -> & _) & ->);
    rewrite ?elems_1; try done; try lia.
  pose proof Hu as (_ & _ & Hn & _). split_and!; try lia.
  { rewrite bind_single. unfold wanted. rewrite elems_1, Z.sub_0_r. by rewrite drop_0. }
  intros Hlt result Hem Hbm.
  destruct (call_under_way distribute fuel h alloc mode (λ b, [b]) (λ _, True) B63 False Hcall
    t 1 0 (tree_agg t) Hset) with req rf' result as (req' & mem & rf'' & result' & Hp & _ & _ & _ & Hpr);
    rewrite ?elems_1; try done; try lia.
  exists req', mem, (Some rf''), result'. split; [done|]. by destruct Hpr as [?|[[] _]].
Qed.

(** * The calls for a file request on a server *)

(** C8. Processing a file request on a server.  The request is well formed, its
    blocks do not overlap and do not go backwards ([good]), and it is repeated
    to cover the file from the target offset [T] to the final offset [F] of its
    byte stream.  However small the results are, the calls output in order the
    physical offsets of exactly those of the bytes processed that the server
    stores; as long as [F] is not reached the next call returns 0, and either
    processes more bytes or reports the end of the file. *)
Theorem server_calls_output {params : Type} process_mem fuel h alloc mode junk p t
    (m : PINT_dist_methods params) prm fd owned lim T F req0 room out req rf :
  (∀ n, DistLaws m prm (set_fsize fd n) owned lim) → 0 ≤ fsize fd < B63 →
  repr h p t → good t → 0 < tree_agg t → (tree_size t ≤ fuel)%nat →
  (cost_elems t (tiles t F) < fuel)%nat →
  Forall (λ b, 0 ≤ b < lim - 1) (elems t (tiles t F) 0) →
  server_mode mode → PINT_IS_LOGICAL_SKIP mode = false →
  PINT_new_request_state h junk p = Done req0 → 0 ≤ T ≤ F → 0 ≤ room → room + F + tree_agg t < B63 →
  let run := λ req rf result,
    process_request (PINT_distribute process_mem) fuel h alloc req None rf result mode in
  let start := PINT_REQUEST_STATE_SET_FINAL (PINT_REQUEST_STATE_SET_TARGET req0 T) F in
  calls run room (start, Some (mkRfdata fd (Some (mkDist params (Some prm) (Some m))))) out (req, rf) →
  out = map (rank owned) (filter (λ b, owned b = true)
    (take (Z.to_nat (type_offset req - T)) (drop (Z.to_nat T) (elems t (tiles t F) 0)))) ∧
  0 ≤ type_offset req ≤ F ∧
  (type_offset req < F → ∀ result, fresh_result result → bytemax result < room →
   ∃ req' mem rf' result', run req rf result = Done (0, req', mem, rf', result') ∧
     (type_offset req < type_offset req' ∨ eof_flag req' = true)).
Proof.
  intros Laws Hfs Hr Hg Ha Hf Hc Hrange Hm Hsk Hnew HT Hroom0 Hroom run start Hcalls.
  pose proof (new_state_spec _ _ _ _ _ Hr Hg Hnew) as (Hcur & Hl & Hb & Hto & Hta & Hfi & Hd).
  pose proof (tiles_size t F Ha ltac:(lia)) as [Htl Htl1]. pose proof Hg as (Hnn & Hwf & Hsz & _).
  pose proof (length_elems t (tiles t F) 0 Hsz ltac:(lia)) as Hlen.
  pose proof (dl_lim (DistLaws := Laws 0)) as Hlim.
  assert (PINT_IS_MEMREQ mode = false) as Hmem by (by destruct Hm).
  pose proof (λ req0 req rf result ps L Hset, process_request_spec (PINT_distribute process_mem) fuel h
    (physical owned) (file_of m prm fd) server_mode lim True ltac:(lia) server_mode_clr
    (server_region m prm fd owned lim Laws process_mem) alloc req0 req None rf result
    mode ps L Hset Hsk Hm (server_mode_set _ Hm) (set_skip _)) as Hcall.
  assert (∀ req ps, walk h req ps → ps ≠ [] → bottom ps = Some (t, tiles t F) →
    final_offset req = F → process_setup h req None mode = Done req) as Hset.
  { intros r ps Hwk Hps Hbt HF. apply (file_setup_again h r mode ps t); try done; [lia|congruence]. }
  assert (under_way fuel h mode t (tiles t F) T F start) as Hu0.
  { unfold start. split_and!; cbn; rewrite ?Hto; try done; try lia. intros _.
    set (s0 := mkReqstack 0 (tiles t F) p p 0 0).
    exists (set_cur start (<[0%nat := s0]> (cur start))), [first_pos t (tiles t F) 0].
    destruct (fresh_walk h (set_cur start (<[0%nat := s0]> (cur start))) p t (tiles t F))
      as (Hwk & Htd & Hco); try done; [lia|..].
    { cbn. apply list_lookup_insert_eq. by eapply lookup_lt_Some. }
    { cbn. by rewrite length_insert. }
    split_and!; try done; try (cbn; lia); try by constructor.
    - apply (file_setup h start mode (mkReqstack 0 1 p p 0 0) p t); try done; cbn; lia.
    - lia. }
  assert (file_of m prm fd (mkRfdata fd (Some (mkDist params (Some prm) (Some m))))) as Hrf.
  { exists (fsize fd). split; [done|]. f_equal. by destruct fd. }
  destruct (calls_under_way (PINT_distribute process_mem) fuel h alloc mode (physical owned)
    (file_of m prm fd) lim True Hcall t (tiles t F) T F Hset) with room start
    (mkRfdata fd (Some (mkDist params (Some prm) (Some m)))) out req rf as (Hu & (rf' & -> & Hrf') & ->);
    try done; try lia; [cbn; lia|].
  pose proof Hu as (_ & _ & Hn & _). split_and!; try lia; [by rewrite physical_seq|].
  intros Hlt result Hem Hbm.
  destruct (call_under_way (PINT_distribute process_mem) fuel h alloc mode (physical owned)
    (file_of m prm fd) lim True Hcall t (tiles t F) T F Hset) with req rf' result
    as (req' & mem & rf'' & result' & Hp & _ & _ & _ & Hpr); try done; try lia.
  exists req', mem, (Some rf''), result'. split; [done|]. tauto.
Qed.

(** * Examples *)

(** Two blocks of two bytes, four bytes apart. *)
Definition pairs_struct : PINT_Request := mkRequest 0 2 2 4 6 0 4 2 2 1 0 1 (Some 1%positive) None.
Definition pairs_heap : req_heap := {[1%positive := PINT_BYTE; 2%positive := pairs_struct]}.
Definition pairs_tree : rtree :=
  RReq 2 (strip pairs_struct) (RReq 1 (strip PINT_BYTE) RNull RNull) RNull.

Lemma pairs_good : repr pairs_heap (Some 2%positive) pairs_tree ∧ good pairs_tree.
Proof.
  split; [cbn; split_and!; eauto|].
  apply vector_good; [by apply elementary_good|..]; cbn; try lia. 
Qed.

Lemma fresh_empty n b : 0 < Z.of_nat n < B31 → 0 < b < B63 → fresh_result (empty_result n b).
Proof. intros Hn Hb. split_and!; try done; [|cbn; lia..]. apply empty_result_ok; lia. Qed.

Definition no_level : PINT_reqstack := mkReqstack 0 0 None None 0 0.

Definition pairs_state : PINT_Request_state :=
  mkState [mkReqstack 0 1 (Some 2%positive) (Some 2%positive) 0 0; no_level] 0 0 0 0 4 false.
Definition pairs_state3 : PINT_Request_state :=
  mkState [mkReqstack 0 1 (Some 2%positive) (Some 2%positive) 1 0; no_level] 0 1 3 0 4 false.
Definition no_file : PINT_request_file_data := mkRfdata (mkFileData 0 0 1 false) None.

(** A call with room for three bytes. *)
Lemma mem_calls_output_witness :
  let run := λ req rf result,
    process_request (λ _ _ _ _ _ _, Fault BadAccess) 20 pairs_heap true req None rf result PINT_MEMREQ in
  PINT_new_request_state pairs_heap (λ _, no_level) (Some 2%positive) = Done pairs_state ∧
  ∃ out, calls run 10 (pairs_state, Some no_file) out (pairs_state3, Some no_file) ∧
    out = take 3 (elem pairs_tree 0).
Proof.
  intros run. split; [vm_compute; reflexivity|].
  assert (∃ out, calls run 10 (pairs_state, Some no_file) out (pairs_state3, Some no_file)) as [out Hc].
  { eexists. apply (calls_step _ _ _ [] pairs_state (Some no_file) (empty_result 3 3) 0 _ None _
      (mkResult (Some [0; 4; 0]) (Some [2; 1; 0]) 3 2 3 3)); [apply calls_nil|done|by apply fresh_empty|done|].
    vm_compute. reflexivity. }
  exists out. split; [exact Hc|]. destruct pairs_good as [Hr Hg].
  destruct (mem_calls_output (λ _ _ _ _ _ _, Fault BadAccess) 20 pairs_heap true PINT_MEMREQ (λ _, no_level)
    (Some 2%positive) pairs_tree pairs_state no_file 10 out pairs_state3 (Some no_file) Hr Hg) as [Hout _];
    [vm_compute; lia|vm_compute; lia|by repeat constructor|done|done|vm_compute; reflexivity|done|exact Hc|].
  exact Hout.
Defined.

(** Server 0 of two with strips of two bytes, asked for bytes 1 to 5 of the
    pairs: the first call returns and processes some of them. *)
Lemma server_calls_output_witness :
  let prm := {| strip_size := 2 |} in
  let fd := mkFileData 100 0 2 false in
  let rf := mkRfdata fd (Some (mkDist _ (Some prm) (Some simple_stripe_methods))) in
  let start := PINT_REQUEST_STATE_SET_FINAL (PINT_REQUEST_STATE_SET_TARGET pairs_state 1) 6 in
  ∃ req' mem rf' result',
    process_request (PINT_distribute (λ _ _ _ _, Fault OutOfFuel)) 20 pairs_heap true start None
      (Some rf) (empty_result 3 2) PINT_SERVER = Done (0, req', mem, rf', result') ∧
    (type_offset start < type_offset req' ∨ eof_flag req' = true).
Proof.
  intros prm fd rf start. destruct pairs_good as [Hr Hg].
  destruct (server_calls_output (λ _ _ _ _, Fault OutOfFuel) 20 pairs_heap true PINT_SERVER
    (λ _, no_level) (Some 2%positive) pairs_tree simple_stripe_methods prm fd (owned prm fd)
    (B63 - server_ct fd * strip_size prm) 1 6 pairs_state 10 [] start (Some rf)) as (_ & _ & Hstep);
    [apply simple_stripe_laws_fsize; vm_decide|cbn; lia|done|done|cbn; lia|vm_compute; lia|vm_compute; lia|
     by repeat constructor|done|done|vm_compute; reflexivity|lia|lia|cbn; lia|apply calls_nil|].
  apply Hstep; [done|by apply fresh_empty|done].
Defined.

(** C10. Blocks that are not in ascending order.  An indexed request of bytes
    with blocks of four bytes at 4 and at 0 means the bytes 4 to 7 and then 0
    to 3, but its size is its extent and [PINT_process_request] asks the
    element type for the number of contiguous chunks instead of the request,
    so that it outputs the bytes 4 to 11. *)
Theorem hindexed_out_of_order :
  ∃ h r2 r3 req result,
    PVFS_Request_hindexed [3%positive; 2%positive] byte_heap [(4, 4); (4, 0)] (Some 1%positive) =
      Done (PVFS_SUCCESS, Some 2%positive, h) ∧
    repr h (Some 2%positive) (RReq 2 r2 byte_tree (RReq 3 r3 byte_tree RNull)) ∧
    num_contig_chunks r2 = 2 ∧
    elem (RReq 2 r2 byte_tree (RReq 3 r3 byte_tree RNull)) 0 = [4; 5; 6; 7; 0; 1; 2; 3] ∧
    PINT_new_request_state h (λ _, no_level) (Some 2%positive) = Done req ∧
    (∃ req', process_request (λ _ _ _ _ _ _, Fault BadAccess) 20 h true req None (Some no_file)
      (empty_result 10 100) PINT_MEMREQ = Done (0, req', None, Some no_file, result)) ∧
    expand (segments result) = [4; 5; 6; 7; 8; 9; 10; 11].
Proof.
  destruct (PVFS_Request_hindexed [3%positive; 2%positive] byte_heap [(4, 4); (4, 0)] (Some 1%positive))
    as [[[ret q] h]|] eqn:E; [|vm_compute in E; discriminate].
  vm_compute in E. injection E as <- <- <-.
  do 5 eexists. split; [reflexivity|]. split; [cbn; split_and!; eauto|].
  do 3 (split; [vm_compute; reflexivity|]). split; [eexists|]; vm_compute; reflexivity.
Qed.
