(* ===== verification/Avl.v ===== *)
(** src/src/io/trove/trove-handle-mgmt/avltree.c: the AVL tree that indexes
    free handle extents.

    The C code recurses with the address of a pointer to a node and rebuilds
    the tree in place; every node has one owner, so a function that updates
    [*n] is a function from the old tree to the new one.  Following a NULL
    pointer is [Fault BadAccess]; the theorems show that it never happens on a
    tree whose skew flags are right. *)

From stdpp Require Import list numbers sorting sets.
From S2P Require Import Prelude.

(** Which of a given node's subtrees is higher? *)
Inductive AVLSKEW := NONE | LEFT | RIGHT.

(** Did a given insertion or deletion succeed, and what do we do next? *)
Inductive AVLRES := ERROR | OK | BALANCE.

#[export] Instance AVLSKEW_eq_dec : EqDecision AVLSKEW.
Proof. solve_decision. Defined.
#[export] Instance AVLRES_eq_dec : EqDecision AVLRES.
Proof. solve_decision. Defined.

Inductive avlnode (datum : Type) :=
  | NULL
  | Node (left : avlnode datum) (d : datum) (skew : AVLSKEW) (right : avlnode datum).
Arguments NULL {datum}.
Arguments Node {datum} _ _ _ _.

(** Lookup by the second key, [AVLALTKEY]. *)
Fixpoint avlaltaccess {datum : Type} (AVLALTKEY : datum → Z) (n : avlnode datum)
    (key : Z) : option datum :=
  match n with
  | NULL => None
  | Node l d _ r =>
      if decide (key < AVLALTKEY d) then avlaltaccess AVLALTKEY l key
      else if decide (key > AVLALTKEY d) then avlaltaccess AVLALTKEY r key
      else Some d
  end.

Section avltree.
(** [AVLDATUM], and the macro [AVLKEY] of its user. *)
Context {datum : Type} (AVLKEY : datum → Z).
Abbreviation tree := (avlnode datum).

(** Counterclockwise rotation. *)
Definition avlrotleft (n : tree) : exec tree :=
  match n with
  | Node a x sx (Node b y sy c) => Done (Node (Node a x sx b) y sy c)
  | _ => Fault BadAccess
  end.

(** Clockwise rotation. *)
Definition avlrotright (n : tree) : exec tree :=
  match n with
  | Node (Node a x sx b) y sy c => Done (Node a x sx (Node b y sy c))
  | _ => Fault BadAccess
  end.

(** The left subtree has just grown. *)
Definition avlleftgrown (n : tree) : exec (AVLRES * tree) :=
  match n with
  | NULL => Fault BadAccess
  | Node l d LEFT r =>
      match l with
      | NULL => Fault BadAccess
      | Node ll ld LEFT lr =>
          n' ← avlrotright (Node (Node ll ld NONE lr) d NONE r);
          Done (OK, n')
      | Node ll ld _ (Node lrl lrd lrs lrr) =>
          let '(s, ls) :=
            match lrs with
            | LEFT => (RIGHT, NONE)
            | RIGHT => (NONE, LEFT)
            | NONE => (NONE, NONE)
            end in
          l' ← avlrotleft (Node ll ld ls (Node lrl lrd NONE lrr));
          n' ← avlrotright (Node l' d s r);
          Done (OK, n')
      | Node _ _ _ NULL => Fault BadAccess
      end
  | Node l d RIGHT r => Done (OK, Node l d NONE r)
  | Node l d NONE r => Done (BALANCE, Node l d LEFT r)
  end.

(** The right subtree has just grown. *)
Definition avlrightgrown (n : tree) : exec (AVLRES * tree) :=
  match n with
  | NULL => Fault BadAccess
  | Node l d LEFT r => Done (OK, Node l d NONE r)
  | Node l d RIGHT r =>
      match r with
      | NULL => Fault BadAccess
      | Node rl rd RIGHT rr =>
          n' ← avlrotleft (Node l d NONE (Node rl rd NONE rr));
          Done (OK, n')
      | Node (Node rll rld rls rlr) rd _ rr =>
          let '(s, rs) :=
            match rls with
            | RIGHT => (LEFT, NONE)
            | LEFT => (NONE, RIGHT)
            | NONE => (NONE, NONE)
            end in
          r' ← avlrotright (Node (Node rll rld NONE rlr) rd rs rr);
          n' ← avlrotleft (Node l d s r');
          Done (OK, n')
      | Node NULL _ _ _ => Fault BadAccess
      end
  | Node l d NONE r => Done (BALANCE, Node l d RIGHT r)
  end.

(** Insertion; [alloc] says whether the one [malloc] of the call succeeds. *)
Fixpoint avlinsert (alloc : bool) (n : tree) (d : datum) : exec (AVLRES * tree) :=
  match n with
  | NULL => if alloc then Done (BALANCE, Node NULL d NONE NULL) else Done (ERROR, NULL)
  | Node l nd s r =>
      if decide (AVLKEY d < AVLKEY nd) then
        '(tmp, l') ← avlinsert alloc l d;
        if decide (tmp = BALANCE) then avlleftgrown (Node l' nd s r)
        else Done (tmp, Node l' nd s r)
      else if decide (AVLKEY d > AVLKEY nd) then
        '(tmp, r') ← avlinsert alloc r d;
        if decide (tmp = BALANCE) then avlrightgrown (Node l nd s r')
        else Done (tmp, Node l nd s r')
      else Done (ERROR, n)
  end.

(** The left subtree has just shrunk. *)
Definition avlleftshrunk (n : tree) : exec (AVLRES * tree) :=
  match n with
  | NULL => Fault BadAccess
  | Node l d LEFT r => Done (BALANCE, Node l d NONE r)
  | Node l d RIGHT r =>
      match r with
      | NULL => Fault BadAccess
      | Node rl rd RIGHT rr =>
          n' ← avlrotleft (Node l d NONE (Node rl rd NONE rr));
          Done (BALANCE, n')
      | Node rl rd NONE rr =>
          n' ← avlrotleft (Node l d RIGHT (Node rl rd LEFT rr));
          Done (OK, n')
      | Node (Node rll rld rls rlr) rd LEFT rr =>
          let '(s, rs) :=
            match rls with
            | LEFT => (NONE, RIGHT)
            | RIGHT => (LEFT, NONE)
            | NONE => (NONE, NONE)
            end in
          r' ← avlrotright (Node (Node rll rld NONE rlr) rd rs rr);
          n' ← avlrotleft (Node l d s r');
          Done (BALANCE, n')
      | Node NULL _ LEFT _ => Fault BadAccess
      end
  | Node l d NONE r => Done (OK, Node l d RIGHT r)
  end.

(** The right subtree has just shrunk. *)
Definition avlrightshrunk (n : tree) : exec (AVLRES * tree) :=
  match n with
  | NULL => Fault BadAccess
  | Node l d RIGHT r => Done (BALANCE, Node l d NONE r)
  | Node l d LEFT r =>
      match l with
      | NULL => Fault BadAccess
      | Node ll ld LEFT lr =>
          n' ← avlrotright (Node (Node ll ld NONE lr) d NONE r);
          Done (BALANCE, n')
      | Node ll ld NONE lr =>
          n' ← avlrotright (Node (Node ll ld RIGHT lr) d LEFT r);
          Done (OK, n')
      | Node ll ld RIGHT (Node lrl lrd lrs lrr) =>
          let '(s, ls) :=
            match lrs with
            | LEFT => (RIGHT, NONE)
            | RIGHT => (NONE, LEFT)
            | NONE => (NONE, NONE)
            end in
          l' ← avlrotleft (Node ll ld ls (Node lrl lrd NONE lrr));
          n' ← avlrotright (Node l' d s r);
          Done (BALANCE, n')
      | Node _ _ RIGHT NULL => Fault BadAccess
      end
  | Node l d NONE r => Done (OK, Node l d LEFT r)
  end.

(** Takes the highest item out of a subtree; [Some d] is the datum the C
    function stores in its target node, [None] the return value 0. *)
Fixpoint avlfindhighest (n : tree) : exec (option datum * AVLRES * tree) :=
  match n with
  | NULL => Done (None, BALANCE, NULL)
  | Node l d s NULL => Done (Some d, BALANCE, l)
  | Node l d s r =>
      '(found, res, r') ← avlfindhighest r;
      match found with
      | None => Done (None, res, Node l d s r')
      | Some x =>
          if decide (res = BALANCE) then
            '(res', n') ← avlrightshrunk (Node l d s r'); Done (Some x, res', n')
          else Done (Some x, res, Node l d s r')
      end
  end.

(** Takes the lowest item out of a subtree. *)
Fixpoint avlfindlowest (n : tree) : exec (option datum * AVLRES * tree) :=
  match n with
  | NULL => Done (None, BALANCE, NULL)
  | Node NULL d s r => Done (Some d, BALANCE, r)
  | Node l d s r =>
      '(found, res, l') ← avlfindlowest l;
      match found with
      | None => Done (None, res, Node l' d s r)
      | Some x =>
          if decide (res = BALANCE) then
            '(res', n') ← avlleftshrunk (Node l' d s r); Done (Some x, res', n')
          else Done (Some x, res, Node l' d s r)
      end
  end.

(** The second half of [avlremove], at the node that holds the key: replace
    its datum by the nearest one of a subtree, or free the node. *)
Definition avlremove_here (l : tree) (d : datum) (s : AVLSKEW) (r : tree)
    : exec (AVLRES * tree) :=
  '(fl, tmp, l') ← (match l with NULL => Done (None, BALANCE, l) | _ => avlfindhighest l end);
  match fl with
  | Some x =>
      if decide (tmp = BALANCE) then avlleftshrunk (Node l' x s r)
      else Done (tmp, Node l' x s r)
  | None =>
      '(fr, tmp, r') ← (match r with NULL => Done (None, BALANCE, r) | _ => avlfindlowest r end);
      match fr with
      | Some x =>
          if decide (tmp = BALANCE) then avlrightshrunk (Node l' x s r')
          else Done (tmp, Node l' x s r')
      | None => Done (BALANCE, NULL)
      end
  end.

Fixpoint avlremove (n : tree) (key : Z) : exec (AVLRES * tree) :=
  match n with
  | NULL => Done (ERROR, NULL)
  | Node l d s r =>
      if decide (key < AVLKEY d) then
        '(tmp, l') ← avlremove l key;
        if decide (tmp = BALANCE) then avlleftshrunk (Node l' d s r)
        else Done (tmp, Node l' d s r)
      else if decide (key > AVLKEY d) then
        '(tmp, r') ← avlremove r key;
        if decide (tmp = BALANCE) then avlrightshrunk (Node l d s r')
        else Done (tmp, Node l d s r')
      else avlremove_here l d s r
  end.

Fixpoint avlaccess (n : tree) (key : Z) : option datum :=
  match n with
  | NULL => None
  | Node l d _ r =>
      if decide (key < AVLKEY d) then avlaccess l key
      else if decide (key > AVLKEY d) then avlaccess r key
      else Some d
  end.

Fixpoint avlgethighest (n : tree) : option datum :=
  match n with
  | NULL => None
  | Node _ d _ NULL => Some d
  | Node _ _ _ r => avlgethighest r
  end.

(** In-order and post-order traversal; the worker function updates a state
    [S] and is passed the datum, the parameter and the depth. *)
Fixpoint avldepthfirst {S : Type} (f : datum → Z → Z → S → S) (n : tree)
    (param depth : Z) (st : S) : S :=
  match n with
  | NULL => st
  | Node l d _ r =>
      avldepthfirst f r param (i32 (depth + 1))
        (f d param depth (avldepthfirst f l param (i32 (depth + 1)) st))
  end.

Fixpoint avlpostorder {S : Type} (f : datum → Z → Z → S → S) (n : tree)
    (param depth : Z) (st : S) : S :=
  match n with
  | NULL => st
  | Node l d _ r =>
      f d param depth
        (avlpostorder f r param (i32 (depth + 1))
           (avlpostorder f l param (i32 (depth + 1)) st))
  end.

(** * Specification *)

Fixpoint height (n : tree) : nat :=
  match n with NULL => 0 | Node l _ _ r => S (height l `max` height r) end.

(** The items of a tree in order. *)
Fixpoint elements (n : tree) : list datum :=
  match n with NULL => [] | Node l d _ r => elements l ++ d :: elements r end.

(** The skew flag tells the difference in height. *)
Definition skewed (s : AVLSKEW) (hl hr : nat) : Prop :=
  match s with NONE => hl = hr | LEFT => hl = S hr | RIGHT => hr = S hl end.

Fixpoint balanced (n : tree) : Prop :=
  match n with
  | NULL => True
  | Node l _ s r => balanced l ∧ balanced r ∧ skewed s (height l) (height r)
  end.

Definition root_skew (n : tree) : AVLSKEW :=
  match n with NULL => NONE | Node _ _ s _ => s end.

Definition key_lt (a b : datum) : Prop := AVLKEY a < AVLKEY b.

(** The invariant of the index: balanced, and sorted by key. *)
Definition avl (n : tree) : Prop :=
  balanced n ∧ StronglySorted key_lt (elements n).

(** * Rebalancing *)

(** What is left of the heights when one subtree of a node has grown. *)
Definition grown (h : nat) (n' : tree) (res : AVLRES) : Prop :=
  res = OK ∧ height n' = h ∨
  res = BALANCE ∧ height n' = S h ∧ (h = 0%nat ∨ root_skew n' ≠ NONE).

(** And when one has shrunk. *)
Definition shrunk (h : nat) (n' : tree) (res : AVLRES) : Prop :=
  res = OK ∧ height n' = h ∨ res = BALANCE ∧ S (height n') = h.

(** [avl_done] closes a case where the shape of the tree is known. *)
Ltac avl_done :=
  do 2 eexists; split; [reflexivity|]; simpl in *; destruct_and?;
  unfold grown, shrunk in *; simpl;
  split_and!; simpl; try lia; try done;
  first
    [ repeat (rewrite <- app_assoc; simpl); reflexivity
    | left; split; [done|lia]
    | right; split_and!; (done || lia || (by right)) ].

Lemma leftgrown_spec l d s r :
  balanced l → balanced r → skewed s (pred (height l)) (height r) →
  (height l = 1%nat ∨ root_skew l ≠ NONE) → height l ≠ 0%nat →
  ∃ res n', avlleftgrown (Node l d s r) = Done (res, n') ∧ balanced n' ∧
    elements n' = elements l ++ d :: elements r ∧
    grown (S (pred (height l) `max` height r)) n' res.
Proof.
  intros Hl Hr Hs Hk Hh. destruct s; simpl in Hs.
  - avl_done.
  - destruct l as [|ll ld [] lr]; simpl in *; [lia|destruct Hk; [lia|done]| |].
    + avl_done.
    + destruct lr as [|? ? [] ?]; simpl in *; [lia|avl_done..].
  - avl_done.
Qed.

Lemma rightgrown_spec l d s r :
  balanced l → balanced r → skewed s (height l) (pred (height r)) →
  (height r = 1%nat ∨ root_skew r ≠ NONE) → height r ≠ 0%nat →
  ∃ res n', avlrightgrown (Node l d s r) = Done (res, n') ∧ balanced n' ∧
    elements n' = elements l ++ d :: elements r ∧
    grown (S (height l `max` pred (height r))) n' res.
Proof.
  intros Hl Hr Hs Hk Hh. destruct s; simpl in Hs; [avl_done..|].
  destruct r as [|rl rd [] rr]; simpl in *; [lia|destruct Hk; [lia|done]| |destruct rl; avl_done].
  destruct rl as [|? ? [] ?]; simpl in *; [lia|avl_done..].
Qed.

Lemma leftshrunk_spec l d s r :
  balanced l → balanced r → skewed s (S (height l)) (height r) →
  ∃ res n', avlleftshrunk (Node l d s r) = Done (res, n') ∧ balanced n' ∧
    elements n' = elements l ++ d :: elements r ∧
    shrunk (S (S (height l) `max` height r)) n' res.
Proof.
  intros Hl Hr Hs. destruct s; simpl in Hs; [avl_done..|].
  destruct r as [|rl rd [] rr]; simpl in *; [lia|destruct rl; avl_done| |destruct rl; avl_done].
  destruct rl as [|? ? [] ?]; simpl in *; [lia|avl_done..].
Qed.

Lemma rightshrunk_spec l d s r :
  balanced l → balanced r → skewed s (height l) (S (height r)) →
  ∃ res n', avlrightshrunk (Node l d s r) = Done (res, n') ∧ balanced n' ∧
    elements n' = elements l ++ d :: elements r ∧
    shrunk (S (height l `max` S (height r))) n' res.
Proof.
  intros Hl Hr Hs. destruct s; simpl in Hs; [avl_done| |avl_done].
  destruct l as [|ll ld [] lr]; simpl in *; [lia|avl_done..|].
  destruct lr as [|? ? [] ?]; simpl in *; [lia|avl_done..].
Qed.

#[local] Arguments avlleftgrown : simpl never.
#[local] Arguments avlrightgrown : simpl never.
#[local] Arguments avlleftshrunk : simpl never.
#[local] Arguments avlrightshrunk : simpl never.

(** * Sorted lists *)

Lemma sorted_mid l1 x l2 :
  StronglySorted key_lt (l1 ++ x :: l2) ↔
  StronglySorted key_lt l1 ∧ StronglySorted key_lt l2 ∧
  Forall (λ y, key_lt y x) l1 ∧ Forall (key_lt x) l2.
Proof.
  induction l1 as [|y l1 IH]; simpl.
  - split; [intros [? ?]%StronglySorted_inv; split_and!; (done || constructor)|].
    intros (_ & ? & _ & ?). by constructor.
  - split.
    + intros [H1 H2]%StronglySorted_inv. apply IH in H1 as (? & ? & ? & ?).
      apply Forall_app in H2 as [? H2]. apply Forall_cons in H2 as [? ?].
      split_and!; try done; by constructor.
    + intros (H1 & ? & H3 & H4). apply StronglySorted_inv in H1 as [? ?].
      apply Forall_cons in H3 as [Hyx ?]. constructor; [by apply IH|].
      apply Forall_app. split; [done|]. constructor; [done|].
      eapply Forall_impl; [exact H4|]. unfold key_lt in *. intros. lia.
Qed.

(** [l'] is [l] with [d] added at its place. *)
Definition added (d : datum) (l l' : list datum) : Prop :=
  ∃ l1 l2, l = l1 ++ l2 ∧ l' = l1 ++ d :: l2 ∧
    Forall (λ y, key_lt y d) l1 ∧ Forall (key_lt d) l2.

(** [l'] is [l] without its item [d]. *)
Definition removed (d : datum) (l l' : list datum) : Prop :=
  ∃ l1 l2, l = l1 ++ d :: l2 ∧ l' = l1 ++ l2.

Lemma sorted_app_inv l1 l2 :
  StronglySorted key_lt (l1 ++ l2) → StronglySorted key_lt l1 ∧ StronglySorted key_lt l2.
Proof.
  induction l1 as [|x l1 IH]; simpl; [intros; split; [constructor|done]|].
  intros [H1 H2]%StronglySorted_inv. apply IH in H1 as [? ?].
  apply Forall_app in H2 as [? ?]. split; [by constructor|done].
Qed.

Lemma added_sorted d l l' :
  StronglySorted key_lt l → added d l l' → StronglySorted key_lt l'.
Proof.
  intros Hs (l1 & l2 & -> & -> & H1 & H2). apply sorted_mid.
  apply sorted_app_inv in Hs as [? ?]. done.
Qed.

Lemma removed_sorted d l l' :
  StronglySorted key_lt l → removed d l l' → StronglySorted key_lt l'.
Proof.
  intros Hs (l1 & l2 & -> & ->). revert Hs.
  induction l1 as [|x l1 IH]; simpl; intros [H1 H2]%StronglySorted_inv; [done|].
  constructor; [by apply IH|]. apply Forall_app in H2 as [? H2].
  apply Forall_cons in H2 as [_ ?]. by apply Forall_app.
Qed.

(** Insertion into the lower or upper part of a sorted list. *)
Lemma added_left d l l' x r :
  added d l l' → key_lt d x → Forall (key_lt x) r → added d (l ++ x :: r) (l' ++ x :: r).
Proof.
  intros (l1 & l2 & -> & -> & H1 & H2) Hx Hr. exists l1, (l2 ++ x :: r).
  rewrite <- !app_assoc. split_and!; try done.
  apply Forall_app; split; [done|]. constructor; [done|].
  eapply Forall_impl; [exact Hr|]. unfold key_lt in *. intros; lia.
Qed.

Lemma added_right d l x r r' :
  added d r r' → key_lt x d → Forall (λ y, key_lt y x) l →
  added d (l ++ x :: r) (l ++ x :: r').
Proof.
  intros (l1 & l2 & -> & -> & H1 & H2) Hx Hl. exists (l ++ x :: l1), l2.
  rewrite <- !app_assoc. split_and!; try done.
  apply Forall_app; split; [|by constructor].
  eapply Forall_impl; [exact Hl|]. unfold key_lt in *. intros; lia.
Qed.

Lemma removed_left d l l' r : removed d l l' → removed d (l ++ r) (l' ++ r).
Proof.
  intros (l1 & l2 & -> & ->). exists l1, (l2 ++ r). by rewrite <- !app_assoc.
Qed.

Lemma removed_right d l r r' : removed d r r' → removed d (l ++ r) (l ++ r').
Proof.
  intros (l1 & l2 & -> & ->). exists (l ++ l1), l2. by rewrite <- !app_assoc.
Qed.

(** * Insertion *)

Lemma insert_spec alloc n d :
  avl n →
  ∃ res n', avlinsert alloc n d = Done (res, n') ∧
    (res = ERROR ∧ n' = n ∧
       (alloc = false ∨ ∃ x, x ∈ elements n ∧ AVLKEY x = AVLKEY d) ∨
     alloc = true ∧ balanced n' ∧ added d (elements n) (elements n') ∧
       grown (height n) n' res).
Proof.
  induction n as [|l IHl x s r IHr]; simpl; intros [Hb Hs].
  { destruct alloc; do 2 eexists; (split; [reflexivity|]); [right|by left; eauto].
    split_and!; try done; [by exists [], []|]. right. split_and!; (done || by left). }
  simpl in *. destruct Hb as (Hbl & Hbr & Hsk). apply sorted_mid in Hs as (Hsl & Hsr & Hll & Hrr).
  repeat case_decide.
  - destruct IHl as (res & l' & -> & [(-> & -> & H')|(-> & Hb & Hadd & Hg)]); [done| |].
    { simpl. do 2 eexists. split; [reflexivity|]. left. split_and!; try done.
      destruct H' as [?|(y & ? & ?)]; [by left|right]. exists y. set_solver. }
    assert (added d (elements l ++ x :: elements r) (elements l' ++ x :: elements r))
      as Hadd' by by apply added_left.
    destruct Hg as [(-> & Hh)|(-> & Hh & Hk)]; simpl.
    + do 2 eexists. split; [reflexivity|]. right. split_and!; simpl; try done; [by rewrite Hh|].
      left. by rewrite <- Hh.
    + destruct (leftgrown_spec l' x s r) as (res & n' & -> & Hb' & He & Hg); try done.
      { by rewrite Hh. } { destruct Hk as [Hk|]; [left; lia|by right]. } { lia. }
      do 2 eexists. split; [reflexivity|]. right. rewrite He. split_and!; try done.
      by rewrite Hh in Hg.
  - destruct IHr as (res & r' & -> & [(-> & -> & H')|(-> & Hb & Hadd & Hg)]); [done| |].
    { simpl. do 2 eexists. split; [reflexivity|]. left. split_and!; try done.
      destruct H' as [?|(y & ? & ?)]; [by left|right]. exists y. set_solver. }
    assert (added d (elements l ++ x :: elements r) (elements l ++ x :: elements r'))
      as Hadd' by (apply added_right; [done|unfold key_lt; lia|done]).
    destruct Hg as [(-> & Hh)|(-> & Hh & Hk)]; simpl.
    + do 2 eexists. split; [reflexivity|]. right. split_and!; simpl; try done; [by rewrite Hh|].
      left. by rewrite <- Hh.
    + destruct (rightgrown_spec l x s r') as (res & n' & -> & Hb' & He & Hg); try done.
      { by rewrite Hh. } { destruct Hk as [Hk|]; [left; lia|by right]. } { lia. }
      do 2 eexists. split; [reflexivity|]. right. rewrite He. split_and!; try done.
      by rewrite Hh in Hg.
  - do 2 eexists. split; [reflexivity|]. left. split_and!; try done. right.
    exists x. split; [set_solver|lia].
Qed.

(** * Removal *)

Lemma findhighest_spec n :
  balanced n → n ≠ NULL →
  ∃ x res n', avlfindhighest n = Done (Some x, res, n') ∧ balanced n' ∧
    elements n = elements n' ++ [x] ∧ shrunk (height n) n' res.
Proof.
  induction n as [|l _ d s r IHr]; [done|]. intros (Hl & Hr & Hs) _.
  assert (r = NULL ∨ r ≠ NULL) as [->|Hne] by (destruct r; auto).
  { exists d, BALANCE, l. split_and!; try done. right. simpl in *. split; [done|lia]. }
  replace (avlfindhighest (Node l d s r)) with
    ('(found, res, r') ← avlfindhighest r;
      match found with
      | None => Done (None, res, Node l d s r')
      | Some x =>
          if decide (res = BALANCE) then
            '(res', n') ← avlrightshrunk (Node l d s r'); Done (Some x, res', n')
          else Done (Some x, res, Node l d s r')
      end) by (by destruct r).
  destruct IHr as (x & res & r' & -> & Hb & He & Hg); [done..|]. simpl.
  destruct Hg as [(-> & Hh)|(-> & Hh)]; simpl.
  - do 3 eexists. split; [reflexivity|]. simpl. rewrite Hh, He, <- app_assoc.
    split_and!; try done. left. simpl. by rewrite Hh.
  - destruct (rightshrunk_spec l d s r') as (res & n' & -> & Hb' & He' & Hg'); try done.
    { by rewrite Hh. }
    simpl. do 3 eexists. split; [reflexivity|]. rewrite He, He', <- app_assoc, <- Hh. done.
Qed.

Lemma findlowest_spec n :
  balanced n → n ≠ NULL →
  ∃ x res n', avlfindlowest n = Done (Some x, res, n') ∧ balanced n' ∧
    elements n = x :: elements n' ∧ shrunk (height n) n' res.
Proof.
  induction n as [|l IHl d s r _]; [done|]. intros (Hl & Hr & Hs) _.
  assert (l = NULL ∨ l ≠ NULL) as [->|Hne] by (destruct l; auto).
  { exists d, BALANCE, r. split_and!; try done. right. simpl in *. split; [done|lia]. }
  replace (avlfindlowest (Node l d s r)) with
    ('(found, res, l') ← avlfindlowest l;
      match found with
      | None => Done (None, res, Node l' d s r)
      | Some x =>
          if decide (res = BALANCE) then
            '(res', n') ← avlleftshrunk (Node l' d s r); Done (Some x, res', n')
          else Done (Some x, res, Node l' d s r)
      end) by (by destruct l).
  destruct IHl as (x & res & l' & -> & Hb & He & Hg); [done..|]. simpl.
  destruct Hg as [(-> & Hh)|(-> & Hh)]; simpl.
  - do 3 eexists. split; [reflexivity|]. simpl. rewrite Hh, He.
    split_and!; try done. left. simpl. by rewrite Hh.
  - destruct (leftshrunk_spec l' d s r) as (res & n' & -> & Hb' & He' & Hg'); try done.
    { by rewrite Hh. }
    simpl. do 3 eexists. split; [reflexivity|]. rewrite He, He', <- Hh. done.
Qed.

Lemma remove_here_spec l d s r :
  balanced l → balanced r → skewed s (height l) (height r) →
  ∃ res n', avlremove_here l d s r = Done (res, n') ∧ balanced n' ∧
    elements n' = elements l ++ elements r ∧
    shrunk (S (height l `max` height r)) n' res.
Proof.
  intros Hl Hr Hs. unfold avlremove_here.
  assert (l = NULL ∨ l ≠ NULL) as [->|Hne] by (destruct l; auto).
  - simpl. assert (r = NULL ∨ r ≠ NULL) as [->|Hne] by (destruct r; auto).
    { do 2 eexists. split; [reflexivity|]. split_and!; try done. by right. }
    destruct (findlowest_spec r Hr Hne) as (x & res & r' & Hx & Hb & He & Hg).
    replace (match r with NULL => Done (None, BALANCE, r) | _ => avlfindlowest r end)
      with (avlfindlowest r) by (by destruct r).
    rewrite Hx. simpl. rewrite He. destruct Hg as [(-> & Hh)|(-> & Hh)]; simpl.
    + do 2 eexists. split; [reflexivity|]. simpl. rewrite Hh. split_and!; try done.
      left. simpl. by rewrite Hh.
    + destruct (rightshrunk_spec NULL x s r') as (? & ? & -> & ? & ? & Hg); try done.
      { by rewrite Hh. }
      do 2 eexists. split; [reflexivity|]. split_and!; try done. by rewrite <- Hh.
  - destruct (findhighest_spec l Hl Hne) as (x & res & l' & Hx & Hb & He & Hg).
    replace (match l with NULL => Done (None, BALANCE, l) | _ => avlfindhighest l end)
      with (avlfindhighest l) by (by destruct l).
    rewrite Hx. simpl. rewrite He, <- app_assoc. destruct Hg as [(-> & Hh)|(-> & Hh)]; simpl.
    + do 2 eexists. split; [reflexivity|]. simpl. rewrite Hh. split_and!; try done.
      left. simpl. by rewrite Hh.
    + destruct (leftshrunk_spec l' x s r) as (? & ? & -> & ? & ? & Hg); try done.
      { by rewrite Hh. }
      do 2 eexists. split; [reflexivity|]. split_and!; try done. by rewrite <- Hh.
Qed.

Lemma remove_spec n k :
  avl n →
  ∃ res n', avlremove n k = Done (res, n') ∧
    (res = ERROR ∧ n' = n ∧ Forall (λ x, AVLKEY x ≠ k) (elements n) ∨
     ∃ x, AVLKEY x = k ∧ removed x (elements n) (elements n') ∧ balanced n' ∧
       shrunk (height n) n' res).
Proof.
  induction n as [|l IHl x s r IHr]; simpl; intros [Hb Hs].
  { do 2 eexists. split; [reflexivity|]. left. split_and!; done. }
  simpl in *. destruct Hb as (Hbl & Hbr & Hsk).
  apply sorted_mid in Hs as (Hsl & Hsr & Hll & Hrr). repeat case_decide.
  - destruct IHl as (res & l' & -> & [(-> & -> & Hno)|(y & Hy & Hrem & Hb & Hg)]); [done| |].
    { do 2 eexists. split; [reflexivity|]. left. split_and!; try done.
      apply Forall_app; split; [done|]. constructor; [lia|].
      eapply Forall_impl; [exact Hrr|]. unfold key_lt. intros; lia. }
    pose proof (removed_left _ _ _ (x :: elements r) Hrem) as Hrem'.
    destruct Hg as [(-> & Hh)|(-> & Hh)]; simpl.
    + do 2 eexists. split; [reflexivity|]. right. exists y. simpl. rewrite Hh.
      split_and!; try done. left. simpl. by rewrite Hh.
    + destruct (leftshrunk_spec l' x s r) as (? & ? & -> & ? & He & Hg); try done.
      { by rewrite Hh. }
      do 2 eexists. split; [reflexivity|]. right. exists y. rewrite He.
      split_and!; try done. by rewrite <- Hh.
  - destruct IHr as (res & r' & -> & [(-> & -> & Hno)|(y & Hy & Hrem & Hb & Hg)]); [done| |].
    { do 2 eexists. split; [reflexivity|]. left. split_and!; try done.
      apply Forall_app; split; [|by constructor; [lia|]].
      eapply Forall_impl; [exact Hll|]. unfold key_lt. simpl. intros; lia. }
    pose proof (removed_right _ (elements l ++ [x]) _ _ Hrem) as Hrem'.
    rewrite <- !app_assoc in Hrem'.
    destruct Hg as [(-> & Hh)|(-> & Hh)]; simpl.
    + do 2 eexists. split; [reflexivity|]. right. exists y. simpl. rewrite Hh.
      split_and!; try done. left. simpl. by rewrite Hh.
    + destruct (rightshrunk_spec l x s r') as (? & ? & -> & ? & He & Hg); try done.
      { by rewrite Hh. }
      do 2 eexists. split; [reflexivity|]. right. exists y. rewrite He.
      split_and!; try done. by rewrite <- Hh.
  - destruct (remove_here_spec l x s r Hbl Hbr Hsk) as (res & n' & -> & Hb & He & Hg).
    do 2 eexists. split; [reflexivity|]. right. exists x. split_and!; try done; [lia|].
    exists (elements l), (elements r). done.
Qed.

(** * Lookup and traversal *)

Lemma access_spec n k :
  StronglySorted key_lt (elements n) →
  match avlaccess n k with
  | Some d => d ∈ elements n ∧ AVLKEY d = k
  | None => Forall (λ x, AVLKEY x ≠ k) (elements n)
  end.
Proof.
  induction n as [|l IHl x s r IHr]; simpl; intros Hs; [constructor|].
  apply sorted_mid in Hs as (Hsl & Hsr & Hll & Hrr). repeat case_decide.
  - specialize (IHl Hsl). destruct (avlaccess l k) as [d|]; [set_solver|].
    apply Forall_app; split; [done|]. constructor; [lia|].
    eapply Forall_impl; [exact Hrr|]. unfold key_lt. intros; lia.
  - specialize (IHr Hsr). destruct (avlaccess r k) as [d|]; [set_solver|].
    apply Forall_app; split; [|by constructor; [lia|]].
    eapply Forall_impl; [exact Hll|]. unfold key_lt. simpl. intros; lia.
  - split; [set_solver|lia].
Qed.

(** The highest item is the last one. *)
Lemma gethighest_spec n : avlgethighest n = last (elements n).
Proof.
  induction n as [|l _ x s r IHr]; [done|]. simpl. rewrite last_app_cons.
  destruct r as [|rl rd rs rr]; [done|].
  rewrite IHr. simpl. destruct (elements rl ++ rd :: elements rr) eqn:He; [|done].
  by destruct (elements rl).
Qed.

(** A worker that ignores the depth sees the items in order. *)
Lemma depthfirst_spec {S : Type} (f : datum → Z → Z → S → S) (g : S → datum → S) n p :
  (∀ d e st, f d p e st = g st d) →
  ∀ e st, avldepthfirst f n p e st = foldl g st (elements n).
Proof.
  intros Hf. induction n as [|l IHl d s r IHr]; intros e st; [done|]. simpl.
  rewrite IHl, IHr, Hf, foldl_app. done.
Qed.

(** * Height *)

Lemma height_step (x a b : Z) :
  0 < x → 0 < a → 0 < b → 2 * x ≤ a * a → x ≤ b * b → 4 * x ≤ (a + b) * (a + b).
Proof.
  intros. assert (x ≤ a * b) by (destruct (Z.le_ge_cases a b); nia). nia.
Qed.

Lemma pow_height h : 2 ^ Z.of_nat (S h) = 2 * 2 ^ Z.of_nat h.
Proof. rewrite Nat2Z.inj_succ, Z.pow_succ_r; lia. Qed.

Lemma balanced_size n :
  balanced n →
  2 ^ Z.of_nat (height n) ≤
    (Z.of_nat (length (elements n)) + 1) * (Z.of_nat (length (elements n)) + 1).
Proof.
  induction n as [|l IHl d s r IHr]; intros Hb; [done|].
  destruct Hb as (Hl & Hr & Hs). specialize (IHl Hl). specialize (IHr Hr).
  cbn [height elements]. rewrite length_app. simpl length.
  set (a := Z.of_nat (length (elements l)) + 1) in *.
  set (b := Z.of_nat (length (elements r)) + 1) in *.
  replace (Z.of_nat (length (elements l) + S (length (elements r))) + 1) with (a + b) by lia.
  rewrite pow_height.
  assert (0 < 2 ^ Z.of_nat (height l) ∧ 0 < 2 ^ Z.of_nat (height r)) as [? ?] by lia.
  destruct s; simpl in Hs.
  - rewrite Hs, Nat.max_id in *. nia.
  - rewrite Hs in *. replace (S (height r) `max` height r)%nat with (S (height r)) by lia.
    rewrite pow_height in *. pose proof (height_step (2 ^ Z.of_nat (height r)) a b). lia.
  - rewrite Hs in *. replace (height l `max` S (height l))%nat with (S (height l)) by lia.
    rewrite pow_height in *. pose proof (height_step (2 ^ Z.of_nat (height l)) b a). nia.
Qed.

(** Keys determine the items of a sorted list. *)
Lemma sorted_key_inj l x y :
  StronglySorted key_lt l → x ∈ l → y ∈ l → AVLKEY x = AVLKEY y → x = y.
Proof.
  induction 1 as [|z l Hs IH Hz]; [by intros ?%not_elem_of_nil|].
  rewrite Forall_forall in Hz. unfold key_lt in Hz.
  intros [->|Hx]%elem_of_cons [->|Hy]%elem_of_cons Hk; try done.
  - specialize (Hz y Hy). lia.
  - specialize (Hz x Hx). lia.
  - by apply IH.
Qed.

Lemma added_perm d l l' : added d l l' → l' ≡ₚ d :: l.
Proof. intros (l1 & l2 & -> & -> & _). by rewrite Permutation_middle. Qed.

Lemma removed_perm d l l' : removed d l l' → l ≡ₚ d :: l'.
Proof. intros (l1 & l2 & -> & ->). by rewrite Permutation_middle. Qed.

Lemma added_fresh d l l' : added d l l' → Forall (λ x, AVLKEY x ≠ AVLKEY d) l.
Proof.
  intros (l1 & l2 & -> & _ & H1 & H2). unfold key_lt in *.
  apply Forall_app; split; (eapply Forall_impl; [eassumption|]); simpl; intros; lia.
Qed.
End avltree.

#[global] Arguments avlinsert : simpl never.
#[global] Arguments avlremove : simpl never.

(** Insertion into a valid tree never follows a NULL pointer and yields a
    valid tree: it reports an error and leaves the tree alone when the key is
    taken, and otherwise adds exactly the new item; the height grows by at most
    one, and only when the result says so. *)
Theorem avlinsert_correct {datum : Type} (AVLKEY : datum → Z) n d :
  avl AVLKEY n →
  ∃ res n', avlinsert AVLKEY true n d = Done (res, n') ∧ avl AVLKEY n' ∧
    ((∃ x, x ∈ elements n ∧ AVLKEY x = AVLKEY d) ∧ res = ERROR ∧ n' = n ∨
     (∀ x, x ∈ elements n → AVLKEY x ≠ AVLKEY d) ∧ elements n' ≡ₚ d :: elements n ∧
       (res = OK ∧ height n' = height n ∨ res = BALANCE ∧ height n' = S (height n))).
Proof.
  intros Havl. destruct (insert_spec AVLKEY true n d Havl)
    as (res & n' & Hi & [(-> & -> & H)|(_ & Hb & Hadd & Hg)]);
    do 2 eexists; (split; [exact Hi|]).
  - split; [done|]. left. by destruct H as [?|?].
  - split; [split; [done|]; eapply added_sorted; [apply Havl|done]|]. right. split_and!.
    + by apply Forall_forall, added_fresh with (elements n').
    + by apply added_perm in Hadd.
    + destruct Hg as [?|(? & ? & _)]; auto.
Qed.

Lemma avlinsert_correct_witness :
  ∃ res n', avlinsert id true (Node (Node NULL 1 NONE NULL) 3 LEFT NULL) 2 = Done (res, n') ∧
    avl id n'.
Proof.
  destruct (avlinsert_correct id (Node (Node NULL 1 NONE NULL) 3 LEFT NULL) 2)
    as (res & n' & H & Ha & _); [|eauto].
  split; [by vm_compute|]. simpl. repeat constructor.
Defined.

(** C22. Removal from a valid tree never follows a NULL pointer and yields a
    valid tree: it reports an error and leaves the tree alone when no item has
    the key, and otherwise removes exactly the item that has it; the height
    shrinks by at most one, and only when the result says so. *)
Theorem avlremove_correct {datum : Type} (AVLKEY : datum → Z) n k :
  avl AVLKEY n →
  ∃ res n', avlremove AVLKEY n k = Done (res, n') ∧ avl AVLKEY n' ∧
    ((∀ x, x ∈ elements n → AVLKEY x ≠ k) ∧ res = ERROR ∧ n' = n ∨
     ∃ x, AVLKEY x = k ∧ elements n ≡ₚ x :: elements n' ∧
       (res = OK ∧ height n' = height n ∨ res = BALANCE ∧ height n = S (height n'))).
Proof.
  intros Havl. destruct (remove_spec AVLKEY n k Havl)
    as (res & n' & Hi & [(-> & -> & H)|(x & Hx & Hrem & Hb & Hg)]);
    do 2 eexists; (split; [exact Hi|]).
  - split; [done|]. left. rewrite Forall_forall in H. done.
  - split; [split; [done|]; eapply removed_sorted; [apply Havl|done]|]. right.
    exists x. split_and!; [done|by apply removed_perm|].
    destruct Hg as [?|[? ?]]; auto.
Qed.

Lemma avlremove_correct_witness :
  ∃ res n', avlremove id (Node (Node NULL 1 NONE NULL) 3 LEFT NULL) 3 = Done (res, n') ∧
    avl id n'.
Proof.
  destruct (avlremove_correct id (Node (Node NULL 1 NONE NULL) 3 LEFT NULL) 3)
    as (res & n' & H & Ha & _); [|eauto].
  split; [by vm_compute|]. simpl. repeat constructor.
Defined.

(** Lookup in a valid tree finds exactly the item that has the key, and
    the number of nodes it visits is logarithmic: [2 ^ height] is at most the
    square of the number of items plus one. *)
Theorem avlaccess_correct {datum : Type} (AVLKEY : datum → Z) n k d :
  avl AVLKEY n →
  (avlaccess AVLKEY n k = Some d ↔ d ∈ elements n ∧ AVLKEY d = k) ∧
  2 ^ Z.of_nat (height n) ≤ (Z.of_nat (length (elements n)) + 1) ^ 2.
Proof.
  intros [Hb Hs]. split; [|rewrite Z.pow_2_r; by apply balanced_size].
  pose proof (access_spec AVLKEY n k Hs) as H. destruct (avlaccess AVLKEY n k) as [d'|].
  - destruct H as [Hd Hk]. split; [by intros [= ->]|].
    intros [? ?]. f_equal. eapply sorted_key_inj; [done..|congruence].
  - split; [done|]. intros [Hd Hk]. rewrite Forall_forall in H. by destruct (H d Hd).
Qed.

Lemma avlaccess_correct_witness :
  avlaccess id (Node (Node NULL 1 NONE NULL) 3 LEFT NULL) 1 = Some 1.
Proof.
  apply (avlaccess_correct id (Node (Node NULL 1 NONE NULL) 3 LEFT NULL) 1 1).
  - split; [by vm_compute|]. simpl. repeat constructor.
  - split; [|done]. simpl. constructor.
Defined.
