(* ===== verification/Extentlist.v ===== *)
(** src/src/io/trove/trove-handle-mgmt/trove-extentlist.c: lists of free
    handle extents, kept in the AVL tree of Avl.v.

    A handle is a [uint64_t], 0 is TROVE_HANDLE_NULL.  The arguments of a
    function of the model that the C function does not have stand for its
    environment: [now] is the second [gettimeofday] reports, [alloc i] says
    whether the [i]-th [malloc] of the call succeeds. *)

From stdpp Require Import list numbers sorting sets.
From S2P Require Import Prelude Errors Avl.

Record TROVE_handle_extent := mkExtent {
  e_first : Z;  (* start of the extent *)
  e_last : Z;   (* end of region extent covers *)
}.

#[export] Instance extent_eq_dec : EqDecision TROVE_handle_extent.
Proof. solve_decision. Defined.

Definition TROVE_HANDLE_NULL : Z := 0.
Definition EXTENTLIST_PURGATORY_DEFAULT : Z := 50.

(** [AVLKEY] and [AVLALTKEY] of the extent tree. *)
Definition AVLKEY (p : TROVE_handle_extent) : Z := e_first p.
Definition AVLALTKEY (p : TROVE_handle_extent) : Z := e_last p.

Abbreviation extent_tree := (avlnode TROVE_handle_extent).

(** The array [extents] and its [__size] belong to an on-disk format that is
    not implemented; no function of the file reads them. *)
Record TROVE_handle_extentlist := mkExtentlist {
  num_extents : Z;  (* int64_t: how many extents are in the list *)
  num_handles : Z;  (* int64_t: how many handles are in the list *)
  timestamp : Z;    (* tv_sec: how long elements have sat on list *)
  index : extent_tree;
}.

(** What [memset(e, 0, sizeof)] and [calloc] leave behind. *)
Definition zero_extentlist : TROVE_handle_extentlist := mkExtentlist 0 0 0 NULL.

Inductive extentlist_coalesce_status :=
  COALESCE_ERROR | COALESCE_NONE | COALESCE_SUCCESS.

#[export] Instance coalesce_status_eq_dec : EqDecision extentlist_coalesce_status.
Proof. solve_decision. Defined.

Definition with_index (elist : TROVE_handle_extentlist) (n : extent_tree) :=
  mkExtentlist (num_extents elist) (num_handles elist) (timestamp elist) n.

Definition extentlist_init (alloc : nat → bool) (now : Z)
    (elist : TROVE_handle_extentlist) : Z * TROVE_handle_extentlist :=
  if alloc 0%nat then
    (0, mkExtentlist (num_extents elist) (num_handles elist) now (index elist))
  else (-1, elist).

Definition extentlist_free (e : TROVE_handle_extentlist) : TROVE_handle_extentlist :=
  zero_extentlist.

(** The extent that ends just before [e], removed from the tree and merged
    into [e]: whether the removal went well, whether there was one, the tree
    and [e] as modified. *)
Definition coalesce_lesser (n : extent_tree) (e : TROVE_handle_extent)
    : exec (bool * bool * extent_tree * TROVE_handle_extent) :=
  match avlaltaccess AVLALTKEY n (u64 (e_first e - 1)) with
  | Some lesser =>
      '(res, n') ← avlremove AVLKEY n (e_first lesser);
      Done (bool_decide (res ≠ ERROR), true, n', mkExtent (e_first lesser) (e_last e))
  | None => Done (true, false, n, e)
  end.

(** The extent that starts just after [e], likewise. *)
Definition coalesce_greater (n : extent_tree) (e : TROVE_handle_extent)
    : exec (bool * bool * extent_tree * TROVE_handle_extent) :=
  match avlaccess AVLKEY n (u64 (e_last e + 1)) with
  | Some greater =>
      '(res, n') ← avlremove AVLKEY n (e_first greater);
      Done (bool_decide (res ≠ ERROR), true, n', mkExtent (e_first e) (e_last greater))
  | None => Done (true, false, n, e)
  end.

(** Merge [e] with the extents that touch it.  The status, the tree and the
    extent [e] as modified. *)
Definition extentlist_coalesce_extent (alloc : bool) (n : extent_tree)
    (e : TROVE_handle_extent)
    : exec (extentlist_coalesce_status * extent_tree * TROVE_handle_extent) :=
  '(ok1, merge_lesser, n1, e1) ← coalesce_lesser n e;
  if negb ok1 then Done (COALESCE_ERROR, n1, e1) else
  '(ok2, merge_greater, n2, e2) ← coalesce_greater n1 e1;
  if negb ok2 then Done (COALESCE_ERROR, n2, e2) else
  if (merge_lesser || merge_greater : bool) then
    '(res, n3) ← avlinsert AVLKEY alloc n2 e2;
    if decide (res = ERROR) then Done (COALESCE_ERROR, n3, e2)
    else Done (COALESCE_SUCCESS, n3, e2)
  else Done (COALESCE_NONE, n2, e2).

(** Add an extent to a list. *)
Definition extentlist_addextent (alloc : nat → bool) (now : Z)
    (elist : TROVE_handle_extentlist) (first last : Z)
    : exec (Z * TROVE_handle_extentlist) :=
  if negb (alloc 0%nat) then Done (-1, elist) else
  '(st, n, e) ← extentlist_coalesce_extent (alloc 1%nat) (index elist) (mkExtent first last);
  '(ok, ne, n') ←
    (if decide (st = COALESCE_NONE) then
       '(res, n') ← avlinsert AVLKEY (alloc 1%nat) n e;
       if decide (res = ERROR) then Done (false, num_extents elist, n')
       else Done (true, i64 (num_extents elist + 1), n')
     else Done (true, num_extents elist, n));
  if negb ok then Done (-1, with_index elist n')
  else
    Done (0, mkExtentlist ne (i64 (num_handles elist + u64 (last - first + 1))) now n').

(** The loop of [extentlist_merge]: add the root of what is left of [src] to
    [dest] and remove it.  Every iteration removes an extent, so the number of
    extents is enough fuel. *)
Fixpoint extentlist_merge_loop (fuel : nat) (alloc : nat → bool) (now : Z)
    (dest : TROVE_handle_extentlist) (n : extent_tree) : exec TROVE_handle_extentlist :=
  match n with
  | NULL => Done dest
  | Node _ d _ _ =>
      match fuel with
      | O => Fault OutOfFuel
      | S fuel' =>
          '(_, dest') ← extentlist_addextent alloc now dest (e_first d) (e_last d);
          '(_, n') ← avlremove AVLKEY n (e_first d);
          extentlist_merge_loop fuel' (λ i, alloc (2 + i)%nat) now dest' n'
      end
  end.

(** Merge the items of [src] into [dest]: the return value and both lists. *)
Definition extentlist_merge (alloc : nat → bool) (now : Z)
    (dest src : TROVE_handle_extentlist)
    : exec (Z * TROVE_handle_extentlist * TROVE_handle_extentlist) :=
  dest' ← extentlist_merge_loop (length (elements (index src))) alloc now dest (index src);
  Done (0, dest', with_index src NULL).

(** [ext->last--] through the pointer [avlgethighest] returned: the datum of
    the highest node changes in place. *)
Fixpoint highest_dec (n : extent_tree) : extent_tree :=
  match n with
  | NULL => NULL
  | Node l d s NULL => Node l (mkExtent (e_first d) (u64 (e_last d - 1))) s NULL
  | Node l d s r => Node l d s (highest_dec r)
  end.

Definition extentlist_get_and_dec_extent (elist : TROVE_handle_extentlist)
    : exec (Z * TROVE_handle_extentlist) :=
  match avlgethighest (index elist) with
  | None => Done (u64 (-1), elist)
  | Some ext =>
      if decide (e_first ext ≤ e_last ext) then
        let handle := e_last ext in
        if decide (e_first ext = e_last ext) then
          (* just gave out the last handle in the range *)
          '(res, n) ← avlremove AVLKEY (index elist) (e_first ext);
          if decide (res = ERROR) then Done (u64 (-1), with_index elist n)
          else Done (handle, mkExtentlist (i64 (num_extents elist - 1)) (num_handles elist)
                               (timestamp elist) n)
        else
          Done (handle, mkExtentlist (num_extents elist) (i64 (num_handles elist - 1))
                          (timestamp elist) (highest_dec (index elist)))
      else Fault AssertFailed
  end.

(** Finds an extent containing the given handle. *)
Fixpoint avltree_extent_search (n : extent_tree) (handle : Z) : option (Z * Z) :=
  match n with
  | NULL => None
  | Node l e _ r =>
      if decide (e_first e > handle) then avltree_extent_search l handle
      else if decide (e_last e < handle) then avltree_extent_search r handle
      else Some (e_first e, e_last e)
  end.

(** Finds a free handle of a range; 0 when there is none. *)
Fixpoint avltree_extent_search_in_range (n : extent_tree) (req : TROVE_handle_extent) : Z :=
  match n with
  | NULL => 0
  | Node l e _ r =>
      (* request matches at one edge or the other of an existing extent *)
      if decide (e_first req = e_first e ∨ e_first req = e_last e) then e_first req
      else if decide (e_last req = e_first e ∨ e_last req = e_last e) then e_last req
      (* request fits within an existing extent *)
      else if decide (e_first req > e_first e ∧ e_last req < e_last e) then e_last req
      (* request completely overlaps *)
      else if decide (e_first req < e_first e ∧ e_last req > e_last e) then e_last e
      (* request left-overlaps *)
      else if decide (e_first req < e_first e ∧ e_last req < e_last e ∧
                      e_last req > e_first e) then e_first e
      (* request right-overlaps *)
      else if decide (e_first req > e_first e ∧ e_last req > e_last e ∧
                      e_first req < e_last e) then e_last e
      (* otherwise, look at left child, and the other child *)
      else if match l with NULL => false | _ => bool_decide (e_last req < e_first e) end
      then avltree_extent_search_in_range l req
      else if match r with NULL => false | _ => bool_decide (e_first req > e_last e) end
      then avltree_extent_search_in_range r req
      (* if no chance to match with the kids, we give up *)
      else 0
  end.

(** Remove a specific handle, splitting its extent where necessary.  The
    mallocs are those of [old_e], [new_e], and the two tree nodes. *)
Definition extentlist_handle_remove (alloc : nat → bool) (elist : TROVE_handle_extentlist)
    (handle : Z) : exec (Z * TROVE_handle_extentlist) :=
  match avltree_extent_search (index elist) handle with
  | None => Done (-1, elist)
  | Some (key_handle, last_handle) =>
      '(res, n) ← avlremove AVLKEY (index elist) key_handle;
      if decide (res = ERROR) then Fault AssertFailed else
      if decide (key_handle = last_handle) then Done (0, with_index elist n) else
      if negb (alloc 0%nat) then Fault AssertFailed else
      if decide (key_handle = handle) then
        '(_, n1) ← avlinsert AVLKEY (alloc 2%nat) n
                     (mkExtent (u64 (key_handle + 1)) last_handle);
        Done (0, with_index elist n1)
      else if decide (last_handle = handle) then
        '(_, n1) ← avlinsert AVLKEY (alloc 2%nat) n
                     (mkExtent key_handle (u64 (last_handle - 1)));
        Done (0, with_index elist n1)
      else
        (* splitting extent into two *)
        if negb (alloc 1%nat) then Fault AssertFailed else
        '(_, n1) ← avlinsert AVLKEY (alloc 2%nat) n (mkExtent key_handle (u64 (handle - 1)));
        '(_, n2) ← avlinsert AVLKEY (alloc 3%nat) n1 (mkExtent (u64 (handle + 1)) last_handle);
        Done (0, with_index elist n2)
  end.

(** A handle within the given range, or 0. *)
Definition extentlist_get_from_extent (alloc : nat → bool)
    (elist : TROVE_handle_extentlist) (extent : TROVE_handle_extent)
    : exec (Z * TROVE_handle_extentlist) :=
  let handle := avltree_extent_search_in_range (index elist) extent in
  if decide (handle = TROVE_HANDLE_NULL) then Done (TROVE_HANDLE_NULL, elist) else
  '(ret, elist') ← extentlist_handle_remove alloc elist handle;
  if decide (ret = -1) then Done (TROVE_HANDLE_NULL, elist') else Done (handle, elist').

(** The do loop of [extentlist_peek_handles]; [out] is what has been written
    to [out_handle_array].  The handle decreases in every iteration. *)
Fixpoint peek_handles_loop (fuel : nat) (first handle max_num_handles : Z)
    (out : list Z) : exec (list Z) :=
  match fuel with
  | O => Fault OutOfFuel
  | S fuel' =>
      let out := out ++ [handle] in
      if decide (i32 (Z.of_nat (length out)) = max_num_handles) then Done out else
      let handle := if decide (handle >= first) then u64 (handle - 1) else TROVE_HANDLE_NULL in
      if decide (handle = TROVE_HANDLE_NULL) then Done out
      else peek_handles_loop fuel' first handle max_num_handles out
  end.

(** The return value and the handles written to the output array, whose
    length is [*returned_handle_count].  [args] says that the pointers the
    function is passed are not NULL. *)
Definition extentlist_peek_handles (args : bool) (elist : TROVE_handle_extentlist)
    (max_num_handles : Z) : exec (Z * list Z) :=
  if negb args then Done (- TROVE_EINVAL, []) else
  match avlgethighest (index elist) with
  | None => Done (- TROVE_ENOSPC, [])
  | Some ext =>
      if decide (e_first ext ≤ e_last ext) then
        out ← peek_handles_loop (Z.to_nat (e_last ext - e_first ext + 2)) (e_first ext)
                (e_last ext) max_num_handles [];
        Done (if decide (out = []) then - TROVE_ENOSPC else 0, out)
      else Fault AssertFailed
  end.

(** The do loop of [extentlist_peek_handles_from_extent]. *)
Fixpoint peek_from_extent_loop (fuel : nat) (n : extent_tree) (first last : Z)
    (max_num_handles : Z) (out : list Z) : exec (list Z) :=
  match fuel with
  | O => Fault OutOfFuel
  | S fuel' =>
      let handle := avltree_extent_search_in_range n (mkExtent first last) in
      if decide (handle = TROVE_HANDLE_NULL) then Done out else
      let out := out ++ [handle] in
      if decide (i32 (Z.of_nat (length out)) = max_num_handles) then Done out else
      let last := u64 (handle - 1) in
      if decide (last = TROVE_HANDLE_NULL) then Done out
      else peek_from_extent_loop fuel' n first last max_num_handles out
  end.

(** Every iteration that goes on writes a handle, and the loop ends when
    [max_num_handles] are written. *)
Definition extentlist_peek_handles_from_extent (args : bool)
    (elist : TROVE_handle_extentlist) (extent : TROVE_handle_extent)
    (max_num_handles : Z) : exec (Z * list Z) :=
  if negb args then Done (- TROVE_EINVAL, []) else
  out ← peek_from_extent_loop (S (Z.to_nat max_num_handles)) (index elist)
          (e_first extent) (e_last extent) max_num_handles [];
  Done (if decide (out = []) then - TROVE_ENOSPC else 0, out).

(** The worker of [extentlist_count]; the state is [g_counter]. *)
Definition extent_count (e : TROVE_handle_extent) (param depth g_counter : Z) : Z :=
  u64 (g_counter + (e_last e - e_first e + 1)).

Definition extentlist_count (elist : TROVE_handle_extentlist) : Z :=
  avldepthfirst extent_count (index elist) 0 0 0.

(** [elist->num_handles > cutoff] compares in [uint64_t]. *)
Definition extentlist_hit_cutoff (elist : TROVE_handle_extentlist) (cutoff : Z) : bool :=
  bool_decide (u64 (num_handles elist) > cutoff).

(** [purgatory] is [s_extentlist_purgatory.tv_sec]. *)
Definition extentlist_endured_purgatory (purgatory : Z)
    (querent reference : TROVE_handle_extentlist) : bool :=
  bool_decide (i32 (timestamp querent - timestamp reference) > purgatory).

(** The return value and the new value of [s_extentlist_purgatory]. *)
Definition extentlist_set_purgatory (timeout : Z) : exec (Z * Z) :=
  if decide (timeout > -1) then Done (0, timeout) else Fault AssertFailed.

(** * Specification *)

Definition covers (e : TROVE_handle_extent) (h : Z) : Prop := e_first e ≤ h ≤ e_last e.

(** The free handles of a list. *)
Definition has (l : list TROVE_handle_extent) (h : Z) : Prop := ∃ e, e ∈ l ∧ covers e h.

(** Extents are separated by at least one handle that is not free. *)
Definition sep (a b : TROVE_handle_extent) : Prop := e_last a + 1 < e_first b.

Definition valid_extent (e : TROVE_handle_extent) : Prop :=
  1 ≤ e_first e ∧ e_first e ≤ e_last e ∧ e_last e < B64.

Definition extents_ok (l : list TROVE_handle_extent) : Prop :=
  StronglySorted sep l ∧ Forall valid_extent l.

(** The invariant of the index of an extent list. *)
Definition index_ok (n : extent_tree) : Prop := balanced n ∧ extents_ok (elements n).

(** The free handles of an extent list. *)
Definition free_in (elist : TROVE_handle_extentlist) : Z → Prop :=
  has (elements (index elist)).

(** All mallocs succeed. *)
Definition malloc_ok (_ : nat) : bool := true.

(** [e] keeps its distance from every extent of [l]. *)
Definition apart (e : TROVE_handle_extent) (l : list TROVE_handle_extent) : Prop :=
  ∀ y, y ∈ l → sep e y ∨ sep y e.

(** * Separated extents *)

Lemma sorted_weaken {A} (R S : relation A) (P : A → Prop) l :
  StronglySorted R l → Forall P l → (∀ a b, P a → P b → R a b → S a b) → StronglySorted S l.
Proof.
  intros Hs HP HRS. induction Hs as [|a l Hs IH Ha]; [constructor|].
  apply Forall_cons in HP as [Hpa HP]. constructor; [by apply IH|].
  rewrite !Forall_forall in *. eauto.
Qed.

Lemma extents_ok_key l : extents_ok l → StronglySorted (key_lt AVLKEY) l.
Proof.
  intros [Hs Hv]. eapply sorted_weaken; [done..|].
  unfold valid_extent, sep, key_lt, AVLKEY. simpl. lia.
Qed.

Lemma extents_ok_altkey l : extents_ok l → StronglySorted (key_lt AVLALTKEY) l.
Proof.
  intros [Hs Hv]. eapply sorted_weaken; [done..|].
  unfold valid_extent, sep, key_lt, AVLALTKEY. simpl. lia.
Qed.

Lemma extents_ok_valid l e : extents_ok l → e ∈ l → valid_extent e.
Proof. intros [_ Hv] He. rewrite Forall_forall in Hv. auto. Qed.

Lemma index_ok_avl n : index_ok n → avl AVLKEY n.
Proof. intros [? ?]. split; [done|by apply extents_ok_key]. Qed.

#[local] Hint Resolve extents_ok_key extents_ok_altkey index_ok_avl : core.

Lemma has_app l1 l2 h : has (l1 ++ l2) h ↔ has l1 h ∨ has l2 h.
Proof.
  unfold has. split.
  - intros (e & [?|?]%elem_of_app & ?); [left|right]; eauto.
  - intros [(e & ? & ?)|(e & ? & ?)]; exists e; rewrite elem_of_app; auto.
Qed.

Lemma has_nil h : has [] h ↔ False.
Proof. unfold has. split; [|done]. by intros (e & ?%not_elem_of_nil & _). Qed.

Lemma has_cons e l h : has (e :: l) h ↔ covers e h ∨ has l h.
Proof.
  unfold has. split.
  - intros (x & [->|?]%elem_of_cons & ?); eauto.
  - intros [?|(x & ? & ?)]; [exists e|exists x]; rewrite elem_of_cons; auto.
Qed.

Lemma removed_ok e l l' :
  removed e l l' → extents_ok l →
  extents_ok l' ∧ apart e l' ∧ valid_extent e ∧ (∀ h, has l h ↔ covers e h ∨ has l' h).
Proof.
  intros (l1 & l2 & -> & ->) [Hs Hv]. apply StronglySorted_app in Hs as (Hc & Hs1 & Hs2).
  apply StronglySorted_inv in Hs2 as [Hs2 He]. rewrite Forall_forall in He.
  apply Forall_app in Hv as [Hv1 Hv2]. apply Forall_cons in Hv2 as [Hve Hv2].
  split_and!; try done.
  - split; [|by apply Forall_app]. apply StronglySorted_app. split_and!; set_solver.
  - intros y [Hy|Hy]%elem_of_app; [right; apply Hc; set_solver|left; auto].
  - intros h. rewrite !has_app, has_cons. tauto.
Qed.

Lemma added_ok e l l' :
  added AVLKEY e l l' → extents_ok l → valid_extent e → apart e l →
  extents_ok l' ∧ (∀ h, has l' h ↔ covers e h ∨ has l h).
Proof.
  intros (l1 & l2 & -> & -> & H1 & H2) [Hs Hv] Hve Hap.
  apply StronglySorted_app in Hs as (Hc & Hs1 & Hs2). apply Forall_app in Hv as [Hv1 Hv2].
  rewrite Forall_forall in H1, H2. unfold key_lt, AVLKEY in H1, H2.
  assert (∀ y, y ∈ l1 → sep y e) as Hlow.
  { intros y Hy. destruct (Hap y) as [?|?]; [set_solver| |done].
    specialize (H1 y Hy). unfold sep, valid_extent in *. lia. }
  assert (∀ y, y ∈ l2 → sep e y) as Hhigh.
  { intros y Hy. destruct (Hap y) as [?|?]; [set_solver|done|].
    specialize (H2 y Hy). rewrite Forall_forall in Hv2. specialize (Hv2 y Hy).
    unfold sep, valid_extent in *. lia. }
  split; [split|].
  - apply StronglySorted_app. split_and!; [|done|].
    + intros a b Ha [->|Hb]%elem_of_cons; auto.
    + constructor; [done|]. by apply Forall_forall.
  - apply Forall_app; split; [done|]. by constructor.
  - intros h. rewrite !has_app, has_cons. tauto.
Qed.

(** * The index as a set of extents *)

Lemma index_remove n e :
  index_ok n → e ∈ elements n →
  ∃ res n', avlremove AVLKEY n (e_first e) = Done (res, n') ∧ res ≠ ERROR ∧ index_ok n' ∧
    removed e (elements n) (elements n').
Proof.
  intros Hok He. destruct (remove_spec AVLKEY n (e_first e)) as
    (res & n' & Hr & [(_ & _ & Hno)|(x & Hx & Hrem & Hb & Hg)]); [by auto| |].
  { rewrite Forall_forall in Hno. by destruct (Hno e He). }
  assert (x = e) as ->.
  { eapply (sorted_key_inj AVLKEY); [apply extents_ok_key, Hok| |done|done].
    destruct Hrem as (l1 & l2 & -> & _). set_solver. }
  do 2 eexists. split; [done|]. split_and!; try done; [|split; [done|by eapply removed_ok; [|apply Hok]]].
  by destruct Hg as [[-> _]|[-> _]].
Qed.

Lemma index_insert n e :
  index_ok n → valid_extent e → apart e (elements n) →
  ∃ res n', avlinsert AVLKEY true n e = Done (res, n') ∧ res ≠ ERROR ∧ index_ok n' ∧
    elements n' ≡ₚ e :: elements n ∧
    (∀ h, has (elements n') h ↔ covers e h ∨ has (elements n) h).
Proof.
  intros Hok Hv Hap. destruct (insert_spec AVLKEY true n e) as
    (res & n' & Hi & [(_ & _ & [?|(x & Hx & Hk)])|(_ & Hb & Hadd & Hg)]); [by auto|done| |].
  { pose proof (extents_ok_valid _ _ (proj2 Hok) Hx).
    destruct (Hap x Hx); unfold sep, valid_extent, AVLKEY in *; lia. }
  destruct (added_ok _ _ _ Hadd (proj2 Hok) Hv Hap) as [Hok' Hh].
  do 2 eexists. split; [done|]. split_and!; try done; [|by eapply added_perm].
  by destruct Hg as [[-> _]|[-> _]].
Qed.

Lemma altaccess_access {datum} (f : datum → Z) n k : avlaltaccess f n k = avlaccess f n k.
Proof. induction n as [|l IHl d s r IHr]; simpl; [done|]. by rewrite IHl, IHr. Qed.

(** * Adding an extent *)

(** [e] shares no handle with [l]. *)
Definition disjoint_from (e : TROVE_handle_extent) (l : list TROVE_handle_extent) : Prop :=
  ∀ h, covers e h → ¬ has l h.

Lemma disjoint_order e l y :
  extents_ok l → valid_extent e → disjoint_from e l → y ∈ l →
  e_last y < e_first e ∨ e_last e < e_first y.
Proof.
  intros Hok Hv Hd Hy. pose proof (extents_ok_valid _ _ Hok Hy) as Hvy.
  destruct (decide (e_last y < e_first e)) as [?|H1]; [by left|].
  destruct (decide (e_last e < e_first y)) as [?|H2]; [by right|].
  destruct (Hd (Z.max (e_first e) (e_first y))); unfold covers, valid_extent in *; [lia|].
  exists y. split; [done|]. unfold covers. lia.
Qed.

(** Disjoint and not touching: apart. *)
Lemma disjoint_apart e l :
  extents_ok l → valid_extent e → disjoint_from e l →
  (∀ y, y ∈ l → e_last y ≠ e_first e - 1) → (∀ y, y ∈ l → e_first y ≠ e_last e + 1) →
  apart e l.
Proof.
  intros Hok Hv Hd Hl Hg y Hy. specialize (Hl y Hy). specialize (Hg y Hy).
  destruct (disjoint_order e l y Hok Hv Hd Hy); unfold sep; lia.
Qed.

Lemma find_lesser n e :
  index_ok n → valid_extent e →
  match avlaltaccess AVLALTKEY n (u64 (e_first e - 1)) with
  | Some x => x ∈ elements n ∧ e_last x = e_first e - 1
  | None => ∀ x, x ∈ elements n → e_last x ≠ e_first e - 1
  end.
Proof.
  intros [_ Hok] Hv. unfold valid_extent in Hv. rewrite altaccess_access, u64_id by lia.
  pose proof (access_spec AVLALTKEY n (e_first e - 1) (extents_ok_altkey _ Hok)) as H.
  destruct (avlaccess _ _ _); [done|]. by rewrite Forall_forall in H.
Qed.

Lemma find_greater n e :
  index_ok n → valid_extent e →
  match avlaccess AVLKEY n (u64 (e_last e + 1)) with
  | Some x => x ∈ elements n ∧ e_first x = e_last e + 1
  | None => ∀ x, x ∈ elements n → e_first x ≠ e_last e + 1
  end.
Proof.
  intros [_ Hok] Hv. unfold valid_extent in Hv.
  pose proof (access_spec AVLKEY n (u64 (e_last e + 1)) (extents_ok_key _ Hok)) as H.
  assert (∀ x, x ∈ elements n → 1 ≤ e_first x < B64) as Hr.
  { intros x Hx%(extents_ok_valid _ _ Hok). unfold valid_extent in Hx. lia. }
  destruct (decide (e_last e + 1 < B64)) as [Hlt|Hge].
  - rewrite u64_id in * by lia. destruct (avlaccess _ _ _); [done|].
    by rewrite Forall_forall in H.
  - assert (u64 (e_last e + 1) = 0) as Hz
      by (replace (e_last e + 1) with B64 by lia; reflexivity).
    rewrite Hz in *. destruct (avlaccess _ _ _) as [x|].
    + destruct H as [Hx Hk]. specialize (Hr x Hx). unfold AVLKEY in Hk. lia.
    + intros x Hx. specialize (Hr x Hx). lia.
Qed.

(** What one step of the coalescing has to preserve: the union of the extent
    and the index, and that they are disjoint. *)
Definition merged (n n' : extent_tree) (e e' : TROVE_handle_extent) : Prop :=
  index_ok n' ∧ valid_extent e' ∧ disjoint_from e' (elements n') ∧
  (∀ h, covers e' h ∨ has (elements n') h ↔ covers e h ∨ has (elements n) h).

Lemma merge_step n e x e' :
  index_ok n → valid_extent e → disjoint_from e (elements n) → x ∈ elements n →
  (∀ h, covers e' h ↔ covers e h ∨ covers x h) → valid_extent e' →
  ∃ res n', avlremove AVLKEY n (e_first x) = Done (res, n') ∧ res ≠ ERROR ∧
    merged n n' e e' ∧ apart x (elements n') ∧ (∀ y, y ∈ elements n' → y ∈ elements n).
Proof.
  intros Hok Hv Hd Hx He' Hv'.
  destruct (index_remove n x Hok Hx) as (res & n' & -> & Hres & Hok' & Hrem).
  destruct (removed_ok _ _ _ Hrem (proj2 Hok)) as (_ & Hap & Hvx & Hh).
  do 2 eexists. split; [done|]. split_and!; try done.
  - split_and!; try done.
    + intros h Hc Hhas. apply He' in Hc as [Hc|Hc].
      * apply (Hd h Hc), Hh. by right.
      * destruct Hhas as (y & Hy & Hcy). destruct Hok' as [_ Hok'].
        pose proof (extents_ok_valid _ _ Hok' Hy). destruct (Hap y Hy);
          unfold sep, covers, valid_extent in *; lia.
    + intros h. rewrite Hh, He'. tauto.
  - destruct Hrem as (l1 & l2 & -> & ->). set_solver.
Qed.

Lemma coalesce_lesser_spec n e :
  index_ok n → valid_extent e → disjoint_from e (elements n) →
  ∃ b n' e', coalesce_lesser n e = Done (true, b, n', e') ∧ merged n n' e e' ∧
    (∀ y, y ∈ elements n' → e_last y ≠ e_first e' - 1) ∧ (b = false → n' = n ∧ e' = e).
Proof.
  intros Hok Hv Hd. unfold coalesce_lesser. pose proof (find_lesser n e Hok Hv) as Hless.
  destruct (avlaltaccess _ _ _) as [x|]; [|by exists false, n, e].
  destruct Hless as [Hx Hlx]. pose proof (extents_ok_valid _ _ (proj2 Hok) Hx) as Hvx.
  destruct (merge_step n e x (mkExtent (e_first x) (e_last e)))
    as (res & n' & -> & Hres & Hm & Hap & Hsub); try done;
    [unfold covers, valid_extent in *; simpl; lia..|].
  exists true, n', (mkExtent (e_first x) (e_last e)). simpl.
  rewrite bool_decide_true by done. split_and!; try done.
  intros y Hy. pose proof (extents_ok_valid _ _ (proj2 Hok) (Hsub y Hy)).
  destruct (Hap y Hy); unfold sep, valid_extent in *; lia.
Qed.

Lemma coalesce_greater_spec n e :
  index_ok n → valid_extent e → disjoint_from e (elements n) →
  (∀ y, y ∈ elements n → e_last y ≠ e_first e - 1) →
  ∃ b n' e', coalesce_greater n e = Done (true, b, n', e') ∧ merged n n' e e' ∧
    apart e' (elements n') ∧ (b = false → n' = n ∧ e' = e).
Proof.
  intros Hok Hv Hd Hl. unfold coalesce_greater. pose proof (find_greater n e Hok Hv) as Hgreat.
  destruct (avlaccess _ _ _) as [x|].
  2: { exists false, n, e. split_and!; try done. apply disjoint_apart; try done. apply Hok. }
  destruct Hgreat as [Hx Hlx]. pose proof (extents_ok_valid _ _ (proj2 Hok) Hx) as Hvx.
  destruct (merge_step n e x (mkExtent (e_first e) (e_last x)))
    as (res & n' & -> & Hres & Hm & Hap & Hsub); try done;
    [unfold covers, valid_extent in *; simpl; lia..|].
  exists true, n', (mkExtent (e_first e) (e_last x)). simpl.
  rewrite bool_decide_true by done. split_and!; try done.
  destruct Hm as (Hok2 & Hv2 & Hd2 & _).
  apply disjoint_apart; try done; [by apply Hok2|by eauto|]. simpl.
  intros y Hy. pose proof (extents_ok_valid _ _ (proj2 Hok2) Hy).
  destruct (Hap y Hy); unfold sep, valid_extent in *; lia.
Qed.

Lemma coalesce_spec n e :
  index_ok n → valid_extent e → disjoint_from e (elements n) →
  ∃ st n' e', extentlist_coalesce_extent true n e = Done (st, n', e') ∧ index_ok n' ∧
    (st = COALESCE_SUCCESS ∧ (∀ h, has (elements n') h ↔ covers e h ∨ has (elements n) h) ∨
     st = COALESCE_NONE ∧ n' = n ∧ e' = e ∧ apart e (elements n)).
Proof.
  intros Hok Hv Hd. unfold extentlist_coalesce_extent.
  destruct (coalesce_lesser_spec n e Hok Hv Hd)
    as (b1 & n1 & e1 & -> & (Hok1 & Hv1 & Hd1 & Hh1) & Hl1 & Hb1). simpl.
  destruct (coalesce_greater_spec n1 e1 Hok1 Hv1 Hd1 Hl1)
    as (b2 & n2 & e2 & -> & (Hok2 & Hv2 & Hd2 & Hh2) & Hap2 & Hb2). simpl.
  destruct (b1 || b2) eqn:Hb.
  - destruct (index_insert n2 e2 Hok2 Hv2 Hap2) as (res & n3 & -> & Hres & Hok3 & _ & Hh3). simpl.
    rewrite decide_False by done. do 3 eexists. split; [done|]. split; [done|]. left.
    split; [done|]. intros h. by rewrite Hh3, Hh2, Hh1.
  - apply orb_false_iff in Hb as [-> ->]. destruct Hb2 as [-> ->]; [done|].
    destruct Hb1 as [-> ->]; [done|]. do 3 eexists. split; [done|]. split; [done|]. by right.
Qed.

(** * The operations as operations on a set of handles *)

Lemma addextent_spec now elist first last :
  index_ok (index elist) → valid_extent (mkExtent first last) →
  disjoint_from (mkExtent first last) (elements (index elist)) →
  ∃ elist', extentlist_addextent malloc_ok now elist first last = Done (0, elist') ∧
    index_ok (index elist') ∧ timestamp elist' = now ∧
    num_handles elist' = i64 (num_handles elist + (last - first + 1)) ∧
    (∀ h, free_in elist' h ↔ first ≤ h ≤ last ∨ free_in elist h).
Proof.
  intros Hok Hv Hd. unfold extentlist_addextent, malloc_ok. simpl.
  destruct (coalesce_spec _ _ Hok Hv Hd) as (st & n' & e' & -> & Hok' &
    [(-> & Hh)|(-> & -> & -> & Hap)]); simpl.
  - eexists. split; [done|]. split_and!; try done. simpl.
    rewrite u64_id; [done|]. unfold valid_extent in Hv; simpl in Hv; lia.
  - destruct (index_insert _ _ Hok' Hv Hap) as (res & n3 & -> & Hres & Hok3 & _ & Hh3). simpl.
    rewrite decide_False by done. eexists. split; [done|]. split_and!; try done. simpl.
    rewrite u64_id; [done|]. unfold valid_extent in Hv; simpl in Hv; lia.
Qed.

Lemma merge_loop_spec fuel now dest n :
  index_ok (index dest) → index_ok n → (length (elements n) ≤ fuel)%nat →
  (∀ h, free_in dest h → ¬ has (elements n) h) →
  ∃ dest', extentlist_merge_loop fuel malloc_ok now dest n = Done dest' ∧
    index_ok (index dest') ∧
    (∀ h, free_in dest' h ↔ free_in dest h ∨ has (elements n) h).
Proof.
  revert dest n. induction fuel as [|fuel IH]; intros dest n Hd Hn Hf Hdis;
    destruct n as [|l e s r]; try (simpl in Hf; rewrite length_app in Hf; simpl in Hf; lia).
  1, 2: exists dest; split_and!; try done; intros h; simpl; rewrite has_nil; tauto.
  set (n := Node l e s r) in *.
  change (extentlist_merge_loop (S fuel) malloc_ok now dest n) with
    ('(_, dest') ← extentlist_addextent malloc_ok now dest (e_first e) (e_last e);
     '(_, n') ← avlremove AVLKEY n (e_first e);
     extentlist_merge_loop fuel malloc_ok now dest' n').
  assert (e ∈ elements n) as He by (simpl; set_solver). clearbody n.
  pose proof (extents_ok_valid _ _ (proj2 Hn) He) as Hv.
  destruct (addextent_spec now dest (e_first e) (e_last e)) as (d1 & -> & Hok1 & _ & _ & Hh1);
    [done|by destruct e| |].
  { intros h Hc Hh. apply (Hdis h Hh). by exists e. }
  destruct (index_remove n e Hn He) as (res & n' & -> & _ & Hn' & Hrem). simpl.
  destruct (removed_ok _ _ _ Hrem (proj2 Hn)) as (_ & Hap & _ & Hh).
  destruct (IH d1 n') as (d2 & -> & Hok2 & Hh2); try done.
  - destruct Hrem as (l1 & l2 & Hl & ->). rewrite Hl in Hf.
    rewrite length_app in *. simpl in Hf. lia.
  - intros h [Hc|Hc]%Hh1 Hh'.
    + destruct Hh' as (y & Hy & Hcy). pose proof (extents_ok_valid _ _ (proj2 Hn') Hy).
      destruct (Hap y Hy); unfold sep, covers, valid_extent in *; lia.
    + apply (Hdis h Hc), Hh. by right.
  - exists d2. split_and!; try done. intros h. rewrite Hh2, Hh1, Hh. unfold covers. tauto.
Qed.

(** * Taking a handle *)

Lemma highest_dec_spec n :
  n ≠ NULL →
  ∃ l x, elements n = l ++ [x] ∧ height (highest_dec n) = height n ∧
    elements (highest_dec n) = l ++ [mkExtent (e_first x) (u64 (e_last x - 1))] ∧
    (balanced n → balanced (highest_dec n)).
Proof.
  induction n as [|l _ d s r IHr]; [done|]. intros _.
  assert (r = NULL ∨ r ≠ NULL) as [->|Hne] by (destruct r; auto).
  { exists (elements l), d. simpl. done. }
  replace (highest_dec (Node l d s r)) with (Node l d s (highest_dec r)) by (by destruct r).
  destruct (IHr Hne) as (l' & x & He & Hh & He' & Hb).
  exists (elements l ++ d :: l'), x. simpl. rewrite He, He', Hh, <- !app_assoc.
  split_and!; try done. intros (? & ? & ?). auto.
Qed.

(** Shrinking or dropping the last extent takes out exactly its last handle. *)
Lemma take_last l x :
  extents_ok (l ++ [x]) →
  (∀ h, has (l ++ [x]) h → h ≤ e_last x) ∧
  (e_first x = e_last x →
     extents_ok l ∧ (∀ h, has l h ↔ has (l ++ [x]) h ∧ h ≠ e_last x)) ∧
  (e_first x ≠ e_last x →
     let l' := l ++ [mkExtent (e_first x) (e_last x - 1)] in
     extents_ok l' ∧ (∀ h, has l' h ↔ has (l ++ [x]) h ∧ h ≠ e_last x)).
Proof.
  intros [Hs Hv]. apply StronglySorted_app in Hs as (Hc & Hs & _).
  apply Forall_app in Hv as [Hv Hx]. apply Forall_cons in Hx as [Hx _].
  assert (∀ h, has l h → h + 1 < e_first x) as Hlow.
  { intros h (y & Hy & Hcy). assert (sep y x) by (apply Hc; set_solver).
    unfold sep, covers in *. lia. }
  assert (∀ h e, has (l ++ [e]) h ↔ has l h ∨ covers e h) as Hsnoc.
  { intros h e. rewrite has_app, has_cons, has_nil. tauto. }
  unfold valid_extent in Hx. split_and!.
  - intros h [Hh%Hlow|Hh]%Hsnoc; unfold covers in *; lia.
  - intros Heq. split; [done|]. intros h. rewrite Hsnoc. split.
    + intros Hh. pose proof (Hlow h Hh). split; [by left|lia].
    + intros [[?|?] ?]; [done|]. unfold covers in *. lia.
  - intros Hne l'. subst l'. split; [split|].
    + apply StronglySorted_app. split_and!; [|done|repeat constructor].
      intros a b Ha ->%list_elem_of_singleton. unfold sep in *. simpl. apply Hc; set_solver.
    + apply Forall_app. split; [done|]. apply Forall_singleton. unfold valid_extent; simpl. lia.
    + intros h. rewrite !Hsnoc. unfold covers. simpl. split.
      * intros [Hh|?]; [|split; [right|]; lia]. pose proof (Hlow h Hh). split; [by left|lia].
      * intros [[?|?] ?]; [by left|right; lia].
Qed.

Lemma get_and_dec_spec elist :
  index_ok (index elist) →
  (index elist = NULL ∧ extentlist_get_and_dec_extent elist = Done (u64 (-1), elist)) ∨
  ∃ handle elist', extentlist_get_and_dec_extent elist = Done (handle, elist') ∧
    index_ok (index elist') ∧ 1 ≤ handle < B64 ∧ free_in elist handle ∧
    (∀ h, free_in elist h → h ≤ handle) ∧
    (∀ h, free_in elist' h ↔ free_in elist h ∧ h ≠ handle).
Proof.
  intros Hok. unfold extentlist_get_and_dec_extent. rewrite gethighest_spec.
  assert (index elist = NULL ∨ index elist ≠ NULL) as [Hz|Hne]
    by (destruct (index elist); auto).
  { left. by rewrite Hz. }
  right. destruct (highest_dec_spec _ Hne) as (l & x & He & Hh & He' & Hb).
  destruct Hok as [Hbal Hex]. pose proof Hex as Hex0. rewrite He in Hex0.
  rewrite He, last_snoc.
  destruct (take_last l x Hex0) as (Hmax & Hone & Hmany).
  assert (x ∈ elements (index elist)) as Hx by (rewrite He; set_solver).
  pose proof (extents_ok_valid _ _ Hex Hx) as Hv. unfold valid_extent in Hv.
  rewrite decide_True by lia. unfold free_in.
  assert (has (elements (index elist)) (e_last x)) as Hfree
    by (exists x; split; [done|unfold covers; lia]).
  destruct (decide (e_first x = e_last x)) as [Heq|Hneq].
  - destruct (index_remove (index elist) x (conj Hbal Hex) Hx)
      as (res & n' & -> & Hres & Hok' & Hrem). simpl. rewrite decide_False by done.
    do 2 eexists. split; [done|]. simpl. rewrite He in Hfree |- *. split_and!; try done; try lia.
    destruct (removed_ok _ _ _ Hrem Hex) as (_ & Hap & _ & Hh'). intros h.
    rewrite He in Hh'. rewrite Hh'. unfold covers. split; [|intros [[?|?] ?]; [lia|done]].
    intros Hc. split; [by right|]. intros ->. destruct Hc as (y & Hy & Hcy).
    pose proof (extents_ok_valid _ _ (proj2 Hok') Hy).
    destruct (Hap y Hy); unfold sep, covers, valid_extent in *; lia.
  - do 2 eexists. split; [done|]. simpl. rewrite u64_id in He' by lia.
    destruct (Hmany Hneq) as [Hok' Hh']. rewrite He in Hfree |- *.
    split_and!; try done; try lia; [|by rewrite He'].
    split; [by apply Hb|by rewrite He'].
Qed.

(** * Searching *)

Lemma node_split l e s r :
  extents_ok (elements (Node l e s r)) →
  extents_ok (elements l) ∧ extents_ok (elements r) ∧ valid_extent e ∧
  (∀ h, has (elements l) h → h < e_first e) ∧ (∀ h, has (elements r) h → e_last e < h) ∧
  (∀ h, has (elements (Node l e s r)) h ↔
     has (elements l) h ∨ covers e h ∨ has (elements r) h).
Proof.
  intros [Hs Hv]. simpl in Hs, Hv. apply StronglySorted_app in Hs as (Hc & Hsl & Hsr).
  apply StronglySorted_inv in Hsr as [Hsr He]. rewrite Forall_forall in He.
  apply Forall_app in Hv as [Hvl Hv]. apply Forall_cons in Hv as [Hve Hvr].
  split_and!; try done.
  - intros h (y & Hy & ?). assert (sep y e) by (apply Hc; set_solver).
    unfold sep, covers in *. lia.
  - intros h (y & Hy & ?). specialize (He y Hy). unfold sep, covers in *. lia.
  - intros h. simpl. by rewrite has_app, has_cons.
Qed.

Lemma extent_search_spec n handle :
  extents_ok (elements n) →
  match avltree_extent_search n handle with
  | Some (f, l) => mkExtent f l ∈ elements n ∧ f ≤ handle ≤ l
  | None => ¬ has (elements n) handle
  end.
Proof.
  induction n as [|l IHl e s r IHr]; intros Hok; [by intros ?%has_nil|].
  destruct (node_split _ _ _ _ Hok) as (Hl & Hr & Hv & Hlow & Hhigh & Hn).
  unfold valid_extent, covers in *. simpl. repeat case_decide.
  - specialize (IHl Hl). destruct (avltree_extent_search l handle) as [[f la]|];
      [split; [apply elem_of_app; left|]; apply IHl|]. intros [?|[?|?%Hhigh]]%Hn; [done|lia..].
  - specialize (IHr Hr). destruct (avltree_extent_search r handle) as [[f la]|];
      [split; [apply elem_of_app; right; right|]; apply IHr|]. intros [?%Hlow|[?|?]]%Hn; [lia..|done].
  - split; [|lia]. destruct e. set_solver.
Qed.

Lemma search_in_range_spec n first last :
  extents_ok (elements n) → 1 ≤ first ≤ last →
  let handle := avltree_extent_search_in_range n (mkExtent first last) in
  handle = 0 ∧ (∀ h, first ≤ h ≤ last → ¬ has (elements n) h) ∨
  first ≤ handle ≤ last ∧ has (elements n) handle.
Proof.
  induction n as [|l IHl e s r IHr]; intros Hok Hr;
    [left; split; [done|intros h _; by intros ?%has_nil]|].
  destruct (node_split _ _ _ _ Hok) as (Hokl & Hokr & Hv & Hlow & Hhigh & Hn).
  specialize (IHl Hokl Hr). specialize (IHr Hokr Hr). unfold valid_extent, covers in *.
  cbn [avltree_extent_search_in_range e_first e_last].
  repeat (case_decide; [right; split; [lia|apply Hn; right; left; lia]|]).
  destruct (decide (last < e_first e)) as [Hlt|Hge].
  - rewrite bool_decide_true by done.
    assert (∀ h, first ≤ h ≤ last → has (elements (Node l e s r)) h → has (elements l) h) as Hgo.
    { intros h Hh [?|[?|?%Hhigh]]%Hn; [done|lia..]. }
    destruct l as [|ll le ls lr].
    + rewrite (bool_decide_false (first > e_last e)) by lia.
      left. split; [by destruct r|]. intros h Hh Hx%Hgo; [|done]. by apply has_nil in Hx.
    + destruct IHl as [[? Hno]|[? Hyes]]; [left|right]; (split; [done|]); [|apply Hn; by left].
      intros h Hh Hx%Hgo; [|done]. by apply (Hno h).
  - assert (first > e_last e) as Hgt by lia.
    rewrite bool_decide_false, (bool_decide_true (first > e_last e)) by done.
    assert (∀ h, first ≤ h ≤ last → has (elements (Node l e s r)) h → has (elements r) h) as Hgo.
    { intros h Hh [?%Hlow|[?|?]]%Hn; [lia..|done]. }
    replace (match l with NULL => false | _ => false end) with false by (by destruct l).
    destruct r as [|rl re rs rr].
    + left. split; [done|]. intros h Hh Hx%Hgo; [|done]. by apply has_nil in Hx.
    + destruct IHr as [[? Hno]|[? Hyes]]; [left|right]; (split; [done|]);
        [|apply Hn; by right; right].
      intros h Hh Hx%Hgo; [|done]. by apply (Hno h).
Qed.

(** * Removing a handle *)

Lemma apart_sub e p l :
  apart e l → e_first e ≤ e_first p → e_last p ≤ e_last e → apart p l.
Proof. intros Hap ? ? y Hy. destruct (Hap y Hy); unfold sep in *; lia. Qed.

Lemma handle_remove_spec elist handle :
  index_ok (index elist) → free_in elist handle →
  ∃ elist', extentlist_handle_remove malloc_ok elist handle = Done (0, elist') ∧
    index_ok (index elist') ∧ (∀ h, free_in elist' h ↔ free_in elist h ∧ h ≠ handle).
Proof.
  intros Hok Hfree. unfold extentlist_handle_remove, free_in, malloc_ok in *.
  pose proof (extent_search_spec (index elist) handle (proj2 Hok)) as Hs.
  destruct (avltree_extent_search _ _) as [[f l]|]; [|done]. destruct Hs as [He Hr].
  destruct (index_remove _ _ Hok He) as (res & n & Hrm & Hres & Hokn & Hrem). simpl in Hrm.
  rewrite Hrm. simpl. rewrite decide_False by done.
  destruct (removed_ok _ _ _ Hrem (proj2 Hok)) as (_ & Hap & Hv & Hh).
  unfold valid_extent, covers in Hv, Hh; simpl in Hv, Hh.
  assert (∀ h, f ≤ h ≤ l → ¬ has (elements n) h) as Hout.
  { intros h Hc (y & Hy & Hcy). pose proof (extents_ok_valid _ _ (proj2 Hokn) Hy).
    destruct (Hap y Hy); unfold sep, covers, valid_extent in *; simpl in *; lia. }
  repeat case_decide; subst.
  - eexists. split; [done|]. split; [done|]. intros h. simpl. rewrite Hh. split; [|naive_solver lia].
    intros Hc. split; [by right|]. intros ->. by apply (Hout handle).
  - rewrite u64_id by lia.
    destruct (index_insert n (mkExtent (handle + 1) l)) as (? & n1 & -> & _ & Hok1 & _ & Hh1);
      [done|unfold valid_extent; simpl; lia|eapply apart_sub; [done|simpl; lia..]|].
    eexists. split; [done|]. split; [done|]. intros h. simpl. rewrite Hh1, Hh.
    unfold covers; simpl. pose proof (Hout h). naive_solver lia.
  - rewrite u64_id by lia.
    destruct (index_insert n (mkExtent f (handle - 1))) as (? & n1 & -> & _ & Hok1 & _ & Hh1);
      [done|unfold valid_extent; simpl; lia|eapply apart_sub; [done|simpl; lia..]|].
    eexists. split; [done|]. split; [done|]. intros h. simpl. rewrite Hh1, Hh.
    unfold covers; simpl. pose proof (Hout h). naive_solver lia.
  - rewrite !u64_id by lia.
    destruct (index_insert n (mkExtent f (handle - 1))) as (? & n1 & -> & _ & Hok1 & Hp1 & Hh1);
      [done|unfold valid_extent; simpl; lia|eapply apart_sub; [done|simpl; lia..]|]. simpl.
    destruct (index_insert n1 (mkExtent (handle + 1) l)) as (? & n2 & -> & _ & Hok2 & _ & Hh2);
      [done|unfold valid_extent; simpl; lia| |].
    { intros y. rewrite Hp1. intros [->|Hy]%elem_of_cons; [right; unfold sep; simpl; lia|].
      destruct (Hap y Hy); unfold sep in *; simpl in *; lia. }
    eexists. split; [done|]. split; [done|]. intros h. simpl. rewrite Hh2, Hh1, Hh.
    unfold covers; simpl. pose proof (Hout h). naive_solver lia.
Qed.

Lemma get_from_extent_spec elist first last :
  index_ok (index elist) → 1 ≤ first ≤ last →
  (extentlist_get_from_extent malloc_ok elist (mkExtent first last) =
     Done (TROVE_HANDLE_NULL, elist) ∧ ∀ h, first ≤ h ≤ last → ¬ free_in elist h) ∨
  ∃ handle elist',
    extentlist_get_from_extent malloc_ok elist (mkExtent first last) = Done (handle, elist') ∧
    first ≤ handle ≤ last ∧ free_in elist handle ∧ index_ok (index elist') ∧
    (∀ h, free_in elist' h ↔ free_in elist h ∧ h ≠ handle).
Proof.
  intros Hok Hr. unfold extentlist_get_from_extent.
  destruct (search_in_range_spec (index elist) first last (proj2 Hok) Hr) as [[-> Hno]|[Hh Hyes]].
  - left. by rewrite decide_True.
  - right. rewrite decide_False by (unfold TROVE_HANDLE_NULL; lia).
    destruct (handle_remove_spec elist _ Hok Hyes) as (elist' & -> & Hok' & Hiff). simpl.
    do 2 eexists. split; [done|]. done.
Qed.

(** * Counting *)

(** The handles of a list of extents, one by one. *)
Definition handles (l : list TROVE_handle_extent) : list Z :=
  l ≫= λ e, seqZ (e_first e) (e_last e - e_first e + 1).

Lemma elem_of_handles l h : h ∈ handles l ↔ has l h.
Proof.
  unfold handles, has, covers. rewrite list_elem_of_bind.
  split; intros (e & H1 & H2); exists e; rewrite ?elem_of_seqZ in *; (split; [done|lia]) || (split; [lia|done]).
Qed.

Lemma handles_NoDup l : extents_ok l → NoDup (handles l).
Proof.
  intros [Hs Hv]. induction Hs as [|e l Hs IH He]; simpl; [constructor|].
  apply Forall_cons in Hv as [Hve Hv]. apply NoDup_app. split_and!.
  - apply NoDup_seqZ.
  - intros h Hh%elem_of_seqZ Hin. apply elem_of_handles in Hin as (y & Hy & Hc).
    rewrite Forall_forall in He. specialize (He y Hy). unfold sep, covers in *. lia.
  - by apply IH.
Qed.

Lemma handles_bound l b :
  extents_ok l → 0 ≤ b < B64 → (∀ e, e ∈ l → b < e_first e) →
  b + Z.of_nat (length (handles l)) < B64.
Proof.
  intros [Hs Hv]. revert b. induction Hs as [|e l Hs IH He]; intros b Hb Hlow; simpl; [lia|].
  apply Forall_cons in Hv as [Hve Hv]. unfold valid_extent in Hve.
  rewrite length_app, length_seqZ. fold (handles l).
  assert (b < e_first e) by (apply Hlow; set_solver).
  enough (e_last e + Z.of_nat (length (handles l)) < B64) by lia.
  apply IH; [done|lia|]. intros y Hy. rewrite Forall_forall in He.
  specialize (He y Hy). unfold sep in He. lia.
Qed.

Lemma u64_add a b : u64 (u64 a + b) = u64 (a + b).
Proof. unfold u64. by rewrite Zplus_mod_idemp_l. Qed.

Lemma count_fold l acc :
  Forall valid_extent l →
  foldl (λ a e, extent_count e 0 0 a) (u64 acc) l = u64 (acc + Z.of_nat (length (handles l))).
Proof.
  intros Hv. revert acc. induction Hv as [|e l Hve Hv IH]; intros acc; simpl.
  { f_equal. lia. }
  unfold extent_count at 2. rewrite u64_add, IH. f_equal. fold (handles l).
  rewrite length_app, length_seqZ. unfold valid_extent in Hve. lia.
Qed.

Lemma count_spec elist :
  index_ok (index elist) →
  extentlist_count elist = Z.of_nat (length (handles (elements (index elist)))).
Proof.
  intros [_ Hok]. unfold extentlist_count.
  rewrite (depthfirst_spec extent_count (λ a e, extent_count e 0 0 a)) by done.
  change 0 with (u64 0) at 3. rewrite count_fold by apply Hok. rewrite Z.add_0_l.
  apply u64_id. split; [lia|].
  pose proof (handles_bound (elements (index elist)) 0 Hok ltac:(lia)) as H.
  rewrite Z.add_0_l in H. apply H. intros e He%(extents_ok_valid _ _ Hok).
  unfold valid_extent in He. lia.
Qed.

(** * Peeking *)

(** The [k] handles from [handle] down. *)
Definition down (handle k : Z) : list Z := reverse (seqZ (handle - k + 1) k).

Lemma down_cons handle k : 0 < k → down handle k = handle :: down (handle - 1) (k - 1).
Proof.
  intros Hk. unfold down. replace k with ((k - 1) + 1) at 2 by lia.
  rewrite seqZ_snoc, reverse_snoc by lia. f_equal; [lia|]. do 2 f_equal. lia.
Qed.

Lemma down_1 handle : down handle 1 = [handle].
Proof. rewrite down_cons by lia. done. Qed.

Lemma peek_loop_spec first handle max out fuel k :
  1 ≤ handle → first - 1 ≤ handle < B64 → 1 ≤ first →
  Z.of_nat (length out) < max < B31 →
  k = Z.min (max - Z.of_nat (length out)) (handle - Z.max 1 (first - 1) + 1) →
  k ≤ Z.of_nat fuel →
  peek_handles_loop fuel first handle max out = Done (out ++ down handle k).
Proof.
  revert handle out k. induction fuel as [|fuel IH]; intros handle out k Hh Hf H1 Hm Hk Hfuel;
    [lia|].
  cbn [peek_handles_loop]. rewrite length_app. simpl (length [_]).
  replace (Z.of_nat (length out + 1)) with (Z.of_nat (length out) + 1) by lia.
  rewrite i32_id by lia.
  assert (k = 1 → Done (out ++ [handle]) = Done (out ++ down handle k)) as Hone
    by (intros ->; by rewrite down_1).
  case_decide; [apply Hone; lia|].
  destruct (decide (handle >= first)) as [Hge|Hlt]; unfold TROVE_HANDLE_NULL.
  2: { rewrite decide_True by done. apply Hone. lia. }
  rewrite u64_id by lia. destruct (decide (handle - 1 = 0)) as [Hz|Hnz]; [apply Hone; lia|].
  rewrite (IH _ _ (k - 1)); rewrite ?length_app; simpl length; try lia.
  by rewrite <- app_assoc, (down_cons handle k) by lia.
Qed.

Lemma peek_handles_spec elist l x max :
  index_ok (index elist) → elements (index elist) = l ++ [x] → 0 < max < B31 →
  extentlist_peek_handles true elist max =
    Done (0, down (e_last x) (Z.min max (e_last x - Z.max 1 (e_first x - 1) + 1))).
Proof.
  intros Hok He Hm. unfold extentlist_peek_handles. simpl.
  rewrite gethighest_spec, He, last_snoc.
  assert (valid_extent x) as Hv.
  { eapply extents_ok_valid; [apply Hok|]. rewrite He. set_solver. }
  unfold valid_extent in Hv. rewrite decide_True by lia.
  erewrite peek_loop_spec; [|simpl; lia..|reflexivity|simpl; lia]. simpl. rewrite Z.sub_0_r.
  rewrite decide_False; [done|]. rewrite down_cons by lia. done.
Qed.

Lemma peek_from_extent_loop_stuck n f max out fuel last :
  2 ≤ f < B64 → (∀ last, avltree_extent_search_in_range n (mkExtent f last) = f) →
  0 ≤ Z.of_nat (length out) < max → max < B31 → max - Z.of_nat (length out) ≤ Z.of_nat fuel →
  peek_from_extent_loop fuel n f last max out =
    Done (out ++ replicate (Z.to_nat (max - Z.of_nat (length out))) f).
Proof.
  revert out last. induction fuel as [|fuel IH]; intros out last Hf Hs Ho Hm Hfuel; [lia|].
  cbn [peek_from_extent_loop]. rewrite Hs. unfold TROVE_HANDLE_NULL.
  rewrite decide_False by lia. rewrite length_app. simpl (length [_]).
  rewrite i32_id by lia. case_decide as Hd.
  { replace (max - Z.of_nat (length out)) with 1 by lia. done. }
  rewrite u64_id, decide_False by lia.
  rewrite IH; rewrite ?length_app; simpl length; try lia; try done.
  rewrite <- app_assoc. f_equal. f_equal.
  replace (Z.to_nat (max - Z.of_nat (length out)))
    with (S (Z.to_nat (max - Z.of_nat (length out + 1)))) by lia. done.
Qed.

(** [index_ok] of a concrete tree. *)
Ltac index_ok_closed :=
  split; [by vm_compute|]; split; simpl; repeat constructor; unfold sep, valid_extent; simpl; lia.

(** An extent list with the free handles 10..20 and 30. *)
Definition sample_list : TROVE_handle_extentlist :=
  mkExtentlist 2 12 0
    (Node (Node NULL (mkExtent 10 20) NONE NULL) (mkExtent 30 30) LEFT NULL).

Lemma sample_list_ok : index_ok (index sample_list).
Proof. index_ok_closed. Qed.

(** * Theorems *)

(** Adding a valid extent of handles that are not in the list succeeds,
    keeps the index balanced, sorted and maximally coalesced, and adds exactly
    the handles of the extent. *)
Theorem extentlist_addextent_correct now elist first last :
  index_ok (index elist) → valid_extent (mkExtent first last) →
  (∀ h, first ≤ h ≤ last → ¬ free_in elist h) →
  ∃ elist', extentlist_addextent malloc_ok now elist first last = Done (0, elist') ∧
    index_ok (index elist') ∧ timestamp elist' = now ∧
    num_handles elist' = i64 (num_handles elist + (last - first + 1)) ∧
    (∀ h, free_in elist' h ↔ first ≤ h ≤ last ∨ free_in elist h).
Proof. apply addextent_spec. Qed.

Lemma extentlist_addextent_correct_witness :
  ∃ elist', extentlist_addextent malloc_ok 7 sample_list 21 29 = Done (0, elist') ∧
    (∀ h, free_in elist' h ↔ 21 ≤ h ≤ 29 ∨ free_in sample_list h).
Proof.
  destruct (extentlist_addextent_correct 7 sample_list 21 29) as (e & H & _ & _ & _ & Hh);
    [exact sample_list_ok|unfold valid_extent; simpl; lia| |eauto].
  intros h Hr (e & He & Hc). apply elem_of_cons in He as [->|He]; [unfold covers in Hc; simpl in Hc; lia|].
  apply elem_of_cons in He as [->|He]; [unfold covers in Hc; simpl in Hc; lia|].
  by apply not_elem_of_nil in He.
Defined.

(** Allocation hands out the highest free handle and removes exactly that
    handle from the list; only an empty list yields the value -1 converted to
    an unsigned handle. *)
Theorem extentlist_get_and_dec_correct elist :
  index_ok (index elist) →
  (index elist = NULL ∧ extentlist_get_and_dec_extent elist = Done (B64 - 1, elist)) ∨
  ∃ handle elist', extentlist_get_and_dec_extent elist = Done (handle, elist') ∧
    index_ok (index elist') ∧ 1 ≤ handle < B64 ∧ free_in elist handle ∧
    (∀ h, free_in elist h → h ≤ handle) ∧
    (∀ h, free_in elist' h ↔ free_in elist h ∧ h ≠ handle).
Proof. intros Hok. destruct (get_and_dec_spec elist Hok) as [?|?]; [by left|by right]. Qed.

Lemma extentlist_get_and_dec_correct_witness :
  ∃ handle elist', extentlist_get_and_dec_extent sample_list = Done (handle, elist') ∧
    (∀ h, free_in elist' h ↔ free_in sample_list h ∧ h ≠ handle).
Proof.
  destruct (extentlist_get_and_dec_correct sample_list sample_list_ok)
    as [[H _]|(h & e & H & _ & _ & _ & _ & Hh)]; [discriminate H|eauto].
Defined.

(** Allocation from a range returns a free handle of the range and removes
    exactly that handle whenever the range has a free handle, and returns the
    null handle and changes nothing otherwise. *)
Theorem extentlist_get_from_extent_correct elist first last :
  index_ok (index elist) → 1 ≤ first ≤ last →
  (extentlist_get_from_extent malloc_ok elist (mkExtent first last) =
     Done (TROVE_HANDLE_NULL, elist) ∧ ∀ h, first ≤ h ≤ last → ¬ free_in elist h) ∨
  ∃ handle elist',
    extentlist_get_from_extent malloc_ok elist (mkExtent first last) = Done (handle, elist') ∧
    first ≤ handle ≤ last ∧ free_in elist handle ∧ index_ok (index elist') ∧
    (∀ h, free_in elist' h ↔ free_in elist h ∧ h ≠ handle).
Proof. apply get_from_extent_spec. Qed.

Lemma extentlist_get_from_extent_correct_witness :
  ∃ handle elist',
    extentlist_get_from_extent malloc_ok sample_list (mkExtent 15 25) = Done (handle, elist').
Proof.
  destruct (extentlist_get_from_extent_correct sample_list 15 25 sample_list_ok)
    as [[H _]|(h & e & H & _)]; [lia|eauto..].
Defined.

(** Merging moves exactly the handles of the source into the destination
    and terminates with a valid index, when the two lists share no handle. *)
Theorem extentlist_merge_correct now dest src :
  index_ok (index dest) → index_ok (index src) →
  (∀ h, free_in dest h → ¬ free_in src h) →
  ∃ dest', extentlist_merge malloc_ok now dest src = Done (0, dest', with_index src NULL) ∧
    index_ok (index dest') ∧ (∀ h, free_in dest' h ↔ free_in dest h ∨ free_in src h).
Proof.
  intros Hd Hs Hdis. unfold extentlist_merge.
  destruct (merge_loop_spec (length (elements (index src))) now dest (index src))
    as (dest' & -> & Hok & Hh); [done..|]. exists dest'. done.
Qed.

Lemma extentlist_merge_correct_witness :
  ∃ dest', extentlist_merge malloc_ok 0 zero_extentlist sample_list =
      Done (0, dest', with_index sample_list NULL) ∧
    (∀ h, free_in dest' h ↔ free_in zero_extentlist h ∨ free_in sample_list h).
Proof.
  destruct (extentlist_merge_correct 0 zero_extentlist sample_list) as (d & H & _ & Hh);
    [index_ok_closed|exact sample_list_ok|by intros h ?%has_nil|eauto].
Defined.

(** [extentlist_peek_handles] lists the handles of the highest extent from
    its last handle down, but goes on to the handle before the first one of the
    extent, which is not free, when asked for more handles than it holds. *)
Theorem extentlist_peek_handles_output elist l x max :
  index_ok (index elist) → elements (index elist) = l ++ [x] → 0 < max < B31 →
  extentlist_peek_handles true elist max =
    Done (0, down (e_last x) (Z.min max (e_last x - Z.max 1 (e_first x - 1) + 1))) ∧
  (1 < e_first x → e_last x - e_first x + 1 < max →
     ∃ out, extentlist_peek_handles true elist max = Done (0, out) ∧
       e_first x - 1 ∈ out ∧ ¬ free_in elist (e_first x - 1)).
Proof.
  intros Hok He Hm. pose proof (peek_handles_spec elist l x max Hok He Hm) as Hp.
  split; [done|]. intros Hf Hx. eexists. split; [exact Hp|].
  assert (valid_extent x) as Hv.
  { eapply extents_ok_valid; [apply Hok|]. rewrite He. set_solver. }
  unfold valid_extent in Hv. split.
  - unfold down. apply elem_of_reverse, elem_of_seqZ. lia.
  - unfold free_in. rewrite He. intros (y & Hy & Hc). destruct Hok as [_ [Hs _]]. rewrite He in Hs.
    apply StronglySorted_app in Hs as (Hcr & _).
    apply elem_of_app in Hy as [Hy| ->%list_elem_of_singleton]; unfold covers in Hc; [|lia].
    assert (sep y x) by (apply Hcr; set_solver). unfold sep in *. lia.
Qed.

Lemma extentlist_peek_handles_output_witness :
  extentlist_peek_handles true sample_list 5 = Done (0, [30; 29]).
Proof.
  destruct (extentlist_peek_handles_output sample_list [mkExtent 10 20] (mkExtent 30 30) 5)
    as [H _]; [exact sample_list_ok|reflexivity|lia|]. rewrite H. reflexivity.
Defined.

(** [extentlist_peek_handles_from_extent] repeats one handle: when the
    range starts with the first handle of the extent found, every handle
    written to the output is that handle. *)
Theorem extentlist_peek_from_extent_repeats elist e s last max :
  index elist = Node NULL e s NULL → 2 ≤ e_first e < B64 → 0 < max < B31 →
  extentlist_peek_handles_from_extent true elist (mkExtent (e_first e) last) max =
    Done (0, replicate (Z.to_nat max) (e_first e)).
Proof.
  intros Hi Hf Hm. unfold extentlist_peek_handles_from_extent. cbn [negb e_first e_last]. rewrite Hi.
  rewrite peek_from_extent_loop_stuck; [|done| |cbn [length]; lia..].
  - simpl length. replace (Z.to_nat (max - Z.of_nat 0)) with (S (Z.to_nat (max - 1))) by lia.
    replace (Z.to_nat max) with (S (Z.to_nat (max - 1))) by lia. done.
  - intros l'. simpl. by rewrite decide_True by (by left).
Qed.

Lemma extentlist_peek_from_extent_repeats_witness :
  extentlist_peek_handles_from_extent true
    (mkExtentlist 1 11 0 (Node NULL (mkExtent 10 20) NONE NULL)) (mkExtent 10 20) 3 =
    Done (0, [10; 10; 10]).
Proof.
  apply (extentlist_peek_from_extent_repeats
    (mkExtentlist 1 11 0 (Node NULL (mkExtent 10 20) NONE NULL)) (mkExtent 10 20) NONE 20 3);
    [reflexivity|simpl; lia|lia].
Defined.
