(* ===== verification/Quickhash.v ===== *)
(** src/src/common/quickhash/quickhash.h: the chained hash table used
    throughout the system, and its hash functions.

    A table is an array of lists of entries.  The entries are what the links
    are embedded in, a list holds them from head to tail. *)

From stdpp Require Import list numbers sets.
From S2P Require Import Prelude.

Section quickhash.
(** The two functions [qhash_init] is passed: [compare key entry], and
    [hash key table_size]. *)
Context {K V : Type} (compare : K → V → bool) (hash : K → Z → Z).

Record qhash_table := mkQhash {
  table_size : Z;          (* int *)
  array : list (list V);   (* table_size list heads *)
}.

(** [alloc] says which of the two mallocs succeed. *)
Definition qhash_init (alloc : nat → bool) (size : Z) : option qhash_table :=
  if alloc 0%nat then
    if alloc 1%nat then Some (mkQhash size (replicate (Z.to_nat size) [])) else None
  else None.

(** The list head at an index; outside of the array is a bad access. *)
Definition bucket (table : qhash_table) (indx : Z) : exec (list V) :=
  if decide (0 ≤ indx) then
    match array table !! Z.to_nat indx with
    | Some l => Done l
    | None => Fault BadAccess
    end
  else Fault BadAccess.

Definition set_bucket (table : qhash_table) (indx : Z) (l : list V) : qhash_table :=
  mkQhash (table_size table) (<[Z.to_nat indx := l]> (array table)).

(** Adds to the tail of the linked list at the offset of the key. *)
Definition qhash_add (table : qhash_table) (key : K) (linkp : V) : exec qhash_table :=
  let indx := hash key (table_size table) in
  l ← bucket table indx;
  Done (set_bucket table indx (l ++ [linkp])).

(** The first entry of a list that matches, and the list without it. *)
Fixpoint search_list (key : K) (l : list V) : option (V * list V) :=
  match l with
  | [] => None
  | v :: l' =>
      if compare key v then Some (v, l')
      else match search_list key l' with
           | Some (w, l'') => Some (w, v :: l'')
           | None => None
           end
  end.

Definition qhash_search (table : qhash_table) (key : K) : exec (option V) :=
  l ← bucket table (hash key (table_size table));
  Done (fst <$> search_list key l).

Definition qhash_search_at_index (table : qhash_table) (indx : Z) : exec (option V) :=
  if decide (indx >= table_size table) then Done None else
  l ← bucket table indx;
  Done (head l).

Definition qhash_search_and_remove (table : qhash_table) (key : K)
    : exec (option V * qhash_table) :=
  let indx := hash key (table_size table) in
  l ← bucket table indx;
  match search_list key l with
  | Some (v, l') => Done (Some v, set_bucket table indx l')
  | None => Done (None, table)
  end.

Definition qhash_search_and_remove_at_index (table : qhash_table) (indx : Z)
    : exec (option V * qhash_table) :=
  if decide (indx >= table_size table) then Done (None, table) else
  l ← bucket table indx;
  match l with
  | v :: l' => Done (Some v, set_bucket table indx l')
  | [] => Done (None, table)
  end.

(** * Specification *)

(** The key an entry was added under. *)
Context (key_of : V → K).

(** The entries of a table. *)
Definition entries (table : qhash_table) : list V := concat (array table).

(** Every entry is in the list of its own key. *)
Definition table_ok (table : qhash_table) : Prop :=
  0 < table_size table < B31 ∧ Z.of_nat (length (array table)) = table_size table ∧
  ∀ i l v, array table !! i = Some l → v ∈ l →
    hash (key_of v) (table_size table) = Z.of_nat i.

(** [compare] decides equality of keys, and [hash] yields an index. *)
Context (Hcompare : ∀ k v, compare k v = true ↔ key_of v = k).
Context (Hhash : ∀ k n, 0 < n < B31 → 0 ≤ hash k n < n).

Lemma bucket_Some table indx :
  table_ok table → 0 ≤ indx < table_size table →
  ∃ l, bucket table indx = Done l ∧ array table !! Z.to_nat indx = Some l.
Proof using Type.
  intros (Hs & Hl & _) Hi. unfold bucket. rewrite decide_True by lia.
  destruct (lookup_lt_is_Some_2 (array table) (Z.to_nat indx) ltac:(lia)) as [l Hx].
  exists l. by rewrite Hx.
Qed.

Lemma concat_insert (a : list (list V)) i l l' :
  a !! i = Some l →
  ∃ pre post, concat a = pre ++ l ++ post ∧ concat (<[i := l']> a) = pre ++ l' ++ post.
Proof using Type.
  intros Hi. exists (concat (take i a)), (concat (drop (S i) a)).
  rewrite insert_take_drop by (by eapply lookup_lt_Some).
  split; [|by rewrite concat_app].
  rewrite <- (take_drop_middle a i l Hi) at 1. by rewrite concat_app.
Qed.

Lemma search_list_Some key l v l' :
  search_list key l = Some (v, l') →
  ∃ l1 l2, l = l1 ++ v :: l2 ∧ l' = l1 ++ l2 ∧ compare key v = true ∧
    Forall (λ w, compare key w = false) l1.
Proof using Type.
  revert l'. induction l as [|w l IH]; intros l'; simpl; [done|].
  destruct (compare key w) eqn:Hc; [intros [= -> ->]; exists [], l'; split_and!; done|].
  destruct (search_list key l) as [[x l'']|]; [|done]. intros [= -> <-].
  destruct (IH _ eq_refl) as (l1 & l2 & -> & -> & ? & ?).
  exists (w :: l1), l2. split_and!; try done. by constructor.
Qed.

Lemma search_list_None key l :
  search_list key l = None → Forall (λ w, compare key w = false) l.
Proof using Type.
  induction l as [|w l IH]; simpl; [constructor|]. destruct (compare key w) eqn:Hc; [done|].
  destruct (search_list key l) as [[]|]; [done|]. constructor; auto.
Qed.

Lemma set_bucket_ok table indx l l' :
  table_ok table → 0 ≤ indx → array table !! Z.to_nat indx = Some l →
  (∀ v, v ∈ l' → v ∈ l ∨ hash (key_of v) (table_size table) = indx) →
  table_ok (set_bucket table indx l').
Proof using Type.
  intros (Hs & Hl & Hp) Hi Hx Hsub. split_and!; simpl; [lia|lia|by rewrite length_insert|].
  intros i m v Hm Hv. destruct (decide (i = Z.to_nat indx)) as [->|Hne].
  - rewrite list_lookup_insert_eq in Hm by (by eapply lookup_lt_Some).
    injection Hm as <-. rewrite Z2Nat.id by done.
    destruct (Hsub v Hv) as [Hv'|?]; [|done]. rewrite (Hp _ _ _ Hx Hv'). lia.
  - rewrite list_lookup_insert_ne in Hm by done. by eapply Hp.
Qed.

(** A key that matches an entry leads to the list of that entry. *)
Lemma entry_in_bucket table v l :
  table_ok table → v ∈ entries table →
  array table !! Z.to_nat (hash (key_of v) (table_size table)) = Some l → v ∈ l.
Proof using Type.
  intros (Hs & Hl & Hp) Hv Hx. unfold entries in Hv.
  apply list_elem_of_In, in_concat in Hv as (m & Hm & Hv).
  apply list_elem_of_In in Hm, Hv. apply list_elem_of_lookup in Hm as [i Hi].
  rewrite (Hp _ _ _ Hi Hv), Nat2Z.id in Hx. congruence.
Qed.

Lemma search_spec table key :
  table_ok table →
  ∃ r, qhash_search table key = Done r ∧
    match r with
    | Some v => v ∈ entries table ∧ key_of v = key
    | None => ∀ v, v ∈ entries table → key_of v ≠ key
    end.
Proof using Hcompare Hhash.
  intros Hok. destruct (bucket_Some table (hash key (table_size table)) Hok) as (l & Hb & Hx);
    [apply Hhash, Hok|].
  unfold qhash_search. rewrite Hb. simpl.
  destruct (search_list key l) as [[v l']|] eqn:Hs; simpl; eexists; (split; [reflexivity|]).
  - apply search_list_Some in Hs as (l1 & l2 & -> & _ & Hc & _). split; [|by apply Hcompare].
    destruct (concat_insert _ _ _ [] Hx) as (pre & post & He & _). unfold entries. rewrite He.
    set_solver.
  - apply search_list_None in Hs. rewrite Forall_forall in Hs. intros v Hv Hk. subst key.
    pose proof (entry_in_bucket table v l Hok Hv Hx) as Hin.
    pose proof (proj2 (Hcompare (key_of v) v) eq_refl) as Hc. rewrite (Hs v Hin) in Hc. done.
Qed.

Lemma add_spec table v :
  table_ok table →
  ∃ table', qhash_add table (key_of v) v = Done table' ∧ table_ok table' ∧
    entries table' ≡ₚ v :: entries table ∧
    ∀ k, qhash_search table' k =
      (r ← qhash_search table k;
       Done (match r with Some x => Some x | None => if compare k v then Some v else None end)).
Proof using Hcompare Hhash.
  intros Hok. set (i := hash (key_of v) (table_size table)).
  assert (0 ≤ i < table_size table) as Hi by apply Hhash, Hok.
  destruct (bucket_Some table i Hok Hi) as (l & Hb & Hx).
  unfold qhash_add. fold i. rewrite Hb. simpl. eexists. split; [reflexivity|]. split_and!.
  - eapply set_bucket_ok; [done|lia|done|]. intros w Hw. set_solver.
  - destruct (concat_insert _ _ _ (l ++ [v]) Hx) as (pre & post & He & He').
    unfold entries. simpl. rewrite He, He'. solve_Permutation.
  - intros k. unfold qhash_search. simpl.
    destruct (decide (hash k (table_size table) = i)) as [->|Hne].
    + rewrite Hb. simpl. unfold bucket. simpl. rewrite decide_True by lia.
      rewrite list_lookup_insert_eq by (by eapply lookup_lt_Some). simpl. f_equal.
      clear. induction l as [|w l IH]; simpl; [by destruct (compare k v)|].
      destruct (compare k w); [done|].
      destruct (search_list k (l ++ [v])) as [[]|], (search_list k l) as [[]|]; simpl in *;
        try done; by destruct (compare k v).
    + assert (0 ≤ hash k (table_size table) < table_size table) as Hk by apply Hhash, Hok.
      unfold bucket; simpl. rewrite !decide_True by lia.
      rewrite list_lookup_insert_ne by lia.
      destruct (array table !! Z.to_nat (hash k (table_size table))) as [m|]; [|done]. simpl.
      destruct (search_list k m) as [[]|] eqn:Hs; simpl; [done|].
      destruct (compare k v) eqn:Hc; [|done]. apply Hcompare in Hc. subst k. by destruct Hne.
Qed.

Lemma remove_entry_spec table key :
  table_ok table →
  ∃ r table', qhash_search_and_remove table key = Done (r, table') ∧
    qhash_search table key = Done r ∧ table_ok table' ∧
    match r with
    | Some v => entries table ≡ₚ v :: entries table'
    | None => table' = table
    end.
Proof using Hcompare Hhash.
  intros Hok. set (i := hash key (table_size table)).
  assert (0 ≤ i < table_size table) as Hi by apply Hhash, Hok.
  destruct (bucket_Some table i Hok Hi) as (l & Hb & Hx).
  unfold qhash_search_and_remove, qhash_search. fold i. rewrite Hb. simpl.
  destruct (search_list key l) as [[v l']|] eqn:Hs; do 2 eexists; (split; [reflexivity|]);
    simpl; split_and!; try done.
  - eapply set_bucket_ok; [done|lia|done|]. intros w Hw. left.
    apply search_list_Some in Hs as (l1 & l2 & -> & -> & _). set_solver.
  - apply search_list_Some in Hs as (l1 & l2 & -> & -> & _).
    destruct (concat_insert _ _ _ (l1 ++ l2) Hx) as (pre & post & He & He').
    unfold entries. simpl. rewrite He, He'. solve_Permutation.
Qed.

Lemma init_ok size table :
  0 < size < B31 → qhash_init (λ _, true) size = Some table →
  table_ok table ∧ entries table = [].
Proof using Type.
  intros Hs [= <-]. split; [split_and!; simpl; [lia|lia|rewrite length_replicate; lia|]|].
  - intros i l v [-> _]%lookup_replicate Hv. by apply not_elem_of_nil in Hv.
  - unfold entries. simpl. induction (Z.to_nat size); simpl; done.
Qed.
End quickhash.

(** * Hash functions *)

Definition quickhash_32bit_hash (k : Z) (table_size : Z) : Z :=
  let key := k in
  let key := i32 (i32 (Z.lnot key) + i32 (Z.shiftl key 15)) in
  let key := Z.lxor key (Z.shiftr key 12) in
  let key := i32 (key + i32 (Z.shiftl key 2)) in
  let key := Z.lxor key (Z.shiftr key 4) in
  let key := i32 (key * 2057) in
  let key := Z.lxor key (Z.shiftr key 16) in
  Z.land key (i32 (table_size - 1)).

Definition quickhash_64bit_hash (k : Z) (table_size : Z) : Z :=
  let key := k in
  let key := u64 (u64 (Z.lnot key) + u64 (Z.shiftl key 18)) in
  let key := Z.lxor key (Z.shiftr key 31) in
  let key := u64 (key * 21) in
  let key := Z.lxor key (Z.shiftr key 11) in
  let key := u64 (key + u64 (Z.shiftl key 6)) in
  let key := Z.lxor key (Z.shiftr key 22) in
  i32 (Z.land key (u64 (i32 (table_size - 1)))).

(** One character of [quickhash_string_hash]; [c] is a (signed) [char]. *)
Definition string_hash_step (h c : Z) : Z :=
  let h := u32 (u32 (Z.shiftl h 4) + c) in
  let g := Z.land h 240 in
  if decide (g ≠ 0) then Z.lxor (Z.lxor h (Z.shiftr g 24)) g else h.

(** [str] is the string without its terminating zero. *)
Definition quickhash_string_hash (str : list Z) (table_size : Z) : Z :=
  let h := foldl string_hash_step 0 str in
  i32 (Z.land h (u64 (i32 (table_size - 1)))).

Lemma land_range a m : 0 ≤ m → 0 ≤ Z.land a m ≤ m.
Proof.
  intros Hm. assert (0 ≤ Z.land a m) as H0 by (apply Z.land_nonneg; by right).
  split; [done|]. rewrite <- (Z.lor_ldiff_and m a) at 2. rewrite (Z.land_comm m a).
  assert (Z.land (Z.ldiff m a) (Z.land a m) = 0) as Hd.
  { apply Z.bits_inj'. intros n Hn. rewrite !Z.land_spec, Z.ldiff_spec, Z.bits_0.
    destruct (Z.testbit a n), (Z.testbit m n); done. }
  rewrite <- Z.add_nocarry_lor by done.
  assert (0 ≤ Z.ldiff m a) by (apply Z.ldiff_nonneg; by left). lia.
Qed.

(** * Theorems *)

(** A table whose compare function decides equality of keys is a map:
    after adding an entry a search finds the entry that was there before under
    the same key, otherwise the new one, and every other key as before; a
    search that removes returns what a search returns and takes out exactly
    that entry; no operation leaves the array of lists. *)
Theorem qhash_map {K V : Type} (compare : K → V → bool) (hash : K → Z → Z)
    (key_of : V → K) table :
  (∀ k v, compare k v = true ↔ key_of v = k) →
  (∀ k n, 0 < n < B31 → 0 ≤ hash k n < n) →
  table_ok hash key_of table →
  (∀ v, ∃ table', qhash_add hash table (key_of v) v = Done table' ∧
     table_ok hash key_of table' ∧ entries table' ≡ₚ v :: entries table ∧
     ∀ k, qhash_search compare hash table' k =
       (r ← qhash_search compare hash table k;
        Done (match r with Some x => Some x | None => if compare k v then Some v else None end))) ∧
  (∀ k, ∃ r table', qhash_search compare hash table k = Done r ∧
     qhash_search_and_remove compare hash table k = Done (r, table') ∧
     table_ok hash key_of table' ∧
     match r with
     | Some v => key_of v = k ∧ entries table ≡ₚ v :: entries table'
     | None => table' = table ∧ ∀ v, v ∈ entries table → key_of v ≠ k
     end).
Proof.
  intros Hc Hh Hok. split; [intros v; by apply add_spec|]. intros k.
  destruct (search_spec compare hash key_of Hc Hh table k Hok) as (r & Hs & Hr).
  destruct (remove_entry_spec compare hash key_of Hc Hh table k Hok)
    as (r' & table' & Hrm & Hs' & Hok' & Hr'). rewrite Hs in Hs'. injection Hs' as <-.
  exists r, table'. split_and!; try done. by destruct r as [v|]; [destruct Hr|].
Qed.

Lemma qhash_map_witness :
  ∃ table', qhash_add (λ k n, k mod n) (mkQhash 3 [[3]; []; [2]]) 5 5 = Done table' ∧
    entries table' ≡ₚ [5; 3; 2].
Proof.
  destruct (qhash_map (λ k v, bool_decide (v = k)) (λ k n, k mod n) id
    (mkQhash 3 [[3]; []; [2]])) as [Hadd _].
  - intros k v. by rewrite bool_decide_eq_true.
  - intros k n Hn. apply Z.mod_pos_bound. lia.
  - split_and!; simpl; try lia. intros i l v Hi Hv.
    destruct i as [|[|[|i]]]; simpl in Hi; simplify_eq;
      (apply list_elem_of_singleton in Hv || apply not_elem_of_nil in Hv); subst; done.
  - destruct (Hadd 5) as (t' & H & _ & Hp & _). eauto.
Defined.

Lemma hash_mask n : 0 < n < B31 → 0 ≤ i32 (n - 1) < n ∧ u64 (i32 (n - 1)) = i32 (n - 1).
Proof. intros. rewrite i32_id by lia. split; [lia|]. apply u64_id. lia. Qed.

(** The three hash functions yield an index of the table, for every key
    and every table size, a power of two or not. *)
Theorem quickhash_range k str n :
  0 < n < B31 →
  0 ≤ quickhash_32bit_hash k n < n ∧ 0 ≤ quickhash_64bit_hash k n < n ∧
  0 ≤ quickhash_string_hash str n < n.
Proof.
  intros Hn. destruct (hash_mask n Hn) as [Hm Hu].
  unfold quickhash_32bit_hash, quickhash_64bit_hash, quickhash_string_hash. rewrite Hu.
  repeat match goal with
  | |- context [Z.land ?a (i32 (n - 1))] =>
      pose proof (land_range a (i32 (n - 1)) (proj1 Hm)); generalize dependent (Z.land a (i32 (n - 1)))
  end.
  intros. rewrite !(i32_id z), ?(i32_id z0) by lia. lia.
Qed.

Lemma quickhash_range_witness :
  0 ≤ quickhash_32bit_hash (-7) 1021 < 1021 ∧ 0 ≤ quickhash_64bit_hash (-7) 1021 < 1021 ∧
  0 ≤ quickhash_string_hash [97; -3] 1021 < 1021.
Proof. apply quickhash_range. lia. Defined.
