(* ===== verification/Tcache.v ===== *)
(** src/src/common/misc/tcache.c: the timeout cache, on which the name cache
    and other caches are built.

    Entries live in [store], a memory from addresses to entries; the hash
    table and the LRU list hold their addresses.  [gettimeofday] is read
    through [clock], its successive readings during a call; the result of
    [calloc] is an argument.  [freed] lists the payloads that were handed to
    [free_payload] so far. *)

From stdpp Require Import list numbers gmap.
From S2P Require Import Prelude Errors Quickhash.

Record timeval := mkTime { tv_sec : Z; tv_usec : Z }.

Definition LEAST_RECENTLY_USED : Z := 1.

Inductive PINT_tcache_options :=
  | TCACHE_TIMEOUT_MSECS | TCACHE_NUM_ENTRIES | TCACHE_HARD_LIMIT | TCACHE_SOFT_LIMIT
  | TCACHE_ENABLE | TCACHE_RECLAIM_PERCENTAGE | TCACHE_REPLACE_ALGORITHM
  | TCACHE_ENABLE_EXPIRATION.

Definition TCACHE_DEFAULT_TIMEOUT_MSECS : Z := 4000.
Definition TCACHE_DEFAULT_EXPIRATION_ENABLED : Z := 1.
Definition TCACHE_DEFAULT_SOFT_LIMIT : Z := 5120.
Definition TCACHE_DEFAULT_HARD_LIMIT : Z := 10240.
Definition TCACHE_DEFAULT_RECLAIM_PERCENTAGE : Z := 25.
Definition TCACHE_DEFAULT_TABLE_SIZE : Z := 1019.
Definition TCACHE_DEFAULT_REPLACE_ALGORITHM : Z := LEAST_RECENTLY_USED.

Section tcache.
(** The functions [PINT_tcache_initialize] is passed. *)
Context {K P : Type} (compare_key_entry : K → P → bool) (hash_key : K → Z → Z).

Record PINT_tcache_entry := mkEntry {
  payload : P;
  expiration_date : timeval;
}.

Record PINT_tcache := mkTcache {
  timeout_msecs : Z;          (* unsigned int: timeout to use with each entry *)
  expiration_enabled : Z;     (* unsigned int: do cache entries expire? *)
  num_entries : Z;            (* unsigned int: current number of entries *)
  hard_limit : Z;             (* unsigned int: hard limit on number of entries *)
  soft_limit : Z;             (* unsigned int: soft limit on number of entries *)
  reclaim_percentage : Z;     (* unsigned int: percentage to reclaim at soft limit *)
  replacement_algorithm : Z;  (* how to find an entry to replace *)
  enable : Z;                 (* unsigned int: is the cache enabled? *)
  h_table : qhash_table (V := positive);
  lru_list : list positive;   (* from the least recently used *)
  store : gmap positive PINT_tcache_entry;
  freed : list P;
}.

(** Replacing the entries. *)
Definition with_entries (tc : PINT_tcache) (num : Z) (t : qhash_table (V := positive))
    (lru : list positive) (st : gmap positive PINT_tcache_entry) (fr : list P) : PINT_tcache :=
  mkTcache (timeout_msecs tc) (expiration_enabled tc) num (hard_limit tc) (soft_limit tc)
    (reclaim_percentage tc) (replacement_algorithm tc) (enable tc) t lru st fr.

Definition entry_at (tc : PINT_tcache) (a : positive) : exec PINT_tcache_entry :=
  match store tc !! a with Some e => Done e | None => Fault BadAccess end.

(** The comparison on links. *)
Definition compare_link (st : gmap positive PINT_tcache_entry) (key : K) (a : positive) : bool :=
  match st !! a with Some e => compare_key_entry key (payload e) | None => false end.

(** [qlist_del]: unlinking what is in no list corrupts memory. *)
Definition qlist_del (a : positive) (l : list positive) : exec (list positive) :=
  if decide (a ∈ l) then Done (filter (λ b, b ≠ a) l) else Fault BadAccess.

Definition qhash_del (t : qhash_table (V := positive)) (a : positive)
    : exec (qhash_table (V := positive)) :=
  if decide (a ∈ concat (array t))
  then Done (mkQhash (table_size t) (filter (λ b, b ≠ a) <$> array t))
  else Fault BadAccess.

(** [alloc] says whether the cache and the table can be allocated. *)
Definition PINT_tcache_initialize (alloc : bool) (alloc' : nat → bool) (size : Z)
    : option PINT_tcache :=
  if alloc then
    match qhash_init alloc' (if decide (size ≤ 0) then TCACHE_DEFAULT_TABLE_SIZE else size) with
    | Some t =>
        Some (mkTcache TCACHE_DEFAULT_TIMEOUT_MSECS TCACHE_DEFAULT_EXPIRATION_ENABLED 0
          TCACHE_DEFAULT_HARD_LIMIT TCACHE_DEFAULT_SOFT_LIMIT TCACHE_DEFAULT_RECLAIM_PERCENTAGE
          TCACHE_DEFAULT_REPLACE_ALGORITHM 1 t [] ∅ [])
    | None => None
    end
  else None.

Definition PINT_tcache_get_info (tc : PINT_tcache) (option : PINT_tcache_options) : Z * Z :=
  (0, match option with
      | TCACHE_TIMEOUT_MSECS => timeout_msecs tc
      | TCACHE_ENABLE_EXPIRATION => expiration_enabled tc
      | TCACHE_NUM_ENTRIES => num_entries tc
      | TCACHE_HARD_LIMIT => hard_limit tc
      | TCACHE_SOFT_LIMIT => soft_limit tc
      | TCACHE_ENABLE => enable tc
      | TCACHE_RECLAIM_PERCENTAGE => reclaim_percentage tc
      | TCACHE_REPLACE_ALGORITHM => replacement_algorithm tc
      end).

(** The parameters, with the entries left alone. *)
Definition with_params (tc : PINT_tcache) (timeout exp hard soft percentage algorithm en : Z)
    : PINT_tcache :=
  mkTcache timeout exp (num_entries tc) hard soft percentage algorithm en
    (h_table tc) (lru_list tc) (store tc) (freed tc).

Definition PINT_tcache_set_info (tc : PINT_tcache) (option : PINT_tcache_options) (arg : Z)
    : Z * PINT_tcache :=
  let '(t, x, h, s) := (timeout_msecs tc, expiration_enabled tc, hard_limit tc, soft_limit tc) in
  let '(p, r, e) := (reclaim_percentage tc, replacement_algorithm tc, enable tc) in
  match option with
  | TCACHE_TIMEOUT_MSECS =>
      (* disable the cache if the timeout is zero *)
      (0, with_params tc arg x h s p r (if decide (arg = 0) then 0 else 1))
  | TCACHE_ENABLE_EXPIRATION => (0, with_params tc t arg h s p r e)
  | TCACHE_NUM_ENTRIES => (- PVFS_EINVAL, tc)
  | TCACHE_HARD_LIMIT =>
      if decide (arg < 1) then (- PVFS_EINVAL, tc) else (0, with_params tc t x arg s p r e)
  | TCACHE_SOFT_LIMIT =>
      if decide (arg < 1) then (- PVFS_EINVAL, tc) else (0, with_params tc t x h arg p r e)
  | TCACHE_ENABLE =>
      if decide (arg ≠ 1 ∧ arg ≠ 0) then (- PVFS_EINVAL, tc)
      else (0, with_params tc t x h s p r arg)
  | TCACHE_RECLAIM_PERCENTAGE =>
      if decide (arg > 100) then (- PVFS_EINVAL, tc) else (0, with_params tc t x h s arg r e)
  | TCACHE_REPLACE_ALGORITHM =>
      if decide (arg < 1) then (- PVFS_EINVAL, tc) else (0, with_params tc t x h s p arg e)
  end.

(** -PVFS_ETIME if the entry has expired at the time [tv]. *)
Definition check_expiration (tc : PINT_tcache) (entry : PINT_tcache_entry) (tv : timeval) : Z :=
  if decide (expiration_enabled tc = 0) then 0
  else if decide (tv_sec tv > tv_sec (expiration_date entry)) then - PVFS_ETIME
  else if decide (tv_sec tv < tv_sec (expiration_date entry)) then 0
  else if decide (tv_usec tv > tv_usec (expiration_date entry)) then - PVFS_ETIME
  else 0.

(** The time stamp [timeout_msecs] in the future. *)
Definition expires (timeout : Z) (now : timeval) : timeval :=
  let sec := tv_sec now +ₗ timeout / 1000 in
  let usec := tv_usec now +ₗ timeout mod 1000 * 1000 in
  if decide (usec > 1000000) then mkTime (sec +ₗ 1) (usec -ₗ 1000000) else mkTime sec usec.

Definition PINT_tcache_refresh_entry (tc : PINT_tcache) (entry : PINT_tcache_entry) (now : timeval)
    : Z * PINT_tcache_entry :=
  if decide (expiration_enabled tc = 0) then (0, entry)
  else (0, mkEntry (payload entry) (expires (timeout_msecs tc) now)).

(** The entry is unlinked and destroyed with its payload. *)
Definition PINT_tcache_delete (tc : PINT_tcache) (a : positive) : exec (Z * PINT_tcache) :=
  e ← entry_at tc a;
  t ← qhash_del (h_table tc) a;
  lru ← qlist_del a (lru_list tc);
  Done (0, with_entries tc (u32 (num_entries tc - 1)) t lru (delete a (store tc))
             (freed tc ++ [payload e])).

(** The entry at the head of the LRU list, and its status. *)
Definition tcache_lookup_oldest (tc : PINT_tcache) (now : timeval)
    : exec (Z * option positive * Z) :=
  match lru_list tc with
  | [] => Done (- PVFS_ENOENT, None, - PVFS_EINVAL)
  | a :: _ => e ← entry_at tc a; Done (0, Some a, check_expiration tc e now)
  end.

(** The entry, its status, and the cache with the entry moved to the tail of
    the LRU list. *)
Definition PINT_tcache_lookup (tc : PINT_tcache) (key : K) (now : timeval)
    : exec (Z * option positive * Z * PINT_tcache) :=
  r ← qhash_search (compare_link (store tc)) hash_key (h_table tc) key;
  match r with
  | None => Done (- PVFS_ENOENT, None, - PVFS_EINVAL, tc)
  | Some a =>
      e ← entry_at tc a;
      lru ← qlist_del a (lru_list tc);
      Done (0, Some a, check_expiration tc e now,
            with_entries tc (num_entries tc) (h_table tc) (lru ++ [a]) (store tc) (freed tc))
  end.

(** Going down the LRU list [l]; the loop saves the next link before the
    entry is deleted. *)
Fixpoint reclaim_loop (tc : PINT_tcache) (tv : timeval) (l : list positive)
    (entries_to_purge reclaimed : Z) : exec (Z * PINT_tcache * Z) :=
  match l with
  | [] => Done (0, tc, reclaimed)
  | a :: l =>
      e ← entry_at tc a;
      if decide (check_expiration tc e tv = 0) then Done (0, tc, reclaimed)
      else
        '(ret, tc) ← PINT_tcache_delete tc a;
        if decide (ret < 0) then Done (ret, tc, reclaimed)
        else
          (* break if we hit percentage cap *)
          if decide (i32 (entries_to_purge - 1) ≤ 0) then Done (0, tc, i32 (reclaimed + 1))
          else reclaim_loop tc tv l (i32 (entries_to_purge - 1)) (i32 (reclaimed + 1))
  end.

Definition PINT_tcache_reclaim (tc : PINT_tcache) (now : timeval) : exec (Z * PINT_tcache * Z) :=
  let entries_to_purge := i32 (u32 (reclaim_percentage tc * soft_limit tc) / 100) in
  reclaim_loop tc now (lru_list tc) entries_to_purge 0.

(** Over the hard limit the oldest entry is removed, whatever its status: the
    result, [*purged] and the cache.  [ret] is the value the variable has when
    the switch over the algorithms is reached. *)
Definition replace_oldest (tc : PINT_tcache) (ret purged : Z) (now : timeval)
    : exec (Z * Z * PINT_tcache) :=
  if decide (num_entries tc >= hard_limit tc) then
    '(ret, tmp_entry, _) ←
      (if decide (replacement_algorithm tc = LEAST_RECENTLY_USED)
       then tcache_lookup_oldest tc now else Done (ret, None, 0));
    if decide (ret < 0) then Done (ret, purged, tc)
    else
      match tmp_entry with
      | None => Fault BadAccess
      | Some a =>
          '(ret, tc) ← PINT_tcache_delete tc a;
          if decide (ret < 0) then Done (ret, purged, tc) else Done (0, 1, tc)
      end
  else Done (0, purged, tc).

(** Room for a new entry. *)
Definition make_room (tc : PINT_tcache) (clock : nat → timeval) : exec (Z * Z * PINT_tcache) :=
  (* are we over the soft limit? *)
  if decide (num_entries tc >= soft_limit tc) then
    (* try to reclaim some entries *)
    '(ret, tc, purged) ← PINT_tcache_reclaim tc (clock 0%nat);
    if decide (ret < 0) then Done (ret, purged, tc)
    else replace_oldest tc ret purged (clock 1%nat)
  else replace_oldest tc (-1) 0 (clock 1%nat).

(** The return value, [*purged] and the cache; [alloc] is the address of the
    new entry. *)
Definition PINT_tcache_insert_entry_ex (tc : PINT_tcache) (alloc : option positive) (key : K)
    (pl : P) (expiration : option timeval) (clock : nat → timeval)
    : exec (Z * Z * PINT_tcache) :=
  if decide (enable tc = 0) then
    (* cache has been disabled, do nothing except discard payload *)
    Done (0, 0, with_entries tc (num_entries tc) (h_table tc) (lru_list tc) (store tc)
                  (freed tc ++ [pl]))
  else
    '(ret, purged, tc) ← make_room tc clock;
    if decide (ret < 0) then Done (ret, purged, tc)
    else
      match alloc with
      | None => Done (- PVFS_ENOMEM, purged, tc)
      | Some a =>
          (* set expiration date *)
          let e := match expiration with
                   | Some tv => mkEntry pl tv
                   | None => (PINT_tcache_refresh_entry tc (mkEntry pl (mkTime 0 0)) (clock 2%nat)).2
                   end in
          t ← qhash_add hash_key (h_table tc) key a;
          Done (0, purged, with_entries tc (u32 (num_entries tc + 1)) t (lru_list tc ++ [a])
                             (<[a := e]> (store tc)) (freed tc))
      end.

Definition PINT_tcache_insert_entry (tc : PINT_tcache) (alloc : option positive) (key : K)
    (pl : P) (clock : nat → timeval) : exec (Z * Z * PINT_tcache) :=
  PINT_tcache_insert_entry_ex tc alloc key pl None clock.

(** Deleting the entries of one list, and of all. *)
Fixpoint delete_all (tc : PINT_tcache) (l : list positive) : exec PINT_tcache :=
  match l with
  | [] => Done tc
  | a :: l => '(_, tc) ← PINT_tcache_delete tc a; delete_all tc l
  end.

(** The lists of the table are read as the loop comes to them. *)
Fixpoint finalize_loop (tc : PINT_tcache) (i n : nat) : exec PINT_tcache :=
  match n with
  | O => Done tc
  | S n =>
      l ← bucket (h_table tc) (Z.of_nat i);
      tc ← delete_all tc l;
      finalize_loop tc (S i) n
  end.

(** The payloads that have been freed when the cache is gone. *)
Definition PINT_tcache_finalize (tc : PINT_tcache) : exec (list P) :=
  tc ← finalize_loop tc 0 (Z.to_nat (table_size (h_table tc)));
  if decide (num_entries tc = 0) then Done (freed tc) else Fault AssertFailed.

(** * Specification

    The cache is a list of entries, the least recently used first, no two
    with the same key. *)

Context `{EqDecision K} (key_of : P → K).

Definition entry_key (e : PINT_tcache_entry) : K := key_of (payload e).

Definition view (tc : PINT_tcache) : list PINT_tcache_entry :=
  omap (λ a, store tc !! a) (lru_list tc).

Definition lookup_key (k : K) (l : list PINT_tcache_entry) : option PINT_tcache_entry :=
  snd <$> list_find (λ e, entry_key e = k) l.

Definition without (k : K) (l : list PINT_tcache_entry) : list PINT_tcache_entry :=
  filter (λ e, entry_key e ≠ k) l.

(** Up to [n] entries that have expired are dropped from the front. *)
Fixpoint drop_expired (expired : PINT_tcache_entry → bool) (n : nat)
    (l : list PINT_tcache_entry) : list PINT_tcache_entry :=
  match n, l with
  | S n, e :: l' => if expired e then drop_expired expired n l' else l
  | _, _ => l
  end.

Definition params (tc : PINT_tcache) : Z * Z * Z * Z * Z * Z * Z :=
  (timeout_msecs tc, expiration_enabled tc, hard_limit tc, soft_limit tc,
   reclaim_percentage tc, replacement_algorithm tc, enable tc).

Record tc_ok (tc : PINT_tcache) : Prop := {
  ok_size : 0 < table_size (h_table tc) < B31;
  ok_length : Z.of_nat (length (array (h_table tc))) = table_size (h_table tc);
  ok_bucket : ∀ i l a, array (h_table tc) !! i = Some l → a ∈ l →
    ∃ e, store tc !! a = Some e ∧ hash_key (entry_key e) (table_size (h_table tc)) = Z.of_nat i;
  ok_links : concat (array (h_table tc)) ≡ₚ lru_list tc;
  ok_nodup : NoDup (lru_list tc);
  ok_store : ∀ a, a ∈ lru_list tc ↔ is_Some (store tc !! a);
  ok_num : num_entries tc = Z.of_nat (length (lru_list tc)) ∧ num_entries tc < B31;
  ok_keys : ∀ a b e f, store tc !! a = Some e → store tc !! b = Some f →
    entry_key e = entry_key f → a = b;
}.

Context (Hcompare : ∀ k p, compare_key_entry k p = true ↔ key_of p = k).
Context (Hhash : ∀ k n, 0 < n < B31 → 0 ≤ hash_key k n < n).

(** ** Lists *)

Lemma omap_delete (st : gmap positive PINT_tcache_entry) a e (l : list positive) :
  (∀ b c f g, st !! b = Some f → st !! c = Some g → entry_key f = entry_key g → b = c) →
  st !! a = Some e →
  omap (λ b, delete a st !! b) (filter (λ b, b ≠ a) l) = without (entry_key e) (omap (λ b, st !! b) l).
Proof.
  intros Hu Ha. unfold without. induction l as [|b l IH]; [done|]. cbn [omap list_omap].
  destruct (decide (b = a)) as [->|Hne].
  - rewrite filter_cons_False by (by intros []). rewrite Ha, filter_cons_False by (by intros []).
    done.
  - rewrite filter_cons_True by done. cbn [omap list_omap]. rewrite lookup_delete_ne by done.
    destruct (st !! b) as [f|] eqn:Hb; [|done].
    rewrite filter_cons_True by (intros Heq; apply Hne; by eapply Hu). by f_equal.
Qed.

Lemma omap_is_Some {A} (f : positive → option A) l :
  (∀ b, b ∈ l → is_Some (f b)) → length (omap f l) = length l.
Proof.
  induction l as [|b l IH]; intros H; [done|]. cbn [omap list_omap].
  destruct (H b) as [x ->]; [by left|]. cbn [length]. f_equal. apply IH. intros c Hc. apply H. by right.
Qed.

Lemma view_length tc : tc_ok tc → length (view tc) = length (lru_list tc).
Proof. intros Hok. apply omap_is_Some. intros b Hb. by apply Hok. Qed.

Lemma elem_of_view tc e : e ∈ view tc → ∃ a, a ∈ lru_list tc ∧ store tc !! a = Some e.
Proof. intros (a & Ha & He)%list_elem_of_omap. eauto. Qed.

Lemma filter_concat (P' : positive → Prop) `{∀ b, Decision (P' b)} (a : list (list positive)) :
  concat (filter P' <$> a) = filter P' (concat a).
Proof.
  induction a as [|l a IH]; [done|]. cbn. by rewrite IH, filter_app.
Qed.

Lemma filter_ne (a : positive) (l : list positive) : a ∉ l → filter (λ b, b ≠ a) l = l.
Proof.
  induction l as [|b l IH]; [done|]. intros [Hne Hl]%not_elem_of_cons.
  rewrite filter_cons_True by congruence. by rewrite IH.
Qed.

Lemma length_without_link (a : positive) (l : list positive) :
  NoDup l → a ∈ l → S (length (filter (λ b, b ≠ a) l)) = length l.
Proof.
  intros Hd Ha. apply list_elem_of_split in Ha as (l1 & l2 & ->).
  apply NoDup_app in Hd as (_ & Hn & [Ha2 _]%NoDup_cons).
  rewrite filter_app, filter_cons_False by (by intros []).
  rewrite !filter_ne; [rewrite !length_app; cbn [length]; lia|done|].
  intros Hl1. apply (Hn a Hl1). by left.
Qed.

(** ** Deleting *)

Lemma entry_at_Some tc a e : store tc !! a = Some e → entry_at tc a = Done e.
Proof. intros H. unfold entry_at. by rewrite H. Qed.

Lemma delete_spec tc a e :
  tc_ok tc → store tc !! a = Some e →
  ∃ tc', PINT_tcache_delete tc a = Done (0, tc') ∧ tc_ok tc' ∧ params tc' = params tc ∧
    lru_list tc' = filter (λ b, b ≠ a) (lru_list tc) ∧ store tc' = delete a (store tc) ∧
    view tc' = without (entry_key e) (view tc) ∧ freed tc' = freed tc ++ [payload e] ∧
    num_entries tc' = num_entries tc - 1.
Proof.
  intros Hok Ha. destruct Hok as [Hs Hlen Hb Hl Hd Hst [Hn Hmax] Hk].
  assert (a ∈ lru_list tc) as Hin by (apply Hst; by eexists).
  pose proof (length_without_link a _ Hd Hin) as Hcount.
  unfold PINT_tcache_delete. rewrite (entry_at_Some _ _ _ Ha). cbn [mbind exec_bind].
  unfold qhash_del, qlist_del.
  rewrite (decide_True (P := a ∈ concat (array (h_table tc)))) by (by rewrite Hl).
  cbn [mbind exec_bind]. rewrite decide_True by done. cbn [mbind exec_bind].
  eexists. split; [done|]. rewrite u32_id by lia. split; [|split; [done|]].
  - split; cbn [h_table table_size array lru_list store num_entries with_entries]; try done.
    + by rewrite length_fmap.
    + intros i l b Hi Hbl. rewrite list_lookup_fmap in Hi.
      destruct (array (h_table tc) !! i) as [l'|] eqn:Hi'; [|done]. injection Hi as <-.
      apply list_elem_of_filter in Hbl as [Hne Hbl]. rewrite lookup_delete_ne by done. by eapply Hb.
    + rewrite filter_concat, Hl. done.
    + by apply NoDup_filter.
    + intros b. rewrite list_elem_of_filter, Hst. destruct (decide (b = a)) as [->|Hne].
      * rewrite lookup_delete_eq. split; [by intros [[] _]|by intros []].
      * rewrite lookup_delete_ne by done. tauto.
    + lia.
    + intros b c f g. rewrite !lookup_delete_Some. intros [_ ?] [_ ?]. by apply Hk.
  - cbn [lru_list store freed num_entries with_entries]. split; [done|]. split; [done|].
    split; [by apply omap_delete|done].
Qed.

(** ** Looking up *)

Lemma search_list_link st key l :
  match search_list (compare_link st) key l with
  | Some (a, _) => a ∈ l ∧ compare_link st key a = true
  | None => ∀ a, a ∈ l → compare_link st key a = false
  end.
Proof.
  induction l as [|b l IH]; cbn; [by intros a ?%elem_of_nil|].
  destruct (compare_link st key b) eqn:E; [split; [by left|done]|].
  destruct (search_list (compare_link st) key l) as [[c l']|];
    [|by intros a [->|?]%elem_of_cons; auto].
  destruct IH as [? ?]. split; [by right|done].
Qed.

(** The search finds the entry with the key, if there is one. *)
Lemma link_search_spec tc k :
  tc_ok tc →
  ∃ r, qhash_search (compare_link (store tc)) hash_key (h_table tc) k = Done r ∧
    match r with
    | Some a => ∃ e, store tc !! a = Some e ∧ entry_key e = k
    | None => ∀ a e, store tc !! a = Some e → entry_key e ≠ k
    end.
Proof.
  intros [Hs Hlen Hb Hl Hd Hst _ _]. set (n := table_size (h_table tc)) in *.
  pose proof (Hhash k n Hs) as Hr.
  destruct (lookup_lt_is_Some_2 (array (h_table tc)) (Z.to_nat (hash_key k n))) as [l Hx]; [lia|].
  unfold qhash_search, bucket. fold n. rewrite decide_True by lia. rewrite Hx.
  cbn [mbind exec_bind]. eexists. split; [done|].
  pose proof (search_list_link (store tc) k l) as Hsl.
  destruct (search_list (compare_link (store tc)) k l) as [[a l']|]; cbn.
  - destruct Hsl as [Hal Hc]. destruct (Hb _ _ _ Hx Hal) as (e & He & _). exists e.
    split; [done|]. unfold compare_link in Hc. rewrite He in Hc. by apply Hcompare.
  - intros a e He <-. assert (a ∈ concat (array (h_table tc))) as Hin.
    { rewrite Hl. apply Hst. by eexists. }
    apply list_elem_of_In, in_concat in Hin as (l2 & Hl2 & Hal2).
    apply list_elem_of_In in Hl2, Hal2. apply list_elem_of_lookup_1 in Hl2 as [i Hi].
    destruct (Hb _ _ _ Hi Hal2) as (e' & He' & Hi'). assert (e' = e) as -> by congruence.
    fold n in Hi'. assert (i = Z.to_nat (hash_key (entry_key e) n)) as -> by lia.
    assert (l2 = l) as -> by congruence. pose proof (Hsl a Hal2) as Hc.
    unfold compare_link in Hc. rewrite He in Hc.
    assert (compare_key_entry (entry_key e) (payload e) = true) by (by apply Hcompare). congruence.
Qed.

Lemma lookup_key_Some l k e :
  lookup_key k l = Some e → entry_key e = k ∧ e ∈ l.
Proof.
  unfold lookup_key. destruct (list_find _ l) as [[i f]|] eqn:E; [|done]. intros [= <-].
  apply list_find_Some in E as (Hi & Hk & _). split; [done|]. by eapply list_elem_of_lookup_2.
Qed.

Lemma lookup_key_None l k : lookup_key k l = None ↔ ∀ e, e ∈ l → entry_key e ≠ k.
Proof.
  unfold lookup_key. rewrite fmap_None, list_find_None, Forall_forall. done.
Qed.

(** What is stored is in the view, and keys are unique. *)
Lemma view_lookup tc a e :
  tc_ok tc → store tc !! a = Some e → lookup_key (entry_key e) (view tc) = Some e.
Proof.
  intros Hok Ha. destruct (lookup_key (entry_key e) (view tc)) as [f|] eqn:E.
  - apply lookup_key_Some in E as [Hk (b & _ & Hb)%elem_of_view].
    assert (b = a) as -> by (by eapply (ok_keys _ Hok)). congruence.
  - exfalso. eapply lookup_key_None; [exact E| |done]. apply list_elem_of_omap. exists a.
    split; [apply (ok_store _ Hok); by eexists|done].
Qed.

Lemma view_lookup_None tc k :
  tc_ok tc → (∀ a e, store tc !! a = Some e → entry_key e ≠ k) → lookup_key k (view tc) = None.
Proof.
  intros Hok H. apply lookup_key_None. intros e (a & _ & Ha)%elem_of_view. by eapply H.
Qed.

(** The same entries in another order. *)
Lemma reorder_ok tc lru :
  tc_ok tc → lru ≡ₚ lru_list tc →
  tc_ok (with_entries tc (num_entries tc) (h_table tc) lru (store tc) (freed tc)).
Proof.
  intros [Hs Hlen Hb Hl Hd Hst [Hn Hmax] Hk] Hp.
  split; cbn [h_table table_size array lru_list store num_entries with_entries]; try done.
  - by rewrite Hl, Hp.
  - by rewrite Hp.
  - intros a. by rewrite Hp.
  - by rewrite Hp.
Qed.

Lemma omap_without (st : gmap positive PINT_tcache_entry) a e (l : list positive) :
  (∀ b c f g, st !! b = Some f → st !! c = Some g → entry_key f = entry_key g → b = c) →
  st !! a = Some e →
  omap (λ b, st !! b) (filter (λ b, b ≠ a) l) = without (entry_key e) (omap (λ b, st !! b) l).
Proof.
  intros Hu Ha. rewrite <- (omap_delete st a e l Hu Ha).
  induction l as [|b l IH]; [done|]. destruct (decide (b = a)) as [->|Hne].
  - by rewrite filter_cons_False by (by intros []).
  - rewrite filter_cons_True by done. cbn [omap list_omap]. rewrite IH.
    by rewrite lookup_delete_ne.
Qed.

Lemma lookup_spec tc k now :
  tc_ok tc →
  match lookup_key k (view tc) with
  | Some e =>
      ∃ a tc', store tc !! a = Some e ∧
        PINT_tcache_lookup tc k now = Done (0, Some a, check_expiration tc e now, tc') ∧
        tc_ok tc' ∧ params tc' = params tc ∧ store tc' = store tc ∧ freed tc' = freed tc ∧
        (∃ l, lru_list tc' = l ++ [a]) ∧
        view tc' = without k (view tc) ++ [e] ∧ num_entries tc' = num_entries tc
  | None => PINT_tcache_lookup tc k now = Done (- PVFS_ENOENT, None, - PVFS_EINVAL, tc)
  end.
Proof.
  intros Hok. destruct (link_search_spec tc k Hok) as (r & E & Hr).
  unfold PINT_tcache_lookup. rewrite E. cbn [mbind exec_bind]. destruct r as [a|].
  - destruct Hr as (e & He & <-). rewrite (view_lookup _ _ _ Hok He). exists a.
    assert (a ∈ lru_list tc) as Hin by (apply (ok_store _ Hok); by eexists).
    rewrite (entry_at_Some _ _ _ He). unfold qlist_del. cbn [mbind exec_bind].
    rewrite decide_True by done. cbn [mbind exec_bind]. eexists. split; [done|]. split; [done|].
    split; [apply reorder_ok; [done|]|].
    + apply list_elem_of_split in Hin as (l1 & l2 & Hl). pose proof (ok_nodup _ Hok) as Hd.
      rewrite Hl in *. apply NoDup_app in Hd as (_ & Hn & [Ha2 _]%NoDup_cons).
      rewrite filter_app, filter_cons_False by (by intros []).
      rewrite !filter_ne; [|done|intros Hl1; apply (Hn a Hl1); by left].
      rewrite <- app_assoc. f_equiv. rewrite Permutation_app_comm. done.
    + split; [done|]. split; [done|]. split; [done|]. split; [by eexists|]. split; [|done].
      unfold view. cbn [lru_list store with_entries]. rewrite omap_app.
      rewrite (omap_without (store tc) a e) by (done || apply (ok_keys _ Hok)). cbn. by rewrite He.
  - by rewrite view_lookup_None.
Qed.

(** Another payload with the same key in the most recently used entry. *)
Lemma replace_ok tc a e e' l fr :
  tc_ok tc → lru_list tc = l ++ [a] → store tc !! a = Some e → entry_key e' = entry_key e →
  let tc' := with_entries tc (num_entries tc) (h_table tc) (lru_list tc) (<[a := e']> (store tc)) fr in
  tc_ok tc' ∧ ∀ v, view tc = v ++ [e] → view tc' = v ++ [e'].
Proof.
  intros [Hs Hlen Hb Hl Hd Hst Hn Hk] Hlru He Hke tc'. split.
  - split; cbn [h_table table_size array lru_list store num_entries with_entries tc']; try done.
    + intros i m b Hi Hbm. destruct (Hb _ _ _ Hi Hbm) as (f & Hf & Hh).
      destruct (decide (b = a)) as [->|Hne].
      * exists e'. rewrite lookup_insert_eq, Hke. split; [done|]. congruence.
      * exists f. by rewrite lookup_insert_ne.
    + intros b. rewrite Hst. destruct (decide (b = a)) as [->|Hne].
      * rewrite lookup_insert_eq, He. split; by eexists.
      * by rewrite lookup_insert_ne.
    + intros b c f g. rewrite !lookup_insert_Some.
      intros [[<- <-]|[? Hf]] [[<- <-]|[? Hg]] Heq; [done| | |by eapply Hk].
      * eapply Hk; [exact He|done|]. congruence.
      * eapply Hk; [done|exact He|]. congruence.
  - intros v Hv. unfold view in *. cbn [lru_list store with_entries tc']. rewrite Hlru in *.
    rewrite omap_app in *. cbn in *. rewrite He in Hv. apply app_inj_tail in Hv as [<- _].
    rewrite lookup_insert_eq. f_equal. apply list_omap_ext.
    apply Forall2_same_length_lookup_2; [done|]. intros i c d Hc Hd'. rewrite Hc in Hd'.
    injection Hd' as <-. rewrite lookup_insert_ne; [done|]. intros <-.
    apply NoDup_app in Hd as (_ & Hno & _). apply (Hno a); [|by left].
    by eapply list_elem_of_lookup_2.
Qed.

(** ** Reclaiming *)

Definition expired (tc : PINT_tcache) (tv : timeval) (e : PINT_tcache_entry) : bool :=
  bool_decide (check_expiration tc e tv ≠ 0).

Lemma check_params tc tc' e tv :
  params tc' = params tc → check_expiration tc' e tv = check_expiration tc e tv.
Proof.
  intros Hp. unfold check_expiration.
  assert (expiration_enabled tc' = expiration_enabled tc) as -> by (unfold params in Hp; congruence).
  done.
Qed.

Lemma expired_params tc tc' tv : params tc' = params tc → ∀ e, expired tc' tv e = expired tc tv e.
Proof. intros Hp e. unfold expired. by rewrite (check_params tc tc'). Qed.

Lemma drop_expired_ext p q n l :
  (∀ e, p e = q e) → drop_expired p n l = drop_expired q n l.
Proof.
  intros H. revert l. induction n as [|n IH]; intros [|e l]; cbn; [done..|].
  by rewrite H, IH.
Qed.

(** The head of the LRU list. *)
Lemma view_head tc a l :
  tc_ok tc → lru_list tc = a :: l →
  ∃ e, store tc !! a = Some e ∧ view tc = e :: omap (λ b, store tc !! b) l ∧
    without (entry_key e) (view tc) = omap (λ b, store tc !! b) l ∧
    filter (λ b, b ≠ a) (lru_list tc) = l.
Proof.
  intros Hok Hl. destruct (proj1 (ok_store _ Hok a)) as [e He]; [rewrite Hl; by left|].
  pose proof (ok_nodup _ Hok) as Hd. rewrite Hl in Hd. apply NoDup_cons in Hd as [Ha _].
  assert (filter (λ b, b ≠ a) (lru_list tc) = l) as Hf.
  { rewrite Hl, filter_cons_False by (by intros []). by apply filter_ne. }
  exists e. split; [done|]. split; [|split; [|done]].
  - unfold view. rewrite Hl. cbn [omap list_omap]. by rewrite He.
  - unfold view. rewrite <- (omap_without (store tc) a e) by (done || apply (ok_keys _ Hok)).
    by rewrite Hf.
Qed.

Lemma reclaim_loop_spec tv l tc etp rec :
  tc_ok tc → lru_list tc = l → - B31 < etp < B31 → 0 ≤ rec → rec + Z.of_nat (length l) < B31 →
  ∃ tc', reclaim_loop tc tv l etp rec =
      Done (0, tc', rec + Z.of_nat (length l) - num_entries tc') ∧
    tc_ok tc' ∧ params tc' = params tc ∧
    view tc' = drop_expired (expired tc tv) (Z.to_nat (Z.max 1 etp)) (view tc) ∧
    freed tc' ++ (payload <$> view tc') = freed tc ++ (payload <$> view tc) ∧
    (∀ b, store tc !! b = None → store tc' !! b = None).
Proof.
  revert tc etp rec. induction l as [|a l IH]; intros tc etp rec Hok Hl Hetp Hrec Hmax.
  { exists tc. pose proof (ok_num _ Hok) as [Hn _]. rewrite Hl in Hn. cbn in *. rewrite Hn.
    split; [do 3 f_equal; lia|]. split; [done|]. split; [done|]. unfold view. rewrite Hl. cbn.
    split; [by destruct (Z.to_nat (Z.max 1 etp))|done]. }
  destruct (view_head tc a l Hok Hl) as (e & He & Hv & Hw & Hf).
  pose proof (ok_num _ Hok) as [Hn _]. rewrite Hl in Hn. cbn [length] in *.
  cbn [reclaim_loop]. rewrite (entry_at_Some _ _ _ He). cbn [mbind exec_bind].
  assert (Z.to_nat (Z.max 1 etp) = S (Z.to_nat (Z.max 1 etp - 1))) as -> by lia.
  rewrite Hv. cbn [drop_expired]. unfold expired at 1. case_decide as Hc.
  { rewrite bool_decide_false by (by intros []). exists tc.
    split; [rewrite Hn; do 3 f_equal; lia|]. by rewrite Hv. }
  rewrite bool_decide_true by done.
  destruct (delete_spec tc a e Hok He) as (tc1 & E & Hok1 & Hp1 & Hl1 & Hst1 & Hv1 & Hfr1 & Hn1).
  rewrite E. cbn [mbind exec_bind]. rewrite decide_False by lia.
  assert (∀ b, store tc !! b = None → store tc1 !! b = None) as Hnone.
  { intros b Hb. rewrite Hst1. apply lookup_delete_None. by right. }
  rewrite Hf in Hl1. rewrite Hw in Hv1. rewrite !i32_id by lia. case_decide as Hcap.
  - exists tc1. split; [do 3 f_equal; lia|]. split; [done|]. split; [done|].
    assert (Z.to_nat (Z.max 1 etp - 1) = 0%nat) as -> by lia.
    split; [rewrite Hv1; by destruct (omap _ l)|].
    rewrite Hfr1, Hv1. by rewrite <- app_assoc.
  - destruct (IH tc1 (etp - 1) (rec + 1)) as (tc' & E' & Hok' & Hp' & Hv' & Hfr' & Hst'); try done; try lia.
    exists tc'. split; [rewrite E'; do 3 f_equal; lia|]. split; [done|]. split; [congruence|].
    split.
    + rewrite Hv', Hv1. replace (Z.max 1 (etp - 1)) with (Z.max 1 etp - 1) by lia.
      apply drop_expired_ext. by apply expired_params.
    + split; [rewrite Hfr', Hfr1, Hv1; by rewrite <- app_assoc|auto].
Qed.

(** How many entries a reclaim may drop. *)
Definition purge_cap (tc : PINT_tcache) : nat :=
  Z.to_nat (Z.max 1 (u32 (reclaim_percentage tc * soft_limit tc) / 100)).

Lemma reclaim_spec tc now :
  tc_ok tc →
  ∃ tc', PINT_tcache_reclaim tc now = Done (0, tc', num_entries tc - num_entries tc') ∧
    tc_ok tc' ∧ params tc' = params tc ∧
    view tc' = drop_expired (expired tc now) (purge_cap tc) (view tc) ∧
    freed tc' ++ (payload <$> view tc') = freed tc ++ (payload <$> view tc) ∧
    (∀ b, store tc !! b = None → store tc' !! b = None).
Proof.
  intros Hok. unfold PINT_tcache_reclaim, purge_cap. pose proof (ok_num _ Hok) as [Hn Hmax].
  pose proof (u32_range (reclaim_percentage tc * soft_limit tc)) as Hr.
  set (m := u32 (reclaim_percentage tc * soft_limit tc)) in *.
  assert (0 ≤ m / 100 < B31) by (split; [apply Z.div_pos; lia|apply Z.div_lt_upper_bound; lia]).
  rewrite i32_id by lia.
  destruct (reclaim_loop_spec now (lru_list tc) tc (m / 100) 0) as (tc' & E & H'); try done; try lia.
  exists tc'. split; [|done]. rewrite E. do 3 f_equal. lia.
Qed.

(** ** Inserting *)

Lemma drop_expired_sub p n l e : e ∈ drop_expired p n l → e ∈ l.
Proof.
  revert l. induction n as [|n IH]; intros [|f l]; cbn; [done..|].
  destruct (p f); [|done]. intros H. right. by apply IH.
Qed.

(** The entries that are left when there is room for a new one. *)
Definition roomy (tc : PINT_tcache) (now : timeval) (l : list PINT_tcache_entry)
    : list PINT_tcache_entry :=
  let l' := if decide (num_entries tc >= soft_limit tc)
            then drop_expired (expired tc now) (purge_cap tc) l else l in
  if decide (Z.of_nat (length l') >= hard_limit tc) then tail l' else l'.

Lemma view_num tc : tc_ok tc → num_entries tc = Z.of_nat (length (view tc)).
Proof. intros Hok. rewrite view_length by done. apply (ok_num _ Hok). Qed.

Lemma replace_oldest_spec tc ret purged now :
  tc_ok tc → replacement_algorithm tc = LEAST_RECENTLY_USED → 1 ≤ hard_limit tc →
  ∃ tc' purged', replace_oldest tc ret purged now = Done (0, purged', tc') ∧ tc_ok tc' ∧
    params tc' = params tc ∧
    view tc' = (if decide (Z.of_nat (length (view tc)) >= hard_limit tc)
                then tail (view tc) else view tc) ∧
    freed tc' ++ (payload <$> view tc') = freed tc ++ (payload <$> view tc) ∧
    (∀ b, store tc !! b = None → store tc' !! b = None).
Proof using EqDecision0.
  intros Hok Halg Hhard. unfold replace_oldest. rewrite (view_num _ Hok).
  destruct (decide (Z.of_nat (length (view tc)) >= hard_limit tc)) as [Hge|]; [|by exists tc, purged].
  rewrite decide_True by done. unfold tcache_lookup_oldest.
  destruct (lru_list tc) as [|a l] eqn:Hl.
  { rewrite view_length, Hl in Hge by done. cbn in Hge. lia. }
  destruct (view_head tc a l Hok Hl) as (e & He & Hv & Hw & _).
  rewrite (entry_at_Some _ _ _ He). cbn [mbind exec_bind]. rewrite decide_False by lia.
  destruct (delete_spec tc a e Hok He) as (tc1 & E & Hok1 & Hp1 & _ & Hst1 & Hv1 & Hfr1 & _).
  rewrite E. cbn [mbind exec_bind]. rewrite decide_False by lia. exists tc1, 1.
  split; [done|]. split; [done|]. split; [done|]. rewrite Hw in Hv1. rewrite Hv, Hv1, Hfr1.
  split; [done|]. split; [by rewrite <- app_assoc|].
  intros b Hb. rewrite Hst1. apply lookup_delete_None. by right.
Qed.

Lemma make_room_spec tc clock :
  tc_ok tc → replacement_algorithm tc = LEAST_RECENTLY_USED → 1 ≤ hard_limit tc →
  ∃ tc' purged, make_room tc clock = Done (0, purged, tc') ∧ tc_ok tc' ∧
    params tc' = params tc ∧ view tc' = roomy tc (clock 0%nat) (view tc) ∧
    freed tc' ++ (payload <$> view tc') = freed tc ++ (payload <$> view tc) ∧
    (∀ b, store tc !! b = None → store tc' !! b = None).
Proof using EqDecision0.
  intros Hok Halg Hhard. unfold make_room, roomy. case_decide as Hsoft.
  - destruct (reclaim_spec tc (clock 0%nat) Hok) as (tc1 & E & Hok1 & Hp1 & Hv1 & Hfr1 & Hst1).
    rewrite E. cbn [mbind exec_bind]. rewrite decide_False by lia.
    assert (hard_limit tc1 = hard_limit tc ∧ replacement_algorithm tc1 = replacement_algorithm tc)
      as [Hh Ha] by (unfold params in Hp1; split; congruence).
    destruct (replace_oldest_spec tc1 0 (num_entries tc - num_entries tc1) (clock 1%nat) Hok1)
      as (tc' & purged & E' & Hok' & Hp' & Hv' & Hfr' & Hst'); [congruence|lia|].
    exists tc', purged. rewrite <- Hv1, <- Hh. split; [done|]. split; [done|].
    split; [congruence|]. split; [done|]. split; [congruence|]. auto.
  - by apply replace_oldest_spec.
Qed.

Lemma hash_add_ok tc k a e :
  tc_ok tc → store tc !! a = None → entry_key e = k → lookup_key k (view tc) = None →
  num_entries tc + 1 < B31 →
  ∃ t, qhash_add hash_key (h_table tc) k a = Done t ∧
    tc_ok (with_entries tc (u32 (num_entries tc + 1)) t (lru_list tc ++ [a])
             (<[a := e]> (store tc)) (freed tc)).
Proof using EqDecision0 Hhash.
  intros Hok Ha Hk Hnone Hmax. pose proof Hok as [Hs Hlen Hb Hl Hd Hst [Hn _] Hkeys].
  assert (a ∉ lru_list tc) as Hna by (rewrite Hst, Ha; by intros []).
  pose proof (Hhash k _ Hs) as Hr. set (i := Z.to_nat (hash_key k (table_size (h_table tc)))) in *.
  destruct (lookup_lt_is_Some_2 (array (h_table tc)) i) as [l Hx]; [lia|].
  unfold qhash_add, bucket. rewrite decide_True by lia. fold i. rewrite Hx.
  cbn [mbind exec_bind]. eexists. split; [done|]. rewrite u32_id by lia.
  destruct (concat_insert (array (h_table tc)) i l (l ++ [a]) Hx) as (pre & post & Hc & Hc').
  assert (∀ b f, store tc !! b = Some f → b ≠ a) as Hne by (intros b f Hf ->; congruence).
  split; cbn [h_table set_bucket table_size array lru_list store num_entries with_entries]; try done.
  - by rewrite length_insert.
  - intros j m b Hj Hbm. destruct (decide (b = a)) as [->|Hba].
    + exists e. rewrite lookup_insert_eq. split; [done|]. rewrite Hk.
      apply list_lookup_insert_Some in Hj as [(<- & _ & _)|(Hij & Hj)]; [lia|].
      destruct (Hb _ _ _ Hj Hbm) as (f & Hf & _). congruence.
    + rewrite lookup_insert_ne by done.
      apply list_lookup_insert_Some in Hj as [(<- & <- & _)|(Hij & Hj)]; [|by eapply Hb].
      apply elem_of_app in Hbm as [Hbm|Hbm%list_elem_of_singleton]; [by eapply Hb|done].
  - fold i. rewrite Hc', <- Hl, Hc. solve_Permutation.
  - apply NoDup_app. split; [done|]. split; [|apply NoDup_singleton].
    intros b Hbl ->%list_elem_of_singleton. done.
  - intros b. rewrite elem_of_app, list_elem_of_singleton, Hst. destruct (decide (b = a)) as [->|Hba].
    + rewrite lookup_insert_eq. split; [by eexists|by right].
    + rewrite lookup_insert_ne by done. split; [by intros [?|?]|by left].
  - rewrite length_app. cbn [length]. lia.
  - intros b c f g. rewrite !lookup_insert_Some.
    assert (∀ d m, store tc !! d = Some m → entry_key m ≠ k) as Hno.
    { intros d m Hm. eapply lookup_key_None; [exact Hnone|]. apply list_elem_of_omap.
      exists d. split; [apply Hst; by eexists|done]. }
    intros [[<- <-]|[? Hf]] [[<- <-]|[? Hg]] Heq; [done| | |by eapply Hkeys]; exfalso.
    + apply (Hno c g Hg). congruence.
    + apply (Hno b f Hf). congruence.
Qed.

(** The new entry. *)
Definition new_entry (tc : PINT_tcache) (pl : P) (expiration : option timeval) (now : timeval)
    : PINT_tcache_entry :=
  match expiration with
  | Some tv => mkEntry pl tv
  | None => (PINT_tcache_refresh_entry tc (mkEntry pl (mkTime 0 0)) now).2
  end.

Lemma new_entry_payload tc pl ex now : payload (new_entry tc pl ex now) = pl.
Proof. unfold new_entry, PINT_tcache_refresh_entry. destruct ex; [done|]. by case_decide. Qed.

Lemma new_entry_params tc tc' pl ex now :
  params tc' = params tc → new_entry tc' pl ex now = new_entry tc pl ex now.
Proof.
  intros Hp. unfold params in Hp. unfold new_entry, PINT_tcache_refresh_entry.
  assert (expiration_enabled tc' = expiration_enabled tc) as -> by congruence.
  assert (timeout_msecs tc' = timeout_msecs tc) as -> by congruence. done.
Qed.

Lemma length_roomy tc now l :
  1 ≤ hard_limit tc →
  Z.of_nat (length (roomy tc now l)) + 1 ≤ Z.max (hard_limit tc) (Z.of_nat (length l)) ∧
  (length (roomy tc now l) ≤ length l)%nat.
Proof using EqDecision0.
  intros Hhard. unfold roomy. set (l' := if decide _ then _ else l).
  assert (length l' ≤ length l)%nat as Hl'.
  { unfold l'. case_decide; [|done]. generalize (purge_cap tc). clear l'. intros n. revert l.
    induction n as [|n IH]; intros [|e l]; cbn; try lia.
    destruct (expired tc now e); cbn; [|lia]. specialize (IH l). lia. }
  case_decide; [|lia]. destruct l'; cbn in *; lia.
Qed.

Lemma roomy_sub tc now l e : e ∈ roomy tc now l → e ∈ l.
Proof.
  unfold roomy. set (l' := if decide (num_entries tc >= _) then _ else l). intros He.
  assert (e ∈ l') as He'.
  { case_decide; [|done]. destruct l' as [|f l']; [done|]. by right. }
  unfold l' in He'. case_decide; [by eapply drop_expired_sub|done].
Qed.

(** Inserting into an enabled cache. *)
Lemma insert_room_spec tc k pl ex a clock :
  tc_ok tc → enable tc ≠ 0 → replacement_algorithm tc = LEAST_RECENTLY_USED →
  1 ≤ hard_limit tc → key_of pl = k → lookup_key k (view tc) = None → store tc !! a = None →
  num_entries tc + 1 < B31 →
  ∃ tc' purged, PINT_tcache_insert_entry_ex tc (Some a) k pl ex clock = Done (0, purged, tc') ∧
    tc_ok tc' ∧ params tc' = params tc ∧
    view tc' = roomy tc (clock 0%nat) (view tc) ++ [new_entry tc pl ex (clock 2%nat)] ∧
    freed tc' ++ (payload <$> view tc') = freed tc ++ (payload <$> view tc) ++ [pl] ∧
    num_entries tc' ≤ Z.max (hard_limit tc) (num_entries tc).
Proof using EqDecision0 Hhash.
  intros Hok Hen Halg Hhard Hk Hnone Ha Hmax. unfold PINT_tcache_insert_entry_ex.
  rewrite decide_False by done.
  destruct (make_room_spec tc clock Hok Halg Hhard) as (tc1 & purged & E & Hok1 & Hp1 & Hv1 & Hfr1 & Hst1).
  rewrite E. cbn [mbind exec_bind]. rewrite decide_False by lia.
  pose proof (view_num _ Hok) as Hnv. pose proof (view_num _ Hok1) as Hnv1.
  pose proof (length_roomy tc (clock 0%nat) (view tc) Hhard) as [Hroom Hless].
  rewrite <- Hv1 in Hroom, Hless. fold (new_entry tc1 pl ex (clock 2%nat)).
  rewrite (new_entry_params tc tc1) by done.
  destruct (hash_add_ok tc1 k a (new_entry tc pl ex (clock 2%nat)) Hok1) as (t & Et & Hok').
  { auto. }
  { unfold entry_key. by rewrite new_entry_payload. }
  { apply lookup_key_None. rewrite Hv1. intros e He. eapply lookup_key_None; [exact Hnone|].
    by eapply roomy_sub. }
  { lia. }
  rewrite Et. cbn [mbind exec_bind]. eexists _, purged. split; [done|]. split; [done|].
  split; [done|].
  match goal with |- view ?t = _ ∧ _ => assert (view t = view tc1 ++ [new_entry tc pl ex (clock 2%nat)]) as Hv' end.
  { unfold view. cbn [lru_list store with_entries]. rewrite omap_app. cbn. rewrite lookup_insert_eq. f_equal. apply list_omap_ext.
    apply Forall2_same_length_lookup_2; [done|]. intros i b c Hb Hc. rewrite Hb in Hc.
    injection Hc as <-. rewrite lookup_insert_ne; [done|]. intros <-.
    apply list_elem_of_lookup_2, (ok_store _ Hok1) in Hb. rewrite Hst1 in Hb by done.
    by destruct Hb. }
  rewrite Hv', Hv1. cbn [freed num_entries with_entries]. split; [done|]. split.
  - rewrite fmap_app. cbn. rewrite new_entry_payload, <- Hv1, !app_assoc, Hfr1. done.
  - rewrite u32_id by lia. lia.
Qed.

(** ** The end *)

Lemma delete_table tc a ret tc' :
  PINT_tcache_delete tc a = Done (ret, tc') →
  h_table tc' = mkQhash (table_size (h_table tc)) (filter (λ b, b ≠ a) <$> array (h_table tc)).
Proof.
  unfold PINT_tcache_delete, qhash_del. destruct (entry_at tc a); [|done]. cbn [mbind exec_bind].
  case_decide; [|done]. cbn [mbind exec_bind]. destruct (qlist_del a (lru_list tc)); [|done].
  cbn. by intros [= _ <-].
Qed.

Lemma payloads_without tc a e :
  tc_ok tc → store tc !! a = Some e →
  payload <$> view tc ≡ₚ payload e :: (payload <$> without (entry_key e) (view tc)).
Proof.
  intros Hok He. assert (a ∈ lru_list tc) as (l1 & l2 & Hl)%list_elem_of_split
    by (apply (ok_store _ Hok); by eexists).
  pose proof (ok_nodup _ Hok) as Hd. unfold view.
  rewrite <- (omap_without (store tc) a e) by (done || apply (ok_keys _ Hok)). rewrite Hl in *.
  apply NoDup_app in Hd as (_ & Hn & [Ha2 _]%NoDup_cons).
  rewrite filter_app, filter_cons_False by (by intros []).
  rewrite !filter_ne; [|done|intros Hl1; apply (Hn a Hl1); by left].
  rewrite !omap_app, !fmap_app. cbn [omap list_omap]. rewrite He. cbn [fmap list_fmap].
  by rewrite Permutation_middle.
Qed.

Lemma delete_all_spec l tc :
  tc_ok tc → NoDup l → (∀ a, a ∈ l → a ∈ lru_list tc) →
  ∃ tc', delete_all tc l = Done tc' ∧ tc_ok tc' ∧
    array (h_table tc') = filter (λ b, b ∉ l) <$> array (h_table tc) ∧
    table_size (h_table tc') = table_size (h_table tc) ∧
    freed tc' ++ (payload <$> view tc') ≡ₚ freed tc ++ (payload <$> view tc).
Proof using EqDecision0.
  revert tc. induction l as [|a l IH]; intros tc Hok Hd Hin.
  { exists tc. split; [done|]. split; [done|]. split; [|done]. symmetry.
    rewrite <- (list_fmap_id (array (h_table tc))) at 2. apply list_fmap_ext. intros i m _. cbn.
    clear. induction m as [|b m IHm]; [done|].
    rewrite filter_cons_True by apply not_elem_of_nil. by rewrite IHm. }
  apply NoDup_cons in Hd as [Ha Hd].
  destruct (proj1 (ok_store _ Hok a)) as [e He]; [apply Hin; by left|].
  destruct (delete_spec tc a e Hok He) as (tc1 & E & Hok1 & _ & Hl1 & _ & Hv1 & Hfr1 & _).
  pose proof (delete_table _ _ _ _ E) as Ht1. cbn [delete_all]. rewrite E. cbn [mbind exec_bind].
  destruct (IH tc1 Hok1 Hd) as (tc' & E' & Hok' & Ht' & Hts & Hfr').
  { intros b Hb. rewrite Hl1. apply list_elem_of_filter. split; [by intros ->|].
    apply Hin. by right. }
  exists tc'. split; [done|]. split; [done|]. rewrite Ht', Hts, Ht1. cbn [array table_size].
  split; [|split; [done|]].
  - rewrite <- list_fmap_compose. apply list_fmap_ext. intros i m _. cbn.
    rewrite list_filter_filter. apply list_filter_iff. intros b. rewrite not_elem_of_cons. tauto.
  - rewrite Hfr', Hfr1, Hv1, (payloads_without tc a e) by done. by rewrite <- app_assoc.
Qed.

Lemma finalize_loop_spec n tc i :
  tc_ok tc → (i + n)%nat = length (array (h_table tc)) →
  (∀ j l, (j < i)%nat → array (h_table tc) !! j = Some l → l = []) →
  ∃ tc', finalize_loop tc i n = Done tc' ∧ tc_ok tc' ∧ concat (array (h_table tc')) = [] ∧
    freed tc' ++ (payload <$> view tc') ≡ₚ freed tc ++ (payload <$> view tc).
Proof using EqDecision0.
  revert tc i. induction n as [|n IH]; intros tc i Hok Hlen Hempty.
  { exists tc. split; [done|]. split; [done|]. split; [|done].
    apply concat_nil_Forall, Forall_lookup. intros j l Hj. apply (Hempty j l); [|done].
    apply lookup_lt_Some in Hj. lia. }
  destruct (lookup_lt_is_Some_2 (array (h_table tc)) i) as [l Hl]; [lia|].
  cbn [finalize_loop]. unfold bucket. rewrite decide_True by lia. rewrite Nat2Z.id, Hl.
  cbn [mbind exec_bind]. destruct (concat_insert _ _ _ [] Hl) as (pre & post & Hc & _).
  assert (NoDup (concat (array (h_table tc)))) as Hd
    by (rewrite (ok_links _ Hok); apply (ok_nodup _ Hok)).
  destruct (delete_all_spec l tc Hok) as (tc1 & E & Hok1 & Ht1 & _ & Hfr1).
  { rewrite Hc in Hd. apply NoDup_app in Hd as (_ & _ & Hd). by apply NoDup_app in Hd as (? & _). }
  { intros a Ha. rewrite <- (ok_links _ Hok), Hc. apply elem_of_app. right.
    apply elem_of_app. by left. }
  rewrite E. cbn [mbind exec_bind].
  destruct (IH tc1 (S i) Hok1) as (tc' & E' & Hok' & Hc' & Hfr').
  { rewrite Ht1, length_fmap. lia. }
  { intros j m Hj Hm. rewrite Ht1, list_lookup_fmap in Hm.
    destruct (array (h_table tc) !! j) as [m'|] eqn:Hj'; [|done]. injection Hm as <-.
    destruct (decide (j = i)) as [->|Hne].
    - assert (m' = l) as -> by congruence. destruct (filter (λ b, b ∉ l) l) as [|b m] eqn:Ef; [done|].
      assert (b ∈ filter (λ b, b ∉ l) l) as [Hb ?]%list_elem_of_filter by (rewrite Ef; by left).
      done.
    - by rewrite (Hempty j m') by (done || lia). }
  exists tc'. split; [done|]. split; [done|]. split; [done|]. by rewrite Hfr'.
Qed.

(** Destroying a cache never trips the assertion that no entry was lost,
    and it hands every payload that is left to [free_payload], once. *)
Theorem tcache_finalize_correct tc :
  tc_ok tc →
  ∃ fr, PINT_tcache_finalize tc = Done fr ∧ fr ≡ₚ freed tc ++ (payload <$> view tc).
Proof using EqDecision0.
  intros Hok. unfold PINT_tcache_finalize.
  destruct (finalize_loop_spec (Z.to_nat (table_size (h_table tc))) tc 0) as (tc' & E & Hok' & Hc & Hfr);
    [done| |lia|].
  { pose proof (ok_length _ Hok). lia. }
  rewrite E. cbn [mbind exec_bind].
  assert (lru_list tc' = []) as Hl by (apply Permutation_nil_r; by rewrite <- (ok_links _ Hok'), Hc).
  destruct (ok_num _ Hok') as [-> _]. rewrite Hl. rewrite decide_True by done.
  exists (freed tc'). split; [done|]. unfold view in Hfr at 1. rewrite Hl in Hfr. cbn in Hfr.
  by rewrite app_nil_r in Hfr.
Qed.

(** ** The beginning *)

Lemma initialize_ok size tc :
  size < B31 → PINT_tcache_initialize true (λ _, true) size = Some tc →
  tc_ok tc ∧ view tc = [] ∧ freed tc = [] ∧ enable tc = 1 ∧
  replacement_algorithm tc = LEAST_RECENTLY_USED ∧ hard_limit tc = TCACHE_DEFAULT_HARD_LIMIT.
Proof.
  intros Hs. unfold PINT_tcache_initialize, qhash_init. set (n := if decide (size ≤ 0) then _ else size).
  assert (0 < n < B31) as Hn by (unfold n, TCACHE_DEFAULT_TABLE_SIZE; case_decide; lia).
  intros [= <-]. split; [|done].
  split; cbn [h_table table_size array lru_list store num_entries]; try done.
  - rewrite length_replicate. lia.
  - intros i l a Hi Ha. apply lookup_replicate in Hi as [-> _]. by apply elem_of_nil in Ha.
  - generalize (Z.to_nat n). intros m. induction m; [done|]. cbn. done.
  - constructor.
  - intros a. rewrite lookup_empty. split; [by intros ?%elem_of_nil|by intros []].
Qed.

(** C24. Inserting a payload whose key is not in the cache.  A disabled cache
    frees the payload and does nothing else.  Otherwise room is made: at the
    soft limit expired entries are dropped from the least recently used end,
    up to the configured percentage, and at the hard limit the least recently
    used entry goes; then the entry is the most recently used one, or there
    is no memory for it.  Nothing is lost: every payload is in the cache or was
    freed, once.  The cache does not grow beyond its hard limit. *)
Theorem tcache_insert_correct tc k pl ex alloc clock :
  tc_ok tc → replacement_algorithm tc = LEAST_RECENTLY_USED → 1 ≤ hard_limit tc →
  key_of pl = k → lookup_key k (view tc) = None → (∀ a, alloc = Some a → store tc !! a = None) →
  num_entries tc + 1 < B31 →
  ∃ ret purged tc', PINT_tcache_insert_entry_ex tc alloc k pl ex clock = Done (ret, purged, tc') ∧
    tc_ok tc' ∧ params tc' = params tc ∧
    num_entries tc' ≤ Z.max (hard_limit tc) (num_entries tc) ∧
    if decide (enable tc = 0) then
      ret = 0 ∧ view tc' = view tc ∧ freed tc' = freed tc ++ [pl]
    else if alloc is Some _ then
      ret = 0 ∧
      view tc' = roomy tc (clock 0%nat) (view tc) ++ [new_entry tc pl ex (clock 2%nat)] ∧
      freed tc' ++ (payload <$> view tc') = freed tc ++ (payload <$> view tc) ++ [pl]
    else
      ret = - PVFS_ENOMEM ∧ view tc' = roomy tc (clock 0%nat) (view tc) ∧
      freed tc' ++ (payload <$> view tc') = freed tc ++ (payload <$> view tc).
Proof using EqDecision0 Hhash.
  intros Hok Halg Hhard Hk Hnone Ha Hmax. destruct (decide (enable tc = 0)) as [Hen|Hen].
  { unfold PINT_tcache_insert_entry_ex. rewrite decide_True by done. do 3 eexists. split; [done|].
    split; [|split; [done|]]; [|split; [cbn; lia|done]]. by destruct Hok. }
  destruct alloc as [a|].
  { destruct (insert_room_spec tc k pl ex a clock) as (tc' & purged & E & Hok' & Hp & Hv & Hfr & Hn); auto.
    exists 0, purged, tc'. done. }
  destruct (make_room_spec tc clock Hok Halg Hhard) as (tc1 & purged & E & Hok1 & Hp1 & Hv1 & Hfr1 & _).
  unfold PINT_tcache_insert_entry_ex. rewrite decide_False by done. rewrite E.
  cbn [mbind exec_bind]. rewrite decide_False by lia. do 3 eexists. split; [done|].
  split; [done|]. split; [done|]. split; [|done].
  pose proof (length_roomy tc (clock 0%nat) (view tc) Hhard) as [Hroom _].
  rewrite (view_num _ Hok), (view_num _ Hok1), Hv1. lia.
Qed.
End tcache.

(** * Examples *)

(** Payloads that begin with their key, in a cache for one entry. *)
Definition small_cache : PINT_tcache (P := Z * Z) :=
  (PINT_tcache_set_info (default (mkTcache 0 0 0 0 0 0 0 0 (mkQhash 0 []) [] ∅ [])
    (PINT_tcache_initialize true (λ _, true) 7)) TCACHE_HARD_LIMIT 1).2.

Definition pair_compare (k : Z) (p : Z * Z) : bool := bool_decide (p.1 = k).
Definition pair_hash (k n : Z) : Z := k mod n.

Definition with_one : PINT_tcache (P := Z * Z) :=
  match PINT_tcache_insert_entry pair_hash small_cache (Some 1%positive) 5 (5, 50) (λ _, mkTime 9 0) with
  | Done (_, _, tc) => tc
  | Fault _ => small_cache
  end.

Lemma pair_hash_range k n : 0 < n < B31 → 0 ≤ pair_hash k n < n.
Proof. intros Hn. apply Z.mod_pos_bound. lia. Qed.

Lemma small_ok : tc_ok pair_hash fst small_cache.
Proof.
  destruct (initialize_ok pair_hash fst 7 (default small_cache (PINT_tcache_initialize true (λ _, true) 7)))
    as [Hok _]; [lia|done|].
  destruct Hok as [H1 H2 H3 H4 H5 H6 H7 H8]. by split.
Qed.

Lemma with_one_ok : tc_ok pair_hash fst with_one.
Proof.
  destruct (insert_room_spec pair_hash fst pair_hash_range small_cache 5 (5, 50) None 1 (λ _, mkTime 9 0))
    as (tc & purged & E & Hok & _); try done; [apply small_ok|].
  replace with_one with tc; [done|]. unfold with_one, PINT_tcache_insert_entry. by rewrite E.
Qed.

Lemma tcache_insert_correct_witness :
  ∃ purged tc', PINT_tcache_insert_entry_ex pair_hash with_one (Some 2%positive) 6 (6, 60) None
      (λ _, mkTime 10 0) = Done (0, purged, tc') ∧
    view tc' = [mkEntry (6, 60) (mkTime 14 0)] ∧ freed tc' = [(5, 50)].
Proof.
  destruct (tcache_insert_correct pair_hash fst pair_hash_range with_one 6 (6, 60) None
    (Some 2%positive) (λ _, mkTime 10 0)) as (ret & purged & tc' & E & _ & _ & _ & H);
    [apply with_one_ok|reflexivity|vm_compute; done|reflexivity|reflexivity|
     intros a [= <-]; reflexivity|vm_compute; reflexivity|].
  change (decide (enable with_one = 0)) with (decide (1 = 0)) in H. rewrite decide_False in H by done.
  destruct H as (-> & Hv & Hf). exists purged, tc'. split; [done|].
  assert (view tc' = [mkEntry (6, 60) (mkTime 14 0)]) as Hv'.
  { rewrite Hv. vm_compute. reflexivity. }
  split; [done|]. rewrite Hv' in Hf. change (freed with_one ++ _ ++ _) with [(5, 50); (6, 60)] in Hf.
  cbn in Hf. by apply (app_inj_tail _ [(5, 50)]) in Hf as [? _].
Defined.

Lemma tcache_finalize_correct_witness :
  ∃ fr, PINT_tcache_finalize with_one = Done fr ∧ fr ≡ₚ [(5, 50)].
Proof.
  destruct (tcache_finalize_correct pair_hash fst with_one with_one_ok) as (fr & E & Hp).
  exists fr. split; [done|]. rewrite Hp. reflexivity.
Defined.

(** An algorithm that is accepted but not known leaves the pointer to the
    oldest entry unset. *)
Example unknown_algorithm :
  let tc := (PINT_tcache_set_info with_one TCACHE_REPLACE_ALGORITHM 2) in
  tc.1 = 0 ∧
  PINT_tcache_insert_entry pair_hash ((PINT_tcache_set_info tc.2 TCACHE_SOFT_LIMIT 1).2)
    (Some 2%positive) 6 (6, 60) (λ _, mkTime 9 0) = Fault BadAccess.
Proof. split; vm_compute; reflexivity. Qed.
