(* ===== verification/Ncache.v ===== *)
(** src/src/client/sysint/ncache.c: the cache of names, a timeout cache from
    the parent directory and the name of an entry to the object it names.

    Names are C strings, given without their terminator.  Every function
    holds the mutex while it uses the cache, so each one is a step.  The
    performance counters, which no result depends on, are left out. *)

From stdpp Require Import list numbers gmap.
From S2P Require Import Prelude Errors Quickhash Tcache.

Definition NCACHE_DEFAULT_TIMEOUT_MSECS : Z := 60000.
Definition NCACHE_DEFAULT_SOFT_LIMIT : Z := 5120.
Definition NCACHE_DEFAULT_HARD_LIMIT : Z := 10240.
Definition NCACHE_DEFAULT_RECLAIM_PERCENTAGE : Z := 25.

Record PVFS_object_ref := mkRef {
  ref_handle : Z;  (* PVFS_handle *)
  ref_fs_id : Z;   (* PVFS_fs_id *)
}.

Record ncache_payload := mkPayload {
  entry_ref : PVFS_object_ref;   (* PVFS2 object reference to entry *)
  parent_ref : PVFS_object_ref;  (* PVFS2 object reference to parent *)
  entry_status : Z;              (* is the entry valid? *)
  entry_name : list Z;
}.

Record ncache_key := mkKey {
  key_parent_ref : PVFS_object_ref;
  key_entry_name : list Z;
}.

#[export] Instance object_ref_eq_dec : EqDecision PVFS_object_ref.
Proof. solve_decision. Defined.
#[export] Instance ncache_key_eq_dec : EqDecision ncache_key.
Proof. solve_decision. Defined.

Definition ncache_compare_key_entry (key : ncache_key) (p : ncache_payload) : bool :=
  if decide (ref_handle (key_parent_ref key) ≠ ref_handle (parent_ref p)) then false
  else if decide (ref_fs_id (key_parent_ref key) ≠ ref_fs_id (parent_ref p)) then false
  else if decide (length (key_entry_name key) ≠ length (entry_name p)) then false
  else bool_decide (key_entry_name key = entry_name p).

(** A [char] is signed; converting it to [unsigned int] extends its sign. *)
Definition char_value (c : Z) : Z := if decide (c < 128) then c else u32 (c - 256).

Definition ncache_hash_key (key : ncache_key) (table_size : Z) : Z :=
  let sum := foldl (λ sum c, u32 (sum + char_value c)) 0 (key_entry_name key) in
  let sum := u32 (sum + u64 (ref_handle (key_parent_ref key) + ref_fs_id (key_parent_ref key))) in
  sum mod table_size.

Abbreviation ncache := (PINT_tcache (P := ncache_payload)).

Definition set_tcache_defaults (instance : ncache) : Z * ncache :=
  let '(ret, tc) := PINT_tcache_set_info instance TCACHE_HARD_LIMIT NCACHE_DEFAULT_HARD_LIMIT in
  if decide (ret < 0) then (ret, tc) else
  let '(ret, tc) := PINT_tcache_set_info tc TCACHE_SOFT_LIMIT NCACHE_DEFAULT_SOFT_LIMIT in
  if decide (ret < 0) then (ret, tc) else
  let '(ret, tc) :=
    PINT_tcache_set_info tc TCACHE_RECLAIM_PERCENTAGE NCACHE_DEFAULT_RECLAIM_PERCENTAGE in
  if decide (ret < 0) then (ret, tc) else (0, tc).

(** [env] is the timeout from the environment, as [strtoul] reads it.  The
    result and the cache; [None] is the NULL pointer.  A cache that was
    destroyed again after an error is freed memory, of which nothing is left. *)
Definition PINT_ncache_initialize (alloc : bool) (alloc' : nat → bool) (env : option Z)
    : exec (Z * option ncache) :=
  match PINT_tcache_initialize alloc alloc' (-1) with
  | None => Done (- PVFS_ENOMEM, None)
  | Some tc =>
      let timeout := match env with Some t => u32 t | None => NCACHE_DEFAULT_TIMEOUT_MSECS end in
      let '(ret, tc) := PINT_tcache_set_info tc TCACHE_TIMEOUT_MSECS timeout in
      if decide (ret < 0) then _ ← PINT_tcache_finalize tc; Done (ret, None)
      else
        let '(ret, tc) := set_tcache_defaults tc in
        if decide (ret < 0) then _ ← PINT_tcache_finalize tc; Done (ret, None)
        else Done (0, Some tc)
  end.

Definition PINT_ncache_finalize (nc : option ncache) : exec (list ncache_payload) :=
  match nc with Some tc => PINT_tcache_finalize tc | None => Done [] end.

Definition PINT_ncache_get_info (nc : ncache) (option : PINT_tcache_options) : Z * Z :=
  PINT_tcache_get_info nc option.

Definition PINT_ncache_set_info (nc : ncache) (option : PINT_tcache_options) (arg : Z)
    : Z * ncache :=
  PINT_tcache_set_info nc option arg.

(** The result, [*entry_ref] if it is written, and the cache. *)
Definition PINT_ncache_get_cached_entry (nc : ncache) (entry : list Z) (parent : PVFS_object_ref)
    (now : timeval) : exec (Z * option PVFS_object_ref * ncache) :=
  '(ret, tmp_entry, status, nc) ←
    PINT_tcache_lookup ncache_compare_key_entry ncache_hash_key nc (mkKey parent entry) now;
  if decide (ret < 0 ∨ status ≠ 0) then
    (* return -PVFS_ENOENT if the entry has expired *)
    if decide (status ≠ 0) then Done (- PVFS_ENOENT, None, nc) else Done (ret, None, nc)
  else
    match tmp_entry with
    | None => Fault BadAccess
    | Some a =>
        e ← entry_at nc a;
        let p := payload e in
        (* copy out entry ref if valid *)
        let out := if decide (entry_status p = 0 ∧ ref_handle (parent_ref p) = ref_handle parent)
                   then Some (entry_ref p) else None in
        if decide (entry_status p = 0) then Done (0, out, nc)
        else Done (- PVFS_ETIME, out, nc)
    end.

Definition PINT_ncache_invalidate (nc : ncache) (entry : list Z) (parent : PVFS_object_ref)
    (now : timeval) : exec ncache :=
  '(ret, tmp_entry, _, nc) ←
    PINT_tcache_lookup ncache_compare_key_entry ncache_hash_key nc (mkKey parent entry) now;
  if decide (ret = 0) then
    match tmp_entry with
    | None => Fault BadAccess
    | Some a => '(_, nc) ← PINT_tcache_delete nc a; Done nc
    end
  else Done nc.

(** What [PINT_ncache_update] allocates: the payload, the copy of the name,
    and the entry of the cache. *)
Record update_allocs := mkAllocs {
  alloc_payload : bool; alloc_name : bool; alloc_entry : option positive }.

(** [clock] is read by the lookup, by the refresh, and during the insertion. *)
Definition PINT_ncache_update (nc : ncache) (entry : list Z) (eref parent : PVFS_object_ref)
    (allocs : update_allocs) (clock : nat → timeval) : exec (Z * ncache) :=
  (* skip out immediately if the cache is disabled *)
  if decide ((PINT_tcache_get_info nc TCACHE_ENABLE).2 = 0) then Done (0, nc)
  else if decide (ref_handle eref = 0) then Done (- PVFS_EINVAL, nc)
  else if negb (alloc_payload allocs) then Done (- PVFS_ENOMEM, nc)
  else if negb (alloc_name allocs) then Done (- PVFS_ENOMEM, nc)
  else
    let tmp_payload := mkPayload eref parent 0 entry in
    (* find out if the entry is already in the cache *)
    '(ret, tmp_entry, _, nc) ←
      PINT_tcache_lookup ncache_compare_key_entry ncache_hash_key nc (mkKey parent entry)
        (clock 0%nat);
    if decide (ret = 0) then
      (* found match in cache; destroy old payload, replace, and refresh time stamp *)
      match tmp_entry with
      | None => Fault BadAccess
      | Some a =>
          e ← entry_at nc a;
          let '(ret, e') := PINT_tcache_refresh_entry nc
            (mkEntry tmp_payload (expiration_date e)) (clock 1%nat) in
          Done (ret, with_entries nc (num_entries nc) (h_table nc) (lru_list nc)
                       (<[a := e']> (store nc)) (freed nc ++ [payload e]))
      end
    else
      (* not found in cache; insert new payload *)
      '(ret, _, nc) ← PINT_tcache_insert_entry ncache_hash_key nc (alloc_entry allocs)
        (mkKey parent entry) tmp_payload (λ i, clock (S i));
      (* cleanup if we did not succeed for some reason *)
      if decide (ret < 0) then
        Done (ret, with_entries nc (num_entries nc) (h_table nc) (lru_list nc) (store nc)
                     (freed nc ++ [tmp_payload]))
      else Done (ret, nc).

(** * Keys *)

Definition key_of (p : ncache_payload) : ncache_key := mkKey (parent_ref p) (entry_name p).

Lemma compare_spec k p : ncache_compare_key_entry k p = true ↔ key_of p = k.
Proof.
  destruct k as [[kh kf] kn], p as [er [ph pf] st pn].
  unfold ncache_compare_key_entry, key_of. cbn.
  repeat case_decide; try (split; [done|]; by intros [= -> -> ->]).
  all: assert (kh = ph) as -> by lia; assert (kf = pf) as -> by lia.
  all: rewrite bool_decide_eq_true; (split; [by intros ->|by intros [= ->]]).
Qed.

Lemma hash_range k n : 0 < n < B31 → 0 ≤ ncache_hash_key k n < n.
Proof. intros Hn. apply Z.mod_pos_bound. lia. Qed.

(** * Runs *)

Inductive nc_op :=
  | Get (entry : list Z) (parent : PVFS_object_ref) (now : timeval)
  | Invalidate (entry : list Z) (parent : PVFS_object_ref) (now : timeval)
  | Update (entry : list Z) (eref parent : PVFS_object_ref) (allocs : update_allocs)
      (clock : nat → timeval)
  | SetInfo (option : PINT_tcache_options) (arg : Z).

Definition run_op (nc : ncache) (op : nc_op) : exec (Z * option PVFS_object_ref * ncache) :=
  match op with
  | Get entry parent now => PINT_ncache_get_cached_entry nc entry parent now
  | Invalidate entry parent now =>
      nc ← PINT_ncache_invalidate nc entry parent now; Done (0, None, nc)
  | Update entry eref parent allocs clock =>
      '(ret, nc) ← PINT_ncache_update nc entry eref parent allocs clock; Done (ret, None, nc)
  | SetInfo option arg => let '(ret, nc) := PINT_ncache_set_info nc option arg in Done (ret, None, nc)
  end.

(** New entries are at new addresses, the hard limit is less than 2^31 - 1,
    and the algorithm one that there is. *)
Definition op_ok (nc : ncache) (op : nc_op) : Prop :=
  match op with
  | Update _ _ _ allocs _ => ∀ a, alloc_entry allocs = Some a → store nc !! a = None
  | SetInfo TCACHE_HARD_LIMIT arg => arg < B31 - 1
  | SetInfo TCACHE_REPLACE_ALGORITHM arg => arg = LEAST_RECENTLY_USED
  | _ => True
  end.

(** What the cache has been told, and not been told to forget. *)
Abbreviation history := (ncache_key → option PVFS_object_ref).

Definition told (hist : history) (k : ncache_key) (r : option PVFS_object_ref) : history :=
  λ k', if decide (k' = k) then r else hist k'.

Definition learn (hist : history) (nc : ncache) (op : nc_op) (ret : Z) : history :=
  match op with
  | Invalidate entry parent _ => told hist (mkKey parent entry) None
  | Update entry eref parent _ _ =>
      if decide (enable nc ≠ 0 ∧ ret = 0) then told hist (mkKey parent entry) (Some eref) else hist
  | _ => hist
  end.

Inductive reached : ncache → history → Prop :=
  | reached_init env nc :
      PINT_ncache_initialize true (λ _, true) env = Done (0, Some nc) → reached nc (λ _, None)
  | reached_op nc hist op ret out nc' :
      reached nc hist → op_ok nc op → run_op nc op = Done (ret, out, nc') →
      reached nc' (learn hist nc op ret).

(** * The invariant *)

Abbreviation ok := (tc_ok ncache_hash_key key_of).
Abbreviation ekey := (entry_key key_of).

Record nc_inv (nc : ncache) (hist : history) : Prop := {
  inv_ok : ok nc;
  inv_alg : replacement_algorithm nc = LEAST_RECENTLY_USED;
  inv_hard : 1 ≤ hard_limit nc < B31 - 1;
  inv_num : num_entries nc < B31 - 1;
  inv_view : ∀ e, e ∈ view nc →
    entry_status (payload e) = 0 ∧ hist (ekey e) = Some (entry_ref (payload e));
}.

Lemma view_same_entries (nc nc' : ncache) :
  lru_list nc' = lru_list nc → store nc' = store nc → view nc' = view nc.
Proof. intros Hl Hs. unfold view. by rewrite Hl, Hs. Qed.

(** The parameters changed, but not the entries. *)
Lemma set_info_inv nc hist option arg ret nc' :
  nc_inv nc hist → op_ok nc (SetInfo option arg) →
  PINT_tcache_set_info nc option arg = (ret, nc') → nc_inv nc' hist.
Proof.
  intros [Hok Halg Hhard Hnum Hv] Hop E.
  assert (∃ t x h s p r en, nc' = with_params nc t x h s p r en ∧
    r = LEAST_RECENTLY_USED ∧ 1 ≤ h < B31 - 1) as (t & x & h & s & p & r & en & -> & -> & Hh).
  { assert (nc = with_params nc (timeout_msecs nc) (expiration_enabled nc) (hard_limit nc)
      (soft_limit nc) (reclaim_percentage nc) (replacement_algorithm nc) (enable nc)) as Hnc
      by (by destruct nc).
    unfold PINT_tcache_set_info in E.
    destruct option; cbn in Hop; repeat case_decide; simplify_eq;
      (do 7 eexists; (split; [first [exact Hnc|reflexivity]|split; [done|lia]])). }
  split; try done. destruct Hok. by split.
Qed.

Lemma initialize_inv env nc :
  PINT_ncache_initialize true (λ _, true) env = Done (0, Some nc) → nc_inv nc (λ _, None).
Proof.
  unfold PINT_ncache_initialize.
  destruct (PINT_tcache_initialize true (λ _, true) (-1)) as [tc|] eqn:E; [|done].
  destruct (initialize_ok ncache_hash_key key_of (-1) tc) as (Hok & Hv & _ & _ & Halg & Hhard);
    [lia|done|].
  set (timeout := match env with Some t => u32 t | None => _ end). cbn.
  rewrite decide_False by lia. unfold set_tcache_defaults. cbn.
  intros [= <-]. split; cbn; try done.
  - destruct Hok. by split.
  - pose proof (ok_num _ _ _ Hok) as [Hn Hmax]. rewrite <- (view_length _ _ _ Hok), Hv in Hn.
    cbn in Hn. lia.
  - intros e. unfold view. cbn. fold (view tc). rewrite Hv. by intros ?%elem_of_nil.
Qed.

Lemma elem_of_without k (l : list (PINT_tcache_entry (P := ncache_payload))) e :
  e ∈ without key_of k l ↔ ekey e ≠ k ∧ e ∈ l.
Proof. unfold without. by rewrite list_elem_of_filter. Qed.

(** A lookup changes the order only. *)
Lemma lookup_inv nc hist k now :
  nc_inv nc hist →
  match lookup_key key_of k (view nc) with
  | Some e =>
      ∃ a nc' l, store nc' !! a = Some e ∧ ekey e = k ∧
        PINT_tcache_lookup ncache_compare_key_entry ncache_hash_key nc k now =
          Done (0, Some a, check_expiration nc e now, nc') ∧
        nc_inv nc' hist ∧ params nc' = params nc ∧ store nc' = store nc ∧
        lru_list nc' = l ++ [a] ∧ view nc' = without key_of k (view nc) ++ [e] ∧
        entry_status (payload e) = 0 ∧ hist k = Some (entry_ref (payload e))
  | None =>
      PINT_tcache_lookup ncache_compare_key_entry ncache_hash_key nc k now =
        Done (- PVFS_ENOENT, None, - PVFS_EINVAL, nc)
  end.
Proof.
  intros [Hok Halg Hhard Hnum Hv].
  pose proof (lookup_spec _ _ key_of compare_spec hash_range nc k now Hok) as Hl.
  destruct (lookup_key key_of k (view nc)) as [e|] eqn:E; [|done].
  destruct Hl as (a & nc' & He & El & Hok' & Hp & Hst & _ & (l & Hl) & Hv' & Hn).
  apply lookup_key_Some in E as [Hk Hin]. exists a, nc', l. rewrite Hst.
  split; [done|]. split; [done|]. split; [done|]. split.
  - unfold params in Hp. split; [done|congruence|congruence|lia|].
    intros f. rewrite Hv', elem_of_app, elem_of_without, list_elem_of_singleton.
    intros [[_ Hf]| ->]; by apply Hv.
  - do 4 (split; [done|]). rewrite <- Hk. by apply Hv.
Qed.

Lemma get_spec nc hist entry parent now :
  nc_inv nc hist →
  ∃ ret out nc', PINT_ncache_get_cached_entry nc entry parent now = Done (ret, out, nc') ∧
    nc_inv nc' hist ∧
    match lookup_key key_of (mkKey parent entry) (view nc) with
    | Some e =>
        if decide (check_expiration nc e now = 0)
        then ret = 0 ∧ out = Some (entry_ref (payload e)) ∧
             hist (mkKey parent entry) = Some (entry_ref (payload e))
        else ret = - PVFS_ENOENT ∧ out = None
    | None => ret = - PVFS_ENOENT ∧ out = None
    end.
Proof.
  intros Hinv. pose proof (lookup_inv nc hist (mkKey parent entry) now Hinv) as Hl.
  unfold PINT_ncache_get_cached_entry.
  destruct (lookup_key key_of (mkKey parent entry) (view nc)) as [e|] eqn:E.
  - destruct Hl as (a & nc' & l & He & Hk & -> & Hinv' & _ & _ & _ & _ & Hst & Hh).
    cbn [mbind exec_bind]. destruct (decide (check_expiration nc e now = 0)) as [Hc|Hc].
    + rewrite decide_False by lia. rewrite (entry_at_Some _ _ _ He). cbn [mbind exec_bind].
      rewrite (decide_True (P := entry_status (payload e) = 0)) by done.
      rewrite decide_True; [by do 3 eexists|]. split; [done|]. unfold entry_key, key_of in Hk.
      congruence.
    + rewrite decide_True by lia. rewrite decide_True by done. by do 3 eexists.
  - rewrite Hl. cbn [mbind exec_bind]. rewrite decide_True by (by right).
    rewrite decide_True by done. by do 3 eexists.
Qed.

Lemma invalidate_spec nc hist entry parent now :
  nc_inv nc hist →
  ∃ nc', PINT_ncache_invalidate nc entry parent now = Done nc' ∧
    nc_inv nc' (told hist (mkKey parent entry) None).
Proof.
  intros Hinv. pose proof (lookup_inv nc hist (mkKey parent entry) now Hinv) as Hl.
  unfold PINT_ncache_invalidate.
  destruct (lookup_key key_of (mkKey parent entry) (view nc)) as [e|] eqn:E.
  - destruct Hl as (a & nc1 & l & He & Hk & -> & [Hok Halg Hhard Hnum Hv] & _).
    cbn [mbind exec_bind]. rewrite decide_True by done.
    destruct (delete_spec _ key_of nc1 a e Hok He) as
      (nc2 & Ed & Hok2 & Hp2 & _ & _ & Hv2 & _ & Hn2).
    rewrite Ed. cbn [mbind exec_bind]. exists nc2. split; [done|]. unfold params in Hp2.
    split; [done|congruence|congruence|lia|].
    intros f. rewrite Hv2, elem_of_without, Hk. intros [Hne Hf]. unfold told.
    rewrite decide_False by done. by apply Hv.
  - rewrite Hl. cbn [mbind exec_bind]. rewrite decide_False by done. exists nc. split; [done|].
    destruct Hinv as [Hok Halg Hhard Hnum Hv]. split; try done. intros e He. unfold told.
    rewrite decide_False; [by apply Hv|]. intros Hk. eapply lookup_key_None; [exact E|done|done].
Qed.

(** The expiration date an update gives its entry. *)
Definition updated_until (nc : ncache) (clock : nat → timeval) (e : PINT_tcache_entry (P := ncache_payload))
    : Prop :=
  expiration_enabled nc ≠ 0 → ∃ i, expiration_date e = expires (timeout_msecs nc) (clock i).

Definition not_after (a b : timeval) : Prop :=
  tv_sec a < tv_sec b ∨ tv_sec a = tv_sec b ∧ tv_usec a ≤ tv_usec b.

(** What an update of an enabled cache does. *)
Definition updates (nc : ncache) (hist : history) (k : ncache_key) (eref : PVFS_object_ref)
    (clock : nat → timeval) (run : exec (Z * ncache)) : Prop :=
  ∃ ret nc', run = Done (ret, nc') ∧
    nc_inv nc' (if decide (ret = 0) then told hist k (Some eref) else hist) ∧
    params nc' = params nc ∧ ret ≤ 0 ∧
    (ret = 0 → ∃ e, lookup_key key_of k (view nc') = Some e ∧ entry_ref (payload e) = eref ∧
       updated_until nc clock e).

Lemma updates_fail nc hist k eref clock r :
  nc_inv nc hist → r < 0 → updates nc hist k eref clock (Done (r, nc)).
Proof.
  intros Hinv Hr. exists r, nc. rewrite decide_False by lia. split; [done|]. split; [done|].
  split; [done|]. split; [lia|]. lia.
Qed.

(** The most recently used entry is the one that is found. *)
Lemma lookup_key_last k (l : list (PINT_tcache_entry (P := ncache_payload))) e :
  ekey e = k → (∀ f, f ∈ l → ekey f ≠ k) → lookup_key key_of k (l ++ [e]) = Some e.
Proof.
  intros Hk Hl. unfold lookup_key. rewrite list_find_app_r by (by apply list_find_None, Forall_forall).
  cbn. by rewrite decide_True.
Qed.

Lemma told_view nc hist k eref (l : list PINT_tcache_entry) e :
  (∀ f, f ∈ l → ekey f ≠ k ∧ f ∈ view nc) → nc_inv nc hist → ekey e = k →
  entry_ref (payload e) = eref → entry_status (payload e) = 0 →
  ∀ f, f ∈ l ++ [e] →
    entry_status (payload f) = 0 ∧ told hist k (Some eref) (ekey f) = Some (entry_ref (payload f)).
Proof.
  intros Hl Hinv Hk He Hst f [Hf| ->%list_elem_of_singleton]%elem_of_app; unfold told.
  - destruct (Hl f Hf) as [Hne Hin]. rewrite decide_False by done. by apply (inv_view _ _ Hinv).
  - rewrite decide_True by done. by subst.
Qed.

Lemma refresh_until nc (p : ncache_payload) x now :
  let e := (PINT_tcache_refresh_entry nc (mkEntry p x) now).2 in
  payload e = p ∧ (expiration_enabled nc ≠ 0 → expiration_date e = expires (timeout_msecs nc) now).
Proof. unfold PINT_tcache_refresh_entry. case_decide; [|done]. by split. Qed.

Lemma replace_spec nc hist a l v e p clock eref parent entry fr :
  nc_inv nc hist → store nc !! a = Some e → lru_list nc = l ++ [a] → view nc = v ++ [e] →
  ekey e = mkKey parent entry → (∀ f, f ∈ v → ekey f ≠ mkKey parent entry) →
  p = mkPayload eref parent 0 entry →
  updates nc hist (mkKey parent entry) eref clock
    (let '(ret, e') := PINT_tcache_refresh_entry nc (mkEntry p (expiration_date e)) (clock 1%nat) in
     Done (ret, with_entries nc (num_entries nc) (h_table nc) (lru_list nc)
                  (<[a := e']> (store nc)) fr)).
Proof.
  intros Hinv He Hl Hv Hk Hother ->.
  pose proof (refresh_until nc (mkPayload eref parent 0 entry) (expiration_date e) (clock 1%nat)) as Hr.
  destruct (PINT_tcache_refresh_entry nc _ _) as [ret e'] eqn:E. cbn [snd] in Hr.
  destruct Hr as [Hpl Hex]. assert (ret = 0) as ->.
  { unfold PINT_tcache_refresh_entry in E. case_decide; congruence. }
  assert (ekey e' = mkKey parent entry) as Hk' by (unfold entry_key; by rewrite Hpl).
  pose proof Hinv as [Hok Halg Hhard Hnum Hview].
  destruct (replace_ok _ key_of nc a e e' l fr Hok Hl He) as [Hok' Hv']; [congruence|].
  exists 0. eexists. split; [done|]. rewrite decide_True by done.
  specialize (Hv' v Hv). split; [|split; [done|split; [done|]]].
  - split; try done. rewrite Hv'. eapply told_view; try done; [|by rewrite Hpl..].
    intros f Hf. split; [by apply Hother|]. rewrite Hv. apply elem_of_app. by left.
  - intros _. exists e'. rewrite Hv'. split; [by apply lookup_key_last|].
    rewrite Hpl. split; [done|]. intros Hen. exists 1%nat. auto.
Qed.

Lemma insert_update_spec nc hist p alloc clock eref parent entry :
  nc_inv nc hist → enable nc ≠ 0 → (∀ a, alloc = Some a → store nc !! a = None) →
  lookup_key key_of (mkKey parent entry) (view nc) = None → p = mkPayload eref parent 0 entry →
  updates nc hist (mkKey parent entry) eref clock
    ('(ret, _, nc) ← PINT_tcache_insert_entry ncache_hash_key nc alloc (mkKey parent entry) p
        (λ i, clock (S i));
     if decide (ret < 0) then
       Done (ret, with_entries nc (num_entries nc) (h_table nc) (lru_list nc) (store nc)
                    (freed nc ++ [p]))
     else Done (ret, nc)).
Proof.
  intros Hinv Hen Ha Hnone ->. pose proof Hinv as [Hok Halg Hhard Hnum Hview].
  unfold PINT_tcache_insert_entry. set (p := mkPayload eref parent 0 entry).
  destruct alloc as [a|].
  - destruct (insert_room_spec _ key_of hash_range nc (mkKey parent entry) p None a (λ i, clock (S i)))
      as (nc' & purged & E & Hok' & Hp & Hv & _ & Hn); try done; [lia|by apply Ha|lia|].
    rewrite E. cbn [mbind exec_bind]. rewrite decide_False by lia. exists 0, nc'.
    split; [done|]. rewrite decide_True by done.
    set (e := new_entry nc p None _) in Hv. pose proof (refresh_until nc p (mkTime 0 0) (clock 3%nat)) as [Hpl Hex].
    change (payload e = p) in Hpl. change (expiration_enabled nc ≠ 0 →
      expiration_date e = expires (timeout_msecs nc) (clock 3%nat)) in Hex. clearbody e.
    assert (ekey e = mkKey parent entry) as Hk by (unfold entry_key; by rewrite Hpl).
    assert (∀ f, f ∈ roomy nc (clock 1%nat) (view nc) →
      ekey f ≠ mkKey parent entry ∧ f ∈ view nc) as Hsub.
    { intros f Hf%roomy_sub. split; [|done]. by eapply lookup_key_None. }
    split; [|split; [done|split; [done|]]].
    + unfold params in Hp. split; [done|congruence|congruence| |].
      * assert (hard_limit nc' = hard_limit nc) by congruence. lia.
      * rewrite Hv. eapply told_view; try done; by rewrite Hpl.
    + intros _. exists e. rewrite Hv. split; [apply lookup_key_last; [done|by apply Hsub]|].
      rewrite Hpl. split; [done|]. intros Hx. exists 3%nat. auto.
  - destruct (make_room_spec _ key_of nc (λ i, clock (S i)) Hok Halg ltac:(lia)) as
      (nc1 & purged & E & Hok1 & Hp1 & Hv1 & _).
    unfold PINT_tcache_insert_entry_ex. rewrite decide_False by done. rewrite E.
    cbn [mbind exec_bind]. rewrite (decide_False (P := 0 < 0)) by lia. cbn [mbind exec_bind].
    rewrite decide_True by done.
    eexists _, _. split; [done|]. rewrite decide_False by done.
    split; [|split; [done|split; [done|done]]].
    unfold params in Hp1.
    assert (num_entries nc1 ≤ num_entries nc).
    { rewrite (view_num _ _ _ Hok), (view_num _ _ _ Hok1), Hv1.
      pose proof (length_roomy (K := ncache_key) nc (clock 1%nat) (view nc) ltac:(lia)). lia. }
    split; cbn [replacement_algorithm hard_limit num_entries with_entries]; [by destruct Hok1|congruence| |lia|].
    + assert (hard_limit nc1 = hard_limit nc) by congruence. lia.
    + intros f Hf. apply Hview. apply (roomy_sub nc (clock 1%nat)). by rewrite <- Hv1.
Qed.

Lemma updates_params nc nc1 hist k eref clock run :
  params nc1 = params nc → updates nc1 hist k eref clock run → updates nc hist k eref clock run.
Proof.
  intros Hp (ret & nc' & E & Hinv & Hp' & Hret & Hv). exists ret, nc'.
  split; [done|]. split; [done|]. split; [congruence|]. split; [done|]. intros H0.
  destruct (Hv H0) as (e & Hl & He & Hu). exists e. split; [done|]. split; [done|].
  unfold updated_until, params in *.
  assert (expiration_enabled nc1 = expiration_enabled nc) as <- by congruence.
  by assert (timeout_msecs nc1 = timeout_msecs nc) as <- by congruence.
Qed.

Lemma update_spec nc hist entry eref parent allocs clock :
  nc_inv nc hist → op_ok nc (Update entry eref parent allocs clock) → enable nc ≠ 0 →
  updates nc hist (mkKey parent entry) eref clock
    (PINT_ncache_update nc entry eref parent allocs clock).
Proof.
  intros Hinv Hop Hen. unfold PINT_ncache_update. cbn [PINT_tcache_get_info snd].
  rewrite (decide_False (P := enable nc = 0)) by done.
  destruct (decide (ref_handle eref = 0)); [by apply updates_fail|].
  destruct (alloc_payload allocs); cbn [negb]; [|by apply updates_fail].
  destruct (alloc_name allocs); cbn [negb]; [|by apply updates_fail].
  pose proof (lookup_inv nc hist (mkKey parent entry) (clock 0%nat) Hinv) as Hl.
  destruct (lookup_key key_of (mkKey parent entry) (view nc)) as [e|] eqn:E.
  - destruct Hl as (a & nc1 & l & He & Hk & -> & Hinv1 & Hp1 & _ & Hl1 & Hv1 & _).
    cbn [mbind exec_bind]. rewrite decide_True by done. rewrite (entry_at_Some _ _ _ He).
    cbn [mbind exec_bind]. eapply updates_params; [exact Hp1|].
    eapply replace_spec; try done. intros f [? _]%elem_of_without. done.
  - rewrite Hl. cbn [mbind exec_bind]. rewrite decide_False by done.
    by apply insert_update_spec.
Qed.

Lemma run_op_inv nc hist op :
  nc_inv nc hist → op_ok nc op →
  ∃ ret out nc', run_op nc op = Done (ret, out, nc') ∧ nc_inv nc' (learn hist nc op ret) ∧
    (∀ entry parent now, op = Get entry parent now →
       (ret = 0 ∧ ∃ r, out = Some r ∧ hist (mkKey parent entry) = Some r) ∨
       (ret = - PVFS_ENOENT ∧ out = None)).
Proof.
  intros Hinv Hop. destruct op as [entry parent now|entry parent now|entry eref parent allocs clock|o arg].
  - destruct (get_spec nc hist entry parent now Hinv) as (ret & out & nc' & E & Hinv' & Hr).
    exists ret, out, nc'. split; [done|]. split; [done|]. intros ??? [= <- <- <-].
    destruct (lookup_key _ _ _) as [e|]; [case_decide|]; naive_solver.
  - destruct (invalidate_spec nc hist entry parent now Hinv) as (nc' & E & Hinv').
    exists 0, None, nc'. cbn [run_op]. rewrite E. done.
  - cbn [run_op learn]. destruct (decide (enable nc = 0)) as [Hen|Hen].
    + exists 0, None, nc. unfold PINT_ncache_update. cbn [PINT_tcache_get_info snd].
      rewrite (decide_True (P := enable nc = 0)) by done. cbn [mbind exec_bind].
      rewrite decide_False by tauto. done.
    + destruct (update_spec nc hist entry eref parent allocs clock Hinv Hop Hen)
        as (ret & nc' & E & Hinv' & _). exists ret, None, nc'. rewrite E. split; [done|]. split; [|done].
      destruct (decide (ret = 0)); [rewrite decide_True by done|rewrite decide_False by tauto]; done.
  - cbn [run_op]. unfold PINT_ncache_set_info.
    destruct (PINT_tcache_set_info nc o arg) as [ret nc'] eqn:E.
    exists ret, None, nc'. split; [done|]. split; [|done]. by eapply set_info_inv.
Qed.

Lemma reached_inv nc hist : reached nc hist → nc_inv nc hist.
Proof.
  induction 1 as [env nc E|nc hist op ret out nc' _ IH Hop E]; [by eapply initialize_inv|].
  destruct (run_op_inv nc hist op IH Hop) as (ret' & out' & nc'' & E' & Hinv' & _).
  rewrite E in E'. apply Done_inj in E'. by simplify_eq.
Qed.

(** * Theorems *)

(** In every state that the operations reach, every operation runs to the end,
    whatever allocations fail; and a lookup either reports ENOENT and leaves
    the caller's reference as it is, or it succeeds and the reference is the
    one that the last successful update of exactly that name in exactly that
    directory gave, with no invalidation of the name since. So a reference is
    never handed out under another name or directory, hash collisions, the
    replacement of entries and the reclamation of expired ones included. *)
Theorem ncache_coherent nc hist op :
  reached nc hist → op_ok nc op →
  ∃ ret out nc', run_op nc op = Done (ret, out, nc') ∧ reached nc' (learn hist nc op ret) ∧
    (∀ entry parent now, op = Get entry parent now →
       (ret = 0 ∧ ∃ r, out = Some r ∧ hist (mkKey parent entry) = Some r) ∨
       (ret = - PVFS_ENOENT ∧ out = None)).
Proof.
  intros Hr Hop. destruct (run_op_inv nc hist op (reached_inv _ _ Hr) Hop)
    as (ret & out & nc' & E & _ & Hget).
  exists ret, out, nc'. split; [done|]. split; [by eapply reached_op|done].
Qed.

(** A name that was just updated is found: an update of the enabled cache that
    succeeds is followed by a lookup that returns the reference, at every
    instant at which none of the dates that the update can have given is
    past, however full the cache was. *)
Theorem ncache_read_your_writes nc hist entry eref parent allocs clock nc' now :
  reached nc hist → op_ok nc (Update entry eref parent allocs clock) → enable nc ≠ 0 →
  PINT_ncache_update nc entry eref parent allocs clock = Done (0, nc') →
  (∀ i, not_after now (expires (timeout_msecs nc) (clock i))) →
  ∃ nc'', PINT_ncache_get_cached_entry nc' entry parent now = Done (0, Some eref, nc'').
Proof.
  intros Hr Hop Hen E Hnow.
  destruct (update_spec nc hist entry eref parent allocs clock (reached_inv _ _ Hr) Hop Hen)
    as (ret & nc1 & E1 & Hinv & Hp & _ & He).
  rewrite E in E1. apply Done_inj in E1. injection E1 as <- <-.
  destruct (He eq_refl) as (e & Hl & <- & Hu).
  destruct (get_spec nc' _ entry parent now Hinv) as (r & out & nc'' & -> & _ & Hget).
  rewrite Hl in Hget. rewrite decide_True in Hget; [destruct Hget as (-> & -> & _); by exists nc''|].
  rewrite (check_params _ _ _ _ Hp). unfold check_expiration.
  destruct (decide (expiration_enabled nc = 0)) as [Hx|Hx]; [done|].
  destruct (Hu Hx) as [i Hi]. rewrite Hi. specialize (Hnow i). unfold not_after in Hnow.
  repeat case_decide; lia.
Qed.

(** * Examples *)

Definition fresh : ncache :=
  match PINT_ncache_initialize true (λ _, true) None with
  | Done (_, Some nc) => nc
  | _ => mkTcache 0 0 0 0 0 0 0 0 (mkQhash 0 []) [] ∅ []
  end.

Definition root_ref := mkRef 100 7.
Definition file_ref := mkRef 4711 7.
Definition home : list Z := [104; 111; 109; 101].
Definition add_home : nc_op :=
  Update home file_ref root_ref (mkAllocs true true (Some 1%positive)) (λ _, mkTime 50 0).
Definition after (nc : ncache) (op : nc_op) : ncache :=
  match run_op nc op with Done (_, _, nc') => nc' | _ => nc end.

Lemma fresh_reached : reached fresh (λ _, None).
Proof. by apply (reached_init None). Qed.

Lemma ncache_coherent_witness :
  ∃ ret out nc', run_op (after fresh add_home) (Get home root_ref (mkTime 60 0)) = Done (ret, out, nc') ∧
    reached nc' (learn (learn (λ _, None) fresh add_home 0) (after fresh add_home)
                   (Get home root_ref (mkTime 60 0)) ret) ∧
    (∀ entry parent now, Get home root_ref (mkTime 60 0) = Get entry parent now →
       (ret = 0 ∧ ∃ r, out = Some r ∧
          learn (λ _, None) fresh add_home 0 (mkKey parent entry) = Some r) ∨
       (ret = - PVFS_ENOENT ∧ out = None)).
Proof.
  apply (ncache_coherent (after fresh add_home)); [|done].
  eapply (reached_op fresh (λ _, None) add_home 0 None); [apply fresh_reached| |vm_compute; reflexivity].
  intros a _. vm_compute. reflexivity.
Defined.

Lemma ncache_read_your_writes_witness :
  ∃ nc'', PINT_ncache_get_cached_entry (after fresh add_home) home root_ref (mkTime 110 0) =
    Done (0, Some file_ref, nc'').
Proof.
  apply (ncache_read_your_writes fresh (λ _, None) home file_ref root_ref
    (mkAllocs true true (Some 1%positive)) (λ _, mkTime 50 0)).
  - apply fresh_reached.
  - intros a _. vm_compute. reflexivity.
  - vm_compute. discriminate.
  - vm_compute. reflexivity.
  - intros i. vm_compute. right. split; [reflexivity|discriminate].
Defined.

(** An update of a disabled cache is dropped with success, while the entry it
    was to replace stays and is served, also when the cache is still disabled. *)
Example disabled_cache_serves_stale :
  let off := after (after fresh add_home) (SetInfo TCACHE_ENABLE 0) in
  let updated := after off (Update home (mkRef 4712 7) root_ref
    (mkAllocs true true (Some 2%positive)) (λ _, mkTime 51 0)) in
  ∃ nc', run_op updated (Get home root_ref (mkTime 60 0)) = Done (0, Some file_ref, nc').
Proof. eexists. vm_compute. reflexivity. Qed.
