(* ===== verification/Ledger.v ===== *)
(** src/src/io/trove/trove-handle-mgmt/trove-ledger.c and
    trove-handle-mgmt.c: the handles of a collection that are free, recently
    freed, or freed while too many were recently freed; and the table of
    collections.

    [now] and [alloc] are as in Extentlist.v.  The table lock is held
    throughout every function of trove-handle-mgmt.c, so each of them is one
    step. *)

From stdpp Require Import list numbers sorting sets gmap relations.
From S2P Require Import Prelude Errors Avl Extentlist Quickhash.

(** The fields that name a backing store belong to a format that is not
    implemented; no function reads them. *)
Record handle_ledger := mkLedger {
  free_list : TROVE_handle_extentlist;
  recently_freed_list : TROVE_handle_extentlist;
  overflow_list : TROVE_handle_extentlist;
  cutoff : Z;  (* uint64_t: when to start trying to reuse handles *)
}.

Definition set_free_list (hl : handle_ledger) (e : TROVE_handle_extentlist) :=
  mkLedger e (recently_freed_list hl) (overflow_list hl) (cutoff hl).
Definition set_recently_freed_list (hl : handle_ledger) (e : TROVE_handle_extentlist) :=
  mkLedger (free_list hl) e (overflow_list hl) (cutoff hl).
Definition set_overflow_list (hl : handle_ledger) (e : TROVE_handle_extentlist) :=
  mkLedger (free_list hl) (recently_freed_list hl) e (cutoff hl).

(** [alloc 0] is the calloc of the ledger, [alloc 1..3] those of the lists. *)
Definition trove_handle_ledger_init (alloc : nat → bool) (now : Z) : option handle_ledger :=
  if negb (alloc 0%nat) then None else
  let '(ret1, l1) := extentlist_init (λ i, alloc (1 + i)%nat) now zero_extentlist in
  if decide (ret1 ≠ 0) then None else
  let '(ret2, l2) := extentlist_init (λ i, alloc (2 + i)%nat) now zero_extentlist in
  if decide (ret2 ≠ 0) then None else
  let '(ret3, l3) := extentlist_init (λ i, alloc (3 + i)%nat) now zero_extentlist in
  if decide (ret3 ≠ 0) then None else
  Some (mkLedger l1 l2 l3 0).

(** What is left of a ledger that has been freed: nothing but empty lists. *)
Definition trove_handle_ledger_free (hl : handle_ledger) : handle_ledger :=
  mkLedger (extentlist_free (free_list hl)) (extentlist_free (recently_freed_list hl))
    (extentlist_free (overflow_list hl)) (cutoff hl).

(** A NULL ledger yields the null handle. *)
Definition trove_ledger_handle_alloc (hl : option handle_ledger)
    : exec (Z * option handle_ledger) :=
  match hl with
  | Some hl =>
      '(handle, fl) ← extentlist_get_and_dec_extent (free_list hl);
      Done (handle, Some (set_free_list hl fl))
  | None => Done (TROVE_HANDLE_NULL, None)
  end.

Definition trove_ledger_handle_alloc_from_range (alloc : nat → bool)
    (hl : option handle_ledger) (extent : TROVE_handle_extent)
    : exec (Z * option handle_ledger) :=
  match hl with
  | Some hl =>
      '(handle, fl) ← extentlist_get_from_extent alloc (free_list hl) extent;
      Done (handle, Some (set_free_list hl fl))
  | None => Done (TROVE_HANDLE_NULL, None)
  end.

Definition trove_ledger_peek_handles (args : bool) (hl : option handle_ledger)
    (max_num_handles : Z) : exec (Z * list Z) :=
  match hl with
  | Some hl => extentlist_peek_handles args (free_list hl) max_num_handles
  | None => Done (TROVE_HANDLE_NULL, [])
  end.

Definition trove_ledger_peek_handles_from_extent (args : bool) (hl : option handle_ledger)
    (extent : TROVE_handle_extent) (max_num_handles : Z) : exec (Z * list Z) :=
  match hl with
  | Some hl => extentlist_peek_handles_from_extent args (free_list hl) extent max_num_handles
  | None => Done (TROVE_HANDLE_NULL, [])
  end.

(** Recently freed items become free items, overflow items become recently
    freed items. *)
Definition handle_recycle (alloc : nat → bool) (now : Z) (hl : handle_ledger)
    : exec (Z * handle_ledger) :=
  '(_, fl, rf) ← extentlist_merge alloc now (free_list hl) (recently_freed_list hl);
  let rf := extentlist_free rf in
  let rf := overflow_list hl in
  let ov := mkExtentlist 0 0 now NULL in
  Done (0, mkLedger fl rf ov (cutoff hl)).

(** [alloc 0] and [alloc 1] are the mallocs of [extentlist_addextent], the
    others those of the recycling. *)
Definition trove_ledger_handle_free (alloc : nat → bool) (now purgatory : Z)
    (hl : handle_ledger) (handle : Z) : exec (Z * handle_ledger) :=
  hl1 ←
    (if extentlist_hit_cutoff (recently_freed_list hl) (cutoff hl) then
       '(_, e) ← extentlist_addextent alloc now (overflow_list hl) handle handle;
       Done (set_overflow_list hl e)
     else
       '(_, e) ← extentlist_addextent alloc now (recently_freed_list hl) handle handle;
       Done (set_recently_freed_list hl e));
  (* don't even bother checking the timeouts until the free_list starts
     running out *)
  if decide (u64 (num_handles (free_list hl1)) > cutoff hl1) then Done (0, hl1) else
  if extentlist_endured_purgatory purgatory (recently_freed_list hl1) (overflow_list hl1) then
    '(_, hl2) ← handle_recycle (λ i, alloc (2 + i)%nat) now hl1;
    Done (0, hl2)
  else Done (0, hl1).

Definition trove_ledger_set_timeout (timeout : Z) : exec (Z * Z) :=
  extentlist_set_purgatory timeout.

Definition trove_handle_ledger_get_statistics (hl : handle_ledger) : Z :=
  let free_count := 0 in
  let free_count := u64 (free_count + extentlist_count (free_list hl)) in
  let free_count := u64 (free_count + extentlist_count (recently_freed_list hl)) in
  u64 (free_count + extentlist_count (overflow_list hl)).

Definition trove_handle_ledger_addextent (alloc : nat → bool) (now : Z) (hl : handle_ledger)
    (extent : TROVE_handle_extent) : exec (Z * handle_ledger) :=
  '(ret, fl) ← extentlist_addextent alloc now (free_list hl) (e_first extent) (e_last extent);
  Done (ret, set_free_list hl fl).

Definition trove_handle_remove (alloc : nat → bool) (hl : handle_ledger) (handle : Z)
    : exec (Z * handle_ledger) :=
  '(ret, fl) ← extentlist_handle_remove alloc (free_list hl) handle;
  Done (ret, set_free_list hl fl).

Definition trove_handle_ledger_set_threshold (hl : handle_ledger) (nhandles : Z) :=
  mkLedger (free_list hl) (recently_freed_list hl) (overflow_list hl)
    (u64 (Z.quot nhandles 4 + 1)).

(** * extent-utils.c *)

Definition PINT_handle_in_extent (ext : TROVE_handle_extent) (handle : Z) : bool :=
  bool_decide (handle >= e_first ext) && bool_decide (handle <= e_last ext).

(** The array and the list of extents are both Rocq lists. *)
Fixpoint PINT_handle_in_extent_array (ext_array : list TROVE_handle_extent) (handle : Z) : bool :=
  match ext_array with
  | [] => false
  | e :: l => if PINT_handle_in_extent e handle then true
              else PINT_handle_in_extent_array l handle
  end.

Definition PINT_handle_in_extent_list (extent_list : list TROVE_handle_extent) (handle : Z)
    : bool := PINT_handle_in_extent_array extent_list handle.

Definition PINT_extent_array_count_total (extent_array : list TROVE_handle_extent) : Z :=
  foldl (λ count e, u64 (count + u64 (e_last e - e_first e + 1))) 0 extent_array.

(** * trove-handle-mgmt.c *)

(** The entry of a collection. *)
Record handle_ledger_t := mkEntry {
  coll_id : Z;             (* TROVE_coll_id, int32_t *)
  have_valid_ranges : bool;
  ledger : handle_ledger;
}.

(** [s_fsid_to_ledger_table] and [s_extentlist_purgatory.tv_sec]. *)
Record mgmt := mkMgmt {
  s_fsid_to_ledger_table : option (@qhash_table handle_ledger_t);
  s_extentlist_purgatory : Z;
}.

Definition hash_fsid (fsid : Z) (table_size : Z) : Z :=
  i32 (Z.rem (u64 fsid) (u64 table_size)).

Definition hash_fsid_compare (key : Z) (e : handle_ledger_t) : bool :=
  bool_decide (coll_id e = key).

(** [qhash_search] in the global table. *)
Definition find_ledger (st : mgmt) (id : Z) : exec (option handle_ledger_t) :=
  match s_fsid_to_ledger_table st with
  | Some table => qhash_search hash_fsid_compare hash_fsid table id
  | None => Fault BadAccess
  end.

(** An update of the entry a search found, through the pointer to it. *)
Fixpoint update_first (key : Z) (e : handle_ledger_t) (l : list handle_ledger_t) :=
  match l with
  | [] => []
  | x :: l' => if hash_fsid_compare key x then e :: l' else x :: update_first key e l'
  end.

Definition store_ledger (st : mgmt) (e : handle_ledger_t) : exec mgmt :=
  match s_fsid_to_ledger_table st with
  | Some table =>
      let indx := hash_fsid (coll_id e) (table_size table) in
      l ← bucket table indx;
      Done (mkMgmt (Some (set_bucket table indx (update_first (coll_id e) e l)))
              (s_extentlist_purgatory st))
  | None => Fault BadAccess
  end.

Definition set_ledger (e : handle_ledger_t) (hl : handle_ledger) : handle_ledger_t :=
  mkEntry (coll_id e) (have_valid_ranges e) hl.

Definition trove_handle_mgmt_initialize (alloc : nat → bool) (st : mgmt) : Z * mgmt :=
  match s_fsid_to_ledger_table st with
  | None =>
      let t := qhash_init alloc 67 in
      (match t with Some _ => 0 | None => -1 end, mkMgmt t (s_extentlist_purgatory st))
  | Some _ => (0, st)
  end.

(** The entry of a collection, created when there is none; [None] is NULL. *)
Definition get_or_add_handle_ledger (alloc : nat → bool) (now : Z) (st : mgmt) (id : Z)
    : exec (option handle_ledger_t * mgmt) :=
  found ← find_ledger st id;
  match found with
  | Some e => Done (Some e, st)
  | None =>
      if negb (alloc 0%nat) then Done (None, st) else
      match trove_handle_ledger_init (λ i, alloc (1 + i)%nat) now, s_fsid_to_ledger_table st with
      | Some hl, Some table =>
          let e := mkEntry id false hl in
          table' ← qhash_add hash_fsid table id e;
          Done (Some e, mkMgmt (Some table') (s_extentlist_purgatory st))
      | _, _ => Done (None, st)
      end
  end.

(** The loop of [trove_map_handle_ranges]. *)
Fixpoint map_ranges_loop (alloc : nat → bool) (now : Z) (extent_list : list TROVE_handle_extent)
    (hl : handle_ledger) (ret total_handles : Z) : exec (Z * Z * handle_ledger) :=
  match extent_list with
  | [] => Done (ret, total_handles, hl)
  | cur_extent :: next =>
      '(ret, hl) ← trove_handle_ledger_addextent alloc now hl cur_extent;
      if decide (ret ≠ 0) then Done (ret, total_handles, hl) else
      map_ranges_loop (λ i, alloc (2 + i)%nat) now next hl ret
        (i64 (total_handles + u64 (e_last cur_extent - e_first cur_extent + 1)))
  end.

Definition trove_map_handle_ranges (alloc : nat → bool) (now : Z)
    (extent_list : list TROVE_handle_extent) (hl : handle_ledger) : exec (Z * handle_ledger) :=
  '(ret, total_handles, hl) ← map_ranges_loop alloc now extent_list hl (-1) 0;
  Done (ret, trove_handle_ledger_set_threshold hl (u64 total_handles)).

(** The for loop over one batch of handles found on disk: -1 for a handle
    outside of the ranges, 0 otherwise. *)
Fixpoint check_batch (alloc : nat → nat → bool) (extent_list : list TROVE_handle_extent)
    (handles : list Z) (hl : handle_ledger) : exec (Z * handle_ledger) :=
  match handles with
  | [] => Done (0, hl)
  | h :: rest =>
      if negb (PINT_handle_in_extent_list extent_list h) then Done (-1, hl) else
      '(_, hl) ← trove_handle_remove (alloc 0%nat) hl h;
      check_batch (λ i, alloc (S i)) extent_list rest hl
  end.

(** [batches] is what the iteration over the stored handles reports, call by
    call: the return value of the test, the state of the operation and the
    handles.  The iteration ends with an empty batch; a list that does not is
    an iteration that has not ended. *)
Fixpoint trove_check_handle_ranges (alloc : nat → nat → nat → bool)
    (extent_list : list TROVE_handle_extent) (batches : list (Z * Z * list Z))
    (hl : handle_ledger) : exec (Z * handle_ledger) :=
  match batches with
  | [] => Fault OutOfFuel
  | (ret, state, handles) :: rest =>
      if decide (ret < 0) then Done (ret, hl) else
      if decide (state < 0) then Done (state, hl) else
      (* look for special case of a blank fs *)
      if decide (handles = [0]) then Done (0, hl) else
      if decide (handles = []) then Done (0, hl) else
      '(ret, hl) ← check_batch (alloc 0%nat) extent_list handles hl;
      if decide (ret ≠ 0) then Done (ret, hl) else
      trove_check_handle_ranges (λ i, alloc (S i)) extent_list rest hl
  end.

(** [extent_list] is what [PINT_create_extent_list] makes of the string, and
    [None] when it or the string is NULL. *)
Definition trove_set_handle_ranges (alloc alloc' : nat → bool)
    (alloc'' : nat → nat → nat → bool) (now : Z) (st : mgmt) (id : Z)
    (extent_list : option (list TROVE_handle_extent)) (batches : list (Z * Z * list Z))
    : exec (Z * mgmt) :=
  match extent_list with
  | None => Done (- TROVE_EINVAL, st)
  | Some extents =>
      '(found, st) ← get_or_add_handle_ledger alloc now st id;
      match found with
      | None => Done (- TROVE_EINVAL, st)
      | Some e =>
          '(ret, hl) ← trove_map_handle_ranges alloc' now extents (ledger e);
          if decide (ret ≠ 0) then st ← store_ledger st (set_ledger e hl); Done (ret, st) else
          '(ret, hl) ← trove_check_handle_ranges alloc'' extents batches hl;
          if decide (ret ≠ 0) then st ← store_ledger st (set_ledger e hl); Done (ret, st) else
          st ← store_ledger st (mkEntry (coll_id e) true hl);
          Done (ret, st)
      end
  end.

Definition TROVE_DEFAULT_HANDLE_PURGATORY_SEC : Z := 360.

Definition trove_set_handle_timeout (alloc : nat → bool) (now : Z) (st : mgmt) (id timeout : Z)
    : exec (Z * mgmt) :=
  '(found, st) ← get_or_add_handle_ledger alloc now st id;
  match found with
  | None => Done (-1, st)
  | Some _ =>
      let timeout := if decide (timeout = 0) then TROVE_DEFAULT_HANDLE_PURGATORY_SEC
                     else timeout in
      '(ret, purgatory) ← trove_ledger_set_timeout timeout;
      Done (ret, mkMgmt (s_fsid_to_ledger_table st) purgatory)
  end.

(** Run [k] on the ledger of a collection, if it has one for which [ready]
    holds, and put the result back; [dflt] is the answer otherwise. *)
Definition with_ledger {R : Type} (st : mgmt) (id : Z) (ready : handle_ledger_t → bool)
    (dflt : R) (k : handle_ledger → exec (R * handle_ledger)) : exec (R * mgmt) :=
  found ← find_ledger st id;
  match found with
  | Some e =>
      if ready e then
        '(r, hl) ← k (ledger e);
        st ← store_ledger st (set_ledger e hl);
        Done (r, st)
      else Done (dflt, st)
  | None => Done (dflt, st)
  end.

(** The ledger pointer of an entry is never NULL. *)
Definition nonnull {R : Type} (m : exec (R * option handle_ledger)) : exec (R * handle_ledger) :=
  '(r, hl) ← m;
  match hl with Some hl => Done (r, hl) | None => Fault BadAccess end.

Definition trove_handle_alloc (st : mgmt) (id : Z) : exec (Z * mgmt) :=
  with_ledger st id have_valid_ranges TROVE_HANDLE_NULL
    (λ hl, nonnull (trove_ledger_handle_alloc (Some hl))).

(** The for loop of [trove_handle_alloc_from_range]. *)
Fixpoint alloc_from_range_loop (alloc : nat → nat → bool) (hl : handle_ledger)
    (extent_array : list TROVE_handle_extent) (handle : Z) : exec (Z * handle_ledger) :=
  match extent_array with
  | [] => Done (handle, hl)
  | e :: rest =>
      '(handle, hl) ← nonnull (trove_ledger_handle_alloc_from_range (alloc 0%nat) (Some hl) e);
      if decide (handle ≠ TROVE_HANDLE_NULL) then Done (handle, hl)
      else alloc_from_range_loop (λ i, alloc (S i)) hl rest handle
  end.

Definition trove_handle_alloc_from_range (alloc : nat → nat → bool) (st : mgmt) (id : Z)
    (extent_array : list TROVE_handle_extent) : exec (Z * mgmt) :=
  with_ledger st id have_valid_ranges TROVE_HANDLE_NULL
    (λ hl, alloc_from_range_loop alloc hl extent_array TROVE_HANDLE_NULL).

Definition trove_handle_peek (args : bool) (st : mgmt) (id max_num_handles : Z)
    : exec (Z * list Z) :=
  if negb args then Done (- TROVE_EINVAL, []) else
  found ← find_ledger st id;
  match found with
  | Some e =>
      if have_valid_ranges e then
        trove_ledger_peek_handles args (Some (ledger e)) max_num_handles
      else Done (- TROVE_EINVAL, [])
  | None => Done (- TROVE_EINVAL, [])
  end.

(** The for loop of [trove_handle_peek_from_range]. *)
Fixpoint peek_from_range_loop (hl : handle_ledger) (extent_array : list TROVE_handle_extent)
    (max_num_handles : Z) (res : Z * list Z) : exec (Z * list Z) :=
  match extent_array with
  | [] => Done res
  | e :: rest =>
      '(ret, out) ← trove_ledger_peek_handles_from_extent true (Some hl) e max_num_handles;
      if decide (ret = 0) then
        if decide (out = []) then Fault AssertFailed else Done (ret, out)
      else peek_from_range_loop hl rest max_num_handles (ret, out)
  end.

Definition trove_handle_peek_from_range (args : bool) (st : mgmt) (id : Z)
    (extent_array : list TROVE_handle_extent) (max_num_handles : Z) : exec (Z * list Z) :=
  if negb args then Done (- TROVE_EINVAL, []) else
  found ← find_ledger st id;
  match found with
  | Some e =>
      if have_valid_ranges e then
        peek_from_range_loop (ledger e) extent_array max_num_handles (- TROVE_EINVAL, [])
      else Done (- TROVE_EINVAL, [])
  | None => Done (- TROVE_EINVAL, [])
  end.

Definition trove_handle_set_used (alloc : nat → bool) (st : mgmt) (id handle : Z)
    : exec (Z * mgmt) :=
  with_ledger st id (λ _, true) (-1) (λ hl, trove_handle_remove alloc hl handle).

Definition trove_handle_free (alloc : nat → bool) (now : Z) (st : mgmt) (id handle : Z)
    : exec (Z * mgmt) :=
  with_ledger st id (λ _, true) (-1)
    (λ hl, trove_ledger_handle_free alloc now (s_extentlist_purgatory st) hl handle).

(** The return value, and the count on success. *)
Definition trove_handle_get_statistics (st : mgmt) (id : Z) : exec (Z * option Z) :=
  found ← find_ledger st id;
  match found with
  | Some e => Done (0, Some (trove_handle_ledger_get_statistics (ledger e)))
  | None => Done (- PVFS_ENOENT, None)
  end.

(** The do loop at one index: every entry of the list is removed. *)
Fixpoint finalize_index (fuel : nat) (table : @qhash_table handle_ledger_t) (i : Z)
    : exec (@qhash_table handle_ledger_t) :=
  match fuel with
  | O => Fault OutOfFuel
  | S fuel' =>
      '(e, table) ← qhash_search_and_remove_at_index table i;
      match e with
      | Some _ => finalize_index fuel' table i
      | None => Done table
      end
  end.

(** The for loop over the indices, [n] of them left. *)
Fixpoint finalize_loop (n : nat) (i : Z) (table : @qhash_table handle_ledger_t)
    : exec (@qhash_table handle_ledger_t) :=
  match n with
  | O => Done table
  | S n' =>
      table ← finalize_index (S (length (entries table))) table i;
      finalize_loop n' (i + 1) table
  end.

Definition trove_handle_mgmt_finalize (st : mgmt) : exec (Z * mgmt) :=
  match s_fsid_to_ledger_table st with
  | Some table =>
      _ ← finalize_loop (Z.to_nat (table_size table)) 0 table;
      Done (0, mkMgmt None (s_extentlist_purgatory st))
  | None => Fault BadAccess
  end.

(** * Specification of a ledger *)

(** The three lists of a ledger are valid and share no handle. *)
Definition disjoint_lists (a b : TROVE_handle_extentlist) : Prop :=
  ∀ h, free_in a h → ¬ free_in b h.

Definition ledger_ok (hl : handle_ledger) : Prop :=
  index_ok (index (free_list hl)) ∧ index_ok (index (recently_freed_list hl)) ∧
  index_ok (index (overflow_list hl)) ∧
  disjoint_lists (free_list hl) (recently_freed_list hl) ∧
  disjoint_lists (free_list hl) (overflow_list hl) ∧
  disjoint_lists (recently_freed_list hl) (overflow_list hl).

(** Handles the ledger accounts for, that is, which are not in use. *)
Definition unused (hl : handle_ledger) (h : Z) : Prop :=
  free_in (free_list hl) h ∨ free_in (recently_freed_list hl) h ∨ free_in (overflow_list hl) h.

Lemma free_in_zero h : free_in zero_extentlist h ↔ False.
Proof. apply has_nil. Qed.

(** Handles a ledger can hold are between 1 and 2^64 - 1. *)
Lemma free_in_range e h : index_ok (index e) → free_in e h → 1 ≤ h < B64.
Proof.
  intros [_ Hok] (x & Hx & Hc). pose proof (extents_ok_valid _ _ Hok Hx).
  unfold valid_extent, covers in *. lia.
Qed.

Lemma unused_range hl h : ledger_ok hl → unused hl h → 1 ≤ h < B64.
Proof.
  intros (H1 & H2 & H3 & _) [?|[?|?]];
    [apply (free_in_range _ _ H1)|apply (free_in_range _ _ H2)|apply (free_in_range _ _ H3)]; done.
Qed.

(** Taking a handle out of the free list. *)
Lemma take_free hl fl handle :
  ledger_ok hl → index_ok (index fl) → free_in (free_list hl) handle →
  (∀ h, free_in fl h ↔ free_in (free_list hl) h ∧ h ≠ handle) →
  ledger_ok (set_free_list hl fl) ∧
  (∀ h, unused (set_free_list hl fl) h ↔ unused hl h ∧ h ≠ handle).
Proof.
  intros (H1 & H2 & H3 & H12 & H13 & H23) Hok Hf Hfl.
  unfold ledger_ok, unused, disjoint_lists in *. simpl. split.
  - split_and!; try done; intros h [? ?]%Hfl; auto.
  - intros h. rewrite Hfl. specialize (H12 handle Hf). specialize (H13 handle Hf).
    destruct (decide (h = handle)) as [->|]; tauto.
Qed.

Lemma ledger_alloc_spec hl :
  ledger_ok hl →
  (index (free_list hl) = NULL ∧
     trove_ledger_handle_alloc (Some hl) = Done (B64 - 1, Some hl)) ∨
  ∃ handle hl', trove_ledger_handle_alloc (Some hl) = Done (handle, Some hl') ∧
    ledger_ok hl' ∧ free_in (free_list hl) handle ∧
    (∀ h, unused hl' h ↔ unused hl h ∧ h ≠ handle).
Proof.
  intros Hok. unfold trove_ledger_handle_alloc.
  destruct (get_and_dec_spec (free_list hl)) as
    [[Hn ->]|(handle & fl & -> & Hfl & _ & Hfree & _ & Hh)]; [apply Hok|left|right].
  - split; [done|]. simpl. by destruct hl.
  - simpl. do 2 eexists. split; [done|].
    destruct (take_free hl fl handle Hok Hfl Hfree Hh). done.
Qed.

Lemma ledger_alloc_range_spec hl first last :
  ledger_ok hl → 1 ≤ first ≤ last →
  (trove_ledger_handle_alloc_from_range malloc_ok (Some hl) (mkExtent first last) =
     Done (TROVE_HANDLE_NULL, Some hl) ∧
   ∀ h, first ≤ h ≤ last → ¬ free_in (free_list hl) h) ∨
  ∃ handle hl',
    trove_ledger_handle_alloc_from_range malloc_ok (Some hl) (mkExtent first last) =
      Done (handle, Some hl') ∧
    ledger_ok hl' ∧ first ≤ handle ≤ last ∧ free_in (free_list hl) handle ∧
    (∀ h, unused hl' h ↔ unused hl h ∧ h ≠ handle).
Proof.
  intros Hok Hr. unfold trove_ledger_handle_alloc_from_range.
  destruct (get_from_extent_spec (free_list hl) first last) as
    [[-> Hno]|(handle & fl & -> & Hh & Hfree & Hfl & Hiff)]; [apply Hok|done|left|right].
  - split; [|done]. simpl. by destruct hl.
  - simpl. do 2 eexists. split; [done|].
    destruct (take_free hl fl handle Hok Hfl Hfree Hiff). done.
Qed.

Lemma ledger_remove_spec hl handle :
  ledger_ok hl → free_in (free_list hl) handle →
  ∃ hl', trove_handle_remove malloc_ok hl handle = Done (0, hl') ∧ ledger_ok hl' ∧
    (∀ h, unused hl' h ↔ unused hl h ∧ h ≠ handle).
Proof.
  intros Hok Hf. unfold trove_handle_remove.
  destruct (handle_remove_spec (free_list hl) handle) as (fl & -> & Hfl & Hiff);
    [apply Hok|done|]. simpl. eexists. split; [done|].
  by apply take_free.
Qed.

Lemma remove_not_free hl handle :
  ledger_ok hl → ¬ free_in (free_list hl) handle →
  trove_handle_remove malloc_ok hl handle = Done (-1, hl).
Proof.
  intros Hok Hf. unfold trove_handle_remove, extentlist_handle_remove.
  pose proof (extent_search_spec (index (free_list hl)) handle ltac:(apply Hok)) as Hs.
  destruct (avltree_extent_search _ _) as [[f l]|]; simpl; [|by destruct hl].
  destruct Hf. destruct Hs as [? ?]. by exists (mkExtent f l).
Qed.

Lemma free_in_em e h : index_ok (index e) → free_in e h ∨ ¬ free_in e h.
Proof.
  intros [_ Hok]. pose proof (extent_search_spec (index e) h Hok) as Hs.
  destruct (avltree_extent_search _ _) as [[f l]|]; [left|by right].
  exists (mkExtent f l). done.
Qed.

(** Recycling moves handles between the lists and keeps them all. *)
Lemma recycle_spec now hl :
  ledger_ok hl →
  ∃ hl', handle_recycle malloc_ok now hl = Done (0, hl') ∧ ledger_ok hl' ∧
    (∀ h, free_in (free_list hl') h ↔
       free_in (free_list hl) h ∨ free_in (recently_freed_list hl) h) ∧
    (∀ h, unused hl' h ↔ unused hl h).
Proof.
  intros (H1 & H2 & H3 & H12 & H13 & H23). unfold handle_recycle, extentlist_merge.
  destruct (merge_loop_spec (length (elements (index (recently_freed_list hl)))) now
    (free_list hl) (index (recently_freed_list hl))) as (fl & -> & Hfl & Hh); [done..|].
  simpl. eexists. split; [done|]. unfold ledger_ok, unused, disjoint_lists in *. simpl.
  assert (∀ h, free_in (mkExtentlist 0 0 now NULL) h ↔ False) as Hz by apply has_nil.
  split_and!; try done.
  - split; [done|]. split; constructor.
  - intros h [?|?]%Hh; auto.
  - intros h _ ?%Hz. done.
  - intros h _ ?%Hz. done.
  - intros h. rewrite Hh, Hz. unfold free_in. tauto.
Qed.

(** Adding one handle to a list. *)
Lemma add_one now e handle :
  index_ok (index e) → 1 ≤ handle < B64 → ¬ free_in e handle →
  ∃ e', extentlist_addextent malloc_ok now e handle handle = Done (0, e') ∧
    index_ok (index e') ∧ timestamp e' = now ∧
    (∀ h, free_in e' h ↔ h = handle ∨ free_in e h).
Proof.
  intros Hok Hr Hn. destruct (addextent_spec now e handle handle) as (e' & -> & Hok' & Ht & _ & Hh).
  - done.
  - unfold valid_extent. simpl. lia.
  - intros h Hc. unfold covers in Hc. simpl in Hc. by replace h with handle by lia.
  - exists e'. split_and!; try done. intros h. rewrite Hh.
    split; (intros [?|?]; [left; lia|by right]).
Qed.

Lemma ledger_free_spec now purgatory hl handle :
  ledger_ok hl → 1 ≤ handle < B64 → ¬ unused hl handle →
  ∃ hl', trove_ledger_handle_free malloc_ok now purgatory hl handle = Done (0, hl') ∧
    ledger_ok hl' ∧ (∀ h, unused hl' h ↔ unused hl h ∨ h = handle).
Proof.
  intros Hok Hr Hn. unfold trove_ledger_handle_free.
  set (m := if extentlist_hit_cutoff _ _ then _ else _).
  assert (∃ hl1, m = Done hl1 ∧ ledger_ok hl1 ∧ (∀ h, unused hl1 h ↔ unused hl h ∨ h = handle))
    as (hl1 & -> & Hok1 & Hh1).
  { destruct Hok as (H1 & H2 & H3 & H12 & H13 & H23). subst m. unfold unused in *.
    unfold ledger_ok, disjoint_lists, unused in *.
    destruct (extentlist_hit_cutoff _ _).
    - destruct (add_one now (overflow_list hl) handle) as (e & -> & He & _ & Hh); [done..|tauto|].
      eexists. split; [done|]. simpl. split; [split_and!; try done|].
      + intros h Hf [->|Ho]%Hh; [tauto|by apply (H13 h)].
      + intros h Hf [->|Ho]%Hh; [tauto|by apply (H23 h)].
      + intros h. rewrite Hh. tauto.
    - destruct (add_one now (recently_freed_list hl) handle) as (e & -> & He & _ & Hh);
        [done..|tauto|].
      eexists. split; [done|]. simpl. split; [split_and!; try done|].
      + intros h Hf [->|Ho]%Hh; [tauto|by apply (H12 h)].
      + intros h [->|Ho]%Hh Hf; [tauto|by apply (H23 h)].
      + intros h. rewrite Hh. tauto. }
  simpl. case_decide; [eauto|]. destruct (extentlist_endured_purgatory _ _ _); [|eauto].
  destruct (recycle_spec now hl1 Hok1) as (hl2 & Hr2 & Hok2 & _ & Hh2).
  change (handle_recycle _ now hl1) with (handle_recycle malloc_ok now hl1).
  rewrite Hr2. simpl.
  exists hl2. split_and!; try done. intros h. by rewrite Hh2, Hh1.
Qed.

(** * Who holds a handle *)

(** A ledger and the handles its clients hold, step by step. *)
Inductive ledger_step : handle_ledger * gset Z → handle_ledger * gset Z → Prop :=
  | step_alloc hl held handle hl' :
      index (free_list hl) ≠ NULL →
      trove_ledger_handle_alloc (Some hl) = Done (handle, Some hl') →
      ledger_step (hl, held) (hl', {[handle]} ∪ held)
  | step_alloc_from_range hl held first last handle hl' :
      1 ≤ first ≤ last → handle ≠ TROVE_HANDLE_NULL →
      trove_ledger_handle_alloc_from_range malloc_ok (Some hl) (mkExtent first last) =
        Done (handle, Some hl') →
      ledger_step (hl, held) (hl', {[handle]} ∪ held)
  | step_set_used hl held handle hl' :
      trove_handle_remove malloc_ok hl handle = Done (0, hl') →
      ledger_step (hl, held) (hl', {[handle]} ∪ held)
  | step_free hl held now purgatory handle ret hl' :
      handle ∈ held →
      trove_ledger_handle_free malloc_ok now purgatory hl handle = Done (ret, hl') →
      ledger_step (hl, held) (hl', held ∖ {[handle]}).

(** The handles of [hl0] are split between the ledger and its clients. *)
Definition accounted (hl0 : handle_ledger) (s : handle_ledger * gset Z) : Prop :=
  ledger_ok (fst s) ∧ (∀ h, h ∈ snd s → ¬ unused (fst s) h) ∧
  (∀ h, unused hl0 h ↔ unused (fst s) h ∨ h ∈ snd s).

(** A handle leaves the ledger for a client. *)
Lemma accounted_take hl0 hl held handle hl' :
  accounted hl0 (hl, held) → ledger_ok hl' → unused hl handle →
  (∀ h, unused hl' h ↔ unused hl h ∧ h ≠ handle) →
  accounted hl0 (hl', {[handle]} ∪ held).
Proof.
  intros (Hok & Hheld & Hall) Hok' Hu Hiff. simpl in *. split_and!; simpl; [done|..].
  - intros h. rewrite elem_of_union, elem_of_singleton, Hiff.
    intros [->|?%Hheld]; tauto.
  - intros h. rewrite Hall, Hiff, elem_of_union, elem_of_singleton.
    destruct (decide (h = handle)) as [->|]; tauto.
Qed.

(** And comes back. *)
Lemma accounted_give hl0 hl held handle hl' :
  accounted hl0 (hl, held) → ledger_ok hl' → handle ∈ held →
  (∀ h, unused hl' h ↔ unused hl h ∨ h = handle) →
  accounted hl0 (hl', held ∖ {[handle]}).
Proof.
  intros (Hok & Hheld & Hall) Hok' Hin Hiff. simpl in *. split_and!; simpl; [done|..].
  - intros h. rewrite elem_of_difference, elem_of_singleton, Hiff.
    intros [?%Hheld ?]. tauto.
  - intros h. rewrite Hall, Hiff, elem_of_difference, elem_of_singleton.
    destruct (decide (h = handle)) as [->|]; tauto.
Qed.

Lemma accounted_step hl0 s s' :
  ledger_ok hl0 → accounted hl0 s → ledger_step s s' → accounted hl0 s'.
Proof.
  intros Hok0 Hacc Hstep.
  destruct Hstep as [hl held handle hl' Hne Ha|hl held f l handle hl' Hr Hnz Ha|
    hl held handle hl' Ha|hl held now pu handle ret hl' Hin Ha]; pose proof Hacc as (Hok & Hheld & Hall).
  - destruct (ledger_alloc_spec hl Hok) as [[? _]|(h & hl2 & Ha' & Hok2 & Hf & Hiff)]; [done|].
    rewrite Ha in Ha'. injection Ha' as <- <-.
    eapply accounted_take; try done. by left.
  - destruct (ledger_alloc_range_spec hl f l Hok Hr)
      as [[Ha' _]|(h & hl2 & Ha' & Hok2 & _ & Hf & Hiff)];
      rewrite Ha in Ha'; injection Ha' as -> ->; [done|].
    eapply accounted_take; try done. by left.
  - destruct (free_in_em (free_list hl) handle) as [Hf|Hf]; [apply Hok|..].
    + destruct (ledger_remove_spec hl handle Hok Hf) as (hl2 & Ha' & Hok2 & Hiff).
      rewrite Ha in Ha'. injection Ha' as ->. eapply accounted_take; try done. by left.
    + rewrite (remove_not_free hl handle Hok Hf) in Ha. done.
  - destruct (ledger_free_spec now pu hl handle Hok) as (hl2 & Ha' & Hok2 & Hiff).
    + apply (unused_range hl0 handle Hok0), Hall. by right.
    + by apply Hheld.
    + rewrite Ha in Ha'. injection Ha' as -> ->. by eapply accounted_give.
Qed.

(** * Counting *)

Lemma NoDup_range_length l :
  NoDup l → (∀ x, x ∈ l → 1 ≤ x < B64) → Z.of_nat (length l) < B64.
Proof.
  intros Hn Hr. assert (l ⊆+ seqZ 1 (B64 - 1)) as Hsub.
  { apply NoDup_submseteq; [done|]. intros x Hx%Hr. apply elem_of_seqZ. lia. }
  apply submseteq_length in Hsub. rewrite length_seqZ in Hsub. lia.
Qed.

Lemma statistics_spec hl :
  ledger_ok hl →
  ∃ hs, NoDup hs ∧ (∀ h, h ∈ hs ↔ unused hl h) ∧
    trove_handle_ledger_get_statistics hl = Z.of_nat (length hs).
Proof.
  intros Hok. pose proof Hok as (H1 & H2 & H3 & H12 & H13 & H23).
  set (f := λ e, handles (elements (index e))).
  exists (f (free_list hl) ++ f (recently_freed_list hl) ++ f (overflow_list hl)).
  assert (∀ h, h ∈ f (free_list hl) ++ f (recently_freed_list hl) ++ f (overflow_list hl) ↔
    unused hl h) as Hel.
  { intros h. unfold unused, free_in, f. rewrite !elem_of_app, !elem_of_handles. done. }
  assert (NoDup (f (free_list hl) ++ f (recently_freed_list hl) ++ f (overflow_list hl))) as Hnd.
  { unfold f. rewrite !NoDup_app. split_and!; try (apply handles_NoDup; apply H1 || apply H2 || apply H3).
    - intros h Hh. rewrite elem_of_app, !elem_of_handles in *. intros [?|?];
        [by apply (H12 h)|by apply (H13 h)].
    - intros h Hh. rewrite !elem_of_handles in *. intros ?. by apply (H23 h). }
  split_and!; try done.
  pose proof (NoDup_range_length _ Hnd) as Hlen. rewrite !length_app in *.
  specialize (Hlen (λ x Hx, unused_range hl x Hok (proj1 (Hel x) Hx))).
  unfold trove_handle_ledger_get_statistics. rewrite !count_spec by done. fold (f (free_list hl)).
  fold (f (recently_freed_list hl)). fold (f (overflow_list hl)).
  set (a := length (f (free_list hl))) in *. set (b := length (f (recently_freed_list hl))) in *.
  set (c := length (f (overflow_list hl))) in *.
  rewrite (u64_id (0 + Z.of_nat a)), (u64_id (0 + Z.of_nat a + Z.of_nat b)), u64_id by lia. lia.
Qed.

(** * One collection does not see another *)

Lemma hash_fsid_range k n : 0 < n < B31 → 0 ≤ hash_fsid k n < n.
Proof.
  intros Hn. unfold hash_fsid. rewrite (u64_id n) by lia.
  pose proof (u64_range k). rewrite rem_nonneg by lia.
  pose proof (Z.mod_pos_bound (u64 k) n ltac:(lia)). rewrite i32_id; lia.
Qed.

Definition mgmt_ok (st : mgmt) : Prop :=
  ∃ table, s_fsid_to_ledger_table st = Some table ∧ table_ok hash_fsid coll_id table.

Lemma search_update_same e l :
  is_Some (fst <$> search_list hash_fsid_compare (coll_id e) l) →
  fst <$> search_list hash_fsid_compare (coll_id e) (update_first (coll_id e) e l) = Some e.
Proof.
  induction l as [|x l IH]; simpl; [by intros [? ?]|].
  destruct (hash_fsid_compare (coll_id e) x) eqn:Hc; simpl.
  - intros _. unfold hash_fsid_compare at 1. by rewrite bool_decide_true.
  - rewrite Hc. intros Hs.
    destruct (search_list hash_fsid_compare (coll_id e) l) as [[y l']|]; [|by destruct Hs].
    specialize (IH ltac:(by eexists)).
    destruct (search_list _ _ (update_first _ e l)) as [[z m]|]; simpl in *; congruence.
Qed.

Lemma search_update_other e l k :
  k ≠ coll_id e →
  fst <$> search_list hash_fsid_compare k (update_first (coll_id e) e l) =
  fst <$> search_list hash_fsid_compare k l.
Proof.
  intros Hk. induction l as [|x l IH]; simpl; [done|].
  destruct (hash_fsid_compare (coll_id e) x) eqn:Hc; simpl.
  - apply bool_decide_eq_true in Hc.
    assert (hash_fsid_compare k e = false ∧ hash_fsid_compare k x = false) as [-> ->];
      [|by destruct (search_list _ k l) as [[]|]].
    split; apply bool_decide_eq_false; congruence.
  - destruct (hash_fsid_compare k x); [done|].
    destruct (search_list _ k l) as [[]|], (search_list _ k (update_first _ e l)) as [[]|];
      simpl in *; congruence.
Qed.

Lemma update_first_elem e l v : v ∈ update_first (coll_id e) e l → v ∈ l ∨ v = e.
Proof.
  induction l as [|x l IH]; simpl; [tauto|].
  destruct (hash_fsid_compare _ _); rewrite !elem_of_cons; tauto.
Qed.

(** Writing an entry back changes what a search for its collection finds, and
    nothing else. *)
Lemma store_spec st e :
  mgmt_ok st →
  ∃ st', store_ledger st e = Done st' ∧ mgmt_ok st' ∧
    s_extentlist_purgatory st' = s_extentlist_purgatory st ∧
    (∀ id, id ≠ coll_id e → find_ledger st' id = find_ledger st id) ∧
    (∀ x, find_ledger st (coll_id e) = Done (Some x) →
       find_ledger st' (coll_id e) = Done (Some e)).
Proof.
  intros (table & Ht & Hok). unfold store_ledger, find_ledger. rewrite Ht.
  set (i := hash_fsid (coll_id e) (table_size table)).
  assert (0 ≤ i < table_size table) as Hi by (apply hash_fsid_range, Hok).
  destruct (bucket_Some hash_fsid coll_id table i Hok Hi) as (l & Hb & Hx).
  assert (∀ m, bucket (set_bucket table i m) i = Done m) as Hset.
  { intros m. unfold bucket. simpl. rewrite decide_True by lia.
    by rewrite list_lookup_insert_eq by (by eapply lookup_lt_Some). }
  rewrite Hb. simpl. eexists. split; [done|]. simpl. split_and!; [|done|..].
  - eexists. split; [done|]. eapply set_bucket_ok; [done|lia|done|].
    intros v [?| ->]%update_first_elem; auto.
  - intros id Hid. unfold qhash_search. simpl.
    destruct (decide (hash_fsid id (table_size table) = i)) as [->|Hne].
    + rewrite Hset, Hb. simpl. by rewrite search_update_other.
    + pose proof (hash_fsid_range id (table_size table) ltac:(apply Hok)).
      unfold bucket at 1. simpl. rewrite list_lookup_insert_ne by lia. done.
  - intros x. unfold qhash_search. simpl. fold i. rewrite Hset, Hb. simpl.
    intros [= Hs]. rewrite search_update_same; [done|]. by exists x.
Qed.

Lemma find_coll_id st id e : mgmt_ok st → find_ledger st id = Done (Some e) → coll_id e = id.
Proof.
  intros (table & Ht & Hok) Hf. unfold find_ledger in Hf. rewrite Ht in Hf.
  destruct (search_spec hash_fsid_compare hash_fsid coll_id) with (table := table) (key := id)
    as (r & Hs & Hr); try done.
  - intros k v. apply bool_decide_eq_true.
  - apply hash_fsid_range.
  - rewrite Hf in Hs. injection Hs as <-. by destruct Hr.
Qed.

(** Running an operation of a ledger through the table. *)
Lemma with_ledger_spec {R} st id ready (dflt : R) k e r hl :
  mgmt_ok st → find_ledger st id = Done (Some e) → ready e = true →
  k (ledger e) = Done (r, hl) →
  ∃ st', with_ledger st id ready dflt k = Done (r, st') ∧ mgmt_ok st' ∧
    find_ledger st' id = Done (Some (set_ledger e hl)) ∧
    (∀ id', id' ≠ id → find_ledger st' id' = find_ledger st id').
Proof.
  intros Hok Hf Hr Hk. unfold with_ledger. rewrite Hf. simpl. rewrite Hr, Hk. simpl.
  pose proof (find_coll_id st id e Hok Hf) as Hid.
  destruct (store_spec st (set_ledger e hl) Hok) as (st' & -> & Hok' & _ & Hother & Hsame).
  simpl in *. rewrite Hid in *. exists st'. split_and!; try done. by eapply Hsame.
Qed.

(** * Setting up a collection *)

(** No handle is in two extents of a list. *)
Fixpoint extents_disjoint (l : list TROVE_handle_extent) : Prop :=
  match l with
  | [] => True
  | e :: l' => disjoint_from e l' ∧ extents_disjoint l'
  end.

Lemma addextent_ledger_spec now hl e :
  ledger_ok hl → valid_extent e → (∀ h, covers e h → ¬ unused hl h) →
  ∃ hl', trove_handle_ledger_addextent malloc_ok now hl e = Done (0, hl') ∧ ledger_ok hl' ∧
    (∀ h, free_in (free_list hl') h ↔ free_in (free_list hl) h ∨ covers e h) ∧
    recently_freed_list hl' = recently_freed_list hl ∧ overflow_list hl' = overflow_list hl.
Proof.
  intros (H1 & H2 & H3 & H12 & H13 & H23) Hv Hd. unfold unused in *.
  unfold trove_handle_ledger_addextent.
  destruct (addextent_spec now (free_list hl) (e_first e) (e_last e))
    as (fl & -> & Hfl & _ & _ & Hh); [done|by destruct e|..].
  { intros h Hc Hf. apply (Hd h Hc). by left. }
  simpl. eexists. split; [done|]. unfold ledger_ok, disjoint_lists in *. simpl.
  split_and!; try done.
  - intros h [Hc|Hf]%Hh Hr; [apply (Hd h Hc); tauto|by apply (H12 h)].
  - intros h [Hc|Hf]%Hh Hr; [apply (Hd h Hc); tauto|by apply (H13 h)].
  - intros h. rewrite Hh. unfold covers. tauto.
Qed.

Lemma map_ranges_loop_spec now l hl ret total :
  ledger_ok hl → Forall valid_extent l → extents_disjoint l →
  (∀ h, has l h → ¬ unused hl h) →
  ∃ total' hl', map_ranges_loop malloc_ok now l hl ret total =
      Done (if decide (l = []) then ret else 0, total', hl') ∧ ledger_ok hl' ∧
    (∀ h, free_in (free_list hl') h ↔ free_in (free_list hl) h ∨ has l h) ∧
    recently_freed_list hl' = recently_freed_list hl ∧ overflow_list hl' = overflow_list hl.
Proof.
  revert hl ret total. induction l as [|e l IH]; intros hl ret total Hok Hv Hd Hn.
  { do 2 eexists. split; [done|]. split_and!; try done. intros h. rewrite has_nil. tauto. }
  apply Forall_cons in Hv as [Hve Hv]. destruct Hd as [Hde Hd]. cbn [map_ranges_loop].
  destruct (addextent_ledger_spec now hl e Hok Hve) as (hl1 & -> & Hok1 & Hh1 & Hr1 & Ho1).
  { intros h Hc. apply Hn, has_cons. by left. }
  cbn. change (λ i, malloc_ok (S (S i))) with malloc_ok.
  destruct (IH hl1 0 (i64 (total + u64 (e_last e - e_first e + 1))) Hok1 Hv Hd)
    as (t' & hl' & -> & Hok' & Hh' & Hr' & Ho').
  { intros h Hl. unfold unused. rewrite Hh1, Hr1, Ho1. intros Hu.
    destruct (Hn h); [apply has_cons; by right|]. unfold unused. specialize (Hde h). tauto. }
  exists t', hl'. split; [by case_decide|]. split_and!; try done; [|congruence..].
  intros h. rewrite Hh', Hh1, has_cons. tauto.
Qed.

Lemma in_extent_array_spec l h : PINT_handle_in_extent_array l h = true ↔ has l h.
Proof.
  induction l as [|e l IH]; simpl; [by rewrite has_nil|]. rewrite has_cons, <- IH.
  unfold PINT_handle_in_extent, covers.
  repeat case_bool_decide; simpl; split; intros; try done; try lia; auto.
  all: destruct H1; [lia|done].
Qed.

Lemma check_batch_spec extents hs hl :
  ledger_ok hl → (∀ h, h ∈ hs → has extents h) →
  ∃ hl', check_batch (λ _, malloc_ok) extents hs hl = Done (0, hl') ∧ ledger_ok hl' ∧
    (∀ h, free_in (free_list hl') h ↔ free_in (free_list hl) h ∧ h ∉ hs) ∧
    recently_freed_list hl' = recently_freed_list hl ∧ overflow_list hl' = overflow_list hl.
Proof.
  revert hl. induction hs as [|h hs IH]; intros hl Hok Hin.
  { exists hl. split_and!; try done. intros h. set_solver. }
  cbn [check_batch]. unfold PINT_handle_in_extent_list.
  rewrite (proj2 (in_extent_array_spec extents h)) by (apply Hin; set_solver). cbn [negb].
  assert (∃ ret hl1, trove_handle_remove malloc_ok hl h = Done (ret, hl1) ∧ ledger_ok hl1 ∧
    (∀ x, free_in (free_list hl1) x ↔ free_in (free_list hl) x ∧ x ≠ h) ∧
    recently_freed_list hl1 = recently_freed_list hl ∧ overflow_list hl1 = overflow_list hl)
    as (ret & hl1 & -> & Hok1 & Hh1 & Hr1 & Ho1).
  { destruct (free_in_em (free_list hl) h) as [Hf|Hf]; [apply Hok|..].
    - unfold trove_handle_remove.
      destruct (handle_remove_spec (free_list hl) h) as (fl & -> & Hfl & Hiff); [apply Hok|done|].
      simpl. do 2 eexists. split; [done|]. split_and!; try done. by apply (take_free hl fl h).
    - do 2 eexists. split; [by apply remove_not_free|]. split_and!; try done.
      intros x. split; [|tauto]. intros Hx. split; [done|]. by intros ->. }
  simpl. destruct (IH hl1 Hok1) as (hl' & -> & Hok' & Hh' & Hr' & Ho').
  { intros x Hx. apply Hin. set_solver. }
  exists hl'. split_and!; try done; [|congruence..]. intros x. rewrite Hh', Hh1. set_solver.
Qed.

(** What the iteration over the stored handles reports when it goes well. *)
Definition stored (bs : list (list Z)) : list (Z * Z * list Z) :=
  map (λ hs, (1, 0, hs)) bs ++ [(1, 0, [])].

Lemma check_ranges_spec extents bs hl :
  ledger_ok hl → Forall valid_extent extents →
  Forall (λ hs, hs ≠ [] ∧ ∀ h, h ∈ hs → has extents h) bs →
  ∃ hl', trove_check_handle_ranges (λ _ _, malloc_ok) extents (stored bs) hl = Done (0, hl') ∧
    ledger_ok hl' ∧ (∀ h, free_in (free_list hl') h ↔ free_in (free_list hl) h ∧ h ∉ concat bs).
Proof.
  intros Hok Hv Hbs. revert hl Hok. induction Hbs as [|hs bs [Hne Hin] Hbs IH]; intros hl Hok.
  { exists hl. split_and!; try done. intros h. set_solver. }
  change (stored (hs :: bs)) with ((1, 0, hs) :: stored bs).
  cbn [trove_check_handle_ranges].
  rewrite (decide_False (P := 1 < 0)), (decide_False (P := 0 < 0)) by lia.
  assert (hs ≠ [0]) as Hz.
  { intros ->. destruct (Hin 0) as (e & He & Hc); [set_solver|].
    rewrite Forall_forall in Hv. specialize (Hv e He). unfold covers, valid_extent in *. lia. }
  rewrite (decide_False (P := hs = [0])), (decide_False (P := hs = [])) by done.
  destruct (check_batch_spec extents hs hl Hok Hin) as (hl1 & -> & Hok1 & Hh1 & _).
  simpl. destruct (IH hl1 Hok1) as (hl' & Hc & Hok' & Hh').
  exists hl'. split_and!; try done. intros h. rewrite Hh', Hh1. set_solver.
Qed.

(** * Theorems *)

(** C16. Handles are conserved: after any sequence of allocations, allocations
    from a range, removals and frees, every handle of the initial ledger is
    either still in the ledger or held by a client, never both, and no other
    handle appears.  So a handle that is held is never handed out again. *)
Theorem ledger_conservation hl0 hl held :
  ledger_ok hl0 → rtc ledger_step (hl0, ∅) (hl, held) →
  ledger_ok hl ∧ (∀ h, h ∈ held → ¬ unused hl h) ∧
  (∀ h, unused hl0 h ↔ unused hl h ∨ h ∈ held).
Proof.
  intros Hok0 Hsteps.
  assert (accounted hl0 (hl0, ∅)) as H0 by (split_and!; set_solver).
  apply (rtc_invariant _ (accounted hl0) _ _ Hsteps H0). eauto using accounted_step.
Qed.

(** A ledger with the free handles 10..20 and 30. *)
Definition sample_ledger : handle_ledger :=
  mkLedger sample_list zero_extentlist zero_extentlist 4.

Lemma sample_ledger_ok : ledger_ok sample_ledger.
Proof.
  split_and!; try (by intros h _ ?%has_nil); [exact sample_list_ok|index_ok_closed..].
Qed.

Lemma ledger_conservation_witness :
  ∃ hl, rtc ledger_step (sample_ledger, ∅) (hl, {[30]}) ∧ ¬ unused hl 30.
Proof.
  assert (∃ hl, rtc ledger_step (sample_ledger, ∅) (hl, {[30]} ∪ ∅)) as [hl Hs].
  { eexists. apply rtc_once. eapply step_alloc; [done|vm_compute; reflexivity]. }
  rewrite union_empty_r_L in Hs. exists hl. split; [done|].
  destruct (ledger_conservation sample_ledger hl {[30]} sample_ledger_ok Hs) as (_ & Hno & _).
  apply Hno. by apply elem_of_singleton.
Defined.

(** Allocation in a collection returns a handle from the free list of that
    collection and removes exactly it from the ledger, leaves every other
    collection alone, and reports exhaustion only when the free list is empty:
    as the handle 2^64 - 1, not as the null handle its callers test for. *)
Theorem trove_handle_alloc_correct st id e :
  mgmt_ok st → find_ledger st id = Done (Some e) → have_valid_ranges e = true →
  ledger_ok (ledger e) →
  ∃ handle st' hl', trove_handle_alloc st id = Done (handle, st') ∧ mgmt_ok st' ∧
    find_ledger st' id = Done (Some (set_ledger e hl')) ∧ ledger_ok hl' ∧
    (∀ id', id' ≠ id → find_ledger st' id' = find_ledger st id') ∧
    (index (free_list (ledger e)) = NULL ∧ handle = B64 - 1 ∧ hl' = ledger e ∨
     free_in (free_list (ledger e)) handle ∧
       (∀ h, unused hl' h ↔ unused (ledger e) h ∧ h ≠ handle)).
Proof.
  intros Hm Hf Hv Hok. unfold trove_handle_alloc.
  destruct (ledger_alloc_spec (ledger e) Hok) as [[Hn Ha]|(handle & hl' & Ha & Hok' & Hfree & Hh)].
  - edestruct (with_ledger_spec st id have_valid_ranges TROVE_HANDLE_NULL
      (λ hl, nonnull (trove_ledger_handle_alloc (Some hl)))) as (st' & -> & Hm' & Hf' & Ho);
      [done..|by rewrite Ha|].
    exists (B64 - 1), st', (ledger e). split_and!; try done. by left.
  - edestruct (with_ledger_spec st id have_valid_ranges TROVE_HANDLE_NULL
      (λ hl, nonnull (trove_ledger_handle_alloc (Some hl)))) as (st' & -> & Hm' & Hf' & Ho);
      [done..|by rewrite Ha|].
    exists handle, st', hl'. split_and!; try done. by right.
Qed.

(** A table with one collection, number 9. *)
Definition sample_entry : handle_ledger_t := mkEntry 9 true sample_ledger.
Definition sample_mgmt : mgmt := mkMgmt (Some (mkQhash 1 [[sample_entry]])) 360.

Lemma sample_mgmt_ok : mgmt_ok sample_mgmt.
Proof.
  eexists. split; [done|]. split_and!; simpl; try lia.
  intros [|i] l v Hi Hv; simpl in Hi; [|done]. injection Hi as <-.
  apply list_elem_of_singleton in Hv as ->. reflexivity.
Qed.

Lemma trove_handle_alloc_correct_witness :
  ∃ handle st', trove_handle_alloc sample_mgmt 9 = Done (handle, st') ∧ mgmt_ok st'.
Proof.
  destruct (trove_handle_alloc_correct sample_mgmt 9 sample_entry sample_mgmt_ok)
    as (h & st' & hl' & H & Hm & _); [reflexivity|reflexivity|exact sample_ledger_ok|eauto].
Defined.

(** Freeing a handle that is in use returns it to the ledger of its
    collection, whichever list it goes to and whether or not the lists are
    recycled, and changes nothing else. *)
Theorem trove_handle_free_correct now st id e handle :
  mgmt_ok st → find_ledger st id = Done (Some e) → ledger_ok (ledger e) →
  1 ≤ handle < B64 → ¬ unused (ledger e) handle →
  ∃ st' hl', trove_handle_free malloc_ok now st id handle = Done (0, st') ∧ mgmt_ok st' ∧
    find_ledger st' id = Done (Some (set_ledger e hl')) ∧ ledger_ok hl' ∧
    (∀ id', id' ≠ id → find_ledger st' id' = find_ledger st id') ∧
    (∀ h, unused hl' h ↔ unused (ledger e) h ∨ h = handle).
Proof.
  intros Hm Hf Hok Hr Hn. unfold trove_handle_free.
  destruct (ledger_free_spec now (s_extentlist_purgatory st) (ledger e) handle Hok Hr Hn)
    as (hl' & Ha & Hok' & Hh).
  edestruct (with_ledger_spec st id (λ _, true) (-1) (λ hl, trove_ledger_handle_free malloc_ok
    now (s_extentlist_purgatory st) hl handle)) as (st' & -> & Hm' & Hf' & Ho); [done..|].
  exists st', hl'. done.
Qed.

Lemma trove_handle_free_correct_witness :
  ∃ st', trove_handle_free malloc_ok 1000 sample_mgmt 9 25 = Done (0, st') ∧ mgmt_ok st'.
Proof.
  destruct (trove_handle_free_correct 1000 sample_mgmt 9 sample_entry 25 sample_mgmt_ok)
    as (st' & hl' & H & Hm & _); [reflexivity|exact sample_ledger_ok|lia| |eauto].
  intros [Hu|[Hu|Hu]]; [|by apply has_nil in Hu..]. destruct Hu as (x & Hx & Hc).
  unfold covers in Hc. apply elem_of_cons in Hx as [->|Hx]; [simpl in Hc; lia|].
  apply list_elem_of_singleton in Hx as ->. simpl in Hc. lia.
Defined.

(** The statistics of a collection count every unused handle once. *)
Theorem trove_handle_get_statistics_correct st id e :
  find_ledger st id = Done (Some e) → ledger_ok (ledger e) →
  ∃ hs, NoDup hs ∧ (∀ h, h ∈ hs ↔ unused (ledger e) h) ∧
    trove_handle_get_statistics st id = Done (0, Some (Z.of_nat (length hs))).
Proof.
  intros Hf Hok. destruct (statistics_spec (ledger e) Hok) as (hs & Hn & Hh & Hs).
  exists hs. split_and!; try done. unfold trove_handle_get_statistics. rewrite Hf. simpl.
  by rewrite Hs.
Qed.

Lemma trove_handle_get_statistics_correct_witness :
  ∃ hs : list Z, NoDup hs ∧ trove_handle_get_statistics sample_mgmt 9 =
    Done (0, Some (Z.of_nat (length hs))).
Proof.
  destruct (trove_handle_get_statistics_correct sample_mgmt 9 sample_entry)
    as (hs & Hn & _ & H); [reflexivity|exact sample_ledger_ok|eauto].
Defined.

(** Setting up a fresh collection makes exactly the handles of the
    configured ranges that are not stored on disk free. *)
Theorem trove_set_handle_ranges_correct now st id e extents bs :
  mgmt_ok st → find_ledger st id = Done (Some e) → ledger_ok (ledger e) →
  (∀ h, ¬ unused (ledger e) h) → extents ≠ [] → Forall valid_extent extents →
  extents_disjoint extents → Forall (λ hs, hs ≠ [] ∧ ∀ h, h ∈ hs → has extents h) bs →
  ∃ st' hl', trove_set_handle_ranges malloc_ok malloc_ok (λ _ _, malloc_ok) now st id
      (Some extents) (stored bs) = Done (0, st') ∧ mgmt_ok st' ∧
    find_ledger st' id = Done (Some (mkEntry id true hl')) ∧ ledger_ok hl' ∧
    (∀ id', id' ≠ id → find_ledger st' id' = find_ledger st id') ∧
    (∀ h, free_in (free_list hl') h ↔ has extents h ∧ h ∉ concat bs).
Proof.
  intros Hm Hf Hok Hfresh Hne Hv Hd Hbs.
  unfold trove_set_handle_ranges, get_or_add_handle_ledger. rewrite Hf. cbn.
  unfold trove_map_handle_ranges.
  destruct (map_ranges_loop_spec now extents (ledger e) (-1) 0 Hok Hv Hd)
    as (t & hl1 & -> & Hok1 & Hh1 & _); [by intros h _|].
  cbn. rewrite (decide_False (P := extents = [])) by done. cbn.
  set (hl2 := trove_handle_ledger_set_threshold hl1 (u64 t)).
  destruct (check_ranges_spec extents bs hl2 Hok1 Hv Hbs) as (hl' & -> & Hok' & Hh'). cbn.
  pose proof (find_coll_id st id e Hm Hf) as Hid.
  destruct (store_spec st (mkEntry (coll_id e) true hl') Hm) as (st' & -> & Hm' & _ & Ho & Hs).
  simpl in *. rewrite Hid in *. exists st', hl'. split_and!; try done; [by eapply Hs|].
  intros h. rewrite Hh'. simpl. rewrite Hh1. specialize (Hfresh h). unfold unused in Hfresh. tauto.
Qed.

Lemma trove_set_handle_ranges_correct_witness :
  ∃ st', trove_set_handle_ranges malloc_ok malloc_ok (λ _ _, malloc_ok) 5
      (mkMgmt (Some (mkQhash 1 [[mkEntry 9 false
        (mkLedger zero_extentlist zero_extentlist zero_extentlist 0)]])) 360) 9
      (Some [mkExtent 10 20; mkExtent 40 50]) (stored [[12; 44]]) = Done (0, st') ∧ mgmt_ok st'.
Proof.
  set (e := mkEntry 9 false (mkLedger zero_extentlist zero_extentlist zero_extentlist 0)).
  destruct (trove_set_handle_ranges_correct 5 (mkMgmt (Some (mkQhash 1 [[e]])) 360) 9 e
    [mkExtent 10 20; mkExtent 40 50] [[12; 44]]) as (st' & hl' & H & Hm & _); [..|eauto].
  - eexists. split; [done|]. split_and!; simpl; try lia.
    intros [|i] l v Hi Hv; simpl in Hi; [|done]. injection Hi as <-.
    apply list_elem_of_singleton in Hv as ->. reflexivity.
  - reflexivity.
  - split_and!; try (by intros h _ ?%has_nil); index_ok_closed.
  - intros h [Hu|[Hu|Hu]]; by apply has_nil in Hu.
  - done.
  - repeat constructor; simpl; lia.
  - split; [|split; [|done]]; intros h Hc (y & Hy & Hcy).
    + apply list_elem_of_singleton in Hy as ->. unfold covers in *; simpl in *; lia.
    + by apply not_elem_of_nil in Hy.
  - constructor; [|constructor]. split; [done|]. intros h Hh. apply in_extent_array_spec.
    apply elem_of_cons in Hh as [->|Hh]; [reflexivity|].
    apply list_elem_of_singleton in Hh as ->. reflexivity.
Defined.

(** A freed handle need not sit out the purgatory time: when the free list
    has run low and more than the purgatory time has passed since the overflow
    list was last touched, a handle is allocatable again at the very moment it
    is freed, whatever the time since the freeing. *)
Theorem freed_handle_reusable_at_once now purgatory hl handle :
  ledger_ok hl → 1 ≤ handle < B64 → ¬ unused hl handle →
  extentlist_hit_cutoff (recently_freed_list hl) (cutoff hl) = false →
  u64 (num_handles (free_list hl)) ≤ cutoff hl →
  i32 (now - timestamp (overflow_list hl)) > purgatory →
  ∃ hl', trove_ledger_handle_free malloc_ok now purgatory hl handle = Done (0, hl') ∧
    free_in (free_list hl') handle.
Proof.
  intros Hok Hr Hn Hcut Hlow Htime. unfold trove_ledger_handle_free. rewrite Hcut.
  pose proof Hok as (H1 & H2 & H3 & H12 & H13 & H23).
  destruct (add_one now (recently_freed_list hl) handle) as (e & -> & He & Ht & Hh);
    [done..|unfold unused in Hn; tauto|]. simpl.
  rewrite decide_False by lia. unfold extentlist_endured_purgatory. simpl. rewrite Ht.
  rewrite bool_decide_true by done.
  destruct (recycle_spec now (set_recently_freed_list hl e)) as (hl2 & Hr2 & _ & Hf2 & _).
  { unfold ledger_ok, disjoint_lists, unused in *. simpl. split_and!; try done.
    - intros h Hf [->|?]%Hh; [tauto|by apply (H12 h)].
    - intros h [->|?]%Hh Ho; [tauto|by apply (H23 h)]. }
  change (handle_recycle _ now _) with
    (handle_recycle malloc_ok now (set_recently_freed_list hl e)).
  rewrite Hr2. simpl. exists hl2. split; [done|]. apply Hf2. right. apply Hh. by left.
Qed.

Lemma freed_handle_reusable_at_once_witness :
  ∃ hl', trove_ledger_handle_free malloc_ok 1000 360
      (mkLedger zero_extentlist zero_extentlist zero_extentlist 4) 25 = Done (0, hl') ∧
    free_in (free_list hl') 25.
Proof.
  apply freed_handle_reusable_at_once.
  - split_and!; try (by intros h _ ?%has_nil); index_ok_closed.
  - lia.
  - intros [Hu|[Hu|Hu]]; by apply has_nil in Hu.
  - reflexivity.
  - vm_compute. discriminate.
  - vm_compute. reflexivity.
Defined.

(** ** Finalizing *)

Lemma finalize_index_empties (fuel : nat) table i l :
  0 ≤ i < table_size table → array table !! Z.to_nat i = Some l → (length l < fuel)%nat →
  finalize_index fuel table i = Done (set_bucket table i []).
Proof.
  revert table l. induction fuel as [|fuel IH]; intros table l Hi Hl Hf; [lia|].
  cbn [finalize_index]. unfold qhash_search_and_remove_at_index, bucket.
  rewrite decide_False by lia. rewrite decide_True by lia. rewrite Hl. cbn [mbind exec_bind].
  destruct l as [|e l]; cbn [mbind exec_bind].
  - f_equal. unfold set_bucket. rewrite list_insert_id by done. by destruct table.
  - rewrite (IH (set_bucket table i l) l).
    + unfold set_bucket. cbn. by rewrite list_insert_insert_eq.
    + done.
    + apply list_lookup_insert_eq, (lookup_lt_Some _ _ _ Hl).
    + simpl in Hf. lia.
Qed.

Lemma bucket_entries (table : @qhash_table handle_ledger_t) i l :
  array table !! i = Some l → (length l ≤ length (entries table))%nat.
Proof.
  unfold entries. revert i. induction (array table) as [|l' a IH]; intros [|i] H; simplify_eq/=.
  - rewrite length_app. lia.
  - rewrite length_app. specialize (IH _ H). lia.
Qed.

Lemma finalize_loop_empties (n : nat) i table :
  0 ≤ i → i + Z.of_nat n = table_size table → Z.of_nat (length (array table)) = table_size table →
  Forall (eq []) (take (Z.to_nat i) (array table)) →
  ∃ table', finalize_loop n i table = Done table' ∧ Forall (eq []) (array table').
Proof.
  revert i table. induction n as [|n IH]; intros i table Hi Hn Hlen Hdone; cbn [finalize_loop].
  - exists table. split; [done|]. by rewrite take_ge in Hdone by lia.
  - destruct (lookup_lt_is_Some_2 (array table) (Z.to_nat i)) as [l Hl]; [lia|].
    rewrite (finalize_index_empties _ table i l) by (done || lia || (apply bucket_entries in Hl; lia)).
    cbn [mbind exec_bind]. apply IH; cbn; [lia..| |].
    + by rewrite length_insert.
    + replace (Z.to_nat (i + 1)) with (S (Z.to_nat i)) by lia.
      rewrite (take_S_r _ _ []) by (apply list_lookup_insert_eq; lia).
      rewrite take_insert_ge by lia. apply Forall_app. split; [done|]. by constructor.
Qed.

(** The loops of [trove_handle_mgmt_finalize] end and touch no memory outside
    of the table. *)
Theorem trove_handle_mgmt_finalize_returns st :
  mgmt_ok st →
  trove_handle_mgmt_finalize st = Done (0, mkMgmt None (s_extentlist_purgatory st)).
Proof.
  intros (table & Ht & Hsize & Hlen & _). unfold trove_handle_mgmt_finalize. rewrite Ht.
  destruct (finalize_loop_empties (Z.to_nat (table_size table)) 0 table) as (t' & -> & _); [lia..| |];
    done.
Qed.
