(* ===== verification/ReqSched.v ===== *)
(** src/src/server/request-scheduler/request-scheduler.c: decides which
    requests of a server may run concurrently.

    Requests are structs reached through their address; an address is a
    [positive], and a request identifier is the address itself
    ([id_gen_fast_register]).  [elems] is the part of the heap that holds the
    structs.  The hash table from handles to request lists is a finite map
    (Quickhash.v shows that the table implements one); a list is the sequence
    of the addresses linked into it.  The outcome of [malloc] is an argument.
    Linking a struct into a list it is in already corrupts the list, which is
    [Fault BadAccess]. *)

From stdpp Require Import list numbers gmap relations.
From S2P Require Import Prelude Errors ServerOps.

(** * Data *)

Definition PVFS_SERV_IS_MGMT_OP (x : Z) : bool :=
  bool_decide (x = PVFS_SERV_MGMT_SETPARAM) ||
  bool_decide (x = PVFS_SERV_MGMT_REMOVE_OBJECT) ||
  bool_decide (x = PVFS_SERV_MGMT_REMOVE_DIRENT).

Inductive PINT_server_req_access_type := PINT_SERVER_REQ_READONLY | PINT_SERVER_REQ_MODIFY.
Inductive PINT_server_sched_policy := PINT_SERVER_REQ_BYPASS | PINT_SERVER_REQ_SCHEDULE.

Inductive req_sched_states :=
  | REQ_QUEUED              (* cannot be processed yet *)
  | REQ_SCHEDULED           (* is being processed *)
  | REQ_READY_TO_SCHEDULE   (* could be processed, but not asked for yet *)
  | REQ_TIMING.             (* for timer events *)

#[export] Instance access_eq_dec : EqDecision PINT_server_req_access_type.
Proof. solve_decision. Defined.
#[export] Instance policy_eq_dec : EqDecision PINT_server_sched_policy.
Proof. solve_decision. Defined.
#[export] Instance states_eq_dec : EqDecision req_sched_states.
Proof. solve_decision. Defined.

(** [enum PVFS_server_mode]. *)
Definition PVFS_SERVER_NORMAL_MODE : Z := 1.
Definition PVFS_SERVER_ADMIN_MODE : Z := 2.

(** [list_head] says whether the element points to the list of its handle. *)
Record req_sched_element := mkElement {
  op : Z;
  user_ptr : Z;
  list_head : bool;
  state : req_sched_states;
  handle : Z;
  tv : Z * Z;
  access_type : PINT_server_req_access_type;
  mode_change : bool;
  mode : Z;
}.

Definition set_state (e : req_sched_element) (s : req_sched_states) :=
  mkElement (op e) (user_ptr e) (list_head e) s (handle e) (tv e) (access_type e)
    (mode_change e) (mode e).

(** The static variables of the file. *)
Record sched := mkSched {
  elems : gmap positive req_sched_element;
  req_sched_table : gmap Z (list positive);
  ready_queue : list positive;
  timer_queue : list positive;
  mode_queue : list positive;
  sched_count : Z;
  current_mode : Z;
}.

Definition set_elems (st : sched) m :=
  mkSched m (req_sched_table st) (ready_queue st) (timer_queue st) (mode_queue st)
    (sched_count st) (current_mode st).
Definition set_table (st : sched) t :=
  mkSched (elems st) t (ready_queue st) (timer_queue st) (mode_queue st)
    (sched_count st) (current_mode st).
Definition set_ready_queue (st : sched) q :=
  mkSched (elems st) (req_sched_table st) q (timer_queue st) (mode_queue st)
    (sched_count st) (current_mode st).
Definition set_timer_queue (st : sched) q :=
  mkSched (elems st) (req_sched_table st) (ready_queue st) q (mode_queue st)
    (sched_count st) (current_mode st).
Definition set_mode_queue (st : sched) q :=
  mkSched (elems st) (req_sched_table st) (ready_queue st) (timer_queue st) q
    (sched_count st) (current_mode st).
Definition set_sched_count (st : sched) n :=
  mkSched (elems st) (req_sched_table st) (ready_queue st) (timer_queue st) (mode_queue st)
    n (current_mode st).
Definition set_current_mode (st : sched) m :=
  mkSched (elems st) (req_sched_table st) (ready_queue st) (timer_queue st) (mode_queue st)
    (sched_count st) m.

(** Reading and writing a struct through its address. *)
Definition get (st : sched) (id : positive) : exec req_sched_element :=
  match elems st !! id with Some e => Done e | None => Fault BadAccess end.
Definition put (st : sched) (id : positive) (e : req_sched_element) : sched :=
  set_elems st (<[id := e]> (elems st)).

(** [qlist_add_tail] on the ready queue. *)
Definition ready_add (st : sched) (id : positive) : exec sched :=
  if decide (id ∈ ready_queue st) then Fault BadAccess
  else Done (set_ready_queue st (ready_queue st ++ [id])).

(** [qlist_del] of the ready link. *)
Definition ready_del (st : sched) (id : positive) : sched :=
  set_ready_queue st (filter (λ x, x ≠ id) (ready_queue st)).

(** * Setup and mode changes *)

Definition ENOMEM : Z := 12.
Definition EALREADY : Z := 114.
Definition EINVAL : Z := 22.

Definition PINT_req_sched_get_mode (st : sched) : Z := current_mode st.

Definition PINT_req_sched_initialize (alloc : bool) (st : sched) : Z * sched :=
  if alloc then (0, set_table st ∅) else (- ENOMEM, st).

(** Timers are unlinked and freed. *)
Definition PINT_timer_queue_finalize (st : sched) : Z * sched :=
  (0, set_timer_queue
        (set_elems st (filter (λ x, x.1 ∉ timer_queue st) (elems st))) []).

(** Every element of every list is freed. *)
Definition PINT_req_sched_finalize (st : sched) : Z * sched :=
  let freed := concat (map_to_list (req_sched_table st)).*2 in
  (0, set_sched_count (set_table
        (set_elems st (filter (λ x, x.1 ∉ freed) (elems st))) ∅) 0).

(** [alloc] is the address of the new struct; the return value, the identifier
    and the state. *)
Definition PINT_req_sched_change_mode (alloc : option positive) (m : Z) (uptr : Z) (st : sched)
    : exec (Z * option positive * sched) :=
  match alloc with
  | None => Done (- ENOMEM, None, st)
  | Some id =>
      let e := mkElement 0 uptr false REQ_QUEUED 0 (0, 0) PINT_SERVER_REQ_READONLY true m in
      let mode_change_ready := bool_decide (mode_queue st = []) in
      let st := set_mode_queue (put st id e) (mode_queue st ++ [id]) in
      if (mode_change_ready : bool) then
        if decide (m = PVFS_SERVER_NORMAL_MODE) then
          (* let this go through regardless *)
          Done (1, Some id, set_current_mode (put st id (set_state e REQ_SCHEDULED)) m)
        else if decide (m = PVFS_SERVER_ADMIN_MODE) then
          if decide (sched_count st > -1) then
            (* for this to work, we must wait for pending ops to complete *)
            if decide (sched_count st = 0) then
              Done (1, Some id, set_current_mode (put st id (set_state e REQ_SCHEDULED)) m)
            else Done (0, Some id, st)
          else Fault AssertFailed
        else Fault AssertFailed
      else Done (0, Some id, st)
  end.

Definition PINT_req_sched_in_admin_mode (st : sched) : exec bool :=
  pending ←
    (match mode_queue st with
     | [] => Done false
     | id :: _ => e ← get st id; Done (bool_decide (mode e = PVFS_SERVER_ADMIN_MODE))
     end);
  Done (bool_decide (current_mode st = PVFS_SERVER_ADMIN_MODE) || pending).

Definition PINT_req_sched_schedule_mode_change (st : sched) : exec sched :=
  match mode_queue st with
  | id :: _ =>
      if decide (sched_count st = 0) then
        e ← get st id;
        ready_add (put st id (set_state e REQ_READY_TO_SCHEDULE)) id
      else Done st
  | [] => Done st
  end.

Definition PINT_req_sched_do_change_mode (st : sched) (e : req_sched_element) : sched :=
  if mode_change e then set_current_mode st (mode e) else st.

(** * Submission *)

(** Whether a new request may run at once, given the list of its handle: its
    state, its access type and the return value. *)
Definition post_decide (st : sched) (q : list positive) (o : Z)
    (a : PINT_server_req_access_type)
    : exec (req_sched_states * PINT_server_req_access_type * Z) :=
  match q, last q with
  | n :: _, Some l =>
      (* are all current queued operations already scheduled? *)
      next ← get st n;
      lst ← get st l;
      let both := bool_decide (state next = REQ_SCHEDULED) &&
                  bool_decide (state lst = REQ_SCHEDULED) in
      es ← mapM (get st) q;
      if bool_decide (o = PVFS_SERV_IO) && both then
        (* see if all scheduled ops for this handle are for I/O *)
        if forallb (λ e, bool_decide (op e = PVFS_SERV_IO)) es then Done (REQ_SCHEDULED, a, 1)
        else Done (REQ_QUEUED, a, 0)
      else if bool_decide (a = PINT_SERVER_REQ_READONLY) && both then
        (* see if all scheduled ops for this handle are read only *)
        if existsb (λ e, bool_decide (access_type e = PINT_SERVER_REQ_MODIFY)) es
        then Done (REQ_QUEUED, a, 0) else Done (REQ_SCHEDULED, a, 1)
      else if (bool_decide (o = PVFS_SERV_CRDIRENT) || bool_decide (o = PVFS_SERV_RMDIRENT)) && both
      then Done (REQ_SCHEDULED, PINT_SERVER_REQ_READONLY, 1)
      else Done (REQ_QUEUED, a, 0)
  | _, _ => Done (REQ_SCHEDULED, a, 1)
  end.

(** [alloc] is the address of the new struct, [alloc'] whether a new list can
    be allocated.  The identifier is [None] where no struct is left behind. *)
Definition PINT_req_sched_post (alloc : option positive) (alloc' : bool) (o h : Z)
    (a : PINT_server_req_access_type) (policy : PINT_server_sched_policy) (uptr : Z)
    (st : sched) : exec (Z * option positive * sched) :=
  let modifies := bool_decide (a = PINT_SERVER_REQ_MODIFY) && negb (PVFS_SERV_IS_MGMT_OP o) in
  admin ← (if modifies then PINT_req_sched_in_admin_mode st else Done false);
  match policy with
  | PINT_SERVER_REQ_BYPASS =>
      if (admin : bool) then Done (- PVFS_EAGAIN, None, st)
      (* no special mode; allow request to proceed immediately *)
      else Done (1, None, st)
  | PINT_SERVER_REQ_SCHEDULE =>
      match alloc with
      | None => Done (- ENOMEM, None, st)
      | Some id =>
          if (admin : bool) then Done (- PVFS_EAGAIN, None, st) else
          (* see if we have a request queue up for this handle *)
          match req_sched_table st !! h, alloc' with
          | None, false => Done (- ENOMEM, None, st)
          | mq, _ =>
              let q := default [] mq in
              '(s, a', ret) ← post_decide st q o a;
              let e := mkElement o uptr true s h (0, 0) a' false 0 in
              (* add this element to the list *)
              let st := set_table (put st id e) (<[h := q ++ [id]]> (req_sched_table st)) in
              Done (ret, Some id, set_sched_count st (i32 (sched_count st + 1)))
          end
      end
  end.

(** [(a.tv_sec > b.tv_sec) || (a.tv_sec == b.tv_sec && a.tv_usec > b.tv_usec)] *)
Definition tv_after (a b : Z * Z) : bool :=
  bool_decide (a.1 > b.1) || (bool_decide (a.1 = b.1) && bool_decide (a.2 > b.2)).

(** The position in the timer queue: before the first entry that comes after. *)
Fixpoint timer_insert (st : sched) (id : positive) (t : Z * Z) (q : list positive)
    : exec (list positive) :=
  match q with
  | [] => Done [id]
  | n :: q' =>
      e ← get st n;
      if tv_after (tv e) t then Done (id :: q)
      else q'' ← timer_insert st id t q'; Done (n :: q'')
  end.

(** [now] is what [gettimeofday] reports. *)
Definition PINT_req_sched_post_timer (alloc : option positive) (now : Z * Z) (msecs uptr : Z)
    (st : sched) : exec (Z * option positive * sched) :=
  if decide (msecs < 1) then Done (1, None, st) else
  match alloc with
  | None => Done (- ENOMEM, None, st)
  | Some id =>
      (* set time to future, based on msecs arg *)
      let sec := now.1 + Z.quot msecs 1000 in
      let usec := now.2 + Z.rem msecs 1000 * 1000 in
      let t := if decide (usec > 1000000)
               then (sec + Z.quot usec 1000000, Z.rem usec 1000000) else (sec, usec) in
      let e := mkElement 0 uptr false REQ_TIMING 0 t PINT_SERVER_REQ_READONLY false 0 in
      (* put in timer queue, in order *)
      q ← timer_insert st id t (timer_queue st);
      Done (0, Some id, set_timer_queue (put st id e) q)
  end.

(** [qlist_del(&(e->list_link))]: out of the list of the handle, or out of the
    mode queue or the timer queue. *)
Definition list_del (st : sched) (id : positive) (e : req_sched_element) : exec sched :=
  if list_head e then
    match req_sched_table st !! handle e with
    | Some q => Done (set_table st (<[handle e := filter (λ x, x ≠ id) q]> (req_sched_table st)))
    | None => Fault BadAccess
    end
  else
    Done (set_timer_queue (set_mode_queue st (filter (λ x, x ≠ id) (mode_queue st)))
            (filter (λ x, x ≠ id) (timer_queue st))).

(** Make an element ready. *)
Definition make_ready (st : sched) (id : positive) (e : req_sched_element) : exec sched :=
  ready_add (put st id (set_state e REQ_READY_TO_SCHEDULE)) id.

(** The while loops that let a run of requests go concurrently: [rest] is the
    list after the element made ready first; [check] is the assertion that the
    elements are still queued. *)
Fixpoint ready_run (P : req_sched_element → bool) (check : bool) (st : sched)
    (rest : list positive) : exec sched :=
  match rest with
  | [] => Done st
  | id :: rest' =>
      e ← get st id;
      if P e then
        if check && bool_decide (state e ≠ REQ_QUEUED) then Fault AssertFailed else
        st ← make_ready st id e;
        ready_run P check st rest'
      else Done st
  end.

Definition is_io (e : req_sched_element) : bool := bool_decide (op e = PVFS_SERV_IO).
Definition is_readonly (e : req_sched_element) : bool :=
  bool_decide (access_type e = PINT_SERVER_REQ_READONLY).

(** [tmp_element->list_head] after the element has been unlinked: drop an
    empty list, otherwise wake the next in line if [wake] says so. *)
Definition next_in_line (st : sched) (h : Z) (wake : bool)
    (runs : req_sched_element → sched → list positive → exec sched) : exec sched :=
  match req_sched_table st !! h with
  | None => Fault BadAccess
  | Some [] => Done (set_table st (delete h (req_sched_table st)))
  | Some (n :: rest) =>
      if wake then
        next ← get st n;
        (* skip it if it is already ready to go *)
        if bool_decide (state next ≠ REQ_READY_TO_SCHEDULE) &&
           bool_decide (state next ≠ REQ_SCHEDULED) then
          st ← make_ready st n next;
          runs next st rest
        else Done st
      else Done st
  end.

Definition free_element (st : sched) (id : positive) : sched :=
  set_elems st (delete id (elems st)).

(** The return value, the user pointer and the state. *)
Definition PINT_req_sched_unpost (id : positive) (st : sched) : exec (Z * option Z * sched) :=
  e ← get st id;
  (* make sure it isn't already scheduled *)
  if decide (state e = REQ_SCHEDULED) then Done (- EALREADY, None, st) else
  let next_ready_flag := bool_decide (state e = REQ_READY_TO_SCHEDULE) in
  let st := if (next_ready_flag : bool) then ready_del st id else st in
  st ← list_del st id e;
  st ←
    (if list_head e then
       st ← next_in_line st (handle e) next_ready_flag
              (λ next st rest, if is_io next then ready_run is_io false st rest else Done st);
       Done (set_sched_count st (i32 (sched_count st - 1)))
     else Done st);
  let st := free_element st id in
  st ← PINT_req_sched_schedule_mode_change st;
  Done (0, Some (user_ptr e), st).

(** [None] is the identifier 0 of a request the scheduler let pass. *)
Definition PINT_req_sched_release (in_completed_id : option positive) (st : sched)
    : exec (Z * sched) :=
  match in_completed_id with
  | None => Done (1, st)
  | Some id =>
      e ← get st id;
      (* remove it from its handle queue *)
      st ← list_del st id e;
      st ←
        (if list_head e then
           st ← next_in_line st (handle e) true
                  (λ next st rest,
                     if is_io next then ready_run is_io true st rest
                     else if is_readonly next then ready_run is_readonly true st rest
                     else Done st);
           Done (set_sched_count st (i32 (sched_count st - 1)))
         else Done st);
      let st := free_element st id in
      st ← PINT_req_sched_schedule_mode_change st;
      Done (1, st)
  end.

(** * Testing for completion *)

(** An element that is ready is let roll. *)
Definition start (st : sched) (id : positive) (e : req_sched_element) : sched :=
  let st := put st id (set_state e REQ_SCHEDULED) in
  let st := ready_del st id in
  PINT_req_sched_do_change_mode st e.

(** The return value, the user pointer where [*out_count_p] is 1, the state. *)
Definition PINT_req_sched_test (now : Z * Z) (id : positive) (st : sched)
    : exec (Z * option Z * sched) :=
  e ← get st id;
  match state e with
  | REQ_SCHEDULED => Done (- EINVAL, None, st)
  | REQ_QUEUED => Done (0, None, st)
  | REQ_READY_TO_SCHEDULE => Done (1, Some (user_ptr e), start st id e)
  | REQ_TIMING =>
      if tv_after now (tv e) then
        st ← list_del st id e;
        Done (1, Some (user_ptr e), free_element st id)
      else Done (0, None, st)
  end.

(** The for loop of [PINT_req_sched_testsome] from index [i] on: [inl] is an
    error return, [inr] the indices and user pointers reported.  [now i] is what
    [gettimeofday] reports in iteration [i]. *)
Fixpoint testsome_loop (now : nat → Z * Z) (ids : list positive) (i : nat) (out : list (nat * Z))
    (st : sched) : exec ((Z + list (nat * Z)) * sched) :=
  match ids with
  | [] => Done (inr out, st)
  | id :: ids' =>
      e ← get st id;
      match state e with
      | REQ_SCHEDULED => Done (inl (- EINVAL), st)
      | REQ_QUEUED => testsome_loop now ids' (S i) out st
      | REQ_READY_TO_SCHEDULE =>
          testsome_loop now ids' (S i) (out ++ [(i, user_ptr e)]) (start st id e)
      | REQ_TIMING =>
          if tv_after (now i) (tv e) then
            st ← list_del st id e;
            testsome_loop now ids' (S i) (out ++ [(i, user_ptr e)]) (free_element st id)
          else testsome_loop now ids' (S i) out st
      end
  end.

Definition PINT_req_sched_testsome (now : nat → Z * Z) (ids : list positive) (st : sched)
    : exec (Z * list (nat * Z) * sched) :=
  '(r, st) ← testsome_loop now ids 0 [] st;
  match r with
  | inl err => Done (err, [], st)
  | inr out => Done (if decide (out = []) then 0 else 1, out, st)
  end.

(** The timers whose time has come, [incount] at most; what is left of the
    queue, and the identifiers and user pointers reported. *)
Fixpoint expired_timers (now : Z * Z) (incount : Z) (q : list positive)
    (out : list (positive * Z)) (st : sched) : exec (list (positive * Z) * sched) :=
  match q with
  | [] => Done (out, st)
  | id :: q' =>
      e ← get st id;
      if tv_after (tv e) now then Done (out, st) else
      st ← list_del st id e;
      let out := out ++ [(id, user_ptr e)] in
      let st := free_element st id in
      if decide (Z.of_nat (length out) = incount) then Done (out, st)
      else expired_timers now incount q' out st
  end.

(** The while loop over the ready queue; every iteration takes one off it. *)
Fixpoint start_ready (fuel : nat) (incount : Z) (out : list (positive * Z)) (st : sched)
    : exec (list (positive * Z) * sched) :=
  match ready_queue st with
  | id :: _ =>
      if decide (Z.of_nat (length out) < incount) then
        match fuel with
        | O => Fault OutOfFuel
        | S fuel' =>
            e ← get st id;
            start_ready fuel' incount (out ++ [(id, user_ptr e)]) (start st id e)
        end
      else Done (out, st)
  | [] => Done (out, st)
  end.

Definition PINT_req_sched_testworld (now : Z * Z) (incount : Z) (st : sched)
    : exec (Z * list (positive * Z) * sched) :=
  (* do timers first, if we have them *)
  '(out, st) ← expired_timers now incount (timer_queue st) [] st;
  '(out, st) ← start_ready (length (ready_queue st)) incount out st;
  Done (if decide (out = []) then 0 else 1, out, st).

(** [hash_handle] of the table. *)
Definition hash_handle (h table_size : Z) : Z := i32 (Z.rem (u64 h) (u64 table_size)).

(** [hash_handle_compare]: the key and the handle of the list. *)
Definition hash_handle_compare (key list_handle : Z) : Z :=
  if decide (list_handle = key) then 1 else 0.
