(* ===== verification/ReqSchedInv.v ===== *)
(** The invariant of the request scheduler, and what it means: which requests
    run concurrently, in which order they start, and what admin mode keeps
    out. *)

From stdpp Require Import list numbers gmap relations.
From S2P Require Import Prelude Errors ServerOps ReqSched.

(** * Specification *)

(** Running, or allowed to run. *)
Definition active (e : req_sched_element) : Prop :=
  state e = REQ_SCHEDULED ∨ state e = REQ_READY_TO_SCHEDULE.

Definition is_dirent (o : Z) : Prop := o = PVFS_SERV_CRDIRENT ∨ o = PVFS_SERV_RMDIRENT.

(** Two requests that may be active on a handle at the same time: two I/O
    requests, two read only requests, or a directory entry operation and
    anything. *)
Definition compatible (a b : req_sched_element) : Prop :=
  (op a = PVFS_SERV_IO ∧ op b = PVFS_SERV_IO) ∨
  (access_type a = PINT_SERVER_REQ_READONLY ∧ access_type b = PINT_SERVER_REQ_READONLY) ∨
  is_dirent (op a) ∨ is_dirent (op b).

Abbreviation heap := (gmap positive req_sched_element).

(** [id] is a request on handle [h] of which [P] holds. *)
Definition on_handle (m : heap) (h : Z) (P : req_sched_element → Prop) (id : positive) : Prop :=
  ∃ e, m !! id = Some e ∧ list_head e = true ∧ handle e = h ∧ mode_change e = false ∧ P e.

Definition pairwise_compatible (m : heap) (act : list positive) : Prop :=
  ∀ a b ea eb, a ∈ act → b ∈ act → a ≠ b → m !! a = Some ea → m !! b = Some eb →
    compatible ea eb.

(** The list of a handle: active requests, compatible with each other, and
    behind them the ones that wait. *)
Definition queue_split (m : heap) (h : Z) (act wait : list positive) : Prop :=
  NoDup (act ++ wait) ∧ Forall (on_handle m h active) act ∧
  Forall (on_handle m h (λ e, state e = REQ_QUEUED)) wait ∧ pairwise_compatible m act.

Definition queue_ok (m : heap) (h : Z) (q : list positive) : Prop :=
  ∃ act wait, q = act ++ wait ∧ act ≠ [] ∧ queue_split m h act wait.

(** The requests that are in a list. *)
Definition listed (m : heap) : gset positive := dom (filter (λ x, list_head x.2 = true) m).

(** A request that changes the file system and is not a management request. *)
Definition modifying (e : req_sched_element) : Prop :=
  (access_type e = PINT_SERVER_REQ_MODIFY ∨ is_dirent (op e)) ∧
  PVFS_SERV_IS_MGMT_OP (op e) = false.

(** In admin mode, or about to enter it. *)
Definition closing (st : sched) : Prop :=
  current_mode st = PVFS_SERVER_ADMIN_MODE ∨
  ∃ id rest e, mode_queue st = id :: rest ∧ elems st !! id = Some e ∧
    mode e = PVFS_SERVER_ADMIN_MODE ∧ state e ≠ REQ_QUEUED.

Record sched_inv (st : sched) : Prop := {
  si_queues : ∀ h q, req_sched_table st !! h = Some q → queue_ok (elems st) h q;
  si_listed : ∀ id e, elems st !! id = Some e → list_head e = true →
    ∃ q, req_sched_table st !! handle e = Some q ∧ id ∈ q;
  si_ready_nodup : NoDup (ready_queue st);
  si_ready : ∀ id, id ∈ ready_queue st ↔
    ∃ e, elems st !! id = Some e ∧ state e = REQ_READY_TO_SCHEDULE;
  si_count : sched_count st = Z.of_nat (size (listed (elems st)));
  si_bound : sched_count st < B31;
  si_mode_nodup : NoDup (mode_queue st);
  si_mode : ∀ id, id ∈ mode_queue st ↔
    ∃ e, elems st !! id = Some e ∧ mode_change e = true;
  si_mode_unlisted : ∀ id e, elems st !! id = Some e → mode_change e = true →
    list_head e = false ∧ state e ≠ REQ_TIMING;
  si_mode_tail : ∀ id rest x e, mode_queue st = id :: rest → x ∈ rest →
    elems st !! x = Some e → state e = REQ_QUEUED;
  si_timer_nodup : NoDup (timer_queue st);
  si_timer : ∀ id, id ∈ timer_queue st ↔
    ∃ e, elems st !! id = Some e ∧ state e = REQ_TIMING;
  si_timer_unlisted : ∀ id e, elems st !! id = Some e → state e = REQ_TIMING →
    list_head e = false ∧ mode_change e = false;
  si_kinds : ∀ id e, elems st !! id = Some e → list_head e = false →
    mode_change e = true ∨ state e = REQ_TIMING;
  si_admin : closing st → ∀ id e, elems st !! id = Some e → list_head e = true →
    ¬ modifying e;
}.

(** * Heaps in which some requests become ready *)

Definition ready_map (run : list positive) (m : heap) : heap :=
  map_imap (λ id e, Some (if decide (id ∈ run) then set_state e REQ_READY_TO_SCHEDULE else e)) m.

Lemma lookup_ready_map run m id :
  ready_map run m !! id =
    (λ e, if decide (id ∈ run) then set_state e REQ_READY_TO_SCHEDULE else e) <$> m !! id.
Proof. unfold ready_map. rewrite map_lookup_imap. by destruct (m !! id). Qed.

Lemma ready_map_nil m : ready_map [] m = m.
Proof.
  apply map_eq. intros id. rewrite lookup_ready_map. by destruct (m !! id).
Qed.

Lemma ready_map_cons id run m e :
  m !! id = Some e →
  ready_map (id :: run) m = ready_map run (<[id := set_state e REQ_READY_TO_SCHEDULE]> m).
Proof.
  intros He. apply map_eq. intros x. rewrite !lookup_ready_map.
  destruct (decide (x = id)) as [->|Hne].
  - rewrite lookup_insert_eq, He. simpl. rewrite decide_True by (by left).
    by case_decide.
  - rewrite lookup_insert_ne by done. destruct (m !! x); [|done]. simpl.
    do 2 case_decide; set_solver.
Qed.

(** The state after the requests of [run] have become ready. *)
Definition woken (run : list positive) (st : sched) : sched :=
  set_ready_queue (set_elems st (ready_map run (elems st))) (ready_queue st ++ run).

Lemma woken_nil st : woken [] st = st.
Proof. unfold woken. rewrite ready_map_nil, app_nil_r. by destruct st. Qed.

Lemma make_ready_spec st id e :
  elems st !! id = Some e → id ∉ ready_queue st →
  make_ready st id e = Done (woken [id] st).
Proof.
  intros He Hr. unfold make_ready, ready_add, put, woken. simpl. rewrite decide_False by done.
  rewrite (ready_map_cons id [] _ e), ready_map_nil by done. done.
Qed.

Lemma woken_cons st id e run :
  elems st !! id = Some e → woken run (woken [id] st) = woken (id :: run) st.
Proof.
  intros He. unfold woken. simpl. rewrite <- app_assoc, (ready_map_cons id run _ e) by done.
  by rewrite (ready_map_cons id [] _ e), ready_map_nil by done.
Qed.

(** The loop over a run of waiting requests wakes a prefix of them. *)
Lemma ready_run_spec P check st rest :
  Forall (λ id, ∃ e, elems st !! id = Some e ∧ state e = REQ_QUEUED) rest → NoDup rest →
  (∀ id, id ∈ rest → id ∉ ready_queue st) →
  ∃ run tail, rest = run ++ tail ∧ ready_run P check st rest = Done (woken run st) ∧
    Forall (λ id, ∃ e, elems st !! id = Some e ∧ P e = true) run.
Proof.
  revert st. induction rest as [|id rest IH]; intros st Hq Hn Hr.
  { exists [], []. rewrite woken_nil. done. }
  apply Forall_cons in Hq as [(e & He & Hst) Hq]. apply NoDup_cons in Hn as [Hid Hn].
  cbn [ready_run]. unfold get. rewrite He. simpl. destruct (P e) eqn:HP.
  2: { exists [], (id :: rest). rewrite woken_nil. done. }
  rewrite Hst. rewrite bool_decide_false by (intros Hc; by apply Hc). rewrite andb_false_r.
  rewrite (make_ready_spec st id e) by (done || apply Hr; set_solver). simpl.
  assert (∀ x, x ∈ rest → elems (woken [id] st) !! x = elems st !! x) as Hsame.
  { intros x Hx. simpl. rewrite lookup_ready_map. destruct (elems st !! x); [|done]. simpl.
    by rewrite decide_False by set_solver. }
  destruct (IH (woken [id] st)) as (run & tail & -> & -> & Hrun).
  - rewrite Forall_forall in Hq |- *. intros x Hx. rewrite (Hsame x Hx). auto.
  - done.
  - intros x Hx. simpl. rewrite elem_of_app, list_elem_of_singleton.
    intros [?| ->]; [|done]. apply (Hr x); set_solver.
  - exists (id :: run), tail. rewrite (woken_cons st id e) by done. split_and!; try done.
    constructor; [eauto|]. rewrite Forall_forall in Hrun |- *. intros x Hx.
    destruct (Hrun x Hx) as (ex & Hex & HPx). rewrite Hsame in Hex by set_solver. eauto.
Qed.

(** The ways the callers of [next_in_line] go on after the first request. *)
Definition runs_ok (runs : req_sched_element → sched → list positive → exec sched) : Prop :=
  ∀ next st rest,
    runs next st rest = Done st ∨
    (is_io next = true ∧ ∃ c, runs next st rest = ready_run is_io c st rest) ∨
    (is_readonly next = true ∧ ∃ c, runs next st rest = ready_run is_readonly c st rest).

Lemma pairwise_io m run :
  Forall (λ id, ∃ e, m !! id = Some e ∧ is_io e = true) run → pairwise_compatible m run.
Proof.
  rewrite Forall_forall. intros H a b ea eb Ha Hb _ Hea Heb.
  destruct (H a Ha) as (? & ? & ?%bool_decide_eq_true), (H b Hb) as (? & ? & ?%bool_decide_eq_true).
  left. simplify_eq. done.
Qed.

Lemma pairwise_readonly m run :
  Forall (λ id, ∃ e, m !! id = Some e ∧ is_readonly e = true) run → pairwise_compatible m run.
Proof.
  rewrite Forall_forall. intros H a b ea eb Ha Hb _ Hea Heb.
  destruct (H a Ha) as (? & ? & ?%bool_decide_eq_true), (H b Hb) as (? & ? & ?%bool_decide_eq_true).
  right. left. simplify_eq. done.
Qed.

Lemma pairwise_single m id : pairwise_compatible m [id].
Proof.
  intros a b ea eb Ha%list_elem_of_singleton Hb%list_elem_of_singleton. congruence.
Qed.

(** Waking the first waiting request and the run behind it. *)
Lemma wake_run st runs n rest e :
  runs_ok runs → elems st !! n = Some e → state e = REQ_QUEUED →
  Forall (λ id, ∃ e, elems st !! id = Some e ∧ state e = REQ_QUEUED) rest →
  NoDup (n :: rest) → (∀ id, id ∈ n :: rest → id ∉ ready_queue st) →
  ∃ run tail, rest = run ++ tail ∧
    (st ← make_ready st n e; runs e st rest) = Done (woken (n :: run) st) ∧
    pairwise_compatible (elems st) (n :: run).
Proof.
  intros Hruns He Hst Hq Hn Hr. rewrite (make_ready_spec st n e) by (done || apply Hr; set_solver).
  simpl. apply NoDup_cons in Hn as [Hnr Hn].
  assert (∀ x, x ∈ rest → elems (woken [n] st) !! x = elems st !! x) as Hsame.
  { intros x Hx. simpl. rewrite lookup_ready_map. destruct (elems st !! x); [|done]. simpl.
    by rewrite decide_False by set_solver. }
  assert (∀ P c, ∃ run tail, rest = run ++ tail ∧
    ready_run P c (woken [n] st) rest = Done (woken (n :: run) st) ∧
    Forall (λ id, ∃ e, elems st !! id = Some e ∧ P e = true) run) as Hgo.
  { intros P c. destruct (ready_run_spec P c (woken [n] st) rest) as (run & tail & Hrt & -> & Hrun).
    - rewrite Forall_forall in Hq |- *. intros x Hx. rewrite (Hsame x Hx). auto.
    - done.
    - intros x Hx. simpl. rewrite elem_of_app, list_elem_of_singleton.
      intros [?| ->]; [|done]. apply (Hr x); set_solver.
    - exists run, tail. rewrite (woken_cons st n e) by done. split_and!; try done.
      rewrite Forall_forall in Hrun |- *. intros x Hx.
      destruct (Hrun x Hx) as (ex & Hex & HPx). rewrite Hsame in Hex by set_solver. eauto. }
  destruct (Hruns e (woken [n] st) rest) as [->|[(Hio & c & ->)|(Hro & c & ->)]].
  - exists [], rest. split_and!; try done. apply pairwise_single.
  - destruct (Hgo is_io c) as (run & tail & Hrt & -> & Hrun). exists run, tail.
    split_and!; try done. apply pairwise_io. constructor; eauto.
  - destruct (Hgo is_readonly c) as (run & tail & Hrt & -> & Hrun). exists run, tail.
    split_and!; try done. apply pairwise_readonly. constructor; eauto.
Qed.

Lemma next_in_line_spec st h act wait wake runs :
  req_sched_table st !! h = Some (act ++ wait) → queue_split (elems st) h act wait →
  (∀ id, id ∈ wait → id ∉ ready_queue st) → wake = true ∨ act ≠ [] ∨ wait = [] → runs_ok runs →
  ∃ run tail, wait = run ++ tail ∧
    next_in_line st h wake runs =
      Done (if decide (act ++ wait = []) then set_table st (delete h (req_sched_table st))
            else woken run st) ∧
    (act = [] ∨ run = []) ∧ (act ++ wait ≠ [] → act ++ run ≠ []) ∧
    pairwise_compatible (elems st) run.
Proof.
  intros Ht (Hn & Hact & Hwait & Hc) Hr Hw Hruns. unfold next_in_line. rewrite Ht.
  destruct act as [|a act].
  - simpl in *. destruct wait as [|n rest].
    { exists [], []. split_and!; try done. by left. }
    destruct Hw as [->|[Hw|Hw]]; [|done..].
    apply Forall_cons in Hwait as [(e & He & _ & _ & _ & Hst) Hwait].
    unfold get. rewrite He. simpl. rewrite Hst. simpl.
    destruct (wake_run st runs n rest e) as (run & tail & -> & Hx & Hcr); try done.
    { eapply Forall_impl; [exact Hwait|]. intros x (ex & ? & _ & _ & _ & ?). eauto. }
    exists (n :: run), tail. rewrite Hx. split_and!; try done. by left.
  - simpl. apply Forall_cons in Hact as [(e & He & _ & _ & _ & Hst) _].
    exists [], wait. rewrite woken_nil. split_and!; try done; [|by right|].
    + destruct wake; [|done]. unfold get. rewrite He. simpl.
      by destruct Hst as [-> | ->].
    + intros x b ex eb Hx. by apply not_elem_of_nil in Hx.
Qed.

(** * A request leaves its list *)

Lemma filter_ne_notin (id : positive) (l : list positive) : id ∉ l → filter (λ x, x ≠ id) l = l.
Proof.
  induction l as [|x l IH]; [done|]. rewrite not_elem_of_cons. intros [? ?].
  by rewrite filter_cons_True, IH by done.
Qed.

Lemma lookup_after run id m x ex :
  delete id (ready_map run m) !! x = Some ex ↔
  x ≠ id ∧ ∃ e, m !! x = Some e ∧
    ex = (if decide (x ∈ run) then set_state e REQ_READY_TO_SCHEDULE else e).
Proof.
  rewrite lookup_delete_Some, lookup_ready_map, fmap_Some.
  split; intros (? & e & ? & ?); (split; [done|eauto]).
Qed.

Lemma elem_of_listed m id : id ∈ listed m ↔ ∃ e, m !! id = Some e ∧ list_head e = true.
Proof.
  unfold listed. rewrite elem_of_dom. split.
  - intros [e [He Hl]%map_lookup_filter_Some]. eauto.
  - intros (e & He & Hl). exists e. by apply map_lookup_filter_Some.
Qed.

Lemma listed_after run id m :
  listed (delete id (ready_map run m)) = listed m ∖ {[id]}.
Proof.
  apply set_eq. intros x. rewrite elem_of_difference, elem_of_singleton, !elem_of_listed. split.
  - intros (ex & (Hx & e & He & ->)%lookup_after & Hl). split; [|done]. exists e.
    split; [done|]. by case_decide.
  - intros [(e & He & Hl) Hx]. eexists. split; [apply lookup_after; eauto|].
    by case_decide.
Qed.

Lemma compatible_set_state a b s t :
  compatible a b → compatible (set_state a s) (set_state b t).
Proof. done. Qed.

Lemma queue_split_mono m m' h act wait :
  (∀ x, x ∈ act ++ wait → m' !! x = m !! x) →
  queue_split m h act wait → queue_split m' h act wait.
Proof.
  intros Hsame (Hn & Ha & Hw & Hc). split_and!; [done| | |].
  - rewrite Forall_forall in Ha |- *. intros x Hx. destruct (Ha x Hx) as (e & He & ?).
    exists e. rewrite Hsame by set_solver. done.
  - rewrite Forall_forall in Hw |- *. intros x Hx. destruct (Hw x Hx) as (e & He & ?).
    exists e. rewrite Hsame by set_solver. done.
  - intros a b ea eb Hx Hy Hne. rewrite !Hsame by set_solver. by apply Hc.
Qed.

(** Removing [id] from a list and waking the run behind it. *)
Lemma queue_split_wake m h act wait id run tail :
  queue_split m h act wait → filter (λ x, x ≠ id) wait = run ++ tail →
  filter (λ x, x ≠ id) act = [] ∨ run = [] → pairwise_compatible m run →
  queue_split (delete id (ready_map run m)) h (filter (λ x, x ≠ id) act ++ run) tail.
Proof.
  intros (Hn & Ha & Hw & Hc) Hrt Hor Hrun.
  assert (NoDup (filter (λ x, x ≠ id) (act ++ wait))) as Hn' by (by apply NoDup_filter).
  rewrite filter_app, Hrt in Hn'. pose proof Hn' as Hnd.
  apply NoDup_app in Hnd as (_ & Hd1 & (_ & Hd2 & _)%NoDup_app).
  assert (∀ x, x ∈ run ++ tail → x ∈ wait ∧ x ≠ id) as Hin.
  { intros x. rewrite <- Hrt, list_elem_of_filter. tauto. }
  rewrite Forall_forall in Ha, Hw. split_and!.
  - by rewrite <- app_assoc.
  - apply Forall_app. split; apply Forall_forall; intros x Hx.
    + assert (x ∈ run → False) by (intros; apply (Hd1 x Hx); set_solver).
      apply list_elem_of_filter in Hx as [Hxi Hx]. destruct (Ha x Hx) as (e & He & Hrest).
      exists e. split; [|done]. apply lookup_after. split; [done|]. exists e.
      split; [done|]. by rewrite decide_False.
    + destruct (Hin x) as [Hx' Hxi]; [set_solver|].
      destruct (Hw x Hx') as (e & He & Hl & Hh & Hm & Hst).
      exists (set_state e REQ_READY_TO_SCHEDULE). split_and!; try done; [|by right].
      apply lookup_after. split; [done|]. exists e. split; [done|]. by rewrite decide_True.
  - apply Forall_forall. intros x Hx. destruct (Hin x) as [Hx' Hxi]; [set_solver|].
    destruct (Hw x Hx') as (e & He & Hrest). exists e. split; [|done].
    apply lookup_after. split; [done|]. exists e. split; [done|].
    rewrite decide_False; [done|]. intros ?. by apply (Hd2 x).
  - intros a b ea eb Hxa Hxb Hne (_ & e1 & He1 & ->)%lookup_after (_ & e2 & He2 & ->)%lookup_after.
    assert (compatible e1 e2) as Hcc.
    { destruct Hor as [Hf| ->].
      - rewrite Hf in Hxa, Hxb. by apply (Hrun a b).
      - rewrite app_nil_r in Hxa, Hxb. apply list_elem_of_filter in Hxa as [_ Hxa], Hxb as [_ Hxb].
        by apply (Hc a b). }
    do 2 case_decide; done.
Qed.

(** The state after request [id] has left the list of handle [h], which is now
    [q], and the requests of [run] have become ready. *)
Definition departed (st : sched) (id : positive) (h : Z) (q run : list positive) : sched :=
  mkSched (delete id (ready_map run (elems st)))
    (if decide (q = []) then delete h (req_sched_table st) else <[h := q]> (req_sched_table st))
    (filter (λ x, x ≠ id) (ready_queue st) ++ run) (timer_queue st) (mode_queue st)
    (sched_count st - 1) (current_mode st).

Section depart.
Context (st : sched) (Hinv : sched_inv st) (id : positive) (e : req_sched_element).
Context (He : elems st !! id = Some e) (Hl : list_head e = true).
Context (act wait run tail : list positive).
Context (Ht : req_sched_table st !! handle e = Some (act ++ wait)).
Context (Hsplit : queue_split (elems st) (handle e) act wait).
Context (Hrt : filter (λ x, x ≠ id) wait = run ++ tail).
Context (Hor : filter (λ x, x ≠ id) act = [] ∨ run = []).
Context (Hne : filter (λ x, x ≠ id) (act ++ wait) ≠ [] → filter (λ x, x ≠ id) act ++ run ≠ []).
Context (Hrun : pairwise_compatible (elems st) run).

Let q' := filter (λ x, x ≠ id) (act ++ wait).

Lemma depart_run x :
  x ∈ run → x ≠ id ∧ ∃ ex, elems st !! x = Some ex ∧ list_head ex = true ∧
    handle ex = handle e ∧ mode_change ex = false ∧ state ex = REQ_QUEUED.
Proof.
  intros Hx. assert (x ∈ run ++ tail) as Hx' by set_solver.
  rewrite <- Hrt in Hx'. apply list_elem_of_filter in Hx' as [? Hx'].
  destruct Hsplit as (_ & _ & Hw & _). rewrite Forall_forall in Hw. split; [done|].
  destruct (Hw x Hx') as (ex & ?). eauto.
Qed.

(** Requests that are not on this handle are not touched. *)
Lemma depart_other x ex :
  (list_head ex = true → handle ex ≠ handle e) → elems st !! x = Some ex →
  elems (departed st id (handle e) q' run) !! x = Some ex.
Proof.
  intros Hh Hx. simpl. apply lookup_after. split; [intros ->; simplify_eq; naive_solver|].
  exists ex. split; [done|]. rewrite decide_False; [done|].
  intros (_ & e' & He' & ? & ? & _)%depart_run. simplify_eq. naive_solver.
Qed.

Lemma depart_queues h q :
  req_sched_table (departed st id (handle e) q' run) !! h = Some q →
  queue_ok (elems (departed st id (handle e) q' run)) h q.
Proof.
  simpl. destruct (decide (h = handle e)) as [->|Hh].
  - case_decide as Hq; [by rewrite lookup_delete_eq|]. rewrite lookup_insert_eq. intros [= <-].
    exists (filter (λ x, x ≠ id) act ++ run), tail. split_and!.
    + unfold q'. by rewrite filter_app, Hrt, app_assoc.
    + by apply Hne.
    + by apply queue_split_wake with wait.
  - intros Hq. assert (req_sched_table st !! h = Some q) as Hq0.
    { destruct (decide (q' = [])); by rewrite ?lookup_delete_ne, ?lookup_insert_ne in Hq by done. }
    destruct (si_queues st Hinv h q Hq0) as (a & w & -> & Ha & Hs). exists a, w.
    split_and!; [done|done|]. revert Hs. apply queue_split_mono. intros x Hx.
    destruct (si_queues st Hinv h _ Hq0) as (a' & w' & Heq & _ & Hs').
    destruct Hs' as (_ & H1 & H2 & _). rewrite Heq in Hx. rewrite Forall_forall in H1, H2.
    apply elem_of_app in Hx as [(ex & Hex & ? & ? & _)%H1|(ex & Hex & ? & ? & _)%H2];
      rewrite Hex; apply depart_other; congruence.
Qed.

Lemma depart_listed x ex :
  elems (departed st id (handle e) q' run) !! x = Some ex → list_head ex = true →
  ∃ q, req_sched_table (departed st id (handle e) q' run) !! handle ex = Some q ∧ x ∈ q.
Proof.
  simpl. intros (Hx & e0 & He0 & ->)%lookup_after Hlx.
  assert (list_head e0 = true) as Hl0 by (by case_decide).
  replace (handle _) with (handle e0) by (by case_decide).
  destruct (si_listed st Hinv x e0 He0 Hl0) as (q & Hq & Hxq).
  destruct (decide (handle e0 = handle e)) as [Hh|Hh].
  - rewrite Hh in Hq |- *. rewrite Ht in Hq. simplify_eq.
    assert (x ∈ q') as Hx' by (by apply list_elem_of_filter).
    exists q'. rewrite decide_False by (intros Hn; rewrite Hn in Hx'; by apply not_elem_of_nil in Hx').
    by rewrite lookup_insert_eq.
  - exists q. destruct (decide (q' = [])); by rewrite ?lookup_delete_ne, ?lookup_insert_ne by congruence.
Qed.

Lemma depart_ready x :
  x ∈ ready_queue (departed st id (handle e) q' run) ↔
  ∃ ex, elems (departed st id (handle e) q' run) !! x = Some ex ∧
    state ex = REQ_READY_TO_SCHEDULE.
Proof.
  simpl. rewrite elem_of_app, list_elem_of_filter, (si_ready st Hinv). split.
  - intros [(Hx & ex & Hex & Hs)|Hx].
    + eexists. split; [apply lookup_after; eauto|]. by case_decide.
    + destruct (depart_run x Hx) as (Hxi & ex & Hex & _).
      eexists. split; [apply lookup_after; eauto|]. by rewrite decide_True.
  - intros (ex & (Hx & e0 & He0 & ->)%lookup_after & Hs). case_decide; eauto 6.
Qed.

Lemma depart_ready_nodup : NoDup (ready_queue (departed st id (handle e) q' run)).
Proof.
  simpl. apply NoDup_app. split_and!.
  - apply NoDup_filter, (si_ready_nodup st Hinv).
  - intros x [_ (ex & Hex & Hs)%(si_ready st Hinv)]%list_elem_of_filter
      (_ & e0 & He0 & _ & _ & _ & Hq)%depart_run. congruence.
  - destruct Hsplit as (Hn & _). apply NoDup_app in Hn as (_ & _ & Hn).
    apply (NoDup_filter (λ x, x ≠ id)) in Hn. rewrite Hrt in Hn. by apply NoDup_app in Hn as [? _].
Qed.

(** What holds of an element before holds of it after, when it does not
    depend on the state. *)
Lemma depart_back x ex :
  elems (departed st id (handle e) q' run) !! x = Some ex →
  x ≠ id ∧ ∃ e0, elems st !! x = Some e0 ∧
    (ex = e0 ∨ (list_head e0 = true ∧ mode_change e0 = false ∧ state e0 = REQ_QUEUED ∧
      ex = set_state e0 REQ_READY_TO_SCHEDULE)).
Proof.
  simpl. intros (Hx & e0 & He0 & ->)%lookup_after. split; [done|]. exists e0. split; [done|].
  case_decide as Hr; [right|by left].
  destruct (depart_run x Hr) as (_ & e1 & He1 & ? & _ & ? & ?). by simplify_eq.
Qed.

Lemma depart_unlisted x ex :
  list_head ex = false →
  elems (departed st id (handle e) q' run) !! x = Some ex ↔ elems st !! x = Some ex.
Proof.
  intros Hlx. split; [|apply depart_other; congruence].
  intros (_ & e0 & He0 & [->|(? & _ & _ & ->)])%depart_back; simpl in *; congruence.
Qed.

Lemma depart_inv : sched_inv (departed st id (handle e) q' run).
Proof.
  split.
  - apply depart_queues.
  - apply depart_listed.
  - apply depart_ready_nodup.
  - apply depart_ready.
  - cbn [sched_count departed elems]. rewrite listed_after, (si_count st Hinv).
    assert (id ∈ listed (elems st)) as Hin by (apply elem_of_listed; eauto).
    rewrite size_difference by set_solver. rewrite size_singleton.
    assert (size (listed (elems st)) ≠ 0%nat); [|lia].
    intros Hz%size_empty_inv. set_solver.
  - cbn [sched_count departed]. pose proof (si_bound st Hinv). lia.
  - apply (si_mode_nodup st Hinv).
  - intros x. change (mode_queue _) with (mode_queue st). rewrite (si_mode st Hinv). split.
    + intros (ex & Hex & Hm). destruct (si_mode_unlisted st Hinv x ex Hex Hm) as [Hlx _].
      exists ex. by rewrite depart_unlisted.
    + intros (ex & (Hxi & e0 & He0 & [->|(_ & Hm & _ & ->)])%depart_back & Hmx);
        [eauto|simpl in *; congruence].
  - intros x ex (Hxi & e0 & He0 & [->|(_ & Hm & _ & ->)])%depart_back Hmx;
      [by apply (si_mode_unlisted st Hinv x)|simpl in *; congruence].
  - intros i rest x ex Hmq Hxr (Hxi & e0 & He0 & [->|(? & _ & _ & ->)])%depart_back.
    + by apply (si_mode_tail st Hinv i rest x).
    + destruct (si_mode st Hinv x) as [Hm _]. change (mode_queue st = i :: rest) in Hmq.
      rewrite Hmq in Hm. destruct Hm as (e1 & He1 & Hm1); [by right|].
      destruct (si_mode_unlisted st Hinv x e1 He1 Hm1). congruence.
  - apply (si_timer_nodup st Hinv).
  - intros x. change (timer_queue _) with (timer_queue st). rewrite (si_timer st Hinv). split.
    + intros (ex & Hex & Hm). destruct (si_timer_unlisted st Hinv x ex Hex Hm) as [Hlx _].
      exists ex. by rewrite depart_unlisted.
    + intros (ex & (Hxi & e0 & He0 & [->|(_ & Hm & _ & ->)])%depart_back & Hmx); [eauto|done].
  - intros x ex (Hxi & e0 & He0 & [->|(_ & Hm & _ & ->)])%depart_back Hmx;
      [by apply (si_timer_unlisted st Hinv x)|done].
  - intros x ex Hex Hlx. apply depart_unlisted in Hex; [|done]. by apply (si_kinds st Hinv x).
  - intros Hcl x ex (Hxi & e0 & He0 & Hor')%depart_back Hlx.
    assert (¬ modifying e0) as Hnm.
    { apply (si_admin st Hinv) with x; [|done|by destruct Hor' as [->|(? & _ & _ & ->)]].
      destruct Hcl as [Hcl|(i & rest & ei & Hmq & Hei & Hmode & Hst)]; [by left|right].
      destruct (si_mode st Hinv i) as [(e1 & He1 & Hm1) _].
      { change (mode_queue st = i :: rest) in Hmq. rewrite Hmq. by left. }
      destruct (si_mode_unlisted st Hinv i e1 He1 Hm1) as [Hl1 _].
      apply (depart_unlisted i e1 Hl1) in He1 as He1'. exists i, rest, e1. split_and!; [done..| |];
        congruence. }
    by destruct Hor' as [->|(? & _ & _ & ->)].
Qed.
End depart.

(** * A request or a mode change advances *)

Lemma no_listed st : sched_inv st → sched_count st = 0 →
  ∀ id e, elems st !! id = Some e → list_head e = true → False.
Proof.
  intros Hinv Hc id e He Hl. rewrite (si_count st Hinv) in Hc.
  assert (size (listed (elems st)) = 0%nat) as Hz%size_empty_inv by lia.
  assert (id ∈ listed (elems st)) by (apply elem_of_listed; eauto). set_solver.
Qed.

Lemma listed_set_state m id e s :
  m !! id = Some e → listed (<[id := set_state e s]> m) = listed m.
Proof.
  intros He. apply set_eq. intros x. rewrite !elem_of_listed. split.
  - intros (ex & [[-> <-]|[? ?]]%lookup_insert_Some & Hl); eauto.
  - intros (ex & Hex & Hl). destruct (decide (x = id)) as [->|].
    + simplify_eq. eexists. by rewrite lookup_insert_eq.
    + exists ex. by rewrite lookup_insert_ne.
Qed.

Lemma on_handle_advance m h id e s x :
  m !! id = Some e → active e → s ≠ REQ_QUEUED → s ≠ REQ_TIMING →
  on_handle m h active x → on_handle (<[id := set_state e s]> m) h active x.
Proof.
  intros He Ha Hs1 Hs2 (ex & Hex & Hrest). destruct (decide (x = id)) as [->|].
  - simplify_eq. exists (set_state e s). rewrite lookup_insert_eq. split; [done|].
    destruct Hrest as (? & ? & ? & _). split_and!; try done. destruct s; by (left + right).
  - exists ex. by rewrite lookup_insert_ne.
Qed.

Lemma queue_ok_advance m h q id e s :
  m !! id = Some e → list_head e = false ∨ active e → s ≠ REQ_QUEUED → s ≠ REQ_TIMING →
  queue_ok m h q → queue_ok (<[id := set_state e s]> m) h q.
Proof.
  intros He Hor Hs1 Hs2 (act & wait & -> & Hne & Hn & Ha & Hw & Hc).
  exists act, wait. split_and!; [done|done|]. split_and!; [done| | |].
  - eapply Forall_impl; [done|]. intros x Hx. destruct Hor as [Hl|Hact].
    + destruct Hx as (ex & Hex & Hlx & Hrest). exists ex.
      rewrite lookup_insert_ne by congruence. done.
    + by apply on_handle_advance.
  - eapply Forall_impl; [done|]. intros x (ex & Hex & Hlx & Hh & Hm & Hq). exists ex.
    rewrite lookup_insert_ne; [done|]. intros ->. simplify_eq.
    destruct Hor as [?|[?|?]]; congruence.
  - intros a b ea eb Ha' Hb' Hab [[<- <-]|[? Hea]]%lookup_insert_Some
      [[<- <-]|[? Heb]]%lookup_insert_Some;
      [done|by apply (Hc id b e eb)|by apply (Hc a id ea e)|by apply (Hc a b ea eb)].
Qed.

(** An element changes its state to [s], which is scheduled or ready. *)
Lemma advance_inv st st' id e s :
  sched_inv st → elems st !! id = Some e → elems st' = <[id := set_state e s]> (elems st) →
  req_sched_table st' = req_sched_table st → sched_count st' = sched_count st →
  mode_queue st' = mode_queue st → timer_queue st' = timer_queue st →
  s ≠ REQ_QUEUED → s ≠ REQ_TIMING → state e ≠ REQ_TIMING →
  NoDup (ready_queue st') →
  (∀ x, x ∈ ready_queue st' ↔
     (x = id ∧ s = REQ_READY_TO_SCHEDULE) ∨ (x ≠ id ∧ x ∈ ready_queue st)) →
  list_head e = false ∨ active e →
  (mode_change e = true → head (mode_queue st) = Some id) →
  (closing st' → closing st ∨ sched_count st = 0) →
  sched_inv st'.
Proof.
  intros Hinv He Hel Htab Hcnt Hmq Htq Hs1 Hs2 Ht Hrn Hr Hla Hhd Hcl.
  split; rewrite ?Htab, ?Hcnt, ?Hmq, ?Htq, ?Hel.
  - intros h q Hq. apply queue_ok_advance; try done. by apply (si_queues st Hinv).
  - intros x ex [[<- <-]|[? Hex]]%lookup_insert_Some Hl;
      [by apply (si_listed st Hinv id e)|by apply (si_listed st Hinv)].
  - done.
  - intros x. rewrite Hr, (si_ready st Hinv). split.
    + intros [[-> ->]|[Hx (ex & Hex & Hst)]].
      * eexists. by rewrite lookup_insert_eq.
      * exists ex. by rewrite lookup_insert_ne by done.
    + intros (ex & [[<- <-]|[? Hex]]%lookup_insert_Some & Hst); eauto 6.
  - rewrite (listed_set_state _ _ e) by done. apply (si_count st Hinv).
  - apply (si_bound st Hinv).
  - apply (si_mode_nodup st Hinv).
  - intros x. rewrite (si_mode st Hinv). split.
    + intros (ex & Hex & Hm). destruct (decide (x = id)) as [->|].
      * simplify_eq. eexists. by rewrite lookup_insert_eq.
      * exists ex. by rewrite lookup_insert_ne.
    + intros (ex & [[<- <-]|[? Hex]]%lookup_insert_Some & Hm); eauto.
  - intros x ex [[<- <-]|[? Hex]]%lookup_insert_Some Hm; [|by eapply (si_mode_unlisted st Hinv)].
    split; [|done]. by apply (si_mode_unlisted st Hinv id e He).
  - intros i rest x ex Hq Hx [[<- <-]|[? Hex]]%lookup_insert_Some;
      [|by eapply (si_mode_tail st Hinv)].
    assert (mode_change e = true) as Hm.
    { destruct (si_mode st Hinv id) as [Hm _]. rewrite Hq in Hm.
      destruct Hm as (e1 & ? & ?); [by right|]. by simplify_eq. }
    apply Hhd in Hm. rewrite Hq in Hm. simplify_eq/=.
    pose proof (si_mode_nodup st Hinv) as Hn. rewrite Hq in Hn. by apply NoDup_cons in Hn as [? _].
  - apply (si_timer_nodup st Hinv).
  - intros x. rewrite (si_timer st Hinv). split.
    + intros (ex & Hex & Hm). exists ex. rewrite lookup_insert_ne by congruence. done.
    + intros (ex & [[<- <-]|[? Hex]]%lookup_insert_Some & Hm); [done|eauto].
  - intros x ex [[<- <-]|[? Hex]]%lookup_insert_Some Hm; [done|by eapply (si_timer_unlisted st Hinv)].
  - intros x ex [[<- <-]|[? Hex]]%lookup_insert_Some Hl; [|by eapply (si_kinds st Hinv)].
    destruct (si_kinds st Hinv id e He Hl); [by left|done].
  - intros [Hc|Hc]%Hcl x ex Hex Hl.
    + apply lookup_insert_Some in Hex as [[<- <-]|[? Hex]];
        [by apply (si_admin st Hinv Hc id e)|by eapply (si_admin st Hinv Hc)].
    + exfalso. apply lookup_insert_Some in Hex as [[<- <-]|[? Hex]]; by eapply (no_listed st).
Qed.

(** An element that is in no list of a handle goes away. *)
Lemma forget_inv st st' id e :
  sched_inv st → elems st !! id = Some e → list_head e = false →
  elems st' = delete id (elems st) → req_sched_table st' = req_sched_table st →
  sched_count st' = sched_count st → current_mode st' = current_mode st →
  mode_queue st' = filter (λ x, x ≠ id) (mode_queue st) →
  timer_queue st' = filter (λ x, x ≠ id) (timer_queue st) →
  ready_queue st' = filter (λ x, x ≠ id) (ready_queue st) →
  sched_inv st'.
Proof.
  intros Hinv He Hl Hel Htab Hcnt Hcur Hmq Htq Hrq.
  split; rewrite ?Htab, ?Hcnt, ?Hmq, ?Htq, ?Hrq, ?Hel.
  - intros h q Hq. destruct (si_queues st Hinv h q Hq) as (a & w & -> & Hne & Hs).
    exists a, w. split_and!; [done|done|]. pose proof Hs as (_ & Ha & Hw & _). revert Hs.
    apply queue_split_mono. intros x Hx. rewrite Forall_forall in Ha, Hw.
    apply lookup_delete_ne. intros <-.
    apply elem_of_app in Hx as [(ex & ? & ? & _)%Ha|(ex & ? & ? & _)%Hw]; congruence.
  - intros x ex [? Hex]%lookup_delete_Some Hlx. by eapply (si_listed st Hinv).
  - apply NoDup_filter, (si_ready_nodup st Hinv).
  - intros x. rewrite list_elem_of_filter, (si_ready st Hinv).
    setoid_rewrite lookup_delete_Some. naive_solver.
  - rewrite (si_count st Hinv). do 2 f_equal. apply set_eq. intros x.
    rewrite !elem_of_listed. setoid_rewrite lookup_delete_Some.
    split; [|naive_solver]. intros (ex & ? & ?). exists ex. split_and!; congruence.
  - apply (si_bound st Hinv).
  - apply NoDup_filter, (si_mode_nodup st Hinv).
  - intros x. rewrite list_elem_of_filter, (si_mode st Hinv).
    setoid_rewrite lookup_delete_Some. naive_solver.
  - intros x ex [? Hex]%lookup_delete_Some. by eapply (si_mode_unlisted st Hinv).
  - intros i rest x ex Hq Hx [Hxi Hex]%lookup_delete_Some.
    destruct (mode_queue st) as [|i' rest'] eqn:Hmq'; [done|].
    assert (x ∈ rest') as Hx'; [|by eapply (si_mode_tail st Hinv)].
    rewrite filter_cons in Hq. case_decide; simplify_eq.
    + by apply list_elem_of_filter in Hx as [_ ?].
    + assert (x ∈ filter (λ x, x ≠ id) rest') as [_ ?]%list_elem_of_filter; [|done].
      rewrite Hq. by right.
  - apply NoDup_filter, (si_timer_nodup st Hinv).
  - intros x. rewrite list_elem_of_filter, (si_timer st Hinv).
    setoid_rewrite lookup_delete_Some. naive_solver.
  - intros x ex [? Hex]%lookup_delete_Some. by eapply (si_timer_unlisted st Hinv).
  - intros x ex [? Hex]%lookup_delete_Some. by eapply (si_kinds st Hinv).
  - intros Hcl x ex [? Hex]%lookup_delete_Some Hlx. eapply (si_admin st Hinv); [|done..].
    destruct Hcl as [Hc|(i & rest & ei & Hq & Hei & Hm & Hst)]; [left; congruence|right].
    rewrite Hmq in Hq. rewrite Hel in Hei. apply lookup_delete_Some in Hei as [Hii Hei].
    destruct (mode_queue st) as [|i' rest'] eqn:Hmq'; [done|].
    rewrite filter_cons in Hq. case_decide; simplify_eq; [by exists i, rest', ei|].
    destruct Hst. eapply (si_mode_tail st Hinv _ _ i); [done| |done].
    assert (i ∈ filter (λ x, x ≠ id) rest') as [_ ?]%list_elem_of_filter; [|done].
    rewrite Hq. by left.
Qed.

(** * A new element *)

Lemma queue_ok_fresh m h q id e :
  m !! id = None → queue_ok m h q → queue_ok (<[id := e]> m) h q.
Proof.
  intros Hid (a & w & -> & Hne & Hs). exists a, w. split_and!; [done|done|].
  pose proof Hs as (_ & Ha & Hw & _). revert Hs. apply queue_split_mono. intros x Hx.
  rewrite Forall_forall in Ha, Hw. apply lookup_insert_ne. intros <-.
  apply elem_of_app in Hx as [(ex & ? & _)%Ha|(ex & ? & _)%Hw]; congruence.
Qed.

(** A mode change that waits, or a timer. *)
Lemma arrive_inv st st' id e :
  sched_inv st → elems st !! id = None → list_head e = false →
  (mode_change e = true ∧ state e = REQ_QUEUED ∧
     mode_queue st' = mode_queue st ++ [id] ∧ timer_queue st' = timer_queue st) ∨
  (mode_change e = false ∧ state e = REQ_TIMING ∧
     mode_queue st' = mode_queue st ∧ timer_queue st' ≡ₚ id :: timer_queue st) →
  elems st' = <[id := e]> (elems st) → req_sched_table st' = req_sched_table st →
  sched_count st' = sched_count st → current_mode st' = current_mode st →
  ready_queue st' = ready_queue st → sched_inv st'.
Proof.
  intros Hinv Hid Hl Hkind Hel Htab Hcnt Hcur Hrq.
  assert (id ∉ mode_queue st) as Hnm.
  { rewrite (si_mode st Hinv). intros (? & ? & _). congruence. }
  assert (id ∉ timer_queue st) as Hnt.
  { rewrite (si_timer st Hinv). intros (? & ? & _). congruence. }
  assert (∀ x, x ∈ mode_queue st' ↔ x ∈ mode_queue st ∨ (x = id ∧ mode_change e = true)) as Hm'.
  { intros x. destruct Hkind as [(? & _ & -> & _)|(? & _ & -> & _)]; [set_solver|].
    split; [by left|]. intros [?|[_ ?]]; [done|congruence]. }
  assert (∀ x, x ∈ timer_queue st' ↔ x ∈ timer_queue st ∨ (x = id ∧ state e = REQ_TIMING)) as Ht'.
  { intros x. destruct Hkind as [(_ & Hs & _ & ->)|(_ & Hs & _ & Hp)].
    - split; [by left|]. intros [?|[_ ?]]; [done|congruence].
    - rewrite Hp. set_solver. }
  split; rewrite ?Htab, ?Hcnt, ?Hrq, ?Hel.
  - intros h q Hq. by apply queue_ok_fresh, (si_queues st Hinv).
  - intros x ex [[<- <-]|[? Hex]]%lookup_insert_Some Hlx; [congruence|by apply (si_listed st Hinv)].
  - apply (si_ready_nodup st Hinv).
  - intros x. rewrite (si_ready st Hinv). setoid_rewrite lookup_insert_Some. split.
    + intros (ex & Hex & ?). exists ex. split; [right; split; congruence|done].
    + intros (ex & [[<- <-]|[? Hex]] & ?); [|eauto].
      destruct Hkind as [(_ & ? & _)|(_ & ? & _)]; congruence.
  - rewrite (si_count st Hinv). do 2 f_equal. apply set_eq. intros x. rewrite !elem_of_listed.
    setoid_rewrite lookup_insert_Some. split.
    + intros (ex & Hex & ?). exists ex. split; [right; split; congruence|done].
    + intros (ex & [[<- <-]|[? Hex]] & ?); [congruence|eauto].
  - apply (si_bound st Hinv).
  - destruct Hkind as [(_ & _ & -> & _)|(_ & _ & -> & _)]; [|apply (si_mode_nodup st Hinv)].
    apply NoDup_app. split_and!; [apply (si_mode_nodup st Hinv)|set_solver|apply NoDup_singleton].
  - intros x. rewrite Hm', (si_mode st Hinv). setoid_rewrite lookup_insert_Some. split.
    + intros [(ex & Hex & ?)|[-> ?]]; [|eauto 6]. exists ex. split; [right; split; congruence|done].
    + intros (ex & [[<- <-]|[? Hex]] & ?); eauto.
  - intros x ex [[<- <-]|[? Hex]]%lookup_insert_Some; [|by apply (si_mode_unlisted st Hinv x)].
    intros. split; [done|]. destruct Hkind as [(_ & -> & _)|(? & _)]; [done|congruence].
  - intros i rest x ex Hq Hx [[<- <-]|[? Hex]]%lookup_insert_Some.
    + destruct Hkind as [(_ & ? & _)|(? & _)]; [done|].
      destruct (Hm' id) as [[?|[_ ?]] _]; [rewrite Hq; by right|done|congruence].
    + assert (x ∈ mode_queue st) as Hx'.
      { destruct (Hm' x) as [[?|[? _]] _]; [rewrite Hq; by right|done|congruence]. }
      destruct Hkind as [(_ & _ & Hmq & _)|(_ & _ & Hmq & _)]; rewrite Hmq in Hq;
        [|by apply (si_mode_tail st Hinv i rest x)].
      destruct (mode_queue st) as [|i' rest'] eqn:E; [by apply not_elem_of_nil in Hx'|].
      simplify_eq/=. apply (si_mode_tail st Hinv i rest' x); [done| |done].
      set_solver.
  - destruct Hkind as [(_ & _ & _ & ->)|(_ & _ & _ & ->)]; [apply (si_timer_nodup st Hinv)|].
    apply NoDup_cons. split; [done|apply (si_timer_nodup st Hinv)].
  - intros x. rewrite Ht', (si_timer st Hinv). setoid_rewrite lookup_insert_Some. split.
    + intros [(ex & Hex & ?)|[-> ?]]; [|eauto 6]. exists ex. split; [right; split; congruence|done].
    + intros (ex & [[<- <-]|[? Hex]] & ?); eauto.
  - intros x ex [[<- <-]|[? Hex]]%lookup_insert_Some; [|by apply (si_timer_unlisted st Hinv x)].
    intros. split; [done|]. destruct Hkind as [(_ & ? & _)|(? & _)]; [congruence|done].
  - intros x ex [[<- <-]|[? Hex]]%lookup_insert_Some; [|by apply (si_kinds st Hinv x)].
    intros. destruct Hkind as [(? & _)|(_ & ? & _)]; [by left|by right].
  - intros Hcl x ex [[<- <-]|[? Hex]]%lookup_insert_Some Hlx; [congruence|].
    apply (si_admin st Hinv) with x; [|done..].
    destruct Hcl as [Hc|(i & rest & ei & Hq & Hei & Hm & Hst)]; [left; congruence|right].
    rewrite Hel in Hei. apply lookup_insert_Some in Hei as [[<- <-]|[? Hei]].
    + destruct Hkind as [(_ & ? & _)|(? & _ & Hmq & _)]; [done|]. rewrite Hmq in Hq.
      destruct Hnm. rewrite Hq. by left.
    + destruct Hkind as [(_ & _ & Hmq & _)|(_ & _ & Hmq & _)]; rewrite Hmq in Hq; [|eauto 10].
      destruct (mode_queue st) as [|i' rest']; simplify_eq/=. eauto 10.
Qed.

Lemma get_Done st id e : elems st !! id = Some e → get st id = Done e.
Proof. intros He. unfold get. by rewrite He. Qed.

Lemma mapM_get st q :
  Forall (λ id, is_Some (elems st !! id)) q →
  ∃ es, mapM (get st) q = Done es ∧ Forall2 (λ id e, elems st !! id = Some e) q es.
Proof.
  induction 1 as [|id q [e He] _ (es & Hes & Hf)]; [by exists []|].
  exists (e :: es). split; [|by constructor].
  change (mapM (get st) (id :: q)) with (x ← get st id; l ← mapM (get st) q; Done (x :: l)).
  by rewrite Hes, (get_Done st id e).
Qed.

Lemma queue_split_present m h act wait id :
  queue_split m h act wait → id ∈ act ++ wait →
  ∃ e, m !! id = Some e ∧ list_head e = true ∧ handle e = h ∧ mode_change e = false ∧
    (active e ∧ id ∈ act ∨ state e = REQ_QUEUED ∧ id ∈ wait).
Proof.
  intros (_ & Ha & Hw & _) Hx. rewrite Forall_forall in Ha, Hw.
  apply elem_of_app in Hx as [Hx|Hx]; [destruct (Ha id Hx) as (e & ?)|destruct (Hw id Hx) as (e & ?)];
    exists e; naive_solver.
Qed.

(** A new request starts at once only when nothing waits and it is compatible
    with every request that is active. *)
Lemma post_decide_spec st h act wait o a :
  act ≠ [] → queue_split (elems st) h act wait →
  ∃ s a' ret, post_decide st (act ++ wait) o a = Done (s, a', ret) ∧
    (a' = a ∨ is_dirent o) ∧
    ((s = REQ_QUEUED ∧ ret = 0) ∨
     (s = REQ_SCHEDULED ∧ ret = 1 ∧ wait = [] ∧
      ∀ b eb e, b ∈ act → elems st !! b = Some eb → op e = o → access_type e = a' →
        compatible e eb ∧ compatible eb e)).
Proof.
  intros Hne Hs. unfold post_decide. destruct act as [|n act]; [done|]. cbn [app].
  destruct (exists_last (l := n :: act ++ wait)) as (q0 & l & Hql); [done|].
  assert (last (n :: act ++ wait) = Some l) as -> by (rewrite Hql; apply last_snoc).
  destruct (queue_split_present _ _ _ _ n Hs) as (en & Hen & _); [by left|].
  destruct (queue_split_present _ _ _ _ l Hs) as (el & Hel & _ & _ & _ & Hlst).
  { cbn [app]. rewrite Hql. set_solver. }
  destruct (mapM_get st (n :: act ++ wait)) as (es & Hes & Hf).
  { apply Forall_forall. intros x Hx.
    destruct (queue_split_present _ _ _ _ x Hs Hx) as (ex & -> & _). eauto. }
  rewrite Hes, (get_Done st n en), (get_Done st l el) by done. cbn [mbind exec_bind].
  set (both := bool_decide (state en = _) && _).
  assert (both = true → wait = []) as Hboth.
  { intros [_ Hl]%andb_prop. apply bool_decide_eq_true in Hl.
    destruct wait as [|w wait _] using rev_ind; [done|exfalso].
    rewrite app_assoc, app_comm_cons in Hql. apply app_inj_tail in Hql as [_ ->].
    destruct Hs as (_ & _ & Hw & _). rewrite Forall_forall in Hw.
    destruct (Hw l) as (e' & He' & _ & _ & _ & Hq); [set_solver|]. congruence. }
  clearbody both.
  assert (∀ b eb, b ∈ n :: act ++ wait → elems st !! b = Some eb → eb ∈ es) as Hin.
  { intros b eb Hb Heb. apply list_elem_of_lookup in Hb as [i Hi].
    destruct (Forall2_lookup_l _ _ _ _ _ Hf Hi) as (e' & Hi' & He').
    simplify_eq. by eapply list_elem_of_lookup_2. }
  case_match eqn:E1; [apply andb_prop in E1 as [Ho Hb]; apply bool_decide_eq_true in Ho|].
  { destruct (forallb _ es) eqn:E2; [|by repeat eexists; [by left|left]].
    exists REQ_SCHEDULED, a, 1. split_and!; [done|by left|right]. split_and!; [done|done|auto|].
    intros b eb e Hx Heb Hop _. rewrite forallb_forall in E2.
    assert (op eb = PVFS_SERV_IO).
    { eapply bool_decide_eq_true, E2, list_elem_of_In, (Hin b); [set_solver|done]. }
    split; left; split; congruence. }
  case_match eqn:E2; [apply andb_prop in E2 as [Ho Hb]; apply bool_decide_eq_true in Ho|].
  { destruct (existsb _ es) eqn:E3; [by repeat eexists; [by left|left]|].
    exists REQ_SCHEDULED, a, 1. split_and!; [done|by left|right]. split_and!; [done|done|auto|].
    intros b eb e Hx Heb _ Hac.
    assert (access_type eb = PINT_SERVER_REQ_READONLY).
    { destruct (access_type eb) eqn:Hbt; [done|exfalso]. eapply not_true_iff_false; [exact E3|].
      apply existsb_exists. exists eb. rewrite <- list_elem_of_In, bool_decide_eq_true.
      split; [|done]. apply (Hin b); [set_solver|done]. }
    split; right; left; split; congruence. }
  case_match eqn:E3; [apply andb_prop in E3 as [Ho Hb]|by repeat eexists; [by left|left]].
  assert (is_dirent o) as Hd.
  { apply orb_prop in Ho as [Ho|Ho]; apply bool_decide_eq_true in Ho; by (left + right). }
  do 3 eexists. split_and!; [done|by right|right]. split_and!; [done|done|auto|].
  intros b eb e _ _ <- _. split; right; right; [by left|by right].
Qed.

(** A request joins the list of its handle. *)
Definition joined (st : sched) (id : positive) (e : req_sched_element) (q : list positive) :=
  set_sched_count (set_table (put st id e) (<[handle e := q ++ [id]]> (req_sched_table st)))
    (sched_count st + 1).

Lemma join_inv st id e q :
  sched_inv st → elems st !! id = None → list_head e = true → mode_change e = false →
  state e = REQ_QUEUED ∨ state e = REQ_SCHEDULED →
  q = default [] (req_sched_table st !! handle e) →
  queue_ok (<[id := e]> (elems st)) (handle e) (q ++ [id]) →
  (closing st → ¬ modifying e) → sched_count st < B31 - 1 → sched_inv (joined st id e q).
Proof.
  intros Hinv Hid Hl Hm Hst -> Hq Hadm Hb.
  assert (∀ x ex, elems st !! x = Some ex → <[id := e]> (elems st) !! x = Some ex) as Hold.
  { intros x ex Hex. rewrite lookup_insert_ne; congruence. }
  split; cbn [joined set_sched_count set_table put set_elems elems req_sched_table ready_queue
    timer_queue mode_queue sched_count current_mode].
  - intros h' q' [[<- <-]|[? Hq']]%lookup_insert_Some; [done|].
    by apply queue_ok_fresh, (si_queues st Hinv).
  - intros x ex [[<- <-]|[? Hex]]%lookup_insert_Some Hlx.
    + eexists. rewrite lookup_insert_eq. split; [done|set_solver].
    + destruct (si_listed st Hinv x ex Hex Hlx) as (q' & Hq' & Hx).
      destruct (decide (handle ex = handle e)) as [Hh|Hh].
      * rewrite Hh in Hq' |- *. rewrite Hq'. eexists. rewrite lookup_insert_eq.
        split; [done|set_solver].
      * exists q'. by rewrite lookup_insert_ne by congruence.
  - apply (si_ready_nodup st Hinv).
  - intros x. rewrite (si_ready st Hinv). split; [naive_solver|].
    intros (ex & [[<- <-]|[? Hex]]%lookup_insert_Some & ?); [|eauto].
    destruct Hst; congruence.
  - rewrite (si_count st Hinv).
    assert (listed (<[id := e]> (elems st)) = {[id]} ∪ listed (elems st)) as ->.
    { apply set_eq. intros x. rewrite elem_of_union, elem_of_singleton, !elem_of_listed.
      split; [intros (ex & [[<- <-]|[? ?]]%lookup_insert_Some & ?); eauto|].
      intros [->|(ex & ? & ?)]; [exists e; by rewrite lookup_insert_eq|naive_solver]. }
    rewrite size_union, size_singleton; [lia|].
    intros x ->%elem_of_singleton (ex & ? & _)%elem_of_listed. congruence.
  - lia.
  - apply (si_mode_nodup st Hinv).
  - intros x. rewrite (si_mode st Hinv). split; [naive_solver|].
    intros (ex & [[<- <-]|[? Hex]]%lookup_insert_Some & ?); [congruence|eauto].
  - intros x ex [[<- <-]|[? Hex]]%lookup_insert_Some; [congruence|by apply (si_mode_unlisted st Hinv x)].
  - intros i rest x ex Hmq Hx [[<- <-]|[? Hex]]%lookup_insert_Some;
      [|by apply (si_mode_tail st Hinv i rest x)].
    destruct (si_mode st Hinv id) as [(e' & ? & _) _]; [rewrite Hmq; by right|congruence].
  - apply (si_timer_nodup st Hinv).
  - intros x. rewrite (si_timer st Hinv). split; [naive_solver|].
    intros (ex & [[<- <-]|[? Hex]]%lookup_insert_Some & ?); [|eauto]. destruct Hst; congruence.
  - intros x ex [[<- <-]|[? Hex]]%lookup_insert_Some; [|by apply (si_timer_unlisted st Hinv x)].
    destruct Hst; congruence.
  - intros x ex [[<- <-]|[? Hex]]%lookup_insert_Some; [congruence|by apply (si_kinds st Hinv x)].
  - intros Hcl. assert (closing st) as Hc.
    { destruct Hcl as [?|(i & rest & ei & Hmq & Hei & ?)]; [by left|right].
      change (<[id := e]> (elems st) !! i = Some ei) in Hei.
      change (mode_queue st = i :: rest) in Hmq.
      apply lookup_insert_Some in Hei as [[<- <-]|[? Hei]]; [|eauto 10].
      destruct (si_mode st Hinv id) as [(e' & ? & _) _];
        [rewrite Hmq; by left|congruence]. }
    intros x ex [[<- <-]|[? Hex]]%lookup_insert_Some; [by auto|by apply (si_admin st Hinv Hc x)].
Qed.

(** The list of the handle, after the decision about the new request. *)
Lemma join_queue st id e act wait :
  elems st !! id = None → queue_split (elems st) (handle e) act wait → list_head e = true →
  mode_change e = false →
  (act ≠ [] ∧ state e = REQ_QUEUED) ∨
  (state e = REQ_SCHEDULED ∧ wait = [] ∧
     ∀ b eb, b ∈ act → elems st !! b = Some eb → compatible e eb ∧ compatible eb e) →
  queue_ok (<[id := e]> (elems st)) (handle e) ((act ++ wait) ++ [id]).
Proof.
  intros Hid Hs Hl Hm Hor.
  assert (id ∉ act ++ wait) as Hni.
  { intros Hx. destruct (queue_split_present _ _ _ _ _ Hs Hx) as (? & ? & _). congruence. }
  assert (queue_split (<[id := e]> (elems st)) (handle e) act wait) as (Hn & Ha & Hw & Hc).
  { revert Hs. apply queue_split_mono. intros x Hx. apply lookup_insert_ne. congruence. }
  assert (∀ P : req_sched_element → Prop, P e → on_handle (<[id := e]> (elems st)) (handle e) P id) as Hon.
  { intros P HP. exists e. by rewrite lookup_insert_eq. }
  assert (NoDup ((act ++ wait) ++ [id])) as Hn'.
  { apply NoDup_app. split_and!; [done|set_solver|apply NoDup_singleton]. }
  destruct Hor as [[Hne Hst]|(Hst & -> & Hcomp)].
  - exists act, (wait ++ [id]). split_and!; [by rewrite app_assoc|done|].
    split_and!; [by rewrite app_assoc|done|apply Forall_app; by auto|done].
  - rewrite app_nil_r in Hn', Hni |- *. exists (act ++ [id]), [].
    split_and!; [by rewrite app_nil_r|by destruct act|].
    split_and!; [by rewrite app_nil_r| |done|].
    { apply Forall_app. split; [done|]. apply Forall_singleton, Hon. by left. }
    intros a b ea eb Hxa Hxb Hab Hea Heb.
    apply lookup_insert_Some in Hea as [[<- <-]|[Hia Hea]],
      Heb as [[<- <-]|[Hib Heb]]; [done| | |].
    + apply (Hcomp b); set_solver.
    + apply (Hcomp a); set_solver.
    + apply (Hc a b); [set_solver..|done| |]; by rewrite lookup_insert_ne.
Qed.
