(* ===== verification/ReqSchedOps.v ===== *)
(** The operations of the request scheduler (ReqSched.v) keep its invariant
    (ReqSchedInv.v), and do not fault as long as no mode change is pending
    twice; what follows for the runs of the scheduler. *)

From stdpp Require Import list numbers gmap relations.
From S2P Require Import Prelude Errors ServerOps ReqSched ReqSchedInv.

(** * Runs *)

(** A call of the scheduler: a new element is at an address that is free, a
    directory entry operation is submitted as a modification, and only a
    request that has been scheduled is released.  [sched_count] does not
    overflow. *)
Inductive sched_step (st : sched) : sched → Prop :=
  | step_post id alloc' o h a policy uptr r i st' :
      elems st !! id = None → (is_dirent o → a = PINT_SERVER_REQ_MODIFY) →
      sched_count st < B31 - 1 →
      PINT_req_sched_post (Some id) alloc' o h a policy uptr st = Done (r, i, st') →
      sched_step st st'
  | step_change_mode id m uptr r i st' :
      elems st !! id = None →
      PINT_req_sched_change_mode (Some id) m uptr st = Done (r, i, st') → sched_step st st'
  | step_post_timer id now msecs uptr r i st' :
      elems st !! id = None →
      PINT_req_sched_post_timer (Some id) now msecs uptr st = Done (r, i, st') →
      sched_step st st'
  | step_unpost id r u st' :
      PINT_req_sched_unpost id st = Done (r, u, st') → sched_step st st'
  | step_release id e r st' :
      elems st !! id = Some e → state e = REQ_SCHEDULED →
      PINT_req_sched_release (Some id) st = Done (r, st') → sched_step st st'
  | step_test now id r u st' :
      PINT_req_sched_test now id st = Done (r, u, st') → sched_step st st'
  | step_testsome now ids r out st' :
      PINT_req_sched_testsome now ids st = Done (r, out, st') → sched_step st st'
  | step_testworld now incount r out st' :
      PINT_req_sched_testworld now incount st = Done (r, out, st') → sched_step st st'.

(** The scheduler after [PINT_req_sched_initialize]. *)
Definition sched_init (m : Z) : sched := mkSched ∅ ∅ [] [] [] 0 m.

Definition reachable (st : sched) : Prop := ∃ m, rtc sched_step (sched_init m) st.

(** The mode change at the head of the queue is in the ready queue already. *)
Definition mode_head_ready (st : sched) : Prop :=
  ∃ id rest e, mode_queue st = id :: rest ∧ elems st !! id = Some e ∧
    state e = REQ_READY_TO_SCHEDULE.

(** * Every operation keeps the invariant *)

Lemma sched_init_inv m : sched_inv (sched_init m).
Proof.
  split; cbn; try (intros; by simplify_map_eq); try apply NoDup_nil_2; try done.
  all: intros id; split; [by intros ?%not_elem_of_nil|].
  all: intros (e & He & _); by simplify_map_eq.
Qed.

Lemma schedule_mode_change_spec st :
  sched_inv st →
  (∃ st', PINT_req_sched_schedule_mode_change st = Done st' ∧ sched_inv st') ∨
  (PINT_req_sched_schedule_mode_change st = Fault BadAccess ∧ sched_count st = 0 ∧
   mode_head_ready st).
Proof.
  intros Hinv. unfold PINT_req_sched_schedule_mode_change.
  destruct (mode_queue st) as [|id rest] eqn:Hmq; [by left; eauto|].
  case_decide as Hc; [|by left; eauto].
  destruct (si_mode st Hinv id) as [(e & He & Hm) _]; [rewrite Hmq; by left|].
  destruct (si_mode_unlisted st Hinv id e He Hm) as [Hl Ht].
  rewrite (get_Done st id e) by done. cbn. unfold ready_add. cbn.
  case_decide as Hr.
  - right. split_and!; [done|done|]. apply (si_ready st Hinv) in Hr as (e' & He' & ?).
    simplify_eq. by exists id, rest, e.
  - left. eexists. split; [done|].
    apply (advance_inv st _ id e REQ_READY_TO_SCHEDULE); try done; cbn.
    + apply NoDup_app. split_and!; [apply (si_ready_nodup st Hinv)|set_solver|apply NoDup_singleton].
    + set_solver.
    + by left.
    + by rewrite Hmq.
    + by right.
Qed.

Lemma start_inv st id e :
  sched_inv st → elems st !! id = Some e → state e = REQ_READY_TO_SCHEDULE →
  sched_inv (start st id e).
Proof.
  intros Hinv He Hs.
  assert (mode_change e = true → head (mode_queue st) = Some id) as Hhd.
  { intros Hm. destruct (si_mode st Hinv id) as [_ Hq]. destruct (mode_queue st) as [|i rest] eqn:Hmq.
    - exfalso. eapply not_elem_of_nil, Hq. eauto.
    - assert (id ∈ i :: rest) as [->|Hr]%elem_of_cons by eauto; [done|].
      rewrite (si_mode_tail st Hinv i rest id e) in Hs by done. done. }
  unfold start, PINT_req_sched_do_change_mode.
  apply (advance_inv st _ id e REQ_SCHEDULED); try done.
  all: try by destruct (mode_change e). all: try by rewrite Hs.
  - replace (ready_queue _) with (filter (λ x, x ≠ id) (ready_queue st)) by (by destruct (mode_change e)).
    apply NoDup_filter, (si_ready_nodup st Hinv).
  - intros x.
    replace (ready_queue _) with (filter (λ x, x ≠ id) (ready_queue st)) by (by destruct (mode_change e)).
    rewrite list_elem_of_filter. naive_solver.
  - right. by right.
  - intros Hcl. left. destruct (mode_change e) eqn:Hm.
    + destruct (mode_queue st) as [|i rest] eqn:Hmq; [by specialize (Hhd eq_refl)|].
      specialize (Hhd eq_refl). simplify_eq/=.
      assert (mode e = PVFS_SERVER_ADMIN_MODE) as Hadm.
      { destruct Hcl as [?|(i & r & ei & Hq & Hei & ? & _)]; [done|].
        cbn in Hq, Hei. rewrite Hmq in Hq. simplify_eq. rewrite lookup_insert_eq in Hei.
        by simplify_eq/=. }
      right. exists id, rest, e. split_and!; [done..|congruence].
    + destruct Hcl as [?|(i & r & ei & Hq & Hei & ? & Hst)]; [by left|right].
      cbn in Hq, Hei. apply lookup_insert_Some in Hei as [[<- <-]|[? Hei]]; [|eauto 10].
      exists id, r, e. split_and!; [done..|congruence].
Qed.

(** A timer goes off. *)
Lemma forget_timer st id e st' :
  sched_inv st → elems st !! id = Some e → state e = REQ_TIMING →
  list_del st id e = Done st' → sched_inv (free_element st' id).
Proof.
  intros Hinv He Hs Hd. destruct (si_timer_unlisted st Hinv id e He Hs) as [Hl Hm].
  unfold list_del in Hd. rewrite Hl in Hd. simplify_eq.
  apply (forget_inv st _ id e); try done. cbn. symmetry. apply filter_ne_notin.
  intros (? & ? & ?)%(si_ready st Hinv). congruence.
Qed.

Lemma list_del_unlisted st id e :
  list_head e = false →
  list_del st id e =
    Done (set_timer_queue (set_mode_queue st (filter (λ x, x ≠ id) (mode_queue st)))
            (filter (λ x, x ≠ id) (timer_queue st))).
Proof. intros Hl. unfold list_del. by rewrite Hl. Qed.

Lemma test_spec now id e st :
  sched_inv st → elems st !! id = Some e →
  ∃ r u st', PINT_req_sched_test now id st = Done (r, u, st') ∧ sched_inv st' ∧
    ∀ x, x ≠ id → elems st' !! x = elems st !! x.
Proof.
  intros Hinv He. unfold PINT_req_sched_test. rewrite (get_Done st id e) by done.
  cbn [mbind exec_bind]. destruct (state e) eqn:Hs; [by eauto 8|by eauto 8| |].
  - do 3 eexists. split_and!; [done|by apply start_inv|]. intros x Hx.
    unfold start, PINT_req_sched_do_change_mode. destruct (mode_change e); cbn;
      by rewrite lookup_insert_ne by congruence.
  - destruct (tv_after now (tv e)); [|by eauto 8].
    destruct (si_timer_unlisted st Hinv id e He Hs) as [Hl Hm].
    pose proof (forget_timer st id e _ Hinv He Hs (list_del_unlisted st id e Hl)) as Hinv'.
    rewrite list_del_unlisted by done. cbn [mbind exec_bind]. do 3 eexists.
    split_and!; [done|done|]. intros x Hx. cbn. by rewrite lookup_delete_ne by congruence.
Qed.

(** The loop of [testsome] is a sequence of [test]s. *)
Lemma testsome_loop_cons now id ids i out st :
  testsome_loop now (id :: ids) i out st =
    ('(r, u, st) ← PINT_req_sched_test (now i) id st;
     if decide (r = - EINVAL) then Done (inl (- EINVAL), st)
     else testsome_loop now ids (S i) (out ++ match u with Some u => [(i, u)] | None => [] end) st).
Proof.
  cbn [testsome_loop]. unfold PINT_req_sched_test. destruct (get st id) as [e|]; [|done].
  cbn [mbind exec_bind]. destruct (state e); cbn; rewrite ?app_nil_r; try done.
  destruct (tv_after (now i) (tv e)); cbn; rewrite ?app_nil_r; [|done].
  by destruct (list_del st id e).
Qed.

Lemma testsome_inv now ids i out st r st' :
  sched_inv st → testsome_loop now ids i out st = Done (r, st') → sched_inv st'.
Proof.
  revert i out st. induction ids as [|id ids IH]; intros i out st Hinv Hd; [by simplify_eq/=|].
  rewrite testsome_loop_cons in Hd.
  destruct (elems st !! id) as [e|] eqn:He;
    [|unfold PINT_req_sched_test, get in Hd; by rewrite He in Hd].
  destruct (test_spec (now i) id e st Hinv He) as (r1 & u & st1 & Ht & Hinv1 & _).
  rewrite Ht in Hd. cbn [mbind exec_bind] in Hd. case_decide; [by simplify_eq/=|eauto].
Qed.

Lemma testsome_total now ids i out st :
  sched_inv st → NoDup ids → Forall (λ id, is_Some (elems st !! id)) ids →
  ∃ r st', testsome_loop now ids i out st = Done (r, st').
Proof.
  revert i out st. induction ids as [|id ids IH]; intros i out st Hinv Hn Hp; [cbn; eauto|].
  rewrite testsome_loop_cons. apply NoDup_cons in Hn as [Hid Hn].
  apply Forall_cons in Hp as [[e He] Hp].
  destruct (test_spec (now i) id e st Hinv He) as (r1 & u & st1 & Ht & Hinv1 & Hsame).
  rewrite Ht. cbn [mbind exec_bind]. case_decide; [eauto|]. apply IH; [done|done|].
  rewrite Forall_forall in Hp |- *. intros x Hx. rewrite Hsame by congruence. auto.
Qed.

Lemma expired_timers_spec now incount q out st :
  sched_inv st → timer_queue st = q →
  ∃ out' st', expired_timers now incount q out st = Done (out ++ out', st') ∧ sched_inv st'.
Proof.
  revert out st. induction q as [|id q IH]; intros out st Hinv Hq.
  { exists [], st. by rewrite app_nil_r. }
  destruct (si_timer st Hinv id) as [(e & He & Hs) _]; [rewrite Hq; by left|].
  cbn [expired_timers]. rewrite (get_Done st id e) by done. cbn [mbind exec_bind].
  destruct (tv_after (tv e) now); [exists [], st; by rewrite app_nil_r|].
  destruct (si_timer_unlisted st Hinv id e He Hs) as [Hl Hm].
  pose proof (forget_timer st id e _ Hinv He Hs (list_del_unlisted st id e Hl)) as Hinv'.
  rewrite list_del_unlisted by done. cbn [mbind exec_bind].
  case_decide; [by eauto|].
  edestruct (IH (out ++ [(id, user_ptr e)])) as (out' & st' & Hd & Hi); [exact Hinv'| |].
  { cbn. pose proof (si_timer_nodup st Hinv) as Hn. rewrite Hq in Hn |- *.
    apply NoDup_cons in Hn as [? _]. rewrite filter_cons_False by naive_solver.
    by apply filter_ne_notin. }
  rewrite Hd. exists ((id, user_ptr e) :: out'), st'. by rewrite <- app_assoc.
Qed.

Lemma start_ready_queue st id e rest :
  sched_inv st → ready_queue st = id :: rest → ready_queue (start st id e) = rest.
Proof.
  intros Hinv Hq. unfold start, PINT_req_sched_do_change_mode.
  replace (ready_queue _) with (filter (λ x, x ≠ id) (ready_queue st)) by (by destruct (mode_change e)).
  pose proof (si_ready_nodup st Hinv) as Hn. rewrite Hq in Hn |- *.
  apply NoDup_cons in Hn as [? _]. rewrite filter_cons_False by naive_solver.
  by apply filter_ne_notin.
Qed.

Lemma start_ready_spec fuel incount out st :
  sched_inv st → (length (ready_queue st) ≤ fuel)%nat →
  ∃ out' st', start_ready fuel incount out st = Done (out ++ out', st') ∧ sched_inv st'.
Proof.
  revert out st. induction fuel as [|fuel IH]; intros out st Hinv Hf;
    destruct (ready_queue st) as [|id rest] eqn:Hq; cbn [length] in Hf; try lia.
  - exists [], st. cbn. by rewrite Hq, app_nil_r.
  - exists [], st. cbn. by rewrite Hq, app_nil_r.
  - cbn [start_ready]. rewrite Hq. case_decide; [|exists [], st; by rewrite app_nil_r].
    destruct (si_ready st Hinv id) as [(e & He & Hs) _]; [rewrite Hq; by left|].
    rewrite (get_Done st id e) by done. cbn [mbind exec_bind].
    destruct (IH (out ++ [(id, user_ptr e)]) (start st id e)) as (out' & st' & Hd & Hi).
    + by apply start_inv.
    + rewrite (start_ready_queue st id e rest) by done. lia.
    + rewrite Hd. exists ((id, user_ptr e) :: out'), st'. by rewrite <- app_assoc.
Qed.

Lemma testworld_spec now incount st :
  sched_inv st →
  ∃ r out st', PINT_req_sched_testworld now incount st = Done (r, out, st') ∧ sched_inv st'.
Proof.
  intros Hinv. unfold PINT_req_sched_testworld.
  destruct (expired_timers_spec now incount (timer_queue st) [] st) as (o1 & st1 & -> & H1); [done..|].
  cbn [mbind exec_bind].
  destruct (start_ready_spec (length (ready_queue st1)) incount ([] ++ o1) st1)
    as (o2 & st2 & -> & H2); [done..|]. cbn [mbind exec_bind]. eauto.
Qed.

(** What [unpost] and [release] have in common. *)
Lemma leave_spec st id e wake runs :
  sched_inv st → elems st !! id = Some e → list_head e = true → runs_ok runs →
  wake = true ∨ state e = REQ_QUEUED →
  ∃ st1 st2, list_del (ready_del st id) id e = Done st1 ∧
    next_in_line st1 (handle e) wake runs = Done st2 ∧
    sched_inv (free_element (set_sched_count st2 (i32 (sched_count st2 - 1))) id) ∧
    mode_queue st2 = mode_queue st ∧
    ∀ x ex, delete id (elems st2) !! x = Some ex → list_head ex = false → elems st !! x = Some ex.
Proof.
  intros Hinv He Hl Hruns Hwake.
  destruct (si_listed st Hinv id e He Hl) as (q & Hq & Hidq).
  destruct (si_queues st Hinv _ _ Hq) as (act & wait & -> & Hact & Hs).
  set (f := filter (λ x, x ≠ id) : list positive → list positive).
  set (st1 := set_table (ready_del st id) (<[handle e := f (act ++ wait)]> (req_sched_table st))).
  assert (list_del (ready_del st id) id e = Done st1) as Hdel.
  { unfold list_del. rewrite Hl. cbn. by rewrite Hq. }
  assert (queue_split (elems st) (handle e) (f act) (f wait)) as Hs'.
  { destruct Hs as (Hn & Ha & Hw & Hc). split_and!.
    - unfold f. rewrite <- filter_app. by apply NoDup_filter.
    - rewrite Forall_forall in Ha |- *. intros x [_ ?]%list_elem_of_filter. auto.
    - rewrite Forall_forall in Hw |- *. intros x [_ ?]%list_elem_of_filter. auto.
    - intros a b ea eb [_ ?]%list_elem_of_filter [_ ?]%list_elem_of_filter. by apply Hc. }
  destruct (next_in_line_spec st1 (handle e) (f act) (f wait) wake runs)
    as (run & tail & Hrt & Hnil & Hor & Hne & Hrun).
  { cbn. rewrite lookup_insert_eq. unfold f. by rewrite filter_app. }
  { exact Hs'. }
  { intros x Hx. destruct Hs' as (_ & _ & Hw & _). rewrite Forall_forall in Hw.
    destruct (Hw x Hx) as (ex & Hex & _ & _ & _ & Hst). cbn. rewrite list_elem_of_filter.
    intros [_ (? & ? & ?)%(si_ready st Hinv)]. congruence. }
  { destruct Hwake as [->|Hst]; [by left|right; left]. unfold f. rewrite filter_ne_notin; [done|].
    intros Hx. destruct Hs as (_ & Ha & _). rewrite Forall_forall in Ha.
    destruct (Ha id Hx) as (e' & He' & _ & _ & _ & [?|?]); congruence. }
  { done. }
  exists st1. eexists. split; [done|]. split; [exact Hnil|].
  split; last first.
  { split; [by case_decide|]. intros x ex Hx Hlx.
    pose proof (depart_unlisted st Hinv id e He Hl act wait run tail Hq Hs Hrt Hor) as Hu.
    rewrite filter_app in Hu. apply (Hu Hne Hrun x ex Hlx). cbn. case_decide as Hn; [|exact Hx].
    assert (run = []) as ->; [|by rewrite ready_map_nil].
    apply app_eq_nil in Hn as [_ Hw]. rewrite Hw in Hrt. by destruct run. }
  pose proof (depart_inv st Hinv id e He Hl act wait run tail Hq Hs Hrt Hor) as Hd.
  rewrite filter_app in Hd. specialize (Hd Hne Hrun). revert Hd. cbn zeta.
  assert (0 < sched_count st) as Hpos.
  { rewrite (si_count st Hinv). assert (id ∈ listed (elems st)) by (apply elem_of_listed; eauto).
    assert (size (listed (elems st)) ≠ 0%nat); [|lia]. intros Hz%size_empty_inv. set_solver. }
  pose proof (si_bound st Hinv).
  match goal with |- sched_inv ?a → sched_inv ?b => enough (a = b) as -> by done end.
  unfold departed. fold f. destruct (decide (f act ++ f wait = [])) as [Hnone|Hsome].
  - assert (run = []) as ->.
    { apply app_eq_nil in Hnone as [_ Hw]. rewrite Hw in Hrt. by destruct run. }
    unfold free_element, set_sched_count, set_table, ready_del, st1. cbn.
    rewrite ready_map_nil, app_nil_r, delete_insert_eq, i32_id by lia. done.
  - unfold free_element, set_sched_count, woken, ready_del, st1. cbn.
    assert (f (act ++ wait) = f act ++ f wait) as -> by apply filter_app.
    by rewrite i32_id by lia.
Qed.

Lemma ready_del_notin st id : id ∉ ready_queue st → ready_del st id = st.
Proof. intros H. unfold ready_del. rewrite filter_ne_notin by done. by destruct st. Qed.

(** No operation but the test ones makes a mode change ready. *)
Lemma mode_head_ready_leave st st0 :
  sched_inv st0 → mode_queue st0 = mode_queue st →
  (∀ x ex, elems st0 !! x = Some ex → list_head ex = false → elems st !! x = Some ex) →
  mode_head_ready st0 → mode_head_ready st.
Proof.
  intros Hinv Hmq Hun (i & rest & ei & Hq & Hei & Hst). exists i, rest, ei.
  split_and!; [congruence| |done]. apply Hun; [done|].
  destruct (si_mode st0 Hinv i) as [(e' & ? & Hm) _]; [rewrite Hq; by left|]. simplify_eq.
  by apply (si_mode_unlisted st0 Hinv i ei).
Qed.

Lemma mode_head_ready_forget st st0 id :
  sched_inv st → mode_queue st0 = filter (λ x, x ≠ id) (mode_queue st) →
  elems st0 = delete id (elems st) → mode_head_ready st0 → mode_head_ready st.
Proof.
  intros Hinv Hmq Hel (i & rest & ei & Hq & Hei & Hst). rewrite Hel in Hei.
  apply lookup_delete_Some in Hei as [? Hei]. rewrite Hmq in Hq.
  destruct (mode_queue st) as [|i' rest'] eqn:Hmq'; [done|].
  assert (i ∈ filter (λ x, x ≠ id) (i' :: rest')) as [_ [->|Hr]%elem_of_cons]%list_elem_of_filter
    by (rewrite Hq; by left); [by exists i', rest', ei|].
  rewrite (si_mode_tail st Hinv i' rest' i ei) in Hst by done. done.
Qed.

Lemma release_spec st id e :
  sched_inv st → elems st !! id = Some e → state e = REQ_SCHEDULED →
  ∃ st0, sched_inv st0 ∧ (mode_head_ready st0 → mode_head_ready st) ∧
    PINT_req_sched_release (Some id) st =
      (st ← PINT_req_sched_schedule_mode_change st0; Done (1, st)).
Proof.
  intros Hinv He Hst.
  assert (id ∉ ready_queue st) as Hnr by (intros (? & ? & ?)%(si_ready st Hinv); congruence).
  unfold PINT_req_sched_release. rewrite (get_Done st id e) by done. cbn [mbind exec_bind].
  destruct (list_head e) eqn:Hl.
  - edestruct (leave_spec st id e true) as (st1 & st2 & Hd & Hn & Hinv' & Hmq & Hun); [done..| |by left|].
    2: { rewrite ready_del_notin in Hd by done. rewrite Hd. cbn [mbind exec_bind]. rewrite Hn.
         cbn [mbind exec_bind]. eexists. split_and!; [exact Hinv'| |done].
         by apply mode_head_ready_leave. }
    intros next st' rest. destruct (is_io next) eqn:E1; [right; left; eauto|].
    destruct (is_readonly next) eqn:E2; [right; right; eauto|by left].
  - rewrite list_del_unlisted by done. cbn [mbind exec_bind]. eexists.
    split_and!; [| |reflexivity]; [|by apply (mode_head_ready_forget st _ id)].
    apply (forget_inv st _ id e); try done. cbn. by rewrite filter_ne_notin.
Qed.

Lemma unpost_spec st id e :
  sched_inv st → elems st !! id = Some e → state e ≠ REQ_SCHEDULED →
  ∃ st0, sched_inv st0 ∧ (mode_head_ready st0 → mode_head_ready st) ∧
    PINT_req_sched_unpost id st =
      (st ← PINT_req_sched_schedule_mode_change st0; Done (0, Some (user_ptr e), st)).
Proof.
  intros Hinv He Hst.
  unfold PINT_req_sched_unpost. rewrite (get_Done st id e) by done. cbn [mbind exec_bind].
  rewrite decide_False by done.
  assert ((if bool_decide (state e = REQ_READY_TO_SCHEDULE) then ready_del st id else st) =
    ready_del st id) as ->.
  { case_bool_decide; [done|]. rewrite ready_del_notin; [done|].
    intros (? & ? & ?)%(si_ready st Hinv). congruence. }
  destruct (list_head e) eqn:Hl.
  - edestruct (leave_spec st id e (bool_decide (state e = REQ_READY_TO_SCHEDULE)))
      as (st1 & st2 & Hd & Hn & Hinv' & Hmq & Hun); [done..| | |].
    3: { rewrite Hd. cbn [mbind exec_bind]. rewrite Hn. cbn [mbind exec_bind].
         eexists. split_and!; [exact Hinv'| |done]. by apply mode_head_ready_leave. }
    { intros next st' rest. cbn. destruct (is_io next) eqn:E1; [right; left; eauto|by left]. }
    destruct (state e) eqn:Hs; [by right|done|by left|].
    destruct (si_timer_unlisted st Hinv id e He Hs). congruence.
  - rewrite list_del_unlisted by done. cbn [mbind exec_bind]. eexists.
    split_and!; [| |reflexivity]; [|by apply (mode_head_ready_forget st _ id)].
    by apply (forget_inv st _ id e).
Qed.

Lemma change_mode_spec st id m uptr :
  sched_inv st → elems st !! id = None →
  (∃ r st', PINT_req_sched_change_mode (Some id) m uptr st = Done (r, Some id, st') ∧
     sched_inv st') ∨
  (PINT_req_sched_change_mode (Some id) m uptr st = Fault AssertFailed ∧
   m ≠ PVFS_SERVER_NORMAL_MODE ∧ m ≠ PVFS_SERVER_ADMIN_MODE).
Proof.
  intros Hinv Hid. unfold PINT_req_sched_change_mode.
  set (e := mkElement _ _ _ _ _ _ _ _ _). cbn zeta.
  set (st1 := set_mode_queue (put st id e) (mode_queue st ++ [id])).
  assert (sched_inv st1) as Hinv1 by (apply (arrive_inv st _ id e); try done; by left).
  case_bool_decide as Hq; [|left; by eauto].
  assert (elems st1 !! id = Some e) as He by apply lookup_insert_eq.
  assert (m ≠ PVFS_SERVER_ADMIN_MODE ∨ sched_count st = 0 →
    sched_inv (set_current_mode (put st1 id (set_state e REQ_SCHEDULED)) m)) as Hgo.
  { intros Hc. apply (advance_inv st1 _ id e REQ_SCHEDULED); try done.
    - apply (si_ready_nodup st Hinv).
    - intros x. cbn. split; [|naive_solver]. intros Hx. right. split; [|done]. intros ->.
      apply (si_ready st Hinv) in Hx as (? & ? & _). congruence.
    - by left.
    - intros _. unfold st1. cbn. by rewrite Hq.
    - destruct Hc as [Hc|Hc]; [|by right].
      intros [?|(i & rest & ei & Hmq & Hei & Hmode & _)]; [done|].
      unfold st1 in Hmq. cbn in Hmq. rewrite Hq in Hmq. simplify_eq/=.
      rewrite lookup_insert_eq in Hei. by simplify_eq/=. }
  case_decide as Hm1; [left; do 2 eexists; split; [done|]; apply Hgo; left; by rewrite Hm1|].
  case_decide as Hm2; [left|by right].
  pose proof (si_count st Hinv). rewrite decide_True by (cbn; lia).
  case_decide; [|by eauto]. do 2 eexists. split; [done|]. apply Hgo. by right.
Qed.

Lemma timer_insert_spec st id t q :
  Forall (λ x, is_Some (elems st !! x)) q →
  ∃ q1 q2, q = q1 ++ q2 ∧ timer_insert st id t q = Done (q1 ++ id :: q2) ∧
    Forall (λ x, ∃ e, elems st !! x = Some e ∧ tv_after (tv e) t = false) q1 ∧
    (∀ x e, head q2 = Some x → elems st !! x = Some e → tv_after (tv e) t = true).
Proof.
  induction 1 as [|n q [e He] Hq (q1 & q2 & -> & Hd & H1 & H2)]; [by exists [], []|].
  cbn [timer_insert]. rewrite (get_Done st n e) by done. cbn [mbind exec_bind].
  destruct (tv_after (tv e) t) eqn:Ht.
  - exists [], (n :: q1 ++ q2). split_and!; [done..|]. intros x ex [= <-] Hx. congruence.
  - exists (n :: q1), q2. rewrite Hd. split_and!; [done..| |done]. constructor; eauto.
Qed.

Lemma post_timer_spec st id now msecs uptr :
  sched_inv st → elems st !! id = None →
  ∃ r i st', PINT_req_sched_post_timer (Some id) now msecs uptr st = Done (r, i, st') ∧
    sched_inv st'.
Proof.
  intros Hinv Hid. unfold PINT_req_sched_post_timer. case_decide; [by eauto 6|].
  cbn zeta. set (t := if decide _ then _ else _). clearbody t.
  set (e := mkElement _ _ _ _ _ _ _ _ _).
  destruct (timer_insert_spec st id t (timer_queue st)) as (q1 & q2 & Hq & -> & _).
  { apply Forall_forall. intros x (ex & -> & _)%(si_timer st Hinv). eauto. }
  cbn [mbind exec_bind]. do 3 eexists. split; [done|].
  apply (arrive_inv st _ id e); try done. right. split_and!; try done.
  cbn. rewrite Hq. by rewrite Permutation_middle.
Qed.

Lemma in_admin_mode_spec st :
  sched_inv st →
  ∃ b, PINT_req_sched_in_admin_mode st = Done b ∧ (closing st → b = true) ∧
    (b = true ↔ current_mode st = PVFS_SERVER_ADMIN_MODE ∨
       ∃ id rest e, mode_queue st = id :: rest ∧ elems st !! id = Some e ∧
         mode e = PVFS_SERVER_ADMIN_MODE).
Proof.
  intros Hinv. unfold PINT_req_sched_in_admin_mode.
  destruct (mode_queue st) as [|id rest] eqn:Hmq.
  - cbn. eexists. split; [done|]. rewrite orb_false_r. split.
    + intros [->|(? & ? & ? & ? & _)]; [done|congruence].
    + rewrite bool_decide_eq_true. split; [by left|]. by intros [?|(? & ? & ? & ? & _)].
  - destruct (si_mode st Hinv id) as [(e & He & Hm) _]; [rewrite Hmq; by left|].
    rewrite (get_Done st id e) by done. cbn. eexists. split; [done|].
    rewrite orb_true_iff, !bool_decide_eq_true. split.
    + intros [?|(i & r & ei & Hq & Hei & ? & _)]; [by left|right]. congruence.
    + split; [intros [?|?]; [by left|right; by exists id, rest, e]|].
      intros [?|(i & r & ei & Hq & Hei & ?)]; [by left|right]. congruence.
Qed.

Lemma queues_nonempty st h q : sched_inv st → req_sched_table st !! h = Some q → q ≠ [].
Proof.
  intros Hinv Hq. destruct (si_queues st Hinv h q Hq) as ([|a act] & wait & -> & ? & _); done.
Qed.

(** A request that is let in is at the tail of the list of its handle; it is
    scheduled at once only if nothing waits there and it is compatible with
    the requests that are active. *)
Lemma post_join st id o h a uptr :
  sched_inv st → elems st !! id = None → sched_count st < B31 - 1 →
  (closing st → (a = PINT_SERVER_REQ_MODIFY ∨ is_dirent o) → PVFS_SERV_IS_MGMT_OP o = true) →
  let q := default [] (req_sched_table st !! h) in
  ∃ e r, ('(s, a', ret) ← post_decide st q o a;
      let e := mkElement o uptr true s h (0, 0) a' false 0 in
      let st := set_table (put st id e) (<[h := q ++ [id]]> (req_sched_table st)) in
      Done (ret, Some id, set_sched_count st (i32 (sched_count st + 1)))) =
    Done (r, Some id, joined st id e q) ∧
    sched_inv (joined st id e q) ∧ op e = o ∧ handle e = h ∧ user_ptr e = uptr ∧
    (r = 1 ∧ state e = REQ_SCHEDULED ∨ r = 0 ∧ state e = REQ_QUEUED).
Proof.
  intros Hinv Hid Hb Hadm q.
  assert (∃ act wait s a' ret, q = act ++ wait ∧ queue_split (elems st) h act wait ∧
    post_decide st q o a = Done (s, a', ret) ∧ (a' = a ∨ is_dirent o) ∧
    (act ≠ [] ∧ s = REQ_QUEUED ∧ ret = 0 ∨
     (s = REQ_SCHEDULED ∧ ret = 1 ∧ wait = [] ∧
      ∀ b eb e, b ∈ act → elems st !! b = Some eb → op e = o → access_type e = a' →
        compatible e eb ∧ compatible eb e)))
    as (act & wait & s & a' & ret & Hq & Hs & Hd & Ha' & Hor).
  { subst q. destruct (req_sched_table st !! h) as [q|] eqn:Hq.
    - destruct (si_queues st Hinv h q Hq) as (act & wait & -> & Hne & Hs).
      destruct (post_decide_spec st h act wait o a Hne Hs) as (s & a' & ret & ? & ? & Hor).
      exists act, wait, s, a', ret. split_and!; [done..|]. naive_solver.
    - exists [], [], REQ_SCHEDULED, a, 1. split_and!; [done| |done|by left|right].
      + split_and!; [apply NoDup_nil_2|done..|]. intros x ? ? ? Hx. by apply not_elem_of_nil in Hx.
      + split_and!; try done. intros x ? ? Hx. by apply not_elem_of_nil in Hx. }
  set (e := mkElement o uptr true s h (0, 0) a' false 0).
  exists e, ret. rewrite Hd. cbn [mbind exec_bind]. split_and!; [|  |done..|naive_solver].
  - unfold joined. cbn. pose proof (si_count st Hinv). by rewrite i32_id by lia.
  - apply join_inv; try done.
    + destruct Hor as [(_ & -> & _)|(-> & _)]; [by left|by right].
    + rewrite Hq. apply join_queue; try done.
      destruct Hor as [(? & -> & _)|(-> & _ & -> & Hc)]; [by left|right]. split_and!; [done..|].
      intros b eb Hxb Heb. by apply (Hc b).
    + intros Hcl [Hac Hmg]. cbn in Hac, Hmg. rewrite Hadm in Hmg; [done..|].
      destruct Ha' as [->|?]; [done|by right].
Qed.

Lemma post_spec st id alloc' o h a policy uptr :
  sched_inv st → elems st !! id = None → (is_dirent o → a = PINT_SERVER_REQ_MODIFY) →
  sched_count st < B31 - 1 →
  ∃ r i st', PINT_req_sched_post (Some id) alloc' o h a policy uptr st = Done (r, i, st') ∧
    sched_inv st' ∧
    ((i = None ∧ st' = st) ∨
     (i = Some id ∧ ∃ e q, st' = joined st id e q ∧ op e = o ∧ handle e = h ∧ user_ptr e = uptr ∧
       (r = 1 ∧ state e = REQ_SCHEDULED ∨ r = 0 ∧ state e = REQ_QUEUED))).
Proof.
  intros Hinv Hid Hdir Hb. unfold PINT_req_sched_post.
  set (modifies := bool_decide (a = PINT_SERVER_REQ_MODIFY) && negb (PVFS_SERV_IS_MGMT_OP o)).
  destruct (in_admin_mode_spec st Hinv) as (b & Hb1 & Hb2 & _).
  assert (∃ admin, (if modifies then PINT_req_sched_in_admin_mode st else Done false) = Done admin ∧
    (admin = false → closing st → modifies = false)) as (admin & -> & Hadm).
  { destruct modifies; [exists b|exists false]; split; try done. intros -> Hc. by apply Hb2 in Hc. }
  cbn [mbind exec_bind].
  destruct policy; [destruct admin; do 3 eexists; (split_and!; [done|done|by left])|].
  destruct admin; [by do 3 eexists; (split_and!; [done|done|by left])|].
  specialize (Hadm eq_refl).
  destruct (post_join st id o h a uptr Hinv Hid Hb) as (e & r & Hd & Hinv' & Hrest).
  { intros Hc Hor. specialize (Hadm Hc). unfold modifies in Hadm.
    rewrite bool_decide_eq_true_2 in Hadm by (destruct Hor; auto).
    by apply negb_false_iff in Hadm. }
  destruct (req_sched_table st !! h) as [q|] eqn:Hq; [|destruct alloc'].
  - do 3 eexists. split_and!; [exact Hd|done|right; eauto 8].
  - do 3 eexists. split_and!; [exact Hd|done|right; eauto 8].
  - do 3 eexists. split_and!; [done|done|by left].
Qed.

Lemma get_inv st id e : get st id = Done e → elems st !! id = Some e.
Proof. unfold get. by destruct (elems st !! id) as [e'|]; intros [= <-]. Qed.

Lemma schedule_mode_change_inv st st' :
  sched_inv st → PINT_req_sched_schedule_mode_change st = Done st' → sched_inv st'.
Proof.
  intros Hinv Hd. destruct (schedule_mode_change_spec st Hinv) as [(s & ? & ?)|(? & _)]; congruence.
Qed.

Lemma sched_step_inv st st' : sched_inv st → sched_step st st' → sched_inv st'.
Proof.
  intros Hinv [id alloc' o h a policy uptr r i s' Hid Hdir Hb Hd|id m uptr r i s' Hid Hd
    |id now msecs uptr r i s' Hid Hd|id r u s' Hd|id e r s' He Hst Hd|now id r u s' Hd
    |now ids r out s' Hd|now incount r out s' Hd].
  - destruct (post_spec st id alloc' o h a policy uptr Hinv Hid Hdir Hb) as (? & ? & ? & Heq & ? & _); congruence.
  - destruct (change_mode_spec st id m uptr Hinv Hid) as [(? & ? & Heq & ?)|[? _]]; congruence.
  - destruct (post_timer_spec st id now msecs uptr Hinv Hid) as (? & ? & ? & Heq & ?); congruence.
  - destruct (get st id) as [e|] eqn:He; [|unfold PINT_req_sched_unpost in Hd; by rewrite He in Hd].
    destruct (decide (state e = REQ_SCHEDULED)) as [Hs|Hs].
    { unfold PINT_req_sched_unpost in Hd. rewrite He in Hd. cbn [mbind exec_bind] in Hd.
      rewrite decide_True in Hd by done. congruence. }
    apply get_inv in He. destruct (unpost_spec st id e Hinv He Hs) as (st0 & H0 & _ & Heq).
    rewrite Heq in Hd. destruct (PINT_req_sched_schedule_mode_change st0) eqn:Hm; [|done].
    simplify_eq/=. by eapply schedule_mode_change_inv.
  - destruct (release_spec st id e Hinv He Hst) as (st0 & H0 & _ & Heq).
    rewrite Heq in Hd. destruct (PINT_req_sched_schedule_mode_change st0) eqn:Hm; [|done].
    simplify_eq/=. by eapply schedule_mode_change_inv.
  - destruct (get st id) as [e|] eqn:He; [|unfold PINT_req_sched_test in Hd; by rewrite He in Hd].
    apply get_inv in He. destruct (test_spec now id e st Hinv He) as (? & ? & ? & ? & ? & _); congruence.
  - unfold PINT_req_sched_testsome in Hd.
    destruct (testsome_loop now ids 0 [] st) as [[r' s1]|] eqn:Hl; [|done].
    apply testsome_inv in Hl; [|done]. cbn in Hd. destruct r'; congruence.
  - destruct (testworld_spec now incount st Hinv) as (? & ? & ? & ? & ?); congruence.
Qed.

Lemma reachable_inv st : reachable st → sched_inv st.
Proof.
  intros [m Hr]. eapply (rtc_invariant sched_step); [exact Hr|apply sched_init_inv|exact sched_step_inv].
Qed.

Lemma start_ready_drains fuel incount out st :
  sched_inv st → (length (ready_queue st) ≤ fuel)%nat →
  Z.of_nat (length out) + Z.of_nat (length (ready_queue st)) ≤ incount →
  ∀ out' st', start_ready fuel incount out st = Done (out', st') → ready_queue st' = [].
Proof.
  revert out st. induction fuel as [|fuel IH]; intros out st Hinv Hf Hin out' st';
    destruct (ready_queue st) as [|id rest] eqn:Hq; cbn [length] in *; try lia;
    cbn [start_ready]; rewrite Hq; try congruence.
  rewrite decide_True by lia. destruct (si_ready st Hinv id) as [(e & He & Hs) _]; [rewrite Hq; by left|].
  rewrite (get_Done st id e) by done. cbn [mbind exec_bind].
  assert (ready_queue (start st id e) = rest) as Hr by (by apply start_ready_queue).
  apply IH; [by apply start_inv| |]; rewrite Hr; [lia|]. rewrite length_app. cbn. lia.
Qed.

Lemma expired_timers_ready now incount q out st out' st' :
  expired_timers now incount q out st = Done (out', st') → ready_queue st' = ready_queue st ∧
  (length out' ≤ length out + length q)%nat.
Proof.
  revert out st. induction q as [|id q IH]; intros out st Hd; cbn [expired_timers] in Hd.
  { simplify_eq. split; [done|cbn; lia]. }
  destruct (get st id) as [e|]; [|done]. cbn [mbind exec_bind] in Hd.
  destruct (tv_after (tv e) now); [simplify_eq; split; [done|cbn; lia]|].
  destruct (list_del st id e) as [st1|] eqn:Hdel; [|done]. cbn [mbind exec_bind] in Hd.
  assert (ready_queue st1 = ready_queue st) as Hr.
  { unfold list_del in Hdel. repeat case_match; simplify_eq; done. }
  case_decide.
  - simplify_eq. cbn. rewrite length_app. cbn. split; [done|lia].
  - apply IH in Hd as [-> Hlen]. rewrite length_app in Hlen. cbn in Hlen |- *. split; [done|lia].
Qed.

(** * Properties *)

(** C19. Mutual exclusion.  In every run of the scheduler, two different
    requests on the same handle that are running or ready to run are both I/O
    requests, both read only, or one of them is a directory entry operation. *)
Theorem sched_exclusion st a b ea eb :
  reachable st → a ≠ b → elems st !! a = Some ea → elems st !! b = Some eb →
  list_head ea = true → list_head eb = true → handle ea = handle eb →
  active ea → active eb → compatible ea eb.
Proof.
  intros Hinv%reachable_inv Hab Hea Heb Hla Hlb Hh Ha Hb.
  destruct (si_listed st Hinv a ea Hea Hla) as (q & Hq & Hxa).
  destruct (si_listed st Hinv b eb Heb Hlb) as (q' & Hq' & Hxb).
  rewrite <- Hh, Hq in Hq'. simplify_eq.
  destruct (si_queues st Hinv _ _ Hq) as (act & wait & -> & _ & Hs).
  destruct (queue_split_present _ _ _ _ a Hs Hxa) as (e1 & ? & _ & _ & _ & [[_ H1]|[? _]]);
    [|destruct Ha; congruence].
  destruct (queue_split_present _ _ _ _ b Hs Hxb) as (e2 & ? & _ & _ & _ & [[_ H2]|[? _]]);
    [|destruct Hb; congruence].
  destruct Hs as (_ & _ & _ & Hc). by apply (Hc a b).
Qed.

(** C20. Order and bookkeeping.  In every run of the scheduler, the list of a
    handle has no duplicates, holds requests on that handle only, begins with
    a request that is running or ready, and no request in it runs ahead of
    one that waits; every request is in the list of its handle; and
    [sched_count] is the number of requests. *)
Theorem sched_order st :
  reachable st →
  (∀ h q, req_sched_table st !! h = Some q →
     ∃ act wait, q = act ++ wait ∧ act ≠ [] ∧ NoDup q ∧
       Forall (λ id, ∃ e, elems st !! id = Some e ∧ handle e = h ∧ active e) act ∧
       Forall (λ id, ∃ e, elems st !! id = Some e ∧ handle e = h ∧ state e = REQ_QUEUED) wait) ∧
  (∀ id e, elems st !! id = Some e → list_head e = true →
     ∃ q, req_sched_table st !! handle e = Some q ∧ id ∈ q) ∧
  sched_count st = Z.of_nat (size (listed (elems st))).
Proof.
  intros Hinv%reachable_inv. split_and!.
  - intros h q Hq. destruct (si_queues st Hinv h q Hq) as (act & wait & -> & Hne & Hn & Ha & Hw & _).
    exists act, wait. split_and!; [done..| |].
    + eapply Forall_impl; [exact Ha|]. intros x (e & ? & _ & ? & _ & ?). eauto.
    + eapply Forall_impl; [exact Hw|]. intros x (e & ? & _ & ? & _ & ?). eauto.
  - apply (si_listed st Hinv).
  - apply (si_count st Hinv).
Qed.

(** Admin mode.  In every run of the scheduler, while the server is in
    admin mode no request that modifies the file system is known to the
    scheduler, and a new one is turned away with [-PVFS_EAGAIN] and changes
    nothing; management requests are let in. *)
Theorem sched_admin_mode st :
  reachable st → current_mode st = PVFS_SERVER_ADMIN_MODE →
  (∀ id e, elems st !! id = Some e → list_head e = true → ¬ modifying e) ∧
  (∀ id alloc' o h policy uptr, PVFS_SERV_IS_MGMT_OP o = false →
     PINT_req_sched_post (Some id) alloc' o h PINT_SERVER_REQ_MODIFY policy uptr st =
       Done (- PVFS_EAGAIN, None, st)) ∧
  (∀ id o h a uptr, PVFS_SERV_IS_MGMT_OP o = true → elems st !! id = None →
     sched_count st < B31 - 1 → ∃ r st',
     PINT_req_sched_post (Some id) true o h a PINT_SERVER_REQ_SCHEDULE uptr st =
       Done (r, Some id, st')).
Proof.
  intros Hinv%reachable_inv Hm. split_and!.
  - apply (si_admin st Hinv). by left.
  - intros id alloc' o h policy uptr Ho. unfold PINT_req_sched_post. rewrite Ho.
    destruct (in_admin_mode_spec st Hinv) as (b & Hb1 & _ & Hb2). cbn. rewrite Hb1.
    assert (b = true) as -> by (apply Hb2; by left). cbn. by destruct policy.
  - intros id o h a uptr Ho Hid Hb.
    destruct (post_join st id o h a uptr Hinv Hid Hb) as (e & r & Hd & _).
    { by intros _ _. }
    unfold PINT_req_sched_post. rewrite Ho, andb_false_r. cbn [mbind exec_bind].
    exists r, (joined st id e (default [] (req_sched_table st !! h))).
    destruct (req_sched_table st !! h); exact Hd.
Qed.

(** The operations return.  In every run of the scheduler, unless a mode
    change is ready that nobody has asked for yet, releasing a request that is
    running and withdrawing one that is not succeed: no assertion fails and no
    list is corrupted; [testworld] always returns, and so does [testsome] on
    distinct identifiers of requests that exist. *)
Theorem sched_returns st id e now incount :
  reachable st → elems st !! id = Some e → ¬ mode_head_ready st →
  (state e = REQ_SCHEDULED → ∃ st', PINT_req_sched_release (Some id) st = Done (1, st')) ∧
  (state e = REQ_SCHEDULED → PINT_req_sched_unpost id st = Done (- EALREADY, None, st)) ∧
  (state e ≠ REQ_SCHEDULED →
     ∃ st', PINT_req_sched_unpost id st = Done (0, Some (user_ptr e), st')) ∧
  (∃ r out st', PINT_req_sched_testworld now incount st = Done (r, out, st')) ∧
  (∀ nows ids, NoDup ids → Forall (λ i, is_Some (elems st !! i)) ids →
     ∃ r out st', PINT_req_sched_testsome nows ids st = Done (r, out, st')).
Proof.
  intros Hinv%reachable_inv He Hmh. split_and!.
  - intros Hs. destruct (release_spec st id e Hinv He Hs) as (st0 & H0 & Hr & ->).
    destruct (schedule_mode_change_spec st0 H0) as [(s & -> & _)|(_ & _ & ?)]; [cbn; eauto|].
    tauto.
  - intros Hs. unfold PINT_req_sched_unpost. rewrite (get_Done st id e) by done.
    cbn [mbind exec_bind]. by rewrite decide_True.
  - intros Hs. destruct (unpost_spec st id e Hinv He Hs) as (st0 & H0 & Hr & ->).
    destruct (schedule_mode_change_spec st0 H0) as [(s & -> & _)|(_ & _ & ?)]; [cbn; eauto|].
    tauto.
  - destruct (testworld_spec now incount st Hinv) as (r & out & st' & ? & _). eauto.
  - intros nows ids Hn Hp. unfold PINT_req_sched_testsome.
    destruct (testsome_total nows ids 0 [] st Hinv Hn Hp) as (r & st' & ->). cbn.
    destruct r; eauto.
Qed.

(** C21. Progress.  In every run of the scheduler, a call of [testworld] with
    room for all timers and ready requests leaves nothing ready, so that at
    the head of the list of every handle there is a request that is running. *)
Theorem testworld_progress st now incount :
  reachable st →
  Z.of_nat (length (timer_queue st)) + Z.of_nat (length (ready_queue st)) ≤ incount →
  ∃ r out st', PINT_req_sched_testworld now incount st = Done (r, out, st') ∧
    ready_queue st' = [] ∧
    ∀ h x q, req_sched_table st' !! h = Some (x :: q) →
      ∃ e, elems st' !! x = Some e ∧ state e = REQ_SCHEDULED.
Proof.
  intros Hinv%reachable_inv Hin.
  destruct (testworld_spec now incount st Hinv) as (r & out & st' & Hd & Hinv').
  exists r, out, st'. split; [done|].
  assert (ready_queue st' = []) as Hr.
  { revert Hd. unfold PINT_req_sched_testworld.
    destruct (expired_timers_spec now incount (timer_queue st) [] st) as (o1 & st1 & He & H1); [done..|].
    rewrite He. cbn [mbind exec_bind]. apply expired_timers_ready in He as [Hr1 Hlen].
    destruct (start_ready _ _ _ st1) as [[o2 st2]|] eqn:Hs; [|done]. cbn [mbind exec_bind].
    apply start_ready_drains in Hs; [|done|done|rewrite Hr1; cbn [length] in Hlen; lia].
    congruence. }
  split; [done|]. intros h x q Hq.
  destruct (si_queues st' Hinv' _ _ Hq) as ([|a act] & wait & Heq & Hne & _ & Ha & _); [done|].
  simplify_eq/=. apply Forall_cons in Ha as [(e & He & _ & _ & _ & [?|Hs]) _]; [eauto|].
  exfalso. eapply not_elem_of_nil. rewrite <- Hr. apply (si_ready st' Hinv'). eauto.
Qed.

(** * Sample runs *)

Definition done_or {A} (d : A) (m : exec A) : A := match m with Done a => a | Fault _ => d end.

(** Two I/O requests run on handle 5 and a modification waits behind them. *)
Definition sample_sched : sched := done_or (sched_init 0) (
  '(_, _, st) ← PINT_req_sched_post (Some 1%positive) true PVFS_SERV_IO 5 PINT_SERVER_REQ_MODIFY
     PINT_SERVER_REQ_SCHEDULE 71 (sched_init PVFS_SERVER_NORMAL_MODE);
  '(_, _, st) ← PINT_req_sched_post (Some 2%positive) true PVFS_SERV_IO 5 PINT_SERVER_REQ_MODIFY
     PINT_SERVER_REQ_SCHEDULE 72 st;
  '(_, _, st) ← PINT_req_sched_post (Some 3%positive) true 5 5 PINT_SERVER_REQ_MODIFY
     PINT_SERVER_REQ_SCHEDULE 73 st;
  Done st).

(** The server enters admin mode, and a read only request runs. *)
Definition sample_admin : sched := done_or (sched_init 0) (
  '(_, _, st) ← PINT_req_sched_change_mode (Some 1%positive) PVFS_SERVER_ADMIN_MODE 71
     (sched_init PVFS_SERVER_NORMAL_MODE);
  '(_, _, st) ← PINT_req_sched_post (Some 2%positive) true 4 5 PINT_SERVER_REQ_READONLY
     PINT_SERVER_REQ_SCHEDULE 72 st;
  Done st).

Lemma sample_sched_reachable : reachable sample_sched.
Proof.
  exists PVFS_SERVER_NORMAL_MODE.
  eapply rtc_l; [eapply (step_post _ 1%positive true PVFS_SERV_IO 5 PINT_SERVER_REQ_MODIFY
    PINT_SERVER_REQ_SCHEDULE 71); [done|done|done|vm_compute; reflexivity]|].
  eapply rtc_l; [eapply (step_post _ 2%positive true PVFS_SERV_IO 5 PINT_SERVER_REQ_MODIFY
    PINT_SERVER_REQ_SCHEDULE 72); [done|done|done|vm_compute; reflexivity]|].
  eapply rtc_l; [eapply (step_post _ 3%positive true 5 5 PINT_SERVER_REQ_MODIFY
    PINT_SERVER_REQ_SCHEDULE 73); [done|done|done|vm_compute; reflexivity]|].
  vm_compute. apply rtc_refl.
Qed.

Lemma sample_admin_reachable : reachable sample_admin.
Proof.
  exists PVFS_SERVER_NORMAL_MODE.
  eapply rtc_l; [eapply (step_change_mode _ 1%positive PVFS_SERVER_ADMIN_MODE 71);
    [done|vm_compute; reflexivity]|].
  eapply rtc_l; [eapply (step_post _ 2%positive true 4 5 PINT_SERVER_REQ_READONLY
    PINT_SERVER_REQ_SCHEDULE 72); [done|by intros [?|?]|done|vm_compute; reflexivity]|].
  vm_compute. apply rtc_refl.
Qed.

Lemma sched_exclusion_witness :
  compatible (mkElement PVFS_SERV_IO 71 true REQ_SCHEDULED 5 (0, 0) PINT_SERVER_REQ_MODIFY false 0)
    (mkElement PVFS_SERV_IO 72 true REQ_SCHEDULED 5 (0, 0) PINT_SERVER_REQ_MODIFY false 0).
Proof.
  apply (sched_exclusion sample_sched 1%positive 2%positive); try done;
    [apply sample_sched_reachable|by left|by left].
Defined.

Lemma sched_order_witness : sched_count sample_sched = 3 ∧ ready_queue sample_sched = [] ∧
  3 = Z.of_nat (size (listed (elems sample_sched))).
Proof.
  split; [vm_compute; reflexivity|]. split; [vm_compute; reflexivity|].
  exact (proj2 (proj2 (sched_order sample_sched sample_sched_reachable))).
Defined.

Lemma sched_admin_mode_witness :
  PINT_req_sched_post (Some 3%positive) true PVFS_SERV_CRDIRENT 5 PINT_SERVER_REQ_MODIFY
    PINT_SERVER_REQ_SCHEDULE 73 sample_admin = Done (- PVFS_EAGAIN, None, sample_admin).
Proof.
  apply (sched_admin_mode sample_admin); [apply sample_admin_reachable|done|done].
Defined.

Lemma sched_returns_witness :
  ∃ st', PINT_req_sched_release (Some 1%positive) sample_sched = Done (1, st').
Proof.
  apply (sched_returns sample_sched 1%positive
    (mkElement PVFS_SERV_IO 71 true REQ_SCHEDULED 5 (0, 0) PINT_SERVER_REQ_MODIFY false 0) (0, 0) 0);
    [apply sample_sched_reachable|done| |done].
  by intros (? & ? & ? & ? & _).
Defined.

(** Both I/O requests are released: the modification is ready. *)
Definition sample_waiting : sched := done_or (sched_init 0) (
  '(_, st) ← PINT_req_sched_release (Some 1%positive) sample_sched;
  '(_, st) ← PINT_req_sched_release (Some 2%positive) st;
  Done st).

Lemma sample_waiting_reachable : reachable sample_waiting.
Proof.
  destruct sample_sched_reachable as [m Hm]. exists m. etrans; [exact Hm|].
  eapply rtc_l; [eapply (step_release _ 1%positive); [vm_compute; reflexivity|done|vm_compute; reflexivity]|].
  eapply rtc_l; [eapply (step_release _ 2%positive); [vm_compute; reflexivity|done|vm_compute; reflexivity]|].
  vm_compute. apply rtc_refl.
Qed.

Lemma testworld_progress_witness :
  ready_queue sample_waiting = [3%positive] ∧
  ∃ r out st', PINT_req_sched_testworld (0, 0) 1 sample_waiting = Done (r, out, st') ∧
    ready_queue st' = [].
Proof.
  split; [vm_compute; reflexivity|].
  destruct (testworld_progress sample_waiting (0, 0) 1) as (r & out & st' & ? & ? & _);
    [apply sample_waiting_reachable|done|eauto].
Defined.

(** * Behaviour that is not what it should be *)

(** A mode change can be reported twice: a change to admin mode that is
    carried out at once stays at the head of the mode queue, and when the next
    request is released the scheduler makes it ready a second time, so that
    [testworld] hands it out again. *)
Theorem mode_change_reported_twice :
  ∃ st1 st2 st3 st4,
    PINT_req_sched_change_mode (Some 1%positive) PVFS_SERVER_ADMIN_MODE 71
      (sched_init PVFS_SERVER_NORMAL_MODE) = Done (1, Some 1%positive, st1) ∧
    PINT_req_sched_post (Some 2%positive) true 4 5 PINT_SERVER_REQ_READONLY
      PINT_SERVER_REQ_SCHEDULE 72 st1 = Done (1, Some 2%positive, st2) ∧
    PINT_req_sched_release (Some 2%positive) st2 = Done (1, st3) ∧
    PINT_req_sched_testworld (0, 0) 8 st3 = Done (1, [(1%positive, 71)], st4).
Proof. do 4 eexists. repeat (split; [vm_compute; reflexivity|]). vm_compute. reflexivity. Qed.

(** The ready queue can be corrupted: while a mode change is ready and has
    not been handed out, a request that comes and goes links it into the ready
    queue a second time. *)
Theorem mode_change_linked_twice :
  ∃ st1 st2 st3 st4,
    PINT_req_sched_post (Some 1%positive) true 4 5 PINT_SERVER_REQ_READONLY
      PINT_SERVER_REQ_SCHEDULE 71 (sched_init PVFS_SERVER_NORMAL_MODE) = Done (1, Some 1%positive, st1) ∧
    PINT_req_sched_change_mode (Some 2%positive) PVFS_SERVER_ADMIN_MODE 72 st1 =
      Done (0, Some 2%positive, st2) ∧
    PINT_req_sched_release (Some 1%positive) st2 = Done (1, st3) ∧
    PINT_req_sched_post (Some 3%positive) true 4 5 PINT_SERVER_REQ_READONLY
      PINT_SERVER_REQ_SCHEDULE 73 st3 = Done (1, Some 3%positive, st4) ∧
    PINT_req_sched_release (Some 3%positive) st4 = Fault BadAccess.
Proof. do 4 eexists. repeat (split; [vm_compute; reflexivity|]). vm_compute. reflexivity. Qed.

(** A directory entry operation is scheduled next to any request that is
    running on the directory, a modification included, and is recorded as read
    only. *)
Theorem dirent_beside_modification :
  ∃ st1 st2,
    PINT_req_sched_post (Some 1%positive) true 5 5 PINT_SERVER_REQ_MODIFY
      PINT_SERVER_REQ_SCHEDULE 71 (sched_init PVFS_SERVER_NORMAL_MODE) = Done (1, Some 1%positive, st1) ∧
    PINT_req_sched_post (Some 2%positive) true PVFS_SERV_CRDIRENT 5 PINT_SERVER_REQ_MODIFY
      PINT_SERVER_REQ_SCHEDULE 72 st1 = Done (1, Some 2%positive, st2) ∧
    elems st2 !! 2%positive = Some (mkElement PVFS_SERV_CRDIRENT 72 true REQ_SCHEDULED 5 (0, 0)
      PINT_SERVER_REQ_READONLY false 0).
Proof. do 2 eexists. repeat (split; [vm_compute; reflexivity|]). vm_compute. reflexivity. Qed.
