(* ===== verification/Wire.v ===== *)
(** The wire format of src/src/proto/endecode-funcs.h: encoders and decoders
    of the basic types and the ways the [endecode_fields_*] macros put them
    together.

    An encoder of the source writes through a moving pointer into a buffer
    that the caller has allocated; a decoder reads through a moving pointer.
    A [codec] is such a pair.  [enc p x] is the image of [x] when the pointer
    stands at offset [p] of its buffer: one cell for every byte the pointer
    moves over, [Some b] where [b] is written and [None] where the pointer is
    only moved (padding).  [dec buf p] reads a value at offset [p] of [buf]
    and returns the new offset.  Offsets count from the start of a buffer
    that is aligned to eight bytes, because [align8] looks at the pointer.
    The model is that of a build without HAVE_VALGRIND_H. *)

From stdpp Require Import base tactics numbers list list_numbers.
From S2P Require Import Prelude.

(** * Buffers and images *)

Abbreviation image := (list (option Z)).
Abbreviation len l := (Z.of_nat (length l)).

(** [roundup8] of include/pvfs2-encode-stubs.h. *)
Definition roundup8 (x : Z) : Z := Z.land (x + 7) (Z.lnot 7).
#[global] Arguments roundup8 : simpl never.

(** The image that writes [bs]. *)
Definition cells (bs : list Z) : image := Some <$> bs.

(** The bytes an image leaves in a buffer that was filled with zeros, as
    [BMI_memalloc] does. *)
Definition zeroed (im : image) : list Z := default 0 <$> im.

Definition is_byte (b : Z) : bool := (0 <=? b) && (b <? 256).

(** The [n] bytes a pointer into the buffer stands for; making the pointer
    reads nothing. *)
Definition view (buf : list Z) (p n : Z) : list Z :=
  take (Z.to_nat n) (drop (Z.to_nat p) buf).
#[global] Arguments view : simpl never.

(** Reading [n] bytes at [p]. *)
Definition peek (buf : list Z) (p n : Z) : exec (list Z) :=
  if decide (0 ≤ p ∧ 0 ≤ n ∧ p + n ≤ len buf)
  then Done (view buf p n)
  else Fault BadAccess.
#[global] Arguments peek : simpl never.

(** The C string at an address: the bytes before the first zero. *)
Fixpoint until_nul (l : list Z) : list Z :=
  match l with
  | [] => []
  | b :: l => if decide (b = 0) then [] else b :: until_nul l
  end.
Definition c_string (buf : list Z) (p : Z) : list Z :=
  until_nul (drop (Z.to_nat p) buf).
#[global] Arguments c_string : simpl never.

(** * Codecs *)

(** [ok x] says that [x] is a value of the C type: numbers in their range,
    arrays as long as their counts, strings of nonzero bytes. *)
Record codec (A : Type) := Codec {
  enc : Z → A → exec image;
  dec : list Z → Z → exec (A * Z);
  ok : A → bool;
}.
Arguments Codec {A}.
Arguments enc {A}.
Arguments dec {A}.
Arguments ok {A}.

(** ** Basic types *)

Definition uint (n : Z) : codec Z := {|
  enc _ x := Done (cells (Z_to_little_endian n 8 x));
  dec buf p := bs ← peek buf p n; Done (little_endian_to_Z 8 bs, p + n);
  ok x := (0 <=? x) && (x <? 2 ^ (8 * n));
|}.

(** [x] read as a signed number of [n] bytes. *)
Definition signed (n x : Z) : Z :=
  (x + 2 ^ (8 * n - 1)) mod 2 ^ (8 * n) - 2 ^ (8 * n - 1).

Definition sint (n : Z) : codec Z := {|
  enc _ x := Done (cells (Z_to_little_endian n 8 x));
  dec buf p := bs ← peek buf p n; Done (signed n (little_endian_to_Z 8 bs), p + n);
  ok x := (- 2 ^ (8 * n - 1) <=? x) && (x <? 2 ^ (8 * n - 1));
|}.

Definition uint64_t : codec Z := uint 8.
Definition int64_t : codec Z := sint 8.
Definition uint32_t : codec Z := uint 4.
Definition int32_t : codec Z := sint 4.
(** A [char] read back through [unsigned char]. *)
Definition char : codec Z := uint 1.
Definition enum : codec Z := int32_t.

(** The pointer is moved over [n] bytes, or to the next multiple of eight. *)
Definition skip (n : Z) : codec unit := {|
  enc _ _ := Done (replicate (Z.to_nat n) None);
  dec _ p := Done ((), p + n);
  ok _ := 0 <=? n;
|}.
Definition skip4 : codec unit := skip 4.

Definition align8 : codec unit := {|
  enc p _ := Done (replicate (Z.to_nat (roundup8 p - p)) None);
  dec _ p := Done ((), roundup8 p);
  ok _ := true;
|}.

(** ** Strings

    A [char *] is the string it points to, or [None] for the NULL pointer.
    Decoding a string makes the field point into the buffer. *)
Abbreviation str := (option (list Z)).

Definition nonzero_byte (b : Z) : bool := (0 <? b) && (b <? 256).

Definition str_bytes (s : str) : list Z := match s with Some l => l | None => [] end.
Definition strlen (s : str) : Z := len (str_bytes s).

(** The length is kept in a [u_int32_t], and so are the sums with it. *)
Definition string_step (l : Z) : Z := roundup8 (u32 (4 + l + 1)).

Definition encode_string (s : str) : image :=
  let l := u32 (strlen s) in
  if decide (l = 0) then cells (Z_to_little_endian 4 8 0) ++ replicate 4 None
  else cells (Z_to_little_endian 4 8 l) ++ cells (str_bytes s ++ [0]) ++
       replicate (Z.to_nat (string_step l - (4 + l + 1))) None.

Definition string_ok (s : str) : bool :=
  match s with
  | Some l => forallb nonzero_byte l && (len l <? B31)
  | None => false
  end.

Definition string : codec str := {|
  enc _ s := Done (encode_string s);
  dec buf p :=
    '(l, _) ← dec uint32_t buf p;
    Done (Some (c_string buf (p + 4)), p + string_step l);
  ok := string_ok;
|}.

(** A string that is copied into an array of [size] bytes of the struct.  The
    length on the wire decides how much is copied. *)
Definition here_string (size : Z) : codec (list Z) := {|
  enc _ s := Done (encode_string (Some s));
  dec buf p :=
    '(l, _) ← dec uint32_t buf p;
    bs ← peek buf (p + 4) (u32 (l + 1));
    if decide (u32 (l + 1) ≤ size) then Done (until_nul bs, p + string_step l)
    else Fault BadAccess;
  ok s := string_ok (Some s) && (len s <? size);
|}.

(** ** Key and value buffers *)

Record PVFS_ds_keyval := mkKeyval {
  kv_buffer : list Z;
  kv_buffer_sz : Z;   (* int32_t *)
}.

Definition keyval_step (l : Z) : Z := roundup8 (u32 (4 + l)).

Definition ds_keyval : codec PVFS_ds_keyval := {|
  enc _ kv :=
    let l := u32 (kv_buffer_sz kv) in
    bs ← peek (kv_buffer kv) 0 l;
    Done (cells (Z_to_little_endian 4 8 l) ++ cells bs ++
          replicate (Z.to_nat (keyval_step l - (4 + l))) None);
  dec buf p :=
    '(l, _) ← dec uint32_t buf p;
    Done (mkKeyval (view buf (p + 4) l) (i32 l), p + keyval_step l);
  ok kv := (len (kv_buffer kv) =? kv_buffer_sz kv) && (kv_buffer_sz kv <? B31 - 12)
           && forallb is_byte (kv_buffer kv);
|}.

(** ** Data that is copied as it is, and pointed to when it is received *)

Definition raw (n : Z) : codec (list Z) := {|
  enc _ l := bs ← (peek l 0 n : exec (list Z)); Done (cells bs);
  dec buf p := Done (view buf p n, p + n);
  ok l := (len l =? n) && forallb is_byte l;
|}.

(** * Composition *)

(** One field after another; what the second is may depend on the first. *)
Definition dep {A B} (c : codec A) (k : A → codec B) : codec (A * B) := {|
  enc p '(a, b) :=
    i1 ← enc c p a;
    i2 ← enc (k a) (p + len i1) b;
    Done (i1 ++ i2);
  dec buf p :=
    '(a, p1) ← dec c buf p;
    '(b, p2) ← dec (k a) buf p1;
    Done ((a, b), p2);
  ok '(a, b) := ok c a && ok (k a) b;
|}.

(** The fields of a struct [A] as the tuple the macro goes through. *)
Definition struct {A B} (make : B → A) (fields : A → B) (c : codec B) : codec A := {|
  enc p x := enc c p (fields x);
  dec buf p := '(b, p1) ← dec c buf p; Done (make b, p1);
  ok x := ok c (fields x);
|}.

Definition pair {A B} (c : codec A) (d : codec B) : codec (A * B) := dep c (λ _, d).
Definition before {B} (s : codec unit) (c : codec B) : codec B :=
  struct snd (λ b, ((), b)) (pair s c).
Definition after {A} (c : codec A) (s : codec unit) : codec A :=
  struct fst (λ a, (a, ())) (pair c s).

Declare Scope codec_scope.
Delimit Scope codec_scope with codec.
Notation "c ⊗ d" := (pair c d) (at level 45, left associativity) : codec_scope.
Notation "s ⊗> c" := (before s c) (at level 45, left associativity) : codec_scope.
Notation "c <⊗ s" := (after c s) (at level 45, left associativity) : codec_scope.
Notation "c ▷ k" := (dep c k) (at level 45, left associativity) : codec_scope.

(** An array of [n] elements, written and read in a loop. *)
Fixpoint enc_array {A} (c : codec A) (n : nat) (p : Z) (l : list A) : exec image :=
  match n, l with
  | O, _ => Done []
  | S n, x :: l =>
      i1 ← enc c p x;
      i2 ← enc_array c n (p + len i1) l;
      Done (i1 ++ i2)
  | S _, [] => Fault BadAccess
  end.

Fixpoint dec_array {A} (c : codec A) (n : nat) (buf : list Z) (p : Z) : exec (list A * Z) :=
  match n with
  | O => Done ([], p)
  | S n =>
      '(x, p1) ← dec c buf p;
      '(l, p2) ← dec_array c n buf p1;
      Done (x :: l, p2)
  end.

Definition array {A} (n : Z) (c : codec A) : codec (list A) := {|
  enc p l := enc_array c (Z.to_nat n) p l;
  dec buf p := dec_array c (Z.to_nat n) buf p;
  ok l := (len l =? n) && forallb (ok c) l;
|}.

(** A field that is sent only if [b]; it has no value otherwise. *)
Definition when {A} (b : bool) (c : codec A) : codec (option A) := {|
  enc p x :=
    if b then match x with Some a => enc c p a | None => Fault BadAccess end
    else Done [];
  dec buf p :=
    if b then '(a, p1) ← dec c buf p; Done (Some a, p1) else Done (None, p);
  ok x := match x with Some a => b && ok c a | None => negb b end;
|}.

(** One member of a union. *)
Definition member {A B} (inj : A → B) (proj : B → option A) (c : codec A) : codec B := {|
  enc p x := match proj x with Some a => enc c p a | None => Fault BadAccess end;
  dec buf p := '(a, p1) ← dec c buf p; Done (inj a, p1);
  ok x := match proj x with Some a => ok c a | None => false end;
|}.

(** * Laws

    A value that is sent is the value that is received, up to [f]: the image
    holds bytes, and decoding it, wherever the buffer begins and whatever
    follows, gives [f x] and moves the pointer over the image. *)

Definition cell_ok (c : option Z) : Prop :=
  match c with Some b => 0 ≤ b < 256 | None => True end.

Class Receives {A} (c : codec A) (f : A → A) : Prop :=
  receives x p : 0 ≤ p → ok c x = true →
    ∃ im, enc c p x = Done im ∧ Forall cell_ok im ∧
      ∀ pre post, len pre = p →
        dec c (pre ++ zeroed im ++ post) p = Done (f x, p + len im).

Abbreviation Lawful c := (Receives c (λ x, x)).

(** [make] undoes [fields]. *)
Class Undoes {A B} (make : B → A) (fields : A → B) : Prop :=
  undoes x : make (fields x) = x.

(** ** Reading back what was written *)

Lemma length_zeroed im : length (zeroed im) = length im.
Proof. apply length_fmap. Qed.

Lemma zeroed_app i1 i2 : zeroed (i1 ++ i2) = zeroed i1 ++ zeroed i2.
Proof. apply fmap_app. Qed.

Lemma length_cells bs : length (cells bs) = length bs.
Proof. apply length_fmap. Qed.

Lemma zeroed_cells bs : zeroed (cells bs) = bs.
Proof. unfold zeroed, cells. rewrite <- list_fmap_compose. apply list_fmap_id. Qed.

Lemma zeroed_none n : zeroed (replicate n None) = replicate n 0.
Proof. unfold zeroed. by rewrite fmap_replicate. Qed.

Lemma cells_ok bs : Forall (λ b, 0 ≤ b < 256) bs → Forall cell_ok (cells bs).
Proof. intros H. unfold cells. by apply Forall_fmap. Qed.

Lemma none_ok n : Forall cell_ok (replicate n None).
Proof. by apply Forall_replicate. Qed.

Lemma view_mid pre bs post p n :
  len pre = p → len bs = n → view (pre ++ bs ++ post) p n = bs.
Proof.
  intros <- <-. unfold view. rewrite !Nat2Z.id, drop_app_length, take_app_length. done.
Qed.

Lemma peek_mid pre bs post p n :
  len pre = p → len bs = n → peek (pre ++ bs ++ post) p n = Done bs.
Proof.
  intros Hp Hn. unfold peek. rewrite decide_True.
  - by rewrite (view_mid _ bs).
  - rewrite !length_app. lia.
Qed.

Lemma peek_all bs n : len bs = n → peek bs 0 n = Done bs.
Proof. intros. pose proof (peek_mid [] bs [] 0 n eq_refl H) as E. by rewrite app_nil_r in E. Qed.

Lemma until_nul_app l rest :
  forallb nonzero_byte l = true → until_nul (l ++ 0 :: rest) = l.
Proof.
  induction l as [|b l IH]; cbn; [done|]. intros [Hb Hl]%andb_true_iff.
  unfold nonzero_byte in Hb. rewrite decide_False by lia. by rewrite IH.
Qed.

Lemma c_string_mid pre l rest p :
  len pre = p → forallb nonzero_byte l = true → c_string (pre ++ l ++ 0 :: rest) p = l.
Proof.
  intros <- Hl. unfold c_string. rewrite Nat2Z.id, drop_app_length. by apply until_nul_app.
Qed.

(** ** Numbers *)

Lemma le_roundtrip n x : 0 ≤ n → 0 ≤ x < 2 ^ (8 * n) →
  little_endian_to_Z 8 (Z_to_little_endian n 8 x) = x.
Proof.
  intros. rewrite little_endian_to_Z_to_little_endian by lia.
  rewrite Z.mul_comm. by apply Z.mod_small.
Qed.

Lemma le_signed n x : 0 < n → - 2 ^ (8 * n - 1) ≤ x < 2 ^ (8 * n - 1) →
  signed n (little_endian_to_Z 8 (Z_to_little_endian n 8 x)) = x.
Proof.
  intros Hn Hx. rewrite little_endian_to_Z_to_little_endian by lia.
  rewrite Z.mul_comm. unfold signed.
  assert (2 ^ (8 * n) = 2 * 2 ^ (8 * n - 1)) as E.
  { rewrite <- Z.pow_succ_r by lia. f_equal. lia. }
  rewrite Zplus_mod_idemp_l, Z.mod_small; lia.
Qed.

Lemma le_ok n x : 0 ≤ n → Forall cell_ok (cells (Z_to_little_endian n 8 x)).
Proof. intros. apply cells_ok. by apply (Z_to_little_endian_bound n 8). Qed.

Lemma len_le n x : 0 ≤ n → len (cells (Z_to_little_endian n 8 x)) = n.
Proof. intros. rewrite length_cells. by apply length_Z_to_little_endian. Qed.

Lemma uint_lawful n : 0 ≤ n → Lawful (uint n).
Proof.
  intros Hn x p Hp Hx. cbn in *. eexists. split; [done|]. split; [by apply le_ok|].
  intros pre post Hpre. rewrite zeroed_cells, peek_mid; [|done|by apply length_Z_to_little_endian].
  cbn. rewrite le_roundtrip, len_le by lia. done.
Qed.

Lemma sint_lawful n : 0 < n → Lawful (sint n).
Proof.
  intros Hn x p Hp Hx. cbn [ok sint] in Hx. eexists. split; [done|]. split; [apply le_ok; lia|].
  intros pre post Hpre. cbn [dec sint].
  rewrite zeroed_cells, peek_mid; [|done|apply length_Z_to_little_endian; lia].
  cbn [mbind exec_bind]. rewrite le_signed, len_le by lia. done.
Qed.

#[export] Instance uint64_t_lawful : Lawful uint64_t := uint_lawful 8 ltac:(lia).
#[export] Instance int64_t_lawful : Lawful int64_t := sint_lawful 8 ltac:(lia).
#[export] Instance uint32_t_lawful : Lawful uint32_t := uint_lawful 4 ltac:(lia).
#[export] Instance int32_t_lawful : Lawful int32_t := sint_lawful 4 ltac:(lia).
#[export] Instance char_lawful : Lawful char := uint_lawful 1 ltac:(lia).
#[export] Instance enum_lawful : Lawful enum := int32_t_lawful.

(** Reading the [u_int32_t] in front of a string or a key. *)
Lemma dec_length pre l post p : len pre = p → 0 ≤ l < B32 →
  dec uint32_t (pre ++ Z_to_little_endian 4 8 l ++ post) p = Done (l, p + 4).
Proof.
  intros Hp Hl. cbn. rewrite peek_mid; [|done|by apply length_Z_to_little_endian].
  cbn. by rewrite le_roundtrip by lia.
Qed.

(** ** Padding *)

Lemma roundup8_spec x : x ≤ roundup8 x < x + 8 ∧ (8 | roundup8 x).
Proof.
  unfold roundup8.
  assert (Z.land (x + 7) (Z.lnot 7) = 8 * ((x + 7) / 8)) as ->.
  { change 7 with (Z.ones 3) at 2. rewrite <- Z.ldiff_land, Z.ldiff_ones_r by lia.
    rewrite Z.shiftr_div_pow2, Z.shiftl_mul_pow2 by lia. change (2 ^ 3) with 8. lia. }
  pose proof (Z.div_mod (x + 7) 8). pose proof (Z.mod_pos_bound (x + 7) 8).
  split; [lia|]. exists ((x + 7) / 8). lia.
Qed.

Lemma roundup8_ge x : x ≤ roundup8 x.
Proof. destruct (roundup8_spec x). lia. Qed.

Lemma skip_lawful n : 0 ≤ n → Lawful (skip n).
Proof.
  intros Hn [] p Hp _. eexists. split; [done|]. split; [apply none_ok|].
  intros pre post Hpre. cbn. rewrite length_replicate, Z2Nat.id by lia. done.
Qed.
#[export] Instance skip4_lawful : Lawful skip4 := skip_lawful 4 ltac:(lia).

#[export] Instance align8_lawful : Lawful align8.
Proof.
  intros [] p Hp _. eexists. split; [done|]. split; [apply none_ok|].
  intros pre post Hpre. cbn. pose proof (roundup8_ge p).
  rewrite length_replicate, Z2Nat.id by lia. do 2 f_equal. lia.
Qed.

(** ** Strings and keys *)

Lemma nonzero_bytes l : forallb nonzero_byte l = true → Forall (λ b, 0 ≤ b < 256) l.
Proof. apply forallb_Forall. unfold nonzero_byte. lia. Qed.

Lemma is_bytes l : forallb is_byte l = true → Forall (λ b, 0 ≤ b < 256) l.
Proof. apply forallb_Forall. unfold is_byte. lia. Qed.

Lemma string_step_id l : 0 ≤ l < B31 → string_step l = roundup8 (4 + l + 1).
Proof. intros. unfold string_step. by rewrite u32_id by lia. Qed.

(** The image of a string: its length, its bytes, a zero, and padding to a
    multiple of eight.  The empty string leaves its zero to the buffer. *)
Lemma encode_string_spec l : string_ok (Some l) = true →
  Forall cell_ok (encode_string (Some l)) ∧
  len (encode_string (Some l)) = string_step (len l) ∧
  ∃ pad, zeroed (encode_string (Some l)) = Z_to_little_endian 4 8 (len l) ++ l ++ 0 :: pad.
Proof.
  intros [Hb Hl]%andb_true_iff. apply Z.ltb_lt in Hl.
  unfold encode_string. unfold strlen. cbn [str_bytes]. rewrite u32_id by lia.
  destruct l as [|b l].
  { split; [|split; [done|by exists [0; 0; 0]]].
    apply Forall_app. split; [by apply le_ok|apply none_ok]. }
  rewrite decide_False by (cbn [length]; lia). set (l' := b :: l) in *.
  pose proof (roundup8_ge (4 + len l' + 1)). split; [|split].
  - apply Forall_app. split; [by apply le_ok|]. apply Forall_app. split; [|apply none_ok].
    apply cells_ok. apply Forall_app. split; [by apply nonzero_bytes|]. by repeat constructor.
  - rewrite !length_app, Nat2Z.inj_add, len_le, length_cells, length_app, length_replicate by lia.
    rewrite string_step_id by lia. cbn [length]. lia.
  - rewrite !zeroed_app, !zeroed_cells, zeroed_none.
    eexists. by rewrite <- app_assoc.
Qed.

Lemma len_pre_le pre p l : len pre = p → len (pre ++ Z_to_little_endian 4 8 l) = p + 4.
Proof.
  intros. rewrite length_app, Nat2Z.inj_add, length_Z_to_little_endian by lia. lia.
Qed.

#[export] Instance string_lawful : Lawful string.
Proof.
  intros [l|] p Hp Hok; [|done]. cbn [ok string] in Hok.
  destruct (encode_string_spec l Hok) as (Hcells & Hlen & pad & Hz).
  apply andb_true_iff in Hok as [Hb Hl%Z.ltb_lt].
  exists (encode_string (Some l)). split; [done|]. split; [done|].
  intros pre post Hpre. cbn [dec string]. rewrite Hz, <- app_assoc.
  rewrite dec_length by lia. cbn [mbind exec_bind]. rewrite Hlen. do 3 f_equal.
  rewrite <- (app_assoc l), app_assoc. cbn [app]. apply c_string_mid; [by apply len_pre_le|done].
Qed.

Lemma here_string_lawful size : 0 ≤ size → Lawful (here_string size).
Proof.
  intros Hsize l p Hp [Hok Hs]%andb_true_iff. apply Z.ltb_lt in Hs.
  destruct (encode_string_spec l Hok) as (Hcells & Hlen & pad & Hz).
  apply andb_true_iff in Hok as [Hb Hl%Z.ltb_lt].
  exists (encode_string (Some l)). split; [done|]. split; [done|].
  intros pre post Hpre. cbn [dec here_string]. rewrite Hz, <- app_assoc.
  rewrite dec_length by lia. cbn [mbind exec_bind]. rewrite u32_id by lia.
  replace ((l ++ 0 :: pad) ++ post) with ((l ++ [0]) ++ pad ++ post) by (by rewrite <- !app_assoc).
  rewrite app_assoc, peek_mid; [|by apply len_pre_le|rewrite length_app; cbn; lia].
  cbn [mbind exec_bind]. rewrite decide_True by lia. by rewrite until_nul_app, Hlen.
Qed.

#[export] Instance ds_keyval_lawful : Lawful ds_keyval.
Proof.
  intros [b sz] p Hp Hok. cbn [ok ds_keyval kv_buffer kv_buffer_sz] in Hok.
  apply andb_true_iff in Hok as [[Hlen Hsz]%andb_true_iff Hb].
  apply Z.eqb_eq in Hlen. apply Z.ltb_lt in Hsz.
  cbn [enc ds_keyval kv_buffer kv_buffer_sz]. rewrite u32_id by lia.
  rewrite peek_all by done.
  cbn [mbind exec_bind]. eexists. split; [done|]. split.
  { repeat (apply Forall_app; split); [by apply le_ok|by apply cells_ok, is_bytes|apply none_ok]. }
  intros pre post Hpre. cbn [dec ds_keyval].
  rewrite !zeroed_app, !zeroed_cells, <- !app_assoc, dec_length by lia.
  cbn [mbind exec_bind]. rewrite app_assoc, (view_mid _ b), i32_id; [|lia|by apply len_pre_le|done].
  do 2 f_equal. rewrite !length_app, !Nat2Z.inj_add, len_le, length_cells, length_replicate by lia.
  unfold keyval_step. rewrite u32_id by lia. pose proof (roundup8_ge (4 + sz)). lia.
Qed.

#[export] Instance raw_lawful n : Lawful (raw n).
Proof.
  intros l p Hp Hok. cbn [ok raw] in Hok. apply andb_true_iff in Hok as [Hlen%Z.eqb_eq Hb].
  cbn [enc raw]. rewrite peek_all by done.
  cbn [mbind exec_bind]. eexists. split; [done|]. split; [by apply cells_ok, is_bytes|].
  intros pre post Hpre. cbn [dec raw]. rewrite zeroed_cells, (view_mid _ l) by done.
  by rewrite length_cells, Hlen.
Qed.

(** ** Composition *)

(** The second field is decoded where the first one ends; [f] says how the
    second is received. *)
Lemma dep_receives {A B} (c : codec A) (k : A → codec B) (f : A → B → B) :
  Lawful c → (∀ a, Receives (k a) (f a)) →
  Receives (dep c k) (λ '(a, b), (a, f a b)).
Proof.
  intros Hc Hk [a b] p Hp [Ha Hb]%andb_true_iff.
  destruct (Hc a p Hp Ha) as (i1 & E1 & C1 & D1).
  destruct (Hk a b (p + len i1) ltac:(lia) Hb) as (i2 & E2 & C2 & D2).
  exists (i1 ++ i2). cbn [enc dep]. rewrite E1. cbn [mbind exec_bind]. rewrite E2.
  split; [done|]. split; [by apply Forall_app|].
  intros pre post Hpre. cbn [dec dep]. rewrite zeroed_app, <- app_assoc, D1 by done.
  cbn [mbind exec_bind]. rewrite app_assoc, D2.
  - cbn. do 2 f_equal. rewrite length_app. lia.
  - rewrite length_app, length_zeroed. lia.
Qed.

Lemma receives_ext {A} (c : codec A) (f g : A → A) :
  (∀ x, f x = g x) → Receives c f → Receives c g.
Proof. intros E H x p Hp Hx. rewrite <- E. by apply H. Qed.

#[export] Instance dep_lawful {A B} (c : codec A) (k : A → codec B) :
  Lawful c → (∀ a, Lawful (k a)) → Lawful (dep c k).
Proof.
  intros. eapply receives_ext; [|by apply (dep_receives c k (λ _ b, b))]. by intros [].
Qed.

(** A struct whose fields are received up to [f] is received up to [g]. *)
Lemma struct_receives {A B} (make : B → A) (fields : A → B) (c : codec B) f g :
  Receives c f → (∀ x, make (f (fields x)) = g x) → Receives (struct make fields c) g.
Proof.
  intros Hc Hf x p Hp Hx. destruct (Hc (fields x) p Hp Hx) as (im & E & C & D).
  exists im. split; [done|]. split; [done|]. intros pre post Hpre.
  cbn [dec struct]. rewrite D by done. cbn. by rewrite Hf.
Qed.

#[export] Instance struct_lawful {A B} (make : B → A) (fields : A → B) (c : codec B) :
  Lawful c → Undoes make fields → Lawful (struct make fields c).
Proof. intros Hc Hu. by eapply struct_receives. Qed.

#[export] Instance pair_lawful {A B} (c : codec A) (d : codec B) :
  Lawful c → Lawful d → Lawful (pair c d).
Proof. intros. by apply dep_lawful. Qed.

#[export] Instance before_lawful {B} (s : codec unit) (c : codec B) :
  Lawful s → Lawful c → Lawful (before s c).
Proof. intros. by apply struct_lawful; [apply pair_lawful|]. Qed.

#[export] Instance after_lawful {A} (c : codec A) (s : codec unit) :
  Lawful c → Lawful s → Lawful (after c s).
Proof. intros. by apply struct_lawful; [apply pair_lawful|]. Qed.

(** An array is received element by element. *)
Lemma array_receives {A} (c : codec A) l p :
  Lawful c → 0 ≤ p → forallb (ok c) l = true →
  ∃ im, enc_array c (length l) p l = Done im ∧ Forall cell_ok im ∧
    ∀ pre post, len pre = p →
      dec_array c (length l) (pre ++ zeroed im ++ post) p = Done (l, p + len im).
Proof.
  intros Hc. revert p. induction l as [|x l IH]; intros p Hp Hok.
  { exists []. split; [done|]. split; [constructor|]. intros. cbn. by rewrite Z.add_0_r. }
  apply andb_true_iff in Hok as [Hx Hl].
  destruct (Hc x p Hp Hx) as (i1 & E1 & C1 & D1).
  destruct (IH (p + len i1) ltac:(lia) Hl) as (i2 & E2 & C2 & D2).
  exists (i1 ++ i2). cbn [enc_array length]. rewrite E1. cbn [mbind exec_bind]. rewrite E2.
  split; [done|]. split; [by apply Forall_app|].
  intros pre post Hpre. cbn [dec_array]. rewrite zeroed_app, <- app_assoc, D1 by done.
  cbn [mbind exec_bind]. rewrite app_assoc, D2.
  - cbn. do 2 f_equal. rewrite length_app. lia.
  - rewrite length_app, length_zeroed. lia.
Qed.

#[export] Instance array_lawful {A} n (c : codec A) : Lawful c → Lawful (array n c).
Proof.
  intros Hc l p Hp [Hlen%Z.eqb_eq Hok]%andb_true_iff.
  cbn [enc dec array]. rewrite <- Hlen, Nat2Z.id. by apply array_receives.
Qed.

#[export] Instance when_lawful {A} b (c : codec A) : Lawful c → Lawful (when b c).
Proof.
  intros Hc [a|] p Hp Hok; destruct b; try done.
  - destruct (Hc a p Hp Hok) as (im & E & C & D). exists im. split; [done|]. split; [done|].
    intros. cbn. by rewrite D.
  - exists []. split; [done|]. split; [constructor|]. intros. cbn. by rewrite Z.add_0_r.
Qed.

(** A member is received as the same member. *)
Lemma member_receives {A B} (inj : A → B) (proj : B → option A) (c : codec A) f g :
  Receives c f → (∀ x a, proj x = Some a → inj (f a) = g x) →
  Receives (member inj proj c) g.
Proof.
  intros Hc Hg x p Hp. cbn [ok member]. destruct (proj x) as [a|] eqn:Ha; [|done].
  intros Hok. destruct (Hc a p Hp Hok) as (im & E & C & D). exists im.
  cbn [enc dec member]. rewrite Ha. split; [done|]. split; [done|].
  intros pre post Hpre. rewrite D by done. cbn. by rewrite (Hg x a).
Qed.

#[export] Hint Extern 0 (Undoes _ _) => solve [intros []; reflexivity | intros x; destruct x; reflexivity] : typeclass_instances.
#[export] Hint Extern 1 (Receives (match ?x with _ => _ end) _) => destruct x : typeclass_instances.
