(* ===== verification/DistTable.v ===== *)
(** The table of distributions of src/src/io/description/pint-distribution.c,
    the table of their parameters of pint-dist-utils.c, and distributions on
    the wire ([encode_PINT_dist] of pint-distribution.h).

    A [PINT_dist] carries its parameters as the struct of its kind and its
    methods as the name of the file that supplies them. *)

From stdpp Require Import base tactics numbers list strings.
From S2P Require Import Prelude Errors Wire.

#[local] Open Scope codec_scope.

(** The bytes of a string literal. *)
Definition zs (s : String.string) : list Z :=
  (λ a, Z.of_N (Ascii.N_of_ascii a)) <$> String.list_ascii_of_string s.

(** * Distributions *)

Record PVFS_twod_stripe_params := mkTwodParams {
  twod_num_groups : Z;          (* uint32_t *)
  twod_strip_size : Z;          (* PVFS_size *)
  twod_group_strip_factor : Z;  (* uint32_t *)
}.

Inductive dist_params :=
  | P_basic
  | P_simple_stripe (strip_size : Z)
  | P_twod_stripe (p : PVFS_twod_stripe_params)
  | P_varstrip (strips : list Z).

Inductive dist_methods := M_basic | M_simple_stripe | M_twod_stripe | M_varstrip.

#[export] Instance dist_params_eq_dec : EqDecision dist_params.
Proof. intros ??. unfold Decision. repeat (decide equality; try solve_decision). Defined.
#[export] Instance dist_methods_eq_dec : EqDecision dist_methods.
Proof. solve_decision. Defined.

Record PINT_dist := mkDist {
  dist_name : list Z;
  name_size : Z;       (* int32_t *)
  param_size : Z;      (* int32_t *)
  params : dist_params;
  methods : dist_methods;
}.

Definition PINT_DIST_NAME_SZ : Z := 32.
Definition PINT_DIST_TABLE_SZ : Z := 8.
Definition VARSTRIP_MAX : Z := 1025.

(** [strncmp (a, b, n) == 0] on strings. *)
Definition strncmp_eq (a b : list Z) (n : Z) : bool :=
  bool_decide (take (Z.to_nat n) a = take (Z.to_nat n) b).

Definition basic_dist : PINT_dist :=
  mkDist (zs "basic_dist") (roundup8 11) 0 P_basic M_basic.
Definition simple_stripe_dist : PINT_dist :=
  mkDist (zs "simple_stripe") (roundup8 14) (roundup8 8) (P_simple_stripe 65536) M_simple_stripe.
Definition twod_stripe_dist : PINT_dist :=
  mkDist (zs "twod_stripe") (roundup8 14) (roundup8 24)
    (P_twod_stripe (mkTwodParams 2 65536 256)) M_twod_stripe.
Definition varstrip_dist : PINT_dist :=
  mkDist (zs "varstrip_dist") (roundup8 14) (roundup8 VARSTRIP_MAX) (P_varstrip []) M_varstrip.

(** * The table of parameters *)

Record param_offset := mkParamOffset {
  po_dist : list Z;
  po_param : list Z;
  po_offset : Z;
  po_size : Z;
}.

Definition PINT_get_param_offset (t : list param_offset) (dname pname : list Z)
    : option param_offset :=
  list_find (λ o, po_dist o = dname ∧ po_param o = pname) t ≫= λ '(_, o), Some o.

Definition PINT_dist_register_param_offset (t : list param_offset) (dname pname : list Z)
    (offset size : Z) : list param_offset :=
  t ++ [mkParamOffset dname pname offset size].

(** Removes the first entry for the parameter: the loop that moves the later
    entries down also ends the search. *)
Definition PINT_dist_unregister_param_offset (t : list param_offset) (dname pname : list Z)
    : list param_offset :=
  match list_find (λ o, po_dist o = dname ∧ po_param o = pname) t with
  | Some (i, _) => delete i t
  | None => t
  end.

(** The [registration_init] and [unregister] methods. *)
Definition registration_init (m : dist_methods) (t : list param_offset) : list param_offset :=
  let add p o s t := PINT_dist_register_param_offset t
    (dist_name match m with M_basic => basic_dist | M_simple_stripe => simple_stripe_dist
               | M_twod_stripe => twod_stripe_dist | M_varstrip => varstrip_dist end) p o s in
  match m with
  | M_basic => t
  | M_simple_stripe => add (zs "strip_size") 0 8 t
  | M_twod_stripe =>
      add (zs "group_strip_factor") 16 4
        (add (zs "strip_size") 8 8 (add (zs "num_groups") 0 4 t))
  | M_varstrip => add (zs "strips") 0 VARSTRIP_MAX t
  end.

Definition unregister (m : dist_methods) (t : list param_offset) : list param_offset :=
  match m with
  | M_basic => t
  | M_simple_stripe =>
      PINT_dist_unregister_param_offset t (zs "simple_stripe") (zs "strip_size")
  | M_twod_stripe =>
      let d := zs "twod_stripe" in
      PINT_dist_unregister_param_offset
        (PINT_dist_unregister_param_offset
          (PINT_dist_unregister_param_offset t d (zs "num_groups"))
          d (zs "strip_size")) d (zs "group_strip_factor")
  | M_varstrip =>
      PINT_dist_unregister_param_offset t (zs "varstrip_dist") (zs "strips")
  end.

(** * The table of distributions *)

Record dist_state := mkDistState {
  table : list PINT_dist;            (* PINT_Dist_table, PINT_Dist_count entries *)
  param_table : list param_offset;   (* PINT_dist_param_table *)
}.

Definition PINT_register_distribution (s : dist_state) (d : option PINT_dist) : dist_state * Z :=
  match d with
  | Some d =>
      if decide (len (table s) < PINT_DIST_TABLE_SZ) then
        (mkDistState (table s ++ [d]) (registration_init (methods d) (param_table s)), 0)
      else (s, -1)
  | None => (s, -1)
  end.

(** The first entry whose name agrees on [PINT_DIST_NAME_SZ] characters. *)
Definition find_dist (t : list PINT_dist) (name : list Z) : option (nat * PINT_dist) :=
  list_find (λ d, strncmp_eq name (dist_name d) PINT_DIST_NAME_SZ = true) t.

Definition PINT_unregister_distribution (s : dist_state) (name : str) : dist_state * Z :=
  match name with
  | Some name =>
      match find_dist (table s) name with
      | Some (i, d) =>
          (mkDistState (delete i (table s)) (unregister (methods d) (param_table s)), 0)
      | None => (s, -1)
      end
  | None => (s, -1)
  end.

(** [PINT_dist_lookup] fills in the sizes, and the parameters and methods
    where the caller has none. *)
Record dist_template := mkTemplate {
  t_name : str;
  t_sizes : option (Z * Z);
  t_params : option dist_params;
  t_methods : option dist_methods;
}.

Definition PINT_dist_lookup (t : list PINT_dist) (d : dist_template) : dist_template * Z :=
  match t_name d with
  | Some name =>
      match find_dist t name with
      | Some (_, e) =>
          (mkTemplate (Some name) (Some (name_size e, param_size e))
             (match t_params d with Some p => Some p | None => Some (params e) end)
             (match t_methods d with Some m => Some m | None => Some (methods e) end), 0)
      | None => (d, -1)
      end
  | None => (d, -1)
  end.

(** A copy of the table's entry under the caller's spelling of the name; the
    name must fit in the space reserved for it. *)
Definition PINT_dist_create (t : list PINT_dist) (name : str) : exec (option PINT_dist) :=
  match name with
  | None => Done None
  | Some n =>
      match PINT_dist_lookup t (mkTemplate (Some n) None None None) with
      | (mkTemplate _ (Some (ns, ps)) (Some p) (Some m), 0) =>
          if decide (len n + 1 ≤ ns) then Done (Some (mkDist n ns ps p m))
          else Fault AssertFailed
      | _ => Done None
      end
  end.

Definition PINT_dist_initialize (s : dist_state) : dist_state * Z :=
  let s1 := fst (PINT_register_distribution s (Some basic_dist)) in
  let s2 := fst (PINT_register_distribution s1 (Some varstrip_dist)) in
  let s3 := fst (PINT_register_distribution s2 (Some simple_stripe_dist)) in
  let s4 := fst (PINT_register_distribution s3 (Some twod_stripe_dist)) in
  (s4, 0).

(** The parameter table is freed at the end. *)
Definition PINT_dist_finalize (s : dist_state) : dist_state :=
  let s1 := fst (PINT_unregister_distribution s (Some (dist_name basic_dist))) in
  let s2 := fst (PINT_unregister_distribution s1 (Some (dist_name varstrip_dist))) in
  let s3 := fst (PINT_unregister_distribution s2 (Some (dist_name simple_stripe_dist))) in
  let s4 := fst (PINT_unregister_distribution s3 (Some (dist_name twod_stripe_dist))) in
  mkDistState (table s4) [].

(** * Setting a parameter *)

(** The [value] argument of [set_param], by what the callee reads there. *)
Inductive param_value := V_int64 (v : Z) | V_string (s : list Z).

(** Copying [size] bytes of [value] to byte [offset] of the parameters. *)
Definition poke_param (p : dist_params) (offset size : Z) (value : param_value)
    : exec dist_params :=
  match p, value with
  | P_simple_stripe _, V_int64 v =>
      if decide (offset = 0 ∧ size = 8) then Done (P_simple_stripe (i64 v))
      else Fault BadAccess
  | _, _ => Fault BadAccess
  end.

Definition PINT_dist_default_set_param (t : list param_offset) (dname : list Z)
    (p : dist_params) (pname : list Z) (value : param_value) : exec (dist_params * Z) :=
  match PINT_get_param_offset t dname pname with
  | Some o => p' ← poke_param p (po_offset o) (po_size o) value; Done (p', 0)
  | None => Done (p, -1)
  end.

(** A value that is not positive is reported and not stored; the call still
    returns 0. *)
Definition twod_set_param (p : PVFS_twod_stripe_params) (pname : list Z) (v : Z)
    : PVFS_twod_stripe_params * Z :=
  if decide (pname = zs "strip_size") then
    (if decide (v ≤ 0) then p
     else mkTwodParams (twod_num_groups p) v (twod_group_strip_factor p), 0)
  else if decide (pname = zs "num_groups") then
    (if decide (v ≤ 0) then p
     else mkTwodParams (u32 v) (twod_strip_size p) (twod_group_strip_factor p), 0)
  else if decide (pname = zs "group_strip_factor") then
    (if decide (v ≤ 0) then p
     else mkTwodParams (twod_num_groups p) (twod_strip_size p) (u32 v), 0)
  else (p, - PVFS_EINVAL).

(** [strcpy] copies the terminator too. *)
Definition varstrip_set_param (strips pname value : list Z) : exec (list Z * Z) :=
  if decide (pname = zs "strips") then
    if decide (len value = 0) then Done (strips, 0)
    else if decide (len value > VARSTRIP_MAX) then Done (strips, 0)
    else if decide (len value + 1 ≤ VARSTRIP_MAX) then Done (value, 0)
    else Fault BadAccess
  else Done (strips, 0).

(** The [set_param] method. *)
Definition set_param (t : list param_offset) (m : dist_methods) (dname : list Z)
    (p : dist_params) (pname : list Z) (value : param_value) : exec (dist_params * Z) :=
  match m, p, value with
  | M_basic, _, _ | M_simple_stripe, _, _ =>
      PINT_dist_default_set_param t dname p pname value
  | M_twod_stripe, P_twod_stripe q, V_int64 v =>
      let '(q', rc) := twod_set_param q pname v in Done (P_twod_stripe q', rc)
  | M_varstrip, P_varstrip s, V_string v =>
      '(s', rc) ← varstrip_set_param s pname v; Done (P_varstrip s', rc)
  | _, _, _ => Fault BadAccess
  end.

(** * Distributions on the wire *)

Definition twod_codec : codec PVFS_twod_stripe_params :=
  struct (λ '(g, s, f), mkTwodParams g s f)
    (λ x, (twod_num_groups x, twod_strip_size x, twod_group_strip_factor x))
    (uint32_t ⊗ int64_t ⊗ uint32_t).

(** Nothing. *)
Definition nothing : codec unit := skip 0.

(** The [encode_lebf] and [decode_lebf] methods. *)
Definition lebf (m : dist_methods) : codec dist_params :=
  match m with
  | M_basic =>
      member (λ _, P_basic) (λ p, match p with P_basic => Some () | _ => None end) nothing
  | M_simple_stripe =>
      member P_simple_stripe (λ p, match p with P_simple_stripe s => Some s | _ => None end)
        int64_t
  | M_twod_stripe =>
      member P_twod_stripe (λ p, match p with P_twod_stripe q => Some q | _ => None end)
        twod_codec
  | M_varstrip =>
      member P_varstrip (λ p, match p with P_varstrip s => Some s | _ => None end)
        (here_string VARSTRIP_MAX)
  end.

(** The receiver looks the name up and takes the sizes and the methods from
    its own table; a name that is not there ends the process.  The name is
    copied with the room reserved for it, which may take bytes after its
    terminator along. *)
Definition dist (t : list PINT_dist) : codec PINT_dist := {|
  enc p d :=
    i1 ← enc string p (Some (dist_name d));
    i2 ← enc (lebf (methods d)) (p + len i1) (params d);
    i3 ← enc align8 (p + len i1 + len i2) ();
    Done (i1 ++ i2 ++ i3);
  dec buf p :=
    '(name, p1) ← dec string buf p;
    match PINT_dist_lookup t (mkTemplate name None None None) with
    | (mkTemplate _ (Some (ns, ps)) _ (Some m), 0) =>
        '(q, p2) ← dec (lebf m) buf p1;
        '(_, p3) ← dec align8 buf p2;
        Done (mkDist (until_nul (view buf (p + 4) ns)) ns ps q m, p3)
    | _ => Fault AssertFailed
    end;
  ok d :=
    string_ok (Some (dist_name d)) && (len (dist_name d) + 1 <=? name_size d) &&
    match find_dist t (dist_name d) with
    | Some (_, e) => bool_decide (name_size d = name_size e ∧ param_size d = param_size e ∧
                                  methods d = methods e)
    | None => false
    end && ok (lebf (methods d)) (params d);
|}.

(** [PINT_DIST_PACK_SIZE]. *)
Definition PINT_DIST_PACK_SIZE (d : PINT_dist) : Z :=
  roundup8 32 + roundup8 (name_size d) + roundup8 (param_size d).

(** * Laws *)

#[export] Instance nothing_lawful : Lawful nothing := skip_lawful 0 ltac:(lia).
#[export] Instance twod_codec_lawful : Lawful twod_codec.
Proof. unfold twod_codec. apply _. Qed.

#[export] Instance lebf_lawful m : Lawful (lebf m).
Proof.
  destruct m; (eapply member_receives; [first
    [ apply nothing_lawful | apply int64_t_lawful | apply twod_codec_lawful
    | by apply here_string_lawful ]|intros [] ? [=]; by subst]).
Qed.

(** The name comes first in the image, so the receiver finds it whole. *)
Lemma view_name pre l pad p n :
  len pre = p → string_ok (Some l) = true → len l + 1 ≤ n →
  until_nul (view (pre ++ l ++ 0 :: pad) p n) = l.
Proof.
  intros <- [Hb _]%andb_true_iff Hn. unfold view. rewrite Nat2Z.id, drop_app_length.
  rewrite (take_app_ge l) by lia.
  destruct (Z.to_nat n - length l)%nat as [|k] eqn:Ek; [lia|]. cbn [take].
  by apply until_nul_app.
Qed.

#[export] Instance dist_lawful t : Lawful (dist t).
Proof.
  intros d p Hp Hok. cbn [ok dist] in Hok.
  apply andb_true_iff in Hok as [[[Hs Hn%Z.leb_le]%andb_true_iff Hf]%andb_true_iff Hq].
  destruct (find_dist t (dist_name d)) as [[i e]|] eqn:Ef; [|done].
  apply bool_decide_eq_true in Hf as (Hns & Hps & Hm).
  destruct (string_lawful (Some (dist_name d)) p Hp Hs) as (i1 & E1 & C1 & D1).
  destruct (lebf_lawful (methods d) (params d) (p + len i1) ltac:(lia) Hq) as (i2 & E2 & C2 & D2).
  destruct (align8_lawful () (p + len i1 + len i2) ltac:(lia) eq_refl) as (i3 & E3 & C3 & D3).
  exists (i1 ++ i2 ++ i3). cbn [enc dist]. rewrite E1. cbn [mbind exec_bind].
  rewrite E2. cbn [mbind exec_bind]. rewrite E3. split; [done|].
  split; [by repeat apply Forall_app_2|]. intros pre post Hpre.
  injection E1 as <-. destruct (encode_string_spec (dist_name d) Hs) as (_ & Hl & pad & Hz).
  cbn [dec dist]. rewrite !zeroed_app, <- !app_assoc, D1 by done.
  cbn [mbind exec_bind]. unfold PINT_dist_lookup. cbn [t_name t_params t_methods].
  rewrite Ef, <- Hm, app_assoc, D2 by (rewrite length_app, length_zeroed; lia).
  cbn [mbind exec_bind]. rewrite (app_assoc _ (zeroed i2)), D3
    by (rewrite !length_app, !length_zeroed; lia).
  cbn [mbind exec_bind]. do 2 f_equal.
  - rewrite <- Hns, <- Hps, Hz, <- !app_assoc, (app_assoc pre). cbn [app].
    rewrite view_name; [by destruct d|by apply len_pre_le|done|lia].
  - rewrite !length_app. lia.
Qed.

(** * The tables *)

Definition empty_state : dist_state := mkDistState [] [].
Definition initialized : dist_state := fst (PINT_dist_initialize empty_state).

Lemma strncmp_eq_refl a n : strncmp_eq a a n = true.
Proof. by apply bool_decide_eq_true. Qed.

Lemma find_dist_fresh t d :
  find_dist t (dist_name d) = None → find_dist (t ++ [d]) (dist_name d) = Some (length t, d).
Proof.
  intros Hn. unfold find_dist in *. rewrite list_find_app_r by done. cbn [list_find].
  rewrite decide_True by apply strncmp_eq_refl. cbn. do 2 f_equal.
Qed.

(** Registering a new name makes it known under its own entry, and
    unregistering it gives back the table there was.  A full table, a missing
    distribution and an unknown name are refused. *)
Theorem register_unregister s d :
  find_dist (table s) (dist_name d) = None → len (table s) < PINT_DIST_TABLE_SZ →
  ∃ s', PINT_register_distribution s (Some d) = (s', 0) ∧
    PINT_dist_lookup (table s') (mkTemplate (Some (dist_name d)) None None None) =
      (mkTemplate (Some (dist_name d)) (Some (name_size d, param_size d))
         (Some (params d)) (Some (methods d)), 0) ∧
    (∃ s'', PINT_unregister_distribution s' (Some (dist_name d)) = (s'', 0) ∧
      table s'' = table s) ∧
    PINT_unregister_distribution s (Some (dist_name d)) = (s, -1).
Proof.
  intros Hn Hl. unfold PINT_register_distribution. rewrite decide_True by done.
  eexists. split; [done|]. cbn [table param_table].
  unfold PINT_dist_lookup, PINT_unregister_distribution. cbn [t_name t_params t_methods table].
  rewrite find_dist_fresh, Hn by done. split; [done|]. split; [|done].
  eexists. split; [done|]. cbn [table]. rewrite list.delete_middle, app_nil_r. done.
Qed.
