(* ===== verification/WireTypes.v ===== *)
(** The structs that requests and responses are made of: include/pvfs2-types.h,
    src/proto/pvfs2-attr.h, include/pvfs2-mgmt.h, src/common/misc/pint-uid-mgmt.h,
    each with its codec.  A struct is a record of the fields that go over the
    wire, in the order they go; an array has its count as a field of its own,
    as in C. *)

From stdpp Require Import base tactics numbers list.
From S2P Require Import Prelude Errors Wire DistTable.

#[local] Open Scope codec_scope.

(** * Names of the basic types *)

Definition PVFS_error := int32_t.
Definition PVFS_offset := int64_t.
Definition PVFS_size := int64_t.
Definition PVFS_id_gen_t := int64_t.
Definition PVFS_handle := uint64_t.
Definition PVFS_fs_id := int32_t.
Definition PVFS_ds_position := uint64_t.
Definition PVFS_uid := uint32_t.
Definition PVFS_gid := uint32_t.
(** A [uint64_t] that is encoded by [encode_int64_t]: the same eight bytes. *)
Definition PVFS_time := uint64_t.
Definition PVFS_permissions := uint32_t.
Definition PVFS_flags := uint64_t.
Definition PVFS_ds_type := enum.
Definition PVFS_dist_dir_bitmap_basetype := uint32_t.
Definition PVFS_signature := char.
Definition PVFS_cert_data := char.
Definition PVFS_key_data := char.

(** * Limits *)

Definition PVFS_NAME_MAX : Z := 256.
Definition PVFS_SEGMENT_MAX : Z := PVFS_NAME_MAX.
Definition PVFS_PATH_MAX : Z := 4096.
Definition PVFS_MAX_XATTR_NAMELEN : Z := PVFS_NAME_MAX.
Definition PVFS_MAX_XATTR_VALUELEN : Z := 8192.
Definition PVFS_MAX_XATTR_LISTLEN : Z := 16.
Definition PVFS_SYS_LIMIT_LAYOUT : Z := 4096.
Definition PVFS_SYS_LIMIT_CERT : Z := 8192.
Definition PVFS_SYS_LIMIT_KEY : Z := 8192.
Definition PVFS_SYS_LIMIT_HANDLES_COUNT : Z := 1024.
Definition PVFS_SYS_LIMIT_GROUPS : Z := 32.
Definition PVFS_SYS_LIMIT_ISSUER : Z := 128.
Definition PVFS_SYS_LIMIT_SIGNATURE : Z := 512.
Definition PVFS_SYS_LIMIT_LISTATTR : Z := 60.
Definition PVFS_REQ_LIMIT_DIST_BYTES : Z := 1024.
Definition PVFS_REQ_LIMIT_DIST_NAME : Z := 128.
Definition PVFS_REQ_LIMIT_DFILE_COUNT : Z := 1024.
Definition PVFS_REQ_LIMIT_MIRROR_DFILE_COUNT : Z := 1024.

(** * Handles, layouts, statistics *)

Record PVFS_handle_extent := mk_handle_extent {
  he_first : Z;  (* PVFS_handle *)
  he_last : Z;  (* PVFS_handle *)
}.

Definition handle_extent : codec PVFS_handle_extent :=
  struct (λ '(first, last),
      mk_handle_extent first last)
    (λ x, (he_first x, he_last x))
    (PVFS_handle ⊗ PVFS_handle).

Record PVFS_handle_extent_array := mk_handle_extent_array {
  hea_extent_count : Z;  (* uint32_t *)
  hea_extent_array : list PVFS_handle_extent;
}.

Definition handle_extent_array : codec PVFS_handle_extent_array :=
  struct (λ '(extent_count, extent_array),
      mk_handle_extent_array extent_count extent_array)
    (λ x, (hea_extent_count x, hea_extent_array x))
    (skip4 ⊗> uint32_t ▷ (λ n, array n handle_extent)).

(** A BMI address is the string that [BMI_addr_rev_lookup] gives for it and
    that [BMI_addr_lookup] turns back into the address. *)
Record PVFS_sys_layout := mk_sys_layout {
  ly_algorithm : Z;      (* enum PVFS_sys_layout_algorithm *)
  ly_count : Z;          (* int32_t *)
  ly_servers : list str;
}.

Definition sys_layout_fields : codec PVFS_sys_layout :=
  struct (λ '(algorithm, count, servers), mk_sys_layout algorithm count servers)
    (λ x, (ly_algorithm x, ly_count x, ly_servers x))
    (enum <⊗ skip4 ⊗ int32_t <⊗ skip4 ▷ (λ '(_, n), array n string)).

(** [encode_PVFS_BMI_addr_t_size_check]. *)
Definition encode_string_size_check (s : str) : Z := strlen s + 5.

Definition layout_size (x : PVFS_sys_layout) : Z :=
  foldl Z.add 16 (encode_string_size_check <$> take (Z.to_nat (ly_count x)) (ly_servers x)).

Record PVFS_statfs := mk_statfs {
  sf_fs_id : Z;  (* PVFS_fs_id *)
  sf_bytes_available : Z;  (* PVFS_size *)
  sf_bytes_total : Z;  (* PVFS_size *)
  sf_ram_total_bytes : Z;  (* uint64_t *)
  sf_ram_free_bytes : Z;  (* uint64_t *)
  sf_load_1 : Z;  (* uint64_t *)
  sf_load_5 : Z;  (* uint64_t *)
  sf_load_15 : Z;  (* uint64_t *)
  sf_uptime_seconds : Z;  (* uint64_t *)
  sf_handles_available_count : Z;  (* uint64_t *)
  sf_handles_total_count : Z;  (* uint64_t *)
}.

Definition statfs : codec PVFS_statfs :=
  struct (λ '(fs_id, bytes_available, bytes_total, ram_total_bytes, ram_free_bytes, load_1, load_5, load_15, uptime_seconds, handles_available_count, handles_total_count),
      mk_statfs fs_id bytes_available bytes_total ram_total_bytes ram_free_bytes load_1
      load_5 load_15 uptime_seconds handles_available_count handles_total_count)
    (λ x, (sf_fs_id x, sf_bytes_available x, sf_bytes_total x, sf_ram_total_bytes x,
    sf_ram_free_bytes x, sf_load_1 x, sf_load_5 x, sf_load_15 x, sf_uptime_seconds x,
    sf_handles_available_count x, sf_handles_total_count x))
    (skip4 ⊗> PVFS_fs_id ⊗ PVFS_size ⊗ PVFS_size ⊗ uint64_t ⊗ uint64_t ⊗ uint64_t
    ⊗ uint64_t ⊗ uint64_t ⊗ uint64_t ⊗ uint64_t ⊗ uint64_t).

(** The name is an array of the struct. *)
Record PVFS_dirent := mk_dirent {
  de_d_name : list Z;
  de_handle : Z;  (* PVFS_handle *)
}.

Definition dirent : codec PVFS_dirent :=
  struct (λ '(d_name, handle), mk_dirent d_name handle) (λ x, (de_d_name x, de_handle x))
    (here_string (PVFS_NAME_MAX + 1) ⊗ PVFS_handle).

Record PVFS_dist_dir_attr := mk_dist_dir_attr {
  dd_tree_height : Z;  (* int32_t: ceil(log2(num_servers)) *)
  dd_num_servers : Z;  (* int32_t: total number of servers *)
  dd_bitmap_size : Z;  (* int32_t *)
  dd_split_size : Z;  (* int32_t: maximum number of entries before a split *)
  dd_server_no : Z;  (* int32_t: 0 to num_servers-1 *)
  dd_branch_level : Z;  (* int32_t: level of branching on this server *)
}.

Definition dist_dir_attr : codec PVFS_dist_dir_attr :=
  struct (λ '(tree_height, num_servers, bitmap_size, split_size, server_no, branch_level),
      mk_dist_dir_attr tree_height num_servers bitmap_size split_size server_no
      branch_level)
    (λ x, (dd_tree_height x, dd_num_servers x, dd_bitmap_size x, dd_split_size x,
    dd_server_no x, dd_branch_level x))
    (int32_t ⊗ int32_t ⊗ int32_t ⊗ int32_t ⊗ int32_t ⊗ int32_t).

(** The [type] field says which member of the union is there; another value
    of it fails an assertion. *)
Inductive PVFS_mgmt_setparam_value :=
  | SP_uint64 (value : Z)
  | SP_string (string_value : str).

Definition setparam_type (v : PVFS_mgmt_setparam_value) : Z :=
  match v with SP_uint64 _ => 0 | SP_string _ => 1 end.

Definition no_member {A} : codec A := {|
  enc _ _ := Fault AssertFailed;
  dec _ _ := Fault AssertFailed;
  ok _ := false;
|}.

Definition setparam_member (ty : Z) : codec PVFS_mgmt_setparam_value :=
  if decide (ty = 0) then
    member SP_uint64 (λ v, match v with SP_uint64 n => Some n | _ => None end) uint64_t
  else if decide (ty = 1) then
    member SP_string (λ v, match v with SP_string s => Some s | _ => None end) string
  else no_member.

Definition mgmt_setparam_value : codec PVFS_mgmt_setparam_value :=
  struct snd (λ v, (setparam_type v, v)) (enum ▷ setparam_member).

(** * Security *)

Record PVFS_certificate := mk_certificate {
  cert_buf_size : Z;  (* uint32_t *)
  cert_buf : list Z;  (* PVFS_cert_data *)
}.

Definition certificate : codec PVFS_certificate :=
  struct (λ '(buf_size, buf),
      mk_certificate buf_size buf)
    (λ x, (cert_buf_size x, cert_buf x))
    (skip4 ⊗> uint32_t ▷ (λ n, array n PVFS_cert_data)).

Record PVFS_security_key := mk_security_key {
  key_buf_size : Z;  (* uint32_t *)
  key_buf : list Z;  (* PVFS_key_data *)
}.

Definition security_key : codec PVFS_security_key :=
  struct (λ '(buf_size, buf),
      mk_security_key buf_size buf)
    (λ x, (key_buf_size x, key_buf x))
    (skip4 ⊗> uint32_t ▷ (λ n, array n PVFS_key_data)).

Record PVFS_capability := mk_capability {
  cap_issuer : str;  (* alias of the issuing server *)
  cap_fsid : Z;  (* PVFS_fs_id: fsid for which this capability is valid *)
  cap_sig_size : Z;  (* uint32_t *)
  cap_signature : list Z;  (* PVFS_signature *)
  cap_timeout : Z;  (* PVFS_time: seconds after epoch to time out *)
  cap_op_mask : Z;  (* uint32_t: allowed operations mask *)
  cap_num_handles : Z;  (* uint32_t *)
  cap_handle_array : list Z;  (* PVFS_handle: handles in this capability *)
}.

Definition capability : codec PVFS_capability :=
  struct (λ '(issuer, fsid, sig_size, signature, timeout, op_mask, num_handles, handle_array),
      mk_capability issuer fsid sig_size signature timeout op_mask num_handles
      handle_array)
    (λ x, (cap_issuer x, cap_fsid x, cap_sig_size x, cap_signature x, cap_timeout x,
    cap_op_mask x, cap_num_handles x, cap_handle_array x))
    (string ⊗ PVFS_fs_id <⊗ skip4 ⊗ uint32_t ▷ (λ '(_, _, n), array (i32 n) PVFS_signature)
    <⊗ align8 ⊗ PVFS_time ⊗ uint32_t ⊗ uint32_t
    ▷ (λ '(_, _, _, _, _, _, n), array (i32 n) PVFS_handle) <⊗ align8).

Record PVFS_credential := mk_credential {
  cred_userid : Z;  (* PVFS_uid *)
  cred_num_groups : Z;  (* uint32_t *)
  cred_group_array : list Z;  (* PVFS_gid *)
  cred_issuer : str;  (* alias of the issuing server *)
  cred_timeout : Z;  (* PVFS_time: seconds after epoch to time out *)
  cred_sig_size : Z;  (* uint32_t *)
  cred_signature : list Z;  (* PVFS_signature *)
  cred_certificate : PVFS_certificate;
}.

Definition credential : codec PVFS_credential :=
  struct (λ '(userid, num_groups, group_array, issuer, timeout, sig_size, signature, certificate),
      mk_credential userid num_groups group_array issuer timeout sig_size signature
      certificate)
    (λ x, (cred_userid x, cred_num_groups x, cred_group_array x, cred_issuer x,
    cred_timeout x, cred_sig_size x, cred_signature x, cred_certificate x))
    (skip4 ⊗> (skip4 ⊗> PVFS_uid) ⊗ uint32_t ▷ (λ '(_, n), array (i32 n) PVFS_gid)
    <⊗ align8 ⊗ string ⊗ PVFS_time ⊗ uint32_t
    ▷ (λ '(_, _, _, _, _, n), array (i32 n) PVFS_signature) <⊗ align8 ⊗ certificate
    <⊗ align8).

(** * Object attributes *)

Definition PVFS_TYPE_METAFILE : Z := 1.
Definition PVFS_ATTR_META_DIST : Z := 2 ^ 10.
Definition PVFS_ATTR_META_DFILES : Z := 2 ^ 11.
Definition PVFS_ATTR_META_UNSTUFFED : Z := 2 ^ 12.
Definition PVFS_ATTR_META_MIRROR_DFILES : Z := 2 ^ 13.
Definition PVFS_ATTR_DATA_SIZE : Z := 2 ^ 15.
Definition PVFS_ATTR_SYMLNK_TARGET : Z := 2 ^ 18.
Definition PVFS_ATTR_DIR_DIRENT_COUNT : Z := 2 ^ 19.
Definition PVFS_ATTR_DIR_HINT : Z := 2 ^ 20.
Definition PVFS_ATTR_DISTDIR_ATTR : Z := 2 ^ 21.
Definition PVFS_ATTR_CAPABILITY : Z := 2 ^ 22.

(** [mask & bit]. *)
Definition has (mask bit : Z) : bool := negb (Z.land mask bit =? 0).

(** The data files of a metafile, with [hint.flags]. *)
Record PVFS_metafile_dfiles := mk_metafile_dfiles {
  md_dfile_count : Z;  (* uint32_t *)
  md_dfile_array : list Z;  (* PVFS_handle *)
  md_hint : Z;  (* PVFS_flags *)
}.

Definition metafile_dfiles : codec PVFS_metafile_dfiles :=
  struct (λ '(dfile_count, dfile_array, hint),
      mk_metafile_dfiles dfile_count dfile_array hint)
    (λ x, (md_dfile_count x, md_dfile_array x, md_hint x))
    (uint32_t <⊗ skip4 ▷ (λ n, array n PVFS_handle) ⊗ PVFS_flags).

(** The mirrored data files: [mirror_copies_count] arrays of [n] handles, one
    after the other. *)
Record PVFS_metafile_mirror := mk_metafile_mirror {
  mm_mirror_copies_count : Z;        (* uint32_t *)
  mm_mirror_dfile_array : list Z;    (* PVFS_handle *)
}.

Definition metafile_mirror (n : Z) : codec PVFS_metafile_mirror :=
  struct (λ '(copies, handles), mk_metafile_mirror copies handles)
    (λ x, (mm_mirror_copies_count x, mm_mirror_dfile_array x))
    (uint32_t <⊗ skip4 ▷ (λ c, array (c * n) PVFS_handle)).

Record PVFS_symlink_attr := mk_symlink_attr {
  sym_target_path_len : Z;  (* uint32_t *)
  sym_target_path : str;
}.

Definition symlink_attr : codec PVFS_symlink_attr :=
  struct (λ '(target_path_len, target_path),
      mk_symlink_attr target_path_len target_path)
    (λ x, (sym_target_path_len x, sym_target_path x))
    (uint32_t <⊗ skip4 ⊗ string).

Record PVFS_dirhint_server_list := mk_dirhint_server_list {
  dsl_count : Z;  (* int32_t *)
  dsl_bufsize : Z;  (* int32_t *)
  dsl_servers : str;
}.

Definition dirhint_server_list : codec PVFS_dirhint_server_list :=
  struct (λ '(count, bufsize, servers),
      mk_dirhint_server_list count bufsize servers)
    (λ x, (dsl_count x, dsl_bufsize x, dsl_servers x))
    (int32_t ⊗ int32_t ⊗ string).

Record PVFS_dirhint_layout := mk_dirhint_layout {
  dl_algorithm : Z;  (* uint32_t *)
  dl_server_list : PVFS_dirhint_server_list;
}.

Definition dirhint_layout : codec PVFS_dirhint_layout :=
  struct (λ '(algorithm, server_list),
      mk_dirhint_layout algorithm server_list)
    (λ x, (dl_algorithm x, dl_server_list x))
    (uint32_t ⊗ dirhint_server_list).

Record PVFS_directory_hint := mk_directory_hint {
  dh_dist_name_len : Z;  (* uint32_t *)
  dh_dist_name : str;
  dh_dist_params_len : Z;  (* uint32_t *)
  dh_dist_params : str;
  dh_dfile_count : Z;  (* uint32_t *)
  dh_layout : PVFS_dirhint_layout;
}.

Definition directory_hint : codec PVFS_directory_hint :=
  struct (λ '(dist_name_len, dist_name, dist_params_len, dist_params, dfile_count, layout),
      mk_directory_hint dist_name_len dist_name dist_params_len dist_params dfile_count
      layout)
    (λ x, (dh_dist_name_len x, dh_dist_name x, dh_dist_params_len x, dh_dist_params x,
    dh_dfile_count x, dh_layout x))
    (uint32_t <⊗ skip4 ⊗ string ⊗ uint32_t <⊗ skip4 ⊗ string ⊗ uint32_t ⊗ dirhint_layout).

Record PVFS_directory_attr := mk_directory_attr {
  da_dirent_count : Z;  (* PVFS_size *)
  da_hint : PVFS_directory_hint;
}.

Definition directory_attr : codec PVFS_directory_attr :=
  struct (λ '(dirent_count, hint),
      mk_directory_attr dirent_count hint)
    (λ x, (da_dirent_count x, da_hint x))
    (PVFS_size ⊗ directory_hint).

(** The distributed directory information: [dist_dir_attr], [dist_dir_bitmap] and
    [dirdata_handles], whose lengths are fields of the first. *)
Record PVFS_distdir := mk_distdir {
  ddir_attr : PVFS_dist_dir_attr;
  ddir_bitmap : list Z;  (* PVFS_dist_dir_bitmap_basetype *)
  ddir_dirdata_handles : list Z;  (* PVFS_handle *)
}.

Definition distdir : codec PVFS_distdir :=
  struct (λ '(attr, bitmap, dirdata_handles),
      mk_distdir attr bitmap dirdata_handles)
    (λ x, (ddir_attr x, ddir_bitmap x, ddir_dirdata_handles x))
    (dist_dir_attr ▷ (λ a, array (dd_bitmap_size a) PVFS_dist_dir_bitmap_basetype) <⊗ skip4
    ▷ (λ '(a, _), array (dd_num_servers a) PVFS_handle)).

(** The attributes every object has. *)
Record attr_header := mk_attr_header_codec {
  ah_owner : Z;  (* PVFS_uid *)
  ah_group : Z;  (* PVFS_gid *)
  ah_perms : Z;  (* PVFS_permissions *)
  ah_atime : Z;  (* PVFS_time *)
  ah_mtime : Z;  (* PVFS_time *)
  ah_ctime : Z;  (* PVFS_time *)
  ah_mask : Z;  (* uint32_t: indicates which fields are valid *)
  ah_objtype : Z;  (* PVFS_ds_type *)
}.

Definition attr_header_codec : codec attr_header :=
  struct (λ '(owner, group, perms, atime, mtime, ctime, mask, objtype),
      mk_attr_header_codec owner group perms atime mtime ctime mask objtype)
    (λ x, (ah_owner x, ah_group x, ah_perms x, ah_atime x, ah_mtime x, ah_ctime x,
    ah_mask x, ah_objtype x))
    (PVFS_uid ⊗ PVFS_gid ⊗ PVFS_permissions <⊗ skip4 ⊗ PVFS_time ⊗ PVFS_time ⊗ PVFS_time
    ⊗ uint32_t ⊗ PVFS_ds_type).

(** [PVFS_object_attr]: what follows the header is there if the mask says so,
    [None] otherwise.  [at_stuffed_size], [at_dist], [at_dfiles] and
    [at_mirror] are the member [u.meta] of the union [u]; [at_size] is
    [u.data], [at_sym] is [u.sym] and [at_dir] is [u.dir]. *)
Record PVFS_object_attr := mk_object_attr {
  at_header : attr_header;
  at_capability : option PVFS_capability;
  at_stuffed_size : option Z;            (* int32_t *)
  at_dist : option PINT_dist;
  at_dfiles : option PVFS_metafile_dfiles;
  at_mirror : option PVFS_metafile_mirror;
  at_size : option Z;                    (* PVFS_size *)
  at_sym : option PVFS_symlink_attr;
  at_distdir : option PVFS_distdir;
  at_dir : option PVFS_directory_attr;
}.

Definition present {A} (o : option A) : bool := match o with Some _ => true | None => false end.

(** The members of the union share their memory, so an attribute holds one of
    them; and the mirror handles are counted by the data files. *)
Definition attr_consistent (x : PVFS_object_attr) : bool :=
  let meta := present (at_stuffed_size x) || present (at_dist x) || present (at_dfiles x)
              || present (at_mirror x) in
  (Z.b2z meta + Z.b2z (present (at_size x)) + Z.b2z (present (at_sym x))
   + Z.b2z (present (at_dir x)) <=? 1)
  && (negb (present (at_mirror x)) || present (at_dfiles x)).

(** A stricter notion of good value. *)
Definition restrict {A} (P : A → bool) (c : codec A) : codec A := {|
  enc := enc c;
  dec := dec c;
  ok x := ok c x && P x;
|}.

Definition mask_has (h : attr_header) (bit : Z) : bool := has (ah_mask h) bit.

(** The [mirror_dfiles] loops count with [dfile_count], which is set only if
    the data files were sent. *)
Definition dfile_count_of (d : option PVFS_metafile_dfiles) : Z :=
  match d with Some d => md_dfile_count d | None => 0 end.

(** [encode_PVFS_object_attr] and [decode_PVFS_object_attr]. *)
Definition object_attr (t : list PINT_dist) : codec PVFS_object_attr :=
  restrict attr_consistent
  (struct (λ '(h, cap, st, di, df, mi, si, sy, dd, dr),
             mk_object_attr h cap st di df mi si sy dd dr)
    (λ x, (at_header x, at_capability x, at_stuffed_size x, at_dist x, at_dfiles x,
           at_mirror x, at_size x, at_sym x, at_distdir x, at_dir x))
    (attr_header_codec
     ▷ (λ h, when (mask_has h PVFS_ATTR_CAPABILITY) capability)
     ▷ (λ '(h, _), when ((ah_objtype h =? PVFS_TYPE_METAFILE)
                         && negb (mask_has h PVFS_ATTR_META_UNSTUFFED)) (int32_t <⊗ skip4))
     ▷ (λ '(h, _, _), when (mask_has h PVFS_ATTR_META_DIST) (dist t))
     ▷ (λ '(h, _, _, _), when (mask_has h PVFS_ATTR_META_DFILES) metafile_dfiles)
     ▷ (λ '(h, _, _, _, df), when (mask_has h PVFS_ATTR_META_MIRROR_DFILES)
                               (metafile_mirror (dfile_count_of df)))
     ▷ (λ '(h, _, _, _, _, _), when (mask_has h PVFS_ATTR_DATA_SIZE) PVFS_size)
     ▷ (λ '(h, _, _, _, _, _, _), when (mask_has h PVFS_ATTR_SYMLNK_TARGET) symlink_attr)
     ▷ (λ '(h, _, _, _, _, _, _, _), when (mask_has h PVFS_ATTR_DISTDIR_ATTR) distdir)
     ▷ (λ '(h, _, _, _, _, _, _, _, _),
          when (mask_has h PVFS_ATTR_DIR_DIRENT_COUNT || mask_has h PVFS_ATTR_DIR_HINT)
            directory_attr))).

(** * Management *)

Record PVFS_mgmt_dspace_info := mk_mgmt_dspace_info {
  dsi_error_code : Z;  (* PVFS_error *)
  dsi_handle : Z;  (* PVFS_handle *)
  dsi_type : Z;  (* PVFS_ds_type *)
  dsi_b_size : Z;  (* PVFS_size *)
  dsi_dirdata_handle : Z;  (* PVFS_handle *)
}.

Definition mgmt_dspace_info : codec PVFS_mgmt_dspace_info :=
  struct (λ '(error_code, handle, type, b_size, dirdata_handle),
      mk_mgmt_dspace_info error_code handle type b_size dirdata_handle)
    (λ x, (dsi_error_code x, dsi_handle x, dsi_type x, dsi_b_size x, dsi_dirdata_handle x))
    (PVFS_error <⊗ skip4 ⊗ PVFS_handle ⊗ PVFS_ds_type <⊗ skip4 ⊗ PVFS_size ⊗ PVFS_handle).

Record PVFS_mgmt_event := mk_mgmt_event {
  ev_api : Z;  (* int32_t *)
  ev_operation : Z;  (* int32_t *)
  ev_value : Z;  (* int64_t *)
  ev_id : Z;  (* PVFS_id_gen_t *)
  ev_flags : Z;  (* int32_t *)
  ev_tv_sec : Z;  (* int32_t *)
  ev_tv_usec : Z;  (* int32_t *)
}.

Definition mgmt_event : codec PVFS_mgmt_event :=
  struct (λ '(api, operation, value, id, flags, tv_sec, tv_usec),
      mk_mgmt_event api operation value id flags tv_sec tv_usec)
    (λ x, (ev_api x, ev_operation x, ev_value x, ev_id x, ev_flags x, ev_tv_sec x,
    ev_tv_usec x))
    (int32_t ⊗ int32_t ⊗ int64_t ⊗ PVFS_id_gen_t ⊗ int32_t ⊗ int32_t ⊗ int32_t <⊗ skip4).

Record timeval := mk_timeval_codec {
  tv_tv_sec : Z;  (* uint64_t *)
  tv_tv_usec : Z;  (* uint32_t *)
}.

Definition timeval_codec : codec timeval :=
  struct (λ '(tv_sec, tv_usec),
      mk_timeval_codec tv_sec tv_usec)
    (λ x, (tv_tv_sec x, tv_tv_usec x))
    (uint64_t ⊗ uint32_t).

Record PVFS_uid_info_s := mk_uid_info_s {
  ui_uid : Z;  (* PVFS_uid *)
  ui_count : Z;  (* uint64_t *)
  ui_tv0 : timeval;
  ui_tv : timeval;
}.

Definition uid_info_s : codec PVFS_uid_info_s :=
  struct (λ '(uid, count, tv0, tv),
      mk_uid_info_s uid count tv0 tv)
    (λ x, (ui_uid x, ui_count x, ui_tv0 x, ui_tv x))
    (PVFS_uid ⊗ uint64_t ⊗ timeval_codec ⊗ timeval_codec).

(** * Room reserved for what varies

    The [extra_size_*] macros, used to size the buffers that messages are
    encoded into; sizes of structs are those of a 64-bit build. *)

Definition sizeof_PVFS_handle : Z := 8.
Definition sizeof_PVFS_handle_extent : Z := 16.
Definition sizeof_PVFS_gid : Z := 4.
Definition sizeof_PVFS_directory_attr : Z := 72.

Definition extra_size_PVFS_certificate : Z := PVFS_SYS_LIMIT_CERT.
Definition extra_size_PVFS_capability : Z :=
  PVFS_SYS_LIMIT_HANDLES_COUNT * sizeof_PVFS_handle + PVFS_SYS_LIMIT_ISSUER
  + PVFS_SYS_LIMIT_SIGNATURE.
Definition extra_size_PVFS_credential : Z :=
  PVFS_SYS_LIMIT_GROUPS * sizeof_PVFS_gid + PVFS_SYS_LIMIT_ISSUER + PVFS_SYS_LIMIT_SIGNATURE
  + extra_size_PVFS_certificate.
Definition extra_size_PVFS_sys_layout : Z := PVFS_SYS_LIMIT_LAYOUT.
Definition extra_size_PVFS_object_attr_dir : Z :=
  PVFS_REQ_LIMIT_DIST_BYTES + PVFS_REQ_LIMIT_DIST_NAME + roundup8 sizeof_PVFS_directory_attr.
Definition extra_size_PVFS_distdir : Z := PVFS_SYS_LIMIT_HANDLES_COUNT * sizeof_PVFS_handle.
Definition extra_size_PVFS_object_attr_meta : Z :=
  PVFS_REQ_LIMIT_DIST_BYTES + 4 + PVFS_REQ_LIMIT_DFILE_COUNT * sizeof_PVFS_handle
  + PVFS_REQ_LIMIT_MIRROR_DFILE_COUNT * sizeof_PVFS_handle.
Definition extra_size_PVFS_object_attr_symlink : Z := PVFS_PATH_MAX.
Definition extra_size_PVFS_object_attr : Z :=
  extra_size_PVFS_capability + extra_size_PVFS_distdir
  + Z.max (Z.max extra_size_PVFS_object_attr_meta extra_size_PVFS_object_attr_symlink)
      extra_size_PVFS_object_attr_dir.
Definition extra_size_PVFS_servreq_create : Z :=
  extra_size_PVFS_object_attr + extra_size_PVFS_sys_layout + extra_size_PVFS_credential.

(** [encode_PVFS_sys_layout]: a server list that would be too long is not
    written; the pointer is moved by more than the room reserved for a create
    request instead, which is meant to make the caller's size check fail.  An
    address that BMI does not know has no string, and a negative count on the
    wire fails the allocation. *)
Definition sys_layout : codec PVFS_sys_layout := {|
  enc p x :=
    if forallb present (take (Z.to_nat (ly_count x)) (ly_servers x)) then
      if decide (layout_size x > PVFS_SYS_LIMIT_LAYOUT)
      then Done (replicate (Z.to_nat (extra_size_PVFS_servreq_create + 1)) None)
      else enc sys_layout_fields p x
    else Fault BadAccess;
  dec buf p :=
    '(x, p1) ← dec sys_layout_fields buf p;
    if decide (ly_count x < 0) then Fault AssertFailed else Done (x, p1);
  ok x := ok sys_layout_fields x && (layout_size x <=? PVFS_SYS_LIMIT_LAYOUT);
|}.

(** * Laws *)

#[export] Instance no_member_lawful {A} : Lawful (@no_member A).
Proof. by intros ????. Qed.

#[export] Instance restrict_lawful {A} (P : A → bool) c : Lawful c → Lawful (restrict P c).
Proof. intros Hc x p Hp [Hx _]%andb_true_iff. by apply Hc. Qed.

#[export] Instance setparam_member_lawful ty : Lawful (setparam_member ty).
Proof.
  unfold setparam_member. repeat case_decide; [| |apply _];
    (eapply member_receives; [apply _|intros [] ? [=]; by subst]).
Qed.

#[export] Instance here_name_lawful : Lawful (here_string (PVFS_NAME_MAX + 1)) :=
  here_string_lawful (PVFS_NAME_MAX + 1) ltac:(done).

#[export] Instance PVFS_error_lawful : Lawful PVFS_error := int32_t_lawful.
#[export] Instance PVFS_offset_lawful : Lawful PVFS_offset := int64_t_lawful.
#[export] Instance PVFS_size_lawful : Lawful PVFS_size := int64_t_lawful.
#[export] Instance PVFS_id_gen_t_lawful : Lawful PVFS_id_gen_t := int64_t_lawful.
#[export] Instance PVFS_handle_lawful : Lawful PVFS_handle := uint64_t_lawful.
#[export] Instance PVFS_fs_id_lawful : Lawful PVFS_fs_id := int32_t_lawful.
#[export] Instance PVFS_ds_position_lawful : Lawful PVFS_ds_position := uint64_t_lawful.
#[export] Instance PVFS_uid_lawful : Lawful PVFS_uid := uint32_t_lawful.
#[export] Instance PVFS_gid_lawful : Lawful PVFS_gid := uint32_t_lawful.
#[export] Instance PVFS_time_lawful : Lawful PVFS_time := uint64_t_lawful.
#[export] Instance PVFS_permissions_lawful : Lawful PVFS_permissions := uint32_t_lawful.
#[export] Instance PVFS_flags_lawful : Lawful PVFS_flags := uint64_t_lawful.
#[export] Instance PVFS_ds_type_lawful : Lawful PVFS_ds_type := enum_lawful.
#[export] Instance PVFS_dist_dir_bitmap_basetype_lawful : Lawful PVFS_dist_dir_bitmap_basetype := uint32_t_lawful.
#[export] Instance PVFS_signature_lawful : Lawful PVFS_signature := char_lawful.
#[export] Instance PVFS_cert_data_lawful : Lawful PVFS_cert_data := char_lawful.
#[export] Instance PVFS_key_data_lawful : Lawful PVFS_key_data := char_lawful.

#[export] Instance handle_extent_lawful : Lawful handle_extent.
Proof. unfold handle_extent. apply _. Qed.

#[export] Instance handle_extent_array_lawful : Lawful handle_extent_array.
Proof. unfold handle_extent_array. apply _. Qed.

#[export] Instance sys_layout_fields_lawful : Lawful sys_layout_fields.
Proof. unfold sys_layout_fields. apply _. Qed.

#[export] Instance statfs_lawful : Lawful statfs.
Proof. unfold statfs. apply _. Qed.

#[export] Instance dirent_lawful : Lawful dirent.
Proof. unfold dirent. apply _. Qed.

#[export] Instance dist_dir_attr_lawful : Lawful dist_dir_attr.
Proof. unfold dist_dir_attr. apply _. Qed.

#[export] Instance mgmt_setparam_value_lawful : Lawful mgmt_setparam_value.
Proof. unfold mgmt_setparam_value. apply _. Qed.

#[export] Instance certificate_lawful : Lawful certificate.
Proof. unfold certificate. apply _. Qed.

#[export] Instance security_key_lawful : Lawful security_key.
Proof. unfold security_key. apply _. Qed.

#[export] Instance capability_lawful : Lawful capability.
Proof. unfold capability. apply _. Qed.

#[export] Instance credential_lawful : Lawful credential.
Proof. unfold credential. apply _. Qed.

#[export] Instance metafile_dfiles_lawful : Lawful metafile_dfiles.
Proof. unfold metafile_dfiles. apply _. Qed.

#[export] Instance metafile_mirror_lawful n : Lawful (metafile_mirror n).
Proof. unfold metafile_mirror. apply _. Qed.

#[export] Instance symlink_attr_lawful : Lawful symlink_attr.
Proof. unfold symlink_attr. apply _. Qed.

#[export] Instance dirhint_server_list_lawful : Lawful dirhint_server_list.
Proof. unfold dirhint_server_list. apply _. Qed.

#[export] Instance dirhint_layout_lawful : Lawful dirhint_layout.
Proof. unfold dirhint_layout. apply _. Qed.

#[export] Instance directory_hint_lawful : Lawful directory_hint.
Proof. unfold directory_hint. apply _. Qed.

#[export] Instance directory_attr_lawful : Lawful directory_attr.
Proof. unfold directory_attr. apply _. Qed.

#[export] Instance distdir_lawful : Lawful distdir.
Proof. unfold distdir. apply _. Qed.

#[export] Instance attr_header_codec_lawful : Lawful attr_header_codec.
Proof. unfold attr_header_codec. apply _. Qed.

#[export] Instance object_attr_lawful t : Lawful (object_attr t).
Proof. unfold object_attr. apply _. Qed.

#[export] Instance mgmt_dspace_info_lawful : Lawful mgmt_dspace_info.
Proof. unfold mgmt_dspace_info. apply _. Qed.

#[export] Instance mgmt_event_lawful : Lawful mgmt_event.
Proof. unfold mgmt_event. apply _. Qed.

#[export] Instance timeval_codec_lawful : Lawful timeval_codec.
Proof. unfold timeval_codec. apply _. Qed.

#[export] Instance uid_info_s_lawful : Lawful uid_info_s.
Proof. unfold uid_info_s. apply _. Qed.

Lemma layout_servers_ok x :
  ok sys_layout_fields x = true →
  ly_count x = len (ly_servers x) ∧ forallb present (ly_servers x) = true.
Proof.
  unfold sys_layout_fields. cbn [ok struct pair dep after array].
  intros [_ [Hn%Z.eqb_eq Hs]%andb_true_iff]%andb_true_iff. split; [done|].
  clear Hn. induction (ly_servers x) as [|[l|] servers IH]; [done| |done].
  apply andb_true_iff in Hs as [_ Hs]. by apply IH.
Qed.

#[export] Instance sys_layout_lawful : Lawful sys_layout.
Proof.
  intros x p Hp [Hx Hl%Z.leb_le]%andb_true_iff. cbn [enc dec sys_layout].
  destruct (layout_servers_ok x Hx) as [Hn Hs]. rewrite Hn, Nat2Z.id, firstn_all, Hs.
  rewrite decide_False by lia.
  destruct (sys_layout_fields_lawful x p Hp Hx) as (im & E & C & D).
  exists im. split; [done|]. split; [done|]. intros pre post Hpre. rewrite D by done.
  cbn [mbind exec_bind]. rewrite decide_False by lia. done.
Qed.
