(* ===== verification/Hint.v ===== *)
(** Request hints: src/src/common/misc/pint-hint.c.

    A hint list is a singly linked list of nodes, here a list; a hint of a
    known type carries the bytes of a number, any other hint is a named
    string.  Hosts are little-endian, so the bytes of a number in memory are
    the bytes on the wire.  Memory allocation is taken to succeed. *)

From stdpp Require Import base tactics numbers list strings.
From S2P Require Import Prelude Errors Wire DistTable.

(** * Hint types *)

Definition PINT_HINT_TRANSFER : Z := 1.

Definition PINT_HINT_UNKNOWN : Z := 0.
Definition PINT_HINT_REQUEST_ID : Z := 1.
Definition PINT_HINT_CLIENT_ID : Z := 2.
Definition PINT_HINT_HANDLE : Z := 3.
Definition PINT_HINT_OP_ID : Z := 4.
Definition PINT_HINT_RANK : Z := 5.
Definition PINT_HINT_SERVER_ID : Z := 6.
Definition PINT_HINT_DISTRIBUTION : Z := 7.
Definition PINT_HINT_LAYOUT : Z := 8.
Definition PINT_HINT_DFILE_COUNT : Z := 9.
Definition PINT_HINT_SERVERLIST : Z := 10.
Definition PINT_HINT_CACHE : Z := 11.
Definition PINT_HINT_LOCAL_UID : Z := 12.
Definition PINT_HINT_OWNER_GID : Z := 13.
Definition PINT_HINT_DISTRIBUTION_PV : Z := 14.

(** The encode and decode functions of a hint. *)
Inductive hint_func := F_uint32_t | F_uint64_t | F_string.

#[export] Instance hint_func_eq_dec : EqDecision hint_func.
Proof. solve_decision. Defined.

Record PINT_hint_info := mkHintInfo {
  hi_type : Z;
  hi_flags : Z;
  hi_name : list Z;
  hi_func : hint_func;
  hi_length : Z;
}.

#[export] Instance PINT_hint_info_eq_dec : EqDecision PINT_hint_info.
Proof. solve_decision. Defined.

Definition hint_types : list PINT_hint_info := [
  mkHintInfo PINT_HINT_REQUEST_ID PINT_HINT_TRANSFER (zs "pvfs.hint.request_id") F_uint32_t 4;
  mkHintInfo PINT_HINT_CLIENT_ID PINT_HINT_TRANSFER (zs "pvfs.hint.client_id") F_uint32_t 4;
  mkHintInfo PINT_HINT_HANDLE PINT_HINT_TRANSFER (zs "pvfs.hint.handle") F_uint64_t 8;
  mkHintInfo PINT_HINT_OP_ID 0 (zs "pvfs.hint.op_id") F_uint32_t 4;
  mkHintInfo PINT_HINT_RANK PINT_HINT_TRANSFER (zs "pvfs.hint.rank") F_uint32_t 4;
  mkHintInfo PINT_HINT_SERVER_ID PINT_HINT_TRANSFER (zs "pvfs.hint.server_id") F_uint32_t 4;
  mkHintInfo PINT_HINT_DISTRIBUTION 0 (zs "pvfs.hint.distribution") F_uint32_t 4;
  mkHintInfo PINT_HINT_DFILE_COUNT 0 (zs "pvfs.hint.dfile_count") F_uint32_t 4;
  mkHintInfo PINT_HINT_LAYOUT 0 (zs "pvfs.hint.layout") F_uint32_t 4;
  mkHintInfo PINT_HINT_SERVERLIST 0 (zs "pvfs.hint.serverlist") F_uint32_t 4;
  mkHintInfo PINT_HINT_CACHE 0 (zs "pvfs.hint.cache") F_uint32_t 4;
  mkHintInfo PINT_HINT_LOCAL_UID 0 (zs "pvfs.hint.local_uid") F_uint32_t 4;
  mkHintInfo PINT_HINT_OWNER_GID PINT_HINT_TRANSFER (zs "pvfs.hint.owner_gid") F_uint32_t 4;
  mkHintInfo PINT_HINT_DISTRIBUTION_PV 0 (zs "pvfs.hint.distribution.pv") F_uint32_t 4 ].

(** The first entry with a property. *)
Definition find_info (P : PINT_hint_info → bool) : option PINT_hint_info :=
  list_find (λ i, P i = true) hint_types ≫= λ '(_, i), Some i.

Definition PINT_hint_get_info_by_type (type : Z) : option PINT_hint_info :=
  find_info (λ i, type =? hi_type i).
Definition PINT_hint_get_info_by_name (name : list Z) : option PINT_hint_info :=
  find_info (λ i, bool_decide (name = hi_name i)).

(** * Hint lists *)

Record PINT_hint := mkHint {
  h_type : Z;
  h_type_string : str;
  h_value : list Z;    (* [length] bytes *)
  h_func : hint_func;
  h_flags : Z;
}.

#[export] Instance PINT_hint_eq_dec : EqDecision PINT_hint.
Proof. solve_decision. Defined.

Definition h_length (h : PINT_hint) : Z := len (h_value h).

Definition PINT_hint_check (hints : list PINT_hint) (type : Z) : Z :=
  if existsb (λ h, h_type h =? type) hints then - PVFS_EEXIST else 0.

(** The node that [PVFS_hint_add] makes for a name and a value. *)
Definition new_hint (name value : list Z) : PINT_hint :=
  match PINT_hint_get_info_by_name name with
  | Some info => mkHint (hi_type info) None value (hi_func info) (hi_flags info)
  | None =>
      (* always transfer unknown hints *)
      mkHint PINT_HINT_UNKNOWN (Some name) value F_string PINT_HINT_TRANSFER
  end.

Definition PVFS_hint_add (hints : list PINT_hint) (name value : list Z)
    : list PINT_hint * Z :=
  match PINT_hint_get_info_by_name name with
  | Some info =>
      if decide (PINT_hint_check hints (hi_type info) = - PVFS_EEXIST)
      then (hints, - PVFS_EEXIST)
      else (new_hint name value :: hints, 0)
  | None => (new_hint name value :: hints, 0)
  end.

(** The value of the first node of a type. *)
Fixpoint set_value (hints : list PINT_hint) (type : Z) (value : list Z)
    : option (list PINT_hint) :=
  match hints with
  | [] => None
  | h :: hints =>
      if decide (h_type h = type)
      then Some (mkHint (h_type h) (h_type_string h) value (h_func h) (h_flags h) :: hints)
      else cons h <$> set_value hints type value
  end.

Definition PVFS_hint_replace_internal (hints : list PINT_hint) (type : Z) (value : list Z)
    : list PINT_hint * Z :=
  match PINT_hint_get_info_by_type type with
  | Some info =>
      match set_value hints (hi_type info) value with
      | Some hints' => (hints', 0)
      | None => (hints, - PVFS_ENOENT)
      end
  | None => (hints, - PVFS_ENOENT)
  end.

Definition PVFS_hint_replace (hints : list PINT_hint) (name value : list Z)
    : list PINT_hint * Z :=
  match PINT_hint_get_info_by_name name with
  | Some info => PVFS_hint_replace_internal hints (hi_type info) value
  | None => PVFS_hint_add hints name value
  end.

(** A type that is not in the table leaves the new node uninitialised, which
    every later use of it reads. *)
Definition PVFS_hint_add_internal (hints : list PINT_hint) (type : Z) (value : list Z)
    : exec (list PINT_hint * Z) :=
  match PINT_hint_get_info_by_type type with
  | Some info =>
      if decide (PINT_hint_check hints (hi_type info) = - PVFS_EEXIST)
      then Done (PVFS_hint_replace_internal hints type value)
      else Done (mkHint (hi_type info) None value (hi_func info) (hi_flags info) :: hints, 0)
  | None => Fault BadAccess
  end.

(** A name that is not in the table is a NULL dereference. *)
Definition PVFS_hint_check (hints : list PINT_hint) (name : list Z) : exec Z :=
  match PINT_hint_get_info_by_name name with
  | Some info => Done (PINT_hint_check hints (hi_type info))
  | None => Fault BadAccess
  end.

(** So is a hint of unknown type here. *)
Fixpoint PVFS_hint_check_transfer (hints : list PINT_hint) : exec Z :=
  match hints with
  | [] => Done 0
  | h :: hints =>
      match PINT_hint_get_info_by_type (h_type h) with
      | Some info =>
          if decide (Z.land (hi_flags info) PINT_HINT_TRANSFER ≠ 0) then Done 1
          else PVFS_hint_check_transfer hints
      | None => Fault BadAccess
      end
  end.

Definition hint_name (h : PINT_hint) : list Z :=
  match PINT_hint_get_info_by_type (h_type h) with
  | Some info => hi_name info
  | None => str_bytes (h_type_string h)
  end.

(** [PVFS_hint_copy] adds to the list it is given. *)
Definition PVFS_hint_copy (old new : list PINT_hint) : list PINT_hint * Z :=
  match old with
  | [] => ([], 0)
  | _ => (foldl (λ acc h, fst (PVFS_hint_add acc (hint_name h) (h_value h))) new old, 0)
  end.

Definition PINT_hint_get_value_by_type (hints : list PINT_hint) (type : Z)
    : option (list Z) :=
  list_find (λ h, h_type h = type) hints ≫= λ '(_, h), Some (h_value h).

Definition PINT_hint_get_value_by_name (hints : list PINT_hint) (name : list Z)
    : option (list Z) :=
  list_find (λ h, h_type_string h = Some name) hints ≫= λ '(_, h), Some (h_value h).

(** * Hints on the wire *)

Definition transfer (h : PINT_hint) : bool :=
  negb (Z.land (h_flags h) PINT_HINT_TRANSFER =? 0).

(** How many bytes the functions of a number copy. *)
Definition func_size (f : hint_func) : option Z :=
  match f with F_uint32_t => Some 4 | F_uint64_t => Some 8 | F_string => None end.

(** The value of a string hint is read up to its terminator, which must be in
    the value. *)
Definition c_value (h : PINT_hint) : exec (list Z) :=
  if existsb (Z.eqb 0) (h_value h) then Done (until_nul (h_value h)) else Fault BadAccess.

Definition encode_hint (h : PINT_hint) : exec image :=
  let ty := cells (Z_to_little_endian 4 8 (h_type h)) in
  payload ←
    (if decide (h_type h = PINT_HINT_UNKNOWN) then
       v ← c_value h;
       Done (encode_string (h_type_string h) ++ encode_string (Some v))
     else
       match func_size (h_func h) with
       | Some n => bs ← peek (h_value h) 0 n; Done (cells bs)
       | None => Fault BadAccess
       end);
  Done (ty ++ payload).

Fixpoint encode_hints (hs : list PINT_hint) : exec image :=
  match hs with
  | [] => Done []
  | h :: hs =>
      if transfer h then
        i1 ← encode_hint h;
        i2 ← encode_hints hs;
        Done (i1 ++ i2)
      else encode_hints hs
  end.

(** The arguments of the [PVFS_hint_add] call for the next hint. *)
Definition decode_hint (buf : list Z) (p : Z) : exec ((list Z * list Z) * Z) :=
  '(type, p1) ← dec uint32_t buf p;
  match PINT_hint_get_info_by_type type with
  | Some info =>
      match func_size (hi_func info) with
      | Some n => bs ← peek buf p1 n; Done ((hi_name info, bs), p1 + n)
      | None => Fault BadAccess
      end
  | None =>
      '(name, p2) ← dec string buf p1;
      '(v, p3) ← dec string buf p2;
      Done ((str_bytes name, str_bytes v ++ [0]), p3)
  end.

Fixpoint decode_hints (n : nat) (buf : list Z) (p : Z) (acc : list PINT_hint)
    : exec (list PINT_hint * Z) :=
  match n with
  | O => Done (acc, p)
  | S n =>
      '((name, value), p1) ← decode_hint buf p;
      decode_hints n buf p1 (fst (PVFS_hint_add acc name value))
  end.

(** What [PVFS_hint_add] makes: a known hint with a value of its length, or a
    named string that fits its terminated value. *)
Definition hint_ok (h : PINT_hint) : bool :=
  match PINT_hint_get_info_by_type (h_type h) with
  | Some info =>
      bool_decide (h_type_string h = None ∧ h_func h = hi_func info ∧ h_flags h = hi_flags info
                   ∧ h_length h = hi_length info)
      && forallb is_byte (h_value h)
  | None =>
      bool_decide (h_type h = PINT_HINT_UNKNOWN ∧ h_func h = F_string ∧
                   h_flags h = PINT_HINT_TRANSFER ∧
                   h_value h = until_nul (h_value h) ++ [0]) &&
      string_ok (h_type_string h) && string_ok (Some (until_nul (h_value h))) &&
      bool_decide (PINT_hint_get_info_by_name (str_bytes (h_type_string h)) = None)
  end.

(** A list that [PVFS_hint_add] built has one hint of each known type. *)
Definition hints_ok (hs : list PINT_hint) : bool :=
  forallb hint_ok hs &&
  bool_decide (NoDup (filter (λ ty, ty ≠ PINT_HINT_UNKNOWN) (h_type <$> hs))) &&
  (len hs <? B31).

Definition hints : codec (list PINT_hint) := {|
  enc _ hs :=
    let count := len (filter (λ h, transfer h = true) hs) in
    im ← encode_hints hs;
    Done (cells (Z_to_little_endian 4 8 count) ++ im);
  dec buf p :=
    '(count, p1) ← dec uint32_t buf p;
    decode_hints (Z.to_nat (i32 count)) buf p1 [];
  ok := hints_ok;
|}.

(** What the receiver gets: the hints marked for transfer, last one first. *)
Definition received_hints (hs : list PINT_hint) : list PINT_hint :=
  rev (filter (λ h, transfer h = true) hs).

(** * The table *)

(** Every entry is found by its type and by its name, and its length is that
    of the number its functions handle. *)
Lemma hint_types_ok : Forall (λ i,
  PINT_hint_get_info_by_name (hi_name i) = Some i ∧ hi_type i ≠ PINT_HINT_UNKNOWN ∧
  0 ≤ hi_type i < B32 ∧
  func_size (hi_func i) = Some (hi_length i))
  hint_types.
Proof. vm_decide. Qed.

Lemma find_info_Some P i : find_info P = Some i → i ∈ hint_types ∧ P i = true.
Proof.
  unfold find_info. intros ([k j] & Hf & [= ->])%bind_Some.
  apply list_find_Some in Hf as (Hl & HP & _). split; [by eapply list_elem_of_lookup_2|done].
Qed.

Lemma info_by_type ty i : PINT_hint_get_info_by_type ty = Some i →
  hi_type i = ty ∧ PINT_hint_get_info_by_name (hi_name i) = Some i ∧ ty ≠ PINT_HINT_UNKNOWN ∧
  0 ≤ ty < B32 ∧ func_size (hi_func i) = Some (hi_length i).
Proof.
  intros [Hin Ht%Z.eqb_eq]%find_info_Some.
  pose proof hint_types_ok as H. rewrite Forall_forall in H.
  destruct (H i Hin) as (? & ? & ? & ?). subst ty. done.
Qed.

(** * Round trip *)

Lemma new_hint_ok h : hint_ok h = true → new_hint (hint_name h) (h_value h) = h.
Proof.
  unfold hint_ok, hint_name, new_hint.
  destruct (PINT_hint_get_info_by_type (h_type h)) as [i|] eqn:Ei.
  - intros [(Hs & Hf & Hfl & _)%bool_decide_eq_true _]%andb_true_iff.
    apply info_by_type in Ei as (Ht & -> & _). destruct h; cbn in *. by subst.
  - intros [[[(Ht & Hf & Hfl & _)%bool_decide_eq_true Hs]%andb_true_iff _]%andb_true_iff
      Hn%bool_decide_eq_true]%andb_true_iff.
    rewrite Hn. destruct h as [ty [s|] v f fl]; cbn in *; [by subst|done].
Qed.

(** One hint: the receiver is handed its name and its value. *)
Lemma hint_receives h p : 0 ≤ p → hint_ok h = true →
  ∃ im, encode_hint h = Done im ∧ Forall cell_ok im ∧
    ∀ pre post, len pre = p →
      decode_hint (pre ++ zeroed im ++ post) p = Done ((hint_name h, h_value h), p + len im).
Proof.
  intros Hp. unfold hint_ok, hint_name, encode_hint, decode_hint.
  destruct (PINT_hint_get_info_by_type (h_type h)) as [i|] eqn:Ei.
  - intros [(Hs & Hf & Hfl & Hlen)%bool_decide_eq_true Hb]%andb_true_iff.
    pose proof Ei as (Ht & Hname & Hu & Hr & Hnum)%info_by_type. unfold h_length in Hlen.
    rewrite decide_False, Hf, Hnum by done.
    rewrite (peek_all (h_value h)) by done.
    cbn [mbind exec_bind]. eexists. split; [done|].
    split; [apply Forall_app; split; [by apply le_ok|by apply cells_ok, is_bytes]|].
    intros pre post Hpre. rewrite zeroed_app, !zeroed_cells, <- app_assoc, dec_length by done.
    cbn [mbind exec_bind]. rewrite Ei, Hnum, app_assoc.
    rewrite peek_mid by (done || by apply len_pre_le). cbn [mbind exec_bind].
    do 2 f_equal. rewrite length_app, Nat2Z.inj_add, len_le, length_cells by lia. lia.
  - intros [[[(Ht & Hf & Hfl & Hv)%bool_decide_eq_true Hs]%andb_true_iff Hsv]%andb_true_iff
      Hn%bool_decide_eq_true]%andb_true_iff.
    rewrite decide_True by done. unfold c_value.
    assert (existsb (Z.eqb 0) (h_value h) = true) as ->.
    { rewrite Hv, existsb_app. cbn. by rewrite orb_true_r. }
    cbn [mbind exec_bind].
    destruct (string_lawful (h_type_string h) (p + 4) ltac:(lia) Hs) as (i1 & [= E1] & C1 & D1).
    destruct (string_lawful (Some (until_nul (h_value h))) (p + 4 + len i1) ltac:(lia) Hsv)
      as (i2 & [= E2] & C2 & D2).
    rewrite E1, E2. eexists. split; [done|].
    split; [repeat (apply Forall_app; split); [by apply le_ok|done|done]|].
    intros pre post Hpre.
    rewrite !zeroed_app, zeroed_cells, <- !app_assoc, dec_length by (rewrite ?Ht; done).
    cbn [mbind exec_bind]. rewrite Ei, app_assoc, D1 by (by apply len_pre_le).
    cbn [mbind exec_bind]. rewrite (app_assoc _ (zeroed i1)), D2
      by (rewrite length_app, Nat2Z.inj_add, length_zeroed, (len_pre_le _ p) by done; lia).
    cbn [mbind exec_bind str_bytes]. rewrite <- Hv. do 2 f_equal.
    rewrite !length_app, !Nat2Z.inj_add, len_le by lia. lia.
Qed.

(** A hint whose type is not in the list yet is added in front. *)
Lemma hint_check_fresh acc ty : ty ∉ h_type <$> acc → PINT_hint_check acc ty = 0.
Proof.
  intros Hn. unfold PINT_hint_check. destruct (existsb _ acc) eqn:E; [|done].
  apply existsb_exists in E as (h & Hin%list_elem_of_In & Hty%Z.eqb_eq).
  destruct Hn. apply list_elem_of_fmap. by exists h.
Qed.

Lemma hint_add_ok h acc : hint_ok h = true →
  (h_type h ≠ PINT_HINT_UNKNOWN → h_type h ∉ h_type <$> acc) →
  PVFS_hint_add acc (hint_name h) (h_value h) = (h :: acc, 0).
Proof.
  intros Hok Hfresh. pose proof (new_hint_ok h Hok) as Hnew.
  unfold PVFS_hint_add. destruct (PINT_hint_get_info_by_name _) as [i|] eqn:Ei.
  2: by rewrite Hnew.
  unfold hint_ok in Hok. unfold hint_name in Ei.
  destruct (PINT_hint_get_info_by_type (h_type h)) as [j|] eqn:Ej.
  - pose proof Ej as (Ht & Hj & Hu & _)%info_by_type. rewrite Hj in Ei. injection Ei as <-.
    rewrite Ht, hint_check_fresh by auto. rewrite decide_False by done. by rewrite Hnew.
  - apply andb_true_iff in Hok as [_ Hn%bool_decide_eq_true]. by rewrite Hn in Ei.
Qed.

(** The hints of a list that are known, by type. *)
Abbreviation known hs := (filter (λ ty, ty ≠ PINT_HINT_UNKNOWN) (h_type <$> hs)).

Lemma hints_receive hs acc p :
  0 ≤ p → forallb hint_ok hs = true → NoDup (known hs) →
  (∀ ty, ty ∈ known hs → ty ∉ h_type <$> acc) →
  ∃ im, encode_hints hs = Done im ∧ Forall cell_ok im ∧
    ∀ pre post, len pre = p →
      decode_hints (length (filter (λ h, transfer h = true) hs)) (pre ++ zeroed im ++ post) p acc
        = Done (received_hints hs ++ acc, p + len im).
Proof.
  revert acc p. unfold received_hints.
  induction hs as [|h hs IH]; intros acc p Hp Hok Hnd Hfresh.
  { exists []. split; [done|]. split; [constructor|]. intros. cbn. by rewrite Z.add_0_r. }
  apply andb_true_iff in Hok as [Hh Hhs]. cbn [fmap list_fmap] in Hnd, Hfresh. cbn [encode_hints].
  assert (h_type h ≠ PINT_HINT_UNKNOWN → h_type h ∉ h_type <$> acc) as Hf1.
  { intros Hu. apply Hfresh. rewrite filter_cons_True by done. by left. }
  assert (h_type h ≠ PINT_HINT_UNKNOWN → h_type h ∉ known hs) as Hnd1.
  { intros Hu. rewrite filter_cons_True in Hnd by done. by inversion_clear Hnd. }
  assert (NoDup (known hs)) as Hnd'.
  { rewrite filter_cons in Hnd. case_decide; [by inversion_clear Hnd|done]. }
  assert (∀ ty, ty ∈ known hs → ty ∉ h_type <$> acc) as Hf2.
  { intros ty Hty. apply Hfresh. rewrite filter_cons. case_decide; [by right|done]. }
  destruct (transfer h) eqn:Et.
  2: { rewrite filter_cons_False by (by rewrite Et). by apply IH. }
  rewrite filter_cons_True by done.
  destruct (hint_receives h p Hp Hh) as (i1 & E1 & C1 & D1).
  destruct (IH (h :: acc) (p + len i1) ltac:(lia) Hhs Hnd') as (i2 & E2 & C2 & D2).
  { intros ty Hty [->|Hin]%elem_of_cons; [|by eapply Hf2].
    apply Hnd1 in Hty; [done|]. by apply list_elem_of_filter in Hty as [? _]. }
  rewrite E1. cbn [mbind exec_bind]. rewrite E2. exists (i1 ++ i2). split; [done|].
  split; [by apply Forall_app|]. intros pre post Hpre.
  cbn [length decode_hints]. rewrite zeroed_app, <- app_assoc, D1 by done.
  cbn [mbind exec_bind]. rewrite hint_add_ok by done. cbn [fst].
  rewrite app_assoc, D2 by (rewrite length_app, length_zeroed; lia).
  cbn [rev]. rewrite <- app_assoc. do 2 f_equal. rewrite length_app. lia.
Qed.

#[export] Instance hints_receives : Receives hints received_hints.
Proof.
  intros hs p Hp [[Hok Hnd%bool_decide_eq_true]%andb_true_iff Hlen%Z.ltb_lt]%andb_true_iff.
  destruct (hints_receive hs [] (p + 4) ltac:(lia) Hok Hnd) as (im & E & C & D).
  { intros ty _ H. by apply elem_of_nil in H. }
  pose proof (length_filter (λ h, transfer h = true) hs).
  cbn [enc dec hints]. rewrite E. eexists. split; [done|].
  split; [apply Forall_app; split; [by apply le_ok|done]|]. intros pre post Hpre.
  rewrite zeroed_app, zeroed_cells, <- app_assoc, dec_length by lia. cbn [mbind exec_bind].
  rewrite i32_id, Nat2Z.id, app_assoc, D, app_nil_r by (lia || by apply len_pre_le).
  do 2 f_equal. rewrite length_app, Nat2Z.inj_add, len_le by lia. lia.
Qed.
