(* ===== verification/WireReq.v ===== *)
(** The requests of src/src/proto/pvfs2-req-proto.h: their structs and their
    codecs.  Each codec lists the fields of the [endecode_fields_*] call, or
    of the hand-written macros, in their order. *)

From stdpp Require Import base tactics numbers list.
From S2P Require Import Prelude Errors ServerOps Wire DistTable WireTypes Hint.

#[local] Open Scope codec_scope.

(** * Requests on the wire

    A request tree is sent as the array that [PINT_request_commit] packs it
    into, with indexes in place of pointers ([PINT_request_encode]);
    2^32 - 1 stands for NULL. *)

Record packed_request := mk_packed_request_codec {
  pr_offset : Z;  (* PVFS_offset *)
  pr_num_ereqs : Z;  (* int32_t *)
  pr_num_blocks : Z;  (* int32_t *)
  pr_stride : Z;  (* PVFS_size *)
  pr_ub : Z;  (* PVFS_offset *)
  pr_lb : Z;  (* PVFS_offset *)
  pr_aggregate_size : Z;  (* PVFS_size *)
  pr_num_contig_chunks : Z;  (* int32_t *)
  pr_depth : Z;  (* int32_t *)
  pr_num_nested_req : Z;  (* int32_t *)
  pr_committed : Z;  (* int32_t *)
  pr_refcount : Z;  (* int32_t *)
  pr_ereq : Z;  (* uint32_t *)
  pr_sreq : Z;  (* uint32_t *)
}.

Definition packed_request_codec : codec packed_request :=
  struct (λ '(offset, num_ereqs, num_blocks, stride, ub, lb, aggregate_size, num_contig_chunks, depth, num_nested_req, committed, refcount, ereq, sreq),
      mk_packed_request_codec offset num_ereqs num_blocks stride ub lb aggregate_size
      num_contig_chunks depth num_nested_req committed refcount ereq sreq)
    (λ x, (pr_offset x, pr_num_ereqs x, pr_num_blocks x, pr_stride x, pr_ub x, pr_lb x,
    pr_aggregate_size x, pr_num_contig_chunks x, pr_depth x, pr_num_nested_req x,
    pr_committed x, pr_refcount x, pr_ereq x, pr_sreq x))
    (PVFS_offset ⊗ int32_t ⊗ int32_t ⊗ PVFS_size ⊗ PVFS_offset ⊗ PVFS_offset ⊗ PVFS_size
    ⊗ int32_t ⊗ int32_t ⊗ int32_t ⊗ int32_t ⊗ int32_t <⊗ skip4 ⊗ uint32_t ⊗ uint32_t).

Definition nest_size (l : list packed_request) : Z :=
  match l with r :: _ => pr_num_nested_req r | [] => 0 end.

(** [encode_PINT_Request]: [None] is a request that could not be packed, for
    which nothing is written.  [decode_PINT_Request] reads the structs;
    [PINT_request_decode], which is called next, goes through as many of them
    as the first one claims to have nested. *)
Definition file_request : codec (option (list packed_request)) := {|
  enc p x :=
    match x with
    | Some l =>
        enc (int32_t <⊗ skip4 ▷ (λ n, array (n + 1) packed_request_codec)) p (nest_size l, l)
    | None => Done []
    end;
  dec buf p :=
    '((n, l), p1) ← dec (int32_t <⊗ skip4 ▷ (λ n, array (n + 1) packed_request_codec)) buf p;
    match l with
    | r :: _ =>
        if decide (pr_committed r = -1 ∧ n < pr_num_nested_req r) then Fault BadAccess
        else Done (Some l, p1)
    | [] => Fault BadAccess
    end;
  ok x :=
    match x with
    | Some l =>
        (1 <=? len l)
        && ok (int32_t <⊗ skip4 ▷ (λ n, array (n + 1) packed_request_codec)) (nest_size l, l)
    | None => false
    end;
|}.

(** * Requests *)

Section requests.
Context (t : list PINT_dist).

Record PVFS_servreq_create := mk_servreq_create {
  rq_create_fs_id : Z;  (* PVFS_fs_id *)
  rq_create_credential : PVFS_credential;
  rq_create_attr : PVFS_object_attr;
  rq_create_num_dfiles_req : Z;  (* int32_t *)
  rq_create_layout : PVFS_sys_layout;
}.

Definition servreq_create : codec PVFS_servreq_create :=
  struct (λ '(fs_id, credential, attr, num_dfiles_req, layout),
      mk_servreq_create fs_id credential attr num_dfiles_req layout)
    (λ x, (rq_create_fs_id x, rq_create_credential x, rq_create_attr x,
    rq_create_num_dfiles_req x, rq_create_layout x))
    (PVFS_fs_id <⊗ skip4 ⊗ credential ⊗ (object_attr t) ⊗ int32_t ⊗ sys_layout).

Record PVFS_servreq_batch_create := mk_servreq_batch_create {
  rq_batch_create_fs_id : Z;  (* PVFS_fs_id *)
  rq_batch_create_object_type : Z;  (* PVFS_ds_type *)
  rq_batch_create_object_count : Z;  (* uint32_t *)
  rq_batch_create_handle_extent_array : PVFS_handle_extent_array;
}.

Definition servreq_batch_create : codec PVFS_servreq_batch_create :=
  struct (λ '(fs_id, object_type, object_count, handle_extent_array),
      mk_servreq_batch_create fs_id object_type object_count handle_extent_array)
    (λ x, (rq_batch_create_fs_id x, rq_batch_create_object_type x,
    rq_batch_create_object_count x, rq_batch_create_handle_extent_array x))
    (PVFS_fs_id ⊗ PVFS_ds_type ⊗ uint32_t <⊗ skip4 ⊗ handle_extent_array).

Record PVFS_servreq_remove := mk_servreq_remove {
  rq_remove_handle : Z;  (* PVFS_handle *)
  rq_remove_fs_id : Z;  (* PVFS_fs_id *)
  rq_remove_credential : PVFS_credential;
}.

Definition servreq_remove : codec PVFS_servreq_remove :=
  struct (λ '(handle, fs_id, credential),
      mk_servreq_remove handle fs_id credential)
    (λ x, (rq_remove_handle x, rq_remove_fs_id x, rq_remove_credential x))
    (PVFS_handle ⊗ PVFS_fs_id ⊗ credential).

Record PVFS_servreq_batch_remove := mk_servreq_batch_remove {
  rq_batch_remove_fs_id : Z;  (* PVFS_fs_id *)
  rq_batch_remove_handle_count : Z;  (* int32_t *)
  rq_batch_remove_handles : list Z;  (* PVFS_handle *)
}.

Definition servreq_batch_remove : codec PVFS_servreq_batch_remove :=
  struct (λ '(fs_id, handle_count, handles),
      mk_servreq_batch_remove fs_id handle_count handles)
    (λ x, (rq_batch_remove_fs_id x, rq_batch_remove_handle_count x,
    rq_batch_remove_handles x))
    (PVFS_fs_id ⊗ int32_t ▷ (λ '(_, n), array n PVFS_handle)).

Record PVFS_servreq_mgmt_remove_object := mk_servreq_mgmt_remove_object {
  rq_mgmt_remove_object_handle : Z;  (* PVFS_handle *)
  rq_mgmt_remove_object_fs_id : Z;  (* PVFS_fs_id *)
}.

Definition servreq_mgmt_remove_object : codec PVFS_servreq_mgmt_remove_object :=
  struct (λ '(handle, fs_id),
      mk_servreq_mgmt_remove_object handle fs_id)
    (λ x, (rq_mgmt_remove_object_handle x, rq_mgmt_remove_object_fs_id x))
    (PVFS_handle ⊗ PVFS_fs_id).

Record PVFS_servreq_mgmt_remove_dirent := mk_servreq_mgmt_remove_dirent {
  rq_mgmt_remove_dirent_handle : Z;  (* PVFS_handle *)
  rq_mgmt_remove_dirent_fs_id : Z;  (* PVFS_fs_id *)
  rq_mgmt_remove_dirent_entry : str;
}.

Definition servreq_mgmt_remove_dirent : codec PVFS_servreq_mgmt_remove_dirent :=
  struct (λ '(handle, fs_id, entry),
      mk_servreq_mgmt_remove_dirent handle fs_id entry)
    (λ x, (rq_mgmt_remove_dirent_handle x, rq_mgmt_remove_dirent_fs_id x,
    rq_mgmt_remove_dirent_entry x))
    (PVFS_handle ⊗ PVFS_fs_id <⊗ skip4 ⊗ string).

Record PVFS_servreq_tree_setattr := mk_servreq_tree_setattr {
  rq_tree_setattr_fs_id : Z;  (* PVFS_fs_id *)
  rq_tree_setattr_credential : PVFS_credential;
  rq_tree_setattr_objtype : Z;  (* PVFS_ds_type *)
  rq_tree_setattr_attr : PVFS_object_attr;
  rq_tree_setattr_caller_handle_index : Z;  (* uint32_t *)
  rq_tree_setattr_handle_count : Z;  (* uint32_t *)
  rq_tree_setattr_handle_array : list Z;  (* PVFS_handle *)
}.

Definition servreq_tree_setattr : codec PVFS_servreq_tree_setattr :=
  struct (λ '(fs_id, credential, objtype, attr, caller_handle_index, handle_count, handle_array),
      mk_servreq_tree_setattr fs_id credential objtype attr caller_handle_index
      handle_count handle_array)
    (λ x, (rq_tree_setattr_fs_id x, rq_tree_setattr_credential x,
    rq_tree_setattr_objtype x, rq_tree_setattr_attr x,
    rq_tree_setattr_caller_handle_index x, rq_tree_setattr_handle_count x,
    rq_tree_setattr_handle_array x))
    (PVFS_fs_id ⊗ credential ⊗ PVFS_ds_type ⊗ (object_attr t) ⊗ uint32_t ⊗ uint32_t
    ▷ (λ '(_, _, _, _, _, n), array n PVFS_handle)).

Record PVFS_servreq_tree_remove := mk_servreq_tree_remove {
  rq_tree_remove_fs_id : Z;  (* PVFS_fs_id *)
  rq_tree_remove_credential : PVFS_credential;
  rq_tree_remove_caller_handle_index : Z;  (* uint32_t *)
  rq_tree_remove_handle_count : Z;  (* uint32_t *)
  rq_tree_remove_handle_array : list Z;  (* PVFS_handle *)
}.

Definition servreq_tree_remove : codec PVFS_servreq_tree_remove :=
  struct (λ '(fs_id, credential, caller_handle_index, handle_count, handle_array),
      mk_servreq_tree_remove fs_id credential caller_handle_index handle_count
      handle_array)
    (λ x, (rq_tree_remove_fs_id x, rq_tree_remove_credential x,
    rq_tree_remove_caller_handle_index x, rq_tree_remove_handle_count x,
    rq_tree_remove_handle_array x))
    (PVFS_fs_id ⊗ credential ⊗ uint32_t ⊗ uint32_t
    ▷ (λ '(_, _, _, n), array n PVFS_handle)).

Record PVFS_servreq_tree_get_file_size := mk_servreq_tree_get_file_size {
  rq_tree_get_file_size_fs_id : Z;  (* PVFS_fs_id *)
  rq_tree_get_file_size_caller_handle_index : Z;  (* uint32_t *)
  rq_tree_get_file_size_retry_msgpair_at_leaf : Z;  (* uint32_t *)
  rq_tree_get_file_size_credential : PVFS_credential;
  rq_tree_get_file_size_num_data_files : Z;  (* uint32_t *)
  rq_tree_get_file_size_handle_array : list Z;  (* PVFS_handle *)
}.

Definition servreq_tree_get_file_size : codec PVFS_servreq_tree_get_file_size :=
  struct (λ '(fs_id, caller_handle_index, retry_msgpair_at_leaf, credential, num_data_files, handle_array),
      mk_servreq_tree_get_file_size fs_id caller_handle_index retry_msgpair_at_leaf
      credential num_data_files handle_array)
    (λ x, (rq_tree_get_file_size_fs_id x, rq_tree_get_file_size_caller_handle_index x,
    rq_tree_get_file_size_retry_msgpair_at_leaf x, rq_tree_get_file_size_credential x,
    rq_tree_get_file_size_num_data_files x, rq_tree_get_file_size_handle_array x))
    (PVFS_fs_id ⊗ uint32_t ⊗ uint32_t ⊗ credential ⊗ uint32_t
    ▷ (λ '(_, _, _, _, n), array n PVFS_handle)).

Record PVFS_servreq_tree_getattr := mk_servreq_tree_getattr {
  rq_tree_getattr_fs_id : Z;  (* PVFS_fs_id *)
  rq_tree_getattr_caller_handle_index : Z;  (* uint32_t *)
  rq_tree_getattr_retry_msgpair_at_leaf : Z;  (* uint32_t *)
  rq_tree_getattr_credential : PVFS_credential;
  rq_tree_getattr_attrmask : Z;  (* uint32_t *)
  rq_tree_getattr_handle_count : Z;  (* uint32_t *)
  rq_tree_getattr_handle_array : list Z;  (* PVFS_handle *)
}.

Definition servreq_tree_getattr : codec PVFS_servreq_tree_getattr :=
  struct (λ '(fs_id, caller_handle_index, retry_msgpair_at_leaf, credential, attrmask, handle_count, handle_array),
      mk_servreq_tree_getattr fs_id caller_handle_index retry_msgpair_at_leaf credential
      attrmask handle_count handle_array)
    (λ x, (rq_tree_getattr_fs_id x, rq_tree_getattr_caller_handle_index x,
    rq_tree_getattr_retry_msgpair_at_leaf x, rq_tree_getattr_credential x,
    rq_tree_getattr_attrmask x, rq_tree_getattr_handle_count x,
    rq_tree_getattr_handle_array x))
    (PVFS_fs_id ⊗ uint32_t ⊗ uint32_t ⊗ credential ⊗ uint32_t ⊗ uint32_t
    ▷ (λ '(_, _, _, _, _, n), array n PVFS_handle)).

Record PVFS_servreq_mgmt_get_dirdata_handle := mk_servreq_mgmt_get_dirdata_handle {
  rq_mgmt_get_dirdata_handle_handle : Z;  (* PVFS_handle *)
  rq_mgmt_get_dirdata_handle_fs_id : Z;  (* PVFS_fs_id *)
}.

Definition servreq_mgmt_get_dirdata_handle : codec PVFS_servreq_mgmt_get_dirdata_handle :=
  struct (λ '(handle, fs_id),
      mk_servreq_mgmt_get_dirdata_handle handle fs_id)
    (λ x, (rq_mgmt_get_dirdata_handle_handle x, rq_mgmt_get_dirdata_handle_fs_id x))
    (PVFS_handle ⊗ PVFS_fs_id).

Record PVFS_servreq_flush := mk_servreq_flush {
  rq_flush_handle : Z;  (* PVFS_handle *)
  rq_flush_fs_id : Z;  (* PVFS_fs_id *)
  rq_flush_flags : Z;  (* int32_t *)
}.

Definition servreq_flush : codec PVFS_servreq_flush :=
  struct (λ '(handle, fs_id, flags),
      mk_servreq_flush handle fs_id flags)
    (λ x, (rq_flush_handle x, rq_flush_fs_id x, rq_flush_flags x))
    (PVFS_handle ⊗ PVFS_fs_id ⊗ int32_t).

Record PVFS_servreq_getattr := mk_servreq_getattr {
  rq_getattr_handle : Z;  (* PVFS_handle *)
  rq_getattr_fs_id : Z;  (* PVFS_fs_id *)
  rq_getattr_attrmask : Z;  (* uint32_t *)
  rq_getattr_credential : PVFS_credential;
}.

Definition servreq_getattr : codec PVFS_servreq_getattr :=
  struct (λ '(handle, fs_id, attrmask, credential),
      mk_servreq_getattr handle fs_id attrmask credential)
    (λ x, (rq_getattr_handle x, rq_getattr_fs_id x, rq_getattr_attrmask x,
    rq_getattr_credential x))
    (PVFS_handle ⊗ PVFS_fs_id ⊗ uint32_t ⊗ credential).

Record PVFS_servreq_unstuff := mk_servreq_unstuff {
  rq_unstuff_handle : Z;  (* PVFS_handle *)
  rq_unstuff_fs_id : Z;  (* PVFS_fs_id *)
  rq_unstuff_attrmask : Z;  (* uint32_t *)
  rq_unstuff_credential : PVFS_credential;
}.

Definition servreq_unstuff : codec PVFS_servreq_unstuff :=
  struct (λ '(handle, fs_id, attrmask, credential),
      mk_servreq_unstuff handle fs_id attrmask credential)
    (λ x, (rq_unstuff_handle x, rq_unstuff_fs_id x, rq_unstuff_attrmask x,
    rq_unstuff_credential x))
    (PVFS_handle ⊗ PVFS_fs_id ⊗ uint32_t ⊗ credential).

Record PVFS_servreq_setattr := mk_servreq_setattr {
  rq_setattr_handle : Z;  (* PVFS_handle *)
  rq_setattr_fs_id : Z;  (* PVFS_fs_id *)
  rq_setattr_attr : PVFS_object_attr;
  rq_setattr_credential : PVFS_credential;
}.

Definition servreq_setattr : codec PVFS_servreq_setattr :=
  struct (λ '(handle, fs_id, attr, credential),
      mk_servreq_setattr handle fs_id attr credential)
    (λ x, (rq_setattr_handle x, rq_setattr_fs_id x, rq_setattr_attr x,
    rq_setattr_credential x))
    (PVFS_handle ⊗ PVFS_fs_id <⊗ skip4 ⊗ (object_attr t) ⊗ credential).

Record PVFS_servreq_lookup_path := mk_servreq_lookup_path {
  rq_lookup_path_path : str;
  rq_lookup_path_fs_id : Z;  (* PVFS_fs_id *)
  rq_lookup_path_handle : Z;  (* PVFS_handle *)
  rq_lookup_path_attrmask : Z;  (* uint32_t *)
  rq_lookup_path_credential : PVFS_credential;
}.

Definition servreq_lookup_path : codec PVFS_servreq_lookup_path :=
  struct (λ '(path, fs_id, handle, attrmask, credential),
      mk_servreq_lookup_path path fs_id handle attrmask credential)
    (λ x, (rq_lookup_path_path x, rq_lookup_path_fs_id x, rq_lookup_path_handle x,
    rq_lookup_path_attrmask x, rq_lookup_path_credential x))
    (string ⊗ PVFS_fs_id <⊗ skip4 ⊗ PVFS_handle ⊗ uint32_t ⊗ credential).

Record PVFS_servreq_mkdir := mk_servreq_mkdir {
  rq_mkdir_fs_id : Z;  (* PVFS_fs_id *)
  rq_mkdir_credential : PVFS_credential;
  rq_mkdir_attr : PVFS_object_attr;
  rq_mkdir_handle_extent_array : PVFS_handle_extent_array;
  rq_mkdir_distr_dir_servers_initial : Z;  (* int32_t *)
  rq_mkdir_distr_dir_servers_max : Z;  (* int32_t *)
  rq_mkdir_distr_dir_split_size : Z;  (* int32_t *)
  rq_mkdir_layout : PVFS_sys_layout;
}.

Definition servreq_mkdir : codec PVFS_servreq_mkdir :=
  struct (λ '(fs_id, credential, attr, handle_extent_array, distr_dir_servers_initial, distr_dir_servers_max, distr_dir_split_size, layout),
      mk_servreq_mkdir fs_id credential attr handle_extent_array distr_dir_servers_initial
      distr_dir_servers_max distr_dir_split_size layout)
    (λ x, (rq_mkdir_fs_id x, rq_mkdir_credential x, rq_mkdir_attr x,
    rq_mkdir_handle_extent_array x, rq_mkdir_distr_dir_servers_initial x,
    rq_mkdir_distr_dir_servers_max x, rq_mkdir_distr_dir_split_size x, rq_mkdir_layout x))
    (PVFS_fs_id <⊗ skip4 ⊗ credential ⊗ (object_attr t) ⊗ handle_extent_array ⊗ int32_t
    ⊗ int32_t ⊗ int32_t ⊗ sys_layout).

Record PVFS_servreq_crdirent := mk_servreq_crdirent {
  rq_crdirent_credential : PVFS_credential;
  rq_crdirent_name : str;
  rq_crdirent_new_handle : Z;  (* PVFS_handle *)
  rq_crdirent_handle : Z;  (* PVFS_handle *)
  rq_crdirent_dirent_handle : Z;  (* PVFS_handle *)
  rq_crdirent_fs_id : Z;  (* PVFS_fs_id *)
}.

Definition servreq_crdirent : codec PVFS_servreq_crdirent :=
  struct (λ '(credential, name, new_handle, handle, dirent_handle, fs_id),
      mk_servreq_crdirent credential name new_handle handle dirent_handle fs_id)
    (λ x, (rq_crdirent_credential x, rq_crdirent_name x, rq_crdirent_new_handle x,
    rq_crdirent_handle x, rq_crdirent_dirent_handle x, rq_crdirent_fs_id x))
    (credential ⊗ string ⊗ PVFS_handle ⊗ PVFS_handle ⊗ PVFS_handle ⊗ PVFS_fs_id).

Record PVFS_servreq_rmdirent := mk_servreq_rmdirent {
  rq_rmdirent_entry : str;
  rq_rmdirent_handle : Z;  (* PVFS_handle *)
  rq_rmdirent_fs_id : Z;  (* PVFS_fs_id *)
}.

Definition servreq_rmdirent : codec PVFS_servreq_rmdirent :=
  struct (λ '(entry, handle, fs_id),
      mk_servreq_rmdirent entry handle fs_id)
    (λ x, (rq_rmdirent_entry x, rq_rmdirent_handle x, rq_rmdirent_fs_id x))
    (string ⊗ PVFS_handle ⊗ PVFS_fs_id).

Record PVFS_servreq_chdirent := mk_servreq_chdirent {
  rq_chdirent_entry : str;
  rq_chdirent_new_dirent_handle : Z;  (* PVFS_handle *)
  rq_chdirent_handle : Z;  (* PVFS_handle *)
  rq_chdirent_fs_id : Z;  (* PVFS_fs_id *)
}.

Definition servreq_chdirent : codec PVFS_servreq_chdirent :=
  struct (λ '(entry, new_dirent_handle, handle, fs_id),
      mk_servreq_chdirent entry new_dirent_handle handle fs_id)
    (λ x, (rq_chdirent_entry x, rq_chdirent_new_dirent_handle x, rq_chdirent_handle x,
    rq_chdirent_fs_id x))
    (string ⊗ PVFS_handle ⊗ PVFS_handle ⊗ PVFS_fs_id).

Record PVFS_servreq_readdir := mk_servreq_readdir {
  rq_readdir_handle : Z;  (* PVFS_handle *)
  rq_readdir_fs_id : Z;  (* PVFS_fs_id *)
  rq_readdir_dirent_count : Z;  (* uint32_t *)
  rq_readdir_token : Z;  (* PVFS_ds_position *)
}.

Definition servreq_readdir : codec PVFS_servreq_readdir :=
  struct (λ '(handle, fs_id, dirent_count, token),
      mk_servreq_readdir handle fs_id dirent_count token)
    (λ x, (rq_readdir_handle x, rq_readdir_fs_id x, rq_readdir_dirent_count x,
    rq_readdir_token x))
    (PVFS_handle ⊗ PVFS_fs_id ⊗ uint32_t <⊗ skip4 ⊗ PVFS_ds_position).

(** [mirror]: the loop sends [dst_handle] and [wcIndex] alternately, so the
    two arrays are one list of pairs. *)
Record PVFS_servreq_mirror := mk_servreq_mirror {
  rq_mirror_src_handle : Z;          (* PVFS_handle *)
  rq_mirror_fs_id : Z;               (* PVFS_fs_id *)
  rq_mirror_dist : PINT_dist;
  rq_mirror_bsize : Z;               (* uint32_t *)
  rq_mirror_src_server_nr : Z;       (* uint32_t *)
  rq_mirror_dst_count : Z;           (* uint32_t *)
  rq_mirror_flow_type : Z;           (* enum PVFS_flowproto_type *)
  rq_mirror_encoding : Z;            (* enum PVFS_encoding_type *)
  rq_mirror_dst : list (Z * Z);      (* dst_handle[i], wcIndex[i] *)
}.

Definition servreq_mirror : codec PVFS_servreq_mirror :=
  struct (λ '(src_handle, fs_id, dist, bsize, src_server_nr, dst_count, flow_type, encoding, dst),
      mk_servreq_mirror src_handle fs_id dist bsize src_server_nr dst_count flow_type encoding
        dst)
    (λ x, (rq_mirror_src_handle x, rq_mirror_fs_id x, rq_mirror_dist x, rq_mirror_bsize x,
      rq_mirror_src_server_nr x, rq_mirror_dst_count x, rq_mirror_flow_type x,
      rq_mirror_encoding x, rq_mirror_dst x))
    (PVFS_handle ⊗ PVFS_fs_id ⊗ dist t ⊗ uint32_t ⊗ uint32_t ⊗ uint32_t ⊗ enum ⊗ enum
     ▷ (λ '(_, _, _, _, _, n, _, _), array n (PVFS_handle ⊗ uint32_t))).

Record PVFS_servreq_truncate := mk_servreq_truncate {
  rq_truncate_handle : Z;  (* PVFS_handle *)
  rq_truncate_fs_id : Z;  (* PVFS_fs_id *)
  rq_truncate_size : Z;  (* PVFS_size *)
  rq_truncate_flags : Z;  (* int32_t *)
}.

Definition servreq_truncate : codec PVFS_servreq_truncate :=
  struct (λ '(handle, fs_id, size, flags),
      mk_servreq_truncate handle fs_id size flags)
    (λ x, (rq_truncate_handle x, rq_truncate_fs_id x, rq_truncate_size x,
    rq_truncate_flags x))
    (PVFS_handle ⊗ PVFS_fs_id <⊗ skip4 ⊗ PVFS_size ⊗ int32_t).

Record PVFS_servreq_statfs := mk_servreq_statfs {
  rq_statfs_fs_id : Z;  (* PVFS_fs_id *)
}.

Definition servreq_statfs : codec PVFS_servreq_statfs :=
  struct mk_servreq_statfs rq_statfs_fs_id
    (PVFS_fs_id).

Record PVFS_servreq_io := mk_servreq_io {
  rq_io_handle : Z;              (* PVFS_handle: target datafile *)
  rq_io_fs_id : Z;               (* PVFS_fs_id *)
  rq_io_io_type : Z;             (* enum PVFS_io_type *)
  rq_io_flow_type : Z;           (* enum PVFS_flowproto_type *)
  rq_io_server_nr : Z;           (* uint32_t *)
  rq_io_server_ct : Z;           (* uint32_t *)
  rq_io_io_dist : PINT_dist;
  rq_io_file_req : option (list packed_request);
  rq_io_file_req_offset : Z;     (* PVFS_offset *)
  rq_io_aggregate_size : Z;      (* PVFS_size *)
}.

Definition servreq_io : codec PVFS_servreq_io :=
  struct (λ '(handle, fs_id, io_type, flow_type, server_nr, server_ct, io_dist, file_req,
              file_req_offset, aggregate_size),
      mk_servreq_io handle fs_id io_type flow_type server_nr server_ct io_dist file_req
        file_req_offset aggregate_size)
    (λ x, (rq_io_handle x, rq_io_fs_id x, rq_io_io_type x, rq_io_flow_type x,
      rq_io_server_nr x, rq_io_server_ct x, rq_io_io_dist x, rq_io_file_req x,
      rq_io_file_req_offset x, rq_io_aggregate_size x))
    (PVFS_handle ⊗ PVFS_fs_id <⊗ skip4 ⊗ enum ⊗ enum ⊗ uint32_t ⊗ uint32_t ⊗ dist t
     ⊗ file_request ⊗ PVFS_offset ⊗ PVFS_size).

Definition PVFS_IO_READ : Z := 1.
Definition PVFS_IO_WRITE : Z := 2.

(** A small write carries its data: [segments] gives [offsets] and [sizes] of
    the pieces of [buffer] that are sent one after the other. *)
Record PVFS_servreq_small_io := mk_servreq_small_io {
  rq_small_io_handle : Z;             (* PVFS_handle *)
  rq_small_io_fs_id : Z;              (* PVFS_fs_id *)
  rq_small_io_io_type : Z;            (* enum PVFS_io_type *)
  rq_small_io_server_nr : Z;          (* uint32_t *)
  rq_small_io_server_ct : Z;          (* uint32_t *)
  rq_small_io_dist : PINT_dist;
  rq_small_io_file_req : option (list packed_request);
  rq_small_io_file_req_offset : Z;    (* PVFS_offset *)
  rq_small_io_aggregate_size : Z;     (* PVFS_size *)
  rq_small_io_total_bytes : Z;        (* PVFS_size *)
  rq_small_io_segments : list (Z * Z);
  rq_small_io_buffer : list Z;
}.

Fixpoint gather (segments : list (Z * Z)) (buffer : list Z) : exec (list Z) :=
  match segments with
  | [] => Done []
  | (offset, size) :: segments =>
      bs ← peek buffer offset size;
      rest ← gather segments buffer;
      Done (bs ++ rest)
  end.

(** The receiver points to the data; it has no segments. *)
Definition small_io_data (io_type total_bytes : Z) : codec (list (Z * Z) * list Z) := {|
  enc _ '(segments, buffer) :=
    if decide (io_type = PVFS_IO_WRITE) then bs ← gather segments buffer; Done (cells bs)
    else Done [];
  dec buf p :=
    if decide (io_type = PVFS_IO_WRITE) then Done (([], view buf p total_bytes), p + total_bytes)
    else Done (([], []), p);
  ok '(segments, buffer) :=
    if decide (io_type = PVFS_IO_WRITE) then
      match gather segments buffer with
      | Done bs => (len bs =? total_bytes) && forallb is_byte bs
      | Fault _ => false
      end
    else true;
|}.

Definition servreq_small_io : codec PVFS_servreq_small_io :=
  struct (λ '(handle, fs_id, io_type, server_nr, server_ct, d, file_req, file_req_offset,
              aggregate_size, total_bytes, (segments, buffer)),
      mk_servreq_small_io handle fs_id io_type server_nr server_ct d file_req file_req_offset
        aggregate_size total_bytes segments buffer)
    (λ x, (rq_small_io_handle x, rq_small_io_fs_id x, rq_small_io_io_type x,
      rq_small_io_server_nr x, rq_small_io_server_ct x, rq_small_io_dist x,
      rq_small_io_file_req x, rq_small_io_file_req_offset x, rq_small_io_aggregate_size x,
      rq_small_io_total_bytes x, (rq_small_io_segments x, rq_small_io_buffer x)))
    (PVFS_handle ⊗ PVFS_fs_id ⊗ enum ⊗ uint32_t ⊗ uint32_t ⊗ dist t ⊗ file_request
     ⊗ PVFS_offset ⊗ PVFS_size ⊗ PVFS_size <⊗ skip4
     ▷ (λ '(_, _, io_type, _, _, _, _, _, _, total), small_io_data io_type total)).

(** What the server gets of a small write: the pieces in one. *)
Definition received_data (io_type : Z) (segments : list (Z * Z)) (buffer : list Z)
    : list (Z * Z) * list Z :=
  if decide (io_type = PVFS_IO_WRITE) then
    ([], match gather segments buffer with Done bs => bs | Fault _ => [] end)
  else ([], []).

Definition received_small_io (x : PVFS_servreq_small_io) : PVFS_servreq_small_io :=
  let '(segments, buffer) := received_data (rq_small_io_io_type x) (rq_small_io_segments x)
                               (rq_small_io_buffer x) in
  mk_servreq_small_io (rq_small_io_handle x) (rq_small_io_fs_id x) (rq_small_io_io_type x)
    (rq_small_io_server_nr x) (rq_small_io_server_ct x) (rq_small_io_dist x)
    (rq_small_io_file_req x) (rq_small_io_file_req_offset x) (rq_small_io_aggregate_size x)
    (rq_small_io_total_bytes x) segments buffer.

Record PVFS_servreq_listattr := mk_servreq_listattr {
  rq_listattr_fs_id : Z;  (* PVFS_fs_id *)
  rq_listattr_attrmask : Z;  (* uint32_t *)
  rq_listattr_nhandles : Z;  (* uint32_t *)
  rq_listattr_handles : list Z;  (* PVFS_handle *)
}.

Definition servreq_listattr : codec PVFS_servreq_listattr :=
  struct (λ '(fs_id, attrmask, nhandles, handles),
      mk_servreq_listattr fs_id attrmask nhandles handles)
    (λ x, (rq_listattr_fs_id x, rq_listattr_attrmask x, rq_listattr_nhandles x,
    rq_listattr_handles x))
    (PVFS_fs_id ⊗ uint32_t <⊗ skip4 ⊗ uint32_t ▷ (λ '(_, _, n), array n PVFS_handle)).

Record PVFS_servreq_mgmt_setparam := mk_servreq_mgmt_setparam {
  rq_mgmt_setparam_fs_id : Z;  (* PVFS_fs_id *)
  rq_mgmt_setparam_param : Z;  (* enum *)
  rq_mgmt_setparam_value : PVFS_mgmt_setparam_value;
}.

Definition servreq_mgmt_setparam : codec PVFS_servreq_mgmt_setparam :=
  struct (λ '(fs_id, param, value),
      mk_servreq_mgmt_setparam fs_id param value)
    (λ x, (rq_mgmt_setparam_fs_id x, rq_mgmt_setparam_param x, rq_mgmt_setparam_value x))
    (PVFS_fs_id ⊗ enum ⊗ mgmt_setparam_value).

Record PVFS_servreq_mgmt_perf_mon := mk_servreq_mgmt_perf_mon {
  rq_mgmt_perf_mon_cnt_type : Z;  (* uint32_t *)
  rq_mgmt_perf_mon_next_id : Z;  (* uint32_t *)
  rq_mgmt_perf_mon_key_count : Z;  (* uint32_t *)
  rq_mgmt_perf_mon_count : Z;  (* uint32_t *)
}.

Definition servreq_mgmt_perf_mon : codec PVFS_servreq_mgmt_perf_mon :=
  struct (λ '(cnt_type, next_id, key_count, count),
      mk_servreq_mgmt_perf_mon cnt_type next_id key_count count)
    (λ x, (rq_mgmt_perf_mon_cnt_type x, rq_mgmt_perf_mon_next_id x,
    rq_mgmt_perf_mon_key_count x, rq_mgmt_perf_mon_count x))
    (uint32_t ⊗ uint32_t ⊗ uint32_t ⊗ uint32_t).

Record PVFS_servreq_mgmt_iterate_handles := mk_servreq_mgmt_iterate_handles {
  rq_mgmt_iterate_handles_fs_id : Z;  (* PVFS_fs_id *)
  rq_mgmt_iterate_handles_handle_count : Z;  (* int32_t *)
  rq_mgmt_iterate_handles_flags : Z;  (* int32_t *)
  rq_mgmt_iterate_handles_position : Z;  (* PVFS_ds_position *)
}.

Definition servreq_mgmt_iterate_handles : codec PVFS_servreq_mgmt_iterate_handles :=
  struct (λ '(fs_id, handle_count, flags, position),
      mk_servreq_mgmt_iterate_handles fs_id handle_count flags position)
    (λ x, (rq_mgmt_iterate_handles_fs_id x, rq_mgmt_iterate_handles_handle_count x,
    rq_mgmt_iterate_handles_flags x, rq_mgmt_iterate_handles_position x))
    (PVFS_fs_id ⊗ int32_t ⊗ int32_t ⊗ PVFS_ds_position).

Record PVFS_servreq_mgmt_dspace_info_list := mk_servreq_mgmt_dspace_info_list {
  rq_mgmt_dspace_info_list_fs_id : Z;  (* PVFS_fs_id *)
  rq_mgmt_dspace_info_list_handle_count : Z;  (* int32_t *)
  rq_mgmt_dspace_info_list_handle_array : list Z;  (* PVFS_handle *)
}.

Definition servreq_mgmt_dspace_info_list : codec PVFS_servreq_mgmt_dspace_info_list :=
  struct (λ '(fs_id, handle_count, handle_array),
      mk_servreq_mgmt_dspace_info_list fs_id handle_count handle_array)
    (λ x, (rq_mgmt_dspace_info_list_fs_id x, rq_mgmt_dspace_info_list_handle_count x,
    rq_mgmt_dspace_info_list_handle_array x))
    (PVFS_fs_id ⊗ int32_t ▷ (λ '(_, n), array n PVFS_handle)).

Record PVFS_servreq_mgmt_event_mon := mk_servreq_mgmt_event_mon {
  rq_mgmt_event_mon_event_count : Z;  (* uint32_t *)
}.

Definition servreq_mgmt_event_mon : codec PVFS_servreq_mgmt_event_mon :=
  struct mk_servreq_mgmt_event_mon rq_mgmt_event_mon_event_count
    (uint32_t).

Record PVFS_servreq_geteattr := mk_servreq_geteattr {
  rq_geteattr_handle : Z;  (* PVFS_handle *)
  rq_geteattr_fs_id : Z;  (* PVFS_fs_id *)
  rq_geteattr_nkey : Z;  (* int32_t *)
  rq_geteattr_key : list PVFS_ds_keyval;
  rq_geteattr_valsz : list Z;  (* PVFS_size *)
}.

Definition servreq_geteattr : codec PVFS_servreq_geteattr :=
  struct (λ '(handle, fs_id, nkey, key, valsz),
      mk_servreq_geteattr handle fs_id nkey key valsz)
    (λ x, (rq_geteattr_handle x, rq_geteattr_fs_id x, rq_geteattr_nkey x,
    rq_geteattr_key x, rq_geteattr_valsz x))
    (PVFS_handle ⊗ PVFS_fs_id ⊗ int32_t ▷ (λ '(_, _, n), array n ds_keyval)
    ▷ (λ '(_, _, n, _), array n PVFS_size)).

Record PVFS_servreq_seteattr := mk_servreq_seteattr {
  rq_seteattr_handle : Z;  (* PVFS_handle *)
  rq_seteattr_fs_id : Z;  (* PVFS_fs_id *)
  rq_seteattr_flags : Z;  (* int32_t *)
  rq_seteattr_nkey : Z;  (* int32_t *)
  rq_seteattr_key : list PVFS_ds_keyval;
  rq_seteattr_val : list PVFS_ds_keyval;
}.

Definition servreq_seteattr : codec PVFS_servreq_seteattr :=
  struct (λ '(handle, fs_id, flags, nkey, key, val),
      mk_servreq_seteattr handle fs_id flags nkey key val)
    (λ x, (rq_seteattr_handle x, rq_seteattr_fs_id x, rq_seteattr_flags x,
    rq_seteattr_nkey x, rq_seteattr_key x, rq_seteattr_val x))
    (PVFS_handle ⊗ PVFS_fs_id ⊗ int32_t <⊗ skip4 ⊗ int32_t
    ▷ (λ '(_, _, _, n), array n ds_keyval) ▷ (λ '(_, _, _, n, _), array n ds_keyval)).

Record PVFS_servreq_atomiceattr := mk_servreq_atomiceattr {
  rq_atomiceattr_handle : Z;  (* PVFS_handle *)
  rq_atomiceattr_fs_id : Z;  (* PVFS_fs_id *)
  rq_atomiceattr_flags : Z;  (* int32_t *)
  rq_atomiceattr_opcode : Z;  (* int32_t *)
  rq_atomiceattr_nkey : Z;  (* int32_t *)
  rq_atomiceattr_key : list PVFS_ds_keyval;
  rq_atomiceattr_val : list PVFS_ds_keyval;
  rq_atomiceattr_valsz : list Z;  (* PVFS_size *)
}.

Definition servreq_atomiceattr : codec PVFS_servreq_atomiceattr :=
  struct (λ '(handle, fs_id, flags, opcode, nkey, key, val, valsz),
      mk_servreq_atomiceattr handle fs_id flags opcode nkey key val valsz)
    (λ x, (rq_atomiceattr_handle x, rq_atomiceattr_fs_id x, rq_atomiceattr_flags x,
    rq_atomiceattr_opcode x, rq_atomiceattr_nkey x, rq_atomiceattr_key x,
    rq_atomiceattr_val x, rq_atomiceattr_valsz x))
    (PVFS_handle ⊗ PVFS_fs_id ⊗ int32_t ⊗ int32_t ⊗ int32_t
    ▷ (λ '(_, _, _, _, n), array n ds_keyval) ▷ (λ '(_, _, _, _, n, _), array n ds_keyval)
    ▷ (λ '(_, _, _, _, n, _, _), array n PVFS_size)).

Record PVFS_servreq_deleattr := mk_servreq_deleattr {
  rq_deleattr_handle : Z;  (* PVFS_handle *)
  rq_deleattr_fs_id : Z;  (* PVFS_fs_id *)
  rq_deleattr_key : PVFS_ds_keyval;
}.

Definition servreq_deleattr : codec PVFS_servreq_deleattr :=
  struct (λ '(handle, fs_id, key),
      mk_servreq_deleattr handle fs_id key)
    (λ x, (rq_deleattr_handle x, rq_deleattr_fs_id x, rq_deleattr_key x))
    (PVFS_handle ⊗ PVFS_fs_id ⊗ ds_keyval).

Record PVFS_servreq_listeattr := mk_servreq_listeattr {
  rq_listeattr_handle : Z;  (* PVFS_handle *)
  rq_listeattr_fs_id : Z;  (* PVFS_fs_id *)
  rq_listeattr_token : Z;  (* PVFS_ds_position *)
  rq_listeattr_nkey : Z;  (* uint32_t *)
  rq_listeattr_keysz : list Z;  (* PVFS_size *)
}.

Definition servreq_listeattr : codec PVFS_servreq_listeattr :=
  struct (λ '(handle, fs_id, token, nkey, keysz),
      mk_servreq_listeattr handle fs_id token nkey keysz)
    (λ x, (rq_listeattr_handle x, rq_listeattr_fs_id x, rq_listeattr_token x,
    rq_listeattr_nkey x, rq_listeattr_keysz x))
    (PVFS_handle ⊗ PVFS_fs_id <⊗ skip4 ⊗ PVFS_ds_position ⊗ uint32_t
    ▷ (λ '(_, _, _, n), array n PVFS_size)).

Record PVFS_servreq_mgmt_get_uid := mk_servreq_mgmt_get_uid {
  rq_mgmt_get_uid_history : Z;  (* uint32_t *)
}.

Definition servreq_mgmt_get_uid : codec PVFS_servreq_mgmt_get_uid :=
  struct mk_servreq_mgmt_get_uid rq_mgmt_get_uid_history
    (uint32_t).

Record PVFS_servreq_mgmt_get_dirent := mk_servreq_mgmt_get_dirent {
  rq_mgmt_get_dirent_handle : Z;  (* PVFS_handle *)
  rq_mgmt_get_dirent_fs_id : Z;  (* PVFS_fs_id *)
  rq_mgmt_get_dirent_entry : str;
}.

Definition servreq_mgmt_get_dirent : codec PVFS_servreq_mgmt_get_dirent :=
  struct (λ '(handle, fs_id, entry),
      mk_servreq_mgmt_get_dirent handle fs_id entry)
    (λ x, (rq_mgmt_get_dirent_handle x, rq_mgmt_get_dirent_fs_id x,
    rq_mgmt_get_dirent_entry x))
    (PVFS_handle ⊗ PVFS_fs_id ⊗ string).

Record PVFS_servreq_mgmt_create_root_dir := mk_servreq_mgmt_create_root_dir {
  rq_mgmt_create_root_dir_handle : Z;  (* PVFS_handle *)
  rq_mgmt_create_root_dir_fs_id : Z;  (* PVFS_fs_id *)
}.

Definition servreq_mgmt_create_root_dir : codec PVFS_servreq_mgmt_create_root_dir :=
  struct (λ '(handle, fs_id),
      mk_servreq_mgmt_create_root_dir handle fs_id)
    (λ x, (rq_mgmt_create_root_dir_handle x, rq_mgmt_create_root_dir_fs_id x))
    (PVFS_handle ⊗ PVFS_fs_id).

Record PVFS_servreq_mgmt_split_dirent := mk_servreq_mgmt_split_dirent {
  rq_mgmt_split_dirent_fs_id : Z;  (* PVFS_fs_id *)
  rq_mgmt_split_dirent_dest_dirent_handle : Z;  (* PVFS_handle *)
  rq_mgmt_split_dirent_dist : PINT_dist;
  rq_mgmt_split_dirent_undo : Z;  (* int32_t *)
  rq_mgmt_split_dirent_nentries : Z;  (* int32_t *)
  rq_mgmt_split_dirent_entry_handles : list Z;  (* PVFS_handle *)
  rq_mgmt_split_dirent_entry_names : list str;
}.

Definition servreq_mgmt_split_dirent : codec PVFS_servreq_mgmt_split_dirent :=
  struct (λ '(fs_id, dest_dirent_handle, dist, undo, nentries, entry_handles, entry_names),
      mk_servreq_mgmt_split_dirent fs_id dest_dirent_handle dist undo nentries
      entry_handles entry_names)
    (λ x, (rq_mgmt_split_dirent_fs_id x, rq_mgmt_split_dirent_dest_dirent_handle x,
    rq_mgmt_split_dirent_dist x, rq_mgmt_split_dirent_undo x,
    rq_mgmt_split_dirent_nentries x, rq_mgmt_split_dirent_entry_handles x,
    rq_mgmt_split_dirent_entry_names x))
    (PVFS_fs_id ⊗ PVFS_handle ⊗ (dist t) <⊗ skip4 ⊗ int32_t ⊗ int32_t
    ▷ (λ '(_, _, _, _, n), array n PVFS_handle) ▷ (λ '(_, _, _, _, n, _), array n string)).

Record PVFS_servreq_mgmt_get_user_cert := mk_servreq_mgmt_get_user_cert {
  rq_mgmt_get_user_cert_fs_id : Z;          (* PVFS_fs_id *)
  rq_mgmt_get_user_cert_userid : str;
  rq_mgmt_get_user_cert_enc_pwd_size : Z;   (* PVFS_size *)
  rq_mgmt_get_user_cert_enc_pwd : list Z;
  rq_mgmt_get_user_cert_enc_key_size : Z;   (* PVFS_size *)
  rq_mgmt_get_user_cert_enc_key : list Z;
  rq_mgmt_get_user_cert_exp : Z;            (* uint32_t *)
}.

Definition servreq_mgmt_get_user_cert : codec PVFS_servreq_mgmt_get_user_cert :=
  struct (λ '(fs_id, userid, enc_pwd_size, enc_pwd, enc_key_size, enc_key, exp),
      mk_servreq_mgmt_get_user_cert fs_id userid enc_pwd_size enc_pwd enc_key_size enc_key exp)
    (λ x, (rq_mgmt_get_user_cert_fs_id x, rq_mgmt_get_user_cert_userid x,
      rq_mgmt_get_user_cert_enc_pwd_size x, rq_mgmt_get_user_cert_enc_pwd x,
      rq_mgmt_get_user_cert_enc_key_size x, rq_mgmt_get_user_cert_enc_key x,
      rq_mgmt_get_user_cert_exp x))
    (PVFS_fs_id ⊗ string ⊗ PVFS_size ▷ (λ '(_, _, n), raw n) ⊗ PVFS_size
     ▷ (λ '(_, _, _, _, n), raw n) ⊗ uint32_t).

Record PVFS_servreq_mgmt_get_user_cert_keyreq := mk_servreq_mgmt_get_user_cert_keyreq {
  rq_mgmt_get_user_cert_keyreq_fs_id : Z;  (* PVFS_fs_id *)
}.

Definition servreq_mgmt_get_user_cert_keyreq : codec PVFS_servreq_mgmt_get_user_cert_keyreq :=
  struct mk_servreq_mgmt_get_user_cert_keyreq rq_mgmt_get_user_cert_keyreq_fs_id
    (PVFS_fs_id).

End requests.

(** * The union of all requests *)

(** The member [req->u] of a request, which [req->op] selects; operations
    without a member have only their number. *)
Inductive servreq :=
  | Rq_create (x : PVFS_servreq_create)
  | Rq_batch_create (x : PVFS_servreq_batch_create)
  | Rq_remove (x : PVFS_servreq_remove)
  | Rq_batch_remove (x : PVFS_servreq_batch_remove)
  | Rq_mgmt_remove_object (x : PVFS_servreq_mgmt_remove_object)
  | Rq_mgmt_remove_dirent (x : PVFS_servreq_mgmt_remove_dirent)
  | Rq_tree_setattr (x : PVFS_servreq_tree_setattr)
  | Rq_tree_remove (x : PVFS_servreq_tree_remove)
  | Rq_tree_get_file_size (x : PVFS_servreq_tree_get_file_size)
  | Rq_tree_getattr (x : PVFS_servreq_tree_getattr)
  | Rq_mgmt_get_dirdata_handle (x : PVFS_servreq_mgmt_get_dirdata_handle)
  | Rq_flush (x : PVFS_servreq_flush)
  | Rq_getattr (x : PVFS_servreq_getattr)
  | Rq_unstuff (x : PVFS_servreq_unstuff)
  | Rq_setattr (x : PVFS_servreq_setattr)
  | Rq_lookup_path (x : PVFS_servreq_lookup_path)
  | Rq_mkdir (x : PVFS_servreq_mkdir)
  | Rq_crdirent (x : PVFS_servreq_crdirent)
  | Rq_rmdirent (x : PVFS_servreq_rmdirent)
  | Rq_chdirent (x : PVFS_servreq_chdirent)
  | Rq_readdir (x : PVFS_servreq_readdir)
  | Rq_mirror (x : PVFS_servreq_mirror)
  | Rq_truncate (x : PVFS_servreq_truncate)
  | Rq_statfs (x : PVFS_servreq_statfs)
  | Rq_io (x : PVFS_servreq_io)
  | Rq_small_io (x : PVFS_servreq_small_io)
  | Rq_listattr (x : PVFS_servreq_listattr)
  | Rq_mgmt_setparam (x : PVFS_servreq_mgmt_setparam)
  | Rq_mgmt_perf_mon (x : PVFS_servreq_mgmt_perf_mon)
  | Rq_mgmt_iterate_handles (x : PVFS_servreq_mgmt_iterate_handles)
  | Rq_mgmt_dspace_info_list (x : PVFS_servreq_mgmt_dspace_info_list)
  | Rq_mgmt_event_mon (x : PVFS_servreq_mgmt_event_mon)
  | Rq_geteattr (x : PVFS_servreq_geteattr)
  | Rq_seteattr (x : PVFS_servreq_seteattr)
  | Rq_atomiceattr (x : PVFS_servreq_atomiceattr)
  | Rq_deleattr (x : PVFS_servreq_deleattr)
  | Rq_listeattr (x : PVFS_servreq_listeattr)
  | Rq_mgmt_get_uid (x : PVFS_servreq_mgmt_get_uid)
  | Rq_mgmt_get_dirent (x : PVFS_servreq_mgmt_get_dirent)
  | Rq_mgmt_create_root_dir (x : PVFS_servreq_mgmt_create_root_dir)
  | Rq_mgmt_split_dirent (x : PVFS_servreq_mgmt_split_dirent)
  | Rq_mgmt_get_user_cert (x : PVFS_servreq_mgmt_get_user_cert)
  | Rq_mgmt_get_user_cert_keyreq (x : PVFS_servreq_mgmt_get_user_cert_keyreq)
  | Rq_none (op : Z).

Definition req_op (b : servreq) : Z :=
  match b with
  | Rq_create _ => PVFS_SERV_CREATE
  | Rq_batch_create _ => PVFS_SERV_BATCH_CREATE
  | Rq_remove _ => PVFS_SERV_REMOVE
  | Rq_batch_remove _ => PVFS_SERV_BATCH_REMOVE
  | Rq_mgmt_remove_object _ => PVFS_SERV_MGMT_REMOVE_OBJECT
  | Rq_mgmt_remove_dirent _ => PVFS_SERV_MGMT_REMOVE_DIRENT
  | Rq_tree_setattr _ => PVFS_SERV_TREE_SETATTR
  | Rq_tree_remove _ => PVFS_SERV_TREE_REMOVE
  | Rq_tree_get_file_size _ => PVFS_SERV_TREE_GET_FILE_SIZE
  | Rq_tree_getattr _ => PVFS_SERV_TREE_GETATTR
  | Rq_mgmt_get_dirdata_handle _ => PVFS_SERV_MGMT_GET_DIRDATA_HANDLE
  | Rq_flush _ => PVFS_SERV_FLUSH
  | Rq_getattr _ => PVFS_SERV_GETATTR
  | Rq_unstuff _ => PVFS_SERV_UNSTUFF
  | Rq_setattr _ => PVFS_SERV_SETATTR
  | Rq_lookup_path _ => PVFS_SERV_LOOKUP_PATH
  | Rq_mkdir _ => PVFS_SERV_MKDIR
  | Rq_crdirent _ => PVFS_SERV_CRDIRENT
  | Rq_rmdirent _ => PVFS_SERV_RMDIRENT
  | Rq_chdirent _ => PVFS_SERV_CHDIRENT
  | Rq_readdir _ => PVFS_SERV_READDIR
  | Rq_mirror _ => PVFS_SERV_MIRROR
  | Rq_truncate _ => PVFS_SERV_TRUNCATE
  | Rq_statfs _ => PVFS_SERV_STATFS
  | Rq_io _ => PVFS_SERV_IO
  | Rq_small_io _ => PVFS_SERV_SMALL_IO
  | Rq_listattr _ => PVFS_SERV_LISTATTR
  | Rq_mgmt_setparam _ => PVFS_SERV_MGMT_SETPARAM
  | Rq_mgmt_perf_mon _ => PVFS_SERV_MGMT_PERF_MON
  | Rq_mgmt_iterate_handles _ => PVFS_SERV_MGMT_ITERATE_HANDLES
  | Rq_mgmt_dspace_info_list _ => PVFS_SERV_MGMT_DSPACE_INFO_LIST
  | Rq_mgmt_event_mon _ => PVFS_SERV_MGMT_EVENT_MON
  | Rq_geteattr _ => PVFS_SERV_GETEATTR
  | Rq_seteattr _ => PVFS_SERV_SETEATTR
  | Rq_atomiceattr _ => PVFS_SERV_ATOMICEATTR
  | Rq_deleattr _ => PVFS_SERV_DELEATTR
  | Rq_listeattr _ => PVFS_SERV_LISTEATTR
  | Rq_mgmt_get_uid _ => PVFS_SERV_MGMT_GET_UID
  | Rq_mgmt_get_dirent _ => PVFS_SERV_MGMT_GET_DIRENT
  | Rq_mgmt_create_root_dir _ => PVFS_SERV_MGMT_CREATE_ROOT_DIR
  | Rq_mgmt_split_dirent _ => PVFS_SERV_MGMT_SPLIT_DIRENT
  | Rq_mgmt_get_user_cert _ => PVFS_SERV_MGMT_GET_USER_CERT
  | Rq_mgmt_get_user_cert_keyreq _ => PVFS_SERV_MGMT_GET_USER_CERT_KEYREQ
  | Rq_none op => op
  end.

(** The [CASE] lines of [lebf_encode_req] and of [lebf_decode_req]. *)
Definition servreq_cases (t : list PINT_dist) : list (Z * codec servreq) := [
  (PVFS_SERV_LOOKUP_PATH, member Rq_lookup_path (λ b, match b with Rq_lookup_path x => Some x | _ => None end) servreq_lookup_path);
  (PVFS_SERV_CREATE, member Rq_create (λ b, match b with Rq_create x => Some x | _ => None end) (servreq_create t));
  (PVFS_SERV_MIRROR, member Rq_mirror (λ b, match b with Rq_mirror x => Some x | _ => None end) (servreq_mirror t));
  (PVFS_SERV_UNSTUFF, member Rq_unstuff (λ b, match b with Rq_unstuff x => Some x | _ => None end) servreq_unstuff);
  (PVFS_SERV_BATCH_CREATE, member Rq_batch_create (λ b, match b with Rq_batch_create x => Some x | _ => None end) servreq_batch_create);
  (PVFS_SERV_BATCH_REMOVE, member Rq_batch_remove (λ b, match b with Rq_batch_remove x => Some x | _ => None end) servreq_batch_remove);
  (PVFS_SERV_REMOVE, member Rq_remove (λ b, match b with Rq_remove x => Some x | _ => None end) servreq_remove);
  (PVFS_SERV_MGMT_REMOVE_OBJECT, member Rq_mgmt_remove_object (λ b, match b with Rq_mgmt_remove_object x => Some x | _ => None end) servreq_mgmt_remove_object);
  (PVFS_SERV_MGMT_REMOVE_DIRENT, member Rq_mgmt_remove_dirent (λ b, match b with Rq_mgmt_remove_dirent x => Some x | _ => None end) servreq_mgmt_remove_dirent);
  (PVFS_SERV_TREE_REMOVE, member Rq_tree_remove (λ b, match b with Rq_tree_remove x => Some x | _ => None end) servreq_tree_remove);
  (PVFS_SERV_TREE_GET_FILE_SIZE, member Rq_tree_get_file_size (λ b, match b with Rq_tree_get_file_size x => Some x | _ => None end) servreq_tree_get_file_size);
  (PVFS_SERV_TREE_GETATTR, member Rq_tree_getattr (λ b, match b with Rq_tree_getattr x => Some x | _ => None end) servreq_tree_getattr);
  (PVFS_SERV_TREE_SETATTR, member Rq_tree_setattr (λ b, match b with Rq_tree_setattr x => Some x | _ => None end) (servreq_tree_setattr t));
  (PVFS_SERV_MGMT_GET_DIRDATA_HANDLE, member Rq_mgmt_get_dirdata_handle (λ b, match b with Rq_mgmt_get_dirdata_handle x => Some x | _ => None end) servreq_mgmt_get_dirdata_handle);
  (PVFS_SERV_IO, member Rq_io (λ b, match b with Rq_io x => Some x | _ => None end) (servreq_io t));
  (PVFS_SERV_SMALL_IO, member Rq_small_io (λ b, match b with Rq_small_io x => Some x | _ => None end) (servreq_small_io t));
  (PVFS_SERV_GETATTR, member Rq_getattr (λ b, match b with Rq_getattr x => Some x | _ => None end) servreq_getattr);
  (PVFS_SERV_SETATTR, member Rq_setattr (λ b, match b with Rq_setattr x => Some x | _ => None end) (servreq_setattr t));
  (PVFS_SERV_CRDIRENT, member Rq_crdirent (λ b, match b with Rq_crdirent x => Some x | _ => None end) servreq_crdirent);
  (PVFS_SERV_RMDIRENT, member Rq_rmdirent (λ b, match b with Rq_rmdirent x => Some x | _ => None end) servreq_rmdirent);
  (PVFS_SERV_CHDIRENT, member Rq_chdirent (λ b, match b with Rq_chdirent x => Some x | _ => None end) servreq_chdirent);
  (PVFS_SERV_TRUNCATE, member Rq_truncate (λ b, match b with Rq_truncate x => Some x | _ => None end) servreq_truncate);
  (PVFS_SERV_MKDIR, member Rq_mkdir (λ b, match b with Rq_mkdir x => Some x | _ => None end) (servreq_mkdir t));
  (PVFS_SERV_READDIR, member Rq_readdir (λ b, match b with Rq_readdir x => Some x | _ => None end) servreq_readdir);
  (PVFS_SERV_FLUSH, member Rq_flush (λ b, match b with Rq_flush x => Some x | _ => None end) servreq_flush);
  (PVFS_SERV_STATFS, member Rq_statfs (λ b, match b with Rq_statfs x => Some x | _ => None end) servreq_statfs);
  (PVFS_SERV_MGMT_SETPARAM, member Rq_mgmt_setparam (λ b, match b with Rq_mgmt_setparam x => Some x | _ => None end) servreq_mgmt_setparam);
  (PVFS_SERV_MGMT_PERF_MON, member Rq_mgmt_perf_mon (λ b, match b with Rq_mgmt_perf_mon x => Some x | _ => None end) servreq_mgmt_perf_mon);
  (PVFS_SERV_MGMT_ITERATE_HANDLES, member Rq_mgmt_iterate_handles (λ b, match b with Rq_mgmt_iterate_handles x => Some x | _ => None end) servreq_mgmt_iterate_handles);
  (PVFS_SERV_MGMT_DSPACE_INFO_LIST, member Rq_mgmt_dspace_info_list (λ b, match b with Rq_mgmt_dspace_info_list x => Some x | _ => None end) servreq_mgmt_dspace_info_list);
  (PVFS_SERV_MGMT_EVENT_MON, member Rq_mgmt_event_mon (λ b, match b with Rq_mgmt_event_mon x => Some x | _ => None end) servreq_mgmt_event_mon);
  (PVFS_SERV_GETEATTR, member Rq_geteattr (λ b, match b with Rq_geteattr x => Some x | _ => None end) servreq_geteattr);
  (PVFS_SERV_SETEATTR, member Rq_seteattr (λ b, match b with Rq_seteattr x => Some x | _ => None end) servreq_seteattr);
  (PVFS_SERV_ATOMICEATTR, member Rq_atomiceattr (λ b, match b with Rq_atomiceattr x => Some x | _ => None end) servreq_atomiceattr);
  (PVFS_SERV_DELEATTR, member Rq_deleattr (λ b, match b with Rq_deleattr x => Some x | _ => None end) servreq_deleattr);
  (PVFS_SERV_LISTEATTR, member Rq_listeattr (λ b, match b with Rq_listeattr x => Some x | _ => None end) servreq_listeattr);
  (PVFS_SERV_LISTATTR, member Rq_listattr (λ b, match b with Rq_listattr x => Some x | _ => None end) servreq_listattr);
  (PVFS_SERV_MGMT_GET_UID, member Rq_mgmt_get_uid (λ b, match b with Rq_mgmt_get_uid x => Some x | _ => None end) servreq_mgmt_get_uid);
  (PVFS_SERV_MGMT_GET_DIRENT, member Rq_mgmt_get_dirent (λ b, match b with Rq_mgmt_get_dirent x => Some x | _ => None end) servreq_mgmt_get_dirent);
  (PVFS_SERV_MGMT_CREATE_ROOT_DIR, member Rq_mgmt_create_root_dir (λ b, match b with Rq_mgmt_create_root_dir x => Some x | _ => None end) servreq_mgmt_create_root_dir);
  (PVFS_SERV_MGMT_SPLIT_DIRENT, member Rq_mgmt_split_dirent (λ b, match b with Rq_mgmt_split_dirent x => Some x | _ => None end) (servreq_mgmt_split_dirent t));
  (PVFS_SERV_MGMT_GET_USER_CERT, member Rq_mgmt_get_user_cert (λ b, match b with Rq_mgmt_get_user_cert x => Some x | _ => None end) servreq_mgmt_get_user_cert);
  (PVFS_SERV_MGMT_GET_USER_CERT_KEYREQ, member Rq_mgmt_get_user_cert_keyreq (λ b, match b with Rq_mgmt_get_user_cert_keyreq x => Some x | _ => None end) servreq_mgmt_get_user_cert_keyreq) ].

(** The entry of an operation. *)
Definition case_of {A} (op : Z) (cases : list (Z * codec A)) : option (codec A) :=
  list_find (λ c, fst c = op) cases ≫= λ '(_, c), Some (snd c).

(** What the server gets. *)
Definition received_body (b : servreq) : servreq :=
  match b with Rq_small_io x => Rq_small_io (received_small_io x) | _ => b end.

(** * Laws *)

#[export] Instance packed_request_codec_lawful : Lawful packed_request_codec.
Proof. unfold packed_request_codec. apply _. Qed.

#[export] Instance file_request_lawful : Lawful file_request.
Proof.
  intros [l|] p Hp Hok; [|done]. cbn [ok file_request] in Hok.
  apply andb_true_iff in Hok as [Hlen%Z.leb_le Hok].
  assert (Lawful (int32_t <⊗ skip4 ▷ (λ n, array (n + 1) packed_request_codec))) as HL by apply _.
  destruct (HL (nest_size l, l) p Hp Hok) as (im & E & C & D). exists im.
  split; [exact E|]. split; [done|]. intros pre post Hpre. cbn [dec file_request].
  rewrite D by done. cbn [mbind exec_bind]. destruct l as [|r l]; [cbn in Hlen; lia|].
  cbn [nest_size]. rewrite decide_False by lia. done.
Qed.

Lemma small_io_data_receives io_type total :
  Receives (small_io_data io_type total) (λ '(s, b), received_data io_type s b).
Proof.
  intros [s b] p Hp. cbn [ok enc dec small_io_data]. unfold received_data.
  case_decide as Hw.
  - destruct (gather s b) as [bs|] eqn:Eg; [|done].
    intros [Hl%Z.eqb_eq Hb]%andb_true_iff. cbn [mbind exec_bind].
    exists (cells bs). split; [done|]. split; [by apply cells_ok, is_bytes|].
    intros pre post Hpre. rewrite zeroed_cells, (view_mid _ bs) by done.
    by rewrite length_cells, Hl.
  - exists []. split; [done|]. split; [constructor|]. intros. cbn. by rewrite Z.add_0_r.
Qed.

Section laws.
Context (t : list PINT_dist).

#[export] Instance servreq_create_lawful : Lawful (servreq_create t).
Proof. unfold servreq_create. apply _. Qed.

#[export] Instance servreq_batch_create_lawful : Lawful servreq_batch_create.
Proof. unfold servreq_batch_create. apply _. Qed.

#[export] Instance servreq_remove_lawful : Lawful servreq_remove.
Proof. unfold servreq_remove. apply _. Qed.

#[export] Instance servreq_batch_remove_lawful : Lawful servreq_batch_remove.
Proof. unfold servreq_batch_remove. apply _. Qed.

#[export] Instance servreq_mgmt_remove_object_lawful : Lawful servreq_mgmt_remove_object.
Proof. unfold servreq_mgmt_remove_object. apply _. Qed.

#[export] Instance servreq_mgmt_remove_dirent_lawful : Lawful servreq_mgmt_remove_dirent.
Proof. unfold servreq_mgmt_remove_dirent. apply _. Qed.

#[export] Instance servreq_tree_setattr_lawful : Lawful (servreq_tree_setattr t).
Proof. unfold servreq_tree_setattr. apply _. Qed.

#[export] Instance servreq_tree_remove_lawful : Lawful servreq_tree_remove.
Proof. unfold servreq_tree_remove. apply _. Qed.

#[export] Instance servreq_tree_get_file_size_lawful : Lawful servreq_tree_get_file_size.
Proof. unfold servreq_tree_get_file_size. apply _. Qed.

#[export] Instance servreq_tree_getattr_lawful : Lawful servreq_tree_getattr.
Proof. unfold servreq_tree_getattr. apply _. Qed.

#[export] Instance servreq_mgmt_get_dirdata_handle_lawful : Lawful servreq_mgmt_get_dirdata_handle.
Proof. unfold servreq_mgmt_get_dirdata_handle. apply _. Qed.

#[export] Instance servreq_flush_lawful : Lawful servreq_flush.
Proof. unfold servreq_flush. apply _. Qed.

#[export] Instance servreq_getattr_lawful : Lawful servreq_getattr.
Proof. unfold servreq_getattr. apply _. Qed.

#[export] Instance servreq_unstuff_lawful : Lawful servreq_unstuff.
Proof. unfold servreq_unstuff. apply _. Qed.

#[export] Instance servreq_setattr_lawful : Lawful (servreq_setattr t).
Proof. unfold servreq_setattr. apply _. Qed.

#[export] Instance servreq_lookup_path_lawful : Lawful servreq_lookup_path.
Proof. unfold servreq_lookup_path. apply _. Qed.

#[export] Instance servreq_mkdir_lawful : Lawful (servreq_mkdir t).
Proof. unfold servreq_mkdir. apply _. Qed.

#[export] Instance servreq_crdirent_lawful : Lawful servreq_crdirent.
Proof. unfold servreq_crdirent. apply _. Qed.

#[export] Instance servreq_rmdirent_lawful : Lawful servreq_rmdirent.
Proof. unfold servreq_rmdirent. apply _. Qed.

#[export] Instance servreq_chdirent_lawful : Lawful servreq_chdirent.
Proof. unfold servreq_chdirent. apply _. Qed.

#[export] Instance servreq_readdir_lawful : Lawful servreq_readdir.
Proof. unfold servreq_readdir. apply _. Qed.

#[export] Instance servreq_mirror_lawful : Lawful (servreq_mirror t).
Proof. unfold servreq_mirror. apply _. Qed.

#[export] Instance servreq_truncate_lawful : Lawful servreq_truncate.
Proof. unfold servreq_truncate. apply _. Qed.

#[export] Instance servreq_statfs_lawful : Lawful servreq_statfs.
Proof. unfold servreq_statfs. apply _. Qed.

#[export] Instance servreq_io_lawful : Lawful (servreq_io t).
Proof. unfold servreq_io. apply _. Qed.

#[export] Instance servreq_small_io_receives : Receives (servreq_small_io t) received_small_io.
Proof.
  unfold servreq_small_io. eapply struct_receives.
  - apply dep_receives with (f := λ x '(s, b), received_data (snd (fst (fst (fst (fst (fst (fst (fst x)))))))) s b);
      [apply _|]. intros [[[[[[[[[]]]]]]]]]. apply small_io_data_receives.
  - intros []. cbn. unfold received_small_io. cbn. by destruct (received_data _ _ _).
Qed.

#[export] Instance servreq_listattr_lawful : Lawful servreq_listattr.
Proof. unfold servreq_listattr. apply _. Qed.

#[export] Instance servreq_mgmt_setparam_lawful : Lawful servreq_mgmt_setparam.
Proof. unfold servreq_mgmt_setparam. apply _. Qed.

#[export] Instance servreq_mgmt_perf_mon_lawful : Lawful servreq_mgmt_perf_mon.
Proof. unfold servreq_mgmt_perf_mon. apply _. Qed.

#[export] Instance servreq_mgmt_iterate_handles_lawful : Lawful servreq_mgmt_iterate_handles.
Proof. unfold servreq_mgmt_iterate_handles. apply _. Qed.

#[export] Instance servreq_mgmt_dspace_info_list_lawful : Lawful servreq_mgmt_dspace_info_list.
Proof. unfold servreq_mgmt_dspace_info_list. apply _. Qed.

#[export] Instance servreq_mgmt_event_mon_lawful : Lawful servreq_mgmt_event_mon.
Proof. unfold servreq_mgmt_event_mon. apply _. Qed.

#[export] Instance servreq_geteattr_lawful : Lawful servreq_geteattr.
Proof. unfold servreq_geteattr. apply _. Qed.

#[export] Instance servreq_seteattr_lawful : Lawful servreq_seteattr.
Proof. unfold servreq_seteattr. apply _. Qed.

#[export] Instance servreq_atomiceattr_lawful : Lawful servreq_atomiceattr.
Proof. unfold servreq_atomiceattr. apply _. Qed.

#[export] Instance servreq_deleattr_lawful : Lawful servreq_deleattr.
Proof. unfold servreq_deleattr. apply _. Qed.

#[export] Instance servreq_listeattr_lawful : Lawful servreq_listeattr.
Proof. unfold servreq_listeattr. apply _. Qed.

#[export] Instance servreq_mgmt_get_uid_lawful : Lawful servreq_mgmt_get_uid.
Proof. unfold servreq_mgmt_get_uid. apply _. Qed.

#[export] Instance servreq_mgmt_get_dirent_lawful : Lawful servreq_mgmt_get_dirent.
Proof. unfold servreq_mgmt_get_dirent. apply _. Qed.

#[export] Instance servreq_mgmt_create_root_dir_lawful : Lawful servreq_mgmt_create_root_dir.
Proof. unfold servreq_mgmt_create_root_dir. apply _. Qed.

#[export] Instance servreq_mgmt_split_dirent_lawful : Lawful (servreq_mgmt_split_dirent t).
Proof. unfold servreq_mgmt_split_dirent. apply _. Qed.

#[export] Instance servreq_mgmt_get_user_cert_lawful : Lawful servreq_mgmt_get_user_cert.
Proof. unfold servreq_mgmt_get_user_cert. apply _. Qed.

#[export] Instance servreq_mgmt_get_user_cert_keyreq_lawful : Lawful servreq_mgmt_get_user_cert_keyreq.
Proof. unfold servreq_mgmt_get_user_cert_keyreq. apply _. Qed.

(** Every case receives what was sent. *)
Lemma servreq_cases_receive : Forall (λ c, Receives (snd c) received_body) (servreq_cases t).
Proof.
  repeat first [apply Forall_nil_2 | apply Forall_cons_2]; cbn [snd];
    (eapply member_receives; [apply _|intros [] ? [=]; by subst]).
Qed.
End laws.
