(* ===== verification/WireResp.v ===== *)
(** The responses of src/src/proto/pvfs2-req-proto.h: their structs and their
    codecs, as [WireReq] has the requests. *)

From stdpp Require Import base tactics numbers list.
From S2P Require Import Prelude Errors ServerOps Wire DistTable WireTypes Hint WireReq.

#[local] Open Scope codec_scope.

(** * Responses *)

Section responses.
Context (t : list PINT_dist).

Record PVFS_servresp_create := mk_servresp_create {
  rs_create_metafile_handle : Z;  (* PVFS_handle *)
  rs_create_stuffed : Z;  (* uint32_t *)
  rs_create_metafile_attrs : PVFS_object_attr;
}.

Definition servresp_create : codec PVFS_servresp_create :=
  struct (λ '(metafile_handle, stuffed, metafile_attrs),
      mk_servresp_create metafile_handle stuffed metafile_attrs)
    (λ x, (rs_create_metafile_handle x, rs_create_stuffed x, rs_create_metafile_attrs x))
    (PVFS_handle ⊗ uint32_t ⊗ (object_attr t)).

Record PVFS_servresp_batch_create := mk_servresp_batch_create {
  rs_batch_create_handle_count : Z;  (* uint32_t *)
  rs_batch_create_handle_array : list Z;  (* PVFS_handle *)
}.

Definition servresp_batch_create : codec PVFS_servresp_batch_create :=
  struct (λ '(handle_count, handle_array),
      mk_servresp_batch_create handle_count handle_array)
    (λ x, (rs_batch_create_handle_count x, rs_batch_create_handle_array x))
    (skip4 ⊗> uint32_t ▷ (λ n, array n PVFS_handle)).

Record PVFS_servresp_tree_setattr := mk_servresp_tree_setattr {
  rs_tree_setattr_caller_handle_index : Z;  (* uint32_t *)
  rs_tree_setattr_handle_count : Z;  (* uint32_t *)
  rs_tree_setattr_status : list Z;  (* int32_t *)
}.

Definition servresp_tree_setattr : codec PVFS_servresp_tree_setattr :=
  struct (λ '(caller_handle_index, handle_count, status),
      mk_servresp_tree_setattr caller_handle_index handle_count status)
    (λ x, (rs_tree_setattr_caller_handle_index x, rs_tree_setattr_handle_count x,
    rs_tree_setattr_status x))
    (skip4 ⊗> uint32_t ⊗ uint32_t ▷ (λ '(_, n), array n int32_t)).

Record PVFS_servresp_tree_remove := mk_servresp_tree_remove {
  rs_tree_remove_caller_handle_index : Z;  (* uint32_t *)
  rs_tree_remove_handle_count : Z;  (* uint32_t *)
  rs_tree_remove_status : list Z;  (* int32_t *)
}.

Definition servresp_tree_remove : codec PVFS_servresp_tree_remove :=
  struct (λ '(caller_handle_index, handle_count, status),
      mk_servresp_tree_remove caller_handle_index handle_count status)
    (λ x, (rs_tree_remove_caller_handle_index x, rs_tree_remove_handle_count x,
    rs_tree_remove_status x))
    (skip4 ⊗> uint32_t ⊗ uint32_t ▷ (λ '(_, n), array n int32_t)).

Record PVFS_servresp_tree_get_file_size := mk_servresp_tree_get_file_size {
  rs_tree_get_file_size_caller_handle_index : Z;  (* uint32_t *)
  rs_tree_get_file_size_handle_count : Z;  (* uint32_t *)
  rs_tree_get_file_size_size : list Z;  (* PVFS_size *)
  rs_tree_get_file_size_error : list Z;  (* PVFS_error *)
}.

Definition servresp_tree_get_file_size : codec PVFS_servresp_tree_get_file_size :=
  struct (λ '(caller_handle_index, handle_count, size, error),
      mk_servresp_tree_get_file_size caller_handle_index handle_count size error)
    (λ x, (rs_tree_get_file_size_caller_handle_index x,
    rs_tree_get_file_size_handle_count x, rs_tree_get_file_size_size x,
    rs_tree_get_file_size_error x))
    (uint32_t ⊗ uint32_t ▷ (λ '(_, n), array n PVFS_size)
    ▷ (λ '(_, n, _), array n PVFS_error)).

Record PVFS_servresp_tree_getattr := mk_servresp_tree_getattr {
  rs_tree_getattr_caller_handle_index : Z;  (* uint32_t *)
  rs_tree_getattr_handle_count : Z;  (* uint32_t *)
  rs_tree_getattr_attr : list PVFS_object_attr;
  rs_tree_getattr_error : list Z;  (* PVFS_error *)
}.

Definition servresp_tree_getattr : codec PVFS_servresp_tree_getattr :=
  struct (λ '(caller_handle_index, handle_count, attr, error),
      mk_servresp_tree_getattr caller_handle_index handle_count attr error)
    (λ x, (rs_tree_getattr_caller_handle_index x, rs_tree_getattr_handle_count x,
    rs_tree_getattr_attr x, rs_tree_getattr_error x))
    (uint32_t ⊗ uint32_t ▷ (λ '(_, n), array n (object_attr t))
    ▷ (λ '(_, n, _), array n PVFS_error)).

Record PVFS_servresp_mgmt_get_dirdata_handle := mk_servresp_mgmt_get_dirdata_handle {
  rs_mgmt_get_dirdata_handle_handle : Z;  (* PVFS_handle *)
}.

Definition servresp_mgmt_get_dirdata_handle : codec PVFS_servresp_mgmt_get_dirdata_handle :=
  struct mk_servresp_mgmt_get_dirdata_handle rs_mgmt_get_dirdata_handle_handle
    (PVFS_handle).

Record PVFS_servresp_getattr := mk_servresp_getattr {
  rs_getattr_attr : PVFS_object_attr;
}.

Definition servresp_getattr : codec PVFS_servresp_getattr :=
  struct mk_servresp_getattr rs_getattr_attr
    ((object_attr t)).

Record PVFS_servresp_unstuff := mk_servresp_unstuff {
  rs_unstuff_attr : PVFS_object_attr;
}.

Definition servresp_unstuff : codec PVFS_servresp_unstuff :=
  struct mk_servresp_unstuff rs_unstuff_attr
    ((object_attr t)).

Record PVFS_servresp_lookup_path := mk_servresp_lookup_path {
  rs_lookup_path_handle_count : Z;  (* uint32_t *)
  rs_lookup_path_handle_array : list Z;  (* PVFS_handle *)
  rs_lookup_path_attr_count : Z;  (* uint32_t *)
  rs_lookup_path_attr_array : list PVFS_object_attr;
}.

Definition servresp_lookup_path : codec PVFS_servresp_lookup_path :=
  struct (λ '(handle_count, handle_array, attr_count, attr_array),
      mk_servresp_lookup_path handle_count handle_array attr_count attr_array)
    (λ x, (rs_lookup_path_handle_count x, rs_lookup_path_handle_array x,
    rs_lookup_path_attr_count x, rs_lookup_path_attr_array x))
    (skip4 ⊗> uint32_t ▷ (λ n, array n PVFS_handle) <⊗ skip4 ⊗ uint32_t
    ▷ (λ '(_, _, n), array n (object_attr t))).

Record PVFS_servresp_mkdir := mk_servresp_mkdir {
  rs_mkdir_handle : Z;  (* PVFS_handle *)
  rs_mkdir_capability : PVFS_capability;
}.

Definition servresp_mkdir : codec PVFS_servresp_mkdir :=
  struct (λ '(handle, capability),
      mk_servresp_mkdir handle capability)
    (λ x, (rs_mkdir_handle x, rs_mkdir_capability x))
    (PVFS_handle ⊗ capability).

Record PVFS_servresp_rmdirent := mk_servresp_rmdirent {
  rs_rmdirent_entry_handle : Z;  (* PVFS_handle *)
}.

Definition servresp_rmdirent : codec PVFS_servresp_rmdirent :=
  struct mk_servresp_rmdirent rs_rmdirent_entry_handle
    (PVFS_handle).

Record PVFS_servresp_chdirent := mk_servresp_chdirent {
  rs_chdirent_old_dirent_handle : Z;  (* PVFS_handle *)
}.

Definition servresp_chdirent : codec PVFS_servresp_chdirent :=
  struct mk_servresp_chdirent rs_chdirent_old_dirent_handle
    (PVFS_handle).

Record PVFS_servresp_readdir := mk_servresp_readdir {
  rs_readdir_token : Z;  (* PVFS_ds_position *)
  rs_readdir_directory_version : Z;  (* uint64_t *)
  rs_readdir_dirent_count : Z;  (* uint32_t *)
  rs_readdir_dirent_array : list PVFS_dirent;
}.

Definition servresp_readdir : codec PVFS_servresp_readdir :=
  struct (λ '(token, directory_version, dirent_count, dirent_array),
      mk_servresp_readdir token directory_version dirent_count dirent_array)
    (λ x, (rs_readdir_token x, rs_readdir_directory_version x, rs_readdir_dirent_count x,
    rs_readdir_dirent_array x))
    (PVFS_ds_position ⊗ uint64_t <⊗ skip4 ⊗ uint32_t ▷ (λ '(_, _, n), array n dirent)).

Record PVFS_servresp_getconfig := mk_servresp_getconfig {
  rs_getconfig_fs_config_buf_size : Z;  (* uint32_t *)
  rs_getconfig_fs_config_buf : str;
}.

Definition servresp_getconfig : codec PVFS_servresp_getconfig :=
  struct (λ '(fs_config_buf_size, fs_config_buf),
      mk_servresp_getconfig fs_config_buf_size fs_config_buf)
    (λ x, (rs_getconfig_fs_config_buf_size x, rs_getconfig_fs_config_buf x))
    (uint32_t <⊗ skip4 ⊗ string).

(** [mirror]: as in the request, the two arrays are one list of pairs. *)
Record PVFS_servresp_mirror := mk_servresp_mirror {
  rs_mirror_src_handle : Z;      (* PVFS_handle *)
  rs_mirror_src_server_nr : Z;   (* uint32_t *)
  rs_mirror_dst_count : Z;       (* uint32_t *)
  rs_mirror_dst : list (Z * Z);  (* bytes_written[i], write_status_code[i] *)
}.

Definition servresp_mirror : codec PVFS_servresp_mirror :=
  struct (λ '(src_handle, src_server_nr, dst_count, dst),
      mk_servresp_mirror src_handle src_server_nr dst_count dst)
    (λ x, (rs_mirror_src_handle x, rs_mirror_src_server_nr x, rs_mirror_dst_count x,
      rs_mirror_dst x))
    (PVFS_handle ⊗ uint32_t ⊗ uint32_t ▷ (λ '(_, _, n), array n (uint32_t ⊗ uint32_t))).

Record PVFS_servresp_statfs := mk_servresp_statfs {
  rs_statfs_stat : PVFS_statfs;
}.

Definition servresp_statfs : codec PVFS_servresp_statfs :=
  struct mk_servresp_statfs rs_statfs_stat
    (statfs).

Record PVFS_servresp_io := mk_servresp_io {
  rs_io_bstream_size : Z;  (* PVFS_size *)
}.

Definition servresp_io : codec PVFS_servresp_io :=
  struct mk_servresp_io rs_io_bstream_size
    (PVFS_size).

Record PVFS_servresp_write_completion := mk_servresp_write_completion {
  rs_write_completion_total_completed : Z;  (* PVFS_size *)
}.

Definition servresp_write_completion : codec PVFS_servresp_write_completion :=
  struct mk_servresp_write_completion rs_write_completion_total_completed
    (PVFS_size).

Record PVFS_servresp_small_io := mk_servresp_small_io {
  rs_small_io_io_type : Z;                (* enum PVFS_io_type *)
  rs_small_io_bstream_size : Z;           (* PVFS_size *)
  rs_small_io_result_size : Z;            (* PVFS_size *)
  rs_small_io_buffer : option (list Z);
}.

(** The data of a small read: the sender leaves it out when it has no buffer,
    the receiver always takes [result_size] bytes. *)
Definition read_data (io_type result_size : Z) : codec (option (list Z)) := {|
  enc _ buffer :=
    match buffer with
    | Some b =>
        if decide (io_type = PVFS_IO_READ) then bs ← peek b 0 result_size; Done (cells bs)
        else Done []
    | None => Done []
    end;
  dec buf p :=
    if decide (io_type = PVFS_IO_READ) then Done (Some (view buf p result_size), p + result_size)
    else Done (None, p);
  ok buffer :=
    if decide (io_type = PVFS_IO_READ) then
      match buffer with
      | Some b => (0 <=? result_size) && (result_size <=? len b) && forallb is_byte b
      | None => result_size =? 0
      end
    else true;
|}.

Definition servresp_small_io : codec PVFS_servresp_small_io :=
  struct (λ '(io_type, bstream_size, result_size, buffer),
      mk_servresp_small_io io_type bstream_size result_size buffer)
    (λ x, (rs_small_io_io_type x, rs_small_io_bstream_size x, rs_small_io_result_size x,
      rs_small_io_buffer x))
    (enum <⊗ skip4 ⊗ PVFS_size ⊗ PVFS_size ▷ (λ '(io_type, _, n), read_data io_type n)).

(** What the client gets of a small read. *)
Definition received_read (io_type result_size : Z) (buffer : option (list Z)) : option (list Z) :=
  if decide (io_type = PVFS_IO_READ) then
    Some (match buffer with Some b => take (Z.to_nat result_size) b | None => [] end)
  else None.

Definition received_small_io_resp (x : PVFS_servresp_small_io) : PVFS_servresp_small_io :=
  mk_servresp_small_io (rs_small_io_io_type x) (rs_small_io_bstream_size x)
    (rs_small_io_result_size x)
    (received_read (rs_small_io_io_type x) (rs_small_io_result_size x) (rs_small_io_buffer x)).

Record PVFS_servresp_listattr := mk_servresp_listattr {
  rs_listattr_nhandles : Z;  (* uint32_t *)
  rs_listattr_error : list Z;  (* PVFS_error *)
  rs_listattr_attr : list PVFS_object_attr;
}.

Definition servresp_listattr : codec PVFS_servresp_listattr :=
  struct (λ '(nhandles, error, attr),
      mk_servresp_listattr nhandles error attr)
    (λ x, (rs_listattr_nhandles x, rs_listattr_error x, rs_listattr_attr x))
    (skip4 ⊗> uint32_t ▷ (λ n, array n PVFS_error) ▷ (λ '(n, _), array n (object_attr t))).

Record PVFS_servresp_mgmt_perf_mon := mk_servresp_mgmt_perf_mon {
  rs_mgmt_perf_mon_key_count : Z;  (* uint32_t *)
  rs_mgmt_perf_mon_suggested_next_id : Z;  (* uint32_t *)
  rs_mgmt_perf_mon_end_time_ms : Z;  (* uint64_t *)
  rs_mgmt_perf_mon_cur_time_ms : Z;  (* uint64_t *)
  rs_mgmt_perf_mon_sample_count : Z;  (* uint32_t *)
  rs_mgmt_perf_mon_perf_array_count : Z;  (* uint32_t *)
  rs_mgmt_perf_mon_perf_array : list Z;  (* int64_t *)
}.

Definition servresp_mgmt_perf_mon : codec PVFS_servresp_mgmt_perf_mon :=
  struct (λ '(key_count, suggested_next_id, end_time_ms, cur_time_ms, sample_count, perf_array_count, perf_array),
      mk_servresp_mgmt_perf_mon key_count suggested_next_id end_time_ms cur_time_ms
      sample_count perf_array_count perf_array)
    (λ x, (rs_mgmt_perf_mon_key_count x, rs_mgmt_perf_mon_suggested_next_id x,
    rs_mgmt_perf_mon_end_time_ms x, rs_mgmt_perf_mon_cur_time_ms x,
    rs_mgmt_perf_mon_sample_count x, rs_mgmt_perf_mon_perf_array_count x,
    rs_mgmt_perf_mon_perf_array x))
    (uint32_t ⊗ uint32_t ⊗ uint64_t ⊗ uint64_t ⊗ uint32_t ⊗ uint32_t
    ▷ (λ '(_, _, _, _, _, n), array n int64_t)).

Record PVFS_servresp_mgmt_iterate_handles := mk_servresp_mgmt_iterate_handles {
  rs_mgmt_iterate_handles_position : Z;  (* PVFS_ds_position *)
  rs_mgmt_iterate_handles_handle_count : Z;  (* int32_t *)
  rs_mgmt_iterate_handles_handle_array : list Z;  (* PVFS_handle *)
}.

Definition servresp_mgmt_iterate_handles : codec PVFS_servresp_mgmt_iterate_handles :=
  struct (λ '(position, handle_count, handle_array),
      mk_servresp_mgmt_iterate_handles position handle_count handle_array)
    (λ x, (rs_mgmt_iterate_handles_position x, rs_mgmt_iterate_handles_handle_count x,
    rs_mgmt_iterate_handles_handle_array x))
    (PVFS_ds_position <⊗ skip4 ⊗ int32_t ▷ (λ '(_, n), array n PVFS_handle)).

Record PVFS_servresp_mgmt_dspace_info_list := mk_servresp_mgmt_dspace_info_list {
  rs_mgmt_dspace_info_list_dspace_info_count : Z;  (* int32_t *)
  rs_mgmt_dspace_info_list_dspace_info_array : list PVFS_mgmt_dspace_info;
}.

Definition servresp_mgmt_dspace_info_list : codec PVFS_servresp_mgmt_dspace_info_list :=
  struct (λ '(dspace_info_count, dspace_info_array),
      mk_servresp_mgmt_dspace_info_list dspace_info_count dspace_info_array)
    (λ x, (rs_mgmt_dspace_info_list_dspace_info_count x,
    rs_mgmt_dspace_info_list_dspace_info_array x))
    (skip4 ⊗> int32_t ▷ (λ n, array n mgmt_dspace_info)).

Record PVFS_servresp_mgmt_event_mon := mk_servresp_mgmt_event_mon {
  rs_mgmt_event_mon_event_count : Z;  (* uint32_t *)
  rs_mgmt_event_mon_event_array : list PVFS_mgmt_event;
}.

Definition servresp_mgmt_event_mon : codec PVFS_servresp_mgmt_event_mon :=
  struct (λ '(event_count, event_array),
      mk_servresp_mgmt_event_mon event_count event_array)
    (λ x, (rs_mgmt_event_mon_event_count x, rs_mgmt_event_mon_event_array x))
    (skip4 ⊗> uint32_t ▷ (λ n, array n mgmt_event)).

Record PVFS_servresp_geteattr := mk_servresp_geteattr {
  rs_geteattr_nkey : Z;  (* int32_t *)
  rs_geteattr_val : list PVFS_ds_keyval;
  rs_geteattr_err : list Z;  (* PVFS_error *)
}.

Definition servresp_geteattr : codec PVFS_servresp_geteattr :=
  struct (λ '(nkey, val, err),
      mk_servresp_geteattr nkey val err)
    (λ x, (rs_geteattr_nkey x, rs_geteattr_val x, rs_geteattr_err x))
    (skip4 ⊗> int32_t ▷ (λ n, array n ds_keyval) ▷ (λ '(n, _), array n PVFS_error)).

Record PVFS_servresp_atomiceattr := mk_servresp_atomiceattr {
  rs_atomiceattr_nkey : Z;  (* int32_t *)
  rs_atomiceattr_val : list PVFS_ds_keyval;
  rs_atomiceattr_err : list Z;  (* PVFS_error *)
}.

Definition servresp_atomiceattr : codec PVFS_servresp_atomiceattr :=
  struct (λ '(nkey, val, err),
      mk_servresp_atomiceattr nkey val err)
    (λ x, (rs_atomiceattr_nkey x, rs_atomiceattr_val x, rs_atomiceattr_err x))
    (skip4 ⊗> int32_t ▷ (λ n, array n ds_keyval) ▷ (λ '(n, _), array n PVFS_error)).

Record PVFS_servresp_listeattr := mk_servresp_listeattr {
  rs_listeattr_token : Z;  (* PVFS_ds_position *)
  rs_listeattr_nkey : Z;  (* uint32_t *)
  rs_listeattr_key : list PVFS_ds_keyval;
}.

Definition servresp_listeattr : codec PVFS_servresp_listeattr :=
  struct (λ '(token, nkey, key),
      mk_servresp_listeattr token nkey key)
    (λ x, (rs_listeattr_token x, rs_listeattr_nkey x, rs_listeattr_key x))
    (PVFS_ds_position <⊗ skip4 ⊗ uint32_t ▷ (λ '(_, n), array n ds_keyval)).

Record PVFS_servresp_mgmt_get_uid := mk_servresp_mgmt_get_uid {
  rs_mgmt_get_uid_uid_info_array_count : Z;  (* uint32_t *)
  rs_mgmt_get_uid_uid_info_array : list PVFS_uid_info_s;
}.

Definition servresp_mgmt_get_uid : codec PVFS_servresp_mgmt_get_uid :=
  struct (λ '(uid_info_array_count, uid_info_array),
      mk_servresp_mgmt_get_uid uid_info_array_count uid_info_array)
    (λ x, (rs_mgmt_get_uid_uid_info_array_count x, rs_mgmt_get_uid_uid_info_array x))
    (skip4 ⊗> uint32_t ▷ (λ n, array n uid_info_s)).

Record PVFS_servresp_mgmt_get_dirent := mk_servresp_mgmt_get_dirent {
  rs_mgmt_get_dirent_handle : Z;  (* PVFS_handle *)
  rs_mgmt_get_dirent_error : Z;  (* PVFS_error *)
}.

Definition servresp_mgmt_get_dirent : codec PVFS_servresp_mgmt_get_dirent :=
  struct (λ '(handle, error),
      mk_servresp_mgmt_get_dirent handle error)
    (λ x, (rs_mgmt_get_dirent_handle x, rs_mgmt_get_dirent_error x))
    (PVFS_handle ⊗ PVFS_error).

Record PVFS_servresp_mgmt_get_user_cert := mk_servresp_mgmt_get_user_cert {
  rs_mgmt_get_user_cert_cert : PVFS_certificate;
}.

Definition servresp_mgmt_get_user_cert : codec PVFS_servresp_mgmt_get_user_cert :=
  struct mk_servresp_mgmt_get_user_cert rs_mgmt_get_user_cert_cert
    (certificate).

Record PVFS_servresp_mgmt_get_user_cert_keyreq := mk_servresp_mgmt_get_user_cert_keyreq {
  rs_mgmt_get_user_cert_keyreq_public_key : PVFS_security_key;
}.

Definition servresp_mgmt_get_user_cert_keyreq : codec PVFS_servresp_mgmt_get_user_cert_keyreq :=
  struct mk_servresp_mgmt_get_user_cert_keyreq rs_mgmt_get_user_cert_keyreq_public_key
    (security_key).

End responses.

(** * The union of all responses *)

(** The member [resp->u] of a response, which [resp->op] selects. *)
Inductive servresp :=
  | Rs_create (x : PVFS_servresp_create)
  | Rs_batch_create (x : PVFS_servresp_batch_create)
  | Rs_tree_setattr (x : PVFS_servresp_tree_setattr)
  | Rs_tree_remove (x : PVFS_servresp_tree_remove)
  | Rs_tree_get_file_size (x : PVFS_servresp_tree_get_file_size)
  | Rs_tree_getattr (x : PVFS_servresp_tree_getattr)
  | Rs_mgmt_get_dirdata_handle (x : PVFS_servresp_mgmt_get_dirdata_handle)
  | Rs_getattr (x : PVFS_servresp_getattr)
  | Rs_unstuff (x : PVFS_servresp_unstuff)
  | Rs_lookup_path (x : PVFS_servresp_lookup_path)
  | Rs_mkdir (x : PVFS_servresp_mkdir)
  | Rs_rmdirent (x : PVFS_servresp_rmdirent)
  | Rs_chdirent (x : PVFS_servresp_chdirent)
  | Rs_readdir (x : PVFS_servresp_readdir)
  | Rs_getconfig (x : PVFS_servresp_getconfig)
  | Rs_mirror (x : PVFS_servresp_mirror)
  | Rs_statfs (x : PVFS_servresp_statfs)
  | Rs_io (x : PVFS_servresp_io)
  | Rs_write_completion (x : PVFS_servresp_write_completion)
  | Rs_small_io (x : PVFS_servresp_small_io)
  | Rs_listattr (x : PVFS_servresp_listattr)
  | Rs_mgmt_perf_mon (x : PVFS_servresp_mgmt_perf_mon)
  | Rs_mgmt_iterate_handles (x : PVFS_servresp_mgmt_iterate_handles)
  | Rs_mgmt_dspace_info_list (x : PVFS_servresp_mgmt_dspace_info_list)
  | Rs_mgmt_event_mon (x : PVFS_servresp_mgmt_event_mon)
  | Rs_geteattr (x : PVFS_servresp_geteattr)
  | Rs_atomiceattr (x : PVFS_servresp_atomiceattr)
  | Rs_listeattr (x : PVFS_servresp_listeattr)
  | Rs_mgmt_get_uid (x : PVFS_servresp_mgmt_get_uid)
  | Rs_mgmt_get_dirent (x : PVFS_servresp_mgmt_get_dirent)
  | Rs_mgmt_get_user_cert (x : PVFS_servresp_mgmt_get_user_cert)
  | Rs_mgmt_get_user_cert_keyreq (x : PVFS_servresp_mgmt_get_user_cert_keyreq)
  | Rs_none (op : Z).

Definition resp_op (b : servresp) : Z :=
  match b with
  | Rs_create _ => PVFS_SERV_CREATE
  | Rs_batch_create _ => PVFS_SERV_BATCH_CREATE
  | Rs_tree_setattr _ => PVFS_SERV_TREE_SETATTR
  | Rs_tree_remove _ => PVFS_SERV_TREE_REMOVE
  | Rs_tree_get_file_size _ => PVFS_SERV_TREE_GET_FILE_SIZE
  | Rs_tree_getattr _ => PVFS_SERV_TREE_GETATTR
  | Rs_mgmt_get_dirdata_handle _ => PVFS_SERV_MGMT_GET_DIRDATA_HANDLE
  | Rs_getattr _ => PVFS_SERV_GETATTR
  | Rs_unstuff _ => PVFS_SERV_UNSTUFF
  | Rs_lookup_path _ => PVFS_SERV_LOOKUP_PATH
  | Rs_mkdir _ => PVFS_SERV_MKDIR
  | Rs_rmdirent _ => PVFS_SERV_RMDIRENT
  | Rs_chdirent _ => PVFS_SERV_CHDIRENT
  | Rs_readdir _ => PVFS_SERV_READDIR
  | Rs_getconfig _ => PVFS_SERV_GETCONFIG
  | Rs_mirror _ => PVFS_SERV_MIRROR
  | Rs_statfs _ => PVFS_SERV_STATFS
  | Rs_io _ => PVFS_SERV_IO
  | Rs_write_completion _ => PVFS_SERV_WRITE_COMPLETION
  | Rs_small_io _ => PVFS_SERV_SMALL_IO
  | Rs_listattr _ => PVFS_SERV_LISTATTR
  | Rs_mgmt_perf_mon _ => PVFS_SERV_MGMT_PERF_MON
  | Rs_mgmt_iterate_handles _ => PVFS_SERV_MGMT_ITERATE_HANDLES
  | Rs_mgmt_dspace_info_list _ => PVFS_SERV_MGMT_DSPACE_INFO_LIST
  | Rs_mgmt_event_mon _ => PVFS_SERV_MGMT_EVENT_MON
  | Rs_geteattr _ => PVFS_SERV_GETEATTR
  | Rs_atomiceattr _ => PVFS_SERV_ATOMICEATTR
  | Rs_listeattr _ => PVFS_SERV_LISTEATTR
  | Rs_mgmt_get_uid _ => PVFS_SERV_MGMT_GET_UID
  | Rs_mgmt_get_dirent _ => PVFS_SERV_MGMT_GET_DIRENT
  | Rs_mgmt_get_user_cert _ => PVFS_SERV_MGMT_GET_USER_CERT
  | Rs_mgmt_get_user_cert_keyreq _ => PVFS_SERV_MGMT_GET_USER_CERT_KEYREQ
  | Rs_none op => op
  end.

(** The [CASE] lines of [lebf_encode_resp] and of [lebf_decode_resp]. *)
Definition servresp_cases (t : list PINT_dist) : list (Z * codec servresp) := [
  (PVFS_SERV_GETCONFIG, member Rs_getconfig (λ b, match b with Rs_getconfig x => Some x | _ => None end) servresp_getconfig);
  (PVFS_SERV_LOOKUP_PATH, member Rs_lookup_path (λ b, match b with Rs_lookup_path x => Some x | _ => None end) (servresp_lookup_path t));
  (PVFS_SERV_CREATE, member Rs_create (λ b, match b with Rs_create x => Some x | _ => None end) (servresp_create t));
  (PVFS_SERV_MIRROR, member Rs_mirror (λ b, match b with Rs_mirror x => Some x | _ => None end) servresp_mirror);
  (PVFS_SERV_UNSTUFF, member Rs_unstuff (λ b, match b with Rs_unstuff x => Some x | _ => None end) (servresp_unstuff t));
  (PVFS_SERV_BATCH_CREATE, member Rs_batch_create (λ b, match b with Rs_batch_create x => Some x | _ => None end) servresp_batch_create);
  (PVFS_SERV_IO, member Rs_io (λ b, match b with Rs_io x => Some x | _ => None end) servresp_io);
  (PVFS_SERV_SMALL_IO, member Rs_small_io (λ b, match b with Rs_small_io x => Some x | _ => None end) servresp_small_io);
  (PVFS_SERV_GETATTR, member Rs_getattr (λ b, match b with Rs_getattr x => Some x | _ => None end) (servresp_getattr t));
  (PVFS_SERV_RMDIRENT, member Rs_rmdirent (λ b, match b with Rs_rmdirent x => Some x | _ => None end) servresp_rmdirent);
  (PVFS_SERV_CHDIRENT, member Rs_chdirent (λ b, match b with Rs_chdirent x => Some x | _ => None end) servresp_chdirent);
  (PVFS_SERV_MKDIR, member Rs_mkdir (λ b, match b with Rs_mkdir x => Some x | _ => None end) servresp_mkdir);
  (PVFS_SERV_READDIR, member Rs_readdir (λ b, match b with Rs_readdir x => Some x | _ => None end) servresp_readdir);
  (PVFS_SERV_STATFS, member Rs_statfs (λ b, match b with Rs_statfs x => Some x | _ => None end) servresp_statfs);
  (PVFS_SERV_MGMT_PERF_MON, member Rs_mgmt_perf_mon (λ b, match b with Rs_mgmt_perf_mon x => Some x | _ => None end) servresp_mgmt_perf_mon);
  (PVFS_SERV_MGMT_ITERATE_HANDLES, member Rs_mgmt_iterate_handles (λ b, match b with Rs_mgmt_iterate_handles x => Some x | _ => None end) servresp_mgmt_iterate_handles);
  (PVFS_SERV_MGMT_DSPACE_INFO_LIST, member Rs_mgmt_dspace_info_list (λ b, match b with Rs_mgmt_dspace_info_list x => Some x | _ => None end) servresp_mgmt_dspace_info_list);
  (PVFS_SERV_MGMT_EVENT_MON, member Rs_mgmt_event_mon (λ b, match b with Rs_mgmt_event_mon x => Some x | _ => None end) servresp_mgmt_event_mon);
  (PVFS_SERV_WRITE_COMPLETION, member Rs_write_completion (λ b, match b with Rs_write_completion x => Some x | _ => None end) servresp_write_completion);
  (PVFS_SERV_MGMT_GET_DIRDATA_HANDLE, member Rs_mgmt_get_dirdata_handle (λ b, match b with Rs_mgmt_get_dirdata_handle x => Some x | _ => None end) servresp_mgmt_get_dirdata_handle);
  (PVFS_SERV_GETEATTR, member Rs_geteattr (λ b, match b with Rs_geteattr x => Some x | _ => None end) servresp_geteattr);
  (PVFS_SERV_ATOMICEATTR, member Rs_atomiceattr (λ b, match b with Rs_atomiceattr x => Some x | _ => None end) servresp_atomiceattr);
  (PVFS_SERV_LISTEATTR, member Rs_listeattr (λ b, match b with Rs_listeattr x => Some x | _ => None end) servresp_listeattr);
  (PVFS_SERV_LISTATTR, member Rs_listattr (λ b, match b with Rs_listattr x => Some x | _ => None end) (servresp_listattr t));
  (PVFS_SERV_TREE_GET_FILE_SIZE, member Rs_tree_get_file_size (λ b, match b with Rs_tree_get_file_size x => Some x | _ => None end) servresp_tree_get_file_size);
  (PVFS_SERV_TREE_REMOVE, member Rs_tree_remove (λ b, match b with Rs_tree_remove x => Some x | _ => None end) servresp_tree_remove);
  (PVFS_SERV_TREE_GETATTR, member Rs_tree_getattr (λ b, match b with Rs_tree_getattr x => Some x | _ => None end) (servresp_tree_getattr t));
  (PVFS_SERV_TREE_SETATTR, member Rs_tree_setattr (λ b, match b with Rs_tree_setattr x => Some x | _ => None end) servresp_tree_setattr);
  (PVFS_SERV_MGMT_GET_UID, member Rs_mgmt_get_uid (λ b, match b with Rs_mgmt_get_uid x => Some x | _ => None end) servresp_mgmt_get_uid);
  (PVFS_SERV_MGMT_GET_DIRENT, member Rs_mgmt_get_dirent (λ b, match b with Rs_mgmt_get_dirent x => Some x | _ => None end) servresp_mgmt_get_dirent);
  (PVFS_SERV_MGMT_GET_USER_CERT, member Rs_mgmt_get_user_cert (λ b, match b with Rs_mgmt_get_user_cert x => Some x | _ => None end) servresp_mgmt_get_user_cert);
  (PVFS_SERV_MGMT_GET_USER_CERT_KEYREQ, member Rs_mgmt_get_user_cert_keyreq (λ b, match b with Rs_mgmt_get_user_cert_keyreq x => Some x | _ => None end) servresp_mgmt_get_user_cert_keyreq) ].

(** What the client gets. *)
Definition received_resp_body (b : servresp) : servresp :=
  match b with Rs_small_io x => Rs_small_io (received_small_io_resp x) | _ => b end.

(** * Laws *)

Lemma read_data_receives io_type n : Receives (read_data io_type n) (received_read io_type n).
Proof.
  intros b p Hp. cbn [ok enc dec read_data]. unfold received_read.
  destruct (decide (io_type = PVFS_IO_READ)) as [Hr|Hr].
  - destruct b as [b|].
    + intros [[Hn%Z.leb_le Hl%Z.leb_le]%andb_true_iff Hb]%andb_true_iff.
      assert (peek b 0 n = Done (take (Z.to_nat n) b)) as ->.
      { rewrite <- (take_drop (Z.to_nat n) b) at 1.
        apply (peek_mid [] (take (Z.to_nat n) b)); [done|]. rewrite length_take. lia. }
      cbn [mbind exec_bind]. exists (cells (take (Z.to_nat n) b)). split; [done|].
      split; [by apply cells_ok, Forall_take, is_bytes|]. intros pre post Hpre.
      rewrite zeroed_cells, (view_mid _ (take (Z.to_nat n) b)); [|done|rewrite length_take; lia].
      rewrite length_cells, length_take. do 2 f_equal. lia.
    + intros ->%Z.eqb_eq. exists []. split; [done|]. split; [constructor|]. intros pre post Hpre.
      cbn [zeroed fmap list_fmap app]. rewrite (view_mid pre [] post) by (cbn; lia). done.
  - intros _. exists []. split; [by destruct b|]. split; [constructor|]. intros. cbn.
    by rewrite Z.add_0_r.
Qed.

Section laws.
Context (t : list PINT_dist).

#[export] Instance servresp_create_lawful : Lawful (servresp_create t).
Proof. unfold servresp_create. apply _. Qed.

#[export] Instance servresp_batch_create_lawful : Lawful servresp_batch_create.
Proof. unfold servresp_batch_create. apply _. Qed.

#[export] Instance servresp_tree_setattr_lawful : Lawful servresp_tree_setattr.
Proof. unfold servresp_tree_setattr. apply _. Qed.

#[export] Instance servresp_tree_remove_lawful : Lawful servresp_tree_remove.
Proof. unfold servresp_tree_remove. apply _. Qed.

#[export] Instance servresp_tree_get_file_size_lawful : Lawful servresp_tree_get_file_size.
Proof. unfold servresp_tree_get_file_size. apply _. Qed.

#[export] Instance servresp_tree_getattr_lawful : Lawful (servresp_tree_getattr t).
Proof. unfold servresp_tree_getattr. apply _. Qed.

#[export] Instance servresp_mgmt_get_dirdata_handle_lawful : Lawful servresp_mgmt_get_dirdata_handle.
Proof. unfold servresp_mgmt_get_dirdata_handle. apply _. Qed.

#[export] Instance servresp_getattr_lawful : Lawful (servresp_getattr t).
Proof. unfold servresp_getattr. apply _. Qed.

#[export] Instance servresp_unstuff_lawful : Lawful (servresp_unstuff t).
Proof. unfold servresp_unstuff. apply _. Qed.

#[export] Instance servresp_lookup_path_lawful : Lawful (servresp_lookup_path t).
Proof. unfold servresp_lookup_path. apply _. Qed.

#[export] Instance servresp_mkdir_lawful : Lawful servresp_mkdir.
Proof. unfold servresp_mkdir. apply _. Qed.

#[export] Instance servresp_rmdirent_lawful : Lawful servresp_rmdirent.
Proof. unfold servresp_rmdirent. apply _. Qed.

#[export] Instance servresp_chdirent_lawful : Lawful servresp_chdirent.
Proof. unfold servresp_chdirent. apply _. Qed.

#[export] Instance servresp_readdir_lawful : Lawful servresp_readdir.
Proof. unfold servresp_readdir. apply _. Qed.

#[export] Instance servresp_getconfig_lawful : Lawful servresp_getconfig.
Proof. unfold servresp_getconfig. apply _. Qed.

#[export] Instance servresp_mirror_lawful : Lawful servresp_mirror.
Proof. unfold servresp_mirror. apply _. Qed.

#[export] Instance servresp_statfs_lawful : Lawful servresp_statfs.
Proof. unfold servresp_statfs. apply _. Qed.

#[export] Instance servresp_io_lawful : Lawful servresp_io.
Proof. unfold servresp_io. apply _. Qed.

#[export] Instance servresp_write_completion_lawful : Lawful servresp_write_completion.
Proof. unfold servresp_write_completion. apply _. Qed.

#[export] Instance servresp_small_io_receives : Receives servresp_small_io received_small_io_resp.
Proof.
  unfold servresp_small_io. eapply struct_receives.
  - apply dep_receives with (f := λ x b, received_read (fst (fst x)) (snd x) b); [apply _|].
    intros [[]]. apply read_data_receives.
  - by intros [].
Qed.

#[export] Instance servresp_listattr_lawful : Lawful (servresp_listattr t).
Proof. unfold servresp_listattr. apply _. Qed.

#[export] Instance servresp_mgmt_perf_mon_lawful : Lawful servresp_mgmt_perf_mon.
Proof. unfold servresp_mgmt_perf_mon. apply _. Qed.

#[export] Instance servresp_mgmt_iterate_handles_lawful : Lawful servresp_mgmt_iterate_handles.
Proof. unfold servresp_mgmt_iterate_handles. apply _. Qed.

#[export] Instance servresp_mgmt_dspace_info_list_lawful : Lawful servresp_mgmt_dspace_info_list.
Proof. unfold servresp_mgmt_dspace_info_list. apply _. Qed.

#[export] Instance servresp_mgmt_event_mon_lawful : Lawful servresp_mgmt_event_mon.
Proof. unfold servresp_mgmt_event_mon. apply _. Qed.

#[export] Instance servresp_geteattr_lawful : Lawful servresp_geteattr.
Proof. unfold servresp_geteattr. apply _. Qed.

#[export] Instance servresp_atomiceattr_lawful : Lawful servresp_atomiceattr.
Proof. unfold servresp_atomiceattr. apply _. Qed.

#[export] Instance servresp_listeattr_lawful : Lawful servresp_listeattr.
Proof. unfold servresp_listeattr. apply _. Qed.

#[export] Instance servresp_mgmt_get_uid_lawful : Lawful servresp_mgmt_get_uid.
Proof. unfold servresp_mgmt_get_uid. apply _. Qed.

#[export] Instance servresp_mgmt_get_dirent_lawful : Lawful servresp_mgmt_get_dirent.
Proof. unfold servresp_mgmt_get_dirent. apply _. Qed.

#[export] Instance servresp_mgmt_get_user_cert_lawful : Lawful servresp_mgmt_get_user_cert.
Proof. unfold servresp_mgmt_get_user_cert. apply _. Qed.

#[export] Instance servresp_mgmt_get_user_cert_keyreq_lawful : Lawful servresp_mgmt_get_user_cert_keyreq.
Proof. unfold servresp_mgmt_get_user_cert_keyreq. apply _. Qed.

(** Every case receives what was sent. *)
Lemma servresp_cases_receive :
  Forall (λ c, Receives (snd c) received_resp_body) (servresp_cases t).
Proof.
  repeat first [apply Forall_nil_2 | apply Forall_cons_2]; cbn [snd];
    (eapply member_receives; [apply _|intros [] ? [=]; by subst]).
Qed.
End laws.
