(* ===== verification/WireSizes.v ===== *)
(** The sizes [lebf_initialize] of src/src/proto/PINT-le-bytefield.c reserves:
    the limits of src/src/proto/pvfs2-req-proto.h, the [extra_size_*] macros,
    and the messages whose encoded size is measured for each operation.  Sizes
    of structs are those of an LP64 machine. *)

From stdpp Require Import base tactics numbers list strings.
From S2P Require Import Prelude Errors ServerOps Wire DistTable WireTypes Hint WireReq WireResp.

(** * Limits *)

Definition PVFS_REQ_LIMIT_HANDLES_COUNT : Z := PVFS_SYS_LIMIT_HANDLES_COUNT.
Definition PVFS_REQ_LIMIT_BATCH_CREATE : Z := 8192.
Definition PVFS_REQ_LIMIT_SEGMENT_BYTES : Z := PVFS_SEGMENT_MAX.
Definition PVFS_REQ_LIMIT_IOREQ_BYTES : Z := 8192.
Definition PVFS_REQ_LIMIT_PATH_NAME_BYTES : Z := PVFS_PATH_MAX.
Definition PVFS_REQ_LIMIT_DIRENT_COUNT : Z := 512.
Definition PVFS_REQ_LIMIT_CONFIG_FILE_BYTES : Z := 65536.
Definition PVFS_REQ_LIMIT_PINT_REQUEST_NUM : Z := 100.
Definition PINT_SMALL_IO_MAXSIZE : Z := 16 * 1024.
Definition PVFS_REQ_LIMIT_LISTATTR : Z := PVFS_SYS_LIMIT_LISTATTR.
Definition PVFS_REQ_LIMIT_MGMT_DSPACE_INFO_LIST_COUNT : Z := 1024.
Definition PVFS_REQ_LIMIT_MGMT_EVENT_MON_COUNT : Z := 2048.
Definition PVFS_REQ_LIMIT_EATTR_KEY_LEN : Z := PVFS_MAX_XATTR_NAMELEN.
Definition PVFS_REQ_LIMIT_EATTR_LIST : Z := PVFS_MAX_XATTR_LISTLEN.
Definition PVFS_REQ_LIMIT_EATTR_VAL_LEN : Z := PVFS_MAX_XATTR_VALUELEN.
Definition UID_MGMT_MAX_HISTORY : Z := 25.
Definition PVFS_REQ_LIMIT_USERID_PWD : Z := 256.
Definition PVFS_REQ_LIMIT_ENC_KEY : Z := 16384.
Definition PVFS_REQ_LIMIT_CERT : Z := PVFS_SYS_LIMIT_CERT.
Definition PVFS_REQ_LIMIT_SECURITY_KEY : Z := 8192.

Definition sizeof_PVFS_error : Z := 4.
Definition sizeof_PVFS_size : Z := 8.
Definition sizeof_int32_t : Z := 4.
Definition sizeof_uint32_t : Z := 4.
Definition sizeof_PVFS_dirent : Z := 272.
Definition sizeof_PINT_Request : Z := 88.
Definition sizeof_PVFS_mgmt_dspace_info : Z := 40.
Definition sizeof_PVFS_mgmt_event : Z := 40.
Definition sizeof_PVFS_uid_info_s : Z := 48.

(** * Room for the parts of variable length *)

Definition extra_size_PVFS_servresp_create : Z := extra_size_PVFS_object_attr.
Definition extra_size_PVFS_servreq_batch_create : Z :=
  PVFS_REQ_LIMIT_HANDLES_COUNT * sizeof_PVFS_handle_extent.
Definition extra_size_PVFS_servresp_batch_create : Z :=
  PVFS_REQ_LIMIT_BATCH_CREATE * sizeof_PVFS_handle.
Definition extra_size_PVFS_servreq_batch_remove : Z :=
  PVFS_REQ_LIMIT_HANDLES_COUNT * sizeof_PVFS_handle.
Definition extra_size_PVFS_servreq_mgmt_remove_dirent : Z :=
  roundup8 (PVFS_REQ_LIMIT_SEGMENT_BYTES + 1).
Definition extra_size_PVFS_servreq_tree_setattr : Z :=
  PVFS_REQ_LIMIT_HANDLES_COUNT * sizeof_PVFS_handle + extra_size_PVFS_object_attr.
Definition extra_size_PVFS_servresp_tree_setattr : Z :=
  PVFS_REQ_LIMIT_HANDLES_COUNT * sizeof_int32_t.
Definition extra_size_PVFS_servreq_tree_remove : Z :=
  PVFS_REQ_LIMIT_HANDLES_COUNT * sizeof_PVFS_handle.
Definition extra_size_PVFS_servresp_tree_remove : Z :=
  PVFS_REQ_LIMIT_HANDLES_COUNT * sizeof_int32_t.
Definition extra_size_PVFS_servreq_tree_get_file_size : Z :=
  (PVFS_REQ_LIMIT_HANDLES_COUNT * sizeof_PVFS_handle) + extra_size_PVFS_credential.
Definition extra_size_PVFS_servresp_tree_get_file_size : Z :=
  (PVFS_REQ_LIMIT_HANDLES_COUNT * sizeof_PVFS_error) + (PVFS_REQ_LIMIT_HANDLES_COUNT *
  sizeof_PVFS_size).
Definition extra_size_PVFS_servreq_tree_getattr : Z :=
  (PVFS_REQ_LIMIT_HANDLES_COUNT * sizeof_PVFS_handle) + extra_size_PVFS_credential.
Definition extra_size_PVFS_servresp_tree_getattr : Z := PVFS_REQ_LIMIT_IOREQ_BYTES.
Definition extra_size_PVFS_servreq_getattr : Z := extra_size_PVFS_credential.
Definition extra_size_PVFS_servresp_getattr : Z := extra_size_PVFS_object_attr.
Definition extra_size_PVFS_servreq_unstuff : Z := extra_size_PVFS_credential.
Definition extra_size_PVFS_servresp_unstuff : Z := extra_size_PVFS_object_attr.
Definition extra_size_PVFS_servreq_setattr : Z :=
  extra_size_PVFS_object_attr + extra_size_PVFS_credential.
Definition extra_size_PVFS_servreq_lookup_path : Z :=
  roundup8 (PVFS_REQ_LIMIT_PATH_NAME_BYTES + 1) + extra_size_PVFS_credential.
Definition extra_size_PVFS_servresp_lookup_path : Z := PVFS_REQ_LIMIT_IOREQ_BYTES.
Definition extra_size_PVFS_servreq_mkdir : Z :=
  PVFS_REQ_LIMIT_HANDLES_COUNT * sizeof_PVFS_handle_extent + extra_size_PVFS_credential +
  extra_size_PVFS_object_attr.
Definition extra_size_PVFS_servresp_mkdir : Z := extra_size_PVFS_capability.
Definition extra_size_PVFS_servreq_crdirent : Z := roundup8 (PVFS_REQ_LIMIT_SEGMENT_BYTES + 1).
Definition extra_size_PVFS_servreq_rmdirent : Z := roundup8 (PVFS_REQ_LIMIT_SEGMENT_BYTES + 1).
Definition extra_size_PVFS_servreq_chdirent : Z := roundup8 (PVFS_REQ_LIMIT_SEGMENT_BYTES + 1).
Definition extra_size_PVFS_servresp_readdir : Z :=
  PVFS_REQ_LIMIT_DIRENT_COUNT * sizeof_PVFS_dirent.
Definition extra_size_PVFS_servresp_getconfig : Z := PVFS_REQ_LIMIT_CONFIG_FILE_BYTES.
Definition extra_size_PVFS_servreq_mirror : Z :=
  (sizeof_PVFS_handle * PVFS_REQ_LIMIT_HANDLES_COUNT) + (sizeof_uint32_t *
  PVFS_REQ_LIMIT_HANDLES_COUNT).
Definition extra_size_PVFS_servresp_mirror : Z :=
  (sizeof_uint32_t * PVFS_REQ_LIMIT_HANDLES_COUNT) + (sizeof_uint32_t *
  PVFS_REQ_LIMIT_HANDLES_COUNT).
Definition extra_size_PVFS_servreq_io : Z :=
  roundup8 (PVFS_REQ_LIMIT_PATH_NAME_BYTES) + roundup8 (PVFS_REQ_LIMIT_PINT_REQUEST_NUM *
  sizeof_PINT_Request).
Definition extra_size_PVFS_servreq_small_io : Z := PINT_SMALL_IO_MAXSIZE.
Definition extra_size_PVFS_servresp_small_io : Z := PINT_SMALL_IO_MAXSIZE.
Definition extra_size_PVFS_servreq_listattr : Z := PVFS_REQ_LIMIT_LISTATTR * sizeof_PVFS_handle.
Definition extra_size_PVFS_servresp_listattr : Z :=
  (PVFS_REQ_LIMIT_LISTATTR * sizeof_PVFS_error) + (PVFS_REQ_LIMIT_LISTATTR *
  extra_size_PVFS_object_attr).
Definition extra_size_PVFS_servresp_mgmt_perf_mon : Z := PVFS_REQ_LIMIT_IOREQ_BYTES.
Definition extra_size_PVFS_servresp_mgmt_iterate_handles : Z :=
  PVFS_REQ_LIMIT_HANDLES_COUNT * sizeof_PVFS_handle.
Definition extra_size_PVFS_servreq_mgmt_dspace_info_list : Z :=
  PVFS_REQ_LIMIT_HANDLES_COUNT * sizeof_PVFS_handle.
Definition extra_size_PVFS_servresp_mgmt_dspace_info_list : Z :=
  PVFS_REQ_LIMIT_MGMT_DSPACE_INFO_LIST_COUNT * sizeof_PVFS_mgmt_dspace_info.
Definition extra_size_PVFS_servresp_mgmt_event_mon : Z :=
  PVFS_REQ_LIMIT_MGMT_EVENT_MON_COUNT * roundup8 (sizeof_PVFS_mgmt_event).
Definition extra_size_PVFS_servreq_geteattr : Z :=
  PVFS_REQ_LIMIT_EATTR_KEY_LEN + sizeof_PVFS_size * PVFS_REQ_LIMIT_EATTR_LIST.
Definition extra_size_PVFS_servresp_geteattr : Z :=
  (PVFS_REQ_LIMIT_EATTR_VAL_LEN + sizeof_PVFS_error) * PVFS_REQ_LIMIT_EATTR_LIST.
Definition extra_size_PVFS_servreq_seteattr : Z :=
  (PVFS_REQ_LIMIT_EATTR_KEY_LEN + PVFS_REQ_LIMIT_EATTR_VAL_LEN) *
  PVFS_REQ_LIMIT_EATTR_LIST.
Definition extra_size_PVFS_servreq_atomiceattr : Z :=
  (PVFS_REQ_LIMIT_EATTR_KEY_LEN + PVFS_REQ_LIMIT_EATTR_VAL_LEN) * PVFS_REQ_LIMIT_EATTR_LIST
  + sizeof_PVFS_size * PVFS_REQ_LIMIT_EATTR_LIST.
Definition extra_size_PVFS_servresp_atomiceattr : Z :=
  (PVFS_REQ_LIMIT_EATTR_VAL_LEN + sizeof_PVFS_error) * PVFS_REQ_LIMIT_EATTR_LIST.
Definition extra_size_PVFS_servreq_deleattr : Z := PVFS_REQ_LIMIT_EATTR_KEY_LEN.
Definition extra_size_PVFS_servreq_listeattr : Z :=
  PVFS_REQ_LIMIT_EATTR_LIST * sizeof_PVFS_size.
Definition extra_size_PVFS_servresp_listeattr : Z :=
  PVFS_REQ_LIMIT_EATTR_KEY_LEN * PVFS_REQ_LIMIT_EATTR_LIST.
Definition extra_size_PVFS_servresp_mgmt_get_uid : Z :=
  UID_MGMT_MAX_HISTORY * sizeof_PVFS_uid_info_s.
Definition extra_size_PVFS_servreq_mgmt_get_dirent : Z :=
  roundup8 (PVFS_REQ_LIMIT_SEGMENT_BYTES + 1).
Definition extra_size_PVFS_servreq_mgmt_split_dirent : Z :=
  (PVFS_REQ_LIMIT_HANDLES_COUNT * sizeof_PVFS_handle) + (PVFS_REQ_LIMIT_HANDLES_COUNT *
  roundup8 (PVFS_REQ_LIMIT_SEGMENT_BYTES + 1)).
Definition extra_size_PVFS_servreq_mgmt_get_user_cert : Z :=
  (PVFS_REQ_LIMIT_USERID_PWD * 2) + PVFS_REQ_LIMIT_ENC_KEY.
Definition extra_size_PVFS_servresp_mgmt_get_user_cert : Z := PVFS_REQ_LIMIT_CERT.
Definition extra_size_PVFS_servresp_mgmt_get_user_cert_keyreq : Z :=
  PVFS_REQ_LIMIT_SECURITY_KEY.
Definition extra_size_PVFS_servreq : Z := extra_size_PVFS_capability.

(** * The measured messages *)

Definition zero_header : attr_header := mk_attr_header_codec 0 0 0 0 0 0 0 0.
Definition zero_object_attr : PVFS_object_attr :=
  mk_object_attr zero_header None None None None None None None None None.

(** Structs filled with zero bytes; [zero_credential] and [zero_capability]
    then set the issuer to the empty string. *)
Definition memset_credential : PVFS_credential :=
  mk_credential 0 0 [] None 0 0 [] (mk_certificate 0 []).
Definition memset_capability : PVFS_capability := mk_capability None 0 0 [] 0 0 0 [].

Definition zero_capability (cap : PVFS_capability) : PVFS_capability :=
  mk_capability (Some []) (cap_fsid cap) 0 (cap_signature cap) (cap_timeout cap)
    (cap_op_mask cap) 0 (cap_handle_array cap).
Definition zero_credential (cred : PVFS_credential) : PVFS_credential :=
  mk_credential (cred_userid cred) 0 (cred_group_array cred) (Some []) (cred_timeout cred) 0
    (cred_signature cred) (cred_certificate cred).

Definition tmp_name : str := Some (zs "foo").

(** The request [tmp_req], all zeros, as it is packed. *)
Definition tmp_req : option (list packed_request) :=
  Some [mk_packed_request_codec 0 0 0 0 0 0 0 0 0 0 (-1) 0 (B32 - 1) (B32 - 1)].

(** One case of the switch: the request and the response that are measured
    and the room that is added to them.  [noreq] is a case without request. *)
Record init_case := mkInitCase {
  in_op : Z;
  in_req : servreq;
  in_reqsize : Z;
  in_resp : servresp;
  in_respsize : Z;
  noreq : bool;
}.

Definition init_cases_1 (tmp_dist : PINT_dist) : list init_case := [
  mkInitCase PVFS_SERV_GETCONFIG (Rq_none PVFS_SERV_GETCONFIG) 0 (Rs_getconfig
    (mk_servresp_getconfig 0 tmp_name)) extra_size_PVFS_servresp_getconfig false;
  mkInitCase PVFS_SERV_LOOKUP_PATH (Rq_lookup_path (mk_servreq_lookup_path (Some []) 0 0
    0 memset_credential)) extra_size_PVFS_servreq_lookup_path (Rs_lookup_path
    (mk_servresp_lookup_path 0 [] 0 [])) extra_size_PVFS_servresp_lookup_path false;
  mkInitCase PVFS_SERV_BATCH_CREATE (Rq_batch_create (mk_servreq_batch_create 0 0 0
    (mk_handle_extent_array 0 []))) extra_size_PVFS_servreq_batch_create (Rs_batch_create
    (mk_servresp_batch_create 0 [])) extra_size_PVFS_servresp_batch_create false;
  mkInitCase PVFS_SERV_CREATE (Rq_create (mk_servreq_create 0 (zero_credential
    memset_credential) zero_object_attr 0 (mk_sys_layout 0 0 [])))
    extra_size_PVFS_servreq_create (Rs_create (mk_servresp_create 0 0 zero_object_attr))
    extra_size_PVFS_servresp_create false;
  mkInitCase PVFS_SERV_MIRROR (Rq_mirror (mk_servreq_mirror 0 0 tmp_dist 0 0 0 0 0 []))
    extra_size_PVFS_servreq_mirror (Rs_mirror (mk_servresp_mirror 0 0 0 []))
    extra_size_PVFS_servresp_mirror false;
  mkInitCase PVFS_SERV_IMM_COPIES (Rq_none PVFS_SERV_IMM_COPIES) 0 (Rs_none
    PVFS_SERV_IMM_COPIES) 0 false;
  mkInitCase PVFS_SERV_REMOVE (Rq_remove (mk_servreq_remove 0 0 memset_credential)) 0
    (Rs_none PVFS_SERV_REMOVE) 0 false;
  mkInitCase PVFS_SERV_BATCH_REMOVE (Rq_batch_remove (mk_servreq_batch_remove 0 0 []))
    extra_size_PVFS_servreq_batch_remove (Rs_none PVFS_SERV_BATCH_REMOVE) 0 false;
  mkInitCase PVFS_SERV_MGMT_REMOVE_OBJECT (Rq_mgmt_remove_object
    (mk_servreq_mgmt_remove_object 0 0)) 0 (Rs_none PVFS_SERV_MGMT_REMOVE_OBJECT) 0 false;
  mkInitCase PVFS_SERV_MGMT_REMOVE_DIRENT (Rq_mgmt_remove_dirent
    (mk_servreq_mgmt_remove_dirent 0 0 tmp_name))
    extra_size_PVFS_servreq_mgmt_remove_dirent (Rs_none PVFS_SERV_MGMT_REMOVE_DIRENT) 0
    false;
  mkInitCase PVFS_SERV_TREE_REMOVE (Rq_tree_remove (mk_servreq_tree_remove 0
    (zero_credential memset_credential) 0 0 [])) extra_size_PVFS_servreq_tree_remove
    (Rs_tree_remove (mk_servresp_tree_remove 0 0 [])) extra_size_PVFS_servresp_tree_remove
    false;
  mkInitCase PVFS_SERV_IO (Rq_io (mk_servreq_io 0 0 0 0 0 0 tmp_dist tmp_req 0 0))
    extra_size_PVFS_servreq_io (Rs_io (mk_servresp_io 0)) 0 false;
  mkInitCase PVFS_SERV_SMALL_IO (Rq_small_io (mk_servreq_small_io 0 0 0 0 0 tmp_dist
    tmp_req 0 0 0 [] [])) extra_size_PVFS_servreq_small_io (Rs_small_io
    (mk_servresp_small_io 0 0 0 None)) extra_size_PVFS_servresp_small_io false;
  mkInitCase PVFS_SERV_GETATTR (Rq_getattr (mk_servreq_getattr 0 0 0 (zero_credential
    memset_credential))) extra_size_PVFS_servreq_getattr (Rs_getattr (mk_servresp_getattr
    zero_object_attr)) extra_size_PVFS_servresp_getattr false;
  mkInitCase PVFS_SERV_UNSTUFF (Rq_unstuff (mk_servreq_unstuff 0 0 0 (zero_credential
    memset_credential))) extra_size_PVFS_servreq_unstuff (Rs_unstuff (mk_servresp_unstuff
    zero_object_attr)) extra_size_PVFS_servresp_unstuff false;
  mkInitCase PVFS_SERV_SETATTR (Rq_setattr (mk_servreq_setattr 0 0 zero_object_attr
    (zero_credential memset_credential))) extra_size_PVFS_servreq_setattr (Rs_none
    PVFS_SERV_SETATTR) 0 false;
  mkInitCase PVFS_SERV_CRDIRENT (Rq_crdirent (mk_servreq_crdirent memset_credential
    tmp_name 0 0 0 0)) extra_size_PVFS_servreq_crdirent (Rs_none PVFS_SERV_CRDIRENT) 0
    false;
  mkInitCase PVFS_SERV_RMDIRENT (Rq_rmdirent (mk_servreq_rmdirent tmp_name 0 0))
    extra_size_PVFS_servreq_rmdirent (Rs_rmdirent (mk_servresp_rmdirent 0)) 0 false;
  mkInitCase PVFS_SERV_CHDIRENT (Rq_chdirent (mk_servreq_chdirent tmp_name 0 0 0))
    extra_size_PVFS_servreq_chdirent (Rs_chdirent (mk_servresp_chdirent 0)) 0 false;
  mkInitCase PVFS_SERV_TRUNCATE (Rq_truncate (mk_servreq_truncate 0 0 0 0)) 0 (Rs_none
    PVFS_SERV_TRUNCATE) 0 false ].

Definition init_cases_2 (tmp_dist : PINT_dist) : list init_case := [
  mkInitCase PVFS_SERV_MKDIR (Rq_mkdir (mk_servreq_mkdir 0 (zero_credential
    memset_credential) zero_object_attr (mk_handle_extent_array 0 []) 0 0 0 (mk_sys_layout
    0 0 []))) extra_size_PVFS_servreq_mkdir (Rs_mkdir (mk_servresp_mkdir 0 (zero_capability
    memset_capability))) extra_size_PVFS_servresp_mkdir false;
  mkInitCase PVFS_SERV_READDIR (Rq_readdir (mk_servreq_readdir 0 0 0 0)) 0 (Rs_readdir
    (mk_servresp_readdir 0 0 0 [])) extra_size_PVFS_servresp_readdir false;
  mkInitCase PVFS_SERV_FLUSH (Rq_flush (mk_servreq_flush 0 0 0)) 0 (Rs_none
    PVFS_SERV_FLUSH) 0 false;
  mkInitCase PVFS_SERV_MGMT_SETPARAM (Rq_mgmt_setparam (mk_servreq_mgmt_setparam 0 0
    (SP_uint64 0))) 0 (Rs_none PVFS_SERV_MGMT_SETPARAM) 0 false;
  mkInitCase PVFS_SERV_MGMT_NOOP (Rq_none PVFS_SERV_MGMT_NOOP) 0 (Rs_none
    PVFS_SERV_MGMT_NOOP) 0 false;
  mkInitCase PVFS_SERV_STATFS (Rq_statfs (mk_servreq_statfs 0)) 0 (Rs_statfs
    (mk_servresp_statfs (mk_statfs 0 0 0 0 0 0 0 0 0 0 0))) 0 false;
  mkInitCase PVFS_SERV_MGMT_GET_DIRDATA_HANDLE (Rq_mgmt_get_dirdata_handle
    (mk_servreq_mgmt_get_dirdata_handle 0 0)) 0 (Rs_mgmt_get_dirdata_handle
    (mk_servresp_mgmt_get_dirdata_handle 0)) 0 false;
  mkInitCase PVFS_SERV_WRITE_COMPLETION (Rq_none PVFS_SERV_WRITE_COMPLETION) 0
    (Rs_write_completion (mk_servresp_write_completion 0)) 0 true;
  mkInitCase PVFS_SERV_MGMT_PERF_MON (Rq_mgmt_perf_mon (mk_servreq_mgmt_perf_mon 0 0 0
    0)) 0 (Rs_mgmt_perf_mon (mk_servresp_mgmt_perf_mon 0 0 0 0 0 0 []))
    extra_size_PVFS_servresp_mgmt_perf_mon false;
  mkInitCase PVFS_SERV_MGMT_ITERATE_HANDLES (Rq_mgmt_iterate_handles
    (mk_servreq_mgmt_iterate_handles 0 0 0 0)) 0 (Rs_mgmt_iterate_handles
    (mk_servresp_mgmt_iterate_handles 0 0 []))
    extra_size_PVFS_servresp_mgmt_iterate_handles false;
  mkInitCase PVFS_SERV_MGMT_DSPACE_INFO_LIST (Rq_mgmt_dspace_info_list
    (mk_servreq_mgmt_dspace_info_list 0 0 []))
    extra_size_PVFS_servreq_mgmt_dspace_info_list (Rs_mgmt_dspace_info_list
    (mk_servresp_mgmt_dspace_info_list 0 []))
    extra_size_PVFS_servresp_mgmt_dspace_info_list false;
  mkInitCase PVFS_SERV_MGMT_EVENT_MON (Rq_mgmt_event_mon (mk_servreq_mgmt_event_mon 0)) 0
    (Rs_mgmt_event_mon (mk_servresp_mgmt_event_mon 0 []))
    extra_size_PVFS_servresp_mgmt_event_mon false;
  mkInitCase PVFS_SERV_PROTO_ERROR (Rq_none PVFS_SERV_PROTO_ERROR) 0 (Rs_none
    PVFS_SERV_PROTO_ERROR) 0 false;
  mkInitCase PVFS_SERV_GETEATTR (Rq_geteattr (mk_servreq_geteattr 0 0 0 [] []))
    extra_size_PVFS_servreq_geteattr (Rs_geteattr (mk_servresp_geteattr 0 [] []))
    extra_size_PVFS_servresp_geteattr false;
  mkInitCase PVFS_SERV_SETEATTR (Rq_seteattr (mk_servreq_seteattr 0 0 0 0 [] []))
    extra_size_PVFS_servreq_seteattr (Rs_none PVFS_SERV_SETEATTR) 0 false;
  mkInitCase PVFS_SERV_ATOMICEATTR (Rq_atomiceattr (mk_servreq_atomiceattr 0 0 0 0 0 []
    [] [])) extra_size_PVFS_servreq_atomiceattr (Rs_atomiceattr (mk_servresp_atomiceattr 0
    [] [])) extra_size_PVFS_servresp_atomiceattr false;
  mkInitCase PVFS_SERV_DELEATTR (Rq_deleattr (mk_servreq_deleattr 0 0 (mkKeyval [] 0)))
    extra_size_PVFS_servreq_deleattr (Rs_none PVFS_SERV_DELEATTR) 0 false;
  mkInitCase PVFS_SERV_LISTEATTR (Rq_listeattr (mk_servreq_listeattr 0 0 0 0 []))
    extra_size_PVFS_servreq_listeattr (Rs_listeattr (mk_servresp_listeattr 0 0 []))
    extra_size_PVFS_servresp_listeattr false;
  mkInitCase PVFS_SERV_LISTATTR (Rq_listattr (mk_servreq_listattr 0 0 0 []))
    extra_size_PVFS_servreq_listattr (Rs_listattr (mk_servresp_listattr 0 [] []))
    extra_size_PVFS_servresp_listattr false;
  mkInitCase PVFS_SERV_TREE_GET_FILE_SIZE (Rq_tree_get_file_size
    (mk_servreq_tree_get_file_size 0 0 0 (zero_credential memset_credential) 0 []))
    extra_size_PVFS_servreq_tree_get_file_size (Rs_tree_get_file_size
    (mk_servresp_tree_get_file_size 0 0 [] [])) extra_size_PVFS_servresp_tree_get_file_size
    false;
  mkInitCase PVFS_SERV_TREE_GETATTR (Rq_tree_getattr (mk_servreq_tree_getattr 0 0 0
    (zero_credential memset_credential) 0 0 [])) extra_size_PVFS_servreq_tree_getattr
    (Rs_tree_getattr (mk_servresp_tree_getattr 0 0 [] []))
    extra_size_PVFS_servresp_tree_getattr false;
  mkInitCase PVFS_SERV_MGMT_GET_UID (Rq_mgmt_get_uid (mk_servreq_mgmt_get_uid 0)) 0
    (Rs_mgmt_get_uid (mk_servresp_mgmt_get_uid 0 [])) extra_size_PVFS_servresp_mgmt_get_uid
    false;
  mkInitCase PVFS_SERV_TREE_SETATTR (Rq_tree_setattr (mk_servreq_tree_setattr 0
    (zero_credential memset_credential) 0 zero_object_attr 0 0 []))
    extra_size_PVFS_servreq_tree_setattr (Rs_tree_setattr (mk_servresp_tree_setattr 0 0
    [])) extra_size_PVFS_servresp_tree_setattr false;
  mkInitCase PVFS_SERV_MGMT_GET_DIRENT (Rq_mgmt_get_dirent (mk_servreq_mgmt_get_dirent 0
    0 tmp_name)) extra_size_PVFS_servreq_mgmt_get_dirent (Rs_mgmt_get_dirent
    (mk_servresp_mgmt_get_dirent 0 0)) 0 false;
  mkInitCase PVFS_SERV_MGMT_CREATE_ROOT_DIR (Rq_mgmt_create_root_dir
    (mk_servreq_mgmt_create_root_dir 0 0)) 0 (Rs_none PVFS_SERV_MGMT_CREATE_ROOT_DIR) 0
    false;
  mkInitCase PVFS_SERV_MGMT_SPLIT_DIRENT (Rq_mgmt_split_dirent
    (mk_servreq_mgmt_split_dirent 0 0 tmp_dist 0 0 [] []))
    extra_size_PVFS_servreq_mgmt_split_dirent (Rs_none PVFS_SERV_MGMT_SPLIT_DIRENT) 0 false;
  mkInitCase PVFS_SERV_MGMT_GET_USER_CERT (Rq_mgmt_get_user_cert
    (mk_servreq_mgmt_get_user_cert 0 tmp_name 0 [] 0 [] 0))
    extra_size_PVFS_servreq_mgmt_get_user_cert (Rs_mgmt_get_user_cert
    (mk_servresp_mgmt_get_user_cert (mk_certificate 0 [])))
    extra_size_PVFS_servresp_mgmt_get_user_cert false;
  mkInitCase PVFS_SERV_MGMT_GET_USER_CERT_KEYREQ (Rq_mgmt_get_user_cert_keyreq
    (mk_servreq_mgmt_get_user_cert_keyreq 0)) 0 (Rs_mgmt_get_user_cert_keyreq
    (mk_servresp_mgmt_get_user_cert_keyreq (mk_security_key 0 [])))
    extra_size_PVFS_servresp_mgmt_get_user_cert_keyreq false ].

Definition init_cases (tmp_dist : PINT_dist) : list init_case :=
  init_cases_1 tmp_dist ++ init_cases_2 tmp_dist.
