(* ===== verification/LeBytefield.v ===== *)
(** Encoding and decoding of whole messages: src/src/proto/PINT-le-bytefield.c
    and src/src/proto/PINT-reqproto-encode.c.

    A message is a header of eight bytes, the part every request or response
    has, and the member its operation selects.  The sender allocates a buffer
    of the largest size it reckons with for the operation, writes the message
    into it and compares the sizes afterwards; writing past the buffer is
    [Fault BadAccess].  Releasing messages ([lebf_encode_rel],
    [lebf_decode_rel]) only frees memory and is left out. *)

From stdpp Require Import base tactics numbers list strings.
From S2P Require Import Prelude Errors ServerOps Wire DistTable WireTypes Hint WireReq WireResp WireSizes.

#[local] Open Scope codec_scope.

(** * Messages *)

(** The operation of a message is that of its member. *)
Record PVFS_server_req := mk_server_req {
  req_capability : PVFS_capability;
  req_hints : list PINT_hint;
  req_u : servreq;
}.

Record PVFS_server_resp := mk_server_resp {
  resp_status : Z;   (* PVFS_error *)
  resp_u : servresp;
}.

Definition server_req_codec : codec (Z * PVFS_capability * list PINT_hint) :=
  enum <⊗ skip4 ⊗ capability ⊗ hints.

Definition server_resp_codec : codec (Z * Z) := enum ⊗ PVFS_error.

(** Operations that the encoder, or the decoder, names as invalid. *)
Definition invalid_req_ops : list Z :=
  [PVFS_SERV_INVALID; PVFS_SERV_WRITE_COMPLETION; PVFS_SERV_PERF_UPDATE;
   PVFS_SERV_PRECREATE_POOL_REFILLER; PVFS_SERV_JOB_TIMER; PVFS_SERV_NUM_OPS].
Definition invalid_dec_req_ops : list Z := PVFS_SERV_PROTO_ERROR :: invalid_req_ops.
Definition invalid_resp_ops : list Z :=
  [PVFS_SERV_INVALID; PVFS_SERV_PERF_UPDATE; PVFS_SERV_PRECREATE_POOL_REFILLER;
   PVFS_SERV_JOB_TIMER; PVFS_SERV_NUM_OPS].

(** The switch of an encoder: the image of the member and the return value.
    An operation that has no case, like one listed under "nothing else",
    adds nothing. *)
Definition encode_switch {A} (cases : list (Z * codec A)) (invalid : list Z) (op : Z) (b : A)
    (p : Z) : exec (image * Z) :=
  match case_of op cases with
  | Some c => im ← enc c p b; Done (im, 0)
  | None => Done ([], if bool_decide (op ∈ invalid) then - PVFS_ENOSYS else 0)
  end.

(** The switch of a decoder and the comparison of the sizes after it. *)
Definition decode_switch {A} (cases : list (Z * codec A)) (invalid : list Z) (op : Z)
    (none : A) (buf : list Z) (p input_end : Z) : exec (Z * A) :=
  match case_of op cases with
  | Some c =>
      '(b, p1) ← dec c buf p;
      Done (if decide (p1 = input_end) then 0 else - PVFS_EPROTO, b)
  | None =>
      if bool_decide (op ∈ invalid) then Done (- PVFS_EPROTO, none)
      else Done (if decide (p = input_end) then 0 else - PVFS_EPROTO, none)
  end.

(** * Encoding *)

(** The buffer of an encoded message up to the pointer. *)
Record PINT_encoded_msg := mkMsg {
  em_bytes : list Z;
  em_alloc_size : Z;
  em_total_size : Z;
}.

(** [max_size_array]: the largest request and response of each operation.
    Entries that were not filled in are [None]. *)
Abbreviation max_sizes := (list (option (Z * Z))).

Definition max_size (sizes : max_sizes) (op : Z) : exec (Z * Z) :=
  match (if decide (0 ≤ op) then sizes !! Z.to_nat op else None) with
  | Some (Some e) => Done e
  | _ => Fault BadAccess
  end.

Definition PINT_ENC_GENERIC_HEADER_SIZE : Z := 8.

(** Whether everything that is written lies in the first [max] bytes. *)
Definition fits (max : Z) (im : image) : bool :=
  if len im <=? max then true
  else forallb (λ c, negb (present c)) (drop (Z.to_nat max) im).

(** The buffer of [encode_common], with the message in it, and the size check
    that follows. *)
Definition finish_message (max : Z) (im : image) (ret : Z) : exec (Z * option PINT_encoded_msg) :=
  if fits max im then
    let bytes := if len im <=? max then zeroed im else take (Z.to_nat max) (zeroed im) in
    Done (if decide (len im > max) then - PVFS_ENOMEM else ret,
          Some (mkMsg bytes max (len im)))
  else Fault BadAccess.

Section encoder.
(** The table of distributions and the header of every message. *)
Context (t : list PINT_dist) (generic_header : list Z).

Definition encode_PVFS_server_req (r : PVFS_server_req) : exec (image * Z) :=
  i1 ← enc server_req_codec PINT_ENC_GENERIC_HEADER_SIZE
         (req_op (req_u r), req_capability r, req_hints r);
  '(i2, ret) ← encode_switch (servreq_cases t) invalid_req_ops (req_op (req_u r)) (req_u r)
                 (PINT_ENC_GENERIC_HEADER_SIZE + len i1);
  Done (i1 ++ i2, ret).

(** [buf]: whether [BMI_memalloc] gave a buffer. *)
Definition lebf_encode_req (sizes : max_sizes) (buf : bool) (r : PVFS_server_req)
    : exec (Z * option PINT_encoded_msg) :=
  '(max, _) ← max_size sizes (req_op (req_u r));
  if buf then
    '(im, ret) ← encode_PVFS_server_req r;
    finish_message max (cells generic_header ++ im) ret
  else Done (- PVFS_ENOMEM, None).

Definition encode_PVFS_server_resp (r : PVFS_server_resp) : exec (image * Z) :=
  i1 ← enc server_resp_codec PINT_ENC_GENERIC_HEADER_SIZE (resp_op (resp_u r), resp_status r);
  if decide (resp_status r = 0) then
    '(i2, ret) ← encode_switch (servresp_cases t) invalid_resp_ops (resp_op (resp_u r))
                   (resp_u r) (PINT_ENC_GENERIC_HEADER_SIZE + len i1);
    Done (i1 ++ i2, ret)
  else Done (i1, 0).

Definition lebf_encode_resp (sizes : max_sizes) (buf : bool) (r : PVFS_server_resp)
    : exec (Z * option PINT_encoded_msg) :=
  '(_, max) ← max_size sizes (resp_op (resp_u r));
  if buf then
    '(im, ret) ← encode_PVFS_server_resp r;
    finish_message max (cells generic_header ++ im) ret
  else Done (- PVFS_ENOMEM, None).

(** * Sizes *)

Definition size_of (m : Z * option PINT_encoded_msg) : exec Z :=
  match snd m with Some msg => Done (em_total_size msg) | None => Fault BadAccess end.

Definition check_req_size (sizes : max_sizes) (r : PVFS_server_req) : exec Z :=
  m ← lebf_encode_req sizes true r; size_of m.

Definition check_resp_size (sizes : max_sizes) (r : PVFS_server_resp) : exec Z :=
  m ← lebf_encode_resp sizes true r; size_of m.

Definition init_big_size : Z := 4 * 1024 * 1024.

(** One turn of the loop over the operations. *)
Definition init_entry (hs : list PINT_hint) (sizes : max_sizes) (c : init_case)
    : exec max_sizes :=
  let op := Z.to_nat (in_op c) in
  let sizes := <[op := Some (init_big_size, init_big_size)]> sizes in
  reqsize ←
    (if noreq c then Done 0
     else
       n ← check_req_size sizes (mk_server_req (zero_capability memset_capability) hs (in_req c));
       Done (in_reqsize c + extra_size_PVFS_servreq + n));
  n ← check_resp_size sizes (mk_server_resp 0 (in_resp c));
  Done (<[op := Some (reqsize, in_respsize c + n)]> sizes).

Fixpoint init_loop (hs : list PINT_hint) (cases : list init_case) (ops : list Z)
    (sizes : max_sizes) : exec max_sizes :=
  match ops with
  | [] => Done sizes
  | op :: ops =>
      match list_find (λ c, in_op c = op) cases with
      | Some (_, c) => sizes1 ← init_entry hs sizes c; init_loop hs cases ops sizes1
      | None => init_loop hs cases ops sizes   (* never used, skip initialization *)
      end
  end.
End encoder.

Definition PVFS_HINT_MAX : nat := 24.
Definition PVFS_HINT_MAX_LENGTH : nat := 1024.

(** The hints of the measured requests: [PVFS_HINT_MAX] times an empty name
    with a value of zeros. *)
Fixpoint init_hints (n : nat) (hs : list PINT_hint) : list PINT_hint :=
  match n with
  | O => hs
  | S n => init_hints n (fst (PVFS_hint_add hs [] (replicate PVFS_HINT_MAX_LENGTH 0)))
  end.

(** Without the basic distribution the process exits. *)
Definition lebf_initialize (t : list PINT_dist) (generic_header : list Z) : exec max_sizes :=
  match PINT_dist_lookup t (mkTemplate (Some (zs "basic_dist")) None None None) with
  | (mkTemplate (Some name) (Some (ns, ps)) (Some p) (Some m), 0) =>
      init_loop t generic_header (init_hints PVFS_HINT_MAX [])
        (init_cases (mkDist name ns ps p m))
        (Z.of_nat <$> seq 0 (Z.to_nat PVFS_SERV_NUM_OPS))
        (replicate (Z.to_nat PVFS_SERV_NUM_OPS) None)
  | _ => Fault AssertFailed
  end.

Definition PINT_ENCODE_REQ : Z := 1.
Definition PINT_ENCODE_RESP : Z := 2.

Definition lebf_encode_calc_max_size (sizes : max_sizes) (input_type op_type : Z) : exec Z :=
  if decide (input_type = PINT_ENCODE_REQ) then '(n, _) ← max_size sizes op_type; Done n
  else if decide (input_type = PINT_ENCODE_RESP) then '(_, n) ← max_size sizes op_type; Done n
  else Done (- PVFS_EINVAL).

(** * Decoding *)

(** [input_size] counts from the end of the header. *)
Definition lebf_decode_req (t : list PINT_dist) (buf : list Z) (input_size : Z)
    : exec (Z * PVFS_server_req) :=
  '((op, cap, hs), p) ← dec server_req_codec buf PINT_ENC_GENERIC_HEADER_SIZE;
  '(ret, b) ← decode_switch (servreq_cases t) invalid_dec_req_ops op (Rq_none op) buf p
                (PINT_ENC_GENERIC_HEADER_SIZE + input_size);
  Done (ret, mk_server_req cap hs b).

Definition lebf_decode_resp (t : list PINT_dist) (buf : list Z) (input_size : Z)
    : exec (Z * PVFS_server_resp) :=
  '((op, status), p) ← dec server_resp_codec buf PINT_ENC_GENERIC_HEADER_SIZE;
  if decide (status ≠ 0) then Done (0, mk_server_resp status (Rs_none op))
  else
    '(ret, b) ← decode_switch (servresp_cases t) invalid_resp_ops op (Rs_none op) buf p
                  (PINT_ENC_GENERIC_HEADER_SIZE + input_size);
    Done (ret, mk_server_resp status b).

(** * The encoding interface *)

Definition ENCODING_LE_BFIELD : Z := 2.
Definition PVFS2_PROTO_MAJOR : Z := 7.
Definition PVFS2_PROTO_MINOR : Z := 0.
Definition PVFS2_PROTO_VERSION : Z := PVFS2_PROTO_MAJOR * 1000 + PVFS2_PROTO_MINOR.

(** [PINT_encoding_table] by the [enc_type] of its entries, and what the entry
    of the little endian bytefield encoding holds. *)
Record encoder := mkEncoder {
  encoding_table : list (option Z);
  generic_header : list Z;
  max_size_array : max_sizes;
}.

(** The header is set after the sizes have been measured. *)
Definition PINT_encode_initialize (t : list PINT_dist) : exec (encoder * Z) :=
  sizes ← lebf_initialize t (replicate 8 0);
  Done (mkEncoder [None; None; Some ENCODING_LE_BFIELD; None; None]
          (Z_to_little_endian 4 8 PVFS2_PROTO_VERSION ++
           Z_to_little_endian 4 8 ENCODING_LE_BFIELD) sizes, 0).

Inductive message := M_req (r : PVFS_server_req) | M_resp (r : PVFS_server_resp).

Definition registered (e : encoder) (enc_type : Z) : bool :=
  match encoding_table e !! Z.to_nat enc_type with Some (Some _) => true | _ => false end.

Definition PINT_encode (t : list PINT_dist) (e : encoder) (buf : bool) (input : message)
    (enc_type : Z) : exec (Z * option PINT_encoded_msg) :=
  if decide (enc_type = ENCODING_LE_BFIELD) then
    if registered e enc_type then
      match input with
      | M_req r => lebf_encode_req t (generic_header e) (max_size_array e) buf r
      | M_resp r => lebf_encode_resp t (generic_header e) (max_size_array e) buf r
      end
    else Fault BadAccess
  else Done (- PVFS_EINVAL, None).

Definition PINT_encode_calc_max_size (e : encoder) (input_type op_type enc_type : Z) : exec Z :=
  if decide (enc_type = ENCODING_LE_BFIELD) then
    if registered e enc_type then
      lebf_encode_calc_max_size (max_size_array e) input_type op_type
    else Fault BadAccess
  else Done (- PVFS_EINVAL).

(** [d_enc_type] is -1 until the header has been accepted. *)
Record PINT_decoded_msg := mkDecoded {
  d_enc_type : Z;
  d_stub : option message;
}.
Definition rejected : PINT_decoded_msg := mkDecoded (-1) None.

Definition PINT_decode (t : list PINT_dist) (e : encoder) (buf : list Z) (input_type : Z)
    : exec (Z * PINT_decoded_msg) :=
  let size := len buf in
  let size_index := i32 (i32 size - PINT_ENC_GENERIC_HEADER_SIZE) in
  if decide (size < PINT_ENC_GENERIC_HEADER_SIZE) then Done (- PVFS_EPROTO, rejected)
  else
    '(proto_ver_recved, _) ← dec int32_t buf 0;
    '(enc_type_recved, _) ← dec int32_t buf 4;
    let proto_major_recved := Z.quot proto_ver_recved 1000 in
    let proto_minor_recved := proto_ver_recved - proto_major_recved * 1000 in
    if decide (enc_type_recved ≠ ENCODING_LE_BFIELD) then
      Done (- PVFS_EPROTONOSUPPORT, rejected)
    else if decide (proto_major_recved ≠ PVFS2_PROTO_MAJOR) then
      Done (- PVFS_EPROTONOSUPPORT, rejected)
    else if decide (input_type = PINT_ENCODE_REQ ∧ proto_minor_recved > PVFS2_PROTO_MINOR) then
      Done (- PVFS_EPROTONOSUPPORT, rejected)
    else if decide (input_type = PINT_ENCODE_RESP ∧ proto_minor_recved < PVFS2_PROTO_MINOR) then
      Done (- PVFS_EPROTONOSUPPORT, rejected)
    else if bool_decide (Some enc_type_recved ∈ encoding_table e) then
      if decide (input_type = PINT_ENCODE_REQ) then
        '(ret, r) ← lebf_decode_req t buf size_index;
        Done (ret, mkDecoded enc_type_recved (Some (M_req r)))
      else if decide (input_type = PINT_ENCODE_RESP) then
        '(ret, r) ← lebf_decode_resp t buf size_index;
        Done (ret, mkDecoded enc_type_recved (Some (M_resp r)))
      else Done (- PVFS_EINVAL, mkDecoded enc_type_recved None)
    else Done (- PVFS_EPROTONOSUPPORT, rejected).

(** * What arrives *)

(** A request that can be sent and understood: its fields are values of their
    types, and an operation without a member is one both sides accept. *)
Definition req_ok (t : list PINT_dist) (r : PVFS_server_req) : bool :=
  ok server_req_codec (req_op (req_u r), req_capability r, req_hints r) &&
  match case_of (req_op (req_u r)) (servreq_cases t) with
  | Some c => ok c (req_u r)
  | None => bool_decide (req_op (req_u r) ∉ invalid_dec_req_ops)
  end.

(** The hints that are not transferred are lost and the others are reversed;
    the pieces of a small write arrive as one. *)
Definition received_req (r : PVFS_server_req) : PVFS_server_req :=
  mk_server_req (req_capability r) (received_hints (req_hints r)) (received_body (req_u r)).

Definition resp_ok (t : list PINT_dist) (r : PVFS_server_resp) : bool :=
  ok server_resp_codec (resp_op (resp_u r), resp_status r) &&
  (if decide (resp_status r = 0) then
     match case_of (resp_op (resp_u r)) (servresp_cases t) with
     | Some c => ok c (resp_u r)
     | None => bool_decide (resp_op (resp_u r) ∉ invalid_resp_ops)
     end
   else true).

(** A response that reports an error carries nothing else. *)
Definition received_resp (r : PVFS_server_resp) : PVFS_server_resp :=
  mk_server_resp (resp_status r)
    (if decide (resp_status r = 0) then received_resp_body (resp_u r)
     else Rs_none (resp_op (resp_u r))).

(** * Proofs *)

Lemma server_req_receives :
  Receives server_req_codec (λ '(op, cap, hs), (op, cap, received_hints hs)).
Proof.
  unfold server_req_codec. eapply receives_ext;
    [|apply (dep_receives _ _ (λ _, received_hints)); [apply _|intros; apply hints_receives]].
  by intros [[]].
Qed.

Lemma server_resp_lawful : Lawful server_resp_codec.
Proof. unfold server_resp_codec. apply _. Qed.

(** An operation without a case has no member. *)
Lemma no_case_req t b : case_of (req_op b) (servreq_cases t) = None → received_body b = Rq_none (req_op b).
Proof. by destruct b. Qed.

Lemma no_case_resp t b :
  case_of (resp_op b) (servresp_cases t) = None → received_resp_body b = Rs_none (resp_op b).
Proof. by destruct b. Qed.

Lemma case_of_elem {A} op (cases : list (Z * codec A)) c :
  case_of op cases = Some c → (op, c) ∈ cases.
Proof.
  unfold case_of. destruct (list_find _ cases) as [[i [o d]]|] eqn:E; [|done]. cbn.
  intros [= <-]. apply list_find_Some in E as (E & <- & _). by eapply list_elem_of_lookup_2.
Qed.

(** What one switch writes the other one reads. *)
Lemma switch_receives {A} (cases : list (Z * codec A)) (f : A → A) inv_enc inv_dec op b none p :
  Forall (λ c, Receives (snd c) f) cases →
  (case_of op cases = None → f b = none) →
  (∀ o, o ∈ inv_enc → o ∈ inv_dec) →
  match case_of op cases with
  | Some c => ok c b
  | None => bool_decide (op ∉ inv_dec)
  end = true →
  0 ≤ p →
  ∃ im, encode_switch cases inv_enc op b p = Done (im, 0) ∧ Forall cell_ok im ∧
    ∀ pre post input_end, len pre = p →
      decode_switch cases inv_dec op none (pre ++ zeroed im ++ post) p input_end =
      Done (if decide (p + len im = input_end) then 0 else - PVFS_EPROTO, f b).
Proof.
  intros HF Hnone Hinv Hok Hp. unfold encode_switch, decode_switch.
  destruct (case_of op cases) as [c|] eqn:Ec.
  - apply case_of_elem in Ec. rewrite Forall_forall in HF.
    destruct (HF _ Ec b p Hp Hok) as (im & E & C & D). cbn [snd] in E, D.
    exists im. rewrite E. split; [done|]. split; [done|]. intros pre post n Hpre.
    by rewrite D.
  - apply bool_decide_eq_true in Hok. exists []. rewrite bool_decide_false by auto.
    split; [done|]. split; [constructor|]. intros. rewrite bool_decide_false by done.
    cbn. by rewrite Z.add_0_r, Hnone.
Qed.

(** The image of a good request, and what the decoder makes of it. *)
Lemma request_image t r :
  req_ok t r = true →
  ∃ im, encode_PVFS_server_req t r = Done (im, 0) ∧ Forall cell_ok im ∧
    ∀ pre post n, len pre = PINT_ENC_GENERIC_HEADER_SIZE →
      lebf_decode_req t (pre ++ zeroed im ++ post) n =
      Done (if decide (len im = n) then 0 else - PVFS_EPROTO, received_req r).
Proof.
  intros [Hh Hb]%andb_true_iff.
  destruct (server_req_receives _ PINT_ENC_GENERIC_HEADER_SIZE ltac:(done) Hh)
    as (i1 & E1 & C1 & D1).
  destruct (switch_receives (servreq_cases t) received_body invalid_req_ops invalid_dec_req_ops
    (req_op (req_u r)) (req_u r) (Rq_none (req_op (req_u r)))
    (PINT_ENC_GENERIC_HEADER_SIZE + len i1)) as (i2 & E2 & C2 & D2); auto.
  { apply servreq_cases_receive. }
  { apply no_case_req. }
  { intros. by apply list_elem_of_further. }
  { unfold PINT_ENC_GENERIC_HEADER_SIZE. lia. }
  exists (i1 ++ i2). unfold encode_PVFS_server_req, lebf_decode_req. rewrite E1.
  cbn [mbind exec_bind]. rewrite E2. cbn [mbind exec_bind]. split; [done|].
  split; [by apply Forall_app|]. intros pre post n Hpre.
  rewrite zeroed_app, <- app_assoc, D1 by done. cbn [mbind exec_bind].
  rewrite app_assoc, D2 by (rewrite length_app, length_zeroed; lia). cbn [mbind exec_bind].
  unfold received_req. do 3 f_equal. rewrite length_app. repeat case_decide; lia || done.
Qed.

Lemma response_image t r :
  resp_ok t r = true →
  ∃ im, encode_PVFS_server_resp t r = Done (im, 0) ∧ Forall cell_ok im ∧
    ∀ pre post n, len pre = PINT_ENC_GENERIC_HEADER_SIZE →
      lebf_decode_resp t (pre ++ zeroed im ++ post) n =
      Done (if decide (resp_status r ≠ 0 ∨ len im = n) then 0 else - PVFS_EPROTO,
            received_resp r).
Proof.
  intros [Hh Hb]%andb_true_iff.
  destruct (server_resp_lawful _ PINT_ENC_GENERIC_HEADER_SIZE ltac:(done) Hh)
    as (i1 & E1 & C1 & D1).
  unfold encode_PVFS_server_resp, lebf_decode_resp, received_resp. rewrite E1.
  cbn [mbind exec_bind]. destruct (decide (resp_status r = 0)) as [Hs|Hs].
  2: { exists i1. split; [done|]. split; [done|]. intros pre post n Hpre.
       rewrite D1 by done. cbn [mbind exec_bind]. rewrite !decide_True by auto. done. }
  destruct (switch_receives (servresp_cases t) received_resp_body invalid_resp_ops
    invalid_resp_ops (resp_op (resp_u r)) (resp_u r) (Rs_none (resp_op (resp_u r)))
    (PINT_ENC_GENERIC_HEADER_SIZE + len i1)) as (i2 & E2 & C2 & D2); auto.
  { apply servresp_cases_receive. }
  { apply no_case_resp. }
  { unfold PINT_ENC_GENERIC_HEADER_SIZE. lia. }
  exists (i1 ++ i2). rewrite E2. cbn [mbind exec_bind]. split; [done|].
  split; [by apply Forall_app|]. intros pre post n Hpre.
  rewrite zeroed_app, <- app_assoc, D1 by done. cbn [mbind exec_bind].
  rewrite decide_False by tauto.
  rewrite app_assoc, D2 by (rewrite length_app, length_zeroed; lia). cbn [mbind exec_bind].
  do 3 f_equal. rewrite length_app. repeat case_decide; lia || tauto.
Qed.

Definition header_bytes : list Z :=
  Z_to_little_endian 4 8 PVFS2_PROTO_VERSION ++ Z_to_little_endian 4 8 ENCODING_LE_BFIELD.

Lemma initialize_ready t e :
  PINT_encode_initialize t = Done (e, 0) →
  encoding_table e = [None; None; Some ENCODING_LE_BFIELD; None; None] ∧
  generic_header e = header_bytes.
Proof.
  unfold PINT_encode_initialize. destruct (lebf_initialize _ _); [|done].
  by intros [= <-].
Qed.

(** A message that starts with the header of this version reaches the decoder
    of its kind. *)
Lemma decode_header t e body :
  PINT_encode_initialize t = Done (e, 0) →
  len body + PINT_ENC_GENERIC_HEADER_SIZE < B31 →
  PINT_decode t e (header_bytes ++ body) PINT_ENCODE_REQ =
    ('(ret, r) ← lebf_decode_req t (header_bytes ++ body) (len body);
     Done (ret, mkDecoded ENCODING_LE_BFIELD (Some (M_req r)))) ∧
  PINT_decode t e (header_bytes ++ body) PINT_ENCODE_RESP =
    ('(ret, r) ← lebf_decode_resp t (header_bytes ++ body) (len body);
     Done (ret, mkDecoded ENCODING_LE_BFIELD (Some (M_resp r)))).
Proof.
  intros [Ht _]%initialize_ready Hlen. unfold PINT_ENC_GENERIC_HEADER_SIZE in *.
  assert (len (header_bytes ++ body) = 8 + len body) as Hl
    by (rewrite length_app, Nat2Z.inj_add; done).
  assert (dec int32_t (header_bytes ++ body) 0 = Done (PVFS2_PROTO_VERSION, 4)) as E1.
  { cbn [dec int32_t sint]. unfold header_bytes. rewrite <- app_assoc.
    pose proof (peek_mid [] (Z_to_little_endian 4 8 PVFS2_PROTO_VERSION)
      (Z_to_little_endian 4 8 ENCODING_LE_BFIELD ++ body) 0 4 eq_refl eq_refl) as E.
    cbn [app] in E. by rewrite E. }
  assert (dec int32_t (header_bytes ++ body) 4 = Done (ENCODING_LE_BFIELD, 8)) as E2.
  { cbn [dec int32_t sint]. unfold header_bytes. rewrite <- app_assoc.
    rewrite (peek_mid _ (Z_to_little_endian 4 8 ENCODING_LE_BFIELD)) by done. done. }
  unfold PINT_decode. rewrite E1, E2, Hl, Ht. cbn [mbind exec_bind].
  unfold PINT_ENC_GENERIC_HEADER_SIZE.
  rewrite !(decide_False (P := 8 + len body < 8)) by lia.
  rewrite (i32_id (8 + len body)) by lia. replace (8 + len body - 8) with (len body) by lia.
  rewrite i32_id by lia. split; reflexivity.
Qed.

(** The buffer of a message that does not outgrow it. *)
Lemma finish_fits max im ret :
  len im ≤ max → finish_message max im ret = Done (ret, Some (mkMsg (zeroed im) max (len im))).
Proof.
  intros H. unfold finish_message, fits. rewrite (proj2 (Z.leb_le _ _) H).
  by rewrite decide_False by lia.
Qed.

(** A message that outgrows its buffer is refused if all that lies beyond is
    skipped, and written past the end otherwise. *)
Lemma finish_outgrown max im ret :
  max < len im →
  finish_message max im ret =
    if forallb (λ c, negb (present c)) (drop (Z.to_nat max) im)
    then Done (- PVFS_ENOMEM, Some (mkMsg (take (Z.to_nat max) (zeroed im)) max (len im)))
    else Fault BadAccess.
Proof.
  intros H. unfold finish_message, fits. rewrite (proj2 (Z.leb_gt _ _) H).
  by rewrite decide_True by lia.
Qed.

Lemma zeroed_bytes im : Forall cell_ok im → Forall (λ b, 0 ≤ b < 256) (zeroed im).
Proof.
  intros H. unfold zeroed. rewrite Forall_fmap. eapply Forall_impl; [done|].
  intros [b|]; cbn; lia.
Qed.

(** * Messages sent and received *)

Section delivery.
Context (t : list PINT_dist) (e : encoder).
Context (Hinit : PINT_encode_initialize t = Done (e, 0)).

Lemma encode_ready m :
  PINT_encode t e true m ENCODING_LE_BFIELD =
  match m with
  | M_req r => lebf_encode_req t header_bytes (max_size_array e) true r
  | M_resp r => lebf_encode_resp t header_bytes (max_size_array e) true r
  end.
Proof.
  destruct (initialize_ready t e Hinit) as [Ht Hg]. unfold PINT_encode, registered.
  rewrite Ht, Hg. by rewrite decide_True.
Qed.

(** What holds of a message with image [im] and room for [max] bytes.  If it
    fits it is encoded, and decoded to [m'].  If it does not, the size check
    after the encoding refuses it, but only if nothing but padding lies
    beyond the room: a byte there has been written past the buffer before. *)
Definition delivered (m m' : message) (input_type max : Z) (im : image) : Prop :=
  (len (header_bytes ++ zeroed im) ≤ max →
     PINT_encode t e true m ENCODING_LE_BFIELD =
       Done (0, Some (mkMsg (header_bytes ++ zeroed im) max (len (header_bytes ++ zeroed im)))) ∧
     Forall (λ b, 0 ≤ b < 256) (header_bytes ++ zeroed im) ∧
     PINT_decode t e (header_bytes ++ zeroed im) input_type =
       Done (0, mkDecoded ENCODING_LE_BFIELD (Some m'))) ∧
  (max < len (header_bytes ++ zeroed im) →
     ((∀ c, c ∈ drop (Z.to_nat max) (cells header_bytes ++ im) → c = None) →
        ∃ msg, PINT_encode t e true m ENCODING_LE_BFIELD = Done (- PVFS_ENOMEM, Some msg)) ∧
     (∀ b, Some b ∈ drop (Z.to_nat max) (cells header_bytes ++ im) →
        PINT_encode t e true m ENCODING_LE_BFIELD = Fault BadAccess)).

Lemma header_cells im :
  zeroed (cells header_bytes ++ im) = header_bytes ++ zeroed im ∧
  len (cells header_bytes ++ im) = len (header_bytes ++ zeroed im).
Proof.
  rewrite zeroed_app, zeroed_cells, !length_app, length_cells, length_zeroed. done.
Qed.

Lemma deliver m m' input_type max im :
  max < B31 → Forall cell_ok im →
  PINT_encode t e true m ENCODING_LE_BFIELD =
    finish_message max (cells header_bytes ++ im) 0 →
  (len (header_bytes ++ zeroed im) ≤ max →
   PINT_decode t e (header_bytes ++ zeroed im) input_type =
     Done (0, mkDecoded ENCODING_LE_BFIELD (Some m'))) →
  delivered m m' input_type max im.
Proof.
  intros Hmax Hc He Hd. destruct (header_cells im) as (Hz & Hl).
  split; rewrite He; intros H.
  - rewrite finish_fits, Hz, Hl by lia. split; [done|]. split; [|auto].
    apply Forall_app. split; [|by apply zeroed_bytes]. by repeat constructor.
  - rewrite finish_outgrown by lia. split.
    + intros Hpad. eexists. rewrite (proj2 (forallb_forall _ _)); [done|].
      intros c Hin%list_elem_of_In. by rewrite (Hpad c Hin).
    + intros b Hb. destruct (forallb _ _) eqn:Hf; [|done].
      rewrite forallb_forall in Hf. by specialize (Hf (Some b) (proj1 (list_elem_of_In _ _) Hb)).
Qed.

Lemma header_body_len im max :
  len (header_bytes ++ zeroed im) ≤ max → max < B31 →
  len (zeroed im) + PINT_ENC_GENERIC_HEADER_SIZE < B31.
Proof.
  rewrite length_app, Nat2Z.inj_add. change (len header_bytes) with 8.
  unfold PINT_ENC_GENERIC_HEADER_SIZE. lia.
Qed.

(** The bytes of a well-formed request decode to what arrives of it. *)
Lemma request_decoded r :
  req_ok t r = true →
  ∃ im, encode_PVFS_server_req t r = Done (im, 0) ∧ Forall cell_ok im ∧
    (len (header_bytes ++ zeroed im) < B31 →
     PINT_decode t e (header_bytes ++ zeroed im) PINT_ENCODE_REQ =
       Done (0, mkDecoded ENCODING_LE_BFIELD (Some (M_req (received_req r))))).
Proof.
  intros Hok. destruct (request_image t r Hok) as (im & E & C & D).
  exists im. split; [done|]. split; [done|]. intros Hfit.
  assert (len (zeroed im) + PINT_ENC_GENERIC_HEADER_SIZE < B31) as Hl.
  { rewrite length_app, Nat2Z.inj_add in Hfit. change (len header_bytes) with 8 in Hfit.
    unfold PINT_ENC_GENERIC_HEADER_SIZE. lia. }
  destruct (decode_header t e (zeroed im) Hinit Hl) as [-> _].
  pose proof (D header_bytes [] (len (zeroed im)) eq_refl) as Hd. rewrite app_nil_r in Hd.
  rewrite Hd. rewrite decide_True; [done|]. by rewrite length_zeroed.
Qed.

(** C11. Requests survive the network.  A well-formed request has an image; if
    header and image fit in the room for its operation, [PINT_encode] returns
    0 with exactly these bytes, and [PINT_decode] of them on a server with
    the same distributions returns 0 and the same request, with the hints
    that are not marked for transfer dropped and the others reversed, and
    with the pieces of a small write put together.  A request that does not
    fit is refused with -PVFS_ENOMEM if nothing but padding lies beyond the
    room, and is written past the end of the buffer otherwise. *)
Theorem request_delivered r max rmax :
  req_ok t r = true →
  max_size (max_size_array e) (req_op (req_u r)) = Done (max, rmax) → max < B31 →
  ∃ im, encode_PVFS_server_req t r = Done (im, 0) ∧
    delivered (M_req r) (M_req (received_req r)) PINT_ENCODE_REQ max im.
Proof.
  intros Hok Hsz Hmax. destruct (request_decoded r Hok) as (im & E & C & D).
  exists im. split; [done|]. apply deliver; [done|done| |].
  - rewrite encode_ready. unfold lebf_encode_req. rewrite Hsz. cbn [mbind exec_bind].
    by rewrite E.
  - intros Hfit. apply D. lia.
Qed.

(** C12. Responses survive the network, in the same sense.  A response whose
    status is an error arrives with its operation and its status and without
    a member; a small read arrives with the bytes that were read. *)
Theorem response_delivered r qmax max :
  resp_ok t r = true →
  max_size (max_size_array e) (resp_op (resp_u r)) = Done (qmax, max) → max < B31 →
  ∃ im, encode_PVFS_server_resp t r = Done (im, 0) ∧
    delivered (M_resp r) (M_resp (received_resp r)) PINT_ENCODE_RESP max im.
Proof.
  intros Hok Hsz Hmax. destruct (response_image t r Hok) as (im & E & C & D).
  exists im. split; [done|]. apply deliver; [done|done| |].
  - rewrite encode_ready. unfold lebf_encode_resp. rewrite Hsz. cbn [mbind exec_bind].
    by rewrite E.
  - intros Hfit. destruct (decode_header t e (zeroed im) Hinit) as [_ ->];
      [by eapply header_body_len|].
    pose proof (D header_bytes [] (len (zeroed im)) eq_refl) as Hd. rewrite app_nil_r in Hd.
    rewrite Hd. rewrite decide_True; [done|]. right. by rewrite length_zeroed.
Qed.

(** Trailing bytes are an error: a request followed by anything that does
    not belong to it is refused with -PVFS_EPROTO. *)
Theorem trailing_bytes_refused r im rest :
  req_ok t r = true → encode_PVFS_server_req t r = Done (im, 0) →
  rest ≠ [] → len (zeroed im ++ rest) + PINT_ENC_GENERIC_HEADER_SIZE < B31 →
  ∃ d, PINT_decode t e (header_bytes ++ zeroed im ++ rest) PINT_ENCODE_REQ =
         Done (- PVFS_EPROTO, d).
Proof.
  intros Hok E Hrest Hlen. destruct (request_image t r Hok) as (im' & E' & _ & D).
  rewrite E in E'. injection E' as <-.
  destruct (decode_header t e (zeroed im ++ rest) Hinit Hlen) as [-> _].
  rewrite (D header_bytes rest) by done. rewrite decide_False; [by eexists|].
  rewrite length_app, length_zeroed. destruct rest; [done|]. cbn [length]. lia.
Qed.
End delivery.
