(* ===== verification/LeBytefieldSpec.v ===== *)
(** What the message layer promises with the distributions that
    [PINT_dist_initialize] registers: the sizes it reserves, the protocol
    versions it accepts, messages that are too large, and concrete messages
    for the theorems of [LeBytefield]. *)

From stdpp Require Import base tactics numbers list strings.
From S2P Require Import Prelude Errors ServerOps Wire DistTable WireTypes Hint WireReq WireResp WireSizes LeBytefield.

(** * The standard encoder *)

Definition standard_dists : list PINT_dist := table initialized.

(** [max_size_array] as [lebf_initialize] leaves it: requests, responses. *)
Definition standard_sizes : max_sizes := [
  None; Some (56992, 34512); Some (9432, 16); Some (22424, 24);
  Some (18400, 34500); Some (52884, 16); Some (22512, 8224); Some (9724, 16);
  Some (9656, 24); Some (9664, 24); Some (9400, 16); Some (69296, 8896);
  Some (9400, 139304); Some (9372, 65568); Some (0, 24); Some (9388, 16);
  Some (9392, 16); Some (9372, 16); Some (9376, 104); None;
  Some (9388, 8240); Some (9392, 8224); Some (17572, 40984); Some (9376, 81944);
  Some (9384, 16); Some (9660, 16); Some (9384, 24); None;
  Some (9372, 16); Some (9772, 131160); Some (144564, 16); Some (9648, 16);
  Some (9528, 4128); Some (25916, 16424); Some (9868, 2066424); Some (25780, 65560);
  Some (17572, 16); None; Some (18400, 34500); Some (21708, 8224);
  Some (9372, 16); Some (17624, 4124); Some (26588, 12312); Some (9376, 1224);
  Some (52112, 4124); Some (9656, 28); Some (9384, 16); Some (287940, 16);
  Some (144692, 131160); Some (26592, 8216); Some (26300, 8216); Some (9376, 8216) ].

Definition standard_encoder : encoder :=
  mkEncoder [None; None; Some ENCODING_LE_BFIELD; None; None] header_bytes standard_sizes.

Lemma standard_initialize : PINT_encode_initialize standard_dists = Done (standard_encoder, 0).
Proof. vm_compute. reflexivity. Qed.

(** * Sample messages *)

Definition sample_capability : PVFS_capability :=
  mk_capability (Some (zs "s0")) 9 3 [1; 2; 255] 77 5 2 [1048576; 2 ^ 64 - 1].

(** A small write of two pieces of a buffer, with a hint that is sent, one
    that is not known and one that stays at home. *)
Definition sample_write : PVFS_server_req :=
  mk_server_req sample_capability
    (fst (PVFS_hint_add (fst (PVFS_hint_add (fst (PVFS_hint_add []
       (zs "pvfs.hint.request_id") [1; 0; 0; 0])) (zs "user.note") (zs "hello" ++ [0])))
       (zs "pvfs.hint.rank") [3; 0; 0; 0]))
    (Rq_small_io (mk_servreq_small_io 4096 9 PVFS_IO_WRITE 1 4 simple_stripe_dist
       (Some [mk_packed_request_codec 0 1 1 0 1 0 1 1 1 0 (-1) 1 (B32 - 1) (B32 - 1)])
       0 5 5 [(6, 2); (0, 3)] [10; 11; 12; 13; 14; 15; 16; 17])).

Definition sample_read : PVFS_server_resp :=
  mk_server_resp 0 (Rs_small_io (mk_servresp_small_io PVFS_IO_READ 100 3 (Some [7; 8; 9; 10]))).

Lemma request_delivered_witness :
  ∃ im, encode_PVFS_server_req standard_dists sample_write = Done (im, 0) ∧
    delivered standard_dists standard_encoder (M_req sample_write)
      (M_req (received_req sample_write)) PINT_ENCODE_REQ 25916 im.
Proof.
  apply (request_delivered standard_dists standard_encoder standard_initialize
    sample_write 25916 16424); vm_compute; reflexivity.
Defined.

Lemma response_delivered_witness :
  ∃ im, encode_PVFS_server_resp standard_dists sample_read = Done (im, 0) ∧
    delivered standard_dists standard_encoder (M_resp sample_read)
      (M_resp (received_resp sample_read)) PINT_ENCODE_RESP 16424 im.
Proof.
  apply (response_delivered standard_dists standard_encoder standard_initialize
    sample_read 25916 16424); vm_compute; reflexivity.
Defined.

Definition sample_noop : PVFS_server_req :=
  mk_server_req sample_capability [] (Rq_none PVFS_SERV_MGMT_NOOP).
Definition sample_noop_image : image :=
  match encode_PVFS_server_req standard_dists sample_noop with Done (im, _) => im | _ => [] end.

Lemma trailing_bytes_refused_witness :
  ∃ d, PINT_decode standard_dists standard_encoder
         (header_bytes ++ zeroed sample_noop_image ++ [0]) PINT_ENCODE_REQ =
       Done (- PVFS_EPROTO, d).
Proof.
  apply (trailing_bytes_refused standard_dists standard_encoder standard_initialize
    sample_noop sample_noop_image [0]); [vm_compute; reflexivity..|done|vm_compute; reflexivity].
Defined.

(** * Sizes *)

Definition unused_ops : list Z :=
  [PVFS_SERV_INVALID; PVFS_SERV_PERF_UPDATE; PVFS_SERV_PRECREATE_POOL_REFILLER;
   PVFS_SERV_JOB_TIMER].

(** What the entry of an operation has to be. *)
Definition entry_sound (sizes : max_sizes) (op : Z) : Prop :=
  match max_size sizes op with
  | Fault _ => (op ∈ unused_ops)
  | Done (req, resp) =>
      (op ∉ unused_ops) ∧ 16 ≤ resp < init_big_size ∧
      ((op = PVFS_SERV_WRITE_COMPLETION ∧ req = 0) ∨
       (op ≠ PVFS_SERV_WRITE_COMPLETION ∧ extra_size_PVFS_servreq ≤ req < init_big_size))
  end.

#[export] Instance entry_sound_dec sizes op : Decision (entry_sound sizes op).
Proof. unfold entry_sound. destruct (max_size sizes op) as [[]|]; apply _. Defined.

(** Start-up succeeds with the standard distributions and its measuring
    is sound: every operation gets its two sizes, except the four that are
    skipped; the buffers used while measuring were large enough for all of
    them; a response has room for its header, its operation and its status;
    and a request has room for the largest capability, except for
    WRITE_COMPLETION, which has no request. *)
Theorem sizes_sound :
  ∃ e, PINT_encode_initialize standard_dists = Done (e, 0) ∧
    ∀ op, 0 ≤ op < PVFS_SERV_NUM_OPS → entry_sound (max_size_array e) op.
Proof.
  exists standard_encoder. split; [apply standard_initialize|]. intros op Hop.
  assert (Forall (entry_sound standard_sizes) (Z.of_nat <$> seq 0 52)) as HF by vm_decide.
  rewrite Forall_forall in HF. apply HF, list_elem_of_fmap. exists (Z.to_nat op).
  unfold PVFS_SERV_NUM_OPS in Hop. rewrite elem_of_seq. lia.
Qed.

(** * Versions *)

(** The header of a message of version [v] and encoding [ty]. *)
Definition header_of (v ty : Z) : list Z := Z_to_little_endian 4 8 v ++ Z_to_little_endian 4 8 ty.

(** Requests of this very version; responses of it or of a later one with the
    same major number. *)
Definition compatible (v ty input_type : Z) : Prop :=
  ty = ENCODING_LE_BFIELD ∧ PVFS2_PROTO_VERSION ≤ v < PVFS2_PROTO_VERSION + 1000 ∧
  (input_type = PINT_ENCODE_REQ → v = PVFS2_PROTO_VERSION).

Lemma dec_header_of v ty body :
  ok int32_t v = true → ok int32_t ty = true →
  dec int32_t (header_of v ty ++ body) 0 = Done (v, 4) ∧
  dec int32_t (header_of v ty ++ body) 4 = Done (ty, 8).
Proof.
  intros Hv Hty. unfold header_of. rewrite <- app_assoc.
  destruct (int32_t_lawful v 0 ltac:(lia) Hv) as (i1 & E1 & _ & D1).
  destruct (int32_t_lawful ty 4 ltac:(lia) Hty) as (i2 & E2 & _ & D2).
  assert (i1 = cells (Z_to_little_endian 4 8 v)) as -> by (by injection E1).
  assert (i2 = cells (Z_to_little_endian 4 8 ty)) as -> by (by injection E2).
  rewrite zeroed_cells in D1, D2. split.
  - apply (D1 []). done.
  - rewrite D2 by (by rewrite length_Z_to_little_endian). done.
Qed.

Lemma quot_7 v : Z.quot v 1000 = 7 ↔ 7000 ≤ v < 8000.
Proof.
  split; intros H.
  - pose proof (Z.quot_rem' v 1000). destruct (decide (0 ≤ v)).
    + pose proof (Z.rem_bound_pos v 1000). lia.
    + pose proof (Z.rem_bound_pos_neg v 1000). lia.
  - rewrite Z.quot_div_nonneg by lia. symmetry. apply (Z.div_unique v 1000 7 (v - 7000)); lia.
Qed.

(** The protocol check: a message is refused for its version or encoding
    (-PVFS_EPROTONOSUPPORT, nothing decoded) exactly if it is not in the
    little endian encoding, has another major version, is a request of a
    newer minor version, or a response of an older one. *)
Theorem version_check v ty body input_type :
  ok int32_t v = true → ok int32_t ty = true →
  input_type = PINT_ENCODE_REQ ∨ input_type = PINT_ENCODE_RESP →
  PINT_decode standard_dists standard_encoder (header_of v ty ++ body) input_type =
    Done (- PVFS_EPROTONOSUPPORT, rejected) ↔ ¬ compatible v ty input_type.
Proof.
  intros Hv Hty Hin. destruct (dec_header_of v ty body Hv Hty) as [E1 E2].
  unfold PINT_decode, compatible, PVFS2_PROTO_VERSION, PVFS2_PROTO_MAJOR, PVFS2_PROTO_MINOR.
  rewrite decide_False; [|unfold header_of, PINT_ENC_GENERIC_HEADER_SIZE;
    rewrite !length_app, !Nat2Z.inj_add, !length_Z_to_little_endian; lia].
  rewrite E1, E2. cbn [mbind exec_bind]. pose proof (quot_7 v) as Hq.
  destruct (decide (ty ≠ ENCODING_LE_BFIELD)); [split; [naive_solver|done]|].
  destruct (decide (Z.quot v 1000 ≠ 7)); [split; [naive_solver lia|done]|].
  assert (Z.quot v 1000 = 7) as -> by lia.
  destruct (decide (input_type = PINT_ENCODE_REQ ∧ _)); [split; [naive_solver lia|done]|].
  destruct (decide (input_type = PINT_ENCODE_RESP ∧ _)); [split; [naive_solver lia|done]|].
  assert (ty = ENCODING_LE_BFIELD) as -> by (by apply dec_stable).
  rewrite bool_decide_true by vm_decide. split.
  - intros H. exfalso. revert H. repeat case_decide; try done;
      (destruct (lebf_decode_req _ _ _) as [[]|] || destruct (lebf_decode_resp _ _ _) as [[]|]);
      cbn; naive_solver.
  - intros []. split; [done|]. split; [apply Hq; lia|]. intros ->. lia.
Qed.

Lemma version_check_witness :
  PINT_decode standard_dists standard_encoder (header_of 6999 2 ++ [1; 2; 3]) PINT_ENCODE_RESP =
    Done (- PVFS_EPROTONOSUPPORT, rejected) ↔ ¬ compatible 6999 2 PINT_ENCODE_RESP.
Proof. apply (version_check 6999 2 [1; 2; 3] PINT_ENCODE_RESP); [reflexivity..|by right]. Defined.
