(* ===== verification/WireBounds.v ===== *)
(** How long messages get, and which of them fit the buffers that
    [lebf_initialize] reckons with. *)

From stdpp Require Import base tactics numbers list strings.
From S2P Require Import Prelude Errors ServerOps Wire DistTable WireTypes Hint WireReq WireResp WireSizes LeBytefield LeBytefieldSpec.

#[local] Open Scope codec_scope.

(** * Bounds on images *)

(** The image of [x] is at most [n] bytes long; [n] is found from [c]. *)
Class Bounded {A} (c : codec A) (x : A) (n : Z) : Prop :=
  bounded p im : enc c p x = Done im → len im ≤ n.
#[global] Hint Mode Bounded - ! - - : typeclass_instances.

(** The limits of include/pvfs2-types.h on what is sent. *)
Definition cap_limits (x : PVFS_capability) : Prop :=
  strlen (cap_issuer x) ≤ PVFS_SYS_LIMIT_ISSUER ∧
  0 ≤ cap_sig_size x ≤ PVFS_SYS_LIMIT_SIGNATURE ∧
  0 ≤ cap_num_handles x ≤ PVFS_SYS_LIMIT_HANDLES_COUNT.

Definition cred_limits (x : PVFS_credential) : Prop :=
  strlen (cred_issuer x) ≤ PVFS_SYS_LIMIT_ISSUER ∧
  0 ≤ cred_num_groups x ≤ PVFS_SYS_LIMIT_GROUPS ∧
  0 ≤ cred_sig_size x ≤ PVFS_SYS_LIMIT_SIGNATURE ∧
  0 ≤ cert_buf_size (cred_certificate x) ≤ PVFS_SYS_LIMIT_CERT.

(** ** Basic types *)

Lemma le_len n x : 0 ≤ n → len (cells (Z_to_little_endian n 8 x)) = n.
Proof. intros. rewrite length_cells. by apply length_Z_to_little_endian. Qed.

Lemma uint_bounded n x : 0 ≤ n → Bounded (uint n) x n.
Proof. intros Hn p im. cbn [enc uint]. intros <-%Done_inj. by rewrite le_len. Qed.
Lemma sint_bounded n x : 0 ≤ n → Bounded (sint n) x n.
Proof. intros Hn p im. cbn [enc sint]. intros <-%Done_inj. by rewrite le_len. Qed.

#[export] Instance uint64_bounded x : Bounded uint64_t x 8 := uint_bounded 8 x ltac:(lia).
#[export] Instance int64_bounded x : Bounded int64_t x 8 := sint_bounded 8 x ltac:(lia).
#[export] Instance uint32_bounded x : Bounded uint32_t x 4 := uint_bounded 4 x ltac:(lia).
#[export] Instance int32_bounded x : Bounded int32_t x 4 := sint_bounded 4 x ltac:(lia).
#[export] Instance char_bounded x : Bounded char x 1 := uint_bounded 1 x ltac:(lia).
#[export] Instance skip4_bounded x : Bounded skip4 x 4.
Proof. intros p im <-%Done_inj. done. Qed.

#[export] Instance align8_bounded x : Bounded align8 x 7.
Proof.
  intros p im. cbn [enc align8]. intros <-%Done_inj. rewrite length_replicate. pose proof (roundup8_spec p). lia.
Qed.

Lemma encode_string_bound s : len (encode_string s) ≤ strlen s + 12.
Proof.
  unfold encode_string, strlen. case_decide.
  { rewrite length_app, length_replicate, Nat2Z.inj_add, le_len by lia. lia. }
  rewrite !length_app, length_replicate, !Nat2Z.inj_add, le_len, length_cells, length_app by lia.
  cbn [length]. set (l := u32 _). unfold string_step.
  pose proof (roundup8_spec (u32 (4 + l + 1))).
  assert (u32 (4 + l + 1) ≤ 4 + l + 1).
  { unfold l, u32. apply Z.mod_le; [|lia]. pose proof (Z.mod_pos_bound (len (str_bytes s)) B32). lia. }
  lia.
Qed.

#[export] Instance string_bounded s : Bounded string s (strlen s + 12).
Proof. intros p im. cbn [enc string]. intros <-%Done_inj. apply encode_string_bound. Qed.

(** ** Composition *)

#[export] Instance dep_bounded {A B} (c : codec A) (k : A → codec B) a b n1 n2 :
  Bounded c a n1 → Bounded (k a) b n2 → Bounded (dep c k) (a, b) (n1 + n2).
Proof.
  intros H1 H2 p im. cbn [enc dep]. destruct (enc c p a) as [i1|] eqn:E1; [|done].
  cbn [mbind exec_bind]. destruct (enc (k a) _ b) as [i2|] eqn:E2; [|done].
  intros <-%Done_inj. rewrite length_app, Nat2Z.inj_add.
  specialize (H1 _ _ E1). specialize (H2 _ _ E2). lia.
Qed.

#[export] Instance pair_bounded {A B} (c : codec A) (d : codec B) a b n1 n2 :
  Bounded c a n1 → Bounded d b n2 → Bounded (pair c d) (a, b) (n1 + n2).
Proof. intros. by apply (dep_bounded c (λ _, d)). Qed.

#[export] Instance before_bounded {B} (s : codec unit) (c : codec B) b n1 n2 :
  Bounded s () n1 → Bounded c b n2 → Bounded (before s c) b (n1 + n2).
Proof. intros H1 H2 p im. by apply (pair_bounded s c () b). Qed.

#[export] Instance after_bounded {A} (c : codec A) (s : codec unit) a n1 n2 :
  Bounded c a n1 → Bounded s () n2 → Bounded (after c s) a (n1 + n2).
Proof. intros H1 H2 p im. by apply (pair_bounded c s a ()). Qed.

Lemma struct_bounded {A B} (make : B → A) fields (c : codec B) x n :
  Bounded c (fields x) n → Bounded (struct make fields c) x n.
Proof. intros H p im. apply H. Qed.

#[export] Instance array_bounded {A} k (c : codec A) l n :
  (∀ x, Bounded c x n) → Bounded (array k c) l (Z.max 0 k * Z.max 0 n).
Proof.
  intros H p im. cbn [enc array]. replace (Z.max 0 k) with (Z.of_nat (Z.to_nat k)) by lia.
  generalize (Z.to_nat k) as m. intros m. revert l p im.
  induction m as [|m IH]; intros l p im; cbn [enc_array]; [intros <-%Done_inj; cbn; lia|].
  destruct l as [|x l]; [done|]. destruct (enc c p x) as [i1|] eqn:E1; [|done].
  cbn [mbind exec_bind]. destruct (enc_array c m _ l) as [i2|] eqn:E2; [|done].
  intros <-%Done_inj. specialize (IH _ _ _ E2). specialize (H _ _ _ E1).
  rewrite length_app, Nat2Z.inj_add, Nat2Z.inj_succ, Z.mul_succ_l. lia.
Qed.

#[export] Instance keyval_bounded kv : Bounded ds_keyval kv (u32 (kv_buffer_sz kv) + 11).
Proof.
  intros p im. cbn [enc ds_keyval]. set (l := u32 _). unfold peek.
  case_decide as Hl; [|done]. cbn [mbind exec_bind]. intros <-%Done_inj.
  rewrite !length_app, !Nat2Z.inj_add, le_len, length_cells, length_replicate by lia.
  assert (len (view (kv_buffer kv) 0 l) = l) as ->.
  { unfold view. rewrite length_take, length_drop. lia. }
  unfold keyval_step. pose proof (roundup8_spec (u32 (4 + l))).
  assert (u32 (4 + l) ≤ 4 + l) by (unfold u32; apply Z.mod_le; lia). lia.
Qed.

#[export] Instance raw_bounded n l : Bounded (raw n) l (Z.max 0 n).
Proof.
  intros p im. cbn [enc raw]. unfold peek. case_decide; [|done]. cbn [mbind exec_bind].
  intros <-%Done_inj. rewrite length_cells. unfold view. rewrite length_take. lia.
Qed.

#[export] Instance here_string_bounded n s : Bounded (here_string n) s (len s + 12).
Proof.
  intros p im. cbn [enc here_string]. intros <-%Done_inj.
  apply (encode_string_bound (Some s)).
Qed.

(** ** Structs *)

#[export] Hint Extern 1 (Bounded (struct _ _ _) _ _) =>
  eapply struct_bounded; cbv beta : typeclass_instances.
#[export] Hint Extern 1 (Bounded PVFS_handle _ _) => apply uint64_bounded : typeclass_instances.

Lemma bounded_le {A} (c : codec A) x n m : Bounded c x n → n ≤ m → Bounded c x m.
Proof. intros H Hle p im E. specialize (H p im E). lia. Qed.

(** Bounds a struct by the sum of its fields and compares. *)
Ltac bound_struct c :=
  eapply bounded_le; [unfold c; apply _|];
  cbv [extra_size_PVFS_capability extra_size_PVFS_credential extra_size_PVFS_certificate
       sizeof_PVFS_handle sizeof_PVFS_gid PVFS_SYS_LIMIT_ISSUER PVFS_SYS_LIMIT_SIGNATURE
       PVFS_SYS_LIMIT_HANDLES_COUNT PVFS_SYS_LIMIT_GROUPS PVFS_SYS_LIMIT_CERT] in *;
  rewrite ?i32_id by lia; lia.

Lemma capability_bounded x :
  cap_limits x → Bounded capability x (extra_size_PVFS_capability + 62).
Proof. intros (H1 & H2 & H3). bound_struct @capability. Qed.

#[export] Instance certificate_bounded x :
  Bounded certificate x (8 + Z.max 0 (cert_buf_size x)).
Proof. bound_struct certificate. Qed.

Lemma credential_bounded x :
  cred_limits x → Bounded credential x (extra_size_PVFS_credential + 85).
Proof. intros (H1 & H2 & H3 & H4). bound_struct credential. Qed.

#[export] Instance handle_extent_bounded x : Bounded handle_extent x 16.
Proof. bound_struct handle_extent. Qed.

#[export] Instance handle_extent_array_bounded x :
  Bounded handle_extent_array x (8 + 16 * Z.max 0 (hea_extent_count x)).
Proof. bound_struct handle_extent_array. Qed.

(** * Requests within limits *)

(** Known hints, no more of them than the limit. *)
Definition hint_limits (hs : list PINT_hint) : Prop :=
  Forall (λ h, h_type h ≠ PINT_HINT_UNKNOWN) hs ∧ (length hs ≤ PVFS_HINT_MAX)%nat.

(** The requests whose room was computed from all of their parts, within the
    limits of pvfs2-req-proto.h on names, paths and counts. *)
Definition body_limits (b : servreq) : Prop :=
  match b with
  | Rq_lookup_path x =>
      strlen (rq_lookup_path_path x) ≤ PVFS_REQ_LIMIT_PATH_NAME_BYTES ∧
      cred_limits (rq_lookup_path_credential x)
  | Rq_unstuff x => cred_limits (rq_unstuff_credential x)
  | Rq_getattr x => cred_limits (rq_getattr_credential x)
  | Rq_batch_create x =>
      hea_extent_count (rq_batch_create_handle_extent_array x) ≤ PVFS_REQ_LIMIT_HANDLES_COUNT
  | Rq_batch_remove x => rq_batch_remove_handle_count x ≤ PVFS_REQ_LIMIT_HANDLES_COUNT
  | Rq_mgmt_remove_dirent x =>
      strlen (rq_mgmt_remove_dirent_entry x) ≤ PVFS_REQ_LIMIT_SEGMENT_BYTES
  | Rq_tree_get_file_size x =>
      cred_limits (rq_tree_get_file_size_credential x) ∧
      rq_tree_get_file_size_num_data_files x ≤ PVFS_REQ_LIMIT_HANDLES_COUNT
  | Rq_tree_getattr x =>
      cred_limits (rq_tree_getattr_credential x) ∧
      rq_tree_getattr_handle_count x ≤ PVFS_REQ_LIMIT_HANDLES_COUNT
  | Rq_rmdirent x => strlen (rq_rmdirent_entry x) ≤ PVFS_REQ_LIMIT_SEGMENT_BYTES
  | Rq_chdirent x => strlen (rq_chdirent_entry x) ≤ PVFS_REQ_LIMIT_SEGMENT_BYTES
  | Rq_mgmt_get_dirent x => strlen (rq_mgmt_get_dirent_entry x) ≤ PVFS_REQ_LIMIT_SEGMENT_BYTES
  | Rq_listattr x => rq_listattr_nhandles x ≤ PVFS_REQ_LIMIT_LISTATTR
  | Rq_mgmt_dspace_info_list x =>
      rq_mgmt_dspace_info_list_handle_count x ≤ PVFS_REQ_LIMIT_HANDLES_COUNT
  | Rq_deleattr x =>
      0 ≤ kv_buffer_sz (rq_deleattr_key x) ≤ PVFS_REQ_LIMIT_EATTR_KEY_LEN
  | Rq_mgmt_remove_object _ | Rq_mgmt_get_dirdata_handle _ | Rq_flush _ | Rq_truncate _
  | Rq_readdir _ | Rq_statfs _ | Rq_mgmt_perf_mon _ | Rq_mgmt_iterate_handles _
  | Rq_mgmt_event_mon _ | Rq_mgmt_get_uid _ | Rq_mgmt_create_root_dir _
  | Rq_mgmt_get_user_cert_keyreq _ => True
  | Rq_none op =>
      op ∈ [PVFS_SERV_GETCONFIG; PVFS_SERV_MGMT_NOOP; PVFS_SERV_IMM_COPIES]
  | _ => False
  end.

Lemma bind_enc {A} (c : codec A) p x im r :
  (i ← enc c p x; Done (i, 0)) = Done (im, r) → enc c p x = Done im.
Proof. destruct (enc c p x); [|done]. by intros [= -> _]. Qed.

(** What the header, the operation, the capability and the hints take. *)
Definition fixed_part : Z := 8 + 8 + (extra_size_PVFS_capability + 62) + (4 + 24 * 12).

Lemma encode_bound {A} (c : codec A) x n p im :
  (i ← enc c p x; Done (i, 0)) = Done (im, 0) → Bounded c x n → len im ≤ n.
Proof. intros E%bind_enc H. by eapply H. Qed.

(** The goal of [body_bound] for one request: [c] is its codec. *)
Ltac body_fits c :=
  match goal with
  | Hm : max_size _ _ = Done _, E : encode_switch _ _ _ (_ ?x) ?p = Done _ |- _ =>
      vm_compute in Hm; injection Hm as <- <-;
      destruct_and?; repeat match goal with H : cred_limits _ |- _ =>
        apply credential_bounded in H end;
      eapply (encode_bound c x _ p) in E; [|unfold c; apply _]
  end;
  cbv [fixed_part extra_size_PVFS_capability extra_size_PVFS_credential
       extra_size_PVFS_certificate sizeof_PVFS_handle sizeof_PVFS_gid PVFS_SYS_LIMIT_ISSUER
       PVFS_SYS_LIMIT_SIGNATURE PVFS_SYS_LIMIT_HANDLES_COUNT PVFS_SYS_LIMIT_GROUPS
       PVFS_SYS_LIMIT_CERT PVFS_REQ_LIMIT_PATH_NAME_BYTES PVFS_PATH_MAX
       PVFS_REQ_LIMIT_HANDLES_COUNT PVFS_REQ_LIMIT_SEGMENT_BYTES PVFS_SEGMENT_MAX
       PVFS_NAME_MAX PVFS_REQ_LIMIT_LISTATTR PVFS_SYS_LIMIT_LISTATTR
       PVFS_REQ_LIMIT_EATTR_KEY_LEN PVFS_MAX_XATTR_NAMELEN] in *;
  rewrite ?u32_id in * by lia; lia.

Lemma no_body {A} (cases : list (Z * codec A)) inv op b p im :
  encode_switch cases inv op b p = Done (im, 0) → case_of op cases = None → im = [].
Proof. unfold encode_switch. intros E Hc. rewrite Hc in E. by injection E. Qed.

(** The room for such a request is enough for it. *)
Lemma body_bound b p im max rmax :
  body_limits b →
  max_size standard_sizes (req_op b) = Done (max, rmax) →
  encode_switch (servreq_cases standard_dists) invalid_req_ops (req_op b) b p = Done (im, 0) →
  fixed_part + len im ≤ max.
Proof.
  intros Hl Hm E. destruct b; try done; cbn [body_limits] in Hl.
  - body_fits servreq_batch_create.
  - body_fits servreq_batch_remove.
  - body_fits servreq_mgmt_remove_object.
  - body_fits servreq_mgmt_remove_dirent.
  - body_fits servreq_tree_get_file_size.
  - body_fits servreq_tree_getattr.
  - body_fits servreq_mgmt_get_dirdata_handle.
  - body_fits servreq_flush.
  - body_fits servreq_getattr.
  - body_fits servreq_unstuff.
  - body_fits servreq_lookup_path.
  - body_fits servreq_rmdirent.
  - body_fits servreq_chdirent.
  - body_fits servreq_readdir.
  - body_fits servreq_truncate.
  - body_fits servreq_statfs.
  - body_fits servreq_listattr.
  - body_fits servreq_mgmt_perf_mon.
  - body_fits servreq_mgmt_iterate_handles.
  - body_fits servreq_mgmt_dspace_info_list.
  - body_fits servreq_mgmt_event_mon.
  - body_fits servreq_deleattr.
  - body_fits servreq_mgmt_get_uid.
  - body_fits servreq_mgmt_get_dirent.
  - body_fits servreq_mgmt_create_root_dir.
  - body_fits servreq_mgmt_get_user_cert_keyreq.
  - assert (im = []) as ->.
    { rewrite !elem_of_cons in Hl. destruct Hl as [-> | [-> | [-> | []%elem_of_nil]]];
        by eapply no_body. }
    rewrite !elem_of_cons in Hl. destruct Hl as [-> | [-> | [-> | []%elem_of_nil]]];
      vm_compute in Hm; injection Hm as <- <-; done.
Qed.

Lemma hint_bound h im :
  h_type h ≠ PINT_HINT_UNKNOWN → encode_hint h = Done im → len im ≤ 12.
Proof.
  intros Ht. unfold encode_hint. rewrite decide_False by done.
  destruct (func_size (h_func h)) as [n|] eqn:En; [|done].
  assert (n ≤ 8) by (destruct (h_func h); cbn in En; simplify_eq; lia).
  destruct (peek (h_value h) 0 n) as [bs|] eqn:Ep; [|done]. cbn [mbind exec_bind].
  intros <-%Done_inj. rewrite length_app, Nat2Z.inj_add, le_len, length_cells by lia.
  revert Ep. unfold peek. case_decide; [|done]. intros <-%Done_inj.
  unfold view. rewrite length_take. lia.
Qed.

Lemma encode_hints_bound hs im :
  Forall (λ h, h_type h ≠ PINT_HINT_UNKNOWN) hs → encode_hints hs = Done im →
  len im ≤ 12 * len hs.
Proof.
  intros HF. revert im. induction HF as [|h hs Hh _ IH]; intros im; cbn [encode_hints].
  { intros <-%Done_inj. done. }
  cbn [length]. rewrite Nat2Z.inj_succ. destruct (transfer h).
  - destruct (encode_hint h) as [i1|] eqn:E1; [|done]. cbn [mbind exec_bind].
    destruct (encode_hints hs) as [i2|] eqn:E2; [|done]. cbn [mbind exec_bind].
    intros <-%Done_inj. rewrite length_app, Nat2Z.inj_add.
    pose proof (hint_bound _ _ Hh E1). pose proof (IH _ eq_refl). lia.
  - intros E. pose proof (IH _ E). lia.
Qed.

Lemma hints_bounded hs : hint_limits hs → Bounded hints hs (4 + 24 * 12).
Proof.
  intros [HF Hlen] p im. cbn [enc hints]. destruct (encode_hints hs) as [i|] eqn:E; [|done].
  cbn [mbind exec_bind]. intros <-%Done_inj.
  rewrite length_app, Nat2Z.inj_add, le_len by lia.
  pose proof (encode_hints_bound _ _ HF E). unfold PVFS_HINT_MAX in Hlen. lia.
Qed.

(** C14. No request within the limits overflows its buffer: if the capability,
    the credential, names, paths and counts respect the documented limits and
    the hints are known ones, the request fits the buffer that was computed
    for its operation at start-up, and [PINT_encode] succeeds. *)
Theorem requests_fit r :
  req_ok standard_dists r = true →
  cap_limits (req_capability r) → hint_limits (req_hints r) → body_limits (req_u r) →
  ∃ msg, PINT_encode standard_dists standard_encoder true (M_req r) ENCODING_LE_BFIELD =
           Done (0, Some msg) ∧ em_total_size msg ≤ em_alloc_size msg.
Proof.
  intros Hok Hcap Hh Hb. destruct (request_image _ _ Hok) as (im & E & _ & _).
  rewrite (encode_ready _ _ standard_initialize). unfold lebf_encode_req.
  destruct (max_size (max_size_array standard_encoder) (req_op (req_u r)))
    as [[max rmax]|] eqn:Hm.
  2: { exfalso. destruct r as [? ? b]. cbn [req_u] in *. destruct b; try done; revert Hm;
       cbn [body_limits] in Hb; rewrite ?elem_of_cons in Hb;
       [..|destruct Hb as [-> | [-> | [-> | []%elem_of_nil]]]]; done. }
  cbn [mbind exec_bind]. rewrite E. cbn [mbind exec_bind].
  assert (len (cells header_bytes ++ im) ≤ max) as Hfit.
  { revert E. unfold encode_PVFS_server_req.
    destruct (enc server_req_codec _ _) as [i1|] eqn:E1; [|done]. cbn [mbind exec_bind].
    destruct (encode_switch _ _ _ _ _) as [[i2 ret]|] eqn:E2; [|done]. cbn [mbind exec_bind].
    intros [= <- ->]. pose proof (body_bound _ _ _ _ _ Hb Hm E2) as H2.
    apply capability_bounded in Hcap. apply hints_bounded in Hh.
    assert (len i1 ≤ 4 + 4 + (extra_size_PVFS_capability + 62) + (4 + 24 * 12)) as H1.
    { revert E1. unfold server_req_codec. generalize PINT_ENC_GENERIC_HEADER_SIZE.
      intros p E1. revert E1. apply (bounded (c := _)). }
    unfold fixed_part in H2. rewrite !length_app, !Nat2Z.inj_add, length_cells.
    change (len header_bytes) with 8. lia. }
  rewrite finish_fits by done. eexists. split; [done|]. done.
Qed.

(** * Requests within limits that overflow *)

Definition big_capability : PVFS_capability :=
  mk_capability (Some (replicate 128 65)) 9 512 (replicate 512 1) 0 0 1024 (replicate 1024 7).
Definition big_credential : PVFS_credential :=
  mk_credential 0 32 (replicate 32 100) (Some (replicate 128 65)) 0 512 (replicate 512 1)
    (mk_certificate 8192 (replicate (Z.to_nat 8192) 2)).
Definition big_key : PVFS_ds_keyval := mkKeyval (replicate 256 97) 256.

Definition overflowing_requests : list PVFS_server_req :=
  mk_server_req big_capability [] <$>
  [ Rq_crdirent (mk_servreq_crdirent big_credential (Some (zs "name")) 1 2 3 9);
    Rq_remove (mk_servreq_remove 1 9 big_credential);
    Rq_tree_remove (mk_servreq_tree_remove 9 big_credential 0 1024 (replicate 1024 7));
    Rq_geteattr (mk_servreq_geteattr 1 9 16 (replicate 16 big_key) (replicate 16 8192)) ].

(** C15. The room for these requests leaves out a part of them: the credential
    of a crdirent, remove or tree_remove request, and all but one key of a
    geteattr request.  With a capability, credential and keys within their
    limits the encoder writes past the end of its buffer, before the size
    check that follows can notice. *)
Theorem legal_requests_overflow :
  cap_limits big_capability ∧ cred_limits big_credential ∧
  kv_buffer_sz big_key ≤ PVFS_REQ_LIMIT_EATTR_KEY_LEN ∧
  Forall (λ r, req_ok standard_dists r = true ∧
    PINT_encode standard_dists standard_encoder true (M_req r) ENCODING_LE_BFIELD =
      Fault BadAccess) overflowing_requests.
Proof.
  split; [by vm_compute|]. split; [by vm_compute|]. split; [by vm_compute|].
  repeat first [apply Forall_cons_2 | apply Forall_nil_2]; split; vm_compute; reflexivity.
Qed.

(** A create request with [n] servers in its layout. *)
Definition layout_request (n : nat) : PVFS_server_req :=
  mk_server_req (zero_capability memset_capability) []
    (Rq_create (mk_servreq_create 9 (zero_credential memset_credential) zero_object_attr 1
       (mk_sys_layout 4 (Z.of_nat n) (replicate n (Some (zs "tcp://server:3334")))))).

(** What the sender and the receiver of a request return. *)
Definition exchange (r : PVFS_server_req) : exec (Z * option Z) :=
  m ← PINT_encode standard_dists standard_encoder true (M_req r) ENCODING_LE_BFIELD;
  match m with
  | (ret, Some msg) =>
      '(ret', _) ← PINT_decode standard_dists standard_encoder (em_bytes msg) PINT_ENCODE_REQ;
      Done (ret, Some ret')
  | (ret, None) => Done (ret, None)
  end.

(** A server list that is too long for a create request is not caught.
    The encoder then moves the pointer instead of writing the layout, which
    is meant to fail the size check; the room for a create request is larger
    than that, so the message is reported as encoded, and the server refuses
    it.  With a list that fits, the same request is accepted. *)
Theorem long_layout_encoded :
  exchange (layout_request 200) = Done (0, Some (- PVFS_EPROTO)) ∧
  exchange (layout_request 100) = Done (0, Some 0).
Proof. split; vm_compute; reflexivity. Qed.

(** The largest getattr request. *)
Definition big_getattr : PVFS_server_req :=
  mk_server_req big_capability (fst (PVFS_hint_add [] (zs "pvfs.hint.rank") [3; 0; 0; 0]))
    (Rq_getattr (mk_servreq_getattr 1 9 0 big_credential)).

Lemma requests_fit_witness :
  ∃ msg, PINT_encode standard_dists standard_encoder true (M_req big_getattr)
           ENCODING_LE_BFIELD = Done (0, Some msg) ∧ em_total_size msg ≤ em_alloc_size msg.
Proof.
  apply (requests_fit big_getattr); [vm_compute; reflexivity|by vm_compute| |by vm_compute].
  split; [vm_decide|]. vm_compute. lia.
Defined.
