(* ===== verification/RequestCommit.v ===== *)
(** Packing requests: [PINT_request_commit], [PINT_request_encode] and
    [PINT_request_decode] of src/src/io/description/pint-request.c,
    src/src/io/description/pint-request-encode.h, and committing and freeing
    requests in src/src/io/description/pvfs-request.c.

    A region of [n] structs at address [region] has its slots at consecutive
    addresses.  Slots that were not written yet are not in the heap, so
    reading one is [Fault BadAccess], and so is writing outside the region. *)

From stdpp Require Import list numbers gmap.
From S2P Require Import Prelude Errors Dist Request RequestTree RequestBuild ServerOps Wire DistTable WireTypes Hint WireReq.

(** * Packing *)

Definition PINT_REQUEST_IS_PACKED (r : PINT_Request) : bool := bool_decide (committed r = -1).

Definition set_committed (r : PINT_Request) (c : Z) : PINT_Request :=
  mkRequest (offset r) (num_ereqs r) (num_blocks r) (stride r) (ub r) (lb r) (aggregate_size r)
    (num_contig_chunks r) (depth r) (num_nested_req r) c (refcount r) (ereq r) (sreq r).
Definition set_ereq (r : PINT_Request) (p : ptr) : PINT_Request :=
  mkRequest (offset r) (num_ereqs r) (num_blocks r) (stride r) (ub r) (lb r) (aggregate_size r)
    (num_contig_chunks r) (depth r) (num_nested_req r) (committed r) (refcount r) p (sreq r).
Definition set_sreq (r : PINT_Request) (p : ptr) : PINT_Request :=
  mkRequest (offset r) (num_ereqs r) (num_blocks r) (stride r) (ub r) (lb r) (aggregate_size r)
    (num_contig_chunks r) (depth r) (num_nested_req r) (committed r) (refcount r) (ereq r) p.

(** [&region[i]]. *)
Definition slot (region : positive) (i : Z) : positive := Z.to_pos (Z.pos region + i).

(** [PINT_do_clear_commit]; its return value is not used. *)
Fixpoint PINT_do_clear_commit (fuel : nat) (h : req_heap) (node : ptr) (depth : Z)
    : exec req_heap :=
  match fuel with
  | O => Fault OutOfFuel
  | S fuel =>
      match node with
      | None => Done h
      | Some _ =>
          r ← deref h node;
          if decide (committed r = 0 ∧ depth > 0) then Done h
          else
            h ← update h node (λ r, set_committed r 0);
            h ← (match ereq r with
                 | Some _ => PINT_do_clear_commit fuel h (ereq r) (depth + 1)
                 | None => Done h
                 end);
            match sreq r with
            | Some _ => PINT_do_clear_commit fuel h (sreq r) (depth + 1)
            | None => Done h
            end
      end
  end.

(** The part of [PINT_do_request_commit] for a struct that is not in the
    region yet: it is copied to the next slot and marked with its index, then
    its two links are followed by [rec] and set in the copy. *)
Definition commit_copy (rec : req_heap → ptr → Z → exec (ptr * req_heap * Z))
    (region : positive) (n : Z) (h : req_heap) (node : ptr) (r : PINT_Request) (index : Z)
    : exec (req_heap * Z) :=
  if decide (0 ≤ index < n) then
    let here := Some (slot region index) in
    (* copy node to contiguous region *)
    h ← update (<[slot region index := r]> h) node (λ r, set_committed r index);
    (* update ereq so that the relative positions are maintained *)
    '(pe, h, index1) ←
      (match ereq r with
       | Some _ => rec h (ereq r) (i32 (index + 1))
       | None => Done (None, h, i32 (index + 1))
       end);
    h ← update h here (λ r, set_ereq r pe);
    (* update sreq so that the relative positions are maintained *)
    '(ps, h, index2) ←
      (match sreq r with
       | Some _ => rec h (sreq r) index1
       | None => Done (None, h, index1)
       end);
    h ← update h here (λ r, set_sreq r ps);
    Done (h, index2)
  else Fault BadAccess.

(** The part for the root. *)
Definition commit_root (fuel : nat) (region : positive) (h : req_heap) (node : ptr)
    (node_was_committed : bool) : exec req_heap :=
  h ← PINT_do_clear_commit fuel h node 0;
  (* this indicates the region is packed *)
  h ← update h (Some (slot region 0)) (λ r, set_committed r (-1));
  (* if the original request was committed, this restores that *)
  if node_was_committed then update h node (λ r, set_committed r (-1)) else Done h.

(** The address of the packed struct, the heap and [*index]. *)
Fixpoint PINT_do_request_commit (fuel : nat) (region : positive) (n : Z) (h : req_heap)
    (node : ptr) (index depth : Z) : exec (ptr * req_heap * Z) :=
  match fuel with
  | O => Fault OutOfFuel
  | S fuel =>
      match node with
      | None => Done (None, h, index)
      | Some _ =>
          r ← deref h node;
          (* catches any previously packed structures *)
          let node_was_committed := bool_decide (committed r = -1) in
          h ← (if node_was_committed then update h node (λ r, set_committed r 0) else Done h);
          r ← deref h node;
          (* this node was previously committed *)
          if decide (committed r ≠ 0) then Done (Some (slot region (committed r)), h, index)
          else
            '(h, index) ← commit_copy
              (λ h p index, PINT_do_request_commit fuel region n h p index (depth + 1))
              region n h node r index;
            h ← (if decide (depth = 0) then commit_root fuel region h node node_was_committed
                 else Done h);
            r ← deref h node;
            Done (Some (slot region (committed r)), h, index)
      end
  end.

Definition PINT_request_commit (fuel : nat) (region : positive) (n : Z) (h : req_heap)
    (node : ptr) : exec (Z * req_heap) :=
  '(_, h, _) ← PINT_do_request_commit fuel region n h node 0 0;
  Done (0, h).

(** * Indexes for pointers *)

(** What [PINT_request_encode] and the fields of
    [encode_PVFS_Request_fields] make of a pointer into the region: its
    distance from the start, or all ones for NULL. *)
Definition index_of (region : positive) (p : ptr) : Z :=
  match p with Some a => u32 (Z.pos a - Z.pos region) | None => u32 (-1) end.

Definition pack (region : positive) (r : PINT_Request) : packed_request :=
  mk_packed_request_codec (offset r) (num_ereqs r) (num_blocks r) (stride r) (ub r) (lb r)
    (aggregate_size r) (num_contig_chunks r) (depth r) (num_nested_req r) (committed r)
    (refcount r) (index_of region (ereq r)) (index_of region (sreq r)).

Fixpoint pack_slots (region : positive) (h : req_heap) (i : Z) (n : nat)
    : exec (list packed_request) :=
  match n with
  | O => Done []
  | S n =>
      r ← deref h (Some (slot region i));
      rest ← pack_slots region h (i + 1) n;
      Done (pack region r :: rest)
  end.

(** The structs with indexes in place of pointers, if they are packed. *)
Definition PINT_request_encode (region : positive) (h : req_heap)
    : exec (Z * option (list packed_request)) :=
  r ← deref h (Some region);
  if PINT_REQUEST_IS_PACKED r then
    l ← pack_slots region h 0 (Z.to_nat (num_nested_req r + 1));
    Done (0, Some l)
  else Done (-1, None).

(** [linearize_PVFS_Request]: the region is thrown away after encoding, but
    the marks in the original were set and cleared. *)
Definition linearize_PVFS_Request (fuel : nat) (region : option positive) (h : req_heap)
    (req : ptr) : exec (Z * option (list packed_request) * req_heap) :=
  r ← deref h req;
  if decide (num_nested_req r > 100) then Done (- PVFS_EINVAL, None, h)
  else
    match region with
    | None => Done (- PVFS_ENOMEM, None, h)
    | Some region =>
        '(ret, h1) ← PINT_request_commit fuel region (num_nested_req r + 1) h req;
        if decide (ret < 0) then Done (ret, None, h)
        else
          '(ret, l) ← PINT_request_encode region h1;
          if decide (ret < 0) then Done (ret, None, h1) else Done (ret, l, h1)
    end.

(** A pointer again: an index counts from the start of the new region. *)
Definition pointer_of (region : positive) (i : Z) : ptr :=
  if decide (i = B32 - 1) then None else Some (slot region i).

Definition unpack (region : positive) (r : packed_request) : PINT_Request :=
  mkRequest (pr_offset r) (pr_num_ereqs r) (pr_num_blocks r) (pr_stride r) (pr_ub r) (pr_lb r)
    (pr_aggregate_size r) (pr_num_contig_chunks r) (pr_depth r) (pr_num_nested_req r)
    (pr_committed r) (pr_refcount r) (pointer_of region (pr_ereq r))
    (pointer_of region (pr_sreq r)).

Fixpoint unpack_slots (region : positive) (h : req_heap) (i : Z) (n : nat)
    (l : list packed_request) : exec req_heap :=
  match n, l with
  | O, _ => Done h
  | S n, r :: l => unpack_slots region (<[slot region i := unpack region r]> h) (i + 1) n l
  | S _, [] => Fault BadAccess
  end.

(** [PINT_request_decode] on the structs [decode_PINT_Request] has read into
    a new region.  Without the mark of a packed request nothing is done. *)
Definition PINT_request_decode (region : positive) (h : req_heap) (l : list packed_request)
    : exec (Z * req_heap) :=
  match l with
  | [] => Fault BadAccess
  | r :: _ =>
      if decide (pr_committed r = -1) then
        h ← unpack_slots region h 0 (Z.to_nat (pr_num_nested_req r + 1)) l;
        Done (0, h)
      else Done (-1, h)
  end.

(** * Committing and freeing *)

(** [region] is the result of [malloc]. *)
Definition PVFS_Request_commit (fuel : nat) (region : option positive) (h : req_heap)
    (reqp : option ptr) : exec (Z * option ptr * req_heap) :=
  match reqp with
  | None => Done (PVFS_ERR_REQ, None, h)
  | Some None => Done (PVFS_ERR_REQ, Some None, h)
  | Some req =>
      r ← deref h req;
      if PINT_REQUEST_IS_PACKED r then Done (PVFS_ERR_REQ, Some req, h)
      else if decide (num_nested_req r > 0) then
        match region with
        | None => Done (PVFS_ERR_REQ, Some req, h)
        | Some a =>
            '(_, h) ← PINT_request_commit fuel a (num_nested_req r + 1) h req;
            Done (PVFS_SUCCESS, Some (Some a), h)
        end
      else Done (PVFS_SUCCESS, Some None, h)
  end.

Definition PINT_REQUEST_REFDEC (h : req_heap) (p : ptr) : exec req_heap :=
  update h p (λ r, if bool_decide (refcount r > 0) then set_refcount r (refcount r - 1) else r).

(** Freeing a struct, and the structs of a region. *)
Definition free (h : req_heap) (p : ptr) : exec req_heap :=
  match p with
  | Some a => match h !! a with Some _ => Done (delete a h) | None => Fault BadAccess end
  | None => Done h
  end.

Definition free_region (h : req_heap) (region : positive) (n : Z) : req_heap :=
  foldr (λ i h, delete (slot region i) h) h (seqZ 0 n).

(** The loop over the rest of the sequence chain: the element type of each
    struct is released with [rec], the struct is freed. *)
Fixpoint free_chain (rec : req_heap → ptr → exec (Z * ptr * req_heap)) (fuel : nat) (h : req_heap)
    (reqp : ptr) : exec req_heap :=
  match reqp, fuel with
  | None, _ => Done h
  | Some _, O => Fault OutOfFuel
  | Some _, S fuel =>
      x ← deref h reqp;
      '(_, _, h) ← rec h (ereq x);
      h ← free h reqp;
      free_chain rec fuel h (sreq x)
  end.

(** The return value, [*req] afterwards, and the heap. *)
Fixpoint PVFS_Request_free (fuel : nat) (h : req_heap) (req : ptr)
    : exec (Z * ptr * req_heap) :=
  match fuel with
  | O => Fault OutOfFuel
  | S fuel =>
      match req with
      | None => Done (PVFS_ERR_REQ, None, h)
      | Some a =>
          r ← deref h req;
          if decide (refcount r ≤ 0) then Done (PVFS_SUCCESS, req, h)
          else
            h ← PINT_REQUEST_REFDEC h req;
            r ← deref h req;
            if decide (refcount r > 0) then Done (PVFS_SUCCESS, None, h)
            else if PINT_REQUEST_IS_PACKED r then
              Done (PVFS_SUCCESS, None, free_region h a (num_nested_req r + 1))
            else
              h ← free_chain (PVFS_Request_free fuel) fuel h (sreq r);
              '(_, _, h) ← PVFS_Request_free fuel h (ereq r);
              h ← free h req;
              Done (PVFS_SUCCESS, None, h)
      end
  end.

(** * Addresses of a request *)

Fixpoint nodes (t : rtree) : list positive :=
  match t with RNull => [] | RReq a _ e q => a :: nodes e ++ nodes q end.

(** A struct of a tree is the root of a tree of its own. *)
Lemma sub_repr h p t b :
  repr h p t → b ∈ nodes t →
  ∃ u, repr h (Some b) u ∧ nodes u ⊆ nodes t ∧ (tree_size u ≤ tree_size t)%nat.
Proof.
  revert p. induction t as [|a r e IHe q IHq]; intros p; [by intros _ ?%elem_of_nil|].
  intros Hr Hb. pose proof Hr as (-> & _ & He & Hq). cbn [nodes] in *.
  apply elem_of_cons in Hb as [->|[Hb|Hb]%elem_of_app].
  - exists (RReq a r e q). split; [done|]. split; [set_solver|]. done.
  - destruct (IHe _ He Hb) as (u & Hu & Hs & Hn). exists u. split; [done|].
    split; [set_solver|]. cbn. lia.
  - destruct (IHq _ Hq Hb) as (u & Hu & Hs & Hn). exists u. split; [done|].
    split; [set_solver|]. cbn. lia.
Qed.

(** There are no cycles. *)
Lemma acyclic h p a r e q :
  repr h p (RReq a r e q) → (a ∉ nodes e) ∧ (a ∉ nodes q).
Proof.
  intros Hr. pose proof Hr as (-> & _ & He & Hq). split; intros Ha;
    [destruct (sub_repr _ _ _ _ He Ha) as (u & Hu & _ & Hn)
    |destruct (sub_repr _ _ _ _ Hq Ha) as (u & Hu & _ & Hn)];
    rewrite (repr_fun _ _ _ _ Hu Hr) in Hn; cbn in Hn; lia.
Qed.

Lemma repr_node h p t b : repr h p t → b ∈ nodes t → is_Some (h !! b).
Proof.
  intros Hr Hb. destruct (sub_repr _ _ _ _ Hr Hb) as ([|a r e q] & Hu & _); [done|].
  destruct Hu as ([= ->] & (x & -> & _) & _). by eexists.
Qed.

Lemma slot_inj region i j : 0 ≤ i → 0 ≤ j → slot region i = slot region j → i = j.
Proof. unfold slot. intros Hi Hj H%(f_equal Z.pos). rewrite !Z2Pos.id in H; lia. Qed.

(** * The copy *)

(** Where the structs listed in [L] are copied to, in this order. *)
Definition pos (L : list positive) (b : positive) : Z :=
  match list_find (λ x, x = b) L with Some (i, _) => Z.of_nat i | None => 0 end.

Definition moved (region : positive) (L : list positive) (p : ptr) : ptr :=
  (λ b, slot region (pos L b)) <$> p.

Definition copy (region : positive) (L : list positive) (r : PINT_Request) : PINT_Request :=
  set_sreq (set_ereq r (moved region L (ereq r))) (moved region L (sreq r)).

Fixpoint reloc (region : positive) (L : list positive) (t : rtree) : rtree :=
  match t with
  | RNull => RNull
  | RReq a r e q =>
      RReq (slot region (pos L a)) (copy region L r) (reloc region L e) (reloc region L q)
  end.

Lemma pos_lookup L i b : NoDup L → L !! i = Some b → pos L b = Z.of_nat i.
Proof.
  intros Hn Hi. unfold pos.
  assert (list_find (λ x, x = b) L = Some (i, b)) as ->; [|done].
  apply list_find_Some. split; [done|]. split; [done|]. intros j y Hj Hlt ->.
  pose proof (NoDup_lookup _ _ _ _ Hn Hi Hj). lia.
Qed.

Lemma pos_app L K b : b ∈ L → pos (L ++ K) b = pos L b.
Proof.
  intros Hb. unfold pos. destruct (list_find (λ x, x = b) L) as [[i y]|] eqn:E.
  - by rewrite (list_find_app_l _ _ _ _ _ E).
  - apply list_find_None in E. rewrite Forall_forall in E. by destruct (E b Hb).
Qed.

Section commit.
Context (region : positive) (n : Z) (h0 : req_heap).
Context (Hfresh : ∀ i, 0 ≤ i < n → h0 !! slot region i = None) (Hn : n < B31).

Definition is_slot (b : positive) : Prop := ∃ i, 0 ≤ i < n ∧ b = slot region i.

Lemma node_not_slot b r : h0 !! b = Some r → ¬ is_slot b.
Proof. intros Hb (i & Hi & ->). by rewrite Hfresh in Hb. Qed.

(** The heap when the structs of [L] are marked and the rest is as it was;
    [L] lists them by index. *)
Definition marked (L : list positive) (h : req_heap) : Prop :=
  NoDup L ∧ Z.of_nat (length L) ≤ n ∧
  (∀ i b, L !! i = Some b →
     ∃ r, h0 !! b = Some r ∧ h !! b = Some (set_committed r (Z.of_nat i))) ∧
  (∀ b, b ∉ L → ¬ is_slot b → h !! b = h0 !! b).

Definition links_in (L : list positive) (r : PINT_Request) : Prop :=
  ∀ b, ereq r = Some b ∨ sreq r = Some b → b ∈ L.

(** The struct [b] has been copied with its links. *)
Definition copied (L : list positive) (h : req_heap) (b : positive) : Prop :=
  ∃ i r, L !! i = Some b ∧ h0 !! b = Some r ∧ links_in L r ∧
    h !! slot region (Z.of_nat i) = Some (copy region L r).

Lemma moved_app L K p :
  (∀ b, p = Some b → b ∈ L) → moved region (L ++ K) p = moved region L p.
Proof. intros H. destruct p as [b|]; [|done]. cbn. by rewrite pos_app by auto. Qed.

Lemma copied_app L K h h' b :
  copied L h b → (∀ i, 0 ≤ i < Z.of_nat (length L) → h' !! slot region i = h !! slot region i) →
  copied (L ++ K) h' b.
Proof.
  intros (i & r & Hi & Hr & Hl & Hc) Hf. pose proof (lookup_lt_Some _ _ _ Hi) as Hlt.
  exists i, r. split; [by apply lookup_app_l_Some|]. split; [done|].
  split; [intros c Hc'; apply elem_of_app; left; by apply Hl|].
  rewrite Hf, Hc by lia. unfold copy. rewrite !moved_app; [done|intros c Hc'; apply Hl; auto..].
Qed.

(** Writing to a slot in use, or to one that is not, leaves the marks. *)
Lemma marked_slot L h i x :
  marked L h → 0 ≤ i < n → marked L (<[slot region i := x]> h).
Proof.
  intros (Hd & Hl & Hm & Ho) Hi. split; [done|]. split; [done|]. split.
  - intros j b Hj. destruct (Hm j b Hj) as (r & Hr & Hb). exists r. split; [done|].
    rewrite lookup_insert_ne; [done|]. intros <-. by rewrite Hfresh in Hr.
  - intros b Hb Hs. rewrite lookup_insert_ne; [auto|]. intros <-. apply Hs. by exists i.
Qed.

Lemma marked_push L h a r :
  marked L h → h0 !! a = Some r → a ∉ L → Z.of_nat (length L) < n →
  marked (L ++ [a]) (<[a := set_committed r (Z.of_nat (length L))]> h).
Proof.
  intros (Hd & Hl & Hm & Ho) Ha Hna Hlt. split; [|split; [|split]].
  - apply NoDup_app. split; [done|]. split; [|apply NoDup_singleton]. set_solver.
  - rewrite length_app. cbn. lia.
  - intros i b [Hi|[Hlen Hi]]%lookup_app_Some.
    + destruct (Hm i b Hi) as (r' & Hr' & Hb). exists r'. split; [done|].
      rewrite lookup_insert_ne; [done|]. intros <-. apply Hna. by eapply list_elem_of_lookup_2.
    + apply list_lookup_singleton_Some in Hi as [Hi <-]. exists r. split; [done|].
      rewrite lookup_insert_eq. do 3 f_equal. lia.
  - intros b [Hb Hba%not_elem_of_cons]%not_elem_of_app Hs.
    rewrite lookup_insert_ne; [auto|]. intros <-. by destruct Hba.
Qed.

(** What is copied and not on the path [P] from the root has its whole tree
    copied. *)
Definition settled (L P : list positive) (h : req_heap) : Prop :=
  ∀ b, b ∈ L → b ∉ P → copied L h b.

Lemma settled_nodes L P h p t :
  settled L P h → repr h0 p t → (∀ b, p = Some b → b ∈ L) → (∀ b, b ∈ P → b ∉ nodes t) →
  nodes t ⊆ L.
Proof.
  intros Hs. revert p. induction t as [|a r e IHe q IHq]; intros p Hr Hp HP; [set_solver|].
  destruct Hr as (-> & (x & Hx & ->) & He & Hq). cbn [nodes] in *.
  assert (a ∈ L) as Ha by auto.
  destruct (Hs a Ha) as (i & y & _ & Hy & Hl & _); [intros H; apply (HP a H); left|].
  simplify_eq. cbn [ereq sreq strip] in He, Hq.
  pose proof (IHe _ He ltac:(intros b Hb; apply Hl; auto) ltac:(set_solver)).
  pose proof (IHq _ Hq ltac:(intros b Hb; apply Hl; auto) ltac:(set_solver)). set_solver.
Qed.

(** There are slots for the structs of [t] that are not in [L]. *)
Definition room (L : list positive) (t : rtree) : Prop :=
  ∀ K, K ⊆ nodes t → NoDup (L ++ K) → Z.of_nat (length (L ++ K)) ≤ n.

(** The struct at index 0, whose mark looks like none, is on the path. *)
Definition root_on (L P : list positive) : Prop := ∃ b, L !! 0%nat = Some b ∧ b ∈ P.

(** [rec] copies the tree [t]. *)
Definition commits (rec : req_heap → ptr → Z → exec (ptr * req_heap * Z)) (t : rtree) : Prop :=
  ∀ p L P h,
    repr h0 p t → (∀ b r, b ∈ nodes t → h0 !! b = Some r → committed r = 0) →
    marked L h → settled L P h → root_on L P → (∀ b, b ∈ P → b ∉ nodes t) → room L t →
    ∃ K h', rec h p (Z.of_nat (length L)) =
              Done (moved region (L ++ K) p, h', Z.of_nat (length (L ++ K))) ∧
      K ⊆ nodes t ∧ nodes t ⊆ L ++ K ∧ marked (L ++ K) h' ∧ settled (L ++ K) P h' ∧
      (∀ i, 0 ≤ i < Z.of_nat (length L) → h' !! slot region i = h !! slot region i).

(** A missing link needs no call. *)
Definition link (rec : req_heap → ptr → Z → exec (ptr * req_heap * Z)) (h : req_heap) (p : ptr)
    (index : Z) : exec (ptr * req_heap * Z) :=
  match p with Some _ => rec h p index | None => Done (None, h, index) end.

Lemma commits_link rec t : commits rec t → commits (link rec) t.
Proof.
  intros Hrec p L P h Hr H0 Hm Hs Hro HP Hroom. destruct p as [b|]; [by eapply Hrec|].
  destruct t; [|by destruct Hr]. exists [], h. rewrite app_nil_r. cbn.
  split; [done|]. split; [done|]. split; [set_solver|]. done.
Qed.

Lemma settled_push L P h h' a :
  settled L P h → (∀ i, 0 ≤ i < Z.of_nat (length L) → h' !! slot region i = h !! slot region i) →
  settled (L ++ [a]) (a :: P) h'.
Proof.
  intros Hs Hf b [Hb|Hb]%elem_of_app HbP.
  - eapply copied_app; [apply Hs; [done|]|done]. intros H. apply HbP. by right.
  - apply list_elem_of_singleton in Hb as ->. by destruct HbP; left.
Qed.

(** Setting a link of the copy of [a], the next struct on the path. *)
Lemma settled_here L P h a i x :
  settled L (a :: P) h → NoDup L → L !! i = Some a →
  settled L (a :: P) (<[slot region (Z.of_nat i) := x]> h).
Proof.
  intros Hs Hd Hi b Hb HbP. destruct (Hs b Hb HbP) as (j & r & Hj & Hr & Hl & Hc).
  exists j, r. split; [done|]. split; [done|]. split; [done|].
  rewrite lookup_insert_ne; [done|]. intros Heq%slot_inj; [|lia..].
  assert (j = i) as -> by lia. rewrite Hi in Hj. injection Hj as ->. apply HbP. by left.
Qed.

Lemma update_Some h a r f : h !! a = Some r → update h (Some a) f = Done (<[a := f r]> h).
Proof. intros H. unfold update. by rewrite H. Qed.

Section one.
Context (rec : req_heap → ptr → Z → exec (ptr * req_heap * Z)).
Context (a : positive) (x : PINT_Request) (e q : rtree) (L P : list positive) (h : req_heap).
Let t := RReq a (strip x) e q.
Context (Hce : commits rec e) (Hcq : commits rec q) (Hr : repr h0 (Some a) t).
Context (Hx : h0 !! a = Some x) (H0 : ∀ b r, b ∈ nodes t → h0 !! b = Some r → committed r = 0).
Context (Hm : marked L h) (Hs : settled L P h) (Hro : L = [] ∨ root_on L P).
Context (HP : ∀ b, b ∈ P → b ∉ nodes t) (Hroom : room L t) (Ha : a ∉ L).

Let l := Z.of_nat (length L).

(** The state while the links of [a] are followed: [y] is in its slot, and
    what has been added to [L] begins with [a] and belongs to [t]. *)
Definition on_path (L' : list positive) (h' : req_heap) (y : PINT_Request) : Prop :=
  marked L' h' ∧ settled L' (a :: P) h' ∧ root_on L' (a :: P) ∧
  (∃ K, L' = L ++ a :: K ∧ a :: K ⊆ nodes t) ∧ h' !! slot region l = Some y ∧
  (∀ i, 0 ≤ i < l → h' !! slot region i = h !! slot region i).

Lemma next_slot : 0 ≤ l < n.
Proof.
  pose proof (Hroom [a]) as Hk. rewrite length_app in Hk. cbn in Hk. unfold l.
  enough (Z.of_nat (length L + 1) ≤ n) by lia. apply Hk; [set_solver|].
  apply NoDup_app. split; [apply Hm|]. split; [set_solver|apply NoDup_singleton].
Qed.

Lemma enter :
  h !! a = Some x ∧ a ≠ slot region l ∧
  on_path (L ++ [a]) (<[a := set_committed x l]> (<[slot region l := x]> h)) x.
Proof.
  pose proof next_slot as Hl. assert (¬ is_slot a) as Has by (by eapply node_not_slot).
  assert (a ≠ slot region l) as Hasl by (intros Heq; apply Has; by exists l).
  split; [destruct Hm as (_ & _ & _ & Ho); by rewrite Ho|]. split; [done|].
  assert (∀ i, 0 ≤ i < l → (<[a := set_committed x l]> (<[slot region l := x]> h))
    !! slot region i = h !! slot region i) as Hf.
  { intros i Hi. rewrite lookup_insert_ne by (intros ->; apply Has; exists i; lia).
    rewrite lookup_insert_ne; [done|]. intros Heq%slot_inj; lia. }
  split; [apply marked_push; [by apply marked_slot|done..|unfold l in Hl; lia]|].
  split; [by eapply settled_push|]. split.
  { destruct Hro as [->|(b & Hb & HbP)]; [by exists a; split; [|left]|].
    exists b. split; [by apply lookup_app_l_Some|by right]. }
  split; [exists []; split; [done|set_solver]|]. split; [|done].
  rewrite lookup_insert_ne by done. by rewrite lookup_insert_eq.
Qed.

(** Following one link and setting it in the copy. *)
Lemma follow u p L' h' y (f : ptr → PINT_Request → PINT_Request) :
  commits rec u → repr h0 p u → nodes u ⊆ nodes e ++ nodes q → on_path L' h' y →
  ∃ K h'', link rec h' p (Z.of_nat (length L')) =
             Done (moved region (L' ++ K) p, h'', Z.of_nat (length (L' ++ K))) ∧
    nodes u ⊆ L' ++ K ∧ update h'' (Some (slot region l)) (f (moved region (L' ++ K) p)) =
      Done (<[slot region l := f (moved region (L' ++ K) p) y]> h'') ∧
    on_path (L' ++ K) (<[slot region l := f (moved region (L' ++ K) p) y]> h'')
      (f (moved region (L' ++ K) p) y).
Proof.
  intros Hu Hp Hsub (Hm' & Hs' & Hro' & (K' & HL' & HK') & Hy & Hf').
  pose proof next_slot as Hl. destruct (acyclic _ _ _ _ _ _ Hr) as [Hae Haq].
  assert (nodes u ⊆ nodes t) as Hut by (cbn; set_solver).
  destruct (commits_link _ _ Hu p L' (a :: P) h') as
    (K & h'' & E & HK & Hn' & Hm'' & Hs'' & Hf''); try done.
  { intros b r Hb. apply H0. set_solver. }
  { intros b [->|Hb]%elem_of_cons; [set_solver|]. intros Hbu. apply (HP b Hb). set_solver. }
  { intros K HK Hnd. subst L'. rewrite <- app_assoc in *. apply Hroom; [set_solver|done]. }
  assert (L' !! length L = Some a) as HLa by (subst L'; by rewrite list_lookup_middle).
  pose proof (lookup_lt_Some _ _ _ HLa) as Hlt.
  exists K, h''. split; [done|]. split; [done|].
  split; [apply update_Some; rewrite Hf''; [done|unfold l in *; lia]|].
  split; [by apply marked_slot|]. split; [apply settled_here; [done|apply Hm''|]|].
  { by apply lookup_app_l_Some. }
  split; [destruct Hro' as (b & Hb & HbP); exists b; split; [by apply lookup_app_l_Some|done]|].
  split; [exists (K' ++ K); subst L'; rewrite <- app_assoc; split; [done|set_solver]|].
  split; [by rewrite lookup_insert_eq|]. intros i Hi.
  rewrite lookup_insert_ne by (intros ?%slot_inj; lia). rewrite Hf''; [auto|unfold l in *; lia].
Qed.

Lemma repr_root p u b : repr h0 p u → p = Some b → b ∈ nodes u.
Proof. intros Hu ->. destruct u; [done|]. destruct Hu as ([= ->] & _). by left. Qed.

Lemma commit_copy_spec :
  ∃ K h', commit_copy rec region n h (Some a) x l =
            Done (h', Z.of_nat (length (L ++ a :: K))) ∧
    a :: K ⊆ nodes t ∧ nodes t ⊆ L ++ a :: K ∧ marked (L ++ a :: K) h' ∧
    settled (L ++ a :: K) P h' ∧
    (∀ i, 0 ≤ i < l → h' !! slot region i = h !! slot region i).
Proof.
  destruct enter as (Hha & Hasl & H1). pose proof next_slot as Hl.
  pose proof Hr as (_ & _ & He & Hq). cbn [ereq sreq strip] in He, Hq.
  unfold commit_copy. rewrite decide_True by done.
  rewrite (update_Some _ a x) by (by rewrite lookup_insert_ne). cbn [mbind exec_bind].
  replace (i32 (l + 1)) with (Z.of_nat (length (L ++ [a])))
    by (rewrite length_app, i32_id; cbn; unfold l in *; lia).
  destruct (follow e (ereq x) _ _ _ (λ p r, set_ereq r p) Hce He ltac:(set_solver) H1)
    as (K1 & h2 & E1 & Hn1 & U1 & H2).
  unfold link in E1. rewrite E1. cbn [mbind exec_bind]. rewrite U1. cbn [mbind exec_bind].
  destruct (follow q (sreq x) _ _ _ (λ p r, set_sreq r p) Hcq Hq ltac:(set_solver) H2)
    as (K2 & h4 & E2 & Hn2 & U2 & H4).
  unfold link in E2. rewrite E2. cbn [mbind exec_bind]. rewrite U2. cbn [mbind exec_bind].
  destruct H4 as (Hm4 & Hs4 & _ & (K & HL4 & HK) & Hy & Hf).
  eexists K, _. rewrite <- HL4. split; [done|]. split; [done|].
  split; [cbn [nodes t]; set_solver|]. split; [done|]. split; [|done].
  intros b Hb HbP. destruct (decide (b = a)) as [->|Hne];
    [|apply Hs4; [done|by intros [->|?]%elem_of_cons]].
  exists (length L), x. split; [rewrite HL4; by rewrite list_lookup_middle|]. split; [done|].
  split; [intros c [Hc|Hc]; [pose proof (repr_root _ _ _ He Hc)|pose proof (repr_root _ _ _ Hq Hc)];
    set_solver|].
  fold l. rewrite Hy. unfold copy. do 3 f_equal. symmetry. apply moved_app. intros c Hc.
  apply Hn1. by eapply repr_root.
Qed.
End one.

Lemma marked_lookup L h i b r :
  marked L h → L !! i = Some b → h0 !! b = Some r → h !! b = Some (set_committed r (Z.of_nat i)).
Proof. intros (_ & _ & Hm & _) Hi Hr. destruct (Hm _ _ Hi) as (r' & ? & ?). by simplify_eq. Qed.

Lemma do_commit_commits t fuel d :
  (tree_size t < fuel)%nat → d > 0 →
  commits (λ h p i, PINT_do_request_commit fuel region n h p i d) t.
Proof.
  revert fuel d. induction t as [|a r e IHe q IHq]; intros [|fuel] d Hsz Hd; try lia;
    intros p L P h Hr H0 Hm Hs Hro HP Hroom.
  { cbn in Hr. subst p. exists [], h. rewrite app_nil_r. cbn. split; [done|].
    split; [done|]. split; [set_solver|]. done. }
  pose proof Hr as (-> & (x & Hx & ->) & _). cbn [tree_size] in Hsz.
  assert (committed x = 0) as Hc0 by (eapply H0; [by left|done]).
  cbn [PINT_do_request_commit]. destruct (decide (a ∈ L)) as [Ha|Ha].
  - destruct (Hs a Ha) as (i & x' & Hi & Hx' & _); [intros H; apply (HP a H); by left|].
    simplify_eq. rewrite (deref_Some h a (set_committed x (Z.of_nat i)))
      by (by eapply marked_lookup). cbn [mbind exec_bind committed set_committed].
    rewrite bool_decide_false by lia. cbn [mbind exec_bind].
    rewrite (deref_Some h a (set_committed x (Z.of_nat i))) by (by eapply marked_lookup).
    cbn [mbind exec_bind committed set_committed].
    assert (i ≠ 0%nat) as Hi0.
    { intros ->. destruct Hro as (b & Hb & HbP). assert (b = a) as -> by congruence.
      apply (HP a HbP). by left. }
    rewrite decide_True by lia. exists [], h. rewrite app_nil_r. cbn [moved fmap option_fmap option_map].
    rewrite (pos_lookup L i a) by (done || apply Hm). split; [done|]. split; [set_solver|].
    split; [eapply (settled_nodes L P h); try done; by intros b [= <-]|]. done.
  - assert (h !! a = Some x) as Hha.
    { destruct Hm as (_ & _ & _ & Ho). rewrite Ho; [done..|by eapply node_not_slot]. }
    rewrite (deref_Some h a x) by done. cbn [mbind exec_bind].
    rewrite bool_decide_false by lia. cbn [mbind exec_bind]. rewrite (deref_Some h a x) by done.
    cbn [mbind exec_bind]. rewrite decide_False by lia.
    destruct (commit_copy_spec (λ h p i, PINT_do_request_commit fuel region n h p i (d + 1))
      a x e q L P h) as (K & h' & E & HK & Hn' & Hm' & Hs' & Hf); try done; [| |by right|].
    { apply IHe; lia. }
    { apply IHq; lia. }
    rewrite E. cbn [mbind exec_bind]. rewrite decide_False by lia. cbn [mbind exec_bind].
    assert ((L ++ a :: K) !! length L = Some a) as HLa by (by rewrite list_lookup_middle).
    rewrite (deref_Some h' a _ (marked_lookup _ _ _ _ _ Hm' HLa Hx)).
    cbn [mbind exec_bind committed set_committed]. exists (a :: K), h'.
    cbn [moved fmap option_fmap option_map]. rewrite (pos_lookup _ (length L) a) by (done || apply Hm').
    done.
Qed.

(** ** Clearing the marks *)

Section clear.
(** The heap [hc] with the structs of [L] marked. *)
Context (L : list positive) (hc : req_heap) (root : positive).
Context (Hmc : marked L hc) (Hroot : L !! 0%nat = Some root).
Context (H00 : ∀ b r, b ∈ L → h0 !! b = Some r → committed r = 0).

(** The marks of [C] have been cleared. *)
Definition cleared (C : list positive) (h : req_heap) : Prop :=
  ∀ b, h !! b = if decide (b ∈ C) then h0 !! b else hc !! b.

(** A cleared struct that is not on the path has its whole tree cleared. *)
Definition swept (C P : list positive) : Prop :=
  ∀ b u, b ∈ C → b ∉ P → repr h0 (Some b) u → nodes u ⊆ C.

Lemma set_committed_0 r : committed r = 0 → set_committed r 0 = r.
Proof. destruct r; cbn. by intros ->. Qed.

Lemma cleared_push C h a x :
  cleared C h → a ∈ L → h0 !! a = Some x → cleared (a :: C) (<[a := x]> h).
Proof.
  intros Hc Ha Hx b. destruct (decide (b = a)) as [->|Hne].
  - rewrite lookup_insert_eq, decide_True by (by left). done.
  - rewrite lookup_insert_ne by done. rewrite Hc. repeat case_decide; set_solver.
Qed.

(** A struct that is still marked. *)
Lemma still_marked C h a x :
  cleared C h → a ∈ L → a ∉ C → a ≠ root → h0 !! a = Some x →
  ∃ i, h !! a = Some (set_committed x i) ∧ i > 0.
Proof.
  intros Hc [i Hi]%list_elem_of_lookup_1 Ha Hne Hx. exists (Z.of_nat i).
  rewrite Hc, decide_False by done. split; [by eapply marked_lookup|].
  destruct i; [by simplify_eq|lia].
Qed.

Lemma swept_push C P a t :
  swept C (a :: P) → repr h0 (Some a) t → nodes t ⊆ C → swept C P.
Proof.
  intros Hs Ht Hnt b u Hb HbP Hu. destruct (decide (b = a)) as [->|Hne].
  - by rewrite (repr_fun _ _ _ _ Hu Ht).
  - apply (Hs b u); [done| |done]. by intros [->|?]%elem_of_cons.
Qed.

(** The recursive calls do nothing for a missing link. *)
Definition clear_link (fuel : nat) (h : req_heap) (p : ptr) (d : Z) : exec req_heap :=
  match p with Some _ => PINT_do_clear_commit fuel h p d | None => Done h end.

(** What a call with a positive depth does. *)
Definition clears (fuel : nat) (t : rtree) : Prop := ∀ p C P h d,
  repr h0 p t → nodes t ⊆ L → cleared C h → swept C P → (∀ b, b ∈ P → b ∉ nodes t) →
  d > 0 → root ∈ P →
  ∃ C' h', clear_link fuel h p d = Done h' ∧ cleared C' h' ∧ swept C' P ∧
    C ⊆ C' ∧ nodes t ⊆ C' ∧ C' ⊆ C ++ nodes t.

(** The links of a struct whose mark has just been cleared. *)
Lemma clear_links fuel a x e q C P h d :
  clears fuel e → clears fuel q → repr h0 (Some a) (RReq a (strip x) e q) →
  nodes (RReq a (strip x) e q) ⊆ L → cleared (a :: C) h → swept (a :: C) (a :: P) →
  (∀ b, b ∈ P → b ∉ nodes (RReq a (strip x) e q)) → d > 0 → root ∈ a :: P →
  ∃ C' h', (h1 ← clear_link fuel h (ereq x) d; clear_link fuel h1 (sreq x) d) = Done h' ∧
    cleared C' h' ∧ swept C' P ∧ a :: C ⊆ C' ∧ nodes (RReq a (strip x) e q) ⊆ C' ∧
    C' ⊆ C ++ nodes (RReq a (strip x) e q).
Proof.
  intros He Hq Hr HtL Hc Hsw HP Hd Hro. pose proof Hr as (_ & _ & Hre & Hrq).
  destruct (acyclic _ _ _ _ _ _ Hr) as [Hae Haq]. cbn [nodes] in *.
  destruct (He (ereq x) (a :: C) (a :: P) h d) as (C1 & h1 & E1 & Hc1 & Hs1 & Hi1 & Hn1 & Hb1);
    try done; [set_solver|set_solver|].
  destruct (Hq (sreq x) C1 (a :: P) h1 d) as (C2 & h2 & E2 & Hc2 & Hs2 & Hi2 & Hn2 & Hb2);
    try done; [set_solver|set_solver|].
  exists C2, h2. rewrite E1. cbn [mbind exec_bind]. split; [done|]. split; [done|].
  split; [eapply swept_push; [done|exact Hr|cbn [nodes]; set_solver]|].
  clear - Hi1 Hn1 Hb1 Hi2 Hn2 Hb2. split; [set_solver|]. split; [set_solver|].
  intros c [Hc|Hc]%Hb2%elem_of_app; [|set_solver].
  apply Hb1, elem_of_app in Hc as [Hc|Hc]; set_solver.
Qed.

Lemma clear_spec t fuel : (tree_size t < fuel)%nat → clears fuel t.
Proof.
  revert fuel. induction t as [|a r e IHe q IHq];
    intros [|fuel] Hsz p C P h d Hr HtL Hc Hsw HP Hd Hro; cbn [tree_size] in Hsz; try lia.
  { cbn in Hr. subst p. exists C, h. cbn. split; [done|]. set_solver. }
  pose proof Hr as (-> & (x & Hx & ->) & _).
  assert (a ∈ L) as HaL by (apply HtL; by left).
  assert (a ≠ root) as Hne by (intros ->; apply (HP root Hro); by left).
  cbn [clear_link PINT_do_clear_commit]. destruct (decide (a ∈ C)) as [Ha|Ha].
  - rewrite (deref_Some h a x) by (by rewrite Hc, decide_True). cbn [mbind exec_bind].
    rewrite decide_True by (split; [by eapply H00|done]). exists C, h.
    split; [done|]. split; [done|]. split; [done|]. split; [done|].
    split; [|set_solver]. apply (Hsw a); [done| |done]. intros H. apply (HP a H). by left.
  - destruct (still_marked C h a x) as (i & Hi & Hi0); try done.
    rewrite (deref_Some h a _ Hi). cbn [mbind exec_bind committed set_committed ereq sreq].
    rewrite decide_False by lia. rewrite (update_Some _ _ _ _ Hi). cbn [mbind exec_bind].
    assert (set_committed (set_committed x i) 0 = x) as ->.
    { rewrite <- (set_committed_0 x) at 2; [done|by eapply H00]. }
    destruct (clear_links fuel a x e q C P (<[a := x]> h) (d + 1)) as
      (C' & h' & E & Hc' & Hs' & Hi' & Hn' & Hb'); try done.
    { apply IHe. lia. }
    { apply IHq. lia. }
    { by apply cleared_push. }
    { intros b u [->|Hb]%elem_of_cons HbP; [by destruct HbP; left|].
      intros Hu. transitivity C; [|set_solver]. apply (Hsw b); [done|set_solver|done]. }
    { lia. }
    { by right. }
    exists C', h'. split; [exact E|]. split; [done|]. split; [done|]. set_solver.
Qed.

(** Clearing from the root clears everything. *)
Lemma clear_root t fuel :
  repr h0 (Some root) t → nodes t ⊆ L → L ⊆ nodes t → (tree_size t < fuel)%nat →
  ∃ h', PINT_do_clear_commit fuel hc (Some root) 0 = Done h' ∧
    ∀ b, h' !! b = if decide (b ∈ L) then h0 !! b else hc !! b.
Proof.
  intros Hr HtL HLt Hsz. destruct t as [|a r e q]; [done|].
  pose proof Hr as ([= <-] & (x & Hx & ->) & _). destruct fuel as [|fuel]; [lia|].
  cbn [tree_size] in Hsz. pose proof (marked_lookup _ _ _ _ _ Hmc Hroot Hx) as Hh.
  cbn [PINT_do_clear_commit]. rewrite (deref_Some _ _ _ Hh).
  cbn [mbind exec_bind ereq sreq set_committed committed]. rewrite decide_False by lia.
  rewrite (update_Some _ _ _ _ Hh). cbn [mbind exec_bind].
  assert (set_committed (set_committed x (Z.of_nat 0)) 0 = x) as ->.
  { rewrite <- (set_committed_0 x) at 2; [done|]. eapply H00; [|done]. apply HtL. by left. }
  destruct (clear_links fuel root x e q [] [] (<[root := x]> hc) (0 + 1)) as
    (C' & h' & E & Hc' & _ & _ & Hn' & Hb'); try done.
  { apply clear_spec. lia. }
  { apply clear_spec. lia. }
  { apply cleared_push; [|apply HtL; by left|done]. intros b. rewrite decide_False by set_solver. done. }
  { intros b u [->|Hb]%elem_of_cons HbP; [by destruct HbP; left|set_solver]. }
  { set_solver. }
  { by left. }
  exists h'. split; [exact E|]. intros b. rewrite Hc'. repeat case_decide; set_solver.
Qed.
End clear.

(** ** From the root *)

(** [h'] holds the structs of [L] in the region, the first one marked as the
    root of a packed request; the rest is as in [h]. *)
Definition packed (L : list positive) (h h' : req_heap) : Prop :=
  (∀ b, ¬ is_slot b → h' !! b = h !! b) ∧
  (∀ i b r, L !! i = Some b → h !! b = Some r →
     h' !! slot region (Z.of_nat i) =
       Some (set_committed (copy region L r) (if decide (i = 0%nat) then -1 else 0))).

Lemma copied_index L h i b r :
  NoDup L → L !! i = Some b → h0 !! b = Some r → copied L h b →
  h !! slot region (Z.of_nat i) = Some (copy region L r).
Proof.
  intros Hd Hi Hr (j & r' & Hj & Hr' & _ & Hc). pose proof (NoDup_lookup _ _ _ _ Hd Hi Hj).
  by simplify_eq.
Qed.

Lemma packed_root L hc h1 a x :
  L !! 0%nat = Some a → h0 !! a = Some x → (∀ b r, b ∈ L → h0 !! b = Some r → committed r = 0) →
  marked L hc → settled L [] hc → (∀ b, h1 !! b = if decide (b ∈ L) then h0 !! b else hc !! b) →
  packed L h0 (<[slot region 0 := set_committed (copy region L x) (-1)]> h1) ∧
  h1 !! slot region 0 = Some (copy region L x).
Proof.
  intros H0 Hx Hz Hm Hs H1. pose proof Hm as (Hd & Hl & _ & Ho).
  pose proof (lookup_lt_Some _ _ _ H0) as Hlt.
  assert (∀ i b r, L !! i = Some b → h0 !! b = Some r →
    h1 !! slot region (Z.of_nat i) = Some (copy region L r)) as Hslots.
  { intros i b r Hi Hb. pose proof (lookup_lt_Some _ _ _ Hi). rewrite H1, decide_False.
    - eapply copied_index; try done. apply Hs; [by eapply list_elem_of_lookup_2|set_solver].
    - intros [j Hj]%list_elem_of_lookup_1. destruct (Hm) as (_ & _ & Hmm & _).
      destruct (Hmm _ _ Hj) as (r' & Hr' & _). rewrite Hfresh in Hr'; [done|lia]. }
  split; [|by apply (Hslots 0%nat a)]. split.
  - intros b Hb. rewrite lookup_insert_ne by (intros <-; apply Hb; exists 0; lia).
    rewrite H1. case_decide; [done|by apply Ho].
  - intros i b r Hi Hr. case_decide as Hi0.
    + subst i. simplify_eq. by rewrite lookup_insert_eq.
    + rewrite lookup_insert_ne by (intros ?%slot_inj; lia). rewrite (Hslots i b r Hi Hr).
      rewrite set_committed_0; [done|]. cbn. eapply Hz; [by eapply list_elem_of_lookup_2|done].
Qed.

Lemma do_commit_root a x t fuel w :
  repr h0 (Some a) t → h0 !! a = Some x →
  (∀ b r, b ∈ nodes t → h0 !! b = Some r → committed r = 0) → room [] t →
  (tree_size t < fuel)%nat →
  ∃ L h', L !! 0%nat = Some a ∧ NoDup L ∧ (∀ b, b ∈ L ↔ b ∈ nodes t) ∧ packed L h0 h' ∧
    ('(h, i) ← commit_copy (λ h p i, PINT_do_request_commit fuel region n h p i (0 + 1))
        region n h0 (Some a) x 0;
     h ← commit_root fuel region h (Some a) w; Done (h, i)) =
    Done (if w then <[a := set_committed x (-1)]> h' else h', Z.of_nat (length L)).
Proof.
  intros Hr Hx Hz Hroom Hsz. destruct t as [|a' r e q]; [done|].
  pose proof Hr as ([= <-] & (x' & Hx' & ->) & _). simplify_eq. cbn [tree_size] in Hsz.
  destruct (commit_copy_spec (λ h p i, PINT_do_request_commit fuel region n h p i (0 + 1))
    a x e q [] [] h0) as (K & hc & E & HK & Hnk & Hm & Hs & _); try done.
  { apply do_commit_commits; lia. }
  { apply do_commit_commits; lia. }
  { split; [constructor|]. split; [|split; [by intros ??|done]].
    pose proof (Hroom []) as H. apply H; [set_solver|constructor]. }
  { by intros b ?%elem_of_nil. }
  { by left. }
  { by intros b ?%elem_of_nil. }
  { apply not_elem_of_nil. }
  cbn [app length] in E, Hnk, Hm, Hs. change (Z.of_nat 0) with 0 in E.
  assert (∀ b r, b ∈ a :: K → h0 !! b = Some r → committed r = 0) as Hz' by (intros b r' Hb; apply Hz; set_solver).
  destruct (clear_root (a :: K) hc a Hm eq_refl Hz' (RReq a (strip x) e q) fuel) as (h1 & E1 & H1);
    try done.
  destruct (packed_root (a :: K) hc h1 a x) as [Hp Hroot]; try done.
  eexists (a :: K), _. split; [done|]. split; [apply Hm|]. split; [set_solver|].
  split; [exact Hp|]. rewrite E. cbn [mbind exec_bind]. unfold commit_root. rewrite E1.
  cbn [mbind exec_bind]. rewrite (update_Some _ _ _ _ Hroot). cbn [mbind exec_bind].
  assert (¬ is_slot a) as Has by (by eapply node_not_slot).
  destruct w; [|done]. rewrite (update_Some _ a x); [done|].
  destruct Hp as [Hp _]. by rewrite Hp.
Qed.
End commit.
