(* ===== verification/RequestSend.v ===== *)
(** Requests across the wire: a request that a client packs, encodes and
    sends means the same on the server that decodes it. *)

From stdpp Require Import list numbers gmap.
From S2P Require Import Prelude Errors Dist Request RequestTree RequestBuild Wire WireReq RequestCommit.

(** * Packing a request *)

(** No struct of [t] carries a mark, except that the root at [a] may be the
    root of a packed request. *)
Definition unmarked (h : req_heap) (a : positive) (t : rtree) : Prop :=
  ∀ b r, b ∈ nodes t → h !! b = Some r → committed r = 0 ∨ (b = a ∧ committed r = -1).

(** The number of structs of a request. *)
Definition num_structs (t : rtree) : Z := Z.of_nat (length (remove_dups (nodes t))).

Definition fresh_region (h : req_heap) (region : positive) (n : Z) : Prop :=
  ∀ i, 0 ≤ i < n → h !! slot region i = None.

(** [L] lists the structs of [t], the root first. *)
Definition listing (L : list positive) (a : positive) (t : rtree) : Prop :=
  L !! 0%nat = Some a ∧ NoDup L ∧ (∀ b, b ∈ L ↔ b ∈ nodes t).

Lemma num_structs_room n t : num_structs t ≤ n → room n [] t.
Proof.
  unfold num_structs. intros Hn K HK Hd. cbn [app] in *.
  enough (length K ≤ length (remove_dups (nodes t)))%nat by lia.
  apply submseteq_length, NoDup_submseteq; [done|]. intros b Hb.
  apply elem_of_remove_dups. auto.
Qed.

Lemma listing_length L a t : listing L a t → Z.of_nat (length L) = num_structs t.
Proof.
  intros (_ & Hd & Hm). unfold num_structs. f_equal. apply Permutation_length.
  apply NoDup_Permutation; [done|apply NoDup_remove_dups|]. intros b.
  by rewrite elem_of_remove_dups.
Qed.

(** The mark of a root that is packed already makes no difference. *)
Lemma packed_unmark region n L h h' a x :
  packed region n L (<[a := set_committed x 0]> h) h' → h !! a = Some x →
  ¬ is_slot region n a → Z.of_nat (length L) ≤ n → packed region n L h (<[a := x]> h').
Proof.
  intros [Ho Hs] Hx Ha Hl. split.
  - intros b Hb. destruct (decide (b = a)) as [->|Hne]; [by rewrite lookup_insert_eq|].
    rewrite lookup_insert_ne, Ho, lookup_insert_ne by done. done.
  - intros i b r Hi Hr. pose proof (lookup_lt_Some _ _ _ Hi).
    rewrite lookup_insert_ne by (intros ->; apply Ha; exists (Z.of_nat i); lia).
    destruct (decide (b = a)) as [->|Hne].
    + rewrite Hx in Hr. injection Hr as ->. rewrite (Hs i a (set_committed r 0)); [done..|by rewrite lookup_insert_eq].
    + apply (Hs i b r); [done|]. by rewrite lookup_insert_ne.
Qed.

(** The root with its mark removed, and the heap with that root. *)
Definition unpacked (x : PINT_Request) : PINT_Request :=
  if bool_decide (committed x = -1) then set_committed x 0 else x.

Definition unpacked_heap (h : req_heap) (a : positive) (x : PINT_Request) : req_heap :=
  if bool_decide (committed x = -1) then <[a := set_committed x 0]> h else h.

Lemma unpacked_lookup h a x : h !! a = Some x → unpacked_heap h a x !! a = Some (unpacked x).
Proof. unfold unpacked_heap, unpacked. intros Hx. case_bool_decide; [apply lookup_insert_eq|done]. Qed.

Lemma unpacked_lookup_ne h a b x : a ≠ b → unpacked_heap h a x !! b = h !! b.
Proof. unfold unpacked_heap. intros Hx. case_bool_decide; [by apply lookup_insert_ne|done]. Qed.

Lemma unpacked_keeps h a x : h !! a = Some x → keeps h (unpacked_heap h a x).
Proof. unfold unpacked_heap. intros Hx. case_bool_decide; [by eapply keeps_strip|done]. Qed.

Lemma commit_enter fuel region n h a x :
  h !! a = Some x → committed (unpacked x) = 0 →
  PINT_do_request_commit (S fuel) region n h (Some a) 0 0 =
    ('(h, i) ← ('(h, i) ← commit_copy
        (λ h p i, PINT_do_request_commit fuel region n h p i (0 + 1)) region n
        (unpacked_heap h a x) (Some a) (unpacked x) 0;
      h ← commit_root fuel region h (Some a) (bool_decide (committed x = -1)); Done (h, i));
     r ← deref h (Some a); Done (Some (slot region (committed r)), h, i)).
Proof.
  intros Hx Hz. cbn [PINT_do_request_commit]. rewrite (deref_Some _ _ _ Hx).
  cbn [mbind exec_bind]. pose proof (unpacked_lookup _ _ _ Hx) as H0.
  assert ((if bool_decide (committed x = -1)
    then update h (Some a) (λ r, set_committed r 0) else Done h) =
    Done (unpacked_heap h a x)) as ->.
  { unfold unpacked_heap. case_bool_decide; [by rewrite (update_Some _ _ _ _ Hx)|done]. }
  cbn [mbind exec_bind]. rewrite (deref_Some _ _ _ H0). cbn [mbind exec_bind].
  rewrite decide_False by lia.
  destruct (commit_copy _ _ _ _ _ _ _) as [[h1 i]|]; [|done]. cbn [mbind exec_bind].
  rewrite decide_True by done.
  by destruct (commit_root _ _ _ _ _).
Qed.

Lemma request_commit_spec fuel region n h a t :
  repr h (Some a) t → unmarked h a t → fresh_region h region n → num_structs t ≤ n < B31 →
  (S (tree_size t) < fuel)%nat →
  ∃ L h', PINT_request_commit fuel region n h (Some a) = Done (0, h') ∧ listing L a t ∧
    packed region n L h h'.
Proof.
  intros Hr Hu Hf Hn Hsz. destruct fuel as [|fuel]; [lia|].
  assert (a ∈ nodes t) as Ha.
  { destruct t as [|a' r e q]; [done|]. destruct Hr as ([= ->] & _). by left. }
  destruct (repr_node _ _ _ a Hr Ha) as [x Hx].
  assert (¬ is_slot region n a) as Has by (intros (i & Hi & ->); by rewrite Hf in Hx).
  assert (committed (unpacked x) = 0) as Hz.
  { unfold unpacked. case_bool_decide; [done|]. destruct (Hu a x Ha Hx) as [?|[_ ?]]; done. }
  pose proof (unpacked_lookup _ _ _ Hx) as Hx0.
  destruct (do_commit_root region n (unpacked_heap h a x)) with (a := a) (x := unpacked x)
    (t := t) (fuel := fuel) (w := bool_decide (committed x = -1)) as (L & h' & HL0 & HL & HLt & Hp & E);
    try done; [|lia| | |by apply num_structs_room, Hn|lia|].
  { intros i Hi. rewrite unpacked_lookup_ne by (intros ->; apply Has; by exists i). by apply Hf. }
  { eapply keeps_repr; [by apply unpacked_keeps|done]. }
  { intros b r Hb. destruct (decide (b = a)) as [->|Hne]; [by rewrite Hx0; intros [= <-]|].
    rewrite unpacked_lookup_ne by done. intros Hbr. by destruct (Hu b r Hb Hbr) as [?|[? _]]. }
  assert (listing L a t) as Hlist by done. pose proof (listing_length _ _ _ Hlist) as Hlen.
  unfold PINT_request_commit. rewrite commit_enter with (x := x) by done. rewrite E.
  cbn [mbind exec_bind]. unfold unpacked_heap, unpacked in *. case_bool_decide as Hc.
  - rewrite (deref_Some _ a (set_committed x (-1))) by apply lookup_insert_eq.
    exists L, (<[a := x]> h'). cbn [mbind exec_bind].
    assert (set_committed (set_committed x 0) (-1) = x) as -> by (destruct x; cbn in *; by subst).
    split; [done|]. split; [done|]. apply packed_unmark; [done..|lia].
  - rewrite (deref_Some _ a x) by (destruct Hp as [Hp _]; by rewrite Hp). by exists L, h'.
Qed.

(** * The tree in the region *)

Lemma listing_index L a t b : listing L a t → b ∈ nodes t →
  ∃ i, L !! i = Some b ∧ pos L b = Z.of_nat i.
Proof.
  intros (_ & Hd & Hm) [i Hi]%Hm%list_elem_of_lookup_1. exists i. split; [done|].
  by apply pos_lookup.
Qed.

(** A heap that holds copies of the structs of [L] in the region, up to
    reference counts and marks. *)
Definition holds (region : positive) (L : list positive) (h h' : req_heap) : Prop :=
  ∀ i b r, L !! i = Some b → h !! b = Some r →
    ∃ r', h' !! slot region (Z.of_nat i) = Some r' ∧ strip r' = strip (copy region L r).

Lemma holds_repr region L h h' p t :
  NoDup L → holds region L h h' → repr h p t → (∀ b, b ∈ nodes t → b ∈ L) →
  repr h' (moved region L p) (reloc region L t).
Proof.
  intros Hd Hh. revert p. induction t as [|a r e IHe q IHq]; intros p Hr Hm;
    [cbn in Hr; by subst|].
  destruct Hr as (-> & (x & Hx & ->) & He & Hq). cbn [nodes] in Hm.
  destruct (list_elem_of_lookup_1 L a) as [i Hi]; [apply Hm; by left|].
  destruct (Hh _ _ _ Hi Hx) as (x' & Hx' & Hs). cbn [repr reloc moved fmap option_fmap option_map].
  split; [done|]. split; [exists x'; rewrite (pos_lookup _ _ _ Hd Hi), Hs; done|].
  split; [apply IHe|apply IHq]; try done; intros b Hb; apply Hm; set_solver.
Qed.

(** Moving a request does not change its meaning. *)
Section meaning.
Context (region : positive) (L : list positive).
Abbreviation rl := (reloc region L).

Lemma reloc_ext t : tree_ext (rl t) = tree_ext t. Proof. by destruct t. Qed.
Lemma reloc_agg t : tree_agg (rl t) = tree_agg t. Proof. by destruct t. Qed.
Lemma reloc_chunks t : tree_chunks (rl t) = tree_chunks t. Proof. by destruct t. Qed.
Lemma reloc_depth t : tree_depth (rl t) = tree_depth t. Proof. by destruct t. Qed.
Lemma reloc_compound t : compound (rl t) ↔ compound t. Proof. by destruct t as [|a r []]. Qed.

Lemma reloc_disp t : tree_disp (rl t) = tree_disp t.
Proof. induction t as [|a r e IHe q _]; cbn; [done|]. by rewrite IHe. Qed.

Lemma reloc_elem t o : elem (rl t) o = elem t o.
Proof.
  revert o. induction t as [|a r e IHe q IHq]; intros o; [done|].
  destruct e as [|b r' e' q']; [cbn; by rewrite IHq|]. cbn [reloc].
  rewrite !elem_blocks by done. rewrite IHq. f_equal. cbn [copy set_sreq set_ereq num_blocks].
  apply list_bind_ext; [|done]. intros k. unfold block, elems.
  cbn [copy set_sreq set_ereq num_ereqs offset stride]. apply list_bind_ext; [|done].
  intros i. by rewrite IHe.
Qed.

Lemma reloc_elems t k o : elems (rl t) k o = elems t k o.
Proof. unfold elems. apply list_bind_ext; [|done]. intros i. by rewrite reloc_elem, reloc_ext. Qed.

Lemma reloc_contig t : contig (rl t) ↔ contig t.
Proof. unfold contig. setoid_rewrite reloc_elems. by rewrite reloc_disp, reloc_agg. Qed.

Lemma reloc_sub_test t : sub_test (rl t) = sub_test t.
Proof. unfold sub_test. by rewrite reloc_agg, reloc_ext, reloc_chunks. Qed.

Lemma reloc_whole_test t : whole_test (rl t) = whole_test t.
Proof. by destruct t as [|a r [|b r' e q] q']. Qed.

Lemma reloc_sound t : sound (rl t) ↔ sound t.
Proof. unfold sound. by rewrite reloc_sub_test, reloc_whole_test, reloc_contig. Qed.

Lemma reloc_wf t : wf (rl t) ↔ wf t.
Proof.
  induction t as [|a r e IHe q IHq]; [done|].
  destruct e as [|b r' e' q']; [destruct q; cbn; naive_solver|].
  pose proof (reloc_sound (RReq b r' e' q')) as Hs. pose proof (reloc_compound q) as Hc.
  pose proof (reloc_depth q) as Hdq. cbn [reloc wf copy set_sreq set_ereq] in *.
  cbn [ub lb depth aggregate_size num_ereqs num_blocks tree_depth] in *. rewrite Hdq.
  tauto.
Qed.

Lemma reloc_good t : good (rl t) ↔ good t.
Proof.
  unfold good, sized. setoid_rewrite reloc_elem.
  rewrite reloc_wf, reloc_agg, reloc_ext, reloc_contig, reloc_whole_test.
  assert (rl t ≠ RNull ↔ t ≠ RNull) as -> by (by destruct t). done.
Qed.
End meaning.

(** * Encoding and decoding *)

Lemma slot_0 region : slot region 0 = region.
Proof. unfold slot. by rewrite Z.add_0_r. Qed.

Lemma pos_bound L b : 0 ≤ pos L b ≤ Z.of_nat (length L).
Proof.
  unfold pos. destruct (list_find _ L) as [[i x]|] eqn:E; [|lia].
  apply list_find_Some in E as (Hi & _). apply lookup_lt_Some in Hi. lia.
Qed.

(** An index is good in any region. *)
Lemma index_pointer region region' L p :
  Z.of_nat (length L) < B31 →
  pointer_of region' (index_of region (moved region L p)) = moved region' L p.
Proof.
  intros Hl. destruct p as [b|]; [|done]. cbn [moved fmap option_fmap option_map index_of].
  pose proof (pos_bound L b). assert (Z.pos (slot region (pos L b)) = Z.pos region + pos L b) as ->
    by (unfold slot; rewrite Z2Pos.id; lia).
  rewrite u32_id by lia. unfold pointer_of. rewrite decide_False by lia. do 2 f_equal. lia.
Qed.

Lemma unpack_pack region region' L r c :
  Z.of_nat (length L) < B31 →
  unpack region' (pack region (set_committed (copy region L r) c)) =
    set_committed (copy region' L r) c.
Proof.
  intros Hl. unfold unpack, pack, copy, set_committed, set_sreq, set_ereq. cbn.
  by rewrite !index_pointer.
Qed.

Lemma pack_slots_spec region h rs i :
  (∀ k r, rs !! k = Some r → h !! slot region (i + Z.of_nat k) = Some r) →
  pack_slots region h i (length rs) = Done (pack region <$> rs).
Proof.
  revert i. induction rs as [|r rs IH]; intros i Hs; [done|]. cbn [length pack_slots].
  rewrite (deref_Some _ _ r) by (rewrite <- (Hs 0%nat r eq_refl); do 2 f_equal; lia).
  cbn [mbind exec_bind]. rewrite IH; [done|]. intros k x Hk. rewrite <- (Hs (S k) x Hk).
  do 2 f_equal. lia.
Qed.

Lemma unpack_slots_spec region l h i :
  0 ≤ i →
  ∃ h', unpack_slots region h i (length l) l = Done h' ∧
    (∀ k r, l !! k = Some r → h' !! slot region (i + Z.of_nat k) = Some (unpack region r)) ∧
    (∀ b, (∀ k, i ≤ k < i + Z.of_nat (length l) → b ≠ slot region k) → h' !! b = h !! b).
Proof.
  revert h i. induction l as [|r l IH]; intros h i Hi; [by exists h|].
  cbn [length unpack_slots].
  destruct (IH (<[slot region i := unpack region r]> h) (i + 1)) as (h' & E & Hs & Ho); [lia|].
  exists h'. split; [done|]. split.
  - intros [|k] x; cbn [lookup list_lookup].
    + intros [= ->]. rewrite Ho, Z.add_0_r, lookup_insert_eq; [done|].
      intros k Hk ?%slot_inj; lia.
    + intros Hk. rewrite <- (Hs k x Hk). do 2 f_equal. lia.
  - intros b Hb. rewrite Ho by (intros k Hk; apply Hb; lia). apply lookup_insert_ne.
    intros <-. eapply Hb; [|done]. lia.
Qed.

(** The structs in the region, as a list. *)
Definition contents (region : positive) (L : list positive) (h : req_heap) : list PINT_Request :=
  imap (λ i b, set_committed (copy region L (default PINT_NULL (h !! b)))
    (if decide (i = 0%nat) then -1 else 0)) L.

Lemma contents_lookup region L h i b r :
  L !! i = Some b → h !! b = Some r →
  contents region L h !! i =
    Some (set_committed (copy region L r) (if decide (i = 0%nat) then -1 else 0)).
Proof. intros Hi Hr. unfold contents. rewrite list_lookup_imap, Hi. cbn. by rewrite Hr. Qed.

Lemma contents_slot region n L h h' a t k r :
  listing L a t → repr h (Some a) t → packed region n L h h' →
  contents region L h !! k = Some r → h' !! slot region (Z.of_nat k) = Some r.
Proof.
  intros (_ & _ & Hm) Hr [_ Hp]. unfold contents. rewrite list_lookup_imap.
  destruct (L !! k) as [b|] eqn:Hk; [|done]. cbn.
  destruct (repr_node _ _ _ b Hr) as [x Hx]; [by eapply Hm, list_elem_of_lookup_2|].
  rewrite Hx. cbn. intros [= <-]. by apply Hp with (b := b).
Qed.

(** ** On the client *)

Lemma encode_spec region n L h h' a x t :
  listing L a t → repr h (Some a) t → packed region n L h h' → h !! a = Some x →
  num_nested_req x + 1 = num_structs t →
  PINT_request_encode region h' = Done (0, Some (pack region <$> contents region L h)).
Proof.
  intros HL Hr Hp Hx Hn. pose proof HL as (H0 & _). unfold PINT_request_encode.
  rewrite (deref_Some _ _ (set_committed (copy region L x) (-1))).
  2: { rewrite <- (slot_0 region) at 1. destruct Hp as [_ Hp]. by apply (Hp 0%nat a x). }
  cbn [mbind exec_bind]. unfold PINT_REQUEST_IS_PACKED. cbn [committed set_committed].
  rewrite bool_decide_true by done. cbn [num_nested_req set_committed copy set_sreq set_ereq].
  rewrite Hn, <- (listing_length _ _ _ HL), Nat2Z.id.
  replace (length L) with (length (contents region L h)) by apply length_imap.
  rewrite pack_slots_spec; [done|]. intros k r Hk. rewrite Z.add_0_l.
  by eapply contents_slot.
Qed.

(** The fields of a struct are values of their C types. *)
Definition fields_fit (r : PINT_Request) : Prop :=
  ok packed_request_codec (pack 1 (set_sreq (set_ereq r None) None)) = true.

Lemma index_range region p : 0 ≤ index_of region p < B32.
Proof. destruct p; cbn [index_of]; apply u32_range. Qed.

Lemma pack_ok region L r c :
  fields_fit r → - B31 ≤ c < B31 → 
  ok packed_request_codec (pack region (set_committed (copy region L r) c)) = true.
Proof.
  unfold fields_fit. intros Hf Hc. pose proof (index_range region (moved region L (ereq r))).
  pose proof (index_range region (moved region L (sreq r))).
  unfold packed_request_codec in *. cbn in *. change (2 ^ (8 * 4)) with B32.
  change (2 ^ (8 * 4 - 1)) with B31 in *. change (2 ^ (8 * 8 - 1)) with B63 in *.
  rewrite !andb_true_iff, !Z.leb_le, !Z.ltb_lt in *. tauto.
Qed.

Lemma contents_ok region L h :
  (∀ b, b ∈ L → ∃ r, h !! b = Some r ∧ fields_fit r) →
  forallb (ok packed_request_codec) (pack region <$> contents region L h) = true.
Proof.
  intros Hf. apply forallb_forall. intros y (r & -> & [k Hk]%list_elem_of_lookup_1)
    %list_elem_of_In%list_elem_of_fmap.
  unfold contents in Hk. rewrite list_lookup_imap in Hk. destruct (L !! k) as [b|] eqn:Hb; [|done].
  cbn in Hk. destruct (Hf b) as (x & Hx & Hfit); [by eapply list_elem_of_lookup_2|].
  rewrite Hx in Hk. cbn in Hk. injection Hk as <-. apply pack_ok; [done|]. case_decide; lia.
Qed.

Lemma contents_sendable region L h a x t :
  listing L a t → h !! a = Some x → num_nested_req x + 1 = num_structs t → num_structs t < B31 →
  (∀ b, b ∈ L → ∃ r, h !! b = Some r ∧ fields_fit r) →
  ok file_request (Some (pack region <$> contents region L h)) = true.
Proof.
  intros HL Hx Hn Hb Hf. pose proof (listing_length _ _ _ HL) as Hlen. destruct HL as (H0 & _).
  pose proof (contents_ok region L h Hf) as Hok.
  assert (len (pack region <$> contents region L h) = num_structs t) as Hlc.
  { unfold contents. rewrite length_fmap, length_imap. done. }
  assert (nest_size (pack region <$> contents region L h) = num_nested_req x) as Hnest.
  { pose proof (contents_lookup region L h 0 a x H0 Hx) as Hc.
    destruct (contents region L h) as [|y l]; [done|]. injection Hc as ->. done. }
  cbn [ok file_request dep after struct pair array skip4 skip int32_t sint]. rewrite Hnest, Hlc, Hok.
  change (2 ^ (8 * 4 - 1)) with B31.
  rewrite !andb_true_iff, !Z.leb_le, !Z.ltb_lt, Z.eqb_eq. pose proof (lookup_lt_Some _ _ _ H0). lia.
Qed.

(** ** On the server *)

Lemma decode_spec region region' L h hs a x t :
  listing L a t → repr h (Some a) t → h !! a = Some x → num_nested_req x + 1 = num_structs t →
  num_structs t < B31 →
  ∃ hs', PINT_request_decode region' hs (pack region <$> contents region L h) = Done (0, hs') ∧
    holds region' L h hs' ∧ (∀ b, ¬ is_slot region' (num_structs t) b → hs' !! b = hs !! b).
Proof.
  intros HL Hr Hx Hn Hb. pose proof (listing_length _ _ _ HL) as Hlen. destruct HL as (H0 & Hd & Hm).
  set (l := pack region <$> contents region L h).
  assert (length l = length L) as Hll by (unfold l, contents; by rewrite length_fmap, length_imap).
  destruct (unpack_slots_spec region' l hs 0) as (hs' & E & Hs & Ho); [lia|]. exists hs'.
  assert (∀ i b r, L !! i = Some b → h !! b = Some r → l !! i = Some (pack region
    (set_committed (copy region L r) (if decide (i = 0%nat) then -1 else 0)))) as Hl.
  { intros i b r Hi Hbr. unfold l. by rewrite list_lookup_fmap, (contents_lookup _ _ _ _ b r). }
  split; [|split].
  - pose proof (Hl 0%nat a x H0 Hx) as Hl0. destruct l as [|y l]; [done|]. injection Hl0 as ->.
    cbn [PINT_request_decode pr_committed pack committed set_committed].
    rewrite decide_True by done. cbn [pr_num_nested_req pack num_nested_req set_committed copy
      set_sreq set_ereq]. rewrite Hn, <- Hlen, <- Hll, Nat2Z.id, E. done.
  - intros i b r Hi Hbr. eexists. rewrite <- (Z.add_0_l (Z.of_nat i)). split.
    + apply Hs. by apply Hl with (b := b).
    + rewrite unpack_pack by lia. done.
  - intros b Hnb. apply Ho. intros k Hk ->. apply Hnb. exists k. split; [lia|done].
Qed.

(** * Sending a request *)

(** C13. A client that linearises a request, sends it and has it decoded on a
    server ends up with the same request there. If the structs of the request
    carry no marks, hold values of their types, and are as many as the root
    counts, at most 101, then [linearize_PVFS_Request] succeeds and leaves the
    request as it was; the array can be sent, and what the server decodes is
    what was sent; and the tree that [PINT_request_decode] makes of it in the
    server's memory describes the same bytes, with the same properties that
    the constructors of requests guarantee. *)
Theorem request_sent fuel region region' h hs a x t :
  repr h (Some a) t → h !! a = Some x → unmarked h a t →
  num_nested_req x + 1 = num_structs t → num_nested_req x ≤ 100 →
  (∀ b r, b ∈ nodes t → h !! b = Some r → fields_fit r) →
  fresh_region h region (num_structs t) → (S (tree_size t) < fuel)%nat →
  ∃ l h', linearize_PVFS_Request fuel (Some region) h (Some a) = Done (0, Some l, h') ∧
    (∀ b, ¬ is_slot region (num_structs t) b → h' !! b = h !! b) ∧
    (∃ im, enc file_request 0 (Some l) = Done im ∧
      dec file_request (zeroed im) 0 = Done (Some l, len im)) ∧
    ∃ hs' t', PINT_request_decode region' hs l = Done (0, hs') ∧
      repr hs' (Some region') t' ∧ (∀ o, elem t' o = elem t o) ∧ (good t → good t') ∧
      (∀ b, ¬ is_slot region' (num_structs t) b → hs' !! b = hs !! b).
Proof.
  intros Hr Hx Hu Hn Hmax Hf Hfr Hsz.
  destruct (request_commit_spec fuel region (num_structs t) h a t) as (L & h' & E & HL & Hp);
    try done; [lia|].
  exists (pack region <$> contents region L h), h'. pose proof HL as (H0 & Hd & Hm).
  assert (∀ b, b ∈ L → ∃ r, h !! b = Some r ∧ fields_fit r) as Hfit.
  { intros b Hb%Hm. destruct (repr_node _ _ _ b Hr Hb) as [r Hbr]. eauto. }
  split; [|split; [apply Hp|split]].
  - unfold linearize_PVFS_Request. rewrite (deref_Some _ _ _ Hx). cbn [mbind exec_bind].
    rewrite decide_False by lia. rewrite Hn, E. cbn [mbind exec_bind].
    rewrite decide_False by lia. rewrite (encode_spec region (num_structs t) L h h' a x t) by done. done.
  - destruct (receives (c := file_request) (Some (pack region <$> contents region L h)) 0) as
      (im & Ei & _ & Ed); [done|by apply (contents_sendable region L h a x t); [..|lia|]|].
    exists im. split; [done|]. pose proof (Ed [] [] eq_refl) as Ed'. rewrite app_nil_r in Ed'. done.
  - destruct (decode_spec region region' L h hs a x t) as (hs' & Ed & Hh & Ho); try done; [lia|].
    exists hs', (reloc region' L t). split; [done|]. split; [|split; [|split]].
    + replace (Some region') with (moved region' L (Some a)); [|].
      * eapply holds_repr; try done. intros b Hb. by apply Hm.
      * cbn. by rewrite (pos_lookup L 0 a Hd H0), slot_0.
    + intros o. apply reloc_elem.
    + by rewrite reloc_good.
    + done.
Qed.

(** * Examples *)

(** Two blocks of bytes; both structs of the chain have the same element
    type, which is sent once. *)
Definition two_blocks : req_heap :=
  match PVFS_Request_hindexed [2%positive; 3%positive] byte_heap [(2, 1); (3, 5)] (Some 1%positive) with
  | Done (_, _, h) => h
  | Fault _ => ∅
  end.

Definition struct_at (h : req_heap) (a : positive) : PINT_Request := default PINT_NULL (h !! a).

Definition two_blocks_tree : rtree :=
  RReq 3 (strip (struct_at two_blocks 3)) byte_tree (RReq 2 (strip (struct_at two_blocks 2)) byte_tree RNull).

Lemma two_blocks_nodes b r :
  b ∈ nodes two_blocks_tree → two_blocks !! b = Some r → committed r = 0 ∧ fields_fit r.
Proof.
  intros Hb Hx. change (nodes two_blocks_tree) with [3%positive; 1%positive; 2%positive; 1%positive] in Hb.
  repeat (apply elem_of_cons in Hb as [->|Hb]; [by injection Hx as <-|]). by apply elem_of_nil in Hb.
Qed.

Lemma request_sent_witness :
  ∃ l h', linearize_PVFS_Request 10 (Some 10%positive) two_blocks (Some 3%positive) =
      Done (0, Some l, h') ∧
    ∃ hs' t', PINT_request_decode 7 ∅ l = Done (0, hs') ∧ repr hs' (Some 7%positive) t' ∧
      elem t' 0 = [1; 2; 5; 6; 7].
Proof.
  destruct (request_sent 10 10 7 two_blocks ∅ 3 (struct_at two_blocks 3) two_blocks_tree) as
    (l & h' & E & _ & _ & hs' & t' & Ed & Hr & He & _).
  - cbn. split; [done|]. split; [by eexists|]. split; [split; [done|]; split; [by eexists|done]|].
    split; [done|]. split; [by eexists|]. split; [split; [done|]; split; [by eexists|done]|done].
  - reflexivity.
  - intros b r Hb Hx. left. by destruct (two_blocks_nodes b r Hb Hx).
  - reflexivity.
  - vm_compute. done.
  - intros b r Hb Hx. by destruct (two_blocks_nodes b r Hb Hx).
  - intros i Hi. change (num_structs two_blocks_tree) with 3 in Hi.
    assert (i = 0 ∨ i = 1 ∨ i = 2) as [->|[->| ->]] by lia; reflexivity.
  - cbn. lia.
  - exists l, h'. split; [exact E|]. exists hs', t'. split; [exact Ed|]. split; [exact Hr|].
    rewrite He. reflexivity.
Defined.

Definition bytes_and_ints : req_heap := {[1%positive := PINT_BYTE; 2%positive := PINT_INT]}.

(** A struct type with a byte, an int and another byte has five structs,
    but its root counts five nested requests besides itself: the adjustment
    for shared element types looks at the next block only. Encoding then
    reads a slot of the region that was never written. *)
Theorem struct_overcounts :
  ∃ h, PVFS_Request_struct [3%positive; 4%positive; 5%positive] bytes_and_ints
      [(1, 0, Some 1%positive); (1, 8, Some 2%positive); (1, 16, Some 1%positive)] =
      Done (PVFS_SUCCESS, Some 5%positive, h) ∧
    num_nested_req (struct_at h 5) + 1 = 6 ∧ size (dom h) = 5%nat ∧
    linearize_PVFS_Request 20 (Some 10%positive) h (Some 5%positive) = Fault BadAccess.
Proof. eexists. split; [reflexivity|]. split; [reflexivity|]. split; reflexivity. Qed.
