(* ===== verification/RequestFree.v ===== *)
(** The lifetime of requests: [PVFS_Request_free] of
    src/src/io/description/pvfs-request.c gives back exactly what the
    constructors have taken. *)

From stdpp Require Import list numbers gmap.
From S2P Require Import Prelude Dist Request RequestTree RequestBuild RequestCommit.

(** A struct after [k] more references to it were made; a negative count is
    never changed. *)
Definition bump (r : PINT_Request) (k : Z) : PINT_Request :=
  if bool_decide (refcount r >= 0) then set_refcount r (refcount r + k) else r.

Section lifetime.
(** The heap before, with the element type [old] at [b], which is in use. *)
Context (h0 : req_heap) (b : positive) (old : PINT_Request).
Context (Hb : h0 !! b = Some old) (Hrc : refcount old ≠ 0).

(** [p] is a chain of the structs [L] with the element type at [b]. *)
Fixpoint linked (h : req_heap) (p : ptr) (L : list positive) : Prop :=
  match L with
  | [] => p = None
  | a :: L =>
      p = Some a ∧
      ∃ r, h !! a = Some r ∧ ereq r = Some b ∧ committed r = 0 ∧ 0 ≤ refcount r ∧
        linked h (sreq r) L
  end.

(** [h] is the heap before with the new structs [L] and [k] more references. *)
Definition above (h : req_heap) (L : list positive) (k : Z) : Prop :=
  NoDup L ∧ (∀ c, c ∈ L → h0 !! c = None) ∧ h !! b = Some (bump old k) ∧
  (∀ c, c ∉ L → c ≠ b → h !! c = h0 !! c).

Lemma linked_frame h h' p L :
  (∀ c, c ∈ L → h' !! c = h !! c) → linked h p L → linked h' p L.
Proof.
  revert p. induction L as [|a L IH]; intros p Hf; [done|].
  intros (-> & r & Hr & He & Hc & Hn & Hl). split; [done|]. exists r.
  rewrite Hf by (by left). split; [done|]. do 3 (split; [done|]).
  apply IH; [|done]. intros c Hc'. apply Hf. by right.
Qed.

Lemma above_not_b h L k : above h L k → b ∉ L.
Proof. intros (_ & Hf & _) HbL. by rewrite Hf in Hb. Qed.

Lemma above_0 h : above h [] 0 → h = h0.
Proof.
  intros (_ & _ & Hhb & Ho). apply map_eq. intros c. destruct (decide (c = b)) as [->|Hne].
  - rewrite Hhb, Hb. unfold bump. case_bool_decide; [|done]. rewrite Z.add_0_r. by destruct old.
  - apply Ho; [set_solver|done].
Qed.

(** ** Making references *)

Lemma refinc_bump k :
  0 ≤ k → refcount old + k + 1 < B31 →
  (if bool_decide (refcount (bump old k) >= 0)
   then set_refcount (bump old k) (i32 (refcount (bump old k) + 1)) else bump old k) =
  bump old (k + 1).
Proof.
  intros Hk Hmax. unfold bump. destruct (bool_decide (refcount old >= 0)) eqn:E.
  - apply bool_decide_eq_true in E. cbn [refcount set_refcount].
    rewrite bool_decide_true by lia. rewrite i32_id by lia. unfold set_refcount. cbn.
    f_equal. lia.
  - by rewrite E.
Qed.

Lemma subreq_above h p L k a off bs st cnt ext :
  above h L k → linked h p L → a ∉ L → h0 !! a = None → 0 ≤ k → refcount old + k + 1 < B31 →
  ∃ h', PINT_subreq h a off bs st cnt (Some b) ext p = Done (PVFS_SUCCESS, h') ∧
    above h' (a :: L) (k + 1) ∧ linked h' (Some a) (a :: L) ∧
    ∃ r, h' !! a = Some r ∧ ereq r = Some b ∧ sreq r = p ∧ committed r = 0 ∧ refcount r = 0.
Proof.
  intros Hab Hl Ha Ha0 Hk Hmax. pose proof (above_not_b _ _ _ Hab) as HbL.
  destruct Hab as (Hd & Hf & Hhb & Ho). assert (a ≠ b) as Hne by congruence.
  unfold PINT_subreq. rewrite (deref_Some _ _ _ Hhb). cbn [mbind exec_bind].
  set (new := mkRequest _ _ _ _ _ _ _ _ _ _ _ _ _ _). unfold PINT_REQUEST_REFINC.
  rewrite (update_Some _ b (bump old k)) by (by rewrite lookup_insert_ne).
  rewrite refinc_bump by done. cbn [mbind exec_bind]. eexists. split; [done|].
  assert (<[b := bump old (k + 1)]> (<[a := new]> h) !! a = Some new) as Hnew.
  { rewrite lookup_insert_ne by done. apply lookup_insert_eq. }
  split; [|split; [|by exists new]].
  - split; [by constructor|]. split; [intros c [->|Hc]%elem_of_cons; auto|].
    split; [apply lookup_insert_eq|]. intros c [Hca Hc]%not_elem_of_cons Hcb.
    rewrite !lookup_insert_ne by done. auto.
  - split; [done|]. exists new. split; [done|]. do 3 (split; [done|]). cbn [sreq new].
    eapply linked_frame; [|done]. intros c Hc.
    rewrite !lookup_insert_ne by (intros ->; done). done.
Qed.

(** Changing the head of a chain. *)
Lemma head_update h L k a (f : PINT_Request → PINT_Request) :
  above h (a :: L) k → linked h (Some a) (a :: L) →
  (∀ r, h !! a = Some r → committed (f r) = committed r ∧ (0 ≤ refcount r → 0 ≤ refcount (f r)) ∧
    ereq (f r) = ereq r ∧ sreq (f r) = sreq r) →
  ∃ h' r, h !! a = Some r ∧ update h (Some a) f = Done h' ∧ h' !! a = Some (f r) ∧
    above h' (a :: L) k ∧ linked h' (Some a) (a :: L).
Proof.
  intros Hab (_ & r & Hr & He & Hc & Hn & Hl) Hfr. pose proof (above_not_b _ _ _ Hab) as HbL.
  destruct Hab as (Hd & Hf & Hhb & Ho). apply NoDup_cons in Hd as [Ha Hd].
  destruct (Hfr r Hr) as (Hfc & Hfn & Hfe & Hfs). exists (<[a := f r]> h), r.
  split; [done|]. split; [by apply update_Some|]. split; [apply lookup_insert_eq|]. split.
  - split; [by constructor|]. split; [done|].
    rewrite lookup_insert_ne by (intros ->; apply HbL; by left). split; [done|].
    intros c Hca Hcb. rewrite lookup_insert_ne by (intros ->; apply Hca; by left). by apply Ho.
  - split; [done|]. exists (f r). rewrite lookup_insert_eq. split; [done|].
    split; [congruence|]. split; [congruence|]. split; [auto|]. rewrite Hfs.
    eapply linked_frame; [|done]. intros c Hcl. rewrite lookup_insert_ne by (intros ->; done). done.
Qed.

(** ** Giving them back *)

Lemma free_elem h L k f :
  above h L (k + 1) → 0 ≤ k →
  ∃ p, PVFS_Request_free (S f) h (Some b) = Done (PVFS_SUCCESS, p, <[b := bump old k]> h).
Proof.
  intros (_ & _ & Hhb & _) Hk. cbn [PVFS_Request_free]. rewrite (deref_Some _ _ _ Hhb).
  cbn [mbind exec_bind]. unfold bump in *. case_bool_decide as E.
  - cbn [refcount set_refcount]. rewrite decide_False by lia. unfold PINT_REQUEST_REFDEC.
    rewrite (update_Some _ _ _ _ Hhb). cbn [mbind exec_bind refcount set_refcount].
    rewrite bool_decide_true by lia. rewrite (deref_Some _ b _ (lookup_insert_eq _ _ _)).
    cbn [mbind exec_bind refcount set_refcount]. rewrite decide_True by lia.
    exists None. unfold set_refcount. cbn. do 4 f_equal. lia.
  - rewrite decide_True by lia. exists (Some b). by rewrite insert_id.
Qed.

(** A struct of the chain is given up. *)
Definition drop (a : positive) (k : Z) (h : req_heap) : req_heap :=
  delete a (<[b := bump old k]> h).

Lemma drop_other h a k c : c ≠ a → c ≠ b → drop a k h !! c = h !! c.
Proof. intros Ha Hcb. unfold drop. by rewrite lookup_delete_ne, lookup_insert_ne by done. Qed.

Lemma above_drop h L k a : above h (a :: L) (k + 1) → above (drop a k h) L k.
Proof.
  intros Hab. pose proof (above_not_b _ _ _ Hab) as [Hba HbL]%not_elem_of_cons.
  destruct Hab as ([Ha Hd]%NoDup_cons & Hf & Hhb & Ho). split; [done|].
  split; [intros c Hc; apply Hf; by right|]. split.
  - unfold drop. by rewrite lookup_delete_ne, lookup_insert_eq.
  - intros c Hc Hcb. destruct (decide (c = a)) as [->|Hca].
    + unfold drop. rewrite lookup_delete_eq. symmetry. apply Hf. by left.
    + rewrite drop_other by done. apply Ho; [|done]. by intros [->|?]%elem_of_cons.
Qed.

Lemma above_perm h L L' k : L ≡ₚ L' → above h L k → above h L' k.
Proof. intros Hp. unfold above. by setoid_rewrite Hp. Qed.

Lemma free_drop h L k a r fuel :
  above h (a :: L) (k + 1) → 0 ≤ k → h !! a = Some r → ereq r = Some b →
  ∃ p, PVFS_Request_free (S fuel) h (ereq r) = Done (PVFS_SUCCESS, p, <[b := bump old k]> h) ∧
    free (<[b := bump old k]> h) (Some a) = Done (drop a k h).
Proof.
  intros Hab Hk Hr He. destruct (free_elem h (a :: L) k fuel Hab Hk) as [p Ep].
  exists p. rewrite He. split; [done|]. pose proof (above_not_b _ _ _ Hab) as [Hba _]%not_elem_of_cons.
  unfold free. by rewrite lookup_insert_ne, Hr.
Qed.

(** The rest [L] of the chain of [a]. *)
Lemma free_chain_spec fuel n h L k p a :
  above h (a :: L) (k + Z.of_nat (length L)) → 0 ≤ k → linked h p L → (length L ≤ n)%nat →
  ∃ h', free_chain (PVFS_Request_free (S fuel)) n h p = Done h' ∧ above h' [a] k ∧
    h' !! a = h !! a.
Proof.
  revert h p n. induction L as [|c L IH]; intros h p n Hab Hk Hl Hn; cbn [length] in *.
  { cbn in Hl. subst p. exists h. rewrite Z.add_0_r in Hab. by destruct n. }
  destruct Hl as (-> & r & Hr & He & _ & _ & Hl). destruct n as [|n]; [lia|].
  pose proof (above_not_b _ _ _ Hab) as HbL. pose proof Hab as (Hd & _).
  rewrite !NoDup_cons, !not_elem_of_cons in Hd. rewrite !not_elem_of_cons in HbL.
  destruct Hd as ((Hac & HaL) & HcL & HdL). destruct HbL as (Hba & Hbc & HbL).
  apply (above_perm h (a :: c :: L) (c :: a :: L)) in Hab; [|apply perm_swap].
  replace (k + Z.of_nat (S (length L))) with (k + Z.of_nat (length L) + 1) in Hab by lia.
  destruct (free_drop h (a :: L) (k + Z.of_nat (length L)) c r fuel Hab) as (p & Ep & Ef); [lia|done..|].
  cbn [free_chain]. rewrite (deref_Some _ _ _ Hr). cbn [mbind exec_bind]. rewrite Ep.
  cbn [mbind exec_bind]. rewrite Ef. cbn [mbind exec_bind].
  destruct (IH (drop c (k + Z.of_nat (length L)) h) (sreq r) n) as (h' & E & Hab' & Ha'); try done.
  - by apply above_drop.
  - eapply linked_frame; [|done]. intros d Hd. apply drop_other; intros ->; done.
  - lia.
  - exists h'. split; [done|]. split; [done|]. rewrite Ha'. by apply drop_other.
Qed.

(** Freeing a chain with one reference frees it all. *)
Lemma free_spec fuel h L a r :
  above h (a :: L) (Z.of_nat (length L) + 1) → linked h (Some a) (a :: L) → h !! a = Some r →
  refcount r = 1 → (S (length L) < fuel)%nat →
  PVFS_Request_free fuel h (Some a) = Done (PVFS_SUCCESS, None, h0).
Proof.
  intros Hab Hl Hr Hc Hfuel. destruct fuel as [|[|fuel]]; [lia..|].
  destruct (head_update h L _ a (λ r, if bool_decide (refcount r > 0)
    then set_refcount r (refcount r - 1) else r) Hab Hl) as (h1 & r' & Hr' & E & Ha1 & Hab1 & Hl1).
  { intros x _. case_bool_decide; [|done]. cbn. split_and!; try done. lia. }
  rewrite Hr in Hr'. injection Hr' as <-. rewrite bool_decide_true in Ha1 by lia.
  destruct Hl1 as (_ & x & Hx & He & Hcx & _ & Hl1). rewrite Ha1 in Hx. injection Hx as <-.
  cbn [sreq ereq set_refcount committed] in Hl1, He, Hcx.
  destruct (free_chain_spec fuel (S fuel) h1 L 1 (sreq r) a) as (h2 & E2 & Hab2 & Ha2); try done; try lia.
  { eapply above_perm; [reflexivity|]. by rewrite Z.add_comm. }
  rewrite Ha1 in Ha2. destruct (free_drop h2 [] 0 a _ fuel Hab2 ltac:(lia) Ha2 He) as (p & Ep & Ef).
  apply (above_drop h2 [] 0 a), above_0 in Hab2. set (m := S fuel) in *. cbn [PVFS_Request_free]. rewrite (deref_Some _ _ _ Hr).
  cbn [mbind exec_bind]. rewrite decide_False by lia. unfold PINT_REQUEST_REFDEC at 1. rewrite E.
  cbn [mbind exec_bind]. rewrite (deref_Some _ _ _ Ha1). cbn [mbind exec_bind refcount set_refcount].
  rewrite decide_False by lia. unfold PINT_REQUEST_IS_PACKED. cbn [committed set_refcount].
  rewrite bool_decide_false by lia. cbn [sreq set_refcount].
  rewrite E2. cbn [mbind exec_bind ereq set_refcount]. cbn [ereq set_refcount] in Ep. rewrite Ep.
  cbn [mbind exec_bind]. rewrite Ef. cbn [mbind exec_bind]. by rewrite Hab2.
Qed.

(** ** Constructors *)

Lemma refset_spec h L k a :
  above h (a :: L) k → linked h (Some a) (a :: L) →
  ∃ h' r, PINT_REQUEST_REFSET h (Some a) = Done h' ∧ h' !! a = Some r ∧ refcount r = 1 ∧
    above h' (a :: L) k ∧ linked h' (Some a) (a :: L).
Proof.
  intros Hab Hl. pose proof Hl as (_ & x & Hx & _ & _ & Hn & _).
  destruct (head_update h L k a (λ r, if bool_decide (refcount r >= 0)
    then set_refcount r 1 else r) Hab Hl) as (h' & r & Hr & E & Ha & Hab' & Hl').
  { intros y _. by case_bool_decide. }
  rewrite Hx in Hr. injection Hr as <-. rewrite bool_decide_true in Ha by lia.
  exists h', (set_refcount x 1). done.
Qed.

Lemma above_start : above h0 [] 0.
Proof.
  split; [constructor|]. split; [set_solver|]. split; [|done]. rewrite Hb. f_equal.
  unfold bump. case_bool_decide; [|done]. rewrite Z.add_0_r. by destruct old.
Qed.

(** Freeing a vector undoes it: after [PVFS_Request_hvector] has made a
    request, [PVFS_Request_free] removes it and the reference it held, and
    the memory is as it was, whatever the element type is, as long as that is
    in use or permanent. *)
Theorem free_hvector a count blocklength stride fuel :
  h0 !! a = None → refcount old + 1 < B31 → (1 < fuel)%nat →
  ∃ h, PVFS_Request_hvector [a] h0 count blocklength stride (Some b) =
      Done (PVFS_SUCCESS, Some a, h) ∧
    PVFS_Request_free fuel h (Some a) = Done (PVFS_SUCCESS, None, h0).
Proof.
  intros Ha Hmax Hfuel. unfold PVFS_Request_hvector, PVFS_Request_extent.
  rewrite (deref_Some _ _ _ Hb). cbn [mbind exec_bind].
  destruct (subreq_above h0 None [] 0 a 0 blocklength stride count (ub old -ₗ lb old)) as
    (h1 & E1 & Hab1 & Hl1 & _); try done; [apply above_start|set_solver|lia|].
  rewrite E1. cbn [mbind exec_bind].
  assert (∃ h2, (if decide (stride < 0) then update h1 (Some a)
      (λ r, set_bounds r (i32 (count - 1) *ₗ stride) (ub r)) else Done h1) = Done h2 ∧
    above h2 [a] (0 + 1) ∧ linked h2 (Some a) [a]) as (h2 & E2 & Hab2 & Hl2).
  { case_decide; [|by exists h1].
    destruct (head_update h1 [] (0 + 1) a (λ r, set_bounds r (i32 (count - 1) *ₗ stride) (ub r)))
      as (h2 & ? & _ & E2 & _ & ? & ?); try done. by exists h2. }
  rewrite E2. cbn [mbind exec_bind].
  destruct (refset_spec h2 [] (0 + 1) a Hab2 Hl2) as (h3 & r & E3 & Hr & Hc & Hab3 & Hl3).
  rewrite E3. cbn [mbind exec_bind]. exists h3. split; [done|].
  apply (free_spec fuel h3 [] a r); done.
Qed.

Lemma reqstats_above h L k a p r :
  above h (a :: L) k → linked h (Some a) (a :: L) → h !! a = Some r → sreq r = p → linked h p L →
  ∃ h', PINT_reqstats h (Some a) = Done h' ∧ above h' (a :: L) k ∧ linked h' (Some a) (a :: L).
Proof.
  intros Hab Hl Hr Hs Hlp. unfold PINT_reqstats. rewrite (deref_Some _ _ _ Hr).
  cbn [mbind exec_bind]. rewrite Hs. destruct L as [|c L]; [cbn in Hlp; subst p; rewrite Hlp; by exists h|].
  destruct Hlp as (Hpc & s & Hsc & Hes & _). rewrite Hpc, (deref_Some _ _ _ Hsc).
  pose proof Hl as (_ & r' & Hr' & He & _). rewrite Hr in Hr'. injection Hr' as <-.
  cbn [mbind exec_bind]. rewrite (decide_True (P := ereq r = ereq s)) by congruence. rewrite He.
  pose proof Hab as (_ & _ & Hhb & _). rewrite (deref_Some _ _ _ Hhb). cbn [mbind exec_bind].
  match goal with |- context [update h (Some a) ?f] =>
    destruct (head_update h (c :: L) k a f Hab Hl) as (h' & x & _ & E & _ & Hab' & Hl') end.
  { intros x Hx. rewrite Hr in Hx. injection Hx as <-. cbn. rewrite He, Hs, Hpc. done. }
  rewrite E. by exists h'.
Qed.

Lemma hindexed_loop_above blocks addrs h L p ext :
  above h L (Z.of_nat (length L)) → linked h p L → NoDup (addrs ++ L) →
  (∀ c, c ∈ addrs → h0 !! c = None) → length addrs = length blocks →
  refcount old + Z.of_nat (length (addrs ++ L)) < B31 →
  ∃ h' p' L', hindexed_loop addrs h blocks (Some b) ext p = Done (p', h') ∧
    above h' L' (Z.of_nat (length L')) ∧ linked h' p' L' ∧
    length L' = length (addrs ++ L).
Proof.
  revert addrs h L p. induction blocks as [|[l d] blocks IH]; intros [|a addrs] h L p Hab Hl Hd Hf Hlen Hmax;
    try done.
  { by exists h, p, L. }
  rewrite length_app in Hmax. cbn [app length] in *.
  apply NoDup_cons in Hd as [[Haa HaL]%not_elem_of_app Hd].
  cbn [hindexed_loop]. unfold chain_block.
  destruct (subreq_above h p L (Z.of_nat (length L)) a d l 0 1 ext) as
    (h1 & E1 & Hab1 & Hl1 & r & Hr & He & Hs & _); try done; [apply Hf; by left|lia..|].
  rewrite E1. cbn [mbind exec_bind]. pose proof Hl1 as (_ & r' & Hr' & _ & _ & _ & Hl1').
  rewrite Hr in Hr'. injection Hr' as <-. rewrite Hs in Hl1'.
  destruct (reqstats_above h1 L _ a p r Hab1 Hl1 Hr Hs Hl1') as (h2 & E2 & Hab2 & Hl2).
  rewrite E2. cbn [mbind exec_bind].
  destruct (IH addrs h2 (a :: L) (Some a)) as (h' & p' & L' & E & Hab' & Hl' & Hlen'); try done.
  - cbn [length]. by rewrite Nat2Z.inj_succ.
  - rewrite <- Permutation_middle. constructor; [by apply not_elem_of_app|done].
  - intros c Hc. apply Hf. by right.
  - lia.
  - rewrite length_app. cbn [length]. lia.
  - exists h', p', L'. split; [done|]. split; [done|]. split; [done|].
    rewrite Hlen', !length_app. cbn [length]. lia.
Qed.

(** Freeing an indexed request undoes it, too: all the structs of its
    chain and their references to the element type are given back. *)
Theorem free_hindexed addrs blocks fuel :
  NoDup addrs → (∀ c, c ∈ addrs → h0 !! c = None) → length addrs = length blocks →
  (0 < length blocks)%nat → refcount old + Z.of_nat (length blocks) < B31 →
  (length blocks < fuel)%nat →
  ∃ h p, PVFS_Request_hindexed addrs h0 blocks (Some b) = Done (PVFS_SUCCESS, p, h) ∧
    PVFS_Request_free fuel h p = Done (PVFS_SUCCESS, None, h0).
Proof.
  intros Hd Hf Hlen Hpos Hmax Hfuel. unfold PVFS_Request_hindexed, PVFS_Request_extent.
  rewrite (deref_Some _ _ _ Hb). cbn [mbind exec_bind].
  destruct (hindexed_loop_above (reverse blocks) addrs h0 [] None (ub old -ₗ lb old)) as
    (h1 & p & L & E & Hab & Hl & HL); rewrite ?app_nil_r, ?length_reverse, ?Hlen; try done.
  { apply above_start. }
  rewrite app_nil_r, Hlen in HL. rewrite E. cbn [mbind exec_bind].
  destruct L as [|a L]; [cbn in HL; lia|]. pose proof Hl as (-> & _).
  destruct (refset_spec h1 L _ a Hab Hl) as (h2 & r & E2 & Hr & Hc & Hab2 & Hl2).
  rewrite E2. cbn [mbind exec_bind]. exists h2, (Some a). split; [done|]. cbn [length] in *.
  apply (free_spec fuel h2 L a r); try done; [|lia].
  by rewrite Nat2Z.inj_succ in Hab2.
Qed.
End lifetime.

(** * Examples *)

Lemma free_hvector_witness :
  ∃ h, PVFS_Request_hvector [2%positive] byte_heap 2 2 4 (Some 1%positive) =
      Done (PVFS_SUCCESS, Some 2%positive, h) ∧
    PVFS_Request_free 2 h (Some 2%positive) = Done (PVFS_SUCCESS, None, byte_heap).
Proof. apply (free_hvector byte_heap 1 PINT_BYTE); cbn; lia || done. Defined.

(** An element type with two references. *)
Definition shared_heap : req_heap := {[1%positive := set_refcount PINT_BYTE 2]}.

Lemma free_hindexed_witness :
  ∃ h p, PVFS_Request_hindexed [2%positive; 3%positive] shared_heap [(2, 1); (3, 5)]
      (Some 1%positive) = Done (PVFS_SUCCESS, p, h) ∧
    PVFS_Request_free 3 h p = Done (PVFS_SUCCESS, None, shared_heap).
Proof.
  apply (free_hindexed shared_heap 1 (set_refcount PINT_BYTE 2)); cbn; try (lia || done).
  - vm_decide.
  - intros c Hc. repeat (apply elem_of_cons in Hc as [->|Hc]; [done|]). by apply elem_of_nil in Hc.
Defined.
