(* ===== verification/RequestTypes.v ===== *)
(** The fields of requests keep to their C types: whatever the constructors
    of src/src/io/description/pvfs-request.c make of requests whose fields
    are values of their types has fields of that kind, too, and so it can be
    sent. *)

From stdpp Require Import list numbers gmap.
From S2P Require Import Prelude Dist Request RequestBuild Wire WireReq RequestCommit RequestSend.

(** * Fields *)

Definition is_i32 (z : Z) : Prop := - B31 ≤ z < B31.
Definition is_i64 (z : Z) : Prop := - B63 ≤ z < B63.

Lemma fields_fit_iff r :
  fields_fit r ↔
  is_i64 (offset r) ∧ is_i32 (num_ereqs r) ∧ is_i32 (num_blocks r) ∧ is_i64 (stride r) ∧
  is_i64 (ub r) ∧ is_i64 (lb r) ∧ is_i64 (aggregate_size r) ∧ is_i32 (num_contig_chunks r) ∧
  is_i32 (depth r) ∧ is_i32 (num_nested_req r) ∧ is_i32 (committed r) ∧ is_i32 (refcount r).
Proof.
  unfold fields_fit, is_i32, is_i64, packed_request_codec. cbn.
  change (2 ^ (8 * 4)) with B32. change (2 ^ (8 * 4 - 1)) with B31. change (2 ^ (8 * 8 - 1)) with B63.
  rewrite !andb_true_iff, !Z.leb_le, !Z.ltb_lt. split; [tauto|]. intros H.
  pose proof (u32_range (-1)). tauto.
Qed.

Lemma i64_fits z : is_i64 (i64 z). Proof. apply i64_range. Qed.
Lemma i32_fits z : is_i32 (i32 z). Proof. apply i32_range. Qed.
Lemma small_fits : is_i32 0 ∧ is_i32 1 ∧ is_i64 0. Proof. unfold is_i32, is_i64. lia. Qed.

#[local] Hint Resolve i64_fits i32_fits : core.

(** [set_refcount], [set_bounds] with values of the right types. *)
Lemma refcount_fits r n : fields_fit r → is_i32 n → fields_fit (set_refcount r n).
Proof. rewrite !fields_fit_iff. cbn. tauto. Qed.

Lemma bounds_fit r l u : fields_fit r → is_i64 l → is_i64 u → fields_fit (set_bounds r l u).
Proof. rewrite !fields_fit_iff. cbn. tauto. Qed.

(** * Heaps *)

Definition heap_fits (h : req_heap) : Prop := map_Forall (λ _, fields_fit) h.

Lemma deref_fits h p r : heap_fits h → deref h p = Done r → fields_fit r.
Proof.
  intros Hh. destruct p as [a|]; cbn; [|done]. destruct (h !! a) as [x|] eqn:E; [|done].
  intros <-%Done_inj. exact (map_Forall_lookup_1 _ _ _ _ Hh E).
Qed.

Lemma update_fits h p f h' :
  heap_fits h → (∀ r, fields_fit r → fields_fit (f r)) → update h p f = Done h' → heap_fits h'.
Proof.
  intros Hh Hf. destruct p as [a|]; cbn; [|done]. destruct (h !! a) as [x|] eqn:E; [|done].
  intros <-%Done_inj. apply map_Forall_insert_2; [|done]. apply Hf. exact (map_Forall_lookup_1 _ _ _ _ Hh E).
Qed.

Lemma refset_fits h p h' : heap_fits h → PINT_REQUEST_REFSET h p = Done h' → heap_fits h'.
Proof.
  intros Hh. apply update_fits; [done|]. intros r Hr. case_bool_decide; [|done].
  apply refcount_fits; [done|]. apply small_fits.
Qed.

Lemma subreq_fits h a off bs st cnt p ext sq ret h' :
  heap_fits h → is_i64 off → is_i32 bs → is_i64 st → is_i32 cnt →
  PINT_subreq h a off bs st cnt p ext sq = Done (ret, h') → heap_fits h'.
Proof.
  intros Hh Hoff Hbs Hst Hcnt. unfold PINT_subreq. destruct p as [b|]; [|by intros [= _ <-]].
  destruct (deref h (Some b)) as [old|] eqn:Ed; [|done]. cbn [mbind exec_bind].
  set (new := mkRequest _ _ _ _ _ _ _ _ _ _ _ _ _ _).
  assert (fields_fit new) as Hnew.
  { apply fields_fit_iff. cbn. destruct small_fits as (? & ? & ?).
    split_and!; auto. repeat (case_match; auto). }
  destruct (PINT_REQUEST_REFINC _ _) as [h1|] eqn:E; [|done]. cbn. intros [= _ <-].
  eapply update_fits; [| |exact E].
  - by apply map_Forall_insert_2.
  - intros r Hr. cbn beta. case_bool_decide; [|done]. by apply refcount_fits.
Qed.

Lemma reqstats_fits h p h' : heap_fits h → PINT_reqstats h p = Done h' → heap_fits h'.
Proof.
  intros Hh. unfold PINT_reqstats. destruct (deref h p) as [n|] eqn:En; [|done].
  cbn [mbind exec_bind]. destruct (sreq n) as [b|]; [|by intros <-%Done_inj].
  destruct (deref h (Some b)) as [s|] eqn:Es; [|done]. cbn [mbind exec_bind].
  apply deref_fits in En, Es; [|done..]. rewrite fields_fit_iff in En, Es.
  assert (∀ sq nested h', is_i32 nested → update h p (λ _, mkRequest (offset n) (num_ereqs n)
    (num_blocks n) (stride n) (if decide (ub n < ub s) then ub s else ub n)
    (if decide (lb n > lb s) then lb s else lb n) (aggregate_size n +ₗ aggregate_size s)
    (i32 (num_contig_chunks n + num_contig_chunks s))
    (if decide (depth n < depth s) then depth s else depth n) nested (committed n) (refcount n)
    (ereq n) sq) = Done h' → heap_fits h') as Hup.
  { intros sq nested h1 Hnest. apply update_fits; [done|]. intros _ _. apply fields_fit_iff.
    cbn. repeat case_decide; destruct_and!; split_and!; auto. }
  destruct (decide (ereq n = ereq s)); [|by apply Hup].
  destruct (deref h (ereq n)) as [x|]; [|done]. by apply Hup.
Qed.

(** * Constructors *)

Lemma hvector_fits addrs h count bl st p ret q h' :
  heap_fits h → is_i32 count → is_i32 bl → is_i64 st →
  PVFS_Request_hvector addrs h count bl st p = Done (ret, q, h') → heap_fits h'.
Proof.
  intros Hh Hc Hb Hs. unfold PVFS_Request_hvector, PVFS_Request_extent.
  destruct p as [b|]; [|by intros [= _ _ <-]].
  destruct (deref h (Some b)) as [old|]; [|done]. cbn [mbind exec_bind].
  destruct addrs as [|a addrs]; [done|].
  destruct (PINT_subreq _ _ _ _ _ _ _ _ _) as [[r h1]|] eqn:E1; [|done]. cbn [mbind exec_bind].
  apply subreq_fits in E1; try done.
  destruct (if decide (st < 0) then _ else _) as [h2|] eqn:E2; [|done]. cbn [mbind exec_bind].
  assert (heap_fits h2) as H2.
  { case_decide; [|by apply Done_inj in E2 as <-]. eapply update_fits; [exact E1| |exact E2].
    intros x Hx. apply bounds_fit; auto. apply fields_fit_iff in Hx. tauto. }
  destruct (PINT_REQUEST_REFSET h2 (Some a)) as [h3|] eqn:E3; [|done]. cbn. intros [= _ _ <-].
  by eapply refset_fits.
Qed.

Lemma chain_block_fits a h d l p ext q h' :
  heap_fits h → is_i64 d → is_i32 l → chain_block a h d l p ext q = Done h' → heap_fits h'.
Proof.
  intros Hh Hd Hl. unfold chain_block. destruct small_fits as (? & ? & ?).
  destruct (PINT_subreq _ _ _ _ _ _ _ _ _) as [[r h1]|] eqn:E1; [|done]. cbn [mbind exec_bind].
  apply subreq_fits in E1; try done. by apply reqstats_fits.
Qed.

Definition block_fits (b : Z * Z) : Prop := is_i32 (b.1) ∧ is_i64 (b.2).

Lemma hindexed_loop_fits addrs h blocks p ext q q' h' :
  heap_fits h → Forall block_fits blocks →
  hindexed_loop addrs h blocks p ext q = Done (q', h') → heap_fits h'.
Proof.
  intros Hh Hb. revert addrs h q Hh. induction Hb as [|[l d] blocks Hx _ IH];
    intros addrs h q Hh; [by destruct addrs; intros [= _ <-]|].
  destruct addrs as [|a addrs]; [done|]. cbn [hindexed_loop].
  destruct (chain_block _ _ _ _ _ _ _) as [h1|] eqn:E; [|done]. cbn [mbind exec_bind].
  apply IH. destruct Hx. by eapply chain_block_fits.
Qed.

Lemma hindexed_fits addrs h blocks p ret q h' :
  heap_fits h → Forall block_fits blocks →
  PVFS_Request_hindexed addrs h blocks p = Done (ret, q, h') → heap_fits h'.
Proof.
  intros Hh Hb. unfold PVFS_Request_hindexed, PVFS_Request_extent.
  destruct p as [b|]; [|by intros [= _ _ <-]].
  destruct (deref h (Some b)) as [old|]; [|done]. cbn [mbind exec_bind].
  destruct (hindexed_loop _ _ _ _ _ _) as [[q1 h1]|] eqn:E1; [|done]. cbn [mbind exec_bind].
  apply hindexed_loop_fits in E1; [|done|by apply Forall_reverse].
  destruct (PINT_REQUEST_REFSET h1 q1) as [h2|] eqn:E2; [|done]. cbn. intros [= _ _ <-].
  by eapply refset_fits.
Qed.

Lemma indexed_fits addrs h blocks p ret q h' :
  heap_fits h → Forall block_fits blocks →
  PVFS_Request_indexed addrs h blocks p = Done (ret, q, h') → heap_fits h'.
Proof.
  intros Hh Hb. unfold PVFS_Request_indexed, PVFS_Request_extent.
  destruct p as [b|]; [|by intros [= _ _ <-]].
  destruct (deref h (Some b)) as [old|]; [|done]. cbn [mbind exec_bind].
  destruct (hindexed_loop _ _ _ _ _ _) as [[q1 h1]|] eqn:E1; [|done]. cbn [mbind exec_bind].
  apply hindexed_loop_fits in E1; [|done|].
  2: { apply Forall_reverse, Forall_fmap. eapply Forall_impl; [done|]. intros [l d] [Hl _].
       split; [done|]. cbn. auto. }
  destruct (PINT_REQUEST_REFSET h1 q1) as [h2|] eqn:E2; [|done]. cbn. intros [= _ _ <-].
  by eapply refset_fits.
Qed.

Lemma struct_loop_fits addrs h blocks q ret q' h' :
  heap_fits h → Forall (λ b, block_fits b.1) blocks →
  struct_loop addrs h blocks q = Done (ret, q', h') → heap_fits h'.
Proof.
  intros Hh Hb. revert addrs h q Hh. induction Hb as [|[[l d] p] blocks Hx _ IH];
    intros addrs h q Hh.
  - assert (struct_loop addrs h [] q = (h ← PINT_REQUEST_REFSET h q; Done (PVFS_SUCCESS, q, h)))
      as -> by (by destruct addrs).
    destruct (PINT_REQUEST_REFSET h q) as [h2|] eqn:E2; [|done]. cbn. intros [= _ _ <-].
    by eapply refset_fits.
  - destruct p as [b|]; [|by destruct addrs; intros [= _ _ <-]].
    destruct addrs as [|a addrs]; cbn [struct_loop]; unfold PVFS_Request_extent;
      (destruct (deref h (Some b)) as [old|]; [|done]); cbn [mbind exec_bind]; [done|].
    destruct (chain_block _ _ _ _ _ _ _) as [h1|] eqn:E; [|done]. cbn [mbind exec_bind].
    apply IH. destruct Hx. by eapply chain_block_fits.
Qed.

Lemma resized_fits addrs h p l e ret q h' :
  heap_fits h → is_i64 l → PVFS_Request_resized addrs h p l e = Done (ret, q, h') → heap_fits h'.
Proof.
  intros Hh Hl. unfold PVFS_Request_resized. destruct p as [b|]; [|by intros [= _ _ <-]].
  destruct (deref h (Some b)) as [old|]; [|done]. cbn [mbind exec_bind].
  destruct small_fits as (? & ? & ?).
  destruct (PVFS_Request_hvector _ _ _ _ _ _) as [[[ret1 q1] h1]|] eqn:E; [|done].
  cbn [mbind exec_bind]. apply hvector_fits in E; try done.
  destruct (update _ _ _) as [h2|] eqn:E2; [|done]. cbn. intros [= _ _ <-].
  eapply update_fits; [exact E| |exact E2]. intros r Hr. by apply bounds_fit; auto.
Qed.

(** A call of a constructor, with arguments of their C types. *)
Inductive construct :=
  | Contiguous (count : Z) (old : ptr)
  | Vector (count blocklength stride : Z) (old : ptr)
  | Hvector (count blocklength stride : Z) (old : ptr)
  | Indexed (blocks : list (Z * Z)) (old : ptr)
  | Hindexed (blocks : list (Z * Z)) (old : ptr)
  | Struct (blocks : list (Z * Z * ptr))
  | Resized (old : ptr) (lb extent : Z).

Definition args_fit (c : construct) : Prop :=
  match c with
  | Contiguous n _ => is_i32 n
  | Vector n b s _ => is_i32 n ∧ is_i32 b ∧ is_i64 s
  | Hvector n b s _ => is_i32 n ∧ is_i32 b ∧ is_i64 s
  | Indexed l _ | Hindexed l _ => Forall block_fits l
  | Struct l => Forall (λ b, block_fits b.1) l
  | Resized _ l e => is_i64 l ∧ is_i64 e
  end.

Definition run_construct (addrs : list positive) (h : req_heap) (c : construct)
    : exec (Z * ptr * req_heap) :=
  match c with
  | Contiguous n p => PVFS_Request_contiguous addrs h n p
  | Vector n b s p => PVFS_Request_vector addrs h n b s p
  | Hvector n b s p => PVFS_Request_hvector addrs h n b s p
  | Indexed l p => PVFS_Request_indexed addrs h l p
  | Hindexed l p => PVFS_Request_hindexed addrs h l p
  | Struct l => PVFS_Request_struct addrs h l
  | Resized p l e => PVFS_Request_resized addrs h p l e
  end.

(** Every constructor of requests, called with arguments of their types on
    a heap whose structs have fields of their types, leaves such a heap,
    whatever the arguments are and also when it reports an error: no product
    or sum of sizes, counts or depths leaves its field out of range. *)
Theorem constructors_typed addrs h c ret q h' :
  heap_fits h → args_fit c → run_construct addrs h c = Done (ret, q, h') → heap_fits h'.
Proof.
  intros Hh Hc. destruct small_fits as (? & ? & ?).
  destruct c as [n p|n b s p|n b s p|l p|l p|l|p l e]; cbn [run_construct args_fit] in *.
  - by apply hvector_fits.
  - destruct Hc as (? & ? & ?). unfold PVFS_Request_vector, PVFS_Request_extent.
    destruct p as [a|]; [|by intros [= _ _ <-]].
    destruct (deref h (Some a)) as [old|]; [|done]. cbn [mbind exec_bind]. by apply hvector_fits; auto.
  - destruct Hc as (? & ? & ?). by apply hvector_fits.
  - by apply indexed_fits.
  - by apply hindexed_fits.
  - unfold PVFS_Request_struct. by apply struct_loop_fits; [|apply Forall_reverse].
  - destruct Hc as [? ?]. by apply resized_fits.
Qed.

(** * Examples *)

Lemma byte_heap_fits : heap_fits byte_heap.
Proof. apply map_Forall_singleton, fields_fit_iff. unfold is_i32, is_i64. cbn. lia. Qed.

(** A vector whose size and extent overflow. *)
Lemma constructors_typed_witness :
  ∃ h, run_construct [2%positive] byte_heap
      (Hvector (B31 - 1) (B31 - 1) (B63 - 1) (Some 1%positive)) =
      Done (PVFS_SUCCESS, Some 2%positive, h) ∧ heap_fits h.
Proof.
  eexists. split; [reflexivity|].
  apply (constructors_typed [2%positive] byte_heap
    (Hvector (B31 - 1) (B31 - 1) (B63 - 1) (Some 1%positive)) PVFS_SUCCESS (Some 2%positive)).
  - apply byte_heap_fits.
  - unfold args_fit, is_i32, is_i64. lia.
  - reflexivity.
Defined.
