(* ===== verification/StateMachine.v ===== *)
(** The state machine engine of the client and the server
    (src/src/common/misc/state-machine.h, state-machine-fns.c): the control
    block with its stack of states and its frames, the transitions between
    states, nested machines, and parallel children.

    The engine is generic in what it runs.  States, machines, action functions
    and terminate functions are pointers; [S], [M], [F] and [T] are their
    types.  An action gets its control block and the job status, and uses the
    block through the functions of state-machine.h that are meant for it:
    [PINT_sm_frame], [PINT_sm_push_frame], [PINT_sm_pop_frame],
    [PINT_smcb_op] and [PINT_smcb_set_complete]; so it is a function of the
    operation, the frames and the base frame, which gives the new frames.
    [U] is the memory behind the frame pointers, which belongs to the actions. *)

From stdpp Require Import base list gmap.
From S2P Require Import Prelude Errors.

(** * Tables *)

Inductive PINT_state_code :=
  | SM_NONE | SM_NEXT | SM_RETURN | SM_EXTERN | SM_NESTED | SM_JUMP | SM_TERM | SM_PJMP | SM_RUN.

#[export] Instance state_code_eq_dec : EqDecision PINT_state_code.
Proof. solve_decision. Defined.

Definition PINT_STATE_STACK_SIZE : Z := 8.
Definition DEFAULT_ERROR : Z := -1.

(** [PINT_sm_action]. *)
Definition SM_ACTION_DEFERRED : Z := 0.
Definition SM_ACTION_COMPLETE : Z := 1.
Definition SM_ACTION_TERMINATE : Z := 2.
Definition SM_ERROR : Z := -1.

Record PINT_tran_tbl_s {S : Type} := mkTran {
  return_value : Z; tran_flag : PINT_state_code; next_state : option S }.
#[global] Arguments PINT_tran_tbl_s : clear implicits.
#[global] Arguments mkTran {S}.

Record PINT_pjmp_tbl_s {M : Type} := mkPjmp {
  pj_return_value : Z; pj_flag : PINT_state_code; state_machine : option M }.
#[global] Arguments PINT_pjmp_tbl_s : clear implicits.
#[global] Arguments mkPjmp {M}.

(** The union [action]; [None] is NULL. *)
Inductive sm_action {M F : Type} :=
  | action_func (f : option F)
  | action_nested (m : option M).
#[global] Arguments sm_action : clear implicits.

Record PINT_state_s {S M F : Type} := mkStateS {
  flag : PINT_state_code;
  action : sm_action M F;
  pjtbl : option (list (PINT_pjmp_tbl_s M));
  trtbl : option (list (PINT_tran_tbl_s S)) }.
#[global] Arguments PINT_state_s : clear implicits.
#[global] Arguments mkStateS {S M F}.

(** The static tables that statecomp generates. *)
Record program {S M F : Type} := mkProgram {
  state_of : S → option (PINT_state_s S M F);
  first_state : M → option S }.
#[global] Arguments program : clear implicits.
#[global] Arguments mkProgram {S M F}.

(** * Job status *)

Record job_status_s := mkStatus {
  error_code : Z; status_user_tag : Z; actual_size : Z; vtag : Z; position : Z;
  handle : Z; type : Z; coll_id : Z; count : Z }.

Definition status_zero : job_status_s := mkStatus 0 0 0 0 0 0 0 0 0.

Definition with_error (r : job_status_s) (code : Z) : job_status_s :=
  mkStatus code (status_user_tag r) (actual_size r) (vtag r) (position r) (handle r) (type r)
    (coll_id r) (count r).

(** * Control blocks *)

(** [frame] is a pointer, [None] is NULL. *)
Record PINT_frame_s := mkFrame { task_id : Z; frame : option positive; frame_error : Z }.

Inductive terminate_function {T : Type} :=
  | child_sm_frame_terminate_fn
  | user_terminate_fn (t : T).
#[global] Arguments terminate_function : clear implicits.

Section engine.
Context {S M F T U : Type}.

(** The fields [op_id], [op_completed] and [user_ptr], which only the users of
    the engine read, are left out.  [frames] is the list from the top of the
    stack down.  [h_root], [h_trace] and [h_done] are history variables, which
    nothing reads: the first state of the machine that the block runs, the
    states that it has entered, as the debug messages of
    [PINT_state_machine_invoke] list them, and whether
    [PINT_state_machine_terminate] was called for it. *)
Record PINT_smcb := mkSmcb {
  stackptr : Z;
  current_state : option S;
  state_stack : list (option S * Z);     (* state, prev_base_frame *)
  frames : list PINT_frame_s;
  base_frame : Z;
  frame_count : Z;
  op_get_state_machine : option (Z → exec (option M));
  op : Z;
  parent_smcb : option positive;
  op_terminate : Z;
  op_cancelled : Z;
  children_running : Z;
  context : Z;
  terminate_fn : option (terminate_function T);
  immediate : Z;
  h_root : option S;
  h_trace : list S;
  h_done : bool }.

(** Stores into the fields that control the transitions. *)
Definition with_control (s : PINT_smcb) (ptr : Z) (cur : option S) (stack : list (option S * Z))
    (base : Z) : PINT_smcb :=
  mkSmcb ptr cur stack (frames s) base (frame_count s) (op_get_state_machine s) (op s)
    (parent_smcb s) (op_terminate s) (op_cancelled s) (children_running s) (context s)
    (terminate_fn s) (immediate s) (h_root s) (h_trace s)
    (h_done s).

Definition with_current (s : PINT_smcb) (cur : option S) : PINT_smcb :=
  with_control s (stackptr s) cur (state_stack s) (base_frame s).

Definition with_frames (s : PINT_smcb) (fs : list PINT_frame_s) (cnt : Z) : PINT_smcb :=
  mkSmcb (stackptr s) (current_state s) (state_stack s) fs (base_frame s) cnt
    (op_get_state_machine s) (op s) (parent_smcb s) (op_terminate s) (op_cancelled s)
    (children_running s) (context s) (terminate_fn s) (immediate s) (h_root s) (h_trace s)
    (h_done s).

Definition with_flags (s : PINT_smcb) (term cancelled imm : Z) : PINT_smcb :=
  mkSmcb (stackptr s) (current_state s) (state_stack s) (frames s) (base_frame s) (frame_count s)
    (op_get_state_machine s) (op s) (parent_smcb s) term cancelled (children_running s)
    (context s) (terminate_fn s) imm (h_root s) (h_trace s)
    (h_done s).

Definition with_children (s : PINT_smcb) (n : Z) : PINT_smcb :=
  mkSmcb (stackptr s) (current_state s) (state_stack s) (frames s) (base_frame s) (frame_count s)
    (op_get_state_machine s) (op s) (parent_smcb s) (op_terminate s) (op_cancelled s) n
    (context s) (terminate_fn s) (immediate s) (h_root s) (h_trace s)
    (h_done s).

Definition with_op (s : PINT_smcb) (o : Z) (getmach : option (Z → exec (option M)))
    (parent : option positive) (ctx : Z) (term : option (terminate_function T)) : PINT_smcb :=
  mkSmcb (stackptr s) (current_state s) (state_stack s) (frames s) (base_frame s) (frame_count s)
    getmach o parent (op_terminate s) (op_cancelled s) (children_running s) ctx term
    (immediate s) (h_root s) (h_trace s)
    (h_done s).

Definition with_history (s : PINT_smcb) (root : option S) (trace : list S) (ended : bool)
    : PINT_smcb :=
  mkSmcb (stackptr s) (current_state s) (state_stack s) (frames s) (base_frame s) (frame_count s)
    (op_get_state_machine s) (op s) (parent_smcb s) (op_terminate s) (op_cancelled s)
    (children_running s) (context s) (terminate_fn s) (immediate s) root trace ended.

(** The zeroed block with an empty list of frames. *)
Definition smcb_zero : PINT_smcb :=
  mkSmcb 0 None (replicate (Z.to_nat PINT_STATE_STACK_SIZE) (None, 0)) [] (-1) 0 None 0 None 0 0 0
    0 None 0 None [] false.

(** The heap: the control blocks; the null jobs that are complete, with their
    user pointers, in the order of the completion queue; the memory of the
    actions; and the number of calls of [malloc] so far.  [finished] is a
    history variable: the blocks that [PINT_state_machine_terminate] was called
    for, with their histories. *)
Record world := mkWorld {
  smcbs : gmap positive PINT_smcb;
  null_jobs : list positive;
  mem : U;
  mallocs : nat;
  finished : list (positive * option S * list S) }.

(** What an action sees of its block, and what it leaves. *)
Record action_view := mkView {
  view_op : Z; view_frames : list PINT_frame_s; view_base : Z }.

Record action_result := mkResult {
  result_action : Z;               (* the value it returns *)
  result_status : job_status_s;    (* *js_p *)
  result_frames : list PINT_frame_s;
  result_complete : bool;          (* it called PINT_smcb_set_complete *)
  result_mem : U }.

(** The program, the actions, the terminate functions (which may free the
    block), and the allocator: whether its n-th call succeeds, the addresses of
    control blocks, and frames in the memory of the actions. *)
Context (prog : program S M F).
Context (func : F → action_view → job_status_s → U → action_result).
Context (term_func : T → PINT_smcb → job_status_s → U → bool * U).
Context (malloc : nat → bool).
Context (place : gset positive → positive).
Context (alloc_frame : Z → U → option positive * U).
Context (free_frame : positive → U → U).

Definition smcb_at (w : world) (a : positive) : exec PINT_smcb :=
  match smcbs w !! a with Some s => Done s | None => Fault BadAccess end.

Definition with_smcbs (w : world) (m : gmap positive PINT_smcb) : world :=
  mkWorld m (null_jobs w) (mem w) (mallocs w) (finished w).

Definition store_smcb (w : world) (a : positive) (s : PINT_smcb) : world :=
  with_smcbs w (<[a := s]> (smcbs w)).

Definition with_mem (w : world) (u : U) : world :=
  mkWorld (smcbs w) (null_jobs w) u (mallocs w) (finished w).

Definition do_malloc (w : world) : bool * world :=
  (malloc (mallocs w),
   mkWorld (smcbs w) (null_jobs w) (mem w) (Datatypes.S (mallocs w)) (finished w)).

Definition state_at (st : S) : exec (PINT_state_s S M F) :=
  match state_of prog st with Some d => Done d | None => Fault BadAccess end.

(** [nested->first_state]. *)
Definition first_state_of (m : option M) : exec S :=
  match m ≫= first_state prog with Some st => Done st | None => Fault BadAccess end.

(** * Frames *)

(** The frame [index] above the base frame. *)
Definition PINT_sm_frame (s : PINT_smcb) (index : Z) : exec (option positive) :=
  let target := base_frame s + index in
  match frames s with
  | [] => Done None
  | _ =>
      if decide (target < 0 ∨ target >= frame_count s) then Done None
      else match rev (frames s) !! Z.to_nat target with
           | Some f => Done (frame f)
           | None => Fault BadAccess
           end
  end.

Definition PINT_sm_push_frame (w : world) (a : positive) (task : Z) (frame_p : option positive)
    : exec (Z * world) :=
  let '(ok, w) := do_malloc w in
  if negb ok then Done (- PVFS_ENOMEM, w) else
  s ← smcb_at w a;
  Done (0, store_smcb w a (with_frames s (mkFrame task frame_p 0 :: frames s) (frame_count s + 1))).

(** The frame, [*task_id], [*error_code] and [*remaining]; nothing is written
    when there is no frame. *)
Definition PINT_sm_pop_frame (w : world) (a : positive)
    : exec (option positive * option (Z * Z * Z) * world) :=
  s ← smcb_at w a;
  match frames s with
  | [] => Done (None, None, w)
  | f :: rest =>
      Done (frame f, Some (task_id f, frame_error f, frame_count s - 1),
            store_smcb w a (with_frames s rest (frame_count s - 1)))
  end.

(** * The stack of states *)

Definition PINT_pop_state (s : PINT_smcb) : exec (option S * PINT_smcb) :=
  if decide (stackptr s = 0) then Done (None, s)
  else
    let ptr := stackptr s - 1 in
    match state_stack s !! Z.to_nat ptr with
    | Some (st, prev) => Done (st, with_control s ptr (current_state s) (state_stack s) prev)
    | None => Fault BadAccess
    end.

Definition PINT_push_state (s : PINT_smcb) (p : option S) : exec PINT_smcb :=
  if decide (stackptr s < PINT_STATE_STACK_SIZE) then
    Done (with_control s (stackptr s + 1) (current_state s)
            (<[Z.to_nat (stackptr s) := (p, base_frame s)]> (state_stack s)) (frame_count s - 1))
  else Fault AssertFailed.

(** * Transitions *)

(** The loop over the transition table: the entry for [code], or the default. *)
Fixpoint find_transition (tbl : list (PINT_tran_tbl_s S)) (code : Z) : exec (PINT_tran_tbl_s S) :=
  match tbl with
  | [] => Fault BadAccess
  | t :: rest =>
      if decide (return_value t ≠ DEFAULT_ERROR) then
        if decide (return_value t = code) then Done t else find_transition rest code
      else Done t
  end.

(** The loop while returning from nested machines: [None] when the machine
    terminates, else the transition to take. *)
Fixpoint return_loop (n : nat) (s : PINT_smcb) (code : Z)
    : exec (PINT_smcb * option (PINT_tran_tbl_s S)) :=
  match n with
  | O => Fault OutOfFuel
  | Datatypes.S n =>
      match current_state s with
      | None => Fault AssertFailed
      | Some st =>
          d ← state_at st;
          match trtbl d with
          | None => Fault AssertFailed
          | Some transtbl =>
              t ← find_transition transtbl code;
              if decide (tran_flag t = SM_TERM ∨ op_terminate s ≠ 0) then
                Done (with_flags s 1 (op_cancelled s) (immediate s), None)
              else if decide (tran_flag t = SM_RETURN) then
                (* if this is a return pop the stack and we'll continue from the
                   state returned to *)
                '(p, s) ← PINT_pop_state s;
                let s := with_current s p in
                match p with
                | None => Done (s, None)
                | Some st' =>
                    d' ← state_at st';
                    match trtbl d' with
                    | Some (t0 :: _) =>
                        if decide (tran_flag t0 = SM_TERM) then Done (s, None)
                        else return_loop n s code
                    | _ => Fault BadAccess
                    end
                end
              else Done (s, Some t)
          end
      end
  end.

(** The loop that enters nested machines. *)
Fixpoint jump_loop (n : nat) (s : PINT_smcb) : exec PINT_smcb :=
  match n with
  | O => Fault OutOfFuel
  | Datatypes.S n =>
      match current_state s with
      | None => Fault BadAccess
      | Some st =>
          d ← state_at st;
          if decide (flag d = SM_JUMP) then
            s ← PINT_push_state s (Some st);
            match action d with
            | action_nested m =>
                first ← first_state_of m;
                jump_loop n (with_current s (Some first))
            | action_func _ => Fault BadAccess
            end
          else Done s
      end
  end.

(** At most the stack is popped, and at most it is filled. *)
Definition loop_fuel : nat := Datatypes.S (Z.to_nat PINT_STATE_STACK_SIZE).

(** * Blocks *)

(** The operation, the machine of which is looked up, and the result. *)
Definition PINT_state_machine_locate (s : PINT_smcb) : exec (Z * PINT_smcb) :=
  match op_get_state_machine s with
  | None => Done (- PVFS_EINVAL, s)
  | Some getmach =>
      if decide (op s < 0) then Done (- PVFS_EINVAL, s) else
      op_sm ← getmach (op s);
      match op_sm with
      | Some m =>
          first ← first_state_of (Some m);
          s' ← jump_loop loop_fuel (with_current s (Some first));
          Done (1, with_history s' (Some first) [] false)
      | None => Done (0, s)
      end
  end.

Definition PINT_smcb_set_op (s : PINT_smcb) (o : Z) : exec (Z * PINT_smcb) :=
  PINT_state_machine_locate (with_op s o (op_get_state_machine s) (parent_smcb s) (context s)
    (terminate_fn s)).

Definition PINT_smcb_free (w : world) (a : positive) : exec world :=
  s ← smcb_at w a;
  let u := foldl (λ u f, match frame f with
                         | Some p => if decide (task_id f = 0) then free_frame p u else u
                         | None => u
                         end) (mem w) (frames s) in
  Done (with_mem (with_smcbs w (delete a (smcbs w))) u).

(** [*smcb], the result and the heap. *)
Definition PINT_smcb_alloc (w : world) (o frame_size : Z)
    (getmach : option (Z → exec (option M))) (term_fn : option (terminate_function T))
    (context_id : Z) : exec (option positive * Z * world) :=
  let '(ok, w) := do_malloc w in
  if negb ok then Done (None, - PVFS_ENOMEM, w) else
  let a := place (dom (smcbs w)) in
  let w := store_smcb w a smcb_zero in
  '(fail, w) ←
    (if decide (frame_size > 0) then
       (* if frame_size given, allocate a frame *)
       let '(p, u) := alloc_frame frame_size (mem w) in
       let w := with_mem w u in
       match p with
       | None => Done (true, with_smcbs w (delete a (smcbs w)))
       | Some p =>
           '(_, w) ← PINT_sm_push_frame w a 0 (Some p);
           s ← smcb_at w a;
           Done (false, store_smcb w a
             (with_control s (stackptr s) (current_state s) (state_stack s) 0))
       end
     else Done (false, w));
  if (fail : bool) then Done (None, - PVFS_ENOMEM, w) else
  s ← smcb_at w a;
  let s := with_op s o getmach None context_id term_fn in
  (* if a getmach given, lookup state machine *)
  match getmach with
  | Some _ =>
      '(ret, s) ← PINT_state_machine_locate s;
      Done (Some a, ret, store_smcb w a s)
  | None => Done (Some a, 0, store_smcb w a s)
  end.

(** * Termination *)

(** [job_null] (src/src/io/job/job.c) puts a completed job on the queue. *)
Definition job_null (w : world) (user_ptr : positive) (r : job_status_s)
    : Z * job_status_s * world :=
  let '(ok, w) := do_malloc w in
  if negb ok then (1, with_error r (- PVFS_ENOMEM), w)
  else (0, r, mkWorld (smcbs w) (null_jobs w ++ [user_ptr]) (mem w) (mallocs w) (finished w)).

(** The first frame of the list that is [my_frame] gets the error code. *)
Fixpoint set_frame_error (l : list PINT_frame_s) (my_frame : option positive) (code : Z)
    : list PINT_frame_s :=
  match l with
  | [] => []
  | f :: rest =>
      if decide (my_frame = frame f) then mkFrame (task_id f) (frame f) code :: rest
      else f :: set_frame_error rest my_frame code
  end.

Definition PINT_state_machine_terminate (w : world) (a : positive) (r : job_status_s)
    : exec (Z * job_status_s * world) :=
  s ← smcb_at w a;
  let w := mkWorld (<[a := with_history s (h_root s) (h_trace s) true]> (smcbs w)) (null_jobs w)
             (mem w) (mallocs w) (finished w ++ [(a, h_root s, h_trace s)]) in
  '(r, w) ←
    match parent_smcb s with
    | Some p =>
        (* notify parent *)
        ps ← smcb_at w p;
        if decide (children_running ps > 0) then
          my_frame ← PINT_sm_frame s 0;
          let ps := with_frames ps (set_frame_error (frames ps) my_frame (error_code r))
                      (frame_count ps) in
          let ps := with_children ps (children_running ps - 1) in
          let w := store_smcb w p ps in
          if decide (children_running ps <= 0) then
            (* no more child state machines running, so we can start up the
               parent state machine again *)
            let '(_, r, w) := job_null w p r in Done (r, w)
          else Done (r, w)
        else Fault AssertFailed
    | None => Done (r, w)
    end;
  (* call state machine completion function *)
  match terminate_fn s with
  | Some child_sm_frame_terminate_fn => w ← PINT_smcb_free w a; Done (0, r, w)
  | Some (user_terminate_fn t) =>
      s ← smcb_at w a;
      let '(free, u) := term_func t s r (mem w) in
      let w := with_mem w u in
      if (free : bool) then w ← PINT_smcb_free w a; Done (0, r, w) else Done (0, r, w)
  | None => Done (0, r, w)
  end.

(** * Running *)

(** Which machine a child runs; the table is not checked to end. *)
Fixpoint task_map_loop (tbl : list (PINT_pjmp_tbl_s M)) (task : Z) : exec S :=
  match tbl with
  | [] => Fault BadAccess
  | e :: rest =>
      if decide (pj_return_value e = task ∨ pj_return_value e = -1)
      then first_state_of (state_machine e)
      else task_map_loop rest task
  end.

Definition PINT_sm_task_map (s : PINT_smcb) (task : Z) : exec S :=
  match current_state s with
  | None => Fault BadAccess
  | Some st =>
      d ← state_at st;
      match pjtbl d with Some tbl => task_map_loop tbl task | None => Fault BadAccess end
  end.

(** The number of frames from the top down to [my_frame]. *)
Fixpoint count_children (l : list PINT_frame_s) (my_frame : option positive) : Z :=
  match l with
  | [] => 0
  | f :: rest => if decide (frame f = my_frame) then 0 else 1 + count_children rest my_frame
  end.

(** The block after its action. *)
Definition after_action (s : PINT_smcb) (res : action_result) : PINT_smcb :=
  let s := with_frames s (result_frames res) (Z.of_nat (length (result_frames res))) in
  if result_complete res then with_flags s 1 (op_cancelled s) (immediate s) else s.

(** The functions of the engine call each other; [fuel] bounds the depth of
    the calls and the iterations of the loops.  [child_loop] starts a child for
    each frame from the [k]-th of the list, counted from its end, to
    [my_frame]. *)
Fixpoint PINT_state_machine_invoke (fuel : nat) (w : world) (a : positive) (r : job_status_s)
    {struct fuel} : exec (Z * job_status_s * world) :=
  match fuel with
  | O => Fault OutOfFuel
  | Datatypes.S fuel =>
      s ← smcb_at w a;
      match current_state s with
      | None => Done (SM_ERROR, r, w)
      | Some st =>
          d ← state_at st;
          if decide (flag d = SM_RUN ∨ flag d = SM_PJMP) then
            match action d with
            | action_func (Some f) =>
                (* call state action function *)
                let s := with_history s (h_root s) (h_trace s ++ [st]) (h_done s) in
                let res := func f (mkView (op s) (frames s) (base_frame s)) r (mem w) in
                let retval := result_action res in
                let r := result_status res in
                let s := after_action s res in
                let s := if decide (retval = SM_ACTION_TERMINATE)
                         then with_flags s 1 (op_cancelled s) (immediate s) else s in
                let w := with_mem (store_smcb w a s) (result_mem res) in
                if decide (retval = SM_ACTION_COMPLETE ∧ flag d = SM_PJMP) then
                  (* start child SMs *)
                  '(children_started, w) ← PINT_sm_start_child_frames fuel w a;
                  if decide (children_started > 0) then Done (SM_ACTION_DEFERRED, r, w)
                  else Done (SM_ACTION_COMPLETE, r, w)
                else Done (retval, r, w)
            | action_func None => Done (SM_ERROR, r, w)
            | action_nested _ => Fault BadAccess
            end
          else Done (SM_ERROR, r, w)
      end
  end
with PINT_sm_start_child_frames (fuel : nat) (w : world) (a : positive) {struct fuel}
    : exec (Z * world) :=
  match fuel with
  | O => Fault OutOfFuel
  | Datatypes.S fuel =>
      s ← smcb_at w a;
      my_frame ← PINT_sm_frame s 0;
      (* iterate once up front to determine how many children we are going to run *)
      let s := with_children s (children_running s + count_children (frames s) my_frame) in
      let w := store_smcb w a s in
      let children_started := children_running s in
      w ← child_loop fuel w a status_zero my_frame (length (frames s));
      Done (children_started, w)
  end
with child_loop (fuel : nat) (w : world) (a : positive) (r : job_status_s)
    (my_frame : option positive) (k : nat) {struct fuel} : exec world :=
  match fuel with
  | O => Fault OutOfFuel
  | Datatypes.S fuel =>
      match k with
      | O => Done w
      | Datatypes.S j =>
          s ← smcb_at w a;
          match rev (frames s) !! j with
          | None => Fault BadAccess
          | Some f =>
              (* run from TOS until the parent frame *)
              if decide (frame f = my_frame) then Done w
              else
                '(new_sm, _, w) ← PINT_smcb_alloc w (op s) 0 None
                  (Some child_sm_frame_terminate_fn) (context s);
                match new_sm with
                | None => Fault BadAccess
                | Some c =>
                    cs ← smcb_at w c;
                    let w := store_smcb w c (with_op cs (op cs) (op_get_state_machine cs) (Some a)
                               (context cs) (terminate_fn cs)) in
                    '(_, w) ← PINT_sm_push_frame w c (task_id f) (frame f);
                    s ← smcb_at w a;
                    st ← PINT_sm_task_map s (task_id f);
                    cs ← smcb_at w c;
                    let w := store_smcb w c (with_history (with_current cs (Some st)) (Some st) [] false) in
                    (* invoke SM *)
                    '(retval, r, w) ← PINT_state_machine_start fuel w c r;
                    child_loop fuel w a r my_frame j
                end
          end
      end
  end
with PINT_state_machine_start (fuel : nat) (w : world) (a : positive) (r : job_status_s)
    {struct fuel} : exec (Z * job_status_s * world) :=
  match fuel with
  | O => Fault OutOfFuel
  | Datatypes.S fuel =>
      s ← smcb_at w a;
      (* the state machine completes immediately, until it is deferred; the base
         frame is the current TOS *)
      let s := with_flags s (op_terminate s) (op_cancelled s) 1 in
      let s := with_control s (stackptr s) (current_state s) (state_stack s) (frame_count s - 1) in
      '(ret, r, w) ← PINT_state_machine_invoke fuel (store_smcb w a s) a r;
      '(ret, r, w) ←
        (if decide (ret = SM_ACTION_COMPLETE ∨ ret = SM_ACTION_TERMINATE)
         then PINT_state_machine_continue fuel w a r
         else Done (ret, r, w));
      if decide (ret = SM_ACTION_DEFERRED) then
        s ← smcb_at w a;
        Done (ret, r, store_smcb w a (with_flags s (op_terminate s) (op_cancelled s) 0))
      else Done (ret, r, w)
  end
with next_loop (fuel : nat) (w : world) (a : positive) (r : job_status_s) {struct fuel}
    : exec (Z * job_status_s * world) :=
  match fuel with
  | O => Fault OutOfFuel
  | Datatypes.S fuel =>
      s ← smcb_at w a;
      '(s, t) ← return_loop loop_fuel s (error_code r);
      match t with
      | None => Done (SM_ACTION_TERMINATE, r, store_smcb w a s)
      | Some t =>
          s ← jump_loop loop_fuel (with_current s (next_state t));
          (* runs state_action and returns the return code *)
          '(ret, r, w) ← PINT_state_machine_invoke fuel (store_smcb w a s) a r;
          if decide (ret = SM_ACTION_COMPLETE ∨ ret = SM_ACTION_TERMINATE)
          then next_loop fuel w a r
          else Done (ret, r, w)
      end
  end
with PINT_state_machine_next (fuel : nat) (w : world) (a : positive) (r : job_status_s)
    {struct fuel} : exec (Z * job_status_s * world) :=
  match fuel with
  | O => Fault OutOfFuel
  | Datatypes.S fuel =>
      s ← smcb_at w a;
      if decide (op_cancelled s ≠ 0) then Done (SM_ACTION_TERMINATE, r, w)
      else next_loop fuel w a r
  end
with PINT_state_machine_continue (fuel : nat) (w : world) (a : positive) (r : job_status_s)
    {struct fuel} : exec (Z * job_status_s * world) :=
  match fuel with
  | O => Fault OutOfFuel
  | Datatypes.S fuel =>
      '(ret, r, w) ← PINT_state_machine_next fuel w a r;
      if decide (ret = SM_ACTION_TERMINATE) then
        (* process terminating SM *)
        '(_, r, w) ← PINT_state_machine_terminate w a r;
        Done (ret, r, w)
      else Done (ret, r, w)
  end.

End engine.

#[global] Arguments PINT_smcb : clear implicits.
#[global] Arguments world : clear implicits.
#[global] Arguments action_result : clear implicits.
