(* ===== verification/StateMachineSpec.v ===== *)
(** What the transitions of the state machine engine mean: nested machines are
    procedures.

    [activation st tr res] is a run of a machine from its state [st] on that
    enters the states [tr] and ends with [res], where a state that jumps to a
    nested machine is a call of it, and the code with which that machine
    returns is the one that the state's own table is consulted with.  The
    engine has no such calls; it keeps the states to return to in an array of
    eight entries.  [return_loop_spec] and [jump_loop_spec] show that the array
    is a stack of calls that never overflows when the nesting of the machines
    is at most eight, and [walk_activation] that what it does is an activation. *)

From stdpp Require Import base list gmap.
From S2P Require Import Prelude Errors StateMachine.

Section control.
Context {S M F : Type}.
Context (prog : program S M F).

Abbreviation state_s := (PINT_state_s S M F).
Abbreviation tran := (PINT_tran_tbl_s S).

(** * Machines as procedures *)

Definition leaf (d : state_s) : Prop := flag d = SM_RUN ∨ flag d = SM_PJMP.

(** The transition that [code] selects in the state [st]. *)
Definition selects (st : S) (code : Z) (t : tran) : Prop :=
  ∃ d tbl, state_of prog st = Some d ∧ trtbl d = Some tbl ∧ find_transition tbl code = Done t.

(** The first entry of the table of [st] terminates. *)
Definition first_terminates (st : S) : Prop :=
  ∃ d t0 tbl, state_of prog st = Some d ∧ trtbl d = Some (t0 :: tbl) ∧ tran_flag t0 = SM_TERM.

Definition jumps (st f : S) : Prop :=
  ∃ d m, state_of prog st = Some d ∧ flag d = SM_JUMP ∧ action d = action_nested (Some m) ∧
    first_state prog m = Some f.

Definition is_leaf (st : S) : Prop := ∃ d, state_of prog st = Some d ∧ leaf d.

Inductive sm_end :=
  | Returned (code : Z)
  | Terminated.

Inductive activation : S → list S → sm_end → Prop :=
  | act_leaf st code tr res :
      is_leaf st → follows st code tr res → activation st (st :: tr) res
  | act_jump_terminated st f tr :
      jumps st f → activation f tr Terminated → activation st tr Terminated
  | act_jump_first st f tr code :
      jumps st f → activation f tr (Returned code) → first_terminates st →
      activation st tr Terminated
  | act_jump st f tr code tr' res :
      jumps st f → activation f tr (Returned code) → ¬ first_terminates st →
      follows st code tr' res → activation st (tr ++ tr') res
(** From the end of the state [st] with [code] on. *)
with follows : S → Z → list S → sm_end → Prop :=
  | follows_terminate st code t :
      selects st code t → tran_flag t = SM_TERM → follows st code [] Terminated
  | follows_return st code t :
      selects st code t → tran_flag t = SM_RETURN → follows st code [] (Returned code)
  | follows_next st code t st' tr res :
      selects st code t → tran_flag t ≠ SM_TERM → tran_flag t ≠ SM_RETURN →
      next_state t = Some st' → activation st' tr res → follows st code tr res.

Scheme activation_mut := Induction for activation Sort Prop
  with follows_mut := Induction for follows Sort Prop.
Combined Scheme activation_follows_ind from activation_mut, follows_mut.

(** * The stack *)

(** A configuration: the current state, and the states to return to. *)
Abbreviation config := (S * list S)%type.

Inductive enters : S → list S → config → Prop :=
  | enters_leaf st stk : is_leaf st → enters st stk (st, stk)
  | enters_jump st f stk c : jumps st f → enters f (st :: stk) c → enters st stk c.

Inductive lands : S → list S → Z → option config → Prop :=
  | lands_terminate st stk code t :
      selects st code t → tran_flag t = SM_TERM → lands st stk code None
  | lands_main st code t :
      selects st code t → tran_flag t = SM_RETURN → lands st [] code None
  | lands_first st p stk code t :
      selects st code t → tran_flag t = SM_RETURN → first_terminates p →
      lands st (p :: stk) code None
  | lands_return st p stk code t o :
      selects st code t → tran_flag t = SM_RETURN → ¬ first_terminates p →
      lands p stk code o → lands st (p :: stk) code o
  | lands_next st stk code t st' c :
      selects st code t → tran_flag t ≠ SM_TERM → tran_flag t ≠ SM_RETURN →
      next_state t = Some st' → enters st' stk c → lands st stk code (Some c).

(** The states entered before [c], from [c0] on. *)
Inductive walk (c0 : config) : list S → config → Prop :=
  | walk_nil : walk c0 [] c0
  | walk_step tr c code c' :
      walk c0 tr c → lands c.1 c.2 code (Some c') → walk c0 (tr ++ [c.1]) c'.

(** * From stacks to calls *)

(** The rest of a run whose calls are [stk], after the innermost returned. *)
Inductive resumes : list S → sm_end → list S → sm_end → Prop :=
  | resumes_terminated stk : resumes stk Terminated [] Terminated
  | resumes_main code : resumes [] (Returned code) [] (Returned code)
  | resumes_first p stk code :
      first_terminates p → resumes (p :: stk) (Returned code) [] Terminated
  | resumes_return p stk code tr res tr' res' :
      ¬ first_terminates p → follows p code tr res → resumes stk res tr' res' →
      resumes (p :: stk) (Returned code) (tr ++ tr') res'.

Lemma enters_callers st stk c : enters st stk c → is_leaf c.1.
Proof. by induction 1. Qed.

(** Nested calls of the states that lead to a configuration. *)
Lemma enters_resumes st stk c tr res tr' res' :
  enters st stk c → activation c.1 tr res → resumes c.2 res tr' res' →
  ∃ tr1 res1 tr2, activation st tr1 res1 ∧ resumes stk res1 tr2 res' ∧ tr ++ tr' = tr1 ++ tr2.
Proof.
  intros He. revert tr res tr' res'.
  induction He as [st stk Hl|st f stk c Hj He IH]; intros tr res tr' res' Ha Hr;
    [by exists tr, res, tr'|].
  destruct (IH _ _ _ _ Ha Hr) as (tr1 & res1 & tr2 & Ha1 & Hr1 & ->).
  inversion Hr1; subst.
  - exists tr1, Terminated, []. split; [by eapply act_jump_terminated|]. split; [constructor|done].
  - exists tr1, Terminated, []. split; [by eapply act_jump_first|]. split; [constructor|done].
  - match goal with Hf : follows _ _ ?t ?rr, Hs : resumes _ ?rr ?t' _ |- _ =>
      exists (tr1 ++ t), rr, t' end.
    split; [by eapply act_jump|]. split; [done|]. by rewrite (assoc_L (++)).
Qed.

(** After the state [st] completed with [code]: the end, or the next leaf. *)
Lemma lands_end st stk code o :
  lands st stk code o → o = None →
  ∃ tr res tr' res', follows st code tr res ∧ resumes stk res tr' res' ∧ tr ++ tr' = [].
Proof.
  induction 1 as [st stk code t Hs Hf|st code t Hs Hf|st p stk code t Hs Hf Hp
    |st p stk code t o Hs Hf Hp Hl IH|]; intros Ho; try done.
  - exists [], Terminated, [], Terminated. split; [by eapply follows_terminate|]. split; constructor.
  - exists [], (Returned code), [], (Returned code).
    split; [by eapply follows_return|]. split; [constructor|done].
  - exists [], (Returned code), [], Terminated.
    split; [by eapply follows_return|]. split; [by constructor|done].
  - destruct (IH Ho) as (tr & res & tr' & res' & Hfo & Hr & Hnil).
    exists [], (Returned code), (tr ++ tr'), res'.
    split; [by eapply follows_return|]. split; [by eapply resumes_return|done].
Qed.

Lemma lands_some st stk code o c tr res tr' res' :
  lands st stk code o → o = Some c → activation c.1 tr res → resumes c.2 res tr' res' →
  ∃ tr1 res1 tr2, follows st code tr1 res1 ∧ resumes stk res1 tr2 res' ∧ tr ++ tr' = tr1 ++ tr2.
Proof.
  induction 1 as [| | |st p stk code t o Hs Hf Hp Hl IH|st stk code t st' c' Hs Hf Hf' Hn He];
    intros Ho Ha Hr; try done.
  - destruct (IH Ho Ha Hr) as (tr1 & res1 & tr2 & Hfo & Hr1 & ->).
    exists [], (Returned code), (tr1 ++ tr2).
    split; [by eapply follows_return|]. split; [by eapply resumes_return|done].
  - injection Ho as ->. destruct (enters_resumes _ _ _ _ _ _ _ He Ha Hr) as (tr1 & res1 & tr2 & Ha1 & Hr1 & ->).
    exists tr1, res1, tr2. split; [by eapply follows_next|done].
Qed.

Lemma lands_leaf st stk code o c : lands st stk code o → o = Some c → is_leaf c.1.
Proof. induction 1; intros; simplify_eq; eauto using enters_callers. Qed.

Lemma walk_leaf c0 tr c : walk c0 tr c → is_leaf c0.1 → is_leaf c.1.
Proof. destruct 1; eauto using lands_leaf. Qed.

(** A run to its end is a nest of calls. *)
Lemma walk_resumes c0 tr c trc res tr' res' :
  walk c0 tr c → is_leaf c0.1 → activation c.1 trc res → resumes c.2 res tr' res' →
  ∃ tr1 res1 tr2, activation c0.1 tr1 res1 ∧ resumes c0.2 res1 tr2 res' ∧
    tr ++ trc ++ tr' = tr1 ++ tr2.
Proof.
  intros Hw Hl. revert trc res tr' res'.
  induction Hw as [|tr c code c' Hw IH Hla]; intros trc res tr' res' Ha Hr;
    [by exists trc, res, tr'|].
  pose proof (walk_leaf _ _ _ Hw Hl) as Hlc.
  destruct (lands_some _ _ _ _ _ _ _ _ _ Hla eq_refl Ha Hr) as (tr1 & res1 & tr2 & Hf & Hr1 & E).
  destruct (IH (c.1 :: tr1) res1 tr2 res') as (tr3 & res3 & tr4 & Ha3 & Hr3 & E3);
    [by eapply act_leaf|done|].
  exists tr3, res3, tr4. split; [done|]. split; [done|].
  rewrite <- E3. cbn. rewrite <- (assoc_L (++)). cbn. by rewrite E.
Qed.

Lemma walk_activation st c0 tr c code :
  enters st [] c0 → walk c0 tr c → is_leaf c.1 → lands c.1 c.2 code None →
  ∃ res, activation st (tr ++ [c.1]) res.
Proof.
  intros He Hw Hl Hla.
  destruct (lands_end _ _ _ _ Hla eq_refl) as (tr1 & res1 & tr2 & res2 & Hf & Hr & [-> ->]%app_nil).
  destruct (walk_resumes _ _ _ [c.1] res1 [] res2 Hw (enters_callers _ _ _ He)) as
    (tr3 & res3 & tr4 & Ha3 & Hr3 & E); [by eapply act_leaf|done|].
  destruct (enters_resumes _ _ _ _ _ _ _ He Ha3 Hr3) as (tr5 & res5 & tr6 & Ha5 & Hr5 & E5).
  rewrite (right_id_L [] (++)) in E. rewrite E, E5.
  exists res5. inversion Hr5; subst; by rewrite (right_id_L [] (++)).
Qed.

(** * Well-formed programs *)

(** [depth st] bounds the calls that nest inside of the machine of [st]. *)
Record wf_state (depth : S → nat) (st : S) (d : state_s) : Prop := {
  wf_table : ∃ tbl, trtbl d = Some tbl ∧ (∃ t, t ∈ tbl ∧ return_value t = DEFAULT_ERROR) ∧
    ∀ t, t ∈ tbl → tran_flag t = SM_TERM ∨ tran_flag t = SM_RETURN ∨
      ∃ st', next_state t = Some st' ∧ is_Some (state_of prog st') ∧ (depth st' ≤ depth st)%nat;
  wf_action : (leaf d ∧ ∃ f, action d = action_func (Some f)) ∨
    (flag d = SM_JUMP ∧ ∃ m st', action d = action_nested (Some m) ∧ first_state prog m = Some st' ∧
      is_Some (state_of prog st') ∧ (depth st' < depth st)%nat);
  wf_tasks : flag d = SM_PJMP → ∃ tbl, pjtbl d = Some tbl ∧
    ∀ e, e ∈ tbl → ∃ m st', state_machine e = Some m ∧ first_state prog m = Some st' ∧
      is_leaf st' ∧ (depth st' ≤ Z.to_nat PINT_STATE_STACK_SIZE)%nat;
}.

Definition wf_program (depth : S → nat) : Prop :=
  ∀ st d, state_of prog st = Some d → wf_state depth st d.

(** The same, as a test. *)
Definition is_state (st : S) : bool := if state_of prog st then true else false.

Definition check_transition (depth : S → nat) (st : S) (t : tran) : bool :=
  match tran_flag t with
  | SM_TERM | SM_RETURN => true
  | _ => match next_state t with
         | Some st' => is_state st' && (depth st' <=? depth st)%nat
         | None => false
         end
  end.

Definition check_task (depth : S → nat) (e : PINT_pjmp_tbl_s M) : bool :=
  match state_machine e ≫= first_state prog with
  | Some st' =>
      match state_of prog st' with
      | Some d' => match flag d' with SM_RUN | SM_PJMP => true | _ => false end &&
                   (depth st' <=? Z.to_nat PINT_STATE_STACK_SIZE)%nat
      | None => false
      end
  | None => false
  end.

Definition check_state (depth : S → nat) (st : S) (d : state_s) : bool :=
  match trtbl d with
  | Some tbl => existsb (λ t, Z.eqb (return_value t) DEFAULT_ERROR) tbl &&
                forallb (check_transition depth st) tbl
  | None => false
  end &&
  match flag d, action d with
  | SM_RUN, action_func (Some _) => true
  | SM_PJMP, action_func (Some _) =>
      match pjtbl d with Some tbl => forallb (check_task depth) tbl | None => false end
  | SM_JUMP, action_nested (Some m) =>
      match first_state prog m with
      | Some st' => is_state st' && (depth st' <? depth st)%nat
      | None => false
      end
  | _, _ => false
  end.

Lemma is_state_spec st : is_state st = true → is_Some (state_of prog st).
Proof. unfold is_state. destruct (state_of prog st); by eauto. Qed.

Lemma check_transition_sound dep st t :
  check_transition dep st t = true →
  tran_flag t = SM_TERM ∨ tran_flag t = SM_RETURN ∨
  ∃ st', next_state t = Some st' ∧ is_Some (state_of prog st') ∧ (dep st' ≤ dep st)%nat.
Proof.
  unfold check_transition. intros Hc.
  assert (tran_flag t = SM_TERM ∨ tran_flag t = SM_RETURN ∨
    match next_state t with Some st' => is_state st' && (dep st' <=? dep st)%nat | None => false end = true)
    as [?|[?|Hn]] by (destruct (tran_flag t); auto); [by left|by right; left|right; right].
  destruct (next_state t) as [st'|]; [|done]. apply andb_prop in Hn as [? Hle%Nat.leb_le].
  exists st'. split; [done|]. split; [by apply is_state_spec|done].
Qed.

Lemma check_task_sound dep e :
  check_task dep e = true → ∃ m st', state_machine e = Some m ∧ first_state prog m = Some st' ∧
    is_leaf st' ∧ (dep st' ≤ Z.to_nat PINT_STATE_STACK_SIZE)%nat.
Proof.
  unfold check_task. destruct (state_machine e) as [m|]; [|done]. cbn.
  destruct (first_state prog m) as [st'|] eqn:Hf; [|done].
  destruct (state_of prog st') as [d'|] eqn:Hd; [|done].
  intros [Hfl Hle%Nat.leb_le]%andb_prop. exists m, st'. split; [done|]. split; [done|]. split; [|done].
  exists d'. split; [done|]. unfold leaf. by destruct (flag d'); auto.
Qed.

Lemma check_state_sound dep st d : check_state dep st d = true → wf_state dep st d.
Proof.
  unfold check_state. destruct (trtbl d) as [tbl|] eqn:Et; [|done].
  intros [[Hex Hall]%andb_prop Hact]%andb_prop.
  apply existsb_exists in Hex as (t0 & Hin0%list_elem_of_In & Hd0%Z.eqb_eq).
  pose proof (proj1 (forallb_forall _ _) Hall) as Htr.
  split.
  - exists tbl. split; [done|]. split; [by exists t0|].
    intros t Ht. by apply check_transition_sound, Htr, list_elem_of_In.
  - destruct (flag d) eqn:Ef, (action d) as [[f|]|[m|]]; try done; unfold leaf.
    + right. split; [done|]. destruct (first_state prog m) as [st'|] eqn:Hf; [|done].
      apply andb_prop in Hact as [? Hlt%Nat.ltb_lt]. exists m, st'. split; [done|]. split; [done|].
      split; [by apply is_state_spec|done].
    + left. split; [by right|by exists f].
    + left. split; [by left|by exists f].
  - intros Ef. rewrite Ef in Hact. destruct (action d) as [[f|]|]; try done.
    destruct (pjtbl d) as [ptbl|]; [|done]. exists ptbl. split; [done|].
    intros e He. apply check_task_sound. by apply (proj1 (forallb_forall _ _) Hact), list_elem_of_In.
Qed.

Lemma find_transition_total tbl code :
  (∃ t, t ∈ tbl ∧ return_value t = DEFAULT_ERROR) →
  ∃ t : tran, find_transition tbl code = Done t ∧ t ∈ tbl.
Proof.
  induction tbl as [|t tbl IH]; intros (t' & Hin & Ht'); [by apply elem_of_nil in Hin|].
  cbn. destruct (decide (return_value t ≠ DEFAULT_ERROR)) as [Hne|Heq].
  - case_decide; [exists t; split; [done|by left]|].
    apply elem_of_cons in Hin as [-> |Hin]; [done|].
    destruct IH as (t'' & -> & Hin'); [eauto|]. exists t''. split; [done|by right].
  - exists t. split; [done|by left].
Qed.

Context (depth : S → nat) (Hwf : wf_program depth).

(** Every call has room on the stack for the calls that it makes. *)
Fixpoint depth_ok (st : S) (stk : list S) : Prop :=
  is_Some (state_of prog st) ∧ (depth st + length stk ≤ Z.to_nat PINT_STATE_STACK_SIZE)%nat ∧
  match stk with [] => True | p :: stk' => depth_ok p stk' end.

Lemma depth_ok_mono st st' stk :
  depth_ok st stk → is_Some (state_of prog st') → (depth st' ≤ depth st)%nat → depth_ok st' stk.
Proof. destruct stk; intros (? & ? & ?) ??; (split; [done|split; [cbn [length] in *; lia|done]]). Qed.

Lemma depth_ok_push st f stk :
  depth_ok st stk → is_Some (state_of prog f) → (depth f < depth st)%nat → depth_ok f (st :: stk).
Proof.
  intros H Hf Hd. split; [done|]. split; [|done].
  destruct stk; destruct H as (_ & H & _); cbn [length] in *; lia.
Qed.

Lemma depth_ok_pop st p stk : depth_ok st (p :: stk) → depth_ok p stk.
Proof. by intros (_ & _ & H). Qed.

Lemma depth_ok_state st stk :
  depth_ok st stk →
  ∃ d, state_of prog st = Some d ∧ (depth st + length stk ≤ Z.to_nat PINT_STATE_STACK_SIZE)%nat.
Proof. destruct stk; intros ([d Hd] & ? & _); eauto. Qed.

(** * The array of states *)

Context {T : Type}.
Abbreviation smcb := (PINT_smcb S M T).

(** The block is in the state [st], with [stk] to return to. *)
Record ctl_ok (s : smcb) (st : S) (stk : list S) : Prop := {
  ctl_cur : current_state s = Some st;
  ctl_len : length (state_stack s) = Z.to_nat PINT_STATE_STACK_SIZE;
  ctl_ptr : stackptr s = Z.of_nat (length stk);
  ctl_stack : (take (length stk) (state_stack s)).*1 = Some <$> rev stk;
}.

(** What the transitions leave as it is. *)
Definition data (s : smcb) :=
  (frames s, frame_count s, parent_smcb s, op_cancelled s, children_running s,
   (op s, context s, terminate_fn s, immediate s), (h_root s, h_trace s, h_done s)).

Lemma pop_state_spec s st p stk :
  ctl_ok s st (p :: stk) →
  ∃ s', PINT_pop_state s = Done (Some p, s') ∧ data s' = data s ∧
    op_terminate s' = op_terminate s ∧ ctl_ok (with_current s' (Some p)) p stk.
Proof.
  intros [Hc Hl Hp Hs]. unfold PINT_pop_state. cbn [length] in *.
  rewrite decide_False by lia. replace (stackptr s - 1) with (Z.of_nat (length stk)) by lia.
  rewrite Nat2Z.id. cbn [rev] in Hs. rewrite fmap_app in Hs.
  destruct (state_stack s !! length stk) as [[q b]|] eqn:E.
  - rewrite (take_S_r _ _ _ E), fmap_app in Hs. cbn in Hs.
    apply app_inj_tail in Hs as [Hs [= ->]].
    eexists. split; [done|]. split; [done|]. split; [done|]. split; [done|done|done|exact Hs].
  - apply lookup_ge_None in E. apply (f_equal length) in Hs.
    rewrite length_fmap, length_take, length_app, !length_fmap, length_rev in Hs.
    cbn [length] in Hs. lia.
Qed.

Lemma push_state_spec s st f stk :
  ctl_ok s st stk → (length stk < Z.to_nat PINT_STATE_STACK_SIZE)%nat →
  ∃ s', PINT_push_state s (Some st) = Done s' ∧ data s' = data s ∧
    op_terminate s' = op_terminate s ∧ ctl_ok (with_current s' (Some f)) f (st :: stk).
Proof.
  intros [Hc Hl Hp Hs] Hlt. unfold PINT_push_state. rewrite decide_True by lia.
  eexists. split; [done|]. split; [done|]. split; [done|]. rewrite Hp, Nat2Z.id.
  split; cbn [with_current with_control current_state state_stack stackptr length rev].
  - done.
  - by rewrite length_insert.
  - lia.
  - erewrite take_S_r by (apply list_lookup_insert_eq; lia).
    rewrite take_insert_ge by lia. rewrite !fmap_app, Hs. done.
Qed.

Definition all_terminate (st : S) : Prop :=
  ∀ d tbl t, state_of prog st = Some d → trtbl d = Some tbl → t ∈ tbl → tran_flag t = SM_TERM.

Lemma first_entry_spec p d tbl :
  state_of prog p = Some d → trtbl d = Some tbl → tbl ≠ [] →
  ∃ t0 rest, tbl = t0 :: rest ∧
    (if decide (tran_flag t0 = SM_TERM) then first_terminates p else ¬ first_terminates p).
Proof.
  intros Hd Ht Hne. destruct tbl as [|t0 rest]; [done|]. exists t0, rest. split; [done|].
  case_decide as Hf; [by exists d, t0, rest|].
  intros (d' & t' & rest' & Hd' & Ht' & Hf'). congruence.
Qed.

Lemma return_loop_spec n s st stk code :
  ctl_ok s st stk → depth_ok st stk → (length stk < n)%nat →
  (op_terminate s ≠ 0 → all_terminate st) →
  ∃ s' o, return_loop prog n s code = Done (s', o) ∧ data s' = data s ∧
    match o with
    | None => lands st stk code None
    | Some t => op_terminate s' = 0 ∧ ∃ st1 stk1 st', ctl_ok s' st1 stk1 ∧ next_state t = Some st' ∧
        depth_ok st' stk1 ∧ ∀ c, enters st' stk1 c → lands st stk code (Some c)
    end.
Proof using Hwf.
  revert s st stk. induction n as [|n IH]; intros s st stk Hc Hd Hn Hterm; [lia|].
  destruct (depth_ok_state _ _ Hd) as (d & Hst & Hdep).
  destruct (wf_table _ _ _ (Hwf st d Hst)) as (tbl & Htbl & Hdef & Htrans).
  destruct (find_transition_total tbl code Hdef) as (t & Ht & Hin).
  assert (selects st code t) as Hsel by (by exists d, tbl).
  cbn [return_loop]. rewrite (ctl_cur _ _ _ Hc). unfold state_at. rewrite Hst.
  cbn [mbind exec_bind]. rewrite Htbl, Ht. cbn [mbind exec_bind].
  destruct (decide (tran_flag t = SM_TERM ∨ op_terminate s ≠ 0)) as [Hor|Hnor].
  { eexists _, None. split; [done|]. split; [done|]. apply (lands_terminate _ _ _ t Hsel).
    destruct Hor as [?|Hop]; [done|]. by eapply Hterm. }
  assert (tran_flag t ≠ SM_TERM ∧ op_terminate s = 0) as [Hnt Hop] by (split; [tauto|lia]).
  destruct (decide (tran_flag t = SM_RETURN)) as [Hret|Hnret].
  - destruct stk as [|p stk].
    + unfold PINT_pop_state. rewrite (ctl_ptr _ _ _ Hc). cbn.
      eexists _, None. split; [done|]. split; [done|]. by eapply lands_main.
    + destruct (pop_state_spec _ _ _ _ Hc) as (s' & -> & Hdata & Hop' & Hc').
      cbn [mbind exec_bind]. pose proof (depth_ok_pop _ _ _ Hd) as Hd'.
      destruct (depth_ok_state _ _ Hd') as (dp & Hp & _). rewrite Hp. cbn [mbind exec_bind].
      destruct (wf_table _ _ _ (Hwf p dp Hp)) as (tblp & Htblp & (t' & Hin' & _) & _).
      destruct (first_entry_spec p dp tblp Hp Htblp) as (t0 & rest & -> & Hfirst).
      { intros ->. by apply elem_of_nil in Hin'. }
      rewrite Htblp. destruct (decide (tran_flag t0 = SM_TERM)).
      * eexists _, None. split; [done|]. split; [done|]. by eapply lands_first.
      * destruct (IH _ _ _ Hc' Hd') as (s'' & o & -> & Hdata' & Ho);
          [cbn [length] in Hn; lia|cbn; rewrite Hop'; lia|].
        exists s'', o. split; [done|]. split; [by rewrite Hdata'|].
        destruct o as [t1|]; [|by eapply lands_return].
        destruct Ho as (H0 & st1 & stk1 & st' & Hc1 & Hn1 & Hd1 & Hl1). split; [done|].
        exists st1, stk1, st'. split; [done|]. split; [done|]. split; [done|].
        intros c Hen. eapply lands_return; eauto.
  - destruct (Htrans t Hin) as [?|[?|(st' & Hnx & Hex & Hdp)]]; [done|done|].
    exists s, (Some t). split; [done|]. split; [done|]. split; [done|].
    exists st, stk, st'. split; [done|]. split; [done|].
    split; [by eapply depth_ok_mono|]. intros c Hen. by eapply lands_next.
Qed.

Lemma jump_loop_spec n s st stk :
  ctl_ok s st stk → depth_ok st stk → (depth st < n)%nat →
  ∃ s' st' stk', jump_loop prog n s = Done s' ∧ data s' = data s ∧
    op_terminate s' = op_terminate s ∧ ctl_ok s' st' stk' ∧ depth_ok st' stk' ∧ is_leaf st' ∧
    enters st stk (st', stk').
Proof using Hwf.
  revert s st stk. induction n as [|n IH]; intros s st stk Hc Hd Hn; [lia|].
  destruct (depth_ok_state _ _ Hd) as (d & Hst & Hdep).
  cbn [jump_loop]. rewrite (ctl_cur _ _ _ Hc). unfold state_at. rewrite Hst.
  cbn [mbind exec_bind].
  destruct (wf_action _ _ _ (Hwf st d Hst)) as [[Hleaf _]|(Hj & m & f & Ha & Hf & Hfs & Hdf)].
  - rewrite decide_False by (destruct Hleaf; congruence).
    exists s, st, stk. do 5 (split; [done|]). split; [by exists d|]. constructor. by exists d.
  - rewrite decide_True by done.
    destruct (push_state_spec s st f stk Hc) as (s1 & -> & Hdata & Hop & Hc1); [lia|].
    cbn [mbind exec_bind]. rewrite Ha. unfold first_state_of. cbn [mbind option_bind].
    rewrite Hf. cbn [mbind exec_bind].
    destruct (IH _ _ _ Hc1 (depth_ok_push _ _ _ Hd Hfs Hdf)) as
      (s' & st' & stk' & -> & Hdata' & Hop' & Hc' & Hd' & Hl' & Hen); [lia|].
    exists s', st', stk'. split; [done|]. split; [by rewrite Hdata'|].
    split; [by rewrite Hop'|]. split; [done|]. split; [done|]. split; [done|].
    eapply enters_jump; [|done]. by exists d, m.
Qed.

End control.
