(* ===== verification/StateMachineRun.v ===== *)
(** Runs of the state machine engine: many control blocks, resumed in any order.

    The invariant [inv] holds between the calls of the engine: the count of
    running children of a block is the number of its child blocks, and a block
    that waits for its children has children or one null job that will resume
    it, never both.  Under it no call of the engine fails an assertion or
    touches memory that it should not, and every block that finishes has run a
    nest of calls of its machine. *)

From stdpp Require Import base list gmap relations.
From S2P Require Import Prelude Errors StateMachine StateMachineSpec.

(** * Runs that do not go wrong *)

(** The run ends with [Q], or needs more fuel. *)
Definition safe {A} (m : exec A) (Q : A → Prop) : Prop :=
  match m with
  | Done x => Q x
  | Fault OutOfFuel => True
  | Fault _ => False
  end.

Lemma safe_bind {A B} (m : exec A) (k : A → exec B) P Q :
  safe m P → (∀ x, P x → safe (k x) Q) → safe (m ≫= k) Q.
Proof. intros Hm Hk. destruct m as [x|[]]; cbn in *; auto. Qed.

Lemma safe_mono {A} (m : exec A) (P Q : A → Prop) : safe m P → (∀ x, P x → Q x) → safe m Q.
Proof. intros Hm HQ. destruct m as [x|[]]; cbn in *; auto. Qed.

Section run.
Context {S M F T U : Type}.
Context (prog : program S M F).
Context (func : F → action_view → job_status_s → U → action_result U).
Context (term_func : T → PINT_smcb S M T → job_status_s → U → bool * U).
Context (malloc : nat → bool).
Context (place : gset positive → positive).
Context (alloc_frame : Z → U → option positive * U).
Context (free_frame : positive → U → U).

Abbreviation smcb := (PINT_smcb S M T).
Abbreviation heap := (gmap positive smcb).
Abbreviation state := (world S M T U).

(** * Frames *)

Definition frame_at (fs : list PINT_frame_s) (base : Z) : option positive :=
  if decide (0 ≤ base < Z.of_nat (length fs)) then rev fs !! Z.to_nat base ≫= frame else None.

Fixpoint child_frames (l : list PINT_frame_s) (my_frame : option positive) : list PINT_frame_s :=
  match l with
  | [] => []
  | f :: rest => if decide (frame f = my_frame) then [] else f :: child_frames rest my_frame
  end.

Definition shape (fs : list PINT_frame_s) : list (Z * option positive) :=
  (λ f, (task_id f, frame f)) <$> fs.

Lemma sm_frame_spec (s : smcb) :
  frame_count s = Z.of_nat (length (frames s)) →
  PINT_sm_frame s 0 = Done (frame_at (frames s) (base_frame s)).
Proof.
  intros Hn. unfold PINT_sm_frame, frame_at. rewrite Z.add_0_r.
  destruct (frames s) as [|f fs] eqn:E; [by rewrite decide_False by (cbn; lia)|]. rewrite <- E in *.
  destruct (decide (0 ≤ base_frame s < Z.of_nat (length (frames s)))) as [Hin|Hout].
  - rewrite decide_False by lia.
    destruct (lookup_lt_is_Some_2 (rev (frames s)) (Z.to_nat (base_frame s))) as [g ->];
      [rewrite length_rev; lia|done].
  - by rewrite decide_True by lia.
Qed.

Lemma count_children_spec l my : count_children l my = Z.of_nat (length (child_frames l my)).
Proof. induction l as [|f l IH]; [done|]. cbn. case_decide; [done|]. rewrite IH. cbn. lia. Qed.

Lemma set_frame_error_shape l my code : shape (set_frame_error l my code) = shape l.
Proof.
  unfold shape. induction l as [|f l IH]; [done|]. cbn [set_frame_error].
  case_decide; cbn; [done|]. by rewrite IH.
Qed.

Lemma shape_length l l' : shape l = shape l' → length l = length l'.
Proof. intros H. apply (f_equal length) in H. unfold shape in H. by rewrite !length_fmap in H. Qed.

Lemma child_frames_shape l l' my :
  shape l = shape l' → shape (child_frames l my) = shape (child_frames l' my).
Proof.
  revert l'. induction l as [|f l IH]; intros [|f' l'] H; try done.
  cbn in H. injection H as Ht Hf H. cbn. rewrite Hf. case_decide; [done|].
  cbn. rewrite Ht, Hf. f_equal. by apply IH.
Qed.

(** * Hypotheses *)

(** What the state actions promise: they return one of the three actions, and
    those of parallel states do not defer; they terminate the machine only in
    states of which every transition terminates; and the frames that they push
    for children have tasks that the state lists. *)
Record well_behaved : Prop := {
  wb_return : ∀ st d f v r u, state_of prog st = Some d → leaf d →
    action d = action_func (Some f) →
    result_action (func f v r u) = SM_ACTION_DEFERRED ∧ flag d = SM_RUN ∨
    result_action (func f v r u) = SM_ACTION_COMPLETE ∨
    result_action (func f v r u) = SM_ACTION_TERMINATE;
  wb_terminate : ∀ st d f v r u, state_of prog st = Some d → leaf d →
    action d = action_func (Some f) →
    result_action (func f v r u) = SM_ACTION_TERMINATE ∨ result_complete (func f v r u) = true →
    all_terminate prog st;
  wb_tasks : ∀ st d f v r u tbl fr, state_of prog st = Some d → flag d = SM_PJMP →
    action d = action_func (Some f) → pjtbl d = Some tbl →
    result_action (func f v r u) = SM_ACTION_COMPLETE →
    fr ∈ child_frames (result_frames (func f v r u))
           (frame_at (result_frames (func f v r u)) (view_base v)) →
    ∃ e, e ∈ tbl ∧ (pj_return_value e = task_id fr ∨ pj_return_value e = -1);
}.

Context (depth : S → nat) (Hwf : wf_program prog depth).
Context (Hfirst : ∀ m st, first_state prog m = Some st →
  is_Some (state_of prog st) ∧ (depth st ≤ Z.to_nat PINT_STATE_STACK_SIZE)%nat).
Context (Hact : well_behaved).
Context (Hmalloc : ∀ n, malloc n = true).
Context (Hplace : ∀ X, place X ∉ X).

(** * Children *)

Definition nchildren (m : heap) (p : positive) : nat :=
  size (filter (λ '(_, s), parent_smcb s = Some p) m).

Definition is_child (s : smcb) (p : positive) : nat :=
  if decide (parent_smcb s = Some p) then 1 else 0.

Lemma nchildren_insert (m : heap) c s p :
  m !! c = None → nchildren (<[c := s]> m) p = (is_child s p + nchildren m p)%nat.
Proof.
  intros Hc. unfold nchildren, is_child. case_decide as Hp.
  - rewrite map_filter_insert_True by done. rewrite map_size_insert_None; [lia|].
    apply map_lookup_filter_None. by left.
  - rewrite map_filter_insert_False by done. by rewrite delete_id.
Qed.

Lemma nchildren_delete (m : heap) a s p :
  m !! a = Some s → nchildren m p = (is_child s p + nchildren (delete a m) p)%nat.
Proof.
  intros Ha. rewrite <- (nchildren_insert (delete a m) a s p) by apply lookup_delete_eq.
  by rewrite insert_delete_id.
Qed.

Lemma nchildren_update (m : heap) a s s' p :
  m !! a = Some s → parent_smcb s' = parent_smcb s → nchildren (<[a := s']> m) p = nchildren m p.
Proof.
  intros Ha Hp. rewrite (nchildren_delete m a s) by done. rewrite <- (insert_delete_eq m a s').
  rewrite nchildren_insert by apply lookup_delete_eq. unfold is_child. by rewrite Hp.
Qed.

(** * The invariant *)

(** The block is in [st], and has entered [tr] before. *)
Record at_state (s : smcb) (st : S) (stk : list S) (tr : list S) : Prop := {
  at_ctl : ctl_ok s st stk;
  at_depth : depth_ok prog depth st stk;
  at_leaf : is_leaf prog st;
  at_live : h_done s = false;
  at_walk : ∃ root c0, h_root s = Some root ∧ enters prog root [] c0 ∧ walk prog c0 tr (st, stk);
}.

(** Its action is to be run, or was run. *)
Definition ready (s : smcb) (st : S) (stk : list S) : Prop :=
  at_state s st stk (h_trace s) ∧ op_terminate s = 0.

Definition ran (s : smcb) (st : S) (stk : list S) : Prop :=
  (∃ tr, h_trace s = tr ++ [st] ∧ at_state s st stk tr) ∧
  (op_terminate s ≠ 0 → all_terminate prog st).

(** The machine came to its end. *)
Definition ended (s : smcb) : Prop :=
  h_done s = false ∧ ∃ root res, h_root s = Some root ∧ activation prog root (h_trace s) res.

(** Waiting for its children, or for a job. *)
Definition waits (nulls : list positive) (a : positive) (s : smcb) : Prop :=
  ∃ st stk d, ran s st stk ∧ state_of prog st = Some d ∧
    (flag d = SM_PJMP ∧ (children_running s > 0 ∨ a ∈ nulls) ∨
     flag d = SM_RUN ∧ children_running s = 0 ∧ a ∉ nulls).

(** The user of the engine still has to free it. *)
Definition is_over (nulls : list positive) (a : positive) (s : smcb) : Prop :=
  h_done s = true ∧ parent_smcb s = None ∧ children_running s = 0 ∧ a ∉ nulls.

Record block_ok (m : heap) (pend : positive → nat) (a : positive) (s : smcb) : Prop := {
  blk_frames : frame_count s = Z.of_nat (length (frames s));
  blk_cancelled : op_cancelled s = 0;
  blk_children : children_running s = Z.of_nat (nchildren m a + pend a);
  blk_parent : ∀ p, parent_smcb s = Some p →
    p ≠ a ∧ is_Some (m !! p) ∧ terminate_fn s = Some child_sm_frame_terminate_fn;
}.

(** [act] is the block that runs, if one does; [pend a] is the number of
    children that [a] has counted but not started. *)
Record inv (w : state) (act : option positive) (pend : positive → nat) : Prop := {
  inv_block : ∀ a s, smcbs w !! a = Some s → block_ok (smcbs w) pend a s;
  inv_pend : ∀ a, smcbs w !! a = None → pend a = 0%nat;
  inv_nodup : NoDup (null_jobs w);
  inv_null : ∀ a, a ∈ null_jobs w → ∃ s, smcbs w !! a = Some s ∧ children_running s = 0;
  inv_wait : ∀ a s, smcbs w !! a = Some s → Some a ≠ act →
    is_over (null_jobs w) a s ∨ waits (null_jobs w) a s;
  inv_finished : ∀ a root tr, (a, root, tr) ∈ finished w →
    ∃ st res, root = Some st ∧ activation prog st tr res;
}.

(** The block that runs is not waited for, and waits for nothing. *)
Definition quiet (w : state) (a : positive) (s : smcb) : Prop :=
  smcbs w !! a = Some s ∧ children_running s = 0 ∧ a ∉ null_jobs w.

Definition same_links (s s' : smcb) : Prop :=
  op_cancelled s' = op_cancelled s ∧ children_running s' = children_running s ∧
  parent_smcb s' = parent_smcb s ∧ terminate_fn s' = terminate_fn s ∧
  frame_count s' = Z.of_nat (length (frames s')).

(** ** What a call does to the other blocks *)

Definition similar (s s' : smcb) : Prop :=
  ∃ n fs, s' = with_children (with_frames s fs (frame_count s)) n ∧ shape fs = shape (frames s).

Definition keeps (x : option positive) (w w' : state) : Prop :=
  ∀ q s, Some q ≠ x → smcbs w !! q = Some s → ∃ s', smcbs w' !! q = Some s' ∧ similar s s'.

Lemma similar_refl s : similar s s.
Proof. exists (children_running s), (frames s). by destruct s. Qed.

Lemma similar_trans s s' s'' : similar s s' → similar s' s'' → similar s s''.
Proof.
  intros (n & fs & -> & H) (n' & fs' & -> & H'). exists n', fs'. split; [done|].
  cbn in H'. by rewrite H'.
Qed.

Lemma keeps_refl x w : keeps x w w.
Proof. intros q s _ Hq. exists s. split; [done|apply similar_refl]. Qed.

Lemma keeps_trans x w w' w'' : keeps x w w' → keeps x w' w'' → keeps x w w''.
Proof.
  intros H H' q s Hx Hq. destruct (H q s Hx Hq) as (s' & Hq' & Hs).
  destruct (H' q s' Hx Hq') as (s'' & Hq'' & Hs'). eauto using similar_trans.
Qed.

Lemma keeps_store x w a s : x = Some a → keeps x w (store_smcb w a s).
Proof.
  intros -> q s' Hx Hq. exists s'. split; [|apply similar_refl]. cbn.
  rewrite lookup_insert_ne; [done|congruence].
Qed.

Lemma keeps_mem x w w' u : keeps x w w' → keeps x w (with_mem w' u).
Proof. done. Qed.

(** ** Changes *)

Lemma inv_same w w' act pend :
  smcbs w' = smcbs w → null_jobs w' = null_jobs w → finished w' = finished w →
  inv w act pend → inv w' act pend.
Proof. intros Hs Hn Hf []. split; rewrite ?Hs, ?Hn, ?Hf; done. Qed.

Lemma inv_pend_ext w act pend pend' :
  (∀ a, pend' a = pend a) → inv w act pend → inv w act pend'.
Proof.
  intros He []. split; try done.
  - intros a s Ha. destruct (inv_block0 a s Ha). split; try done. by rewrite He.
  - intros a Ha. rewrite He. auto.
Qed.

(** The block that runs changes. *)
Lemma inv_update w a s s' pend :
  inv w (Some a) pend → smcbs w !! a = Some s → same_links s s' →
  inv (store_smcb w a s') (Some a) pend.
Proof.
  intros [Hb Hp Hn Hnull Hw Hf] Ha (Hc & Hr & Hpa & Ht & Hfr).
  assert (∀ p, nchildren (<[a := s']> (smcbs w)) p = nchildren (smcbs w) p) as Hcount
    by (intros; by eapply nchildren_update).
  split; cbn [store_smcb with_smcbs smcbs null_jobs finished]; try done.
  - intros b t [[-> <-]|[Hne Hbt]]%lookup_insert_Some.
    + destruct (Hb b s Ha). split; [done|congruence|by rewrite Hcount, Hr|].
      intros p. rewrite Hpa, Ht. intros Hpp. destruct (blk_parent0 p Hpp) as (? & ? & ?).
      split; [done|]. split; [|done]. by rewrite lookup_insert_ne.
    + destruct (Hb b t Hbt). split; [done|done|by rewrite Hcount|].
      intros p Hpp. destruct (blk_parent0 p Hpp) as (? & ? & ?). split; [done|]. split; [|done].
      apply lookup_insert_is_Some'. by right.
  - intros b [? ?]%lookup_insert_None. auto.
  - intros b Hin. destruct (Hnull b Hin) as (t & Hbt & H0).
    destruct (decide (b = a)) as [->|Hne].
    + exists s'. rewrite lookup_insert_eq. split; [done|congruence].
    + exists t. by rewrite lookup_insert_ne.
  - intros b t [[-> <-]|[Hne Hbt]]%lookup_insert_Some Hact'; [done|]. by apply Hw.
Qed.

Lemma quiet_store w a s s' :
  quiet w a s → children_running s' = children_running s → quiet (store_smcb w a s') a s'.
Proof. intros (Ha & Hc & Hn) Hr. split; [apply lookup_insert_eq|]. by rewrite Hr. Qed.

(** The block that runs comes to rest. *)
Lemma inv_rest w a s pend :
  inv w (Some a) pend → smcbs w !! a = Some s →
  is_over (null_jobs w) a s ∨ waits (null_jobs w) a s → inv w None pend.
Proof.
  intros [] Ha Hs. split; try done. intros b t Hb _.
  destruct (decide (b = a)) as [->|Hne]; [naive_solver|]. apply inv_wait0; congruence.
Qed.

Lemma inv_weaken w a pend : inv w None pend → inv w (Some a) pend.
Proof. intros []. split; try done. intros b t Hb _. by apply inv_wait0. Qed.

(** ** Termination *)

Lemma at_state_similar s s' st stk tr : similar s s' → at_state s st stk tr → at_state s' st stk tr.
Proof. intros (n & fs & -> & _) [[] ? ? ? ?]. split; try done. Qed.

Lemma ran_similar s s' st stk : similar s s' → ran s st stk → ran s' st stk.
Proof.
  intros Hs [(tr & Htr & Hat) Hterm]. pose proof Hs as (n & fs & -> & _). split; [|done].
  exists tr. split; [done|]. by eapply at_state_similar.
Qed.

Lemma no_children (m : heap) a b t : nchildren m a = 0%nat → m !! b = Some t → parent_smcb t ≠ Some a.
Proof.
  intros H0 Hb Hp. rewrite (nchildren_delete m b t) in H0 by done. unfold is_child in H0.
  rewrite decide_True in H0 by done. lia.
Qed.

Lemma nchildren_none (m : heap) a :
  (∀ b t, m !! b = Some t → parent_smcb t ≠ Some a) → nchildren m a = 0%nat.
Proof.
  intros Hno. unfold nchildren. apply map_size_empty_iff, map_eq. intros b.
  rewrite lookup_empty. apply map_lookup_filter_None. right. intros t. apply Hno.
Qed.

Lemma quiet_childless w a s pend :
  inv w (Some a) pend → quiet w a s → nchildren (smcbs w) a = 0%nat ∧ pend a = 0%nat.
Proof.
  intros Hinv (Ha & Hc & _). destruct (inv_block _ _ _ Hinv a s Ha). lia.
Qed.

Lemma inv_delete w a s pend u n :
  inv w (Some a) pend → quiet w a s → parent_smcb s = None →
  inv (mkWorld (delete a (smcbs w)) (null_jobs w) u n (finished w)) None pend.
Proof.
  intros Hinv Hq Hpar. pose proof (quiet_childless _ _ _ _ Hinv Hq) as [Hno Hpa].
  destruct Hq as (Ha & Hc & Hna). destruct Hinv as [Hb Hp Hn Hnull Hw Hf].
  split; cbn [smcbs null_jobs finished]; try done.
  - intros b t [Hne Hbt]%lookup_delete_Some. destruct (Hb b t Hbt). split; try done.
    + rewrite blk_children0, (nchildren_delete (smcbs w) a s) by done.
      unfold is_child. rewrite decide_False by congruence. done.
    + intros p Hpp. destruct (blk_parent0 p Hpp) as (? & ? & ?). split; [done|]. split; [|done].
      rewrite lookup_delete_ne; [done|]. intros ->. by eapply no_children.
  - intros b. destruct (decide (b = a)) as [->|Hne]; [done|]. rewrite lookup_delete_ne by done. auto.
  - intros b Hin. destruct (Hnull b Hin) as (t & Hbt & H0). exists t.
    rewrite lookup_delete_ne; [done|congruence].
  - intros b t [Hne Hbt]%lookup_delete_Some _. apply Hw; congruence.
Qed.

(** The last child resumes the parent. *)
Definition joined (nulls : list positive) (p : positive) (n : Z) : list positive :=
  if decide (n <= 0) then nulls ++ [p] else nulls.

Lemma inv_join w a s p ps ps' pend u n :
  inv w (Some a) pend → quiet w a s → parent_smcb s = Some p → smcbs w !! p = Some ps →
  similar ps ps' → children_running ps' = children_running ps - 1 →
  inv (mkWorld (delete a (<[p := ps']> (smcbs w)))
         (joined (null_jobs w) p (children_running ps')) u n (finished w)) None pend.
Proof.
  intros Hinv Hq Hpar Hps Hsim Hcr. pose proof (quiet_childless _ _ _ _ Hinv Hq) as [Hno Hpa].
  destruct Hq as (Ha & Hc & Hna). destruct Hinv as [Hb Hp Hn Hnull Hw Hf].
  destruct (blk_parent _ _ _ _ (Hb a s Ha) p Hpar) as (Hpa' & _ & _).
  pose proof Hsim as (nn & fs & Eps & Hsh).
  assert (Hcount : ∀ b, nchildren (smcbs w) b =
    (is_child s b + nchildren (delete a (<[p := ps']> (smcbs w))) b)%nat).
  { intros b. rewrite <- (nchildren_update (smcbs w) p ps ps' b) by (done || by subst ps').
    apply nchildren_delete. by rewrite lookup_insert_ne. }
  assert (Hps0 : children_running ps > 0).
  { destruct (Hb p ps Hps). specialize (Hcount p). unfold is_child in Hcount.
    rewrite decide_True in Hcount by done. lia. }
  assert (Hpn : p ∉ null_jobs w).
  { intros Hin. destruct (Hnull p Hin) as (t & Ht & H0). simplify_eq. lia. }
  assert (Hsub : ∀ b, b ≠ p → b ∈ joined (null_jobs w) p (children_running ps') ↔ b ∈ null_jobs w).
  { intros b Hne. unfold joined. case_decide; [|done]. rewrite elem_of_app, list_elem_of_singleton.
    naive_solver. }
  split; cbn [smcbs null_jobs finished]; try done.
  - intros b t [Hne [[<- <-]|[Hne' Hbt]]%lookup_insert_Some]%lookup_delete_Some.
    + destruct (Hb p ps Hps). specialize (Hcount p). unfold is_child in Hcount.
      rewrite decide_True in Hcount by done. split.
      * subst ps'. cbn. by rewrite (shape_length _ _ Hsh).
      * by subst ps'.
      * lia.
      * intros q Hpq. rewrite Eps in Hpq. destruct (blk_parent0 q Hpq) as (Hqp & Hq & ?).
        split; [done|]. split; [|by subst ps'].
        rewrite lookup_delete_ne, lookup_insert_ne; [done|congruence|].
        intros ->. by eapply (no_children _ q p ps).
    + destruct (Hb b t Hbt). specialize (Hcount b). unfold is_child in Hcount.
      rewrite decide_False in Hcount by congruence. split; [done|done|lia|].
      intros q Hpq. destruct (blk_parent0 q Hpq) as (Hqp & Hq & ?). split; [done|]. split; [|done].
      rewrite lookup_delete_ne; [apply lookup_insert_is_Some'; by right|].
      intros ->. by eapply (no_children _ q b t).
  - intros b. destruct (decide (b = a)) as [->|Hne]; [done|]. rewrite lookup_delete_ne by done.
    intros [? ?]%lookup_insert_None. auto.
  - unfold joined. case_decide; [|done]. apply NoDup_app. split; [done|]. split; [|apply NoDup_singleton].
    intros b Hb1 ->%list_elem_of_singleton. done.
  - intros b Hin. destruct (decide (b = p)) as [->|Hne].
    + exists ps'. rewrite lookup_delete_ne by done. rewrite lookup_insert_eq. split; [done|].
      unfold joined in Hin. case_decide; [lia|done].
    + apply Hsub in Hin; [|done]. destruct (Hnull b Hin) as (t & Hbt & H0). exists t.
      rewrite lookup_delete_ne by congruence. by rewrite lookup_insert_ne.
  - intros b t [Hne [[<- <-]|[Hne' Hbt]]%lookup_insert_Some]%lookup_delete_Some _.
    + right. destruct (Hw p ps Hps) as [(_ & _ & ? & _)|(st & stk & d & Hran & Hd & Hor)];
        [congruence|lia|].
      exists st, stk, d. split; [by eapply ran_similar|]. split; [done|]. left.
      destruct Hor as [[? _]|(_ & ? & _)]; [|lia]. split; [done|].
      unfold joined. case_decide; [right|left; lia]. apply elem_of_app. right.
      by apply list_elem_of_singleton.
    + destruct (Hw b t Hbt) as [(? & ? & ? & ?)|(st & stk & d & Hran & Hd & Hor)]; [congruence|left|right].
      * split; [done|]. split; [done|]. split; [done|]. by rewrite Hsub.
      * exists st, stk, d. split; [done|]. split; [done|]. rewrite Hsub by done. done.
Qed.

Definition marked (w : state) (a : positive) (s : smcb) : state :=
  mkWorld (<[a := with_history s (h_root s) (h_trace s) true]> (smcbs w)) (null_jobs w) (mem w)
    (mallocs w) (finished w ++ [(a, h_root s, h_trace s)]).

Lemma inv_mark w a s pend :
  inv w (Some a) pend → smcbs w !! a = Some s → ended s → inv (marked w a s) (Some a) pend.
Proof.
  intros Hinv Ha (_ & root & res & Hroot & Hend).
  destruct (inv_update w a s (with_history s (h_root s) (h_trace s) true) pend Hinv Ha) as [];
    [by destruct (inv_block _ _ _ Hinv a s Ha)|].
  split; try done. intros b r tr [Hin|[= -> -> ->]%list_elem_of_singleton]%elem_of_app;
    [by eapply inv_finished0|]. by exists root, res.
Qed.

Lemma keeps_delete w w' a :
  keeps (Some a) w w' → keeps (Some a) w (with_smcbs w' (delete a (smcbs w'))).
Proof.
  intros H q s Hx Hq. destruct (H q s Hx Hq) as (s' & Hq' & Hs). exists s'. split; [|done].
  cbn. rewrite lookup_delete_ne; [done|congruence].
Qed.

Lemma keeps_store_similar x w w' p ps ps' :
  keeps x w w' → smcbs w' !! p = Some ps → similar ps ps' → keeps x w (store_smcb w' p ps').
Proof.
  intros H Hps Hsim q s Hx Hq. destruct (H q s Hx Hq) as (s' & Hq' & Hs). cbn.
  destruct (decide (q = p)) as [->|Hne].
  - exists ps'. rewrite lookup_insert_eq. split; [done|]. simplify_eq. by eapply similar_trans.
  - exists s'. by rewrite lookup_insert_ne.
Qed.

Lemma smcb_at_Some (w : state) a s : smcbs w !! a = Some s → smcb_at w a = Done s.
Proof. intros Ha. unfold smcb_at. by rewrite Ha. Qed.

Lemma smcb_free_spec (w : state) a s :
  smcbs w !! a = Some s →
  ∃ u, PINT_smcb_free free_frame w a =
    Done (mkWorld (delete a (smcbs w)) (null_jobs w) u (mallocs w) (finished w)).
Proof. intros Ha. unfold PINT_smcb_free, smcb_at. rewrite Ha. by eexists. Qed.

Lemma terminate_spec w a s r pend :
  inv w (Some a) pend → quiet w a s → ended s →
  safe (PINT_state_machine_terminate term_func malloc free_frame w a r)
    (λ '(_, _, w'), inv w' None pend ∧ keeps (Some a) w w').
Proof.
  intros Hinv Hq Hend. pose proof Hq as (Ha & Hc & Hna).
  pose proof (inv_mark w a s pend Hinv Ha Hend) as Hinv1.
  pose proof (inv_block _ _ _ Hinv a s Ha) as [Hfr Hca Hch Hpar].
  set (s1 := with_history s (h_root s) (h_trace s) true).
  assert (quiet (marked w a s) a s1) as Hq1 by (split; [apply lookup_insert_eq|done]).
  assert (Hk1 : keeps (Some a) w (marked w a s)) by (by apply (keeps_store _ w a s1)).
  unfold PINT_state_machine_terminate. rewrite (smcb_at_Some _ _ _ Ha). cbn [mbind exec_bind].
  fold (marked w a s). clearbody s1.
  destruct (parent_smcb s) as [p|] eqn:Ep.
  - destruct (Hpar p eq_refl) as (Hne & [ps Hps] & Hterm).
    assert (smcbs (marked w a s) !! p = Some ps) as Hps1 by (cbn; by rewrite lookup_insert_ne).
    rewrite (smcb_at_Some _ _ _ Hps1). cbn [mbind exec_bind].
    assert (children_running ps > 0) as Hpos.
    { destruct (inv_block _ _ _ Hinv p ps Hps) as [_ _ Hcp _].
      rewrite (nchildren_delete (smcbs w) a s p Ha) in Hcp. unfold is_child in Hcp.
      rewrite decide_True in Hcp by done. lia. }
    rewrite decide_True by done. rewrite sm_frame_spec by done. cbn [mbind exec_bind].
    set (ps' := with_children _ _). set (w2 := store_smcb (marked w a s) p ps').
    assert (similar ps ps') as Hsim by (eexists _, _; split; [done|apply set_frame_error_shape]).
    assert (smcbs w2 !! a = Some s1) as Ha2 by (cbn; rewrite lookup_insert_ne by done; by destruct Hq1).
    assert (Hrun : ∃ r' n', (if decide (children_running ps' <= 0)
        then let '(_, r, w) := job_null malloc w2 p r in Done (r, w) else Done (r, w2)) =
      Done (r', mkWorld (smcbs w2) (joined (null_jobs w) p (children_running ps')) (mem w) n'
        (finished w2))).
    { unfold joined. case_decide; [|by eexists _, _]. unfold job_null, do_malloc.
      rewrite Hmalloc. by eexists _, _. }
    destruct Hrun as (r' & n' & ->). cbn [mbind exec_bind]. rewrite Hterm.
    destruct (smcb_free_spec (mkWorld (smcbs w2) (joined (null_jobs w) p (children_running ps')) (mem w) n'
        (finished w2)) a s1 Ha2) as [u ->].
    cbn [mbind exec_bind safe]. split.
    + cbn. eapply (inv_join (marked w a s) a s1 p ps ps'); try done.
      destruct Hq1 as (Hs1 & _). cbn in Hs1. rewrite lookup_insert_eq in Hs1.
      by injection Hs1 as <-.
    + apply (keeps_delete w w2). by eapply keeps_store_similar.
  - cbn [mbind exec_bind]. assert (parent_smcb s1 = None) as Hp1.
    { destruct Hq1 as (Hs1 & _). cbn in Hs1. rewrite lookup_insert_eq in Hs1. by injection Hs1 as <-. }
    assert (Hfree : ∀ u, safe (w' ← PINT_smcb_free free_frame (with_mem (marked w a s) u) a; Done (0, r, w'))
      (λ '(_, _, w'), inv w' None pend ∧ keeps (Some a) w w')).
    { intros u. destruct (smcb_free_spec (with_mem (marked w a s) u) a s1) as [u' ->]; [by destruct Hq1|].
      cbn [mbind exec_bind safe]. split; [by eapply (inv_delete (marked w a s))|].
      by apply (keeps_delete w (marked w a s)). }
    assert (Hstay : ∀ u, inv (with_mem (marked w a s) u) None pend).
    { intros u. eapply inv_rest; [by apply (inv_same (marked w a s))|by destruct Hq1|].
      left. split; [|by destruct Hq1 as (_ & ? & ?)].
      destruct Hq1 as (Hs1 & _). cbn in Hs1. rewrite lookup_insert_eq in Hs1. by injection Hs1 as <-. }
    destruct (terminate_fn s) as [[|t]|].
    + apply (Hfree (mem w)).
    + destruct Hq1 as (Hs1 & _). rewrite (smcb_at_Some _ _ _ Hs1). cbn [mbind exec_bind].
      destruct (term_func t s1 r (mem (marked w a s))) as [[] u]; [apply Hfree|]. by split.
    + split; [apply (Hstay (mem w))|done].
Qed.

(** ** Transitions *)

Abbreviation invoke := (PINT_state_machine_invoke prog func term_func malloc place alloc_frame free_frame).
Abbreviation start_children :=
  (PINT_sm_start_child_frames prog func term_func malloc place alloc_frame free_frame).
Abbreviation children := (child_loop prog func term_func malloc place alloc_frame free_frame).
Abbreviation start := (PINT_state_machine_start prog func term_func malloc place alloc_frame free_frame).
Abbreviation run_loop := (next_loop prog func term_func malloc place alloc_frame free_frame).
Abbreviation next := (PINT_state_machine_next prog func term_func malloc place alloc_frame free_frame).
Abbreviation continue :=
  (PINT_state_machine_continue prog func term_func malloc place alloc_frame free_frame).

Definition deferred (w' : state) (a : positive) (pend : positive → nat) (ret : Z) : Prop :=
  ret = SM_ACTION_DEFERRED ∧ inv w' None pend ∧ is_Some (smcbs w' !! a).

Definition spec_invoke (fuel : nat) : Prop :=
  ∀ w a s r pend st stk, inv w (Some a) pend → quiet w a s → ready s st stk →
    safe (invoke fuel w a r) (λ '(ret, _, w'), keeps (Some a) w w' ∧
      (deferred w' a pend ret ∨
       (ret = SM_ACTION_COMPLETE ∨ ret = SM_ACTION_TERMINATE) ∧ inv w' (Some a) pend ∧
       ∃ s', quiet w' a s' ∧ ran s' st stk)).

Definition ends (w w' : state) (a : positive) (pend : positive → nat) (ret : Z) : Prop :=
  keeps (Some a) w w' ∧
  (deferred w' a pend ret ∨
   ret = SM_ACTION_TERMINATE ∧ inv w' (Some a) pend ∧ ∃ s', quiet w' a s' ∧ ended s').

Definition spec_loop (fuel : nat) : Prop :=
  ∀ w a s r pend st stk, inv w (Some a) pend → quiet w a s → ran s st stk →
    safe (run_loop fuel w a r) (λ '(ret, _, w'), ends w w' a pend ret).

Definition spec_next (fuel : nat) : Prop :=
  ∀ w a s r pend st stk, inv w (Some a) pend → quiet w a s → ran s st stk →
    safe (next fuel w a r) (λ '(ret, _, w'), ends w w' a pend ret).

Definition rests (w w' : state) (a : positive) (pend : positive → nat) (ret : Z) : Prop :=
  inv w' None pend ∧ keeps (Some a) w w' ∧
  (ret = SM_ACTION_DEFERRED ∧ is_Some (smcbs w' !! a) ∨ ret = SM_ACTION_TERMINATE).

Definition spec_continue (fuel : nat) : Prop :=
  ∀ w a s r pend st stk, inv w (Some a) pend → quiet w a s → ran s st stk →
    safe (continue fuel w a r) (λ '(ret, _, w'), rests w w' a pend ret).

Definition spec_start (fuel : nat) : Prop :=
  ∀ w a s r pend st stk, inv w (Some a) pend → quiet w a s → ready s st stk →
    safe (start fuel w a r) (λ '(ret, _, w'), rests w w' a pend ret).

Lemma data_links (s s' : smcb) : data s' = data s → frame_count s = Z.of_nat (length (frames s)) → same_links s s'.
Proof. unfold data, same_links. intros [=] Hf. repeat split; congruence. Qed.

(** A transition that ends the machine. *)
Lemma ran_ended (s s' : smcb) st stk code :
  ran s st stk → data s' = data s → lands prog st stk code None → ended s'.
Proof.
  intros [(tr & Htr & [Hctl Hdep Hleaf Hlive (root & c0 & Hroot & Hen & Hw)]) _] Hdata Hl.
  unfold data in Hdata. split; [congruence|].
  destruct (walk_activation prog root c0 tr (st, stk) code Hen Hw Hleaf Hl) as [res Hact'].
  exists root, res. split; [congruence|]. assert (h_trace s' = tr ++ [st]) as -> by congruence. done.
Qed.

(** A transition to another leaf. *)
Lemma ran_ready (s s1 s2 : smcb) st stk code st' stk' :
  ran s st stk → data s1 = data s → data s2 = data s1 → op_terminate s2 = 0 →
  ctl_ok s2 st' stk' → depth_ok prog depth st' stk' → is_leaf prog st' →
  lands prog st stk code (Some (st', stk')) → ready s2 st' stk'.
Proof.
  intros [(tr & Htr & [Hctl Hdep Hleaf Hlive (root & c0 & Hroot & Hen & Hw)]) _] Hd1 Hd2 Ht Hc Hd Hlf Hl.
  rewrite <- Hd2 in Hd1. clear Hd2 s1. unfold data in Hd1. split; [|done].
  split; [done|done|done|congruence|]. exists root, c0. split; [congruence|]. split; [done|].
  assert (h_trace s2 = tr ++ [st]) as -> by congruence.
  by apply (walk_step prog c0 tr (st, stk) code).
Qed.

Lemma loop_step fuel : spec_invoke fuel → spec_loop fuel → spec_loop (Datatypes.S fuel).
Proof.
  intros IHi IHl w a s r pend st stk Hinv Hq Hran.
  pose proof Hq as (Ha & Hc & Hn). destruct (inv_block _ _ _ Hinv a s Ha) as [Hfr Hca Hch Hpar].
  pose proof Hran as [(tr & Htr & Hat) Hterm].
  destruct (return_loop_spec prog depth Hwf loop_fuel s st stk (error_code r)) as
    (s1 & o & E & Hdata & Ho); [by destruct Hat|by destruct Hat| |done|].
  { destruct (depth_ok_state _ _ _ _ (at_depth _ _ _ _ Hat)) as (_ & _ & ?). unfold loop_fuel. lia. }
  cbn [next_loop]. rewrite (smcb_at_Some _ _ _ Ha). cbn [mbind exec_bind]. rewrite E.
  cbn [mbind exec_bind]. pose proof (data_links _ _ Hdata Hfr) as Hlinks. destruct o as [t|].
  - destruct Ho as (H0 & st1 & stk1 & st' & Hc1 & Hnx & Hd1 & Hl1). rewrite Hnx.
    destruct (jump_loop_spec prog depth Hwf loop_fuel (with_current s1 (Some st')) st' stk1) as
      (s2 & st2 & stk2 & E2 & Hdata2 & Hop2 & Hc2 & Hd2 & Hlf2 & Hen2); [by destruct Hc1|done| |].
    { destruct (depth_ok_state _ _ _ _ Hd1) as (_ & _ & ?). unfold loop_fuel. lia. }
    rewrite E2. cbn [mbind exec_bind].
    assert (same_links s s2) as Hlinks2 by (apply data_links; [by rewrite Hdata2|done]).
    eapply safe_bind.
    { apply (IHi (store_smcb w a s2) a s2 r pend st2 stk2).
      - by eapply inv_update.
      - eapply quiet_store; [done|]. by destruct Hlinks2 as (_ & ? & _).
      - eapply (ran_ready s s1); eauto. by rewrite Hop2. }
    intros [[ret r'] w'] (Hk & Hor).
    assert (keeps (Some a) w w') as Hk' by (eapply keeps_trans; [by apply keeps_store|done]).
    destruct Hor as [Hdef|(Hret & Hinv' & s' & Hq' & Hran')].
    + rewrite decide_False by (destruct Hdef as [-> _]; intros [|]; done). cbn. split; [done|by left].
    + rewrite decide_True by done. eapply safe_mono; [by eapply IHl|].
      intros [[ret' r''] w''] (Hk'' & Hor'). split; [by eapply keeps_trans|done].
  - cbn. split; [by apply keeps_store|]. right. split; [done|]. split; [by eapply inv_update|].
    exists s1. split; [|by eapply ran_ended].
    eapply quiet_store; [done|]. by destruct Hlinks as (_ & ? & _).
Qed.

Lemma next_step fuel : spec_loop fuel → spec_next (Datatypes.S fuel).
Proof.
  intros IH w a s r pend st stk Hinv Hq Hran. pose proof Hq as (Ha & _).
  cbn [PINT_state_machine_next]. rewrite (smcb_at_Some _ _ _ Ha). cbn [mbind exec_bind].
  rewrite decide_False; [by eapply IH|]. rewrite (blk_cancelled _ _ _ _ (inv_block _ _ _ Hinv a s Ha)). lia.
Qed.

Lemma continue_step fuel : spec_next fuel → spec_continue (Datatypes.S fuel).
Proof.
  intros IH w a s r pend st stk Hinv Hq Hran. cbn [PINT_state_machine_continue].
  eapply safe_bind; [by eapply IH|].
  intros [[ret r'] w'] (Hk & [(-> & Hinv' & Hl)|(-> & Hinv' & s' & Hq' & Hend)]).
  - rewrite decide_False by done. cbn. split; [done|]. split; [done|]. by left.
  - rewrite decide_True by done. eapply safe_bind; [by eapply terminate_spec|].
    intros [[? ?] w''] (Hinv'' & Hk''). cbn. split; [done|]. split; [by eapply keeps_trans|]. by right.
Qed.

(** The flags that only the users of the engine read. *)
Lemma inv_touch w a s imm pend :
  inv w None pend → smcbs w !! a = Some s →
  inv (store_smcb w a (with_flags s (op_terminate s) (op_cancelled s) imm)) None pend.
Proof.
  intros Hinv Ha. pose proof (inv_wait _ _ _ Hinv a s Ha) as Hw.
  eapply inv_rest; [|apply lookup_insert_eq|].
  - eapply inv_update; [by apply inv_weaken|done|]. by destruct (inv_block _ _ _ Hinv a s Ha).
  - destruct Hw as [Hover|(st & stk & d & [(tr & Htr & [[] ? ? ? ?]) Hterm] & Hd & Hor)]; [done|by left|right].
    exists st, stk, d. split; [|done]. split; [|done]. exists tr. split; [done|]. by split.
Qed.

Lemma start_step fuel : spec_invoke fuel → spec_continue fuel → spec_start (Datatypes.S fuel).
Proof.
  intros IHi IHc w a s r pend st stk Hinv Hq [[[Hc1 Hc2 Hc3 Hc4] Hdep Hleaf Hlive Hw] Hterm].
  pose proof Hq as (Ha & Hc & Hn). destruct (inv_block _ _ _ Hinv a s Ha) as [Hfr Hca Hch Hpar].
  cbn [PINT_state_machine_start]. rewrite (smcb_at_Some _ _ _ Ha). cbn [mbind exec_bind].
  set (s1 := with_control _ _ _ _ _). eapply safe_bind.
  { apply (IHi (store_smcb w a s1) a s1 r pend st stk).
    - by eapply inv_update.
    - by eapply quiet_store.
    - by repeat split. }
  intros [[ret r'] w'] (Hk & Hor).
  assert (keeps (Some a) w w') as Hk' by (eapply keeps_trans; [by apply keeps_store|done]).
  eapply (safe_bind _ _ (λ '(ret, _, w'), rests w w' a pend ret)).
  - destruct Hor as [(-> & Hinv' & Hl)|(Hret & Hinv' & s' & Hq' & Hran')].
    + rewrite decide_False by (intros [|]; done). cbn. split; [done|]. split; [done|]. by left.
    + rewrite decide_True by done. eapply safe_mono; [by eapply IHc|].
      intros [[? ?] w''] (Hinv'' & Hk'' & Hret''). split; [done|]. split; [by eapply keeps_trans|done].
  - intros [[ret1 r1] w1] (Hinv1 & Hk1 & [[-> [s2 Hs2]]|Hret]).
    + rewrite decide_True by done. rewrite (smcb_at_Some _ _ _ Hs2). cbn.
      split; [by apply inv_touch|]. split; [eapply keeps_trans; [done|by apply keeps_store]|].
      left. split; [done|]. cbn. rewrite lookup_insert_eq. by eexists.
    + rewrite decide_False by (rewrite Hret; done). cbn. split; [done|]. split; [done|]. by right.
Qed.

(** ** Children *)

Definition upd (pend : positive → nat) (a : positive) (n : nat) (b : positive) : nat :=
  if decide (b = a) then n else pend b.

Lemma upd_eq pend a n : upd pend a n a = n.
Proof. unfold upd. by rewrite decide_True. Qed.
Lemma upd_ne pend a n b : b ≠ a → upd pend a n b = pend b.
Proof. intros. unfold upd. by rewrite decide_False. Qed.

Definition task_listed (d : PINT_state_s S M F) (task : Z) : Prop :=
  ∃ tbl e, pjtbl d = Some tbl ∧ e ∈ tbl ∧ (pj_return_value e = task ∨ pj_return_value e = -1).

Definition tasks_listed (d : PINT_state_s S M F) (fs : list PINT_frame_s) : Prop :=
  ∀ x, x ∈ shape fs → task_listed d x.1.

(** The block counts the children that it will start. *)
Lemma inv_count w a s n pend :
  inv w (Some a) pend → quiet w a s →
  inv (store_smcb w a (with_children s (Z.of_nat n))) (Some a) (upd pend a n).
Proof.
  intros Hinv Hq. pose proof (quiet_childless _ _ _ _ Hinv Hq) as [Hno Hpa].
  destruct Hq as (Ha & Hc & Hna). destruct Hinv as [Hb Hp Hn Hnull Hw Hf].
  set (s' := with_children s (Z.of_nat n)).
  assert (∀ p, nchildren (<[a := s']> (smcbs w)) p = nchildren (smcbs w) p) as Hcount
    by (intros; by eapply nchildren_update).
  split; cbn [store_smcb with_smcbs smcbs null_jobs finished]; try done.
  - intros b t [[-> <-]|[Hne Hbt]]%lookup_insert_Some.
    + destruct (Hb b s Ha). split; [done|done|rewrite Hcount, Hno, upd_eq; done|].
      intros p Hpp. destruct (blk_parent0 p Hpp) as (? & ? & ?).
      split; [done|]. split; [|done]. by rewrite lookup_insert_ne.
    + destruct (Hb b t Hbt). split; [done|done|rewrite Hcount, upd_ne; done|].
      intros p Hpp. destruct (blk_parent0 p Hpp) as (? & ? & ?). split; [done|]. split; [|done].
      apply lookup_insert_is_Some'. by right.
  - intros b [? ?]%lookup_insert_None. rewrite upd_ne by done. auto.
  - intros b Hin. destruct (Hnull b Hin) as (t & Hbt & H0). exists t. rewrite lookup_insert_ne; [done|].
    intros ->. done.
  - intros b t [[-> <-]|[Hne Hbt]]%lookup_insert_Some Hact'; [done|]. by apply Hw.
Qed.

(** A child is started. *)
Lemma inv_child w c a s cs pend n :
  inv w None (upd pend a (Datatypes.S n)) → smcbs w !! c = None → smcbs w !! a = Some s →
  frame_count cs = Z.of_nat (length (frames cs)) → op_cancelled cs = 0 → children_running cs = 0 →
  parent_smcb cs = Some a → terminate_fn cs = Some child_sm_frame_terminate_fn →
  inv (store_smcb w c cs) (Some c) (upd pend a n).
Proof.
  intros Hinv Hc Ha Hfr Hca Hcr Hpar Hterm. destruct Hinv as [Hb Hp Hn Hnull Hw Hf].
  assert (c ≠ a) as Hca' by congruence.
  assert (Hcount : ∀ b, nchildren (<[c := cs]> (smcbs w)) b =
    (is_child cs b + nchildren (smcbs w) b)%nat) by (intros; by apply nchildren_insert).
  assert (Hno : nchildren (smcbs w) c = 0%nat ∧ upd pend a n c = 0%nat).
  { split; [|specialize (Hp c Hc); rewrite upd_ne in Hp by done; by rewrite upd_ne].
    apply nchildren_none. intros b t Hbt Hpt.
    destruct (blk_parent _ _ _ _ (Hb b t Hbt) c Hpt) as (_ & [? ?] & _). congruence. }
  split; cbn [store_smcb with_smcbs smcbs null_jobs finished]; try done.
  - intros b t [[<- <-]|[Hne Hbt]]%lookup_insert_Some.
    + split; [done|done| |].
      * rewrite Hcount, Hcr. unfold is_child. rewrite decide_False by congruence. lia.
      * intros p Hpp. rewrite Hpar in Hpp. injection Hpp as <-. split; [done|]. split; [|done].
        by rewrite lookup_insert_ne.
    + destruct (Hb b t Hbt). split; [done|done| |].
      * rewrite blk_children0, Hcount. unfold is_child, upd. rewrite Hpar.
        destruct (decide (b = a)) as [->|Hne']; [rewrite decide_True by done; lia|].
        rewrite decide_False by congruence. lia.
      * intros p Hpp. destruct (blk_parent0 p Hpp) as (? & ? & ?). split; [done|]. split; [|done].
        apply lookup_insert_is_Some'. by right.
  - intros b [Hbn ?]%lookup_insert_None. assert (b ≠ a) by congruence.
    specialize (Hp b Hbn). rewrite upd_ne in Hp by done. by rewrite upd_ne.
  - intros b Hin. destruct (Hnull b Hin) as (t & Hbt & H0). exists t. rewrite lookup_insert_ne; [done|].
    congruence.
  - intros b t [[<- <-]|[Hne Hbt]]%lookup_insert_Some Hact'; [done|]. by apply Hw.
Qed.

Lemma rev_lookup {A} (l : list A) j :
  (j < length l)%nat → rev l !! j = l !! (length l - Datatypes.S j)%nat.
Proof. intros Hj. rewrite rev_alt. by apply reverse_lookup. Qed.

(** The machine of a child. *)
Lemma task_map_spec (s : smcb) st d task :
  current_state s = Some st → state_of prog st = Some d → flag d = SM_PJMP → task_listed d task →
  ∃ st', PINT_sm_task_map prog s task = Done st' ∧ is_leaf prog st' ∧
    (depth st' ≤ Z.to_nat PINT_STATE_STACK_SIZE)%nat.
Proof.
  intros Hc Hd Hf (tbl & e & Htbl & He & Hcode).
  destruct (wf_tasks _ _ _ _ (Hwf st d Hd) Hf) as (tbl' & Htbl' & Hall). simplify_eq.
  unfold PINT_sm_task_map. rewrite Hc. unfold state_at. rewrite Hd. cbn [mbind exec_bind].
  rewrite Htbl. clear Htbl. induction tbl as [|e' tbl IH]; [by apply elem_of_nil in He|].
  cbn. case_decide as Hm.
  - destruct (Hall e') as (m & st' & Hm' & Hfst & Hlf & Hdp); [by left|].
    unfold first_state_of. rewrite Hm'. cbn. rewrite Hfst. by exists st'.
  - apply elem_of_cons in He as [->|He]; [done|]. apply IH; [done|]. intros x Hx. apply Hall. by right.
Qed.

Definition bump (w : state) : state :=
  mkWorld (smcbs w) (null_jobs w) (mem w) (Datatypes.S (mallocs w)) (finished w).

(** The block of a child that is about to be started. *)
Definition child_block (a : positive) (o ctx : Z) (f : PINT_frame_s) (st : S) : smcb :=
  with_history
    (with_current
       (with_frames (with_op smcb_zero o None (Some a) ctx (Some child_sm_frame_terminate_fn))
          [mkFrame (task_id f) (frame f) 0] 1) (Some st)) (Some st) [] false.

Lemma child_block_ready a o ctx f st :
  is_leaf prog st → (depth st ≤ Z.to_nat PINT_STATE_STACK_SIZE)%nat →
  ready (child_block a o ctx f st) st [].
Proof.
  intros Hlf Hd. split; [|done]. split; [by split|..].
  - destruct Hlf as (d & Hst & _). split; [by eexists|]. split; [cbn; lia|done].
  - done.
  - done.
  - exists st, (st, []). split; [done|]. split; [by constructor|constructor].
Qed.

Definition spec_children (fuel : nat) : Prop :=
  ∀ w a s r my k n pend st d, inv w None (upd pend a n) → pend a = 0%nat → smcbs w !! a = Some s →
    current_state s = Some st → state_of prog st = Some d → flag d = SM_PJMP →
    (k ≤ length (frames s))%nat →
    n = length (child_frames (drop (length (frames s) - k) (frames s)) my) →
    tasks_listed d (child_frames (drop (length (frames s) - k) (frames s)) my) →
    safe (children fuel w a r my k) (λ w', inv w' None pend ∧ keeps None w w').

Lemma inv_upd_0 w act pend a : pend a = 0%nat → inv w act (upd pend a 0) → inv w act pend.
Proof.
  intros H0. apply inv_pend_ext. intros b. unfold upd. by case_decide as Hb; [rewrite Hb|].
Qed.

Lemma keeps_new w w' c : smcbs w !! c = None → keeps (Some c) w w' → keeps None w w'.
Proof. intros Hc H q s _ Hq. apply H; [congruence|done]. Qed.

Lemma alloc_child_spec w o ctx :
  let c := place (dom (smcbs w)) in
  PINT_smcb_alloc prog malloc place alloc_frame w o 0 None (Some child_sm_frame_terminate_fn) ctx =
  Done (Some c, 0, store_smcb (store_smcb (bump w) c smcb_zero) c
    (with_op smcb_zero o None None ctx (Some child_sm_frame_terminate_fn))).
Proof.
  intros c. unfold PINT_smcb_alloc, do_malloc. rewrite Hmalloc. cbn [negb].
  rewrite decide_False by lia. cbn [mbind exec_bind smcbs]. fold c.
  by rewrite (smcb_at_Some _ c _ (lookup_insert_eq _ _ _)).
Qed.

Lemma push_frame_spec (w : state) a s task fp :
  smcbs w !! a = Some s →
  PINT_sm_push_frame malloc w a task fp =
  Done (0, store_smcb (bump w) a (with_frames s (mkFrame task fp 0 :: frames s) (frame_count s + 1))).
Proof.
  intros Ha. unfold PINT_sm_push_frame, do_malloc. rewrite Hmalloc. cbn [negb].
  fold (bump w). by rewrite (smcb_at_Some (bump w) _ _ Ha).
Qed.

Lemma children_step fuel : spec_start fuel → spec_children fuel → spec_children (Datatypes.S fuel).
Proof.
  intros IHs IHc w a s r my k n pend st d Hinv H0 Ha Hcur Hst Hf Hk Hn Htasks.
  destruct k as [|j]; cbn [child_loop].
  { rewrite Nat.sub_0_r, drop_all in Hn. cbn in Hn. subst n. split; [by eapply inv_upd_0|apply keeps_refl]. }
  rewrite (smcb_at_Some _ _ _ Ha). cbn [mbind exec_bind]. rewrite rev_lookup by lia.
  destruct (frames s !! (length (frames s) - Datatypes.S j)%nat) as [f|] eqn:Ef;
    [|apply lookup_ge_None in Ef; lia].
  rewrite (drop_S _ _ _ Ef) in Hn, Htasks. cbn [child_frames] in Hn, Htasks.
  replace (Datatypes.S (length (frames s) - Datatypes.S j)) with (length (frames s) - j)%nat
    in Hn, Htasks by lia.
  case_decide as Hmy.
  { cbn in Hn. subst n. split; [by eapply inv_upd_0|apply keeps_refl]. }
  cbn [length] in Hn. set (c := place (dom (smcbs w))).
  assert (smcbs w !! c = None) as Hc by (apply not_elem_of_dom, Hplace).
  assert (c ≠ a) as Hca by congruence.
  rewrite alloc_child_spec. cbn [mbind exec_bind]. fold c.
  rewrite (smcb_at_Some _ c _ (lookup_insert_eq _ _ _)). cbn [mbind exec_bind].
  rewrite (push_frame_spec _ c _ _ _ (lookup_insert_eq _ _ _)). cbn [mbind exec_bind].
  rewrite (smcb_at_Some _ a s) by (cbn; by rewrite !lookup_insert_ne). cbn [mbind exec_bind].
  destruct (task_map_spec s st d (task_id f)) as (st' & E & Hlf & Hdp); [done..| |].
  { apply (Htasks (task_id f, frame f)). by left. }
  rewrite E. cbn [mbind exec_bind].
  rewrite (smcb_at_Some _ c _ (lookup_insert_eq _ _ _)). cbn [mbind exec_bind].
  set (w1 := store_smcb _ c _). set (cs := child_block a (op s) (context s) f st').
  assert (smcbs w1 = <[c := cs]> (smcbs w)) as Hw1 by (cbn; by rewrite !insert_insert_eq).
  assert (inv w1 (Some c) (upd pend a (length (child_frames (drop (length (frames s) - j) (frames s)) my))))
    as Hinv1.
  { eapply (inv_same (store_smcb w c cs)); [done|done|done|]. eapply inv_child; try done.
    by rewrite <- Hn. }
  assert (null_jobs w1 = null_jobs w) as Hn1 by done.
  assert (quiet w1 c cs) as Hq1.
  { split; [by rewrite Hw1, lookup_insert_eq|]. split; [done|]. rewrite Hn1. intros Hin.
    destruct (inv_null _ _ _ Hinv c Hin) as (t & Ht & _). congruence. }
  clearbody w1. eapply safe_bind; [by eapply (IHs w1 c cs), child_block_ready|].
  intros [[ret r'] w2] (Hinv2 & Hk2 & _).
  destruct (Hk2 a s) as (s2 & Ha2 & Hsim); [congruence|by rewrite Hw1, lookup_insert_ne|].
  pose proof Hsim as (m & fs & Es2 & Hsh). assert (frames s2 = fs) as Hfs by (by subst s2).
  assert (shape (drop (length (frames s) - j) fs) = shape (drop (length (frames s) - j) (frames s)))
    as Hsh' by (unfold shape in *; by rewrite !fmap_drop, Hsh).
  pose proof (shape_length _ _ Hsh) as Hlen.
  eapply safe_mono; [eapply (IHc w2 a s2)|].
  - exact Hinv2.
  - done.
  - done.
  - by subst s2.
  - done.
  - done.
  - rewrite Hfs. lia.
  - rewrite Hfs, Hlen. symmetry. by apply shape_length, child_frames_shape.
  - unfold tasks_listed. rewrite Hfs, Hlen, (child_frames_shape _ _ _ Hsh'). intros x Hx.
    apply Htasks. by right.
  - intros w3 (Hinv3 & Hk3). split; [done|]. eapply keeps_trans; [|exact Hk3].
    intros q t _ Hqt. apply Hk2; [congruence|]. rewrite Hw1, lookup_insert_ne; [done|congruence].
Qed.

Definition spec_start_children (fuel : nat) : Prop :=
  ∀ w a s pend st stk d, inv w (Some a) pend → quiet w a s → ran s st stk →
    state_of prog st = Some d → flag d = SM_PJMP →
    tasks_listed d (child_frames (frames s) (frame_at (frames s) (base_frame s))) →
    safe (start_children fuel w a) (λ '(n, w'), keeps (Some a) w w' ∧
      (n > 0 ∧ inv w' None pend ∧ is_Some (smcbs w' !! a) ∨
       n = 0 ∧ inv w' (Some a) pend ∧ ∃ s', quiet w' a s' ∧ ran s' st stk)).

(** Nothing happens when there are no frames above the base frame. *)
Lemma children_none fuel w a s r my :
  smcbs w !! a = Some s → child_frames (frames s) my = [] →
  safe (children fuel w a r my (length (frames s))) (λ w', w' = w).
Proof.
  intros Ha Hno. destruct fuel as [|fuel]; [done|].
  destruct (frames s) as [|f fs] eqn:Ef; [done|]. cbn [length child_loop].
  rewrite (smcb_at_Some _ _ _ Ha). cbn [mbind exec_bind]. rewrite Ef, rev_lookup by (cbn; lia).
  cbn [length]. rewrite Nat.sub_diag. cbn [lookup list_lookup]. cbn [child_frames] in Hno.
  case_decide; done.
Qed.

Lemma ran_with_children s n st stk : ran s st stk → ran (with_children s n) st stk.
Proof.
  apply ran_similar. exists n, (frames s). split; [by destruct s|done].
Qed.

Lemma start_children_step fuel : spec_children fuel → spec_start_children (Datatypes.S fuel).
Proof.
  intros IH w a s pend st stk d Hinv Hq Hran Hst Hf Htasks. pose proof Hq as (Ha & Hc & Hn).
  pose proof (quiet_childless _ _ _ _ Hinv Hq) as [_ H0].
  pose proof (inv_block _ _ _ Hinv a s Ha) as [Hfr _ _ _].
  cbn [PINT_sm_start_child_frames]. rewrite (smcb_at_Some _ _ _ Ha). cbn [mbind exec_bind].
  rewrite sm_frame_spec by done. cbn [mbind exec_bind].
  set (my := frame_at (frames s) (base_frame s)) in *. rewrite count_children_spec, Hc, Z.add_0_l.
  set (n := length (child_frames (frames s) my)). set (s1 := with_children s (Z.of_nat n)).
  assert (smcbs (store_smcb w a s1) !! a = Some s1) as Ha1 by apply lookup_insert_eq.
  pose proof (inv_count w a s n pend Hinv Hq) as Hinv1. fold s1 in Hinv1.
  assert (keeps (Some a) w (store_smcb w a s1)) as Hk1 by (by apply keeps_store).
  pose proof (ran_with_children s (Z.of_nat n) st stk Hran) as Hran1. fold s1 in Hran1.
  destruct (decide (n = 0%nat)) as [Hn0|Hn0].
  - eapply safe_bind.
    + apply (children_none fuel (store_smcb w a s1) a s1); [done|]. cbn. by apply nil_length_inv.
    + intros w' ->. cbn. split; [done|]. right. split; [unfold n; lia|]. rewrite Hn0 in Hinv1.
      split; [by apply (inv_upd_0 _ _ _ a)|]. exists s1. split; [|done].
      split; [done|]. split; [cbn; lia|done].
  - eapply safe_bind.
    + eapply (IH (store_smcb w a s1) a s1 _ my (length (frames s)) n pend st d); try done.
      * eapply inv_rest; [done|done|]. right. exists st, stk, d. split; [done|]. split; [done|].
        left. split; [done|]. left. cbn. lia.
      * destruct Hran as [(tr & _ & [[] _ _ _ _]) _]. done.
      * cbn [frames s1 with_children]. by rewrite Nat.sub_diag.
      * cbn [frames s1 with_children]. by rewrite Nat.sub_diag.
    + intros w' (Hinv' & Hk'). cbn [safe]. split.
      * eapply keeps_trans; [done|]. intros q t _ Hqt. by apply Hk'.
      * left. split; [cbn; lia|]. split; [done|].
        destruct (Hk' a s1) as (s' & -> & _); [done|done|by eexists].
Qed.

(** The block after the action of its state. *)
Definition acted (s : smcb) (st : S) (res : action_result U) : smcb :=
  let s := after_action (with_history s (h_root s) (h_trace s ++ [st]) (h_done s)) res in
  if decide (result_action res = SM_ACTION_TERMINATE)
  then with_flags s 1 (op_cancelled s) (immediate s) else s.

Lemma acted_fields s st res :
  same_links s (acted s st res) ∧ frames (acted s st res) = result_frames res ∧
  base_frame (acted s st res) = base_frame s ∧ h_trace (acted s st res) = h_trace s ++ [st] ∧
  h_root (acted s st res) = h_root s ∧ h_done (acted s st res) = h_done s ∧
  (∀ st' stk, ctl_ok s st' stk → ctl_ok (acted s st res) st' stk) ∧
  (op_terminate (acted s st res) ≠ 0 → op_terminate s ≠ 0 ∨
     result_action res = SM_ACTION_TERMINATE ∨ result_complete res = true).
Proof.
  unfold acted, after_action, same_links. destruct (result_complete res); case_decide;
    (split; [by repeat split|]; do 5 (split; [done|]); split; [intros ?? []; by split|]; cbn; tauto).
Qed.

Lemma acted_ran s st stk d f r u :
  ready s st stk → state_of prog st = Some d → leaf d → action d = action_func (Some f) →
  ran (acted s st (func f (mkView (op s) (frames s) (base_frame s)) r u)) st stk.
Proof.
  intros [[Hctl Hdep Hleaf Hlive Hw] Hterm] Hst Hlf Ha.
  set (res := func _ _ _ _).
  destruct (acted_fields s st res) as (_ & _ & _ & Ht & Hr & Hd & Hc & Hop).
  split.
  - exists (h_trace s). split; [done|]. split; [by apply Hc|done|done|congruence|].
    by rewrite Hr.
  - intros Hne. destruct (Hop Hne) as [?|Hres]; [done|]. by eapply (wb_terminate Hact).
Qed.

Lemma invoke_step fuel : spec_start_children fuel → spec_invoke (Datatypes.S fuel).
Proof.
  intros IH w a s r pend st stk Hinv Hq Hready. pose proof Hq as (Ha & Hc & Hn).
  pose proof Hready as [[Hctl Hdep (d & Hst & Hlf) Hlive Hw] Hterm].
  cbn [PINT_state_machine_invoke]. rewrite (smcb_at_Some _ _ _ Ha). cbn [mbind exec_bind].
  rewrite (ctl_cur _ _ _ Hctl). unfold state_at. rewrite Hst. cbn [mbind exec_bind].
  rewrite (decide_True (P := flag d = SM_RUN ∨ flag d = SM_PJMP)) by done.
  destruct (wf_action _ _ _ _ (Hwf st d Hst)) as [[_ [f Hf]]|[Hj _]]; [|destruct Hlf; congruence].
  rewrite Hf. change (op (with_history s (h_root s) (h_trace s ++ [st]) (h_done s))) with (op s).
  change (frames (with_history s (h_root s) (h_trace s ++ [st]) (h_done s))) with (frames s).
  change (base_frame (with_history s (h_root s) (h_trace s ++ [st]) (h_done s))) with (base_frame s).
  set (res := func f (mkView (op s) (frames s) (base_frame s)) r (mem w)).
  fold (acted s st res). set (s1 := acted s st res).
  set (w1 := with_mem (store_smcb w a s1) (result_mem res)).
  destruct (acted_fields s st res) as (Hlinks & Hfr & Hbase & _).
  assert (inv w1 (Some a) pend) as Hinv1.
  { eapply (inv_same (store_smcb w a s1)); [done..|]. by eapply inv_update. }
  assert (quiet w1 a s1) as Hq1.
  { eapply (quiet_store w); [done|]. by destruct Hlinks as (_ & ? & _). }
  assert (ran s1 st stk) as Hran1 by (by eapply acted_ran).
  assert (keeps (Some a) w w1) as Hk1 by (by apply (keeps_store _ w a s1)).
  pose proof (wb_return Hact st d f (mkView (op s) (frames s) (base_frame s)) r (mem w) Hst Hlf Hf)
    as Hret. fold res in Hret.
  destruct (decide (result_action res = SM_ACTION_COMPLETE ∧ flag d = SM_PJMP)) as [[Hcomp Hpj]|Hno].
  - eapply safe_bind.
    + eapply (IH w1 a s1 pend st stk d); try done. intros x Hx.
      destruct (wf_tasks _ _ _ _ (Hwf st d Hst) Hpj) as (tbl & Htbl & _).
      apply list_elem_of_fmap in Hx as (fr & -> & Hin). exists tbl.
      destruct (wb_tasks Hact st d f (mkView (op s) (frames s) (base_frame s)) r (mem w) tbl fr)
        as (e & He & Hcode); [done..| |by exists e].
      unfold s1 in Hin. by rewrite Hfr, Hbase in Hin.
    + intros [n w'] (Hk' & Hor). assert (keeps (Some a) w w') by (by eapply keeps_trans).
      destruct Hor as [(Hpos & Hinv' & Hl)|(H0 & Hinv' & Hs')].
      * rewrite decide_True by done. cbn. split; [done|]. by left.
      * rewrite decide_False by lia. cbn. split; [done|]. right. by split; [left|].
  - cbn [safe]. split; [done|]. destruct Hret as [[Hdef Hrun]|[Hcomp|Hte]].
    + left. split; [done|]. split; [|destruct Hq1 as (Hs1 & _); by rewrite Hs1].
      destruct Hq1 as (Hs1 & H01 & Hn1). eapply inv_rest; [done|done|]. right. exists st, stk, d.
      split; [done|]. split; [done|]. right. done.
    + right. split; [by left|]. split; [done|]. by exists s1.
    + right. split; [by right|]. split; [done|]. by exists s1.
Qed.

Lemma engine_specs fuel :
  spec_invoke fuel ∧ spec_start_children fuel ∧ spec_children fuel ∧ spec_start fuel ∧
  spec_loop fuel ∧ spec_next fuel ∧ spec_continue fuel.
Proof.
  induction fuel as [|fuel (Hi & Hsc & Hc & Hs & Hl & Hn & Hco)].
  { repeat split; intros ?; intros; exact I. }
  split; [by apply invoke_step|]. split; [by apply start_children_step|].
  split; [by apply children_step|]. split; [by apply start_step|].
  split; [by apply loop_step|]. split; [by apply next_step|by apply continue_step].
Qed.

(** * Events *)

(** A machine is started for an operation; a job that a block waits for
    completes; such a block is turned over to the machine of another operation;
    or a null job is taken from the queue, whose error code is 0.

    The third is what the action of a block does that receives a request, when
    its job has completed: it calls [PINT_smcb_set_op] and
    [PINT_state_machine_invoke] for its own block and returns what that returns,
    so that the loop that had called the action goes on with the transitions of
    the new state. *)
Inductive sm_event :=
  | EvNew (o frame_size ctx : Z) (getmach : Z → exec (option M)) (t : T) (r : job_status_s)
  | EvJob (a : positive) (r : job_status_s)
  | EvOp (a : positive) (o : Z) (r : job_status_s)
  | EvNull (r : job_status_s).

Definition pop_null (w : state) : state :=
  mkWorld (smcbs w) (tail (null_jobs w)) (mem w) (mallocs w) (finished w).

Definition run_event (fuel : nat) (w : state) (ev : sm_event) : exec state :=
  match ev with
  | EvNew o frame_size ctx getmach t r =>
      '(a, ret, w) ← PINT_smcb_alloc prog malloc place alloc_frame w o frame_size (Some getmach)
        (Some (user_terminate_fn t)) ctx;
      match a with
      | Some a =>
          if decide (ret = 1) then '(_, _, w) ← start fuel w a r; Done w else Done w
      | None => Done w
      end
  | EvJob a r => '(_, _, w) ← continue fuel w a r; Done w
  | EvOp a o r =>
      s ← smcb_at w a;
      '(ret, s) ← PINT_smcb_set_op prog s o;
      let w := store_smcb w a s in
      if decide (ret = 1) then
        '(ret, r, w) ← invoke fuel w a r;
        if decide (ret = SM_ACTION_COMPLETE ∨ ret = SM_ACTION_TERMINATE)
        then '(_, _, w) ← continue fuel w a r; Done w
        else Done w
      else Done w
  | EvNull r =>
      match null_jobs w with
      | [] => Done w
      | a :: _ => '(_, _, w) ← continue fuel (pop_null w) a (with_error r 0); Done w
      end
  end.

Definition enabled (w : state) (ev : sm_event) : Prop :=
  match ev with
  | EvNew o _ _ getmach _ _ =>
      0 ≤ o ∧ ∃ m st, getmach o = Done (Some m) ∧ first_state prog m = Some st
  | EvJob a _ =>
      ∃ s st d, smcbs w !! a = Some s ∧ h_done s = false ∧ current_state s = Some st ∧
        state_of prog st = Some d ∧ flag d = SM_RUN
  | EvOp a o _ =>
      0 ≤ o ∧ ∃ s st d getmach m first, smcbs w !! a = Some s ∧ h_done s = false ∧
        current_state s = Some st ∧ state_of prog st = Some d ∧ flag d = SM_RUN ∧
        stackptr s = 0 ∧ op_terminate s = 0 ∧ op_get_state_machine s = Some getmach ∧
        getmach o = Done (Some m) ∧ first_state prog m = Some first
  | EvNull _ => True
  end.

Definition sm_step (w w' : state) : Prop :=
  ∃ fuel ev, enabled w ev ∧ run_event fuel w ev = Done w'.

Definition initial (w : state) : Prop := smcbs w = ∅ ∧ null_jobs w = [] ∧ finished w = [].

Abbreviation no_pend := (λ _ : positive, 0%nat).

Lemma inv_initial w : initial w → inv w None no_pend.
Proof.
  intros (Hs & Hn & Hf). split; rewrite ?Hs, ?Hn, ?Hf; try done; try (by intros ???);
    try (by intros ??); [constructor|by intros ??%elem_of_nil|by intros ????%elem_of_nil].
Qed.

(** A block without parent and children. *)
Lemma inv_new w a s :
  inv w None no_pend → smcbs w !! a = None → frame_count s = Z.of_nat (length (frames s)) →
  op_cancelled s = 0 → children_running s = 0 → parent_smcb s = None →
  inv (store_smcb w a s) (Some a) no_pend ∧ quiet (store_smcb w a s) a s.
Proof.
  intros [Hb Hp Hn Hnull Hw Hf] Ha Hfr Hca Hcr Hpar.
  assert (Hcount : ∀ b, nchildren (<[a := s]> (smcbs w)) b = nchildren (smcbs w) b).
  { intros b. rewrite nchildren_insert by done. unfold is_child. by rewrite decide_False by congruence. }
  assert (Hpa : ∀ b t, smcbs w !! b = Some t → parent_smcb t ≠ Some a).
  { intros b t Hbt Hpt. destruct (blk_parent _ _ _ _ (Hb b t Hbt) a Hpt) as (_ & [? ?] & _). congruence. }
  pose proof (nchildren_none (smcbs w) a Hpa) as Hna.
  split.
  - split; cbn [store_smcb with_smcbs smcbs null_jobs finished]; try done.
    + intros b t [[<- <-]|[Hne Hbt]]%lookup_insert_Some.
      * split; [done|done|rewrite Hcount; lia|congruence].
      * destruct (Hb b t Hbt). split; [done|done|by rewrite Hcount|].
        intros p Hpp. destruct (blk_parent0 p Hpp) as (? & ? & ?). split; [done|]. split; [|done].
        apply lookup_insert_is_Some'. by right.
    + intros b Hin. destruct (Hnull b Hin) as (t & Hbt & H0). exists t.
      rewrite lookup_insert_ne; [done|congruence].
    + intros b t [[<- <-]|[Hne Hbt]]%lookup_insert_Some Hact'; [done|]. by apply Hw.
  - split; [apply lookup_insert_eq|]. split; [done|]. intros Hin.
    destruct (Hnull a Hin) as (t & Hbt & _). congruence.
Qed.

Lemma locate_spec (s : smcb) getmach m first :
  op_get_state_machine s = Some getmach → 0 ≤ op s → getmach (op s) = Done (Some m) →
  first_state prog m = Some first → stackptr s = 0 →
  length (state_stack s) = Z.to_nat PINT_STATE_STACK_SIZE → op_terminate s = 0 →
  ∃ s' st stk, PINT_state_machine_locate prog s = Done (1, s') ∧ ready s' st stk ∧
    frames s' = frames s ∧ frame_count s' = frame_count s ∧ op_cancelled s' = op_cancelled s ∧
    children_running s' = children_running s ∧ parent_smcb s' = parent_smcb s ∧
    terminate_fn s' = terminate_fn s ∧
    h_root s' = Some first ∧ enters prog first [] (st, stk) ∧ op s' = op s.
Proof.
  intros Hg Ho Hm Hfs Hptr Hlen Hterm. unfold PINT_state_machine_locate. rewrite Hg.
  rewrite decide_False by lia. rewrite Hm. cbn [mbind exec_bind].
  unfold first_state_of. cbn [mbind option_bind]. rewrite Hfs. cbn [mbind exec_bind].
  destruct (Hfirst m first Hfs) as [Hex Hdp].
  destruct (jump_loop_spec prog depth Hwf loop_fuel (with_current s (Some first)) first []) as
    (s' & st & stk & -> & Hdata & Hop & [] & Hd & Hlf & Hen).
  - by split.
  - split; [done|]. split; [cbn; lia|done].
  - unfold loop_fuel. lia.
  - unfold data in Hdata. eexists _, st, stk. split; [done|]. split.
    + split; [|cbn in Hop |- *; congruence]. split; [by split|done|done|done|].
      exists first, (st, stk). split; [done|]. split; [done|constructor].
    + cbn in Hdata. do 6 (split; [cbn; congruence|]). split; [done|]. split; [done|]. cbn. congruence.
Qed.

Lemma new_spec fuel w o frame_size ctx getmach t r :
  inv w None no_pend → enabled w (EvNew o frame_size ctx getmach t r) →
  safe (run_event fuel w (EvNew o frame_size ctx getmach t r)) (λ w', inv w' None no_pend).
Proof.
  intros Hinv (Ho & m & first & Hm & Hfs). cbn [run_event]. unfold PINT_smcb_alloc, do_malloc.
  rewrite Hmalloc. cbn [negb smcbs]. set (a := place (dom (smcbs w))).
  assert (smcbs w !! a = None) as Ha by (apply not_elem_of_dom, Hplace).
  assert (Hgo : ∀ (w1 : state) s, smcbs w1 = <[a := s]> (smcbs w) → null_jobs w1 = null_jobs w →
      finished w1 = finished w → frame_count s = Z.of_nat (length (frames s)) → op_cancelled s = 0 →
      children_running s = 0 → op_terminate s = 0 → stackptr s = 0 →
      length (state_stack s) = Z.to_nat PINT_STATE_STACK_SIZE →
      safe ('(a, ret, w) ← (s ← smcb_at w1 a;
              '(ret, s) ← PINT_state_machine_locate prog
                 (with_op s o (Some getmach) None ctx (Some (user_terminate_fn t)));
              Done (Some a, ret, store_smcb w1 a s));
            match a with
            | Some a => if decide (ret = 1) then '(_, _, w) ← start fuel w a r; Done w else Done w
            | None => Done w
            end) (λ w', inv w' None no_pend)).
  { intros w1 s Hw1 Hn1 Hf1 Hfr Hca Hcr Hte Hpt Hln.
    rewrite (smcb_at_Some w1 a s) by (by rewrite Hw1, lookup_insert_eq). cbn [mbind exec_bind].
    destruct (locate_spec (with_op s o (Some getmach) None ctx (Some (user_terminate_fn t)))
      getmach m first) as (s' & st & stk & -> & Hready & Hfr' & Hfc' & Hca' & Hcr' & Hpa' & _); [done..|].
    cbn [mbind exec_bind]. rewrite decide_True by done.
    cbn in Hfr', Hfc', Hca', Hcr', Hpa'. destruct (inv_new w a s' Hinv Ha) as [Hinv' Hq']; [rewrite Hfr', Hfc'; done|congruence..|].
    eapply safe_bind.
    - eapply (proj1 (proj2 (proj2 (proj2 (engine_specs fuel)))) (store_smcb w1 a s') a s' r no_pend);
        [|split; [apply lookup_insert_eq|]|done].
      + eapply (inv_same (store_smcb w a s')); [cbn; by rewrite Hw1, insert_insert_eq|done..].
      + destruct Hq' as (_ & ? & ?). split; [done|]. cbn. by rewrite Hn1.
    - intros [[? ?] w'] (Hinv'' & _). done. }
  destruct (decide (frame_size > 0)).
  - destruct (alloc_frame frame_size _) as [[fp|] u].
    + cbn [mbind exec_bind]. rewrite (push_frame_spec _ a smcb_zero) by (apply lookup_insert_eq).
      cbn [mbind exec_bind]. rewrite (smcb_at_Some _ a _ (lookup_insert_eq _ _ _)). cbn [mbind exec_bind].
      eapply Hgo; [cbn; by rewrite !insert_insert_eq|done..].
    + cbn [mbind exec_bind safe]. eapply (inv_same w); [|done..]. cbn. by rewrite delete_insert_id.
  - cbn [mbind exec_bind]. by eapply Hgo.
Qed.

Lemma wake_spec fuel w a s r st stk :
  inv w (Some a) no_pend → quiet w a s → ran s st stk →
  safe ('(_, _, w) ← continue fuel w a r; Done w) (λ w', inv w' None no_pend).
Proof.
  intros Hinv Hq Hran. destruct (engine_specs fuel) as (_ & _ & _ & _ & _ & _ & Hco).
  eapply safe_bind; [by eapply Hco|]. intros [[? ?] w'] (Hinv' & _). done.
Qed.

(** A block that waits for a job. *)
Lemma waiting w a s st d :
  inv w None no_pend → smcbs w !! a = Some s → h_done s = false → current_state s = Some st →
  state_of prog st = Some d → flag d = SM_RUN →
  quiet w a s ∧ ∃ stk, ran s st stk.
Proof.
  intros Hinv Ha Hlive Hcur Hst Hf.
  destruct (inv_wait _ _ _ Hinv a s Ha) as [(? & _)|(st' & stk & d' & Hran & Hst' & Hor)];
    [done|congruence|].
  assert (st' = st) as ->.
  { destruct Hran as [(tr & _ & [[] _ _ _ _]) _]. congruence. }
  assert (d' = d) as -> by congruence. destruct Hor as [[? _]|(_ & H0 & Hn)]; [congruence|].
  split; [done|by exists stk].
Qed.

Lemma op_spec fuel w a o r :
  inv w None no_pend → enabled w (EvOp a o r) →
  safe (run_event fuel w (EvOp a o r)) (λ w', inv w' None no_pend).
Proof.
  intros Hinv (Ho & s & st0 & d & getmach & m & first & Ha & Hlive & Hcur & Hst & Hf & Hptr & Hterm &
    Hg & Hm & Hfs).
  destruct (waiting w a s st0 d Hinv Ha Hlive Hcur Hst Hf) as (Hq & stk0 & [(tr & _ & [[] _ _ _ _]) _]).
  destruct (inv_block _ _ _ Hinv a s Ha) as [Hfr _ _ _].
  cbn [run_event]. rewrite (smcb_at_Some _ _ _ Ha). cbn [mbind exec_bind]. unfold PINT_smcb_set_op.
  destruct (locate_spec (with_op s o (op_get_state_machine s) (parent_smcb s) (context s)
    (terminate_fn s)) getmach m first) as (s' & st & stk & -> & Hready & Hfr' & Hfc' & Hca' & Hcr' &
    Hpa' & Hte' & _); [done..|].
  cbn in Hfr', Hfc', Hca', Hcr', Hpa', Hte'. cbn [mbind exec_bind]. rewrite decide_True by done.
  eapply safe_bind.
  - eapply (proj1 (engine_specs fuel) (store_smcb w a s') a s'); [|by eapply quiet_store|done].
    eapply inv_update; [by apply inv_weaken|done|]. unfold same_links. rewrite Hfc', Hfr'. done.
  - intros [[ret r'] w'] (_ & [(-> & Hinv' & _)|(Hret & Hinv' & s1 & Hq1 & Hran1)]).
    + by rewrite decide_False by (intros [|]; done).
    + rewrite decide_True by done. by eapply wake_spec.
Qed.

Lemma event_spec fuel w ev :
  inv w None no_pend → enabled w ev → safe (run_event fuel w ev) (λ w', inv w' None no_pend).
Proof.
  intros Hinv Hen. destruct ev as [o fsz ctx getmach t r|a r|a o r|r].
  - by apply new_spec.
  - destruct Hen as (s & st & d & Ha & Hlive & Hcur & Hst & Hf).
    destruct (waiting w a s st d) as (Hq & stk & Hran); [done..|].
    eapply wake_spec; [by apply inv_weaken|done|done].
  - by apply op_spec.
  - cbn [run_event]. destruct (null_jobs w) as [|a rest] eqn:En; [done|].
    destruct (inv_null _ _ _ Hinv a) as (s & Ha & H0); [rewrite En; by left|].
    pose proof (inv_nodup _ _ _ Hinv) as Hnd. rewrite En in Hnd. apply NoDup_cons in Hnd as [Hnd Hnd'].
    destruct (inv_wait _ _ _ Hinv a s Ha) as [(_ & _ & _ & Hno)|(st & stk & d & Hran & Hst & Hor)];
      [done|rewrite En in Hno; by destruct Hno; left|].
    eapply (wake_spec fuel (pop_null w) a s); [|split; [done|split; [done|cbn; by rewrite En]]|done].
    destruct Hinv as [Hb Hp Hn Hnull Hw Hfi].
    assert (∀ b, b ≠ a → b ∈ null_jobs w ↔ b ∈ rest) as Hsub.
    { intros b Hne. rewrite En, elem_of_cons. naive_solver. }
    split; cbn [pop_null smcbs null_jobs finished]; rewrite ?En; cbn [tail]; try done.
    + intros b Hin. apply Hnull. rewrite En. by right.
    + intros b t Hbt Hne. assert (b ≠ a) as Hne' by congruence.
      destruct (Hw b t Hbt) as [(? & ? & ? & Hno)|(st1 & stk1 & d1 & Hr1 & Hs1 & Ho1)]; [done|left|right].
      * split; [done|]. split; [done|]. split; [done|]. by rewrite <- Hsub.
      * exists st1, stk1, d1. split; [done|]. split; [done|]. by rewrite <- Hsub.
Qed.

Lemma engine_inv w0 w : initial w0 → rtc sm_step w0 w → inv w None no_pend.
Proof.
  intros H0 Hr. apply inv_initial in H0. induction Hr as [|w1 w2 w3 (fuel & ev & Hen & E) _ IH]; [done|].
  apply IH. pose proof (event_spec fuel w1 ev H0 Hen) as Hsafe. by rewrite E in Hsafe.
Qed.

Lemma event_safe w0 w fuel ev :
  initial w0 → rtc sm_step w0 w → enabled w ev →
  run_event fuel w ev = Fault OutOfFuel ∨ ∃ w', run_event fuel w ev = Done w'.
Proof.
  intros H0 Hr Hen. pose proof (event_spec fuel w ev (engine_inv _ _ H0 Hr) Hen) as Hsafe.
  destruct (run_event fuel w ev) as [w'|[]]; by eauto.
Qed.

Lemma finished_activation w0 w a root tr :
  initial w0 → rtc sm_step w0 w → (a, root, tr) ∈ finished w →
  ∃ st res, root = Some st ∧ activation prog st tr res.
Proof. intros H0 Hr. apply (inv_finished _ _ _ (engine_inv _ _ H0 Hr)). Qed.

(** * Theorems *)

(** C3. However jobs complete and null jobs are taken, no call of the engine fails
    an assertion or touches a block that was freed: the stack of states does
    not overflow, no table is read past its end, no frame is followed out of
    its list, and no child is counted that does not run.  The hypotheses are
    that the tables are well formed, that the actions keep their contract, and
    that memory is not exhausted. *)
Theorem engine_safe w0 w fuel ev :
  initial w0 → rtc sm_step w0 w → enabled w ev →
  run_event fuel w ev = Fault OutOfFuel ∨ ∃ w', run_event fuel w ev = Done w'.
Proof. apply event_safe. Qed.

(** C4. Parallel children are joined: between events every block counts exactly the
    children that it has; a block in a parallel state has children, or else
    exactly one null job in the queue that will resume it; and a block in any
    other state has neither.  So the parent is resumed once, after its last
    child, in whatever order the children finish, also when all of them finish
    while they are being started. *)
Theorem engine_joins w0 w :
  initial w0 → rtc sm_step w0 w →
  NoDup (null_jobs w) ∧
  ∀ a s, smcbs w !! a = Some s →
    children_running s = Z.of_nat (nchildren (smcbs w) a) ∧
    (h_done s = false → ∃ st d, current_state s = Some st ∧ state_of prog st = Some d ∧
       (flag d = SM_PJMP ∧ (nchildren (smcbs w) a ≠ 0%nat ∧ a ∉ null_jobs w ∨
                            nchildren (smcbs w) a = 0%nat ∧ a ∈ null_jobs w) ∨
        flag d = SM_RUN ∧ nchildren (smcbs w) a = 0%nat ∧ a ∉ null_jobs w)).
Proof.
  intros H0 Hr. pose proof (engine_inv _ _ H0 Hr) as [Hb _ Hn Hnull Hw _]. split; [done|].
  intros a s Ha. destruct (Hb a s Ha) as [_ _ Hc _]. split; [lia|]. intros Hlive.
  destruct (Hw a s Ha) as [(? & _)|(st & stk & d & [(tr & _ & [[Hcur _ _ _] _ _ _ _]) _] & Hst & Hor)];
    [done|congruence|].
  exists st, d. split; [done|]. split; [done|].
  assert (a ∈ null_jobs w → nchildren (smcbs w) a = 0%nat) as Hz.
  { intros Hin. destruct (Hnull a Hin) as (t & Hat & H1). simplify_eq. lia. }
  destruct Hor as [[Hf [Hpos|Hin]]|(Hf & H1 & Hnin)].
  - left. split; [done|]. left. split; [lia|]. intros Hin. specialize (Hz Hin). lia.
  - left. split; [done|]. right. auto.
  - right. split; [done|]. split; [lia|done].
Qed.

(** C5. Nested machines are procedures: every block that was terminated has run, on
    its array of eight states, a run of its machine in which jumping to a
    nested machine is calling it. *)
Theorem engine_calls w0 w a root tr :
  initial w0 → rtc sm_step w0 w → (a, root, tr) ∈ finished w →
  ∃ st res, root = Some st ∧ activation prog st tr res.
Proof. apply finished_activation. Qed.

End run.

(** * Example *)

(** A parallel state 1 that starts two children, which run the state 2, and a
    last state 3 with a nested machine 4. *)
Definition ex_states (st : nat) : option (PINT_state_s nat nat nat) :=
  match st with
  | 1%nat => Some (mkStateS SM_PJMP (action_func (Some 1%nat)) (Some [mkPjmp 7 SM_NONE (Some 2%nat)])
                (Some [mkTran 0 SM_NONE (Some 3%nat); mkTran (-1) SM_NONE (Some 5%nat)]))
  | 2%nat => Some (mkStateS SM_RUN (action_func (Some 2%nat)) None (Some [mkTran (-1) SM_TERM None]))
  | 3%nat => Some (mkStateS SM_JUMP (action_nested (Some 4%nat)) None
                (Some [mkTran (-1) SM_NONE (Some 5%nat)]))
  | 4%nat => Some (mkStateS SM_RUN (action_func (Some 4%nat)) None (Some [mkTran (-1) SM_RETURN None]))
  | 5%nat => Some (mkStateS SM_RUN (action_func (Some 2%nat)) None (Some [mkTran (-1) SM_TERM None]))
  | _ => None
  end.

Definition ex_program : program nat nat nat :=
  mkProgram ex_states (λ m, match m with 1%nat | 2%nat | 4%nat => Some m | _ => None end).

(** State 1 pushes two frames; state 2 is deferred, the children end with it. *)
Definition ex_func (f : nat) (v : action_view) (r : job_status_s) (u : unit) : action_result unit :=
  match f with
  | 1%nat => mkResult SM_ACTION_COMPLETE r
      (mkFrame 7 (Some 101%positive) 0 :: mkFrame 7 (Some 102%positive) 0 ::
       [mkFrame 7 (Some 100%positive) 0]) false u
  | 2%nat => mkResult SM_ACTION_DEFERRED r (view_frames v) true u
  | _ => mkResult SM_ACTION_COMPLETE r (view_frames v) false u
  end.

Definition ex_depth (st : nat) : nat := match st with 1%nat | 3%nat => 1 | _ => 0 end.

Definition ex_term (t : unit) (s : PINT_smcb nat nat unit) (r : job_status_s) (u : unit) : bool * unit :=
  (true, u).

Definition ex_event :=
  run_event (S := nat) (M := nat) (F := nat) (T := unit) (U := unit) ex_program ex_func ex_term
    (λ _, true) fresh (λ _ u, (Some 100%positive, u)) (λ _ u, u) 50.

Definition ex_step :=
  sm_step (S := nat) (M := nat) (F := nat) (T := unit) (U := unit) ex_program ex_func ex_term
    (λ _, true) fresh (λ _ u, (Some 100%positive, u)) (λ _ u, u).

Definition ex_start : sm_event (M := nat) (T := unit) :=
  EvNew 0 8 0 (λ _, Done (Some 1%nat)) tt status_zero.

Definition ex_world (evs : list (sm_event (M := nat) (T := unit))) : exec (world nat nat unit unit) :=
  foldl (λ w ev, w ≫= λ w, ex_event w ev) (Done (mkWorld ∅ [] tt 0 [])) evs.

(** Machine [n] of [k] jumps to the next; the last one runs.  Nine calls do not
    fit on the stack. *)
Definition nested_program (k : nat) : program nat nat nat :=
  mkProgram (λ st, Some (if decide (st < k)%nat
    then mkStateS SM_JUMP (action_nested (Some (Datatypes.S st))) None (Some [mkTran (-1) SM_RETURN None])
    else mkStateS SM_RUN (action_func (Some 0%nat)) None (Some [mkTran (-1) SM_RETURN None]))) Some.

Example eight_calls_fit :
  ∃ s, PINT_state_machine_locate (S := nat) (T := unit) (nested_program 8)
    (with_op smcb_zero 0 (Some (λ _, Done (Some 0%nat))) None 0 None) = Done (1, s).
Proof. eexists. vm_compute. reflexivity. Qed.

Example nine_calls_fail :
  PINT_state_machine_locate (S := nat) (T := unit) (nested_program 9)
    (with_op smcb_zero 0 (Some (λ _, Done (Some 0%nat))) None 0 None) = Fault AssertFailed.
Proof. vm_compute. reflexivity. Qed.

Definition ex_events : list (sm_event (M := nat) (T := unit)) :=
  [ex_start; EvJob 2 status_zero; EvJob 3 status_zero; EvNull status_zero; EvJob 1 status_zero].

(** The world after the first [n] events. *)
Definition ex_after (n : nat) : world nat nat unit unit :=
  match ex_world (take n ex_events) with Done w => w | Fault _ => mkWorld ∅ [] tt 0 [] end.

Lemma ex_wf : wf_program ex_program ex_depth.
Proof.
  intros st d Hd. apply check_state_sound.
  destruct st as [|[|[|[|[|[|]]]]]]; try done; injection Hd as <-; reflexivity.
Qed.

Lemma ex_first m st :
  first_state ex_program m = Some st →
  is_Some (state_of ex_program st) ∧ (ex_depth st ≤ Z.to_nat PINT_STATE_STACK_SIZE)%nat.
Proof.
  destruct m as [|[|[|[|[|]]]]]; try done; intros [= <-]; (split; [by eexists|vm_compute; lia]).
Qed.

Lemma child_frames_sub l my fr : fr ∈ child_frames l my → fr ∈ l.
Proof.
  induction l as [|f l IH]; [done|]. cbn. case_decide; [by intros ?%elem_of_nil|].
  intros [->|Hin]%elem_of_cons; [by left|right; auto].
Qed.

Lemma ex_behaved : well_behaved ex_program ex_func.
Proof.
  split.
  - intros st d f v r u Hd Hl Ha.
    destruct st as [|[|[|[|[|[|]]]]]]; try done; injection Hd as <-; cbn in Ha; simplify_eq;
      first [by left|by right; left].
  - intros st d f v r u Hd Hl Ha Hres d' tbl t Hd' Htbl Ht.
    destruct st as [|[|[|[|[|[|]]]]]]; try done; injection Hd as <-; injection Hd' as <-;
      cbn in Ha, Htbl; simplify_eq; try (by destruct Hres as [[=]|[=]]);
      by apply list_elem_of_singleton in Ht as ->.
  - intros st d f v r u tbl fr Hd Hf Ha Htbl _ Hin%child_frames_sub.
    destruct st as [|[|[|[|[|[|]]]]]]; try done; injection Hd as <-; try done.
    cbn in Ha, Htbl. simplify_eq. exists (mkPjmp 7 SM_NONE (Some 2%nat)). split; [by left|]. left.
    by repeat (apply elem_of_cons in Hin as [->|Hin]); [..|apply elem_of_nil in Hin].
Qed.

Lemma ex_reachable n : (n ≤ 5)%nat → rtc ex_step (mkWorld ∅ [] tt 0 []) (ex_after n).
Proof.
  assert (Hstep : ∀ n ev, ex_events !! n = Some ev → enabled ex_program (ex_after n) ev →
    ex_event (ex_after n) ev = Done (ex_after (Datatypes.S n)) → ex_step (ex_after n) (ex_after (Datatypes.S n))).
  { intros m ev _ Hen E. by exists 50%nat, ev. }
  intros Hn. induction n as [|n IH]; [done|]. eapply rtc_r; [apply IH; lia|].
  destruct n as [|[|[|[|[|]]]]]; [..|lia]; (eapply Hstep; [reflexivity| |vm_compute; reflexivity]).
  - split; [done|]. by exists 1%nat, 1%nat.
  - do 3 eexists. do 4 (split; [vm_compute; reflexivity|]). vm_compute. reflexivity.
  - do 3 eexists. do 4 (split; [vm_compute; reflexivity|]). vm_compute. reflexivity.
  - done.
  - do 3 eexists. do 4 (split; [vm_compute; reflexivity|]). vm_compute. reflexivity.
Qed.

Lemma ex_initial : initial (mkWorld (S := nat) (M := nat) (T := unit) ∅ [] tt 0 []).
Proof. done. Qed.

Lemma fresh_new (X : gset positive) : fresh X ∉ X.
Proof. apply is_fresh. Qed.

Lemma engine_safe_witness :
  ex_event (ex_after 3) (EvNull status_zero) = Fault OutOfFuel ∨
  ∃ w', ex_event (ex_after 3) (EvNull status_zero) = Done w'.
Proof.
  apply (engine_safe ex_program ex_func ex_term (λ _, true) fresh (λ _ u, (Some 100%positive, u))
    (λ _ u, u) ex_depth ex_wf ex_first ex_behaved (λ _, eq_refl) fresh_new _ (ex_after 3) 50
    (EvNull status_zero) ex_initial (ex_reachable 3 ltac:(lia)) I).
Defined.

Lemma engine_joins_witness :
  NoDup (null_jobs (ex_after 3)) ∧
  ∀ a s, smcbs (ex_after 3) !! a = Some s →
    children_running s = Z.of_nat (nchildren (smcbs (ex_after 3)) a) ∧
    (h_done s = false → ∃ st d, current_state s = Some st ∧ state_of ex_program st = Some d ∧
       (flag d = SM_PJMP ∧ (nchildren (smcbs (ex_after 3)) a ≠ 0%nat ∧ a ∉ null_jobs (ex_after 3) ∨
                            nchildren (smcbs (ex_after 3)) a = 0%nat ∧ a ∈ null_jobs (ex_after 3)) ∨
        flag d = SM_RUN ∧ nchildren (smcbs (ex_after 3)) a = 0%nat ∧ a ∉ null_jobs (ex_after 3))).
Proof.
  apply (engine_joins ex_program ex_func ex_term (λ _, true) fresh (λ _ u, (Some 100%positive, u))
    (λ _ u, u) ex_depth ex_wf ex_first ex_behaved (λ _, eq_refl) fresh_new _ (ex_after 3) ex_initial
    (ex_reachable 3 ltac:(lia))).
Defined.

Lemma engine_calls_witness :
  ∃ st res, Some 1%nat = Some st ∧ activation ex_program st [1; 4; 5]%nat res.
Proof.
  apply (engine_calls ex_program ex_func ex_term (λ _, true) fresh (λ _ u, (Some 100%positive, u))
    (λ _ u, u) ex_depth ex_wf ex_first ex_behaved (λ _, eq_refl) fresh_new _ (ex_after 5) 1%positive
    (Some 1%nat) [1; 4; 5]%nat ex_initial (ex_reachable 5 ltac:(lia))).
  vm_compute. right. right. left.
Defined.
