(* ===== verification/StateMachineEvents.v ===== *)
(** What a machine does on every path.

    Some actions are events (sending a response, for example).  [labels] gives
    for a state the events of every run from it to the end of its machine; a
    table of labels that is consistent with the transitions, which can be
    tested, is right for all runs, however long, whatever the actions return. *)

From stdpp Require Import base list gmap.
From S2P Require Import Prelude StateMachine StateMachineSpec.

Section events.
Context {S M F E : Type} `{!EqDecision E}.
Context (prog : program S M F).
Context (mark : F → option E).

(** The event of a state. *)
Definition event_of (st : S) : list E :=
  match state_of prog st with
  | Some d => match flag d, action d with
              | (SM_RUN | SM_PJMP), action_func (Some f) => match mark f with Some e => [e] | None => [] end
              | _, _ => []
              end
  | None => []
  end.

Definition events (tr : list S) : list E := concat (event_of <$> tr).

(** [labels st] are the events from [st] on; [returns st] that the machine does
    not terminate from [st] on, but returns. *)
Context (labels : S → option (list E)) (returns : S → bool).

(** The events of [st] itself, the nested machine included. *)
Definition own (st : S) : option (list E) :=
  d ← state_of prog st;
  match flag d, action d with
  | (SM_RUN | SM_PJMP), _ => Some (event_of st)
  | SM_JUMP, action_nested (Some m) =>
      f ← first_state prog m;
      if returns f then labels f else None
  | _, _ => None
  end.

Definition check_label (w : list E) (o : list E) (t : PINT_tran_tbl_s S) : bool :=
  match tran_flag t with
  | SM_TERM | SM_RETURN => bool_decide (w = o)
  | _ => match next_state t ≫= labels with
         | Some w' => bool_decide (w = o ++ w')
         | None => false
         end
  end.

Definition check_returns (t : PINT_tran_tbl_s S) : bool :=
  match tran_flag t with
  | SM_TERM => false
  | SM_RETURN => true
  | _ => match next_state t with Some st' => returns st' | None => false end
  end.

Definition nested_returns (d : PINT_state_s S M F) : bool :=
  match flag d, action d with
  | SM_JUMP, action_nested (Some m) =>
      match first_state prog m with Some f => returns f | None => false end
  | _, _ => true
  end.

(** The labels of the state agree with those of its successors. *)
Definition check_events (st : S) (d : PINT_state_s S M F) : bool :=
  match labels st with
  | Some w => match own st, trtbl d with
              | Some o, Some tbl => forallb (check_label w o) tbl
              | _, _ => false
              end
  | None => true
  end &&
  (if returns st
   then nested_returns d && match trtbl d with Some tbl => forallb check_returns tbl | None => false end
   else true).

Context (Hcheck : ∀ st d, state_of prog st = Some d → check_events st d = true).

Lemma find_transition_in (tbl : list (PINT_tran_tbl_s S)) code t :
  find_transition tbl code = Done t → t ∈ tbl.
Proof.
  induction tbl as [|t' tbl IH]; [done|]. cbn. repeat case_decide; try (intros [= ->]; by left).
  intros H'. right. by apply IH.
Qed.

(** The transition that is taken passes the tests. *)
Lemma selects_checked st code t :
  selects prog st code t →
  (∀ w, labels st = Some w → ∃ o, own st = Some o ∧ check_label w o t = true) ∧
  (returns st = true → check_returns t = true).
Proof.
  intros (d & tbl & Hd & Ht & Hf%find_transition_in). specialize (Hcheck st d Hd).
  unfold check_events in Hcheck. apply andb_prop in Hcheck as [Hl Hr]. rewrite Ht in Hl, Hr. split.
  - intros w Hw. rewrite Hw in Hl. destruct (own st) as [o|]; [|done]. exists o. split; [done|].
    by apply (proj1 (forallb_forall _ _) Hl), list_elem_of_In.
  - intros Hret. rewrite Hret in Hr. apply andb_prop in Hr as [_ Hr].
    by apply (proj1 (forallb_forall _ _) Hr), list_elem_of_In.
Qed.

Lemma check_label_next w o t st' :
  check_label w o t = true → tran_flag t ≠ SM_TERM → tran_flag t ≠ SM_RETURN →
  next_state t = Some st' → ∃ w', labels st' = Some w' ∧ w = o ++ w'.
Proof.
  intros Hc Ht Hr Hn. assert (match labels st' with
    | Some w' => bool_decide (w = o ++ w') | None => false end = true) as Hc'.
  { unfold check_label in Hc. rewrite Hn in Hc. cbn in Hc. by destruct (tran_flag t). }
  destruct (labels st') as [w'|]; [|done]. exists w'. split; [done|]. by apply bool_decide_eq_true in Hc'.
Qed.

Lemma check_returns_next t st' :
  check_returns t = true → tran_flag t ≠ SM_TERM → tran_flag t ≠ SM_RETURN →
  next_state t = Some st' → returns st' = true.
Proof.
  intros Hc Ht Hr Hn. unfold check_returns in Hc. rewrite Hn in Hc. by destruct (tran_flag t).
Qed.

Lemma first_terminates_returns st : first_terminates prog st → returns st = false.
Proof.
  intros (d & t0 & tbl & Hd & Ht & Hf). specialize (Hcheck st d Hd).
  apply andb_prop in Hcheck as [_ Hr]. destruct (returns st); [|done]. rewrite Ht in Hr.
  apply andb_prop in Hr as [_ [Hr _]%andb_prop]. unfold check_returns in Hr. by rewrite Hf in Hr.
Qed.

Lemma first_terminates_label st w :
  first_terminates prog st → labels st = Some w → own st = Some w.
Proof.
  intros (d & t0 & tbl & Hd & Ht & Hf) Hw. specialize (Hcheck st d Hd).
  apply andb_prop in Hcheck as [Hl _]. rewrite Hw, Ht in Hl. destruct (own st) as [o|]; [|done].
  apply andb_prop in Hl as [Hl _]. unfold check_label in Hl. rewrite Hf in Hl.
  by apply bool_decide_eq_true in Hl as ->.
Qed.

(** A machine that returns, and the nested machine of its states. *)
Lemma jumps_returns st f : jumps prog st f → returns st = true → returns f = true.
Proof.
  intros (d & m & Hd & Hj & Ha & Hf) Hr. specialize (Hcheck st d Hd).
  apply andb_prop in Hcheck as [_ Hc]. rewrite Hr in Hc. apply andb_prop in Hc as [Hc _].
  unfold nested_returns in Hc. by rewrite Hj, Ha, Hf in Hc.
Qed.

Lemma jumps_own st f o : jumps prog st f → own st = Some o → returns f = true ∧ labels f = Some o.
Proof.
  intros (d & m & Hd & Hj & Ha & Hf). unfold own. rewrite Hd. cbn. rewrite Hj, Ha. cbn. rewrite Hf. cbn.
  by destruct (returns f).
Qed.

Lemma leaf_own st o : is_leaf prog st → own st = Some o → o = event_of st.
Proof.
  intros (d & Hd & Hl). unfold own. rewrite Hd. cbn. destruct Hl as [-> | ->]; by intros [= <-].
Qed.

Lemma events_app tr tr' : events (tr ++ tr') = events tr ++ events tr'.
Proof. unfold events. by rewrite fmap_app, concat_app. Qed.

(** The labels are right. *)
Lemma labels_sound :
  (∀ st tr res, activation prog st tr res →
     (returns st = true → res ≠ Terminated) ∧ (∀ w, labels st = Some w → events tr = w)) ∧
  (∀ st code tr res, follows prog st code tr res →
     (returns st = true → res ≠ Terminated) ∧
     (∀ w, labels st = Some w → ∃ o, own st = Some o ∧ w = o ++ events tr)).
Proof.
  apply activation_follows_ind.
  - intros st code tr res Hleaf Hf [IHr IHl]. split; [done|]. intros w Hw.
    destruct (IHl w Hw) as (o & Ho & ->). by rewrite (leaf_own st o Hleaf Ho).
  - intros st f tr Hj Ha [IHr IHl]. split.
    + intros Hr. apply IHr. by eapply jumps_returns.
    + intros w Hw. exfalso. pose proof Hj as (d & _ & Hd & _).
      pose proof (Hcheck st d Hd) as [Hl _]%andb_prop. rewrite Hw in Hl.
      destruct (own st) as [o|] eqn:Ho; [|done].
      destruct (jumps_own st f o Hj Ho) as [Hr _]. by apply IHr.
  - intros st f tr code Hj Ha [IHr IHl] Hfirst. split.
    + intros Hr. rewrite (first_terminates_returns st Hfirst) in Hr. done.
    + intros w Hw. pose proof (first_terminates_label st w Hfirst Hw) as Ho.
      destruct (jumps_own st f w Hj Ho) as [_ Hlf]. auto.
  - intros st f tr code tr' res Hj Ha [IHr IHl] Hfirst Hf [IHr' IHl']. split; [done|].
    intros w Hw. destruct (IHl' w Hw) as (o & Ho & ->).
    destruct (jumps_own st f o Hj Ho) as [_ Hlf]. rewrite events_app. by rewrite (IHl o Hlf).
  - intros st code t Hs Ht. destruct (selects_checked st code t Hs) as [Hl Hr]. split.
    + intros Hret. specialize (Hr Hret). unfold check_returns in Hr. by rewrite Ht in Hr.
    + intros w Hw. destruct (Hl w Hw) as (o & Ho & Hc). exists o. split; [done|].
      unfold check_label in Hc. rewrite Ht in Hc. apply bool_decide_eq_true in Hc as ->.
      unfold events. cbn. by rewrite app_nil_r.
  - intros st code t Hs Ht. destruct (selects_checked st code t Hs) as [Hl Hr]. split; [done|].
    intros w Hw. destruct (Hl w Hw) as (o & Ho & Hc). exists o. split; [done|].
    unfold check_label in Hc. rewrite Ht in Hc. apply bool_decide_eq_true in Hc as ->.
    unfold events. cbn. by rewrite app_nil_r.
  - intros st code t st' tr res Hs Ht Hr Hn Ha [IHr IHl].
    destruct (selects_checked st code t Hs) as [Hl Hre]. split.
    + intros Hret. apply IHr. by eapply check_returns_next; eauto.
    + intros w Hw. destruct (Hl w Hw) as (o & Ho & Hc). exists o. split; [done|].
      destruct (check_label_next w o t st' Hc Ht Hr Hn) as (w' & Hw' & ->). by rewrite (IHl w' Hw').
Qed.

End events.
