(* ===== verification/Statecomp.v ===== *)
(** The translator of state machine descriptions
    (src/src/common/statecomp): the grammar of parser.y over the tokens of
    scanner.l with the symbol table of statecomp.c, and the tables that the C
    code that codegen.c writes initialises. *)

From stdpp Require Import base list gmap strings.
From S2P Require Import Prelude StateMachine.

(** * Descriptions *)

Inductive return_code :=
  | SUCCESS
  | DEFAULT
  | CODE (name : string).

Inductive target :=
  | NEXT_STATE (name : string)
  | RETURN
  | TERMINATE.

Record transition := mkTransition { t_return_code : return_code; t_target : target }.

Record task := mkTask { task_return_code : return_code; task_name : string }.

Inductive state_action :=
  | ACTION_RUN (function : string)
  | ACTION_JUMP (machine : string)
  | ACTION_PJMP (function : string) (tasks : list task).

Record sm_state := mkState {
  st_name : string; st_action : state_action; st_transitions : list transition }.

Record machine := mkMachine { m_name : string; m_states : list sm_state }.

#[export] Instance return_code_eq_dec : EqDecision return_code.
Proof. solve_decision. Defined.

(** Descriptions read like the .sm files. *)
Module SmSyntax.
Declare Scope sm_scope.
Delimit Scope sm_scope with sm.
Abbreviation success := SUCCESS (only parsing).
Abbreviation default := DEFAULT (only parsing).
Abbreviation return_ := RETURN (only parsing).
Abbreviation terminate := TERMINATE (only parsing).
Abbreviation run := ACTION_RUN (only parsing).
Abbreviation jump := ACTION_JUMP (only parsing).
Abbreviation pjmp := ACTION_PJMP (only parsing).
Abbreviation state := mkState (only parsing).
Abbreviation machine_ := mkMachine (only parsing).
Coercion CODE : string >-> return_code.
Coercion NEXT_STATE : string >-> target.
Notation "c ⇒ t" := (mkTransition c t) (at level 60, only parsing) : sm_scope.
Notation "c ⇉ m" := (mkTask c m) (at level 60, only parsing) : sm_scope.
End SmSyntax.

(** * Parsing *)

Inductive token :=
  | TK_MACHINE | TK_NESTED | TK_STATE | TK_RUN | TK_PJMP | TK_JUMP | TK_RETURN | TK_TERMINATE
  | TK_SUCCESS | TK_DEFAULT | TK_LBRACE | TK_RBRACE | TK_SEMICOLON | TK_ARROW
  | TK_IDENTIFIER (name : string).

#[export] Instance token_eq_dec : EqDecision token.
Proof. solve_decision. Defined.

(** [None] is [exit(1)], after a syntax error or an error of the symbol table. *)
Definition expect (t : token) (toks : list token) : option (list token) :=
  match toks with
  | t' :: rest => if decide (t' = t) then Some rest else None
  | [] => None
  end.

Definition p_identifier (toks : list token) : option (string * list token) :=
  match toks with TK_IDENTIFIER s :: rest => Some (s, rest) | _ => None end.

Definition p_return_code (toks : list token) : option (return_code * list token) :=
  match toks with
  | TK_SUCCESS :: rest => Some (SUCCESS, rest)
  | TK_DEFAULT :: rest => Some (DEFAULT, rest)
  | TK_IDENTIFIER s :: rest => Some (CODE s, rest)
  | _ => None
  end.

Definition p_target (toks : list token) : option (target * list token) :=
  match toks with
  | TK_IDENTIFIER s :: rest => Some (NEXT_STATE s, rest)
  | TK_RETURN :: rest => Some (RETURN, rest)
  | TK_TERMINATE :: rest => Some (TERMINATE, rest)
  | _ => None
  end.

Definition starts_return_code (toks : list token) : bool :=
  match toks with (TK_SUCCESS | TK_DEFAULT | TK_IDENTIFIER _) :: _ => true | _ => false end.

(** [new_transition]: a return code is not used twice in a state. *)
Definition new_transition (ts : list transition) (rc : return_code) : bool :=
  bool_decide (rc ∈ t_return_code <$> ts).

Fixpoint p_transition_list (fuel : nat) (ts : list transition) (toks : list token)
    : option (list transition * list token) :=
  match fuel with
  | O => None
  | S fuel =>
      '(rc, toks) ← p_return_code toks;
      toks ← expect TK_ARROW toks;
      if new_transition ts rc then None else
      '(tgt, toks) ← p_target toks;
      toks ← expect TK_SEMICOLON toks;
      let ts := ts ++ [mkTransition rc tgt] in
      if starts_return_code toks then p_transition_list fuel ts toks else Some (ts, toks)
  end.

Fixpoint p_task_list (fuel : nat) (ts : list task) (toks : list token)
    : option (list task * list token) :=
  match fuel with
  | O => None
  | S fuel =>
      '(rc, toks) ← p_return_code toks;
      toks ← expect TK_ARROW toks;
      '(name, toks) ← p_identifier toks;
      toks ← expect TK_SEMICOLON toks;
      let ts := ts ++ [mkTask rc name] in
      if starts_return_code toks then p_task_list fuel ts toks else Some (ts, toks)
  end.

Definition p_state_action (fuel : nat) (toks : list token) : option (state_action * list token) :=
  match toks with
  | TK_RUN :: toks =>
      '(f, toks) ← p_identifier toks; toks ← expect TK_SEMICOLON toks; Some (ACTION_RUN f, toks)
  | TK_JUMP :: toks =>
      '(m, toks) ← p_identifier toks; toks ← expect TK_SEMICOLON toks; Some (ACTION_JUMP m, toks)
  | TK_PJMP :: toks =>
      '(f, toks) ← p_identifier toks; toks ← expect TK_LBRACE toks;
      '(ts, toks) ← p_task_list fuel [] toks;
      toks ← expect TK_RBRACE toks; Some (ACTION_PJMP f ts, toks)
  | _ => None
  end.

(** [new_state]: a name is not used twice in a machine. *)
Definition new_state (sts : list sm_state) (name : string) : bool :=
  bool_decide (name ∈ st_name <$> sts).

Fixpoint p_state_def_list (fuel : nat) (sts : list sm_state) (toks : list token)
    : option (list sm_state * list token) :=
  match fuel with
  | O => None
  | S fuel =>
      toks ← expect TK_STATE toks;
      '(name, toks) ← p_identifier toks;
      toks ← expect TK_LBRACE toks;
      if new_state sts name then None else
      '(act, toks) ← p_state_action fuel toks;
      '(ts, toks) ← p_transition_list fuel [] toks;
      toks ← expect TK_RBRACE toks;
      let sts := sts ++ [mkState name act ts] in
      match toks with
      | TK_STATE :: _ => p_state_def_list fuel sts toks
      | _ => Some (sts, toks)
      end
  end.

(** [nested] is accepted and has no meaning. *)
Definition skip_nested (toks : list token) : list token :=
  match toks with TK_NESTED :: toks => toks | _ => toks end.

Fixpoint p_state_machine_list (fuel : nat) (toks : list token) : option (list machine) :=
  match fuel with
  | O => None
  | S fuel =>
      toks ← expect TK_MACHINE (skip_nested toks);
      '(name, toks) ← p_identifier toks;
      toks ← expect TK_LBRACE toks;
      '(sts, toks) ← p_state_def_list fuel [] toks;
      toks ← expect TK_RBRACE toks;
      match toks with
      | [] => Some [mkMachine name sts]
      | _ => ms ← p_state_machine_list fuel toks; Some (mkMachine name sts :: ms)
      end
  end.

(** [terminate_path_flag]. *)
Definition has_exit (ms : list machine) : bool :=
  existsb (λ m, existsb (λ s, existsb (λ t, match t_target t with
                                            | NEXT_STATE _ => false
                                            | _ => true
                                            end) (st_transitions s)) (m_states m)) ms.

(** Every rule consumes a token. *)
Definition statecomp (toks : list token) : option (list machine) :=
  ms ← p_state_machine_list (S (length toks)) toks;
  if has_exit ms then Some ms else None.

(** * Code generation *)

(** A state is a static object of its file, as is an action; a machine has
    external linkage. *)
Abbreviation sid := (string * string)%type.

(** A description: its file, the constants that the C code of the file defines
    for return codes, and its machines. *)
Record sm_file := mkFile {
  f_path : string; f_codes : list (string * Z); f_machines : list machine }.

Fixpoint assoc {A} (k : string) (l : list (string * A)) : option A :=
  match l with
  | [] => None
  | (k', v) :: rest => if decide (k = k') then Some v else assoc k rest
  end.

Abbreviation sm_table := (PINT_state_s sid string sid).

(** The C compiler rejects what is not declared. *)
Definition gen_return_code (codes : list (string * Z)) (rc : return_code) : option Z :=
  match rc with SUCCESS => Some 0 | DEFAULT => Some (-1) | CODE s => assoc s codes end.

Definition gen_next_state (path : string) (declared : list string) (t : target)
    : option (PINT_state_code * option sid) :=
  match t with
  | NEXT_STATE s => if decide (s ∈ declared) then Some (SM_NONE, Some (path, s)) else None
  | RETURN => Some (SM_RETURN, None)
  | TERMINATE => Some (SM_TERM, None)
  end.

Definition gen_transition (path : string) (codes : list (string * Z)) (declared : list string)
    (t : transition) : option (PINT_tran_tbl_s sid) :=
  v ← gen_return_code codes (t_return_code t);
  '(fl, nx) ← gen_next_state path declared (t_target t);
  Some (mkTran v fl nx).

Definition gen_task (codes : list (string * Z)) (t : task) : option (PINT_pjmp_tbl_s string) :=
  v ← gen_return_code codes (task_return_code t);
  Some (mkPjmp v SM_NONE (Some (task_name t))).

Definition gen_state (path : string) (codes : list (string * Z)) (declared : list string)
    (s : sm_state) : option (sid * sm_table) :=
  tr ← mapM (gen_transition path codes declared) (st_transitions s);
  match st_action s with
  | ACTION_RUN f =>
      Some ((path, st_name s), mkStateS SM_RUN (action_func (Some (path, f))) None (Some tr))
  | ACTION_PJMP f ts =>
      pj ← mapM (gen_task codes) ts;
      Some ((path, st_name s), mkStateS SM_PJMP (action_func (Some (path, f))) (Some pj) (Some tr))
  | ACTION_JUMP m =>
      Some ((path, st_name s), mkStateS SM_JUMP (action_nested (Some m)) None (Some tr))
  end.

(** The states of a file, given those that are declared already, and the first
    states of its machines. *)
Fixpoint gen_machines (path : string) (codes : list (string * Z)) (declared : list string)
    (ms : list machine) : option (list (sid * sm_table) * list (string * sid)) :=
  match ms with
  | [] => Some ([], [])
  | m :: rest =>
      let declared := declared ++ (st_name <$> m_states m) in
      sts ← mapM (gen_state path codes declared) (m_states m);
      first ← head (m_states m);
      '(sts', fs) ← gen_machines path codes declared rest;
      Some (sts ++ sts', (m_name m, (path, st_name first)) :: fs)
  end.

Definition gen_file (f : sm_file) : option (list (sid * sm_table) * list (string * sid)) :=
  gen_machines (f_path f) (f_codes f) [] (f_machines f).

(** All files, linked. *)
Fixpoint gen_files (fs : list sm_file) : option (list (sid * sm_table) * list (string * sid)) :=
  match fs with
  | [] => Some ([], [])
  | f :: rest =>
      '(sts, ms) ← gen_file f;
      '(sts', ms') ← gen_files rest;
      Some (sts ++ sts', ms ++ ms')
  end.

(** * Printing *)

Definition pr_return_code (rc : return_code) : token :=
  match rc with SUCCESS => TK_SUCCESS | DEFAULT => TK_DEFAULT | CODE s => TK_IDENTIFIER s end.

Definition pr_target (t : target) : token :=
  match t with NEXT_STATE s => TK_IDENTIFIER s | RETURN => TK_RETURN | TERMINATE => TK_TERMINATE end.

Definition pr_transition (t : transition) : list token :=
  [pr_return_code (t_return_code t); TK_ARROW; pr_target (t_target t); TK_SEMICOLON].

Definition pr_task (t : task) : list token :=
  [pr_return_code (task_return_code t); TK_ARROW; TK_IDENTIFIER (task_name t); TK_SEMICOLON].

Definition pr_action (a : state_action) : list token :=
  match a with
  | ACTION_RUN f => [TK_RUN; TK_IDENTIFIER f; TK_SEMICOLON]
  | ACTION_JUMP m => [TK_JUMP; TK_IDENTIFIER m; TK_SEMICOLON]
  | ACTION_PJMP f ts => TK_PJMP :: TK_IDENTIFIER f :: TK_LBRACE :: concat (pr_task <$> ts) ++ [TK_RBRACE]
  end.

Definition pr_state (s : sm_state) : list token :=
  TK_STATE :: TK_IDENTIFIER (st_name s) :: TK_LBRACE :: pr_action (st_action s) ++
  concat (pr_transition <$> st_transitions s) ++ [TK_RBRACE].

Definition pr_machine (nested : bool) (m : machine) : list token :=
  (if nested then [TK_NESTED] else []) ++
  TK_MACHINE :: TK_IDENTIFIER (m_name m) :: TK_LBRACE :: concat (pr_state <$> m_states m) ++
  [TK_RBRACE].

Definition pr_machines (nested : string → bool) (ms : list machine) : list token :=
  concat ((λ m, pr_machine (nested (m_name m)) m) <$> ms).

(** * Round trip *)

(** What the symbol table accepts. *)
Definition state_ok (s : sm_state) : Prop :=
  st_transitions s ≠ [] ∧ NoDup (t_return_code <$> st_transitions s) ∧
  match st_action s with ACTION_PJMP _ ts => ts ≠ [] | _ => True end.

Definition machine_ok (m : machine) : Prop :=
  m_states m ≠ [] ∧ NoDup (st_name <$> m_states m) ∧ Forall state_ok (m_states m).

Lemma p_return_code_pr rc toks : p_return_code (pr_return_code rc :: toks) = Some (rc, toks).
Proof. by destruct rc. Qed.

Lemma p_target_pr t toks : p_target (pr_target t :: toks) = Some (t, toks).
Proof. by destruct t. Qed.

Lemma starts_pr rc toks : starts_return_code (pr_return_code rc :: toks) = true.
Proof. by destruct rc. Qed.

Lemma p_transition_list_pr fuel acc ts toks :
  ts ≠ [] → NoDup (t_return_code <$> acc ++ ts) → starts_return_code toks = false →
  (length ts ≤ fuel)%nat →
  p_transition_list fuel acc (concat (pr_transition <$> ts) ++ toks) = Some (acc ++ ts, toks).
Proof.
  revert fuel acc. induction ts as [|t ts IH]; intros fuel acc Hne Hnd Htoks Hf; [done|].
  destruct fuel as [|fuel]; [cbn in Hf; lia|]. destruct t as [rc tgt].
  cbn [fmap list_fmap concat pr_transition app p_transition_list t_return_code t_target].
  rewrite p_return_code_pr. cbn [mbind option_bind expect]. rewrite decide_True by done.
  cbn [mbind option_bind]. unfold new_transition. rewrite bool_decide_false.
  2:{ rewrite fmap_app in Hnd. apply NoDup_app in Hnd as (_ & Hdis & _). intros Hin.
      apply (Hdis rc Hin). by left. }
  rewrite p_target_pr. cbn [mbind option_bind expect]. rewrite decide_True by done.
  cbn [mbind option_bind]. destruct ts as [|t' ts].
  - cbn [fmap list_fmap concat app]. by rewrite Htoks.
  - assert (starts_return_code (concat (pr_transition <$> t' :: ts) ++ toks) = true) as ->
      by (destruct t'; apply starts_pr).
    rewrite IH; [by rewrite <- (assoc_L (++))|done|by rewrite <- (assoc_L (++))|done|cbn in *; lia].
Qed.

Lemma p_task_list_pr fuel acc ts toks :
  ts ≠ [] → starts_return_code toks = false → (length ts ≤ fuel)%nat →
  p_task_list fuel acc (concat (pr_task <$> ts) ++ toks) = Some (acc ++ ts, toks).
Proof.
  revert fuel acc. induction ts as [|t ts IH]; intros fuel acc Hne Htoks Hf; [done|].
  destruct fuel as [|fuel]; [cbn in Hf; lia|]. destruct t as [rc name].
  cbn [fmap list_fmap concat pr_task app p_task_list task_return_code task_name].
  rewrite p_return_code_pr. cbn [mbind option_bind expect]. rewrite decide_True by done.
  cbn [mbind option_bind p_identifier expect]. rewrite decide_True by done.
  cbn [mbind option_bind]. destruct ts as [|t' ts].
  - cbn [fmap list_fmap concat app]. by rewrite Htoks.
  - assert (starts_return_code (concat (pr_task <$> t' :: ts) ++ toks) = true) as ->
      by (destruct t'; apply starts_pr).
    rewrite IH; [by rewrite <- (assoc_L (++))|done|done|cbn in *; lia].
Qed.

Lemma p_action_pr fuel a toks :
  match a with ACTION_PJMP _ ts => ts ≠ [] ∧ (length ts ≤ fuel)%nat | _ => True end →
  p_state_action fuel (pr_action a ++ toks) = Some (a, toks).
Proof.
  destruct a as [f|m|f ts]; intros H; [done|done|].
  cbn [pr_action app p_state_action p_identifier mbind option_bind expect].
  rewrite decide_True by done. cbn [mbind option_bind]. rewrite <- (assoc_L (++)).
  rewrite p_task_list_pr; [|tauto|done|tauto]. done.
Qed.

Lemma length_concat_pr {A} (pr : A → list token) l :
  (∀ x, (1 ≤ length (pr x))%nat) → (length l ≤ length (concat (pr <$> l)))%nat.
Proof.
  intros H. induction l as [|x l IH]; [done|]. cbn. rewrite length_app. specialize (H x). lia.
Qed.

Lemma p_state_def_list_pr fuel acc sts toks :
  sts ≠ [] → NoDup (st_name <$> acc ++ sts) → Forall state_ok sts →
  (∀ t rest, toks = t :: rest → t ≠ TK_STATE) →
  (length (concat (pr_state <$> sts)) ≤ fuel)%nat →
  p_state_def_list fuel acc (concat (pr_state <$> sts) ++ toks) = Some (acc ++ sts, toks).
Proof.
  revert fuel acc. induction sts as [|s sts IH]; intros fuel acc Hne Hnd Hok Htoks Hf; [done|].
  destruct s as [name act ts]. apply Forall_cons in Hok as [(Hts & Hnts & Hact) Hok]. cbn in Hts, Hnts, Hact.
  destruct fuel as [|fuel]; [cbn in Hf; lia|].
  cbn [fmap list_fmap concat pr_state app st_name st_action st_transitions length] in Hf |- *.
  rewrite !length_app in Hf. cbn [length] in Hf.
  pose proof (length_concat_pr pr_transition ts ltac:(intros; cbn; lia)) as Hlt.
  rewrite <- !(assoc_L (++)). cbn [p_state_def_list expect]. rewrite decide_True by done.
  cbn [mbind option_bind p_identifier expect]. rewrite decide_True by done. cbn [mbind option_bind].
  unfold new_state. rewrite bool_decide_false.
  2:{ rewrite fmap_app in Hnd. apply NoDup_app in Hnd as (_ & Hdis & _). intros Hin.
      apply (Hdis name Hin). by left. }
  rewrite p_action_pr.
  2:{ destruct act as [| |f tasks]; [done|done|]. split; [done|]. cbn in Hf. rewrite length_app in Hf.
      pose proof (length_concat_pr pr_task tasks ltac:(intros; cbn; lia)). lia. }
  cbn [mbind option_bind]. rewrite p_transition_list_pr; [|done|done|done|lia].
  cbn [mbind option_bind app expect]. rewrite decide_True by done. cbn [mbind option_bind].
  assert (length (concat (pr_state <$> sts)) ≤ fuel)%nat as Hf' by lia.
  destruct sts as [|s' sts].
  - cbn [fmap list_fmap concat app]. destruct toks as [|t rest]; [done|].
    specialize (Htoks t rest eq_refl). by destruct t.
  - destruct s' as [name' act' ts']. cbn [fmap list_fmap concat pr_state app].
    change (TK_STATE :: ?x) with ([TK_STATE] ++ x).
    specialize (IH fuel (acc ++ [mkState name act ts])). cbn [fmap list_fmap concat pr_state app] in IH.
    cbn [app]. rewrite IH; [by rewrite <- (assoc_L (++))|done|by rewrite <- (assoc_L (++))|done|done|exact Hf'].
Qed.

Lemma p_machines_pr fuel nested ms :
  ms ≠ [] → Forall machine_ok ms → (length (pr_machines nested ms) ≤ fuel)%nat →
  p_state_machine_list fuel (pr_machines nested ms) = Some ms.
Proof.
  unfold pr_machines. revert fuel. induction ms as [|m ms IH]; intros fuel Hne Hok Hf; [done|].
  destruct m as [name sts]. apply Forall_cons in Hok as [(Hsts & Hnd & Hall) Hok]. cbn in Hsts, Hnd, Hall.
  cbn [fmap list_fmap concat] in Hf |- *. unfold pr_machine at 1 in Hf. unfold pr_machine at 1.
  cbn [m_name m_states] in Hf |- *. rewrite !length_app in Hf. cbn [length] in Hf.
  rewrite length_app in Hf. cbn [length] in Hf.
  destruct fuel as [|fuel]; [lia|]. cbn [p_state_machine_list].
  assert (skip_nested (((if nested name then [TK_NESTED] else []) ++
      TK_MACHINE :: TK_IDENTIFIER name :: TK_LBRACE :: concat (pr_state <$> sts) ++ [TK_RBRACE]) ++
      concat ((λ m, pr_machine (nested (m_name m)) m) <$> ms)) =
    TK_MACHINE :: TK_IDENTIFIER name :: TK_LBRACE :: concat (pr_state <$> sts) ++ TK_RBRACE ::
      concat ((λ m, pr_machine (nested (m_name m)) m) <$> ms)) as ->.
  { destruct (nested name); cbn; by rewrite <- (assoc_L (++)). }
  cbn [expect]. rewrite decide_True by done. cbn [mbind option_bind p_identifier expect].
  rewrite decide_True by done. cbn [mbind option_bind].
  rewrite p_state_def_list_pr; [|done|done|done|by intros ?? [= <- _]|lia].
  cbn [mbind option_bind app expect]. rewrite decide_True by done. cbn [mbind option_bind].
  destruct ms as [|m' ms]; [done|].
  pose proof (IH fuel ltac:(done) Hok ltac:(lia)) as IH'.
  destruct (concat ((λ m, pr_machine (nested (m_name m)) m) <$> m' :: ms)) as [|t rest] eqn:E.
  { cbn in E. unfold pr_machine in E. by destruct (nested (m_name m')). }
  by rewrite IH'.
Qed.

(** Whatever machines are written down, with or without the keyword [nested],
    the translator reads them back, provided that states and return codes are
    not used twice and that there is a way out. *)
Theorem statecomp_roundtrip nested ms :
  ms ≠ [] → Forall machine_ok ms → has_exit ms = true →
  statecomp (pr_machines nested ms) = Some ms.
Proof.
  intros Hne Hok Hex. unfold statecomp. rewrite p_machines_pr by (done || lia).
  cbn [mbind option_bind]. by rewrite Hex.
Qed.

(** * Example *)

Definition retry_machine : machine :=
  mkMachine "retry_sm"
    [mkState "post" (ACTION_RUN "post")
       [mkTransition (CODE "AGAIN") (NEXT_STATE "post"); mkTransition SUCCESS RETURN;
        mkTransition DEFAULT TERMINATE];
     mkState "share" (ACTION_PJMP "share" [mkTask (CODE "LOCAL") "work_sm"])
       [mkTransition DEFAULT (NEXT_STATE "post")]].

Lemma retry_ok : Forall machine_ok [retry_machine].
Proof.
  constructor; [|constructor]. split; [done|]. split; [vm_decide|].
  constructor; [|constructor; [|constructor]].
  - split; [done|]. split; [vm_decide|done].
  - split; [done|]. split; [vm_decide|done].
Qed.

Lemma statecomp_roundtrip_witness :
  statecomp (pr_machines (λ _, true) [retry_machine]) = Some [retry_machine].
Proof. apply (statecomp_roundtrip (λ _, true) [retry_machine]); [done|apply retry_ok|reflexivity]. Defined.
