(* ===== verification/MachinesCommon.v ===== *)
(** The state machines of the client and the server both (the .sm files of src/src/common/misc that are built),
    as statecomp reads them.  The actions of
    msgpairarray.sm are in Msgpair.v. *)

From stdpp Require Import base list strings.
From S2P Require Import Prelude StateMachine Statecomp.
Import SmSyntax.

#[local] Open Scope string_scope.
#[local] Open Scope sm_scope.

Definition msgpairarray_sm : sm_file := mkFile "common/misc/msgpairarray.sm"
  [("MSGPAIRS_COMPLETE", 190%Z); ("MSGPAIRS_RETRY", 191%Z); ("MSGPAIRS_RETRY_NODELAY", 192%Z)] [
  machine_ "pvfs2_msgpairarray_sm" [
    state "init" (run "msgpairarray_init") [default ⇒ "post"];
    state "post" (run "msgpairarray_post")
      ["MSGPAIRS_COMPLETE" ⇒ "completion_fn"; default ⇒ "complete"];
    state "post_retry" (run "msgpairarray_post_retry") [default ⇒ "post"];
    state "complete" (run "msgpairarray_complete")
      ["MSGPAIRS_COMPLETE" ⇒ "completion_fn"; default ⇒ "complete"];
    state "completion_fn" (run "msgpairarray_completion_fn")
      ["MSGPAIRS_RETRY" ⇒ "post_retry"; "MSGPAIRS_RETRY_NODELAY" ⇒ "post"; default ⇒ "done"];
    state "done" (run "msgpairarray_done") [default ⇒ return_]]].

Definition void_sm : sm_file := mkFile "common/misc/void.sm"
  [] [
  machine_ "pvfs2_void_sm" [
    state "void_action_state" (run "void_action") [default ⇒ terminate]]].

Definition common_files : list sm_file :=
  [msgpairarray_sm;
   void_sm].
