(* ===== verification/MachinesClient.v ===== *)
(** The state machines of the client (the .sm files of src/src/client/sysint that are built),
    as statecomp reads them.  The actions of the states are arguments of the engine. *)

From stdpp Require Import base list strings.
From S2P Require Import Prelude StateMachine Statecomp.
Import SmSyntax.

#[local] Open Scope string_scope.
#[local] Open Scope sm_scope.

Definition client_client_job_timer_sm : sm_file := mkFile "client/sysint/client-job-timer.sm"
  [] [
  machine_ "pvfs2_client_job_timer_sm" [
    state "do_work" (run "job_timer_do_work") [success ⇒ "do_work"; default ⇒ "error"];
    state "error" (run "job_timer_error") [default ⇒ terminate]]].

Definition client_fs_add_sm : sm_file := mkFile "client/sysint/fs-add.sm"
  [("SKIP_INTEGRITY_CHECK", 1%Z)] [
  machine_ "pvfs2_fs_add_sm" [
    state "run_nested" (jump "pvfs2_server_get_config_nested_sm") [default ⇒ "parent_cleanup"];
    state "parent_cleanup" (run "fs_add_parent_cleanup")
      ["SKIP_INTEGRITY_CHECK" ⇒ "final_cleanup";
       success ⇒ "config_integrity_checks";
       default ⇒ "final_cleanup"];
    state "config_integrity_checks" (run "pvfs2_server_prepare_fetch_config")
      ["SKIP_INTEGRITY_CHECK" ⇒ "final_cleanup";
       success ⇒ "do_config_integrity_checks";
       default ⇒ "final_cleanup"];
    state "do_config_integrity_checks" (jump "pvfs2_server_fetch_config_nested_sm")
      [default ⇒ "compare_hashes"];
    state "compare_hashes" (run "fs_add_compare_hashes") [default ⇒ "final_cleanup"];
    state "final_cleanup" (run "fs_add_final_cleanup") [default ⇒ terminate]];
  machine_ "pvfs2_server_fetch_config_nested_sm" [
    state "fetch_setup_msgpair" (run "server_fetch_config_setup_msgpair")
      [success ⇒ "fetch_xfer_msgpair"; default ⇒ "fetch_cleanup"];
    state "fetch_xfer_msgpair" (jump "pvfs2_msgpairarray_sm") [default ⇒ "fetch_cleanup"];
    state "fetch_cleanup" (run "server_fetch_config_cleanup") [default ⇒ return_]]].

Definition client_mgmt_create_dirent_sm : sm_file := mkFile "client/sysint/mgmt-create-dirent.sm"
  [] [
  machine_ "pvfs2_client_mgmt_create_dirent_sm" [
    state "init" (run "mgmt_create_dirent_init") [default ⇒ "create_dirent_get_capability"];
    state "create_dirent_get_capability" (jump "pvfs2_client_getattr_sm")
      [success ⇒ "create_dirent_setup_msgpair"; default ⇒ "cleanup"];
    state "create_dirent_setup_msgpair" (run "mgmt_create_dirent_setup_msgpair")
      [success ⇒ "create_dirent_xfer_msgpair"; default ⇒ "cleanup"];
    state "create_dirent_xfer_msgpair" (jump "pvfs2_msgpairarray_sm")
      [success ⇒ "cleanup"; default ⇒ "create_dirent_retry_or_fail"];
    state "create_dirent_retry_or_fail" (run "mgmt_create_dirent_retry_or_fail")
      [success ⇒ "create_dirent_get_capability"; default ⇒ "cleanup"];
    state "cleanup" (run "mgmt_create_dirent_cleanup") [default ⇒ terminate]]].

Definition client_mgmt_event_mon_list_sm : sm_file := mkFile "client/sysint/mgmt-event-mon-list.sm"
  [] [
  machine_ "pvfs2_client_mgmt_event_mon_list_sm" [
    state "setup_msgpair" (run "mgmt_event_mon_list_setup_msgpair")
      [success ⇒ "xfer_msgpair"; default ⇒ "cleanup"];
    state "xfer_msgpair" (jump "pvfs2_msgpairarray_sm") [default ⇒ "cleanup"];
    state "cleanup" (run "mgmt_event_mon_list_cleanup") [default ⇒ terminate]]].

Definition client_mgmt_get_dfile_array_sm : sm_file := mkFile "client/sysint/mgmt-get-dfile-array.sm"
  [] [
  machine_ "pvfs2_client_mgmt_get_dfile_array_sm" [
    state "getattr" (jump "pvfs2_client_getattr_sm") [default ⇒ "cleanup"];
    state "cleanup" (run "mgmt_get_dfile_array_cleanup") [default ⇒ terminate]]].

Definition client_mgmt_get_dirdata_array_sm : sm_file := mkFile "client/sysint/mgmt-get-dirdata-array.sm"
  [] [
  machine_ "pvfs2_client_mgmt_get_dirdata_array_sm" [
    state "getattr" (jump "pvfs2_client_getattr_sm") [default ⇒ "cleanup"];
    state "cleanup" (run "mgmt_get_dirdata_array_cleanup") [default ⇒ terminate]]].

Definition client_mgmt_get_dirdata_handle_sm : sm_file := mkFile "client/sysint/mgmt-get-dirdata-handle.sm"
  [] [
  machine_ "pvfs2_client_mgmt_get_dirdata_handle_sm" [
    state "init" (run "mgmt_get_dirdata_handle_init")
      [default ⇒ "get_dirdata_handle_setup_msgpair"];
    state "get_dirdata_handle_setup_msgpair" (run "mgmt_get_dirdata_handle_setup_msgpair")
      [success ⇒ "get_dirdata_handle_xfer_msgpair"; default ⇒ "cleanup"];
    state "get_dirdata_handle_xfer_msgpair" (jump "pvfs2_msgpairarray_sm") [default ⇒ "cleanup"];
    state "cleanup" (run "mgmt_get_dirdata_handle_cleanup") [default ⇒ terminate]]].

Definition client_mgmt_get_uid_list_sm : sm_file := mkFile "client/sysint/mgmt-get-uid-list.sm"
  [] [
  machine_ "pvfs2_client_mgmt_get_uid_list_sm" [
    state "setup_msgpair" (run "mgmt_get_uid_list_setup_msgpair")
      [success ⇒ "xfer_msgpair"; default ⇒ "cleanup"];
    state "xfer_msgpair" (jump "pvfs2_msgpairarray_sm") [default ⇒ "cleanup"];
    state "cleanup" (run "mgmt_get_uid_list_cleanup") [default ⇒ terminate]]].

Definition client_mgmt_get_user_cert_sm : sm_file := mkFile "client/sysint/mgmt-get-user-cert.sm"
  [] [
  machine_ "pvfs2_client_mgmt_get_user_cert_sm" [
    state "public_key_setup_msgpair" (run "get_user_cert_public_key_setup_msgpair")
      [success ⇒ "public_key_xfer_msgpair"; default ⇒ "cleanup"];
    state "public_key_xfer_msgpair" (jump "pvfs2_msgpairarray_sm")
      [success ⇒ "encrypt_pwd_and_key"; default ⇒ "cleanup"];
    state "encrypt_pwd_and_key" (run "get_user_cert_encrypt_pwd_and_key")
      [success ⇒ "req_setup_msgpair"; default ⇒ "cleanup"];
    state "req_setup_msgpair" (run "get_user_cert_req_setup_msgpair")
      [success ⇒ "req_xfer_msgpair"; default ⇒ "cleanup"];
    state "req_xfer_msgpair" (jump "pvfs2_msgpairarray_sm") [default ⇒ "cleanup"];
    state "cleanup" (run "get_user_cert_cleanup") [default ⇒ terminate]]].

Definition client_mgmt_iterate_handles_list_sm : sm_file := mkFile "client/sysint/mgmt-iterate-handles-list.sm"
  [] [
  machine_ "pvfs2_client_mgmt_iterate_handles_list_sm" [
    state "setup_msgpair" (run "mgmt_iterate_handles_list_setup_msgpair")
      [success ⇒ "xfer_msgpair"; default ⇒ "cleanup"];
    state "xfer_msgpair" (jump "pvfs2_msgpairarray_sm") [default ⇒ "cleanup"];
    state "cleanup" (run "mgmt_iterate_handles_list_cleanup") [default ⇒ terminate]]].

Definition client_mgmt_noop_sm : sm_file := mkFile "client/sysint/mgmt-noop.sm"
  [] [
  machine_ "pvfs2_client_mgmt_noop_sm" [
    state "setup_msgpair" (run "mgmt_noop_setup_msgpair")
      [success ⇒ "xfer_msgpair"; default ⇒ "cleanup"];
    state "xfer_msgpair" (jump "pvfs2_msgpairarray_sm") [default ⇒ "cleanup"];
    state "cleanup" (run "mgmt_noop_cleanup") [default ⇒ terminate]]].

Definition client_mgmt_perf_mon_list_sm : sm_file := mkFile "client/sysint/mgmt-perf-mon-list.sm"
  [] [
  machine_ "pvfs2_client_mgmt_perf_mon_list_sm" [
    state "setup_msgpair" (run "mgmt_perf_mon_list_setup_msgpair")
      [success ⇒ "xfer_msgpair"; default ⇒ "cleanup"];
    state "xfer_msgpair" (jump "pvfs2_msgpairarray_sm") [default ⇒ "cleanup"];
    state "cleanup" (run "mgmt_perf_mon_list_cleanup") [default ⇒ terminate]]].

Definition client_mgmt_remove_dirent_sm : sm_file := mkFile "client/sysint/mgmt-remove-dirent.sm"
  [] [
  machine_ "pvfs2_client_mgmt_remove_dirent_sm" [
    state "init" (run "mgmt_remove_dirent_init") [default ⇒ "remove_dirent_get_capability"];
    state "remove_dirent_get_capability" (jump "pvfs2_client_getattr_sm")
      [success ⇒ "remove_dirent_setup_msgpair"; default ⇒ "cleanup"];
    state "remove_dirent_setup_msgpair" (run "mgmt_remove_dirent_setup_msgpair")
      [success ⇒ "remove_dirent_xfer_msgpair"; default ⇒ "cleanup"];
    state "remove_dirent_xfer_msgpair" (jump "pvfs2_msgpairarray_sm")
      [success ⇒ "cleanup"; default ⇒ "remove_dirent_retry_or_fail"];
    state "remove_dirent_retry_or_fail" (run "mgmt_remove_dirent_retry_or_fail")
      [success ⇒ "remove_dirent_get_capability"; default ⇒ "cleanup"];
    state "cleanup" (run "mgmt_remove_dirent_cleanup") [default ⇒ terminate]]].

Definition client_mgmt_remove_object_sm : sm_file := mkFile "client/sysint/mgmt-remove-object.sm"
  [] [
  machine_ "pvfs2_client_mgmt_remove_object_sm" [
    state "init" (run "mgmt_remove_init") [default ⇒ "remove_object_get_capability"];
    state "remove_object_get_capability" (jump "pvfs2_client_getattr_sm")
      [success ⇒ "remove_object_setup_msgpair"; default ⇒ "cleanup"];
    state "remove_object_setup_msgpair" (run "mgmt_remove_object_setup_msgpair")
      [success ⇒ "remove_object_xfer_msgpair"; default ⇒ "cleanup"];
    state "remove_object_xfer_msgpair" (jump "pvfs2_msgpairarray_sm") [default ⇒ "cleanup"];
    state "cleanup" (run "mgmt_remove_cleanup") [default ⇒ terminate]]].

Definition client_mgmt_setparam_list_sm : sm_file := mkFile "client/sysint/mgmt-setparam-list.sm"
  [] [
  machine_ "pvfs2_client_mgmt_setparam_list_sm" [
    state "init" (run "mgmt_setparam_list_init") [default ⇒ "setparam_list_get_capability"];
    state "setparam_list_get_capability" (jump "pvfs2_client_getattr_sm")
      [success ⇒ "setup_msgpair"; default ⇒ "cleanup"];
    state "setup_msgpair" (run "mgmt_setparam_list_setup_msgpair")
      [success ⇒ "xfer_msgpair"; default ⇒ "cleanup"];
    state "xfer_msgpair" (jump "pvfs2_msgpairarray_sm") [default ⇒ "cleanup"];
    state "cleanup" (run "mgmt_setparam_list_cleanup") [default ⇒ terminate]]].

Definition client_mgmt_statfs_list_sm : sm_file := mkFile "client/sysint/mgmt-statfs-list.sm"
  [] [
  machine_ "pvfs2_client_mgmt_statfs_list_nested_sm" [
    state "setup_msgpair" (run "mgmt_statfs_list_setup_msgpair")
      [success ⇒ "xfer_msgpair"; default ⇒ "cleanup"];
    state "xfer_msgpair" (jump "pvfs2_msgpairarray_sm") [default ⇒ "cleanup"];
    state "cleanup" (run "mgmt_statfs_list_cleanup") [default ⇒ return_]];
  machine_ "pvfs2_client_mgmt_statfs_list_sm" [
    state "run_nested" (jump "pvfs2_client_mgmt_statfs_list_nested_sm")
      [default ⇒ "parent_cleanup"];
    state "parent_cleanup" (run "mgmt_statfs_list_parent_cleanup") [default ⇒ terminate]]].

Definition client_perf_count_timer_sm : sm_file := mkFile "client/sysint/perf-count-timer.sm"
  [("STOP_TIMER", 15%Z)] [
  machine_ "pvfs2_client_perf_count_timer_sm" [
    state "do_work" (run "perf_count_timer_do_work")
      [success ⇒ "do_work"; "STOP_TIMER" ⇒ "stop_timer"; default ⇒ "error"];
    state "stop_timer" (run "perf_count_timer_stop") [default ⇒ terminate];
    state "error" (run "perf_count_timer_error") [default ⇒ terminate]]].

Definition client_pint_sysdev_unexp_sm : sm_file := mkFile "client/sysint/pint-sysdev-unexp.sm"
  [] [
  machine_ "pvfs2_sysdev_unexp_sm" [
    state "post" (run "sysdev_unexp_post") [default ⇒ "cleanup"];
    state "cleanup" (run "sysdev_unexp_cleanup") [default ⇒ terminate]]].

Definition client_remove_sm : sm_file := mkFile "client/sysint/remove.sm"
  [("REMOVE_MUST_REMOVE_DATAFILES", 1%Z)] [
  machine_ "pvfs2_client_remove_helper_sm" [
    state "getattr_init" (run "remove_getattr_init") [default ⇒ "getattr"];
    state "getattr" (jump "pvfs2_client_getattr_sm")
      [success ⇒ "getattr_analyze_results"; default ⇒ "remove_helper_cleanup"];
    state "getattr_analyze_results" (run "remove_getattr_analyze_results")
      [success ⇒ "object_remove_setup_msgpair";
       "REMOVE_MUST_REMOVE_DATAFILES" ⇒ "datafile_remove_setup_msgpair";
       default ⇒ "remove_helper_cleanup"];
    state "datafile_remove_setup_msgpair" (run "remove_datafile_remove_setup_msgpair")
      [success ⇒ "datafile_remove_xfer_msgpair"; default ⇒ "datafile_remove_failure"];
    state "datafile_remove_xfer_msgpair" (jump "pvfs2_msgpairarray_sm")
      [success ⇒ "object_remove_setup_msgpair"; default ⇒ "datafile_remove_failure"];
    state "datafile_remove_failure" (run "remove_datafile_remove_failure")
      [default ⇒ "remove_helper_cleanup"];
    state "object_remove_setup_msgpair" (run "remove_object_remove_setup_msgpair")
      [success ⇒ "object_remove_xfer_msgpair"; default ⇒ "object_remove_failure"];
    state "object_remove_xfer_msgpair" (jump "pvfs2_msgpairarray_sm")
      [success ⇒ "remove_helper_cleanup"; default ⇒ "object_remove_failure"];
    state "object_remove_failure" (run "remove_object_remove_failure")
      [default ⇒ "remove_helper_cleanup"];
    state "remove_helper_cleanup" (run "remove_helper_cleanup") [default ⇒ return_]]].

Definition client_server_get_config_sm : sm_file := mkFile "client/sysint/server-get-config.sm"
  [] [
  machine_ "pvfs2_server_get_config_nested_sm" [
    state "setup_msgpair" (run "server_get_config_setup_msgpair")
      [success ⇒ "xfer_msgpair"; default ⇒ "cleanup"];
    state "xfer_msgpair" (jump "pvfs2_msgpairarray_sm") [success ⇒ "parse"; default ⇒ "cleanup"];
    state "parse" (run "server_get_config_parse") [default ⇒ "cleanup"];
    state "cleanup" (run "server_get_config_cleanup") [default ⇒ return_]];
  machine_ "pvfs2_server_get_config_sm" [
    state "run_nested" (jump "pvfs2_server_get_config_nested_sm") [default ⇒ "parent_cleanup"];
    state "parent_cleanup" (run "server_get_config_parent_cleanup") [default ⇒ terminate]]].

Definition client_sys_atomic_eattr_sm : sm_file := mkFile "client/sysint/sys-atomic-eattr.sm"
  [] [
  machine_ "pvfs2_client_atomic_eattr_sm" [
    state "getattr" (jump "pvfs2_client_getattr_sm")
      [success ⇒ "setup_msgpair"; default ⇒ "cleanup"];
    state "setup_msgpair" (run "atomic_eattr_setup_msgpair")
      [success ⇒ "xfer_msgpair"; default ⇒ "cleanup"];
    state "xfer_msgpair" (jump "pvfs2_msgpairarray_sm") [default ⇒ "cleanup"];
    state "cleanup" (run "atomic_eattr_cleanup") [default ⇒ terminate]]].

Definition client_sys_create_sm : sm_file := mkFile "client/sysint/sys-create.sm"
  [("CREATE_RETRY", 170%Z)] [
  machine_ "pvfs2_client_create_sm" [
    state "init" (run "create_init") [default ⇒ "parent_getattr"];
    state "parent_getattr" (jump "pvfs2_client_getattr_sm")
      [success ⇒ "parent_getattr_inspect"; default ⇒ "cleanup"];
    state "parent_getattr_inspect" (run "create_parent_getattr_inspect")
      [success ⇒ "create_setup_msgpair"; default ⇒ "cleanup"];
    state "create_setup_msgpair" (run "create_create_setup_msgpair")
      [success ⇒ "create_xfer_msgpair"; default ⇒ "cleanup"];
    state "create_xfer_msgpair" (jump "pvfs2_msgpairarray_sm")
      [success ⇒ "crdirent_setup_msgpair"; default ⇒ "cleanup"];
    state "crdirent_setup_msgpair" (run "create_crdirent_setup_msgpair")
      [success ⇒ "crdirent_xfer_msgpair"; default ⇒ "crdirent_failure"];
    state "crdirent_xfer_msgpair" (jump "pvfs2_msgpairarray_sm")
      [success ⇒ "cleanup"; default ⇒ "crdirent_failure"];
    state "crdirent_failure" (run "create_crdirent_failure")
      [success ⇒ "crdirent_getattr"; default ⇒ "delete_handles_setup_msgpair_array"];
    state "crdirent_getattr" (jump "pvfs2_client_getattr_sm")
      [success ⇒ "crdirent_setup_msgpair"; default ⇒ "crdirent_failure"];
    state "delete_handles_setup_msgpair_array" (run "create_delete_handles_setup_msgpair_array")
      [success ⇒ "delete_handles_xfer_msgpair_array"; default ⇒ "cleanup"];
    state "delete_handles_xfer_msgpair_array" (jump "pvfs2_msgpairarray_sm") [default ⇒ "cleanup"];
    state "cleanup" (run "create_cleanup") ["CREATE_RETRY" ⇒ "init"; default ⇒ terminate]]].

Definition client_sys_del_eattr_sm : sm_file := mkFile "client/sysint/sys-del-eattr.sm"
  [] [
  machine_ "pvfs2_client_del_eattr_sm" [
    state "getattr" (jump "pvfs2_client_getattr_sm")
      [success ⇒ "setup_msgpair"; default ⇒ "cleanup"];
    state "setup_msgpair" (run "del_eattr_setup_msgpair")
      [success ⇒ "xfer_msgpair"; default ⇒ "cleanup"];
    state "xfer_msgpair" (jump "pvfs2_msgpairarray_sm") [default ⇒ "cleanup"];
    state "cleanup" (run "del_eattr_cleanup") [default ⇒ terminate]]].

Definition client_sys_flush_sm : sm_file := mkFile "client/sysint/sys-flush.sm"
  [] [
  machine_ "pvfs2_client_flush_sm" [
    state "flush_getattr" (jump "pvfs2_client_getattr_sm")
      [success ⇒ "flush_datafile_setup_msgpairarray"; default ⇒ "cleanup"];
    state "flush_datafile_setup_msgpairarray" (run "flush_datafile_setup_msgpairarray")
      [success ⇒ "flush_datafile_xfer_msgpairarray"; default ⇒ "cleanup"];
    state "flush_datafile_xfer_msgpairarray" (jump "pvfs2_msgpairarray_sm")
      [success ⇒ "cleanup"; default ⇒ "flush_datafile_flush_failure"];
    state "flush_datafile_flush_failure" (run "flush_datafile_flush_failure")
      [default ⇒ "cleanup"];
    state "cleanup" (run "flush_cleanup") [default ⇒ terminate]]].

Definition client_sys_get_eattr_sm : sm_file := mkFile "client/sysint/sys-get-eattr.sm"
  [] [
  machine_ "pvfs2_client_get_eattr_sm" [
    state "setup_msgpair" (run "get_eattr_setup_msgpair")
      [success ⇒ "xfer_msgpair"; default ⇒ "cleanup"];
    state "xfer_msgpair" (jump "pvfs2_msgpairarray_sm") [default ⇒ "cleanup"];
    state "cleanup" (run "get_eattr_cleanup") [default ⇒ terminate]]].

Definition client_sys_getattr_sm : sm_file := mkFile "client/sysint/sys-getattr.sm"
  [("GETATTR_IO_RETRY", 3%Z); ("GETATTR_CACHE_MISS", 1%Z); ("GETATTR_NEED_DATAFILE_SIZES", 2%Z);
   ("GETATTR_NEED_DIRDATA_ATTRS", 4%Z)] [
  machine_ "pvfs2_client_datafile_getattr_sizes_sm" [
    state "datafile_getattr_setup_msgpairarray"
      (run "getattr_datafile_getattr_setup_msgpairarray")
      [success ⇒ "datafile_getattr_xfer_msgpairarray";
       default ⇒ "datafile_getattr_cleanup"];
    state "datafile_getattr_xfer_msgpairarray" (jump "pvfs2_msgpairarray_sm")
      [default ⇒ "datafile_getattr_retry"];
    state "datafile_getattr_retry" (run "getattr_datafile_getattr_retry")
      ["GETATTR_IO_RETRY" ⇒ "datafile_getattr_xfer_msgpairarray";
       default ⇒ "datafile_getattr_cleanup"];
    state "datafile_getattr_cleanup" (run "getattr_datafile_getattr_cleanup") [default ⇒ return_]];
  machine_ "pvfs2_client_dirdata_getattr_sm" [
    state "dirdata_getattr_setup_msgpairarray" (run "getattr_dirdata_getattr_setup_msgpairarray")
      [success ⇒ "dirdata_getattr_xfer_msgpairarray"; default ⇒ "dirdata_getattr_cleanup"];
    state "dirdata_getattr_xfer_msgpairarray" (jump "pvfs2_msgpairarray_sm")
      [default ⇒ "dirdata_getattr_cleanup"];
    state "dirdata_getattr_cleanup" (run "getattr_dirdata_getattr_cleanup") [default ⇒ return_]];
  machine_ "pvfs2_client_getattr_sm" [
    state "acache_lookup" (run "getattr_acache_lookup")
      ["GETATTR_CACHE_MISS" ⇒ "object_getattr_setup_msgpair"; default ⇒ "client_capcache_lookup"];
    state "client_capcache_lookup" (run "getattr_client_capcache_lookup")
      ["GETATTR_CACHE_MISS" ⇒ "object_getattr_setup_msgpair"; default ⇒ "cleanup"];
    state "object_getattr_setup_msgpair" (run "getattr_object_getattr_setup_msgpair")
      [success ⇒ "object_getattr_xfer_msgpair"; default ⇒ "cleanup"];
    state "object_getattr_xfer_msgpair" (jump "pvfs2_msgpairarray_sm")
      [success ⇒ "acache_insert";
       "GETATTR_NEED_DATAFILE_SIZES" ⇒ "datafile_get_sizes";
       "GETATTR_NEED_DIRDATA_ATTRS" ⇒ "dirdata_get_attrs";
       default ⇒ "object_getattr_failure"];
    state "acache_insert" (run "getattr_acache_insert") [default ⇒ "client_capcache_insert"];
    state "client_capcache_insert" (run "getattr_client_capcache_insert") [default ⇒ "cleanup"];
    state "object_getattr_failure" (run "getattr_object_getattr_failure") [default ⇒ "cleanup"];
    state "datafile_get_sizes" (jump "pvfs2_client_datafile_getattr_sizes_sm")
      [success ⇒ "attr_mask_include_size"; default ⇒ "cleanup"];
    state "attr_mask_include_size" (run "attr_mask_include_size") [default ⇒ "acache_insert"];
    state "dirdata_get_attrs" (jump "pvfs2_client_dirdata_getattr_sm")
      [success ⇒ "acache_insert"; default ⇒ "cleanup"];
    state "cleanup" (run "getattr_cleanup") [default ⇒ return_]];
  machine_ "pvfs2_client_sysint_getattr_sm" [
    state "dowork" (jump "pvfs2_client_getattr_sm") [default ⇒ "set_sys_response"];
    state "set_sys_response" (run "getattr_set_sys_response") [default ⇒ terminate]]].

Definition client_sys_io_sm : sm_file := mkFile "client/sysint/sys-io.sm"
  [("IO_ATIME_UPDATE", 145%Z); ("IO_UNSTUFF", 139%Z); ("IO_GETATTR_SERVER", 140%Z);
   ("IO_NO_DATA", 132%Z); ("IO_DO_SMALL_IO", 138%Z); ("IO_RETRY", 134%Z);
   ("IO_FATAL_ERROR", 143%Z); ("IO_MIRRORING", 141%Z); ("IO_NO_MIRRORING", 142%Z);
   ("IO_DATAFILE_TRANSFERS_COMPLETE", 133%Z); ("IO_RENEW_CAPABILITY", 144%Z);
   ("IO_GET_DATAFILE_SIZE", 136%Z)] [
  machine_ "pvfs2_client_io_sm" [
    state "init" (run "io_init") [default ⇒ "io_getattr"];
    state "io_getattr" (jump "pvfs2_client_getattr_sm")
      [success ⇒ "inspect_attr"; default ⇒ "io_cleanup"];
    state "inspect_attr" (run "io_inspect_attr")
      [success ⇒ "unstuff_needed_check";
       "IO_ATIME_UPDATE" ⇒ "io_atime_setattr_xfer_msgpair";
       default ⇒ "io_cleanup"];
    state "io_atime_setattr_xfer_msgpair" (jump "pvfs2_msgpairarray_sm")
      [default ⇒ "unstuff_needed_check"];
    state "unstuff_needed_check" (run "io_unstuff_needed_check")
      ["IO_UNSTUFF" ⇒ "unstuff_setup_msgpair";
       "IO_GETATTR_SERVER" ⇒ "unstuff_setup_msgpair";
       success ⇒ "io_datafile_setup_msgpairs";
       default ⇒ "io_cleanup"];
    state "unstuff_setup_msgpair" (run "io_unstuff_setup_msgpair")
      [success ⇒ "unstuff_xfer_msgpair"; default ⇒ "io_cleanup"];
    state "unstuff_xfer_msgpair" (jump "pvfs2_msgpairarray_sm")
      [success ⇒ "io_datafile_setup_msgpairs"; default ⇒ "io_cleanup"];
    state "io_datafile_setup_msgpairs" (run "io_datafile_setup_msgpairs")
      ["IO_NO_DATA" ⇒ "io_cleanup";
       "IO_DO_SMALL_IO" ⇒ "small_io";
       success ⇒ "io_datafile_post_msgpairs";
       default ⇒ "io_cleanup"];
    state "small_io" (jump "pvfs2_client_small_io_sm")
      [success ⇒ "io_analyze_results"; default ⇒ "io_cleanup"];
    state "io_datafile_post_msgpairs" (run "io_datafile_post_msgpairs")
      ["IO_RETRY" ⇒ "io_datafile_post_msgpairs_retry";
       "IO_FATAL_ERROR" ⇒ "io_cleanup";
       default ⇒ "io_datafile_complete_operations"];
    state "io_datafile_post_msgpairs_retry" (run "io_datafile_post_msgpairs_retry")
      ["IO_MIRRORING" ⇒ "io_datafile_mirror_retry";
       "IO_NO_MIRRORING" ⇒ "io_datafile_no_mirror_retry";
       default ⇒ "io_datafile_no_mirror_retry"];
    state "io_datafile_no_mirror_retry" (run "io_datafile_no_mirror_retry")
      ["IO_DATAFILE_TRANSFERS_COMPLETE" ⇒ "io_analyze_results";
       default ⇒ "io_datafile_post_msgpairs"];
    state "io_datafile_mirror_retry" (run "io_datafile_mirror_retry")
      ["IO_DATAFILE_TRANSFERS_COMPLETE" ⇒ "io_analyze_results";
       default ⇒ "io_datafile_post_msgpairs"];
    state "io_datafile_complete_operations" (run "io_datafile_complete_operations")
      ["IO_DATAFILE_TRANSFERS_COMPLETE" ⇒ "io_analyze_results";
       "IO_RETRY" ⇒ "io_datafile_post_msgpairs_retry";
       "IO_RENEW_CAPABILITY" ⇒ "io_renew_capability";
       default ⇒ "io_datafile_complete_operations"];
    state "io_renew_capability" (run "io_init") [default ⇒ "io_renew_getattr"];
    state "io_renew_getattr" (jump "pvfs2_client_getattr_sm")
      [success ⇒ "io_datafile_setup_msgpairs"; default ⇒ "io_cleanup"];
    state "io_analyze_results" (run "io_analyze_results")
      ["IO_RETRY" ⇒ "init"; "IO_GET_DATAFILE_SIZE" ⇒ "io_datafile_size"; default ⇒ "io_cleanup"];
    state "io_datafile_size" (jump "pvfs2_client_datafile_getattr_sizes_sm")
      [success ⇒ "io_analyze_size_results"; default ⇒ "io_cleanup"];
    state "io_analyze_size_results" (run "io_analyze_size_results") [default ⇒ "io_cleanup"];
    state "io_cleanup" (run "io_cleanup")
      ["IO_RENEW_CAPABILITY" ⇒ "io_renew_capability"; default ⇒ terminate]]].

Definition client_sys_list_eattr_sm : sm_file := mkFile "client/sysint/sys-list-eattr.sm"
  [] [
  machine_ "pvfs2_client_list_eattr_sm" [
    state "setup_msgpair" (run "list_eattr_setup_msgpair")
      [success ⇒ "xfer_msgpair"; default ⇒ "cleanup"];
    state "xfer_msgpair" (jump "pvfs2_msgpairarray_sm") [default ⇒ "cleanup"];
    state "cleanup" (run "list_eattr_cleanup") [default ⇒ terminate]]].

Definition client_sys_lookup_sm : sm_file := mkFile "client/sysint/sys-lookup.sm"
  [("LOOKUP_CONTINUE", 2%Z); ("LOOKUP_TYPE_DIRECTORY", 3%Z); ("LOOKUP_TYPE_METAFILE", 4%Z);
   ("LOOKUP_TYPE_LN_NO_FOLLOW", 7%Z); ("LOOKUP_TYPE_RELATIVE_LN", 5%Z);
   ("LOOKUP_TYPE_ABSOLUTE_LN", 6%Z)] [
  machine_ "pvfs2_client_lookup_sm" [
    state "lookup_segment_start" (run "lookup_segment_start")
      ["LOOKUP_CONTINUE" ⇒ "lookup_context_check_completion";
       success ⇒ "lookup_segment_query_ncache";
       default ⇒ "lookup_segment_lookup_failure"];
    state "lookup_segment_query_ncache" (run "lookup_segment_query_ncache")
      [success ⇒ "lookup_segment_verify_attr_present";
       default ⇒ "lookup_segment_setup_parent_getattr"];
    state "lookup_segment_setup_parent_getattr" (run "lookup_segment_setup_parent_getattr")
      [default ⇒ "lookup_segment_parent_getattr"];
    state "lookup_segment_parent_getattr" (jump "pvfs2_client_getattr_sm")
      [success ⇒ "lookup_segment_setup_msgpair"; default ⇒ "lookup_segment_lookup_failure"];
    state "lookup_segment_setup_msgpair" (run "lookup_segment_setup_msgpair")
      [success ⇒ "lookup_segment_lookup_xfer_msgpair"; default ⇒ "lookup_segment_lookup_failure"];
    state "lookup_segment_lookup_xfer_msgpair" (jump "pvfs2_msgpairarray_sm")
      [success ⇒ "lookup_segment_verify_attr_present"; default ⇒ "lookup_segment_lookup_failure"];
    state "lookup_segment_lookup_failure" (run "lookup_segment_lookup_failure")
      [default ⇒ "lookup_cleanup"];
    state "lookup_segment_verify_attr_present" (run "lookup_segment_verify_attr_present")
      [success ⇒ "lookup_segment_check_attr_type"; default ⇒ "lookup_segment_getattr"];
    state "lookup_segment_getattr" (jump "pvfs2_client_getattr_sm")
      [success ⇒ "lookup_segment_check_attr_type"; default ⇒ "lookup_cleanup"];
    state "lookup_segment_check_attr_type" (run "lookup_segment_check_attr_type")
      ["LOOKUP_TYPE_DIRECTORY" ⇒ "lookup_context_check_completion";
       "LOOKUP_TYPE_METAFILE" ⇒ "lookup_context_check_completion";
       "LOOKUP_TYPE_LN_NO_FOLLOW" ⇒ "lookup_context_check_completion";
       "LOOKUP_TYPE_RELATIVE_LN" ⇒ "lookup_segment_handle_relative_link";
       "LOOKUP_TYPE_ABSOLUTE_LN" ⇒ "lookup_segment_handle_absolute_link";
       default ⇒ "lookup_cleanup"];
    state "lookup_context_check_completion" (run "lookup_context_check_completion")
      ["LOOKUP_CONTINUE" ⇒ "lookup_segment_start"; default ⇒ "lookup_cleanup"];
    state "lookup_segment_handle_relative_link" (run "lookup_segment_handle_relative_link")
      [success ⇒ "lookup_segment_start"; default ⇒ "lookup_cleanup"];
    state "lookup_segment_handle_absolute_link" (run "lookup_segment_handle_absolute_link")
      [success ⇒ "lookup_segment_start"; default ⇒ "lookup_cleanup"];
    state "lookup_cleanup" (run "lookup_cleanup") [default ⇒ terminate]]].

Definition client_sys_mkdir_sm : sm_file := mkFile "client/sysint/sys-mkdir.sm"
  [("MKDIR_RETRY", 180%Z)] [
  machine_ "pvfs2_client_mkdir_sm" [
    state "init" (run "mkdir_init") [default ⇒ "parent_getattr"];
    state "parent_getattr" (jump "pvfs2_client_getattr_sm")
      [success ⇒ "parent_getattr_inspect"; default ⇒ "cleanup"];
    state "parent_getattr_inspect" (run "mkdir_parent_getattr_inspect")
      [success ⇒ "mkdir_msg_setup_msgpair"; default ⇒ "cleanup"];
    state "mkdir_msg_setup_msgpair" (run "mkdir_msg_setup_msgpair")
      [success ⇒ "mkdir_msg_xfer_msgpair"; default ⇒ "mkdir_msg_failure"];
    state "mkdir_msg_xfer_msgpair" (jump "pvfs2_msgpairarray_sm")
      [success ⇒ "mkdir_crdirent_setup_msgpair"; default ⇒ "mkdir_msg_failure"];
    state "mkdir_msg_failure" (run "mkdir_msg_failure") [default ⇒ "cleanup"];
    state "mkdir_crdirent_setup_msgpair" (run "mkdir_crdirent_setup_msgpair")
      [success ⇒ "mkdir_crdirent_xfer_msgpair"; default ⇒ "mkdir_crdirent_failure"];
    state "mkdir_crdirent_xfer_msgpair" (jump "pvfs2_msgpairarray_sm")
      [success ⇒ "cleanup"; default ⇒ "mkdir_crdirent_failure"];
    state "mkdir_crdirent_failure" (run "mkdir_crdirent_failure")
      [success ⇒ "mkdir_crdirent_retry_getattr"; default ⇒ "delete_handle_setup_msgpair"];
    state "mkdir_crdirent_retry_getattr" (jump "pvfs2_client_getattr_sm")
      [success ⇒ "mkdir_crdirent_setup_msgpair"; default ⇒ "mkdir_crdirent_failure"];
    state "delete_handle_setup_msgpair" (run "mkdir_delete_handle_setup_msgpair")
      [success ⇒ "delete_handle_xfer_msgpair"; default ⇒ "cleanup"];
    state "delete_handle_xfer_msgpair" (jump "pvfs2_msgpairarray_sm") [default ⇒ "cleanup"];
    state "cleanup" (run "mkdir_cleanup") ["MKDIR_RETRY" ⇒ "init"; default ⇒ terminate]]].

Definition client_sys_readdir_sm : sm_file := mkFile "client/sysint/sys-readdir.sm"
  [("NO_PARTIAL_READ", 3%Z); ("READDIR_DONE", 2%Z)] [
  machine_ "pvfs2_client_readdir_sm" [
    state "init" (run "readdir_init") [default ⇒ "readdir_getattr"];
    state "readdir_getattr" (jump "pvfs2_client_getattr_sm")
      [success ⇒ "readdir_finish_partial_read"; default ⇒ "cleanup"];
    state "readdir_finish_partial_read" (run "readdir_finish_partial_read")
      ["NO_PARTIAL_READ" ⇒ "readdir_msg_setup_msgpair";
       success ⇒ "readdir_xfer_finish_partial_read";
       default ⇒ "readdir_msg_failure"];
    state "readdir_xfer_finish_partial_read" (jump "pvfs2_msgpairarray_sm")
      [success ⇒ "readdir_msg_setup_msgpair"; default ⇒ "readdir_msg_failure"];
    state "readdir_msg_setup_msgpair" (run "readdir_msg_setup_msgpair")
      ["READDIR_DONE" ⇒ "readdir_msg_done";
       success ⇒ "readdir_msg_xfer_msgpair";
       default ⇒ "readdir_msg_failure"];
    state "readdir_msg_xfer_msgpair" (jump "pvfs2_msgpairarray_sm")
      [success ⇒ "readdir_msg_setup_msgpair"; default ⇒ "readdir_msg_failure"];
    state "readdir_msg_done" (run "readdir_msg_done") [default ⇒ "cleanup"];
    state "readdir_msg_failure" (run "readdir_msg_failure") [default ⇒ "cleanup"];
    state "cleanup" (run "readdir_cleanup") [default ⇒ return_]];
  machine_ "pvfs2_client_sysint_readdir_sm" [
    state "dowork" (jump "pvfs2_client_readdir_sm") [default ⇒ "do_cleanup"];
    state "do_cleanup" (run "do_cleanup") [default ⇒ terminate]]].

Definition client_sys_readdirplus_sm : sm_file := mkFile "client/sysint/sys-readdirplus.sm"
  [("NO_WORK", 1%Z)] [
  machine_ "pvfs2_client_readdirplus_sm" [
    state "init" (jump "pvfs2_client_readdir_sm")
      [success ⇒ "readdirplus_fetch_attrs_setup_msgpair"; default ⇒ "readdirplus_msg_failure"];
    state "readdirplus_fetch_attrs_setup_msgpair" (run "readdirplus_fetch_attrs_setup_msgpair")
      ["NO_WORK" ⇒ "cleanup";
       success ⇒ "readdirplus_fetch_attrs_xfer_msgpair";
       default ⇒ "readdirplus_msg_failure"];
    state "readdirplus_fetch_attrs_xfer_msgpair" (jump "pvfs2_msgpairarray_sm")
      [success ⇒ "readdirplus_fetch_sizes_setup_msgpair"; default ⇒ "readdirplus_msg_failure"];
    state "readdirplus_fetch_sizes_setup_msgpair" (run "readdirplus_fetch_sizes_setup_msgpair")
      ["NO_WORK" ⇒ "cleanup";
       success ⇒ "readdirplus_fetch_sizes_xfer_msgpair";
       default ⇒ "readdirplus_msg_failure"];
    state "readdirplus_fetch_sizes_xfer_msgpair" (jump "pvfs2_msgpairarray_sm")
      [success ⇒ "cleanup"; default ⇒ "readdirplus_msg_failure"];
    state "readdirplus_msg_failure" (run "readdirplus_msg_failure") [default ⇒ "cleanup"];
    state "cleanup" (run "readdirplus_cleanup") [default ⇒ terminate]]].

Definition client_sys_remove_sm : sm_file := mkFile "client/sysint/sys-remove.sm"
  [("RMDIRENT_RETRY", 1%Z); ("RMDIRENT_RETRY_NEED_GETATTR", 2%Z);
   ("RETURN_STORED_ERROR_CODE", 4%Z); ("CRDIRENT_RETRY", 3%Z)] [
  machine_ "pvfs2_client_remove_sm" [
    state "init" (run "remove_init") [default ⇒ "rmdirent_get_capability"];
    state "rmdirent_get_capability" (jump "pvfs2_client_getattr_sm")
      [success ⇒ "rmdirent_setup_msgpair"; default ⇒ "rmdirent_retry_or_fail"];
    state "rmdirent_setup_msgpair" (run "remove_rmdirent_setup_msgpair")
      [success ⇒ "rmdirent_xfer_msgpair"; default ⇒ "rmdirent_retry_or_fail"];
    state "rmdirent_xfer_msgpair" (jump "pvfs2_msgpairarray_sm")
      [success ⇒ "do_remove"; default ⇒ "rmdirent_retry_or_fail"];
    state "rmdirent_retry_or_fail" (run "remove_rmdirent_retry_or_fail")
      ["RMDIRENT_RETRY" ⇒ "rmdirent_timer";
       "RMDIRENT_RETRY_NEED_GETATTR" ⇒ "rmdirent_getattr_setup";
       default ⇒ "cleanup"];
    state "rmdirent_getattr_setup" (run "remove_getattr_setup")
      [default ⇒ "rmdirent_get_capability"];
    state "do_remove" (jump "pvfs2_client_remove_helper_sm") [default ⇒ "check_error_code"];
    state "check_error_code" (run "remove_check_error_code")
      [success ⇒ "cleanup"; "RETURN_STORED_ERROR_CODE" ⇒ "cleanup"; default ⇒ "getattr_setup"];
    state "crdirent_timer" (run "remove_generic_timer") [default ⇒ "getattr_setup"];
    state "rmdirent_timer" (run "remove_generic_timer") [default ⇒ "rmdirent_get_capability"];
    state "getattr_setup" (run "remove_getattr_setup") [default ⇒ "parent_getattr"];
    state "parent_getattr" (jump "pvfs2_client_getattr_sm")
      [success ⇒ "crdirent_setup_msgpair"; default ⇒ "cleanup"];
    state "crdirent_setup_msgpair" (run "remove_crdirent_setup_msgpair")
      [success ⇒ "crdirent_xfer_msgpair"; default ⇒ "crdirent_retry_or_fail"];
    state "crdirent_xfer_msgpair" (jump "pvfs2_msgpairarray_sm")
      [success ⇒ "cleanup"; default ⇒ "crdirent_retry_or_fail"];
    state "crdirent_retry_or_fail" (run "remove_crdirent_retry_or_fail")
      ["CRDIRENT_RETRY" ⇒ "crdirent_timer"; default ⇒ "cleanup"];
    state "cleanup" (run "remove_cleanup") [default ⇒ terminate]]].

Definition client_sys_rename_sm : sm_file := mkFile "client/sysint/sys-rename.sm"
  [("RENAME_CHDIRENT", 130%Z); ("RENAME_CRDIRENT_RETRY", 132%Z);
   ("RENAME_CRDIRENT_RETRY_NEED_GETATTR", 133%Z); ("RENAME_RMDIRENT_RETRY", 134%Z);
   ("RENAME_RMDIRENT_RETRY_NEED_GETATTR", 135%Z); ("RENAME_REMOVE_REQUIRED", 131%Z);
   ("RENAME_CHDIRENT_RETRY", 136%Z)] [
  machine_ "pvfs2_client_rename_sm" [
    state "init" (run "rename_init") [default ⇒ "rename_parent_getattr_setup_msgpair_array"];
    state "rename_parent_getattr_setup_msgpair_array"
      (run "rename_parent_getattr_setup_msgpair_array")
      [success ⇒ "rename_parent_getattr_xfer_msgpair_array";
       default ⇒ "rename_parent_getattr_failure"];
    state "rename_parent_getattr_xfer_msgpair_array" (jump "pvfs2_msgpairarray_sm")
      [success ⇒ "rename_lookups_setup_msgpair_array"; default ⇒ "rename_parent_getattr_failure"];
    state "rename_lookups_setup_msgpair_array" (run "rename_lookups_setup_msgpair_array")
      [success ⇒ "rename_lookups_xfer_msgpair_array"; default ⇒ "rename_lookups_failure"];
    state "rename_lookups_xfer_msgpair_array" (jump "pvfs2_msgpairarray_sm")
      [success ⇒ "rename_crdirent_setup_msgpair";
       "RENAME_CHDIRENT" ⇒ "rename_getattr_src";
       default ⇒ "rename_lookups_failure"];
    state "rename_getattr_src" (jump "pvfs2_client_getattr_sm")
      [success ⇒ "rename_getattr_src_interpret"; default ⇒ "cleanup"];
    state "rename_getattr_src_interpret" (run "rename_getattr_src_interpret")
      [default ⇒ "rename_getattr_dest"];
    state "rename_getattr_dest" (jump "pvfs2_client_getattr_sm")
      [success ⇒ "rename_chdirent_setup_msgpair"; default ⇒ "cleanup"];
    state "rename_parent_getattr_failure" (run "rename_parent_getattr_failure")
      [default ⇒ "cleanup"];
    state "rename_lookups_failure" (run "rename_lookups_failure") [default ⇒ "cleanup"];
    state "rename_crdirent_setup_msgpair" (run "rename_crdirent_setup_msgpair")
      [success ⇒ "rename_crdirent_xfer_msgpair"; default ⇒ "rename_crdirent_retry_or_fail"];
    state "rename_crdirent_xfer_msgpair" (jump "pvfs2_msgpairarray_sm")
      [success ⇒ "rename_rmdirent_setup_msgpair"; default ⇒ "rename_crdirent_retry_or_fail"];
    state "rename_crdirent_retry_or_fail" (run "rename_crdirent_retry_or_fail")
      ["RENAME_CRDIRENT_RETRY" ⇒ "rename_crdirent_timer";
       "RENAME_CRDIRENT_RETRY_NEED_GETATTR" ⇒ "crdirent_getattr_setup";
       default ⇒ "cleanup"];
    state "crdirent_getattr_setup" (run "rename_crdirent_getattr_setup")
      [default ⇒ "crdirent_getattr"];
    state "crdirent_getattr" (jump "pvfs2_client_getattr_sm")
      [success ⇒ "crdirent_getattr_fill_dirent_handle"; default ⇒ "cleanup"];
    state "crdirent_getattr_fill_dirent_handle" (run "rename_crdirent_getattr_fill_dirent_handle")
      [default ⇒ "rename_crdirent_setup_msgpair"];
    state "rename_crdirent_timer" (run "rename_generic_timer")
      [default ⇒ "rename_crdirent_setup_msgpair"];
    state "rename_rmdirent_setup_msgpair" (run "rename_rmdirent_setup_msgpair")
      [success ⇒ "rename_rmdirent_xfer_msgpair"; default ⇒ "rename_rmdirent_retry_or_fail"];
    state "rename_rmdirent_xfer_msgpair" (jump "pvfs2_msgpairarray_sm")
      [success ⇒ "rename_check_for_remove"; default ⇒ "rename_rmdirent_retry_or_fail"];
    state "rename_rmdirent_retry_or_fail" (run "rename_rmdirent_retry_or_fail")
      ["RENAME_RMDIRENT_RETRY" ⇒ "rename_rmdirent_timer";
       "RENAME_RMDIRENT_RETRY_NEED_GETATTR" ⇒ "rmdirent_getattr_setup";
       default ⇒ "rename_rmdirent_failure"];
    state "rmdirent_getattr_setup" (run "rename_rmdirent_getattr_setup")
      [default ⇒ "rmdirent_getattr"];
    state "rmdirent_getattr" (jump "pvfs2_client_getattr_sm")
      [success ⇒ "rmdirent_getattr_fill_dirent_handle"; default ⇒ "cleanup"];
    state "rmdirent_getattr_fill_dirent_handle" (run "rename_rmdirent_getattr_fill_dirent_handle")
      [default ⇒ "rename_rmdirent_setup_msgpair"];
    state "rename_rmdirent_timer" (run "rename_generic_timer")
      [default ⇒ "rename_rmdirent_setup_msgpair"];
    state "rename_rmdirent_failure" (run "rename_rmdirent_failure")
      [success ⇒ "rename_rmdirent_setup_msgpair"; default ⇒ "rename_warn_user_to_run_fsck"];
    state "rename_check_for_remove" (run "rename_check_for_remove")
      ["RENAME_REMOVE_REQUIRED" ⇒ "rename_do_remove"; default ⇒ "cleanup"];
    state "rename_do_remove" (jump "pvfs2_client_remove_helper_sm")
      [success ⇒ "cleanup"; default ⇒ "rename_warn_user_to_run_fsck"];
    state "rename_warn_user_to_run_fsck" (run "rename_warn_user_to_run_fsck")
      [default ⇒ "cleanup"];
    state "rename_chdirent_setup_msgpair" (run "rename_chdirent_setup_msgpair")
      [success ⇒ "rename_chdirent_xfer_msgpair"; default ⇒ "rename_chdirent_failure"];
    state "rename_chdirent_xfer_msgpair" (jump "pvfs2_msgpairarray_sm")
      [success ⇒ "rename_rmdirent_setup_msgpair"; default ⇒ "rename_chdirent_retry_or_failure"];
    state "rename_chdirent_retry_or_failure" (run "rename_chdirent_retry_or_failure")
      ["RENAME_CHDIRENT_RETRY" ⇒ "rename_parent_getattr_setup_msgpair_array";
       default ⇒ "rename_chdirent_failure"];
    state "rename_chdirent_failure" (run "rename_chdirent_failure") [default ⇒ "cleanup"];
    state "cleanup" (run "rename_cleanup") [default ⇒ terminate]]].

Definition client_sys_set_eattr_sm : sm_file := mkFile "client/sysint/sys-set-eattr.sm"
  [] [
  machine_ "pvfs2_client_set_eattr_sm" [
    state "getattr" (jump "pvfs2_client_getattr_sm")
      [success ⇒ "setup_msgpair"; default ⇒ "cleanup"];
    state "setup_msgpair" (run "set_eattr_setup_msgpair")
      [success ⇒ "xfer_msgpair"; default ⇒ "cleanup"];
    state "xfer_msgpair" (jump "pvfs2_msgpairarray_sm") [default ⇒ "cleanup"];
    state "cleanup" (run "set_eattr_cleanup") [default ⇒ terminate]]].

Definition client_sys_setattr_sm : sm_file := mkFile "client/sysint/sys-setattr.sm"
  [] [
  machine_ "pvfs2_client_setattr_sm" [
    state "init" (run "setattr_init") [default ⇒ "setattr_getattr"];
    state "setattr_getattr" (jump "pvfs2_client_getattr_sm")
      [success ⇒ "setattr_msg_setup_msgpair"; default ⇒ "cleanup"];
    state "setattr_msg_setup_msgpair" (run "setattr_msg_setup_msgpair")
      [success ⇒ "setattr_msg_xfer_msgpair"; default ⇒ "cleanup"];
    state "setattr_msg_xfer_msgpair" (jump "pvfs2_msgpairarray_sm")
      [success ⇒ "cleanup"; default ⇒ "setattr_msg_failure"];
    state "setattr_msg_failure" (run "setattr_msg_failure") [default ⇒ "cleanup"];
    state "cleanup" (run "setattr_cleanup") [default ⇒ terminate]]].

Definition client_sys_small_io_sm : sm_file := mkFile "client/sysint/sys-small-io.sm"
  [("MIRROR_RETRY", 132%Z)] [
  machine_ "pvfs2_client_small_io_sm" [
    state "setup_msgpairs" (run "small_io_setup_msgpairs")
      [success ⇒ "xfer_msgpairs"; default ⇒ return_];
    state "xfer_msgpairs" (jump "pvfs2_msgpairarray_sm") [default ⇒ "check_for_retries"];
    state "check_for_retries" (run "small_io_check_for_retries")
      ["MIRROR_RETRY" ⇒ "xfer_msgpairs"; default ⇒ "cleanup"];
    state "cleanup" (run "small_io_cleanup") [default ⇒ return_]]].

Definition client_sys_statfs_sm : sm_file := mkFile "client/sysint/sys-statfs.sm"
  [] [
  machine_ "pvfs2_client_statfs_sm" [
    state "run_nested" (jump "pvfs2_client_mgmt_statfs_list_nested_sm") [default ⇒ "cleanup"];
    state "cleanup" (run "sys_statfs_cleanup") [default ⇒ terminate]]].

Definition client_sys_symlink_sm : sm_file := mkFile "client/sysint/sys-symlink.sm"
  [("SYMLINK_RETRY", 170%Z)] [
  machine_ "pvfs2_client_symlink_sm" [
    state "init" (run "symlink_init") [default ⇒ "symlink_parent_getattr"];
    state "symlink_parent_getattr" (jump "pvfs2_client_getattr_sm")
      [success ⇒ "dspace_create_setup_msgpair"; default ⇒ "cleanup"];
    state "dspace_create_setup_msgpair" (run "symlink_dspace_create_setup_msgpair")
      [success ⇒ "dspace_create_xfer_msgpair"; default ⇒ "dspace_create_failure"];
    state "dspace_create_xfer_msgpair" (jump "pvfs2_msgpairarray_sm")
      [success ⇒ "new_metafile_init"; default ⇒ "dspace_create_failure"];
    state "dspace_create_failure" (run "symlink_dspace_create_failure") [default ⇒ "cleanup"];
    state "new_metafile_init" (run "getattr_new_metafile_init")
      [success ⇒ "getattr_new_metafile"; default ⇒ "symlink_setattr_failure"];
    state "getattr_new_metafile" (jump "pvfs2_client_getattr_sm")
      [success ⇒ "symlink_setattr_setup_msgpair"; default ⇒ "symlink_setattr_failure"];
    state "symlink_setattr_setup_msgpair" (run "symlink_setattr_setup_msgpair")
      [success ⇒ "symlink_setattr_xfer_msgpair"; default ⇒ "cleanup"];
    state "symlink_setattr_xfer_msgpair" (jump "pvfs2_msgpairarray_sm")
      [success ⇒ "crdirent_init"; default ⇒ "symlink_setattr_failure"];
    state "symlink_setattr_failure" (run "symlink_setattr_failure")
      [default ⇒ "delete_handle_setup_msgpair"];
    state "crdirent_init" (run "getattr_crdirent_init")
      [success ⇒ "getattr_crdirent"; default ⇒ "crdirent_failure"];
    state "getattr_crdirent" (jump "pvfs2_client_getattr_sm")
      [success ⇒ "crdirent_setup_msgpair"; default ⇒ "crdirent_failure"];
    state "crdirent_setup_msgpair" (run "symlink_crdirent_setup_msgpair")
      [success ⇒ "crdirent_xfer_msgpair"; default ⇒ "crdirent_failure"];
    state "crdirent_xfer_msgpair" (jump "pvfs2_msgpairarray_sm")
      [success ⇒ "cleanup"; default ⇒ "crdirent_failure"];
    state "crdirent_failure" (run "symlink_crdirent_failure")
      [default ⇒ "delete_handle_setup_msgpair"];
    state "delete_handle_setup_msgpair" (run "symlink_delete_handle_setup_msgpair")
      [success ⇒ "delete_handle_xfer_msgpair"; default ⇒ "cleanup"];
    state "delete_handle_xfer_msgpair" (jump "pvfs2_msgpairarray_sm") [default ⇒ "cleanup"];
    state "cleanup" (run "symlink_cleanup") ["SYMLINK_RETRY" ⇒ "init"; default ⇒ terminate]]].

Definition client_sys_truncate_sm : sm_file := mkFile "client/sysint/sys-truncate.sm"
  [("TRUNCATE_UNSTUFF", 100%Z)] [
  machine_ "pvfs2_client_truncate_sm" [
    state "truncate_getattr" (jump "pvfs2_client_getattr_sm")
      [success ⇒ "inspect_attr"; default ⇒ "cleanup"];
    state "inspect_attr" (run "truncate_inspect_attr")
      ["TRUNCATE_UNSTUFF" ⇒ "unstuff_setup_msgpair";
       success ⇒ "truncate_datafile_setup_msgpairarray";
       default ⇒ "cleanup"];
    state "unstuff_setup_msgpair" (run "truncate_unstuff_setup_msgpair")
      [success ⇒ "unstuff_xfer_msgpair"; default ⇒ "cleanup"];
    state "unstuff_xfer_msgpair" (jump "pvfs2_msgpairarray_sm")
      [success ⇒ "truncate_datafile_setup_msgpairarray"; default ⇒ "cleanup"];
    state "truncate_datafile_setup_msgpairarray" (run "truncate_datafile_setup_msgpairarray")
      [success ⇒ "truncate_datafile_xfer_msgpairarray"; default ⇒ "cleanup"];
    state "truncate_datafile_xfer_msgpairarray" (jump "pvfs2_msgpairarray_sm")
      [success ⇒ "cleanup"; default ⇒ "truncate_datafile_failure"];
    state "truncate_datafile_failure" (run "truncate_datafile_failure") [default ⇒ "cleanup"];
    state "cleanup" (run "truncate_cleanup") [default ⇒ terminate]]].

Definition client_files : list sm_file :=
  [client_client_job_timer_sm;
   client_fs_add_sm;
   client_mgmt_create_dirent_sm;
   client_mgmt_event_mon_list_sm;
   client_mgmt_get_dfile_array_sm;
   client_mgmt_get_dirdata_array_sm;
   client_mgmt_get_dirdata_handle_sm;
   client_mgmt_get_uid_list_sm;
   client_mgmt_get_user_cert_sm;
   client_mgmt_iterate_handles_list_sm;
   client_mgmt_noop_sm;
   client_mgmt_perf_mon_list_sm;
   client_mgmt_remove_dirent_sm;
   client_mgmt_remove_object_sm;
   client_mgmt_setparam_list_sm;
   client_mgmt_statfs_list_sm;
   client_perf_count_timer_sm;
   client_pint_sysdev_unexp_sm;
   client_remove_sm;
   client_server_get_config_sm;
   client_sys_atomic_eattr_sm;
   client_sys_create_sm;
   client_sys_del_eattr_sm;
   client_sys_flush_sm;
   client_sys_get_eattr_sm;
   client_sys_getattr_sm;
   client_sys_io_sm;
   client_sys_list_eattr_sm;
   client_sys_lookup_sm;
   client_sys_mkdir_sm;
   client_sys_readdir_sm;
   client_sys_readdirplus_sm;
   client_sys_remove_sm;
   client_sys_rename_sm;
   client_sys_set_eattr_sm;
   client_sys_setattr_sm;
   client_sys_small_io_sm;
   client_sys_statfs_sm;
   client_sys_symlink_sm;
   client_sys_truncate_sm].
