(* ===== verification/MachinesServer.v ===== *)
(** The state machines of the server (the .sm files of src/src/server that are built),
    as statecomp reads them.  The actions of
    unexpected.sm are in ServerStart.v, those of prelude.sm in ServerPrelude.v,
    those of tree-communicate.sm in Tree.v; all others are arguments of the
    engine. *)

From stdpp Require Import base list strings.
From S2P Require Import Prelude StateMachine Statecomp.
Import SmSyntax.

#[local] Open Scope string_scope.
#[local] Open Scope sm_scope.

Definition server_atomic_eattr_sm : sm_file := mkFile "server/atomic-eattr.sm"
  [("SKIP_UPDATE", 400%Z); ("PVFS2_MAKE_IMMUTABLE_COPIES", 200%Z); ("CREATE_IMM_COPIES", 300%Z)] [
  machine_ "pvfs2_atomic_eattr_sm" [
    state "prelude" (jump "pvfs2_prelude_sm") [success ⇒ "setup_resp"; default ⇒ "final_response"];
    state "setup_resp" (run "atomiceattr_setup_resp")
      [success ⇒ "read_eattrib"; default ⇒ "final_response"];
    state "read_eattrib" (run "atomiceattr_read_eattrib") [default ⇒ "check_resp"];
    state "check_resp" (run "atomiceattr_check_resp") [default ⇒ "modify_eattrib"];
    state "modify_eattrib" (run "atomiceattr_modify_eattrib") [default ⇒ "verify_eattrib"];
    state "verify_eattrib" (run "atomiceattr_verify_eattribs")
      [success ⇒ "setobj_eattrib"; default ⇒ "final_response"];
    state "setobj_eattrib" (run "atomiceattr_setobj_eattribs")
      [success ⇒ "check_mirror_mode"; default ⇒ "final_response"];
    state "check_mirror_mode" (run "atomiceattr_get_metahint_flag")
      ["SKIP_UPDATE" ⇒ "check_immutable"; default ⇒ "update_flag"];
    state "update_flag" (run "atomiceattr_set_metahint_flag")
      [success ⇒ "check_immutable"; default ⇒ "final_response"];
    state "check_immutable" (run "check_immutable")
      ["PVFS2_MAKE_IMMUTABLE_COPIES" ⇒ "generate_copies"; default ⇒ "final_response"];
    state "generate_copies"
      (pjmp "setup_create_immutable_copies" ["CREATE_IMM_COPIES" ⇉ "pvfs2_pjmp_create_immutable_copies_sm"])
      [success ⇒ "inspect_imm_copies";
       default ⇒ "final_response"];
    state "inspect_imm_copies" (run "inspect_imm_copies") [default ⇒ "final_response"];
    state "final_response" (jump "pvfs2_final_response_sm") [default ⇒ "cleanup"];
    state "cleanup" (run "atomiceattr_cleanup") [default ⇒ terminate]]].

Definition server_batch_create_sm : sm_file := mkFile "server/batch-create.sm"
  [] [
  machine_ "pvfs2_batch_create_sm" [
    state "prelude" (jump "pvfs2_prelude_sm") [success ⇒ "create"; default ⇒ "final_response"];
    state "create" (run "batch_create_create") [default ⇒ "final_response"];
    state "final_response" (jump "pvfs2_final_response_sm") [default ⇒ "cleanup"];
    state "cleanup" (run "batch_create_cleanup") [default ⇒ terminate]]].

Definition server_batch_remove_sm : sm_file := mkFile "server/batch-remove.sm"
  [("REMOVE_NEXT", 1%Z)] [
  machine_ "pvfs2_batch_remove_sm" [
    state "setup_prelude" (run "setup_prelude") [default ⇒ "prelude"];
    state "prelude" (jump "pvfs2_prelude_work_sm") [success ⇒ "setup_remove"; default ⇒ "release"];
    state "setup_remove" (run "setup_remove") [success ⇒ "remove"; default ⇒ "remove_complete"];
    state "remove" (jump "pvfs2_remove_work_sm") [default ⇒ "remove_complete"];
    state "remove_complete" (run "remove_complete") [default ⇒ "release"];
    state "release" (run "release") [default ⇒ "remove_next"];
    state "remove_next" (run "remove_next")
      ["REMOVE_NEXT" ⇒ "setup_prelude"; default ⇒ "response"];
    state "response" (jump "pvfs2_final_response_sm") [default ⇒ "cleanup"];
    state "cleanup" (run "cleanup") [default ⇒ terminate]]].

Definition server_chdirent_sm : sm_file := mkFile "server/chdirent.sm"
  [("UPDATE_DIR_ATTR_REQUIRED", 135%Z)] [
  machine_ "pvfs2_chdirent_sm" [
    state "prelude" (jump "pvfs2_prelude_sm")
      [success ⇒ "get_dirdata_attr"; default ⇒ "final_response"];
    state "get_dirdata_attr" (run "chdirent_get_dirdata_attr")
      [success ⇒ "get_dist_dir_attr"; default ⇒ "final_response"];
    state "get_dist_dir_attr" (run "chdirent_get_dist_dir_attr")
      [success ⇒ "get_bitmap"; default ⇒ "setup_resp"];
    state "get_bitmap" (run "chdirent_get_bitmap")
      [success ⇒ "read_directory_entry"; default ⇒ "setup_resp"];
    state "read_directory_entry" (run "chdirent_read_directory_entry")
      [success ⇒ "change_directory_entry"; default ⇒ "read_directory_entry_failure"];
    state "read_directory_entry_failure" (run "chdirent_read_directory_entry_failure")
      [default ⇒ "setup_resp"];
    state "change_directory_entry" (run "chdirent_change_directory_entry")
      [success ⇒ "check_for_req_dir_update"; default ⇒ "change_directory_entry_failure"];
    state "change_directory_entry_failure" (run "chdirent_change_directory_entry_failure")
      [default ⇒ "setup_resp"];
    state "check_for_req_dir_update" (run "chdirent_check_for_req_dir_update")
      ["UPDATE_DIR_ATTR_REQUIRED" ⇒ "update_directory_attr"; default ⇒ "setup_resp"];
    state "update_directory_attr" (run "chdirent_update_directory_attr") [default ⇒ "setup_resp"];
    state "setup_resp" (run "chdirent_setup_resp") [default ⇒ "final_response"];
    state "final_response" (jump "pvfs2_final_response_sm") [default ⇒ "cleanup"];
    state "cleanup" (run "chdirent_cleanup") [default ⇒ terminate]]].

Definition server_crdirent_sm : sm_file := mkFile "server/crdirent.sm"
  [("INVALID_OBJECT", 131%Z); ("INVALID_DIRDATA", 132%Z); ("REMOTE_METAHANDLE", 138%Z);
   ("SPLIT_REQUIRED", 133%Z); ("NOTIFY_DIRDATA", 136%Z); ("REMOVE_ENTRIES_REQUIRED", 139%Z)] [
  machine_ "pvfs2_crdirent_work_sm" [
    state "setup_op" (run "crdirent_setup_op") [default ⇒ "get_dist_dir_attr"];
    state "get_dist_dir_attr" (run "crdirent_get_dist_dir_attr")
      [success ⇒ "get_bitmap_and_dirdata_handles"; default ⇒ return_];
    state "get_bitmap_and_dirdata_handles" (run "crdirent_get_bitmap_and_dirdata_handles")
      [success ⇒ "validate"; default ⇒ return_];
    state "validate" (run "crdirent_validate")
      [success ⇒ "write_directory_entry";
       "INVALID_OBJECT" ⇒ "validation_object_type_failure";
       "INVALID_DIRDATA" ⇒ "validation_dirdata_mismatch";
       default ⇒ return_];
    state "validation_object_type_failure" (run "validation_object_type_failure")
      [default ⇒ return_];
    state "validation_dirdata_mismatch" (run "validation_dirdata_mismatch") [default ⇒ return_];
    state "write_directory_entry" (run "crdirent_write_directory_entry")
      [success ⇒ "update_directory_attr"; default ⇒ return_];
    state "update_directory_attr" (run "crdirent_update_directory_attr")
      [success ⇒ "update_metahandle_timestamp"; default ⇒ return_];
    state "update_metahandle_timestamp" (run "crdirent_update_metahandle_timestamp")
      ["REMOTE_METAHANDLE" ⇒ "update_metahandle_timestamp_xfer_msgpair";
       success ⇒ "update_local_metahandle_timestamp";
       default ⇒ return_];
    state "update_local_metahandle_timestamp" (run "crdirent_update_local_metahandle_timestamp")
      [default ⇒ "get_dirent_count"];
    state "update_metahandle_timestamp_xfer_msgpair" (jump "pvfs2_msgpairarray_sm")
      [default ⇒ "get_dirent_count"];
    state "get_dirent_count" (run "crdirent_get_dirent_count")
      [success ⇒ "check_for_split"; default ⇒ return_];
    state "check_for_split" (run "crdirent_check_for_split")
      ["SPLIT_REQUIRED" ⇒ "retrieve_dir_entries"; default ⇒ return_];
    state "retrieve_dir_entries" (run "crdirent_retrieve_dir_entries")
      [success ⇒ "find_split_entries"; default ⇒ return_];
    state "find_split_entries" (run "crdirent_find_split_entries")
      ["SPLIT_REQUIRED" ⇒ "split_xfer_msgpair"; default ⇒ return_];
    state "split_xfer_msgpair" (jump "pvfs2_msgpairarray_sm")
      [success ⇒ "activate_server_setup"; default ⇒ "split_cleanup_msgpairarray"];
    state "activate_server_setup" (run "crdirent_activate_server_setup")
      [success ⇒ "activate_server"; default ⇒ "split_remove_entries"];
    state "activate_server" (jump "pvfs2_msgpairarray_sm")
      [success ⇒ "update_dirdata_attrs"; default ⇒ "split_remove_entries"];
    state "deactivate_server_setup" (run "crdirent_deactivate_server_setup")
      [success ⇒ "deactivate_server"; default ⇒ return_];
    state "deactivate_server" (jump "pvfs2_msgpairarray_sm") [default ⇒ "split_remove_entries"];
    state "update_dirdata_attrs" (run "crdirent_update_dirdata_attrs")
      [success ⇒ "update_metahandle_attrs"; default ⇒ "deactivate_server_setup"];
    state "update_metahandle_attrs" (run "crdirent_update_metahandle_attrs")
      ["REMOTE_METAHANDLE" ⇒ "update_metahandle_xfer_msgpair";
       success ⇒ "notify_dirdata_servers_setup";
       default ⇒ "backout_dirdata_attrs"];
    state "update_metahandle_xfer_msgpair" (jump "pvfs2_msgpairarray_sm")
      [success ⇒ "notify_dirdata_servers_setup"; default ⇒ "backout_dirdata_attrs"];
    state "notify_dirdata_servers_setup" (run "crdirent_notify_dirdata_servers_setup")
      ["NOTIFY_DIRDATA" ⇒ "notify_dirdata_servers_xfer";
       success ⇒ "remove_local_copies";
       default ⇒ "backout_dirdata_attrs"];
    state "notify_dirdata_servers_xfer" (jump "pvfs2_msgpairarray_sm")
      [success ⇒ "remove_local_copies"; default ⇒ "backout_dirdata_attrs"];
    state "backout_dirdata_attrs" (run "crdirent_backout_dirdata_attrs")
      [default ⇒ "deactivate_server_setup"];
    state "remove_local_copies" (run "crdirent_remove_local_copies") [default ⇒ return_];
    state "split_cleanup_msgpairarray" (run "crdirent_split_cleanup_msgpairarray")
      [success ⇒ return_; default ⇒ "split_remove_entries"];
    state "split_remove_entries" (run "crdirent_split_remove_entries")
      ["REMOVE_ENTRIES_REQUIRED" ⇒ "split_remove_entries_xfer_msgpair"; default ⇒ return_];
    state "split_remove_entries_xfer_msgpair" (jump "pvfs2_msgpairarray_sm")
      [default ⇒ "remove_entries_cleanup"];
    state "remove_entries_cleanup" (run "crdirent_remove_entries_cleanup") [default ⇒ return_]];
  machine_ "pvfs2_crdirent_sm" [
    state "prelude" (jump "pvfs2_prelude_sm") [success ⇒ "work"; default ⇒ "final_response"];
    state "work" (jump "pvfs2_crdirent_work_sm") [default ⇒ "final_response"];
    state "final_response" (jump "pvfs2_final_response_sm") [default ⇒ "cleanup"];
    state "cleanup" (run "crdirent_cleanup") [default ⇒ terminate]]].

Definition server_create_immutable_copies_sm : sm_file := mkFile "server/create-immutable-copies.sm"
  [("LOCAL_SRC", 103%Z); ("REMOTE_SRC", 104%Z); ("RETRY", 105%Z); ("REPLACE_DONE", 102%Z)] [
  machine_ "pvfs2_create_immutable_copies_sm" [
    state "initialize_structures" (run "initialize_structures")
      [success ⇒ "obtain_source_info"; default ⇒ "cleanup"];
    state "obtain_source_info" (run "obtain_source_info")
      [success ⇒ "inspect_source_info"; default ⇒ "cleanup"];
    state "inspect_source_info" (run "inspect_source_info")
      [success ⇒ "create_local_datahandles"; default ⇒ "cleanup"];
    state "create_local_datahandles" (run "create_local_datahandles")
      [success ⇒ "obtain_local_handle_sizes"; default ⇒ "cleanup"];
    state "obtain_local_handle_sizes" (run "obtain_local_handle_sizes")
      [success ⇒ "inspect_local_handle_sizes"; default ⇒ "cleanup"];
    state "inspect_local_handle_sizes" (run "inspect_local_handle_sizes")
      [success ⇒ "create_remote_datahandles"; default ⇒ "cleanup"];
    state "create_remote_datahandles" (run "create_remote_datahandles")
      [success ⇒ "setup_datahandle_copies"; default ⇒ "remove_local_datahandle_objects"];
    state "setup_datahandle_copies" (run "setup_datahandle_copies")
      [success ⇒ "copy_data"; default ⇒ "remove_local_datahandle_objects"];
    state "copy_data"
      (pjmp "copy_data" ["LOCAL_SRC" ⇉ "pvfs2_pjmp_mirror_work_sm"; "REMOTE_SRC" ⇉ "pvfs2_pjmp_call_msgpairarray_sm"])
      [success ⇒ "check_copy_results";
       default ⇒ "cleanup"];
    state "check_copy_results" (run "check_copy_results")
      [success ⇒ "store_mirror_info"; default ⇒ "check_for_retries"];
    state "check_for_retries" (run "check_for_retries")
      ["RETRY" ⇒ "copy_data"; default ⇒ "store_mirror_info"];
    state "store_mirror_info" (run "store_mirror_info") [default ⇒ "check_store_job"];
    state "check_store_job" (run "check_store_job") [default ⇒ "cleanup"];
    state "replace_remote_datahandle_objects" (run "replace_remote_datahandle_objects")
      ["REPLACE_DONE" ⇒ "remove_local_datahandle_objects";
       default ⇒ "replace_remote_datahandle_objects"];
    state "remove_local_datahandle_objects" (run "remove_local_datahandle_objects")
      [default ⇒ "cleanup"];
    state "cleanup" (run "cleanup") [default ⇒ return_]]].

Definition server_create_sm : sm_file := mkFile "server/create.sm"
  [("REPLACE_DONE", 100%Z)] [
  machine_ "pvfs2_create_sm" [
    state "prelude" (jump "pvfs2_prelude_sm")
      [success ⇒ "create_metafile"; default ⇒ "setup_final_response"];
    state "create_metafile" (run "create_metafile")
      [success ⇒ "check_stuffed"; default ⇒ "setup_final_response"];
    state "check_stuffed" (run "check_stuffed")
      [success ⇒ "create_local_datafiles"; default ⇒ "setup_final_response"];
    state "create_local_datafiles" (run "create_local_datafiles")
      [success ⇒ "setup_local_datafile_handles"; default ⇒ "remove_metafile_object"];
    state "setup_local_datafile_handles" (run "setup_local_datafile_handles")
      [success ⇒ "request_datafiles"; default ⇒ "remove_local_datafile_handles"];
    state "request_datafiles" (run "request_datafiles")
      [success ⇒ "write_keyvals"; default ⇒ "remove_local_datafile_handles"];
    state "write_keyvals" (run "write_keyvals")
      [success ⇒ "setobj_attribs"; default ⇒ "replace_remote_datafile_handles"];
    state "setobj_attribs" (run "setattr_setobj_attribs")
      [success ⇒ "setup_resp"; default ⇒ "remove_keyvals"];
    state "setup_resp" (run "setup_resp") [default ⇒ "setup_final_response"];
    state "remove_local_datafile_handles" (run "remove_local_datafile_handles")
      [default ⇒ "remove_metafile_object"];
    state "replace_remote_datafile_handles" (run "replace_remote_datafile_handles")
      ["REPLACE_DONE" ⇒ "remove_local_datafile_handles";
       default ⇒ "replace_remote_datafile_handles"];
    state "remove_metafile_object" (run "remove_metafile_object")
      [default ⇒ "setup_final_response"];
    state "remove_keyvals" (run "remove_keyvals")
      [success ⇒ "replace_remote_datafile_handles"; default ⇒ "setup_final_response"];
    state "setup_final_response" (run "setup_final_response") [default ⇒ "final_response"];
    state "final_response" (jump "pvfs2_final_response_sm") [default ⇒ "cleanup"];
    state "cleanup" (run "cleanup") [default ⇒ terminate]]].

Definition server_del_eattr_sm : sm_file := mkFile "server/del-eattr.sm"
  [] [
  machine_ "pvfs2_del_eattr_sm" [
    state "prelude" (jump "pvfs2_prelude_sm")
      [success ⇒ "verify_eattribs"; default ⇒ "final_response"];
    state "verify_eattribs" (run "deleattr_verify_eattribs")
      [success ⇒ "delobj_eattrib"; default ⇒ "final_response"];
    state "delobj_eattrib" (run "deleattr_delobj_eattribs") [default ⇒ "final_response"];
    state "final_response" (jump "pvfs2_final_response_sm") [default ⇒ "cleanup"];
    state "cleanup" (run "deleattr_cleanup") [default ⇒ terminate]]].

Definition server_final_response_sm : sm_file := mkFile "server/final-response.sm"
  [] [
  machine_ "pvfs2_final_response_sm" [
    state "release" (run "final_response_release") [default ⇒ "send_resp"];
    state "send_resp" (run "final_response_send_resp") [default ⇒ "cleanup"];
    state "cleanup" (run "final_response_cleanup") [default ⇒ return_]]].

Definition server_flush_sm : sm_file := mkFile "server/flush.sm"
  [("FLUSH_KEYVAL", 4%Z); ("FLUSH_BSTREAM", 5%Z)] [
  machine_ "pvfs2_flush_sm" [
    state "prelude" (jump "pvfs2_prelude_sm")
      [success ⇒ "flush_check_type"; default ⇒ "final_response"];
    state "flush_check_type" (run "flush_check_type")
      ["FLUSH_KEYVAL" ⇒ "kflush"; "FLUSH_BSTREAM" ⇒ "bflush"; default ⇒ "cleanup"];
    state "kflush" (run "flush_keyval_flush") [default ⇒ "kflush_check_error"];
    state "kflush_check_error" (run "flush_check_error") [default ⇒ "final_response"];
    state "bflush" (run "flush_bstream_flush") [default ⇒ "bflush_check_error"];
    state "bflush_check_error" (run "flush_check_error") [default ⇒ "final_response"];
    state "final_response" (jump "pvfs2_final_response_sm") [default ⇒ "cleanup"];
    state "cleanup" (run "flush_cleanup") [default ⇒ terminate]]].

Definition server_get_attr_sm : sm_file := mkFile "server/get-attr.sm"
  [("STATE_SYMLINK", 9%Z); ("STATE_METAFILE", 7%Z); ("STATE_DIR", 10%Z); ("STATE_DIRDATA", 15%Z);
   ("SKIP_NEXT_STATE", 13%Z); ("STATE_DIR_HINT", 11%Z); ("STATE_DONE", 12%Z);
   ("STATE_CAPABILITY", 14%Z)] [
  machine_ "pvfs2_get_attr_work_sm" [
    state "verify_attribs" (run "getattr_verify_attribs")
      ["STATE_SYMLINK" ⇒ "read_symlink_target";
       "STATE_METAFILE" ⇒ "read_metafile_hint";
       "STATE_DIR" ⇒ "get_dist_dir_attr";
       "STATE_DIRDATA" ⇒ "get_dirent_count";
       default ⇒ "check_if_capability_required"];
    state "read_symlink_target" (run "getattr_read_symlink_target")
      [default ⇒ "check_if_capability_required"];
    state "read_metafile_hint" (run "getattr_read_metafile_hint")
      [default ⇒ "interpret_metafile_hint"];
    state "interpret_metafile_hint" (run "getattr_interpret_metafile_hint")
      ["STATE_METAFILE" ⇒ "read_metafile_datafile_handles_if_required";
       default ⇒ "check_if_capability_required"];
    state "read_metafile_datafile_handles_if_required"
      (run "getattr_read_metafile_datafile_handles_if_required")
      [success ⇒ "datafile_handles_safety_check";
       default ⇒ "check_if_capability_required"];
    state "datafile_handles_safety_check" (run "getattr_datafile_handles_safety_check")
      [success ⇒ "read_mirrored_copies_count_if_required";
       default ⇒ "check_if_capability_required"];
    state "read_mirrored_copies_count_if_required"
      (run "getattr_read_mirrored_copies_count_if_required")
      ["SKIP_NEXT_STATE" ⇒ "read_metafile_distribution_if_required";
       default ⇒ "read_mirrored_handles_if_required"];
    state "read_mirrored_handles_if_required" (run "getattr_read_mirrored_handles_if_required")
      ["SKIP_NEXT_STATE" ⇒ "read_metafile_distribution_if_required";
       default ⇒ "mirrored_handles_safety_check"];
    state "mirrored_handles_safety_check" (run "getattr_mirrored_handles_safety_check")
      [success ⇒ "read_metafile_distribution_if_required"; default ⇒ "setup_resp"];
    state "read_metafile_distribution_if_required"
      (run "getattr_read_metafile_distribution_if_required")
      [default ⇒ "interpret_metafile_distribution"];
    state "interpret_metafile_distribution" (run "interpret_metafile_distribution")
      [success ⇒ "detect_stuffed"; default ⇒ "check_if_capability_required"];
    state "detect_stuffed" (run "getattr_detect_stuffed") [default ⇒ "read_stuffed_size"];
    state "read_stuffed_size" (run "getattr_read_stuffed_size")
      [success ⇒ "interpret_stuffed_size"; default ⇒ "check_if_capability_required"];
    state "interpret_stuffed_size" (run "getattr_interpret_stuffed_size")
      [default ⇒ "check_if_capability_required"];
    state "get_dist_dir_attr" (run "getattr_get_dist_dir_attr")
      ["STATE_DIR_HINT" ⇒ "get_dir_hint"; default ⇒ "get_bitmap_and_dirdata_handles"];
    state "get_bitmap_and_dirdata_handles" (run "getattr_get_bitmap_and_dirdata_handles")
      [success ⇒ "get_dir_hint"; default ⇒ "check_if_capability_required"];
    state "get_dirent_count" (run "getattr_get_dirent_count")
      ["STATE_DONE" ⇒ "check_if_capability_required"; default ⇒ "interpret_dirent_count"];
    state "interpret_dirent_count" (run "getattr_interpret_dirent_count")
      [default ⇒ "check_if_capability_required"];
    state "get_dir_hint" (run "getattr_get_dir_hint")
      ["STATE_DONE" ⇒ "check_if_capability_required"; default ⇒ "interpret_dir_hint"];
    state "interpret_dir_hint" (run "getattr_interpret_dir_hint")
      [default ⇒ "check_if_capability_required"];
    state "check_if_capability_required" (run "getattr_check_if_capability_required")
      ["STATE_CAPABILITY" ⇒ "read_acl"; default ⇒ "setup_resp"];
    state "read_acl" (run "getattr_read_acl") [default ⇒ "create_capability"];
    state "create_capability" (run "getattr_create_capability") [default ⇒ "setup_resp"];
    state "setup_resp" (run "getattr_setup_resp") [default ⇒ return_]];
  machine_ "pvfs2_get_attr_with_prelude_sm" [
    state "init" (run "getattr_with_prelude_init") [default ⇒ "prelude"];
    state "prelude" (jump "pvfs2_prelude_sm") [success ⇒ "setup_op"; default ⇒ return_];
    state "setup_op" (run "getattr_setup_op") [default ⇒ "do_work"];
    state "do_work" (jump "pvfs2_get_attr_work_sm") [default ⇒ return_]];
  machine_ "pvfs2_get_attr_sm" [
    state "work" (jump "pvfs2_get_attr_with_prelude_sm") [default ⇒ "final_response"];
    state "final_response" (jump "pvfs2_final_response_sm") [default ⇒ "cleanup"];
    state "cleanup" (run "getattr_cleanup") [default ⇒ terminate]]].

Definition server_get_config_sm : sm_file := mkFile "server/get-config.sm"
  [] [
  machine_ "pvfs2_get_config_sm" [
    state "prelude" (jump "pvfs2_prelude_sm") [success ⇒ "init"; default ⇒ "final_response"];
    state "init" (run "getconfig_init") [default ⇒ "final_response"];
    state "final_response" (jump "pvfs2_final_response_sm") [default ⇒ "cleanup"];
    state "cleanup" (run "getconfig_cleanup") [default ⇒ terminate]]].

Definition server_get_eattr_sm : sm_file := mkFile "server/get-eattr.sm"
  [] [
  machine_ "pvfs2_get_eattr_sm" [
    state "prelude" (jump "pvfs2_prelude_sm") [success ⇒ "setup_resp"; default ⇒ "final_response"];
    state "setup_resp" (run "geteattr_setup_resp")
      [success ⇒ "read_eattrib"; default ⇒ "final_response"];
    state "read_eattrib" (run "geteattr_read_eattrib") [default ⇒ "check_resp"];
    state "check_resp" (run "geteattr_check_resp") [default ⇒ "final_response"];
    state "final_response" (jump "pvfs2_final_response_sm") [default ⇒ "cleanup"];
    state "cleanup" (run "geteattr_cleanup") [default ⇒ terminate]]].

Definition server_io_sm : sm_file := mkFile "server/io.sm"
  [] [
  machine_ "pvfs2_io_sm" [
    state "prelude" (jump "pvfs2_prelude_sm")
      [success ⇒ "send_positive_ack"; default ⇒ "send_negative_ack"];
    state "send_positive_ack" (run "io_send_ack") [success ⇒ "start_flow"; default ⇒ "release"];
    state "send_negative_ack" (run "io_send_ack") [default ⇒ "release"];
    state "start_flow" (run "io_start_flow")
      [success ⇒ "send_completion_ack"; default ⇒ "release"];
    state "send_completion_ack" (run "io_send_completion_ack") [default ⇒ "release"];
    state "release" (run "io_release") [default ⇒ "cleanup"];
    state "cleanup" (run "io_cleanup") [default ⇒ terminate]]].

Definition server_iterate_handles_sm : sm_file := mkFile "server/iterate-handles.sm"
  [] [
  machine_ "pvfs2_iterate_handles_sm" [
    state "prelude" (jump "pvfs2_prelude_sm") [default ⇒ "do_work"];
    state "do_work" (run "iterate_handles_do_work") [default ⇒ "fill_resp"];
    state "fill_resp" (run "iterate_handles_fill_resp") [default ⇒ "final_response"];
    state "final_response" (jump "pvfs2_final_response_sm") [default ⇒ "cleanup"];
    state "cleanup" (run "iterate_handles_cleanup") [default ⇒ terminate]]].

Definition server_job_timer_sm : sm_file := mkFile "server/job-timer.sm"
  [] [
  machine_ "pvfs2_job_timer_sm" [
    state "do_work" (run "job_timer_do_work") [success ⇒ "do_work"; default ⇒ "error"];
    state "error" (run "job_timer_error") [default ⇒ terminate]]].

Definition server_list_attr_sm : sm_file := mkFile "server/list-attr.sm"
  [("LOCAL_OPERATION", 2%Z)] [
  machine_ "pvfs2_list_attr_sm" [
    state "prelude" (jump "pvfs2_prelude_sm")
      [success ⇒ "read_basic_attrs"; default ⇒ "final_response"];
    state "read_basic_attrs" (run "listattr_read_basic_attrs")
      [success ⇒ "setup_getattr"; default ⇒ "final_response"];
    state "setup_getattr"
      (pjmp "listattr_setup_getattr" ["LOCAL_OPERATION" ⇉ "pvfs2_pjmp_get_attr_work_sm"])
      [success ⇒ "interpret_getattrs";
       default ⇒ "final_response"];
    state "interpret_getattrs" (run "listattr_interpret_getattrs") [default ⇒ "final_response"];
    state "final_response" (jump "pvfs2_final_response_sm") [default ⇒ "cleanup"];
    state "cleanup" (run "listattr_cleanup") [default ⇒ terminate]]].

Definition server_list_eattr_sm : sm_file := mkFile "server/list-eattr.sm"
  [] [
  machine_ "pvfs2_list_eattr_sm" [
    state "prelude" (jump "pvfs2_prelude_sm") [success ⇒ "setup_resp"; default ⇒ "final_response"];
    state "setup_resp" (run "listeattr_setup_resp")
      [success ⇒ "list_eattrib"; default ⇒ "final_response"];
    state "list_eattrib" (run "listeattr_list_eattrib") [default ⇒ "check_resp"];
    state "check_resp" (run "listeattr_check_resp") [default ⇒ "final_response"];
    state "final_response" (jump "pvfs2_final_response_sm") [default ⇒ "cleanup"];
    state "cleanup" (run "listeattr_cleanup") [default ⇒ terminate]]].

Definition server_lookup_sm : sm_file := mkFile "server/lookup.sm"
  [("STATE_ENOTDIR", 22%Z); ("LOOKUP_CHECK_PERMS", 25%Z); ("LOOKUP_CHECK_DIR_ACLS", 24%Z);
   ("LOCAL_DIRENT", 26%Z); ("REMOTE_DIRENT", 27%Z)] [
  machine_ "pvfs2_lookup_sm" [
    state "prelude" (jump "pvfs2_prelude_sm") [success ⇒ "init"; default ⇒ "final_response"];
    state "init" (run "lookup_init")
      ["STATE_ENOTDIR" ⇒ "setup_resp"; default ⇒ "read_object_metadata"];
    state "read_object_metadata" (run "lookup_read_object_metadata")
      [success ⇒ "verify_object_metadata"; default ⇒ "setup_resp"];
    state "verify_object_metadata" (run "lookup_verify_object_metadata")
      ["LOOKUP_CHECK_PERMS" ⇒ "check_perms";
       success ⇒ "read_num_directory_entry_handles";
       default ⇒ "setup_resp"];
    state "check_perms" (run "lookup_check_perms")
      ["LOOKUP_CHECK_DIR_ACLS" ⇒ "read_directory_acls";
       success ⇒ "read_num_directory_entry_handles";
       default ⇒ "setup_resp"];
    state "read_directory_acls" (run "lookup_read_directory_acls") [default ⇒ "check_acls"];
    state "check_acls" (run "lookup_check_acls")
      [success ⇒ "read_num_directory_entry_handles"; default ⇒ "setup_resp"];
    state "read_num_directory_entry_handles" (run "lookup_read_num_directory_entry_handles")
      [default ⇒ "read_directory_entry_handles"];
    state "read_directory_entry_handles" (run "lookup_read_directory_entry_handles")
      [success ⇒ "read_directory_entry"; default ⇒ "setup_resp"];
    state "read_directory_entry" (run "lookup_read_directory_entry")
      ["LOCAL_DIRENT" ⇒ "read_directory_entry_local";
       "REMOTE_DIRENT" ⇒ "read_directory_entry_remote";
       default ⇒ "setup_resp"];
    state "read_directory_entry_local" (run "lookup_read_directory_entry_local")
      [success ⇒ "read_object_metadata"; default ⇒ "setup_resp"];
    state "read_directory_entry_remote" (run "lookup_read_directory_entry_remote")
      [success ⇒ "read_directory_entry_xfer_msgpair"; default ⇒ "setup_resp"];
    state "read_directory_entry_xfer_msgpair" (jump "pvfs2_msgpairarray_sm")
      [success ⇒ "read_object_metadata"; default ⇒ "setup_resp"];
    state "setup_resp" (run "lookup_setup_resp") [default ⇒ "final_response"];
    state "final_response" (jump "pvfs2_final_response_sm") [default ⇒ "cleanup"];
    state "cleanup" (run "lookup_cleanup") [default ⇒ terminate]]].

Definition server_mgmt_create_root_dir_sm : sm_file := mkFile "server/mgmt-create-root-dir.sm"
  [("NO_REQ", 100%Z); ("REMOTE_OPERATION", 102%Z); ("LOCAL_OPERATION", 101%Z)] [
  machine_ "pvfs2_mgmt_create_root_dir_sm" [
    state "check_for_request" (run "mgmt_create_root_dir_check_for_request")
      ["NO_REQ" ⇒ "create_dist_dir_struct"; default ⇒ "cleanup_noreq"];
    state "create_dist_dir_struct" (run "mgmt_create_root_dir_create_dist_dir_struct")
      ["REMOTE_OPERATION" ⇒ "request_remote_dirdata_dspace";
       success ⇒ "create_local_dirdata_dspace";
       default ⇒ "cleanup_noreq"];
    state "request_remote_dirdata_dspace"
      (run "mgmt_create_root_dir_request_remote_dirdata_dspace")
      [success ⇒ "create_local_dirdata_dspace";
       default ⇒ "retry_remote_dirdata_dspace"];
    state "retry_remote_dirdata_dspace" (run "mgmt_create_root_dir_retry_remote_dirdata_dspace")
      [default ⇒ "request_remote_dirdata_dspace"];
    state "create_local_dirdata_dspace" (run "mgmt_create_root_dir_create_local_dirdata_dspace")
      [success ⇒ "fill_handles_to_dist_dir_struct"; default ⇒ "cleanup_noreq"];
    state "fill_handles_to_dist_dir_struct"
      (run "mgmt_create_root_dir_fill_handles_to_dist_dir_struct")
      [success ⇒ "dirdata_attr_and_keyval_setup";
       default ⇒ "cleanup_noreq"];
    state "dirdata_attr_and_keyval_setup"
      (run "mgmt_create_root_dir_dirdata_attr_and_keyval_setup")
      [success ⇒ "run_tree_setattr";
       default ⇒ "cleanup_noreq"];
    state "run_tree_setattr" (jump "pvfs2_tree_setattr_work_sm")
      [default ⇒ "tree_setattr_cleanup"];
    state "tree_setattr_cleanup" (run "mgmt_create_root_dir_tree_setattr_cleanup")
      [success ⇒ "write_keyval_to_meta_handle"; default ⇒ "cleanup_noreq"];
    state "write_keyval_to_meta_handle" (run "mgmt_create_root_dir_write_keyval_to_meta_handle")
      [success ⇒ "write_keyval_to_dirdata_handle"; default ⇒ "cleanup_noreq"];
    state "write_keyval_to_dirdata_handle"
      (run "mgmt_create_root_dir_write_keyval_to_dirdata_handle")
      [success ⇒ "mkdir_lost_and_found_setup_msgpair";
       default ⇒ "cleanup_noreq"];
    state "mkdir_lost_and_found_setup_msgpair"
      (run "mgmt_create_root_dir_mkdir_lost_and_found_setup_msgpair")
      ["REMOTE_OPERATION" ⇒ "mkdir_lost_and_found_msg_xfer_msgpair";
       "LOCAL_OPERATION" ⇒ "local_mkdir";
       default ⇒ "cleanup_noreq"];
    state "mkdir_lost_and_found_msg_xfer_msgpair" (jump "pvfs2_msgpairarray_sm")
      [success ⇒ "crdirent_lost_and_found_setup_msgpair"; default ⇒ "cleanup_noreq"];
    state "local_mkdir" (jump "pvfs2_mkdir_work_sm")
      [success ⇒ "local_mkdir_cleanup"; default ⇒ "cleanup_noreq"];
    state "local_mkdir_cleanup" (run "mgmt_create_root_dir_local_mkdir_cleanup")
      [success ⇒ "crdirent_lost_and_found_setup_msgpair"; default ⇒ "cleanup_noreq"];
    state "crdirent_lost_and_found_setup_msgpair" (run "crdirent_lost_and_found_setup_msgpair")
      ["REMOTE_OPERATION" ⇒ "crdirent_lost_and_found_xfer_msgpair";
       "LOCAL_OPERATION" ⇒ "local_crdirent";
       default ⇒ "cleanup_noreq"];
    state "crdirent_lost_and_found_xfer_msgpair" (jump "pvfs2_msgpairarray_sm")
      [success ⇒ "cleanup_noreq"; default ⇒ "delete_lost_and_found_handle_setup_msgpair"];
    state "local_crdirent" (jump "pvfs2_crdirent_work_sm")
      [success ⇒ "local_crdirent_cleanup"; default ⇒ "delete_lost_and_found_handle_setup_msgpair"];
    state "local_crdirent_cleanup" (run "mgmt_create_root_dir_local_crdirent_cleanup")
      [default ⇒ "cleanup_noreq"];
    state "delete_lost_and_found_handle_setup_msgpair"
      (run "delete_lost_and_found_handle_setup_msgpair")
      ["REMOTE_OPERATION" ⇒ "delete_lost_and_found_handle_xfer_msgpair";
       "LOCAL_OPERATION" ⇒ "local_delete";
       default ⇒ "cleanup_noreq"];
    state "delete_lost_and_found_handle_xfer_msgpair" (jump "pvfs2_msgpairarray_sm")
      [default ⇒ "cleanup_noreq"];
    state "local_delete" (jump "pvfs2_remove_work_sm")
      [success ⇒ "local_delete_cleanup"; default ⇒ "cleanup_noreq"];
    state "local_delete_cleanup" (run "mgmt_create_root_dir_local_delete_cleanup")
      [default ⇒ "cleanup_noreq"];
    state "cleanup_noreq" (run "mgmt_create_root_dir_cleanup_noreq") [default ⇒ terminate]]].

Definition server_mgmt_get_dirdata_handle_sm : sm_file := mkFile "server/mgmt-get-dirdata-handle.sm"
  [] [
  machine_ "pvfs2_mgmt_get_dirdata_handle_sm" [
    state "prelude" (jump "pvfs2_prelude_sm")
      [success ⇒ "get_dirdata_handle_from_parent"; default ⇒ "final_response"];
    state "get_dirdata_handle_from_parent" (run "mgmt_get_dirdata_handle_from_parent")
      [success ⇒ "get_dirdata_handle_setup_resp"; default ⇒ "final_response"];
    state "get_dirdata_handle_setup_resp" (run "mgmt_get_dirdata_handle_setup_resp")
      [default ⇒ "final_response"];
    state "final_response" (jump "pvfs2_final_response_sm") [default ⇒ "cleanup"];
    state "cleanup" (run "mgmt_get_dirdata_handle_cleanup") [default ⇒ terminate]]].

Definition server_mgmt_get_dirent_sm : sm_file := mkFile "server/mgmt-get-dirent.sm"
  [] [
  machine_ "pvfs2_mgmt_get_dirent_sm" [
    state "prelude" (jump "pvfs2_prelude_sm")
      [success ⇒ "get_dist_dir_attr"; default ⇒ "final_response"];
    state "get_dist_dir_attr" (run "mgmt_get_dirent_get_dist_dir_attr")
      [success ⇒ "get_bitmap"; default ⇒ "get_dirent_setup_resp"];
    state "get_bitmap" (run "mgmt_get_dirent_get_bitmap")
      [success ⇒ "get_dirent"; default ⇒ "get_dirent_setup_resp"];
    state "get_dirent" (run "mgmt_get_dirent") [default ⇒ "get_dirent_setup_resp"];
    state "get_dirent_setup_resp" (run "mgmt_get_dirent_setup_resp") [default ⇒ "final_response"];
    state "final_response" (jump "pvfs2_final_response_sm") [default ⇒ "cleanup"];
    state "cleanup" (run "mgmt_get_dirent_cleanup") [default ⇒ terminate]]].

Definition server_mgmt_get_uid_sm : sm_file := mkFile "server/mgmt-get-uid.sm"
  [] [
  machine_ "pvfs2_uid_mgmt_sm" [
    state "prelude" (jump "pvfs2_prelude_sm") [default ⇒ "do_work"];
    state "do_work" (run "uid_mgmt_do_work") [default ⇒ "final_response"];
    state "final_response" (jump "pvfs2_final_response_sm") [default ⇒ "cleanup"];
    state "cleanup" (run "uid_mgmt_cleanup") [default ⇒ terminate]]].

Definition server_mgmt_get_user_cert_sm : sm_file := mkFile "server/mgmt-get-user-cert.sm"
  [] [
  machine_ "pvfs2_get_user_cert_keyreq_sm" [
    state "keyreq_prelude" (jump "pvfs2_prelude_sm")
      [success ⇒ "send_public_key"; default ⇒ "keyreq_final_response"];
    state "send_public_key" (run "get_user_cert_keyreq_send_public_key")
      [default ⇒ "keyreq_final_response"];
    state "keyreq_final_response" (jump "pvfs2_final_response_sm") [default ⇒ "keyreq_cleanup"];
    state "keyreq_cleanup" (run "get_user_cert_keyreq_cleanup") [default ⇒ terminate]];
  machine_ "pvfs2_get_user_cert_sm" [
    state "prelude" (jump "pvfs2_prelude_sm") [success ⇒ "setup"; default ⇒ "final_response"];
    state "setup" (run "get_user_cert_setup") [default ⇒ "ldap_lookup"];
    state "ldap_lookup" (run "get_user_cert_ldap_lookup")
      [success ⇒ "gen_cert"; default ⇒ "final_response"];
    state "gen_cert" (run "get_user_cert_gen_cert") [default ⇒ "final_response"];
    state "final_response" (jump "pvfs2_final_response_sm") [default ⇒ "cleanup"];
    state "cleanup" (run "get_user_cert_cleanup") [default ⇒ terminate]]].

Definition server_mgmt_remove_dirent_sm : sm_file := mkFile "server/mgmt-remove-dirent.sm"
  [] [
  machine_ "pvfs2_mgmt_remove_dirent_sm" [
    state "prelude" (jump "pvfs2_prelude_sm")
      [success ⇒ "get_dist_dir_attr"; default ⇒ "final_response"];
    state "get_dist_dir_attr" (run "mgmt_remove_dirent_get_dist_dir_attr")
      [success ⇒ "get_bitmap"; default ⇒ "final_response"];
    state "get_bitmap" (run "mgmt_remove_dirent_get_bitmap")
      [success ⇒ "remove_dirent"; default ⇒ "final_response"];
    state "remove_dirent" (run "mgmt_remove_dirent") [default ⇒ "final_response"];
    state "final_response" (jump "pvfs2_final_response_sm") [default ⇒ "cleanup"];
    state "cleanup" (run "mgmt_remove_dirent_cleanup") [default ⇒ terminate]]].

Definition server_mgmt_remove_object_sm : sm_file := mkFile "server/mgmt-remove-object.sm"
  [] [
  machine_ "pvfs2_mgmt_remove_object_sm" [
    state "prelude" (jump "pvfs2_prelude_sm")
      [success ⇒ "remove_dspace"; default ⇒ "final_response"];
    state "remove_dspace" (run "mgmt_remove_dspace") [default ⇒ "final_response"];
    state "final_response" (jump "pvfs2_final_response_sm") [default ⇒ "cleanup"];
    state "cleanup" (run "mgmt_remove_cleanup") [default ⇒ terminate]]].

Definition server_mgmt_split_dirent_sm : sm_file := mkFile "server/mgmt-split-dirent.sm"
  [] [
  machine_ "pvfs2_mgmt_split_dirent_sm" [
    state "prelude" (jump "pvfs2_prelude_sm")
      [success ⇒ "write_directory_entries"; default ⇒ "final_response"];
    state "write_directory_entries" (run "mgmt_split_dirent_write_directory_entries")
      [success ⇒ "update_directory_attr"; default ⇒ "final_response"];
    state "update_directory_attr" (run "mgmt_split_dirent_update_directory_attr")
      [default ⇒ "final_response"];
    state "final_response" (jump "pvfs2_final_response_sm") [default ⇒ "release"];
    state "release" (run "mgmt_split_dirent_release") [default ⇒ "cleanup"];
    state "cleanup" (run "mgmt_split_dirent_cleanup") [default ⇒ terminate]]].

Definition server_mirror_sm : sm_file := mkFile "server/mirror.sm"
  [("NO_DATA_TO_COPY", 100%Z); ("COMM_DONE", 400%Z)] [
  machine_ "pvfs2_mirror_sm" [
    state "prelude" (jump "pvfs2_prelude_sm")
      [success ⇒ "inspect_inputs"; default ⇒ "final_response"];
    state "inspect_inputs" (run "inspect_inputs")
      [success ⇒ "mirror_do_work"; default ⇒ "final_response"];
    state "mirror_do_work" (jump "pvfs2_mirror_work_sm") [default ⇒ "final_response"];
    state "final_response" (jump "pvfs2_final_response_sm") [default ⇒ "mirror_cleanup"];
    state "mirror_cleanup" (run "mirror_cleanup") [default ⇒ terminate]];
  machine_ "pvfs2_mirror_work_sm" [
    state "initialize_structures" (run "initialize_structures")
      ["NO_DATA_TO_COPY" ⇒ "cleanup_mirror_work";
       success ⇒ "setup_write_request";
       default ⇒ "cleanup_mirror_work"];
    state "setup_write_request" (run "setup_write_request")
      [success ⇒ "call_msgpairarray"; default ⇒ "cleanup_mirror_work"];
    state "call_msgpairarray" (jump "pvfs2_msgpairarray_sm") [default ⇒ "cleanup_msgpairarray"];
    state "cleanup_msgpairarray" (run "cleanup_msgpairarray")
      [success ⇒ "post_ack_and_flow"; default ⇒ "cleanup_mirror_work"];
    state "post_ack_and_flow" (run "post_ack_and_flow")
      [success ⇒ "check_comm"; default ⇒ "cleanup_mirror_work"];
    state "check_comm" (run "check_comm") ["COMM_DONE" ⇒ "check_results"; default ⇒ "check_comm"];
    state "check_results" (run "check_results") [default ⇒ "cleanup_mirror_work"];
    state "cleanup_mirror_work" (run "cleanup_mirror_work") [default ⇒ return_]]].

Definition server_mkdir_sm : sm_file := mkFile "server/mkdir.sm"
  [("SKIP", 100%Z)] [
  machine_ "pvfs2_mkdir_work_sm" [
    state "prep_sm" (run "mkdir_prep_sm") [default ⇒ "create"];
    state "create" (run "mkdir_directory_dspace_create")
      [success ⇒ "set_attrib"; default ⇒ "err_msg"];
    state "set_attrib" (run "mkdir_directory_dspace_setattr")
      [success ⇒ "create_dist_dir_struct"; default ⇒ "err_msg"];
    state "create_dist_dir_struct" (run "mkdir_create_dist_dir_struct")
      [success ⇒ "create_local_dirdata_dspace"; default ⇒ "err_msg"];
    state "create_local_dirdata_dspace" (run "mkdir_dirdata_dspace_create")
      [success ⇒ "setattr_on_local_dirdata_dspace"; default ⇒ "err_msg"];
    state "setattr_on_local_dirdata_dspace" (run "mkdir_dirdata_dspace_setattr")
      [success ⇒ "get_remote_dirdata_handles"; default ⇒ "err_msg"];
    state "get_remote_dirdata_handles" (run "mkdir_get_remote_dirdata_handles")
      ["SKIP" ⇒ "setattr_on_directory_keyval";
       success ⇒ "fill_handles_to_dist_dir_struct";
       default ⇒ "err_msg"];
    state "fill_handles_to_dist_dir_struct" (run "mkdir_fill_handles_to_dist_dir_struct")
      [default ⇒ "remote_dirdata_attr_and_keyval_setup_msgpair"];
    state "remote_dirdata_attr_and_keyval_setup_msgpair"
      (run "mkdir_remote_dirdata_attr_and_keyval_setup_msgpair")
      [success ⇒ "remote_dirdata_attr_and_keyval_xfer_msgpair";
       default ⇒ "err_msg"];
    state "remote_dirdata_attr_and_keyval_xfer_msgpair" (jump "pvfs2_msgpairarray_sm")
      [success ⇒ "setattr_on_directory_keyval"; default ⇒ "err_msg"];
    state "setattr_on_directory_keyval" (run "mkdir_directory_keyval_setattr")
      [success ⇒ "setattr_on_dirdata_keyval"; default ⇒ "err_msg"];
    state "setattr_on_dirdata_keyval" (run "mkdir_dirdata_keyval_setattr")
      [success ⇒ return_; default ⇒ "err_msg"];
    state "err_msg" (run "mkdir_error") [default ⇒ return_]];
  machine_ "pvfs2_mkdir_sm" [
    state "prelude" (jump "pvfs2_prelude_sm") [success ⇒ "work"; default ⇒ "final_response"];
    state "work" (jump "pvfs2_mkdir_work_sm") [default ⇒ "final_response"];
    state "final_response" (jump "pvfs2_final_response_sm") [default ⇒ "cleanup"];
    state "cleanup" (run "mkdir_cleanup") [default ⇒ terminate]]].

Definition server_noop_sm : sm_file := mkFile "server/noop.sm"
  [] [
  machine_ "pvfs2_noop_sm" [
    state "prelude" (jump "pvfs2_prelude_sm") [default ⇒ "final_response"];
    state "final_response" (jump "pvfs2_final_response_sm") [default ⇒ "cleanup"];
    state "cleanup" (run "noop_cleanup") [default ⇒ terminate]]].

Definition server_perf_mon_sm : sm_file := mkFile "server/perf-mon.sm"
  [] [
  machine_ "pvfs2_perf_mon_sm" [
    state "prelude" (jump "pvfs2_prelude_sm") [default ⇒ "do_work"];
    state "do_work" (run "perf_mon_do_work") [default ⇒ "final_response"];
    state "final_response" (jump "pvfs2_final_response_sm") [default ⇒ "cleanup"];
    state "cleanup" (run "perf_mon_cleanup") [default ⇒ terminate]]].

Definition server_perf_update_sm : sm_file := mkFile "server/perf-update.sm"
  [("STOP_TIMER", 15%Z)] [
  machine_ "pvfs2_perf_update_sm" [
    state "do_work" (run "perf_update_do_work")
      [success ⇒ "do_work"; "STOP_TIMER" ⇒ "stop_timer"; default ⇒ "error"];
    state "stop_timer" (run "perf_update_stop_timer") [default ⇒ terminate];
    state "error" (run "perf_update_error") [default ⇒ terminate]]].

Definition server_pjmp_machines_sm : sm_file := mkFile "server/pjmp-machines.sm"
  [] [
  machine_ "pvfs2_pjmp_set_attr_work_sm" [
    state "pjmp_set_attr_work_initialize" (run "pjmp_initialize")
      [default ⇒ "pjmp_call_set_attr_work_sm"];
    state "pjmp_call_set_attr_work_sm" (jump "pvfs2_set_attr_with_prelude_sm")
      [default ⇒ "pjmp_set_attr_release_job"];
    state "pjmp_set_attr_release_job" (run "pjmp_release_job")
      [default ⇒ "pjmp_set_attr_work_execute_terminate"];
    state "pjmp_set_attr_work_execute_terminate" (run "pjmp_execute_terminate")
      [default ⇒ terminate]];
  machine_ "pvfs2_pjmp_get_attr_work_sm" [
    state "pjmp_get_attr_work_initialize" (run "pjmp_initialize")
      [default ⇒ "pjmp_call_get_attr_work_sm"];
    state "pjmp_call_get_attr_work_sm" (jump "pvfs2_get_attr_with_prelude_sm")
      [default ⇒ "pjmp_get_attr_release_job"];
    state "pjmp_get_attr_release_job" (run "pjmp_release_job")
      [default ⇒ "pjmp_get_attr_work_execute_terminate"];
    state "pjmp_get_attr_work_execute_terminate" (run "pjmp_execute_terminate")
      [default ⇒ terminate]];
  machine_ "pvfs2_pjmp_create_immutable_copies_sm" [
    state "pjmp_create_immutable_copies_initialize" (run "pjmp_initialize")
      [default ⇒ "pjmp_call_create_immutable_copies_sm"];
    state "pjmp_call_create_immutable_copies_sm" (jump "pvfs2_create_immutable_copies_sm")
      [default ⇒ "pjmp_create_immutable_copies_execute_terminate"];
    state "pjmp_create_immutable_copies_execute_terminate" (run "pjmp_execute_terminate")
      [default ⇒ terminate]];
  machine_ "pvfs2_pjmp_mirror_work_sm" [
    state "pjmp_mirror_work_initialize" (run "pjmp_initialize")
      [default ⇒ "pjmp_call_mirror_work_sm"];
    state "pjmp_call_mirror_work_sm" (jump "pvfs2_mirror_work_sm")
      [default ⇒ "pjmp_mirror_work_execute_terminate"];
    state "pjmp_mirror_work_execute_terminate" (run "pjmp_execute_terminate")
      [default ⇒ terminate]];
  machine_ "pvfs2_pjmp_remove_work_sm" [
    state "pjmp_remove_work_initialize" (run "pjmp_initialize")
      [default ⇒ "pjmp_call_remove_work_sm"];
    state "pjmp_call_remove_work_sm" (jump "pvfs2_remove_with_prelude_sm")
      [default ⇒ "pjmp_remove_work_release_job"];
    state "pjmp_remove_work_release_job" (run "pjmp_remove_work_release_job")
      [default ⇒ "pjmp_remove_work_execute_terminate"];
    state "pjmp_remove_work_execute_terminate" (run "pjmp_remove_work_execute_terminate")
      [default ⇒ terminate]];
  machine_ "pvfs2_pjmp_call_msgpairarray_sm" [
    state "call_msgpairarray" (run "call_msgpairarray")
      [success ⇒ "transfer_msgpair"; default ⇒ "cleanup_msgpairarray"];
    state "transfer_msgpair" (jump "pvfs2_msgpairarray_sm") [default ⇒ "cleanup_msgpairarray"];
    state "cleanup_msgpairarray" (run "cleanup_msgpairarray") [default ⇒ terminate]]].

Definition server_precreate_pool_refiller_sm : sm_file := mkFile "server/precreate-pool-refiller.sm"
  [("STATE_RESET", 188%Z)] [
  machine_ "pvfs2_precreate_pool_refiller_sm" [
    state "setup" (run "setup_fn") [success ⇒ "wait_for_threshold"; default ⇒ "error_retry"];
    state "wait_for_threshold" (run "wait_for_threshold_fn")
      [success ⇒ "setup_batch_create"; default ⇒ "error_retry"];
    state "setup_batch_create" (run "setup_batch_create_fn")
      [success ⇒ "msgpair_xfer_batch_create"; default ⇒ "error_retry"];
    state "msgpair_xfer_batch_create" (jump "pvfs2_msgpairarray_sm")
      [success ⇒ "store_handles"; default ⇒ "msgpair_retry"];
    state "msgpair_retry" (run "msgpair_retry_fn")
      ["STATE_RESET" ⇒ "error_retry"; default ⇒ "setup_batch_create"];
    state "store_handles" (run "store_handles_fn")
      [success ⇒ "wait_for_threshold"; default ⇒ "error_retry"];
    state "error_retry" (run "error_fn") [success ⇒ "setup"; default ⇒ terminate]]].

Definition server_prelude_sm : sm_file := mkFile "server/prelude.sm"
  [] [
  machine_ "pvfs2_prelude_work_sm" [
    state "req_sched" (run "prelude_req_sched") [success ⇒ "getattr_if_needed"; default ⇒ return_];
    state "getattr_if_needed" (run "prelude_getattr_if_needed") [default ⇒ "validate"];
    state "validate" (run "prelude_validate") [default ⇒ return_]];
  machine_ "pvfs2_prelude_sm" [
    state "setup" (run "prelude_setup") [default ⇒ "prelude_work"];
    state "prelude_work" (jump "pvfs2_prelude_work_sm") [default ⇒ return_]]].

Definition server_proto_error_sm : sm_file := mkFile "server/proto-error.sm"
  [] [
  machine_ "pvfs2_proto_error_sm" [
    state "init" (run "proto_error_init") [default ⇒ "cleanup"];
    state "cleanup" (run "proto_error_cleanup") [default ⇒ terminate]]].

Definition server_readdir_sm : sm_file := mkFile "server/readdir.sm"
  [] [
  machine_ "pvfs2_readdir_sm" [
    state "prelude" (jump "pvfs2_prelude_sm")
      [success ⇒ "verify_directory_metadata"; default ⇒ "final_response"];
    state "verify_directory_metadata" (run "readdir_verify_directory_metadata")
      [success ⇒ "iterate_on_entries"; default ⇒ "setup_resp"];
    state "iterate_on_entries" (run "readdir_iterate_on_entries") [default ⇒ "setup_resp"];
    state "setup_resp" (run "readdir_setup_resp") [default ⇒ "final_response"];
    state "final_response" (jump "pvfs2_final_response_sm") [default ⇒ "cleanup"];
    state "cleanup" (run "readdir_cleanup") [default ⇒ terminate]]].

Definition server_remove_sm : sm_file := mkFile "server/remove.sm"
  [("REBUILD_DONE", 6%Z); ("STATE_TYPE_DATAFILE", 2%Z); ("STATE_TYPE_DIRDATA", 3%Z);
   ("STATE_TYPE_DIRECTORY", 1%Z)] [
  machine_ "pvfs2_remove_dirdata_handles_work_sm" [
    state "remove_dirdata_init" (run "remove_dirdata_init") [default ⇒ "get_dist_dir_attr"];
    state "get_dist_dir_attr" (run "remove_get_dist_dir_attr")
      [success ⇒ "get_dirdata_bitmap_and_handles"; default ⇒ return_];
    state "get_dirdata_bitmap_and_handles" (run "remove_get_dirdata_bitmap_and_handles")
      [success ⇒ "get_dirent_count_setup_tree_getattr";
       default ⇒ "remove_dirdata_handles_cleanup"];
    state "get_dirent_count_setup_tree_getattr" (run "remove_get_dirent_count_setup_tree_getattr")
      [success ⇒ "get_dirent_count_call_tree_getattr";
       default ⇒ "get_dirent_count_cleanup_tree_getattr"];
    state "get_dirent_count_call_tree_getattr" (jump "pvfs2_tree_getattr_work_sm")
      [success ⇒ "get_dirent_count_examine_tree_getattr";
       default ⇒ "remove_dirdata_handles_cleanup"];
    state "get_dirent_count_examine_tree_getattr"
      (run "remove_get_dirent_count_examine_tree_getattr")
      [success ⇒ "remove_dirdata_handles_setup_tree_remove";
       default ⇒ "remove_dirdata_handles_cleanup"];
    state "get_dirent_count_cleanup_tree_getattr"
      (run "remove_get_dirent_count_cleanup_tree_getattr")
      [default ⇒ "remove_dirdata_handles_cleanup"];
    state "remove_dirdata_handles_setup_tree_remove"
      (run "remove_dirdata_handles_setup_tree_remove")
      [success ⇒ "remove_dirdata_handles_call_tree_remove";
       default ⇒ "remove_dirdata_handles_cleanup_tree_remove"];
    state "remove_dirdata_handles_call_tree_remove" (jump "pvfs2_tree_remove_work_sm")
      [success ⇒ "remove_dirdata_handles_check_remove_success";
       default ⇒ "rebuild_dirdata_handle_local"];
    state "remove_dirdata_handles_check_remove_success"
      (run "remove_dirdata_handles_check_remove_success")
      [success ⇒ "remove_dirdata_handles_cleanup";
       default ⇒ "rebuild_dirdata_handle_local"];
    state "remove_dirdata_handles_cleanup_tree_remove"
      (run "remove_dirdata_handles_cleanup_tree_remove")
      [default ⇒ "remove_dirdata_handles_cleanup"];
    state "rebuild_dirdata_handle_local" (run "remove_rebuild_dirdata_handle_local")
      [success ⇒ "rebuild_dirdata_handle_remote"; default ⇒ "remove_dirdata_handles_cleanup"];
    state "rebuild_dirdata_handle_remote" (run "remove_rebuild_dirdata_handle_remote")
      [success ⇒ "remote_dirdata_keyval_setup_msgpair";
       default ⇒ "remove_dirdata_handles_cleanup"];
    state "remote_dirdata_keyval_setup_msgpair"
      (run "remove_rebuild_remote_dirdata_keyval_setup_msgpair")
      ["REBUILD_DONE" ⇒ "rebuild_done";
       success ⇒ "remote_dirdata_keyval_xfer_msgpair";
       default ⇒ "remove_dirdata_handles_cleanup"];
    state "rebuild_done" (run "remove_rebuild_done") [default ⇒ "remove_dirdata_handles_cleanup"];
    state "remote_dirdata_keyval_xfer_msgpair" (jump "pvfs2_msgpairarray_sm")
      [success ⇒ "write_dirdata_keyval"; default ⇒ "remove_dirdata_handles_cleanup"];
    state "write_dirdata_keyval" (run "remove_rebuild_write_dirdata_keyval")
      [default ⇒ "remove_dirdata_handles_cleanup"];
    state "remove_dirdata_handles_cleanup" (run "remove_remove_dirdata_handles_cleanup")
      [default ⇒ return_]];
  machine_ "pvfs2_remove_work_sm" [
    state "check_object_type" (run "remove_check_object_type")
      [success ⇒ "verify_object_metadata";
       "STATE_TYPE_DATAFILE" ⇒ "remove_dspace";
       "STATE_TYPE_DIRDATA" ⇒ "getattr_of_dirdata_handle";
       default ⇒ return_];
    state "verify_object_metadata" (run "remove_verify_object_metadata")
      ["STATE_TYPE_DIRECTORY" ⇒ "remove_dirdata_handles";
       success ⇒ "remove_dspace";
       default ⇒ return_];
    state "remove_dspace" (run "remove_remove_dspace") [default ⇒ return_];
    state "getattr_of_dirdata_handle" (run "remove_get_dirent_count")
      [default ⇒ "check_dirdata_entries"];
    state "check_dirdata_entries" (run "remove_check_dirdata_entries")
      [success ⇒ "remove_dspace"; default ⇒ return_];
    state "remove_dirdata_handles" (jump "pvfs2_remove_dirdata_handles_work_sm")
      [success ⇒ "remove_dspace"; default ⇒ return_]];
  machine_ "pvfs2_remove_with_prelude_sm" [
    state "prelude" (jump "pvfs2_prelude_sm") [success ⇒ "do_work"; default ⇒ return_];
    state "do_work" (jump "pvfs2_remove_work_sm") [default ⇒ return_]];
  machine_ "pvfs2_remove_sm" [
    state "work" (jump "pvfs2_remove_with_prelude_sm") [default ⇒ "final_response"];
    state "final_response" (jump "pvfs2_final_response_sm") [default ⇒ "cleanup"];
    state "cleanup" (run "remove_cleanup") [default ⇒ terminate]]].

Definition server_rmdirent_sm : sm_file := mkFile "server/rmdirent.sm"
  [("UPDATE_DIR_ATTR_REQUIRED", 133%Z)] [
  machine_ "pvfs2_rmdirent_sm" [
    state "prelude" (jump "pvfs2_prelude_sm")
      [success ⇒ "get_dirdata_attr"; default ⇒ "final_response"];
    state "get_dirdata_attr" (run "rmdirent_get_dirdata_attr")
      [success ⇒ "get_dist_dir_attr"; default ⇒ "final_response"];
    state "get_dist_dir_attr" (run "rmdirent_get_dist_dir_attr")
      [success ⇒ "get_bitmap"; default ⇒ "setup_resp"];
    state "get_bitmap" (run "rmdirent_get_bitmap")
      [success ⇒ "remove_directory_entry"; default ⇒ "setup_resp"];
    state "remove_directory_entry" (run "rmdirent_remove_directory_entry")
      [success ⇒ "check_for_req_dir_update"; default ⇒ "remove_directory_entry_failure"];
    state "remove_directory_entry_failure" (run "rmdirent_remove_directory_entry_failure")
      [default ⇒ "setup_resp"];
    state "check_for_req_dir_update" (run "rmdirent_check_for_req_dir_update")
      ["UPDATE_DIR_ATTR_REQUIRED" ⇒ "update_directory_attr"; default ⇒ "setup_resp"];
    state "update_directory_attr" (run "rmdirent_update_directory_attr") [default ⇒ "setup_resp"];
    state "setup_resp" (run "rmdirent_setup_resp") [default ⇒ "final_response"];
    state "final_response" (jump "pvfs2_final_response_sm") [default ⇒ "cleanup"];
    state "cleanup" (run "rmdirent_cleanup") [default ⇒ terminate]]].

Definition server_set_attr_sm : sm_file := mkFile "server/set-attr.sm"
  [("STATE_METAFILE", 7%Z); ("STATE_SYMLINK", 8%Z); ("STATE_DIRDATA", 9%Z);
   ("STATE_DIRECTORY", 10%Z)] [
  machine_ "pvfs2_set_dirdata_attr_work_sm" [
    state "set_dirdata_attr" (run "set_dirdata_attr_setup")
      [success ⇒ "run_tree_setattr"; default ⇒ "set_dirdata_attr_cleanup"];
    state "run_tree_setattr" (jump "pvfs2_tree_setattr_work_sm")
      [default ⇒ "set_dirdata_attr_cleanup"];
    state "set_dirdata_attr_cleanup" (run "setattr_set_dirdata_attr_cleanup") [default ⇒ return_]];
  machine_ "pvfs2_set_attr_work_sm" [
    state "verify_attribs" (run "setattr_verify_attribs")
      ["STATE_METAFILE" ⇒ "write_metafile_datafile_handles_if_required";
       "STATE_SYMLINK" ⇒ "write_symlink_target_if_required";
       "STATE_DIRDATA" ⇒ "write_distr_dir_data_if_required";
       "STATE_DIRECTORY" ⇒ "set_dirdata_attrs";
       success ⇒ "setobj_attrib";
       default ⇒ "work_cleanup"];
    state "write_metafile_datafile_handles_if_required"
      (run "setattr_write_metafile_datafile_handles_if_required")
      [success ⇒ "write_metafile_distribution_if_required";
       default ⇒ "work_cleanup"];
    state "write_metafile_distribution_if_required"
      (run "setattr_write_metafile_distribution_if_required")
      [success ⇒ "setobj_attrib";
       default ⇒ "work_cleanup"];
    state "write_symlink_target_if_required" (run "setattr_write_symlink_target_if_required")
      [success ⇒ "setobj_attrib"; default ⇒ "work_cleanup"];
    state "write_distr_dir_data_if_required" (run "setattr_write_distr_dir_data_if_required")
      [success ⇒ "setobj_attrib"; default ⇒ "work_cleanup"];
    state "set_dirdata_attrs" (jump "pvfs2_set_dirdata_attr_work_sm")
      [success ⇒ "write_distr_dir_data_if_required"; default ⇒ "work_cleanup"];
    state "setobj_attrib" (run "setattr_setobj_attribs") [default ⇒ "work_cleanup"];
    state "work_cleanup" (run "setattr_work_cleanup") [default ⇒ return_]];
  machine_ "pvfs2_set_attr_with_prelude_sm" [
    state "prelude" (jump "pvfs2_prelude_sm") [success ⇒ "do_work"; default ⇒ return_];
    state "do_work" (jump "pvfs2_set_attr_work_sm") [default ⇒ return_]];
  machine_ "pvfs2_set_attr_sm" [
    state "work" (jump "pvfs2_set_attr_with_prelude_sm") [default ⇒ "final_response"];
    state "final_response" (jump "pvfs2_final_response_sm") [default ⇒ "cleanup"];
    state "cleanup" (run "setattr_cleanup") [default ⇒ terminate]]].

Definition server_set_eattr_sm : sm_file := mkFile "server/set-eattr.sm"
  [("SKIP_UPDATE", 400%Z); ("PVFS2_MAKE_IMMUTABLE_COPIES", 200%Z); ("CREATE_IMM_COPIES", 300%Z)] [
  machine_ "pvfs2_set_eattr_sm" [
    state "prelude" (jump "pvfs2_prelude_sm")
      [success ⇒ "verify_eattrib"; default ⇒ "final_response"];
    state "verify_eattrib" (run "seteattr_verify_eattribs")
      [success ⇒ "setobj_eattrib"; default ⇒ "final_response"];
    state "setobj_eattrib" (run "seteattr_setobj_eattribs")
      [success ⇒ "check_mirror_mode"; default ⇒ "final_response"];
    state "check_mirror_mode" (run "seteattr_get_metahint_flag")
      ["SKIP_UPDATE" ⇒ "check_immutable"; default ⇒ "update_flag"];
    state "update_flag" (run "seteattr_set_metahint_flag")
      [success ⇒ "check_immutable"; default ⇒ "final_response"];
    state "check_immutable" (run "check_immutable")
      ["PVFS2_MAKE_IMMUTABLE_COPIES" ⇒ "generate_copies"; default ⇒ "final_response"];
    state "generate_copies"
      (pjmp "setup_create_immutable_copies" ["CREATE_IMM_COPIES" ⇉ "pvfs2_pjmp_create_immutable_copies_sm"])
      [success ⇒ "inspect_imm_copies";
       default ⇒ "final_response"];
    state "inspect_imm_copies" (run "inspect_imm_copies") [default ⇒ "final_response"];
    state "final_response" (jump "pvfs2_final_response_sm") [default ⇒ "cleanup"];
    state "cleanup" (run "seteattr_cleanup") [default ⇒ terminate]]].

Definition server_setparam_sm : sm_file := mkFile "server/setparam.sm"
  [] [
  machine_ "pvfs2_setparam_sm" [
    state "prelude" (jump "pvfs2_prelude_sm") [success ⇒ "work"; default ⇒ "final_response"];
    state "work" (run "setparam_work") [default ⇒ "final_response"];
    state "final_response" (jump "pvfs2_final_response_sm") [default ⇒ "cleanup"];
    state "cleanup" (run "setparam_cleanup") [default ⇒ terminate]]].

Definition server_small_io_sm : sm_file := mkFile "server/small-io.sm"
  [] [
  machine_ "pvfs2_small_io_sm" [
    state "prelude" (jump "pvfs2_prelude_sm") [success ⇒ "start_job"; default ⇒ "send_response"];
    state "start_job" (run "small_io_start_job") [default ⇒ "check_size"];
    state "check_size" (run "small_io_check_size") [default ⇒ "send_response"];
    state "send_response" (jump "pvfs2_final_response_sm") [default ⇒ "cleanup"];
    state "cleanup" (run "small_io_cleanup") [default ⇒ terminate]]].

Definition server_statfs_sm : sm_file := mkFile "server/statfs.sm"
  [] [
  machine_ "pvfs2_statfs_sm" [
    state "prelude" (jump "pvfs2_prelude_sm") [default ⇒ "do_statfs"];
    state "do_statfs" (run "statfs_do_statfs") [default ⇒ "final_response"];
    state "final_response" (jump "pvfs2_final_response_sm") [default ⇒ "cleanup"];
    state "cleanup" (run "statfs_cleanup") [default ⇒ terminate]]].

Definition server_tree_communicate_sm : sm_file := mkFile "server/tree-communicate.sm"
  [("REMOTE_OPERATION", 3%Z); ("LOCAL_OPERATION", 2%Z)] [
  machine_ "pvfs2_tree_setattr_sm" [
    state "tree_setattr_do_work" (jump "pvfs2_tree_setattr_work_sm")
      [default ⇒ "tree_setattr_final_response"];
    state "tree_setattr_final_response" (jump "pvfs2_final_response_sm")
      [default ⇒ "tree_setattr_cleanup"];
    state "tree_setattr_cleanup" (run "tree_setattr_cleanup") [default ⇒ terminate]];
  machine_ "pvfs2_tree_setattr_work_sm" [
    state "tree_setattr_work_do_work"
      (pjmp "tree_setattr_setup" ["REMOTE_OPERATION" ⇉ "pvfs2_pjmp_call_msgpairarray_sm"; "LOCAL_OPERATION" ⇉ "pvfs2_pjmp_set_attr_work_sm"])
      [default ⇒ "tree_setattr_work_cleanup"];
    state "tree_setattr_work_cleanup" (run "tree_setattr_work_cleanup") [default ⇒ return_]];
  machine_ "pvfs2_tree_remove_sm" [
    state "tree_remove_do_work" (jump "pvfs2_tree_remove_work_sm")
      [default ⇒ "tree_remove_final_response"];
    state "tree_remove_final_response" (jump "pvfs2_final_response_sm")
      [default ⇒ "tree_remove_cleanup"];
    state "tree_remove_cleanup" (run "tree_remove_cleanup") [default ⇒ terminate]];
  machine_ "pvfs2_tree_remove_work_sm" [
    state "tree_remove_work_do_work"
      (pjmp "tree_remove_setup" ["REMOTE_OPERATION" ⇉ "pvfs2_pjmp_call_msgpairarray_sm"; "LOCAL_OPERATION" ⇉ "pvfs2_pjmp_remove_work_sm"])
      [default ⇒ "tree_remove_work_cleanup"];
    state "tree_remove_work_cleanup" (run "tree_remove_work_cleanup") [default ⇒ return_]];
  machine_ "pvfs2_tree_get_file_size_sm" [
    state "tree_get_file_size_do_work" (jump "pvfs2_tree_get_file_size_work_sm")
      [default ⇒ "tree_get_file_size_final_response"];
    state "tree_get_file_size_final_response" (jump "pvfs2_final_response_sm")
      [default ⇒ "tree_get_file_size_cleanup"];
    state "tree_get_file_size_cleanup" (run "tree_get_file_size_cleanup") [default ⇒ terminate]];
  machine_ "pvfs2_tree_get_file_size_work_sm" [
    state "tree_get_file_size_work_do_work"
      (pjmp "tree_get_file_size_setup" ["REMOTE_OPERATION" ⇉ "pvfs2_pjmp_call_msgpairarray_sm"; "LOCAL_OPERATION" ⇉ "pvfs2_pjmp_get_attr_work_sm"])
      [default ⇒ "tree_get_file_size_work_cleanup"];
    state "tree_get_file_size_work_cleanup" (run "tree_get_file_size_work_cleanup")
      [default ⇒ return_]];
  machine_ "pvfs2_tree_getattr_sm" [
    state "tree_getattr_do_work" (jump "pvfs2_tree_getattr_work_sm")
      [default ⇒ "tree_getattr_final_response"];
    state "tree_getattr_final_response" (jump "pvfs2_final_response_sm")
      [default ⇒ "tree_getattr_cleanup"];
    state "tree_getattr_cleanup" (run "tree_getattr_cleanup") [default ⇒ terminate]];
  machine_ "pvfs2_tree_getattr_work_sm" [
    state "tree_getattr_work_do_work"
      (pjmp "tree_getattr_setup" ["REMOTE_OPERATION" ⇉ "pvfs2_pjmp_call_msgpairarray_sm"; "LOCAL_OPERATION" ⇉ "pvfs2_pjmp_get_attr_work_sm"])
      [default ⇒ "tree_getattr_work_cleanup"];
    state "tree_getattr_work_cleanup" (run "tree_getattr_work_cleanup") [default ⇒ return_]]].

Definition server_truncate_sm : sm_file := mkFile "server/truncate.sm"
  [] [
  machine_ "pvfs2_truncate_sm" [
    state "prelude" (jump "pvfs2_prelude_sm") [success ⇒ "resize"; default ⇒ "final_response"];
    state "resize" (run "truncate_resize") [default ⇒ "check_error"];
    state "check_error" (run "truncate_check_error") [default ⇒ "final_response"];
    state "final_response" (jump "pvfs2_final_response_sm") [default ⇒ "cleanup"];
    state "cleanup" (run "truncate_cleanup") [default ⇒ terminate]]].

Definition server_unexpected_sm : sm_file := mkFile "server/unexpected.sm"
  [] [
  machine_ "pvfs2_unexpected_sm" [
    state "post_unexpected" (run "unexpected_post") [default ⇒ "map_request"];
    state "map_request" (run "unexpected_map") [default ⇒ terminate]]].

Definition server_unstuff_sm : sm_file := mkFile "server/unstuff.sm"
  [("STATE_UNSTUFF", 33%Z); ("STATE_CAPABILITY", 34%Z)] [
  machine_ "pvfs2_unstuff_sm" [
    state "prelude" (jump "pvfs2_prelude_sm")
      [success ⇒ "getattr_setup"; default ⇒ "final_response"];
    state "getattr_setup" (run "getattr_setup")
      [success ⇒ "getattr_do_work"; default ⇒ "final_response"];
    state "getattr_do_work" (jump "pvfs2_get_attr_work_sm") [default ⇒ "getattr_interpret"];
    state "getattr_interpret" (run "getattr_interpret")
      ["STATE_UNSTUFF" ⇒ "get_keyvals"; default ⇒ "final_response"];
    state "get_keyvals" (run "get_keyvals")
      [success ⇒ "inspect_keyvals"; default ⇒ "final_response"];
    state "inspect_keyvals" (run "inspect_keyvals")
      [success ⇒ "get_handles"; default ⇒ "final_response"];
    state "get_handles" (run "get_handles") [default ⇒ "set_handles_on_object"];
    state "set_handles_on_object" (run "set_handles_on_object")
      [success ⇒ "update_dfile_count"; default ⇒ "final_response"];
    state "update_dfile_count" (run "update_dfile_count")
      [success ⇒ "remove_layout"; default ⇒ "final_response"];
    state "remove_layout" (run "remove_layout")
      [success ⇒ "get_capability_setup"; default ⇒ "final_response"];
    state "get_capability_setup" (run "get_capability_setup")
      ["STATE_CAPABILITY" ⇒ "get_capability"; default ⇒ "final_response"];
    state "get_capability" (jump "pvfs2_get_attr_work_sm") [default ⇒ "get_capability_cleanup"];
    state "get_capability_cleanup" (run "get_capability_cleanup") [default ⇒ "final_response"];
    state "final_response" (jump "pvfs2_final_response_sm") [default ⇒ "cleanup"];
    state "cleanup" (run "cleanup") [default ⇒ terminate]]].

Definition server_files : list sm_file :=
  [server_atomic_eattr_sm;
   server_batch_create_sm;
   server_batch_remove_sm;
   server_chdirent_sm;
   server_crdirent_sm;
   server_create_immutable_copies_sm;
   server_create_sm;
   server_del_eattr_sm;
   server_final_response_sm;
   server_flush_sm;
   server_get_attr_sm;
   server_get_config_sm;
   server_get_eattr_sm;
   server_io_sm;
   server_iterate_handles_sm;
   server_job_timer_sm;
   server_list_attr_sm;
   server_list_eattr_sm;
   server_lookup_sm;
   server_mgmt_create_root_dir_sm;
   server_mgmt_get_dirdata_handle_sm;
   server_mgmt_get_dirent_sm;
   server_mgmt_get_uid_sm;
   server_mgmt_get_user_cert_sm;
   server_mgmt_remove_dirent_sm;
   server_mgmt_remove_object_sm;
   server_mgmt_split_dirent_sm;
   server_mirror_sm;
   server_mkdir_sm;
   server_noop_sm;
   server_perf_mon_sm;
   server_perf_update_sm;
   server_pjmp_machines_sm;
   server_precreate_pool_refiller_sm;
   server_prelude_sm;
   server_proto_error_sm;
   server_readdir_sm;
   server_remove_sm;
   server_rmdirent_sm;
   server_set_attr_sm;
   server_set_eattr_sm;
   server_setparam_sm;
   server_small_io_sm;
   server_statfs_sm;
   server_tree_communicate_sm;
   server_truncate_sm;
   server_unexpected_sm;
   server_unstuff_sm].
