(* ===== verification/Machines.v ===== *)
(** The state machines of OrangeFS, compiled and run.

    The descriptions of MachinesClient, MachinesServer and MachinesCommon are
    compiled by the model of statecomp, and linked into the tables of the
    client and of the server; the dispatch tables say which machine an
    operation runs.  The theorems are about the engine of StateMachine on these
    tables, for all actions. *)

From stdpp Require Import base list gmap strings relations.
From S2P Require Import Prelude Errors ServerOps StateMachine StateMachineSpec StateMachineRun.
From S2P Require Import StateMachineEvents Statecomp MachinesCommon MachinesClient MachinesServer.

#[local] Open Scope string_scope.
#[local] Open Scope Z_scope.

(** * Linking *)

Definition link (fs : list sm_file) : list (sid * sm_table) * list (string * sid) :=
  default ([], []) (gen_files fs).

Definition tables_of (fs : list sm_file) : gmap sid sm_table := list_to_map (link fs).1.
Definition machines_of (fs : list sm_file) : gmap string sid := list_to_map (link fs).2.

Definition program_of (fs : list sm_file) : program sid string sid :=
  let tables := tables_of fs in
  let machines := machines_of fs in
  mkProgram (λ st, tables !! st) (λ m, machines !! m).

Definition client_program : program sid string sid := program_of (common_files ++ client_files).
Definition server_program : program sid string sid := program_of (common_files ++ server_files).

(** Nothing is missing or defined twice: the maps have as many entries as the
    lists. *)
Definition linked (fs : list sm_file) : bool :=
  match gen_files fs with
  | Some (sts, ms) =>
      bool_decide (size (list_to_map sts : gmap sid sm_table) = length sts ∧
                   size (list_to_map ms : gmap string sid) = length ms)
  | None => false
  end.

(** * Nesting *)

(** The depth of the calls of a machine. *)
Fixpoint machine_depth (fuel : nat) (ms : list machine) (name : string) : nat :=
  match fuel with
  | O => 0
  | S fuel =>
      match filter (λ m, m_name m = name) ms with
      | m :: _ =>
          max_list (map (λ s, match st_action s with
                              | ACTION_JUMP n => S (machine_depth fuel ms n)
                              | _ => 0
                              end)%nat (m_states m))
      | [] => 0
      end
  end.

Definition depths (fs : list sm_file) : gmap sid nat :=
  let ms := concat (f_machines <$> fs) in
  list_to_map (concat (map (λ f, concat (map (λ m,
    let n := machine_depth 9 ms (m_name m) in
    map (λ s, ((f_path f, st_name s), n)) (m_states m)) (f_machines f))) fs)).

Definition depth_in (fs : list sm_file) : sid → nat :=
  let d := depths fs in λ st, default 0%nat (d !! st).

(** * Tests of the tables *)

Definition check_wf (fs : list sm_file) : bool :=
  let prog := program_of fs in
  let depth := depth_in fs in
  forallb (λ '(st, d), check_state prog depth st d) (link fs).1 &&
  forallb (λ '(_, st), is_state prog st && (depth st <=? Z.to_nat PINT_STATE_STACK_SIZE)%nat) (link fs).2.

Lemma tables_lookup fs st d : tables_of fs !! st = Some d → (st, d) ∈ (link fs).1.
Proof. apply elem_of_list_to_map_2. Qed.

Lemma machines_lookup fs m st : machines_of fs !! m = Some st → (m, st) ∈ (link fs).2.
Proof. apply elem_of_list_to_map_2. Qed.

Lemma check_wf_sound fs :
  check_wf fs = true →
  wf_program (program_of fs) (depth_in fs) ∧
  (∀ m st, first_state (program_of fs) m = Some st →
     is_Some (state_of (program_of fs) st) ∧
     (depth_in fs st ≤ Z.to_nat PINT_STATE_STACK_SIZE)%nat).
Proof.
  intros [Hs Hm]%andb_prop. split.
  - intros st d Hd%tables_lookup. apply check_state_sound.
    apply (proj1 (forallb_forall _ _) Hs (st, d)). by apply list_elem_of_In.
  - intros m st Hf%machines_lookup%list_elem_of_In.
    pose proof (proj1 (forallb_forall _ _) Hm _ Hf) as [Hst Hle%Nat.leb_le]%andb_prop.
    split; [by apply is_state_spec|done].
Qed.

Lemma client_wf : check_wf (common_files ++ client_files) = true.
Proof. vm_compute. reflexivity. Qed.

Lemma server_wf : check_wf (common_files ++ server_files) = true.
Proof. vm_compute. reflexivity. Qed.

(** * Dispatch *)

Definition BMI_UNEXPECTED_OP : Z := 999.

(** Operation and machine of the entries; [None] is an entry without
    parameters.  The entries 50 and 51 are those of a server without
    certificates. *)
Definition PINT_server_req_table : list (Z * option string) :=
  [(PVFS_SERV_INVALID, None);
   (PVFS_SERV_CREATE, Some "pvfs2_create_sm");
   (PVFS_SERV_REMOVE, Some "pvfs2_remove_sm");
   (PVFS_SERV_IO, Some "pvfs2_io_sm");
   (PVFS_SERV_GETATTR, Some "pvfs2_get_attr_sm");
   (PVFS_SERV_SETATTR, Some "pvfs2_set_attr_sm");
   (PVFS_SERV_LOOKUP_PATH, Some "pvfs2_lookup_sm");
   (PVFS_SERV_CRDIRENT, Some "pvfs2_crdirent_sm");
   (PVFS_SERV_RMDIRENT, Some "pvfs2_rmdirent_sm");
   (PVFS_SERV_CHDIRENT, Some "pvfs2_chdirent_sm");
   (PVFS_SERV_TRUNCATE, Some "pvfs2_truncate_sm");
   (PVFS_SERV_MKDIR, Some "pvfs2_mkdir_sm");
   (PVFS_SERV_READDIR, Some "pvfs2_readdir_sm");
   (PVFS_SERV_GETCONFIG, Some "pvfs2_get_config_sm");
   (PVFS_SERV_WRITE_COMPLETION, None);
   (PVFS_SERV_FLUSH, Some "pvfs2_flush_sm");
   (PVFS_SERV_MGMT_SETPARAM, Some "pvfs2_setparam_sm");
   (PVFS_SERV_MGMT_NOOP, Some "pvfs2_noop_sm");
   (PVFS_SERV_STATFS, Some "pvfs2_statfs_sm");
   (PVFS_SERV_PERF_UPDATE, Some "pvfs2_perf_update_sm");
   (PVFS_SERV_MGMT_PERF_MON, Some "pvfs2_perf_mon_sm");
   (PVFS_SERV_MGMT_ITERATE_HANDLES, Some "pvfs2_iterate_handles_sm");
   (PVFS_SERV_MGMT_DSPACE_INFO_LIST, None);
   (PVFS_SERV_MGMT_EVENT_MON, None);
   (PVFS_SERV_MGMT_REMOVE_OBJECT, Some "pvfs2_mgmt_remove_object_sm");
   (PVFS_SERV_MGMT_REMOVE_DIRENT, Some "pvfs2_mgmt_remove_dirent_sm");
   (PVFS_SERV_MGMT_GET_DIRDATA_HANDLE, Some "pvfs2_mgmt_get_dirdata_handle_sm");
   (PVFS_SERV_JOB_TIMER, Some "pvfs2_job_timer_sm");
   (PVFS_SERV_PROTO_ERROR, Some "pvfs2_proto_error_sm");
   (PVFS_SERV_GETEATTR, Some "pvfs2_get_eattr_sm");
   (PVFS_SERV_SETEATTR, Some "pvfs2_set_eattr_sm");
   (PVFS_SERV_DELEATTR, Some "pvfs2_del_eattr_sm");
   (PVFS_SERV_LISTEATTR, Some "pvfs2_list_eattr_sm");
   (PVFS_SERV_SMALL_IO, Some "pvfs2_small_io_sm");
   (PVFS_SERV_LISTATTR, Some "pvfs2_list_attr_sm");
   (PVFS_SERV_BATCH_CREATE, Some "pvfs2_batch_create_sm");
   (PVFS_SERV_BATCH_REMOVE, Some "pvfs2_batch_remove_sm");
   (PVFS_SERV_PRECREATE_POOL_REFILLER, Some "pvfs2_precreate_pool_refiller_sm");
   (PVFS_SERV_UNSTUFF, Some "pvfs2_unstuff_sm");
   (PVFS_SERV_MIRROR, Some "pvfs2_mirror_sm");
   (PVFS_SERV_IMM_COPIES, Some "pvfs2_create_immutable_copies_sm");
   (PVFS_SERV_TREE_REMOVE, Some "pvfs2_tree_remove_sm");
   (PVFS_SERV_TREE_GET_FILE_SIZE, Some "pvfs2_tree_get_file_size_sm");
   (PVFS_SERV_MGMT_GET_UID, Some "pvfs2_uid_mgmt_sm");
   (PVFS_SERV_TREE_SETATTR, Some "pvfs2_tree_setattr_sm");
   (PVFS_SERV_MGMT_GET_DIRENT, Some "pvfs2_mgmt_get_dirent_sm");
   (PVFS_SERV_MGMT_CREATE_ROOT_DIR, Some "pvfs2_mgmt_create_root_dir_sm");
   (PVFS_SERV_MGMT_SPLIT_DIRENT, Some "pvfs2_mgmt_split_dirent_sm");
   (PVFS_SERV_ATOMICEATTR, Some "pvfs2_atomic_eattr_sm");
   (PVFS_SERV_TREE_GETATTR, Some "pvfs2_tree_getattr_sm");
   (PVFS_SERV_MGMT_GET_USER_CERT, None);
   (PVFS_SERV_MGMT_GET_USER_CERT_KEYREQ, None)].

(** [params->state_machine] of an entry without parameters is read through a
    null pointer. *)
Definition server_op_state_get_machine (op : Z) : exec (option string) :=
  if decide (op = BMI_UNEXPECTED_OP) then Done (Some "pvfs2_unexpected_sm")
  else if decide (op >= 0 ∧ op < PVFS_SERV_NUM_OPS) then
    match PINT_server_req_table !! Z.to_nat op with
    | Some (_, Some m) => Done (Some m)
    | _ => Fault BadAccess
    end
  else Done None.

Definition PVFS_OP_SYS_MAXVALID : Z := 22.
Definition PVFS_OP_SYS_MAXVAL : Z := 69.
Definition PVFS_OP_MGMT_MAXVALID : Z := 84.
Definition PVFS_OP_MGMT_MAXVAL : Z := 199.
Definition PVFS_SERVER_GET_CONFIG : Z := 200.
Definition PVFS_CLIENT_JOB_TIMER : Z := 300.
Definition PVFS_CLIENT_PERF_COUNT_TIMER : Z := 301.
Definition PVFS_DEV_UNEXPECTED : Z := 400.

Definition PINT_client_sm_sys_table : list (option string) :=
  [Some "pvfs2_client_remove_sm"; Some "pvfs2_client_create_sm"; Some "pvfs2_client_mkdir_sm";
   Some "pvfs2_client_symlink_sm"; Some "pvfs2_client_sysint_getattr_sm"; Some "pvfs2_client_io_sm";
   Some "pvfs2_client_flush_sm"; Some "pvfs2_client_truncate_sm";
   Some "pvfs2_client_sysint_readdir_sm"; Some "pvfs2_client_setattr_sm";
   Some "pvfs2_client_lookup_sm"; Some "pvfs2_client_rename_sm"; Some "pvfs2_client_get_eattr_sm";
   Some "pvfs2_client_set_eattr_sm"; Some "pvfs2_client_del_eattr_sm";
   Some "pvfs2_client_list_eattr_sm"; Some "pvfs2_client_small_io_sm"; Some "pvfs2_client_statfs_sm";
   Some "pvfs2_fs_add_sm"; Some "pvfs2_client_readdirplus_sm"; Some "pvfs2_client_atomic_eattr_sm"].

(** The last entry is that of a client without certificates. *)
Definition PINT_client_sm_mgmt_table : list (option string) :=
  [Some "pvfs2_client_mgmt_setparam_list_sm"; Some "pvfs2_client_mgmt_noop_sm";
   Some "pvfs2_client_mgmt_statfs_list_sm"; Some "pvfs2_client_mgmt_perf_mon_list_sm";
   Some "pvfs2_client_mgmt_iterate_handles_list_sm"; Some "pvfs2_client_mgmt_get_dfile_array_sm";
   Some "pvfs2_client_mgmt_event_mon_list_sm"; Some "pvfs2_client_mgmt_remove_object_sm";
   Some "pvfs2_client_mgmt_remove_dirent_sm"; Some "pvfs2_client_mgmt_create_dirent_sm";
   Some "pvfs2_client_mgmt_get_dirdata_handle_sm"; Some "pvfs2_client_mgmt_get_uid_list_sm";
   Some "pvfs2_client_mgmt_get_dirdata_array_sm"; None].

(** An index outside of a table is not checked. *)
Definition entry_at_index (tbl : list (option string)) (i : Z) : exec (option string) :=
  if decide (i < 0) then Fault BadAccess
  else match tbl !! Z.to_nat i with Some m => Done m | None => Fault BadAccess end.

Definition client_op_state_get_machine (op : Z) : exec (option string) :=
  if decide (op = PVFS_SERVER_GET_CONFIG) then Done (Some "pvfs2_server_get_config_sm")
  else if decide (op = PVFS_CLIENT_JOB_TIMER) then Done (Some "pvfs2_client_job_timer_sm")
  else if decide (op = PVFS_CLIENT_PERF_COUNT_TIMER) then Done (Some "pvfs2_client_perf_count_timer_sm")
  else if decide (op = PVFS_DEV_UNEXPECTED) then Done (Some "pvfs2_sysdev_unexp_sm")
  else if decide (op <= PVFS_OP_SYS_MAXVAL) then entry_at_index PINT_client_sm_sys_table (op - 1)
  else if decide (op <= PVFS_OP_MGMT_MAXVAL)
  then entry_at_index PINT_client_sm_mgmt_table (op - PVFS_OP_SYS_MAXVAL - 1)
  else Done None.

Definition PINT_smcb_sys_op (op : Z) : bool := bool_decide (op > 0 ∧ op < PVFS_OP_SYS_MAXVALID).

Definition PINT_smcb_mgmt_op (op : Z) : bool :=
  bool_decide (op > PVFS_OP_SYS_MAXVAL ∧ op < PVFS_OP_MGMT_MAXVALID).

Definition PINT_smcb_misc_op (op : Z) : bool :=
  bool_decide (op = PVFS_SERVER_GET_CONFIG ∨ op = PVFS_CLIENT_JOB_TIMER ∨
               op = PVFS_CLIENT_PERF_COUNT_TIMER ∨ op = PVFS_DEV_UNEXPECTED).

Definition PINT_smcb_invalid_op (op : Z) : bool :=
  negb (PINT_smcb_sys_op op) && negb (PINT_smcb_mgmt_op op) && negb (PINT_smcb_misc_op op).

(** * Requests *)

(** The request is scheduled, released by the scheduler, and answered. *)
Inductive request_event := Scheduled | Released | Responded.

#[export] Instance request_event_eq_dec : EqDecision request_event.
Proof. solve_decision. Defined.

(** The actions of the prelude, of the final response and of the I/O and
    protocol error machines that call [job_req_sched_post],
    [job_req_sched_release] and [job_bmi_send_list] for the request of their
    block.  A mirror request may have been released already in
    [cleanup_mirror_work] when it comes to [final_response_release], which then
    has nothing to release; the acknowledgement that follows a write is not the
    response. *)
Definition request_mark (f : sid) : option request_event :=
  if decide (f = ("server/prelude.sm", "prelude_req_sched")) then Some Scheduled
  else if decide (f = ("server/final-response.sm", "final_response_release")) then Some Released
  else if decide (f = ("server/final-response.sm", "final_response_send_resp")) then Some Responded
  else if decide (f = ("server/io.sm", "io_release")) then Some Released
  else if decide (f = ("server/io.sm", "io_send_ack")) then Some Responded
  else if decide (f = ("server/proto-error.sm", "proto_error_init")) then Some Responded
  else None.

(** Labels are computed from the ends of the machines on. *)
Abbreviation label_map := (gmap sid (list request_event)).

Definition transition_label (lab : label_map) (t : PINT_tran_tbl_s sid) : option (list request_event) :=
  match tran_flag t with
  | SM_TERM | SM_RETURN => Some []
  | _ => next_state t ≫= λ st, lab !! st
  end.

Fixpoint first_label (lab : label_map) (tbl : list (PINT_tran_tbl_s sid)) : option (list request_event) :=
  match tbl with
  | [] => None
  | t :: rest => match transition_label lab t with Some w => Some w | None => first_label lab rest end
  end.

Abbreviation state_set := (gmap sid unit).

Definition in_set (ret : state_set) (st : sid) : bool := match ret !! st with Some _ => true | None => false end.

Definition relax (prog : program sid string sid) (mark : sid → option request_event)
    (ret : state_set) (sts : list (sid * sm_table)) (lab : label_map) : label_map :=
  foldl (λ lab '(st, d),
    match lab !! st with
    | Some _ => lab
    | None =>
        match own prog mark (λ s, lab !! s) (in_set ret) st,
              trtbl d ≫= first_label lab with
        | Some o, Some w => <[st := (o ++ w)%list]> lab
        | _, _ => lab
        end
    end) lab sts.

(** The states from which the machine does not terminate: all, less those with
    a transition that does or that leads to one that does. *)
Definition shrink (prog : program sid string sid) (sts : list (sid * sm_table)) (ret : state_set)
    : state_set :=
  foldl (λ ret '(st, d),
    if (nested_returns prog (in_set ret) d &&
        match trtbl d with
        | Some tbl => forallb (check_returns (in_set ret)) tbl
        | None => false
        end)
    then ret else delete st ret) ret sts.

Definition server_states : list (sid * sm_table) := (link (common_files ++ server_files)).1.

Definition server_returns : state_set :=
  Nat.iter 12 (shrink server_program server_states)
    (list_to_map ((λ '(st, _), (st, tt)) <$> server_states)).

(** The labels of the states outside of the files [skip]. *)
Definition server_labels (mark : sid → option request_event) (skip : list string) : label_map :=
  Nat.iter 12 (relax server_program mark server_returns
    (reverse (filter (λ '(st, _), st.1 ∉ skip) server_states))) ∅.

(** The machine of a flush request can end without an answer, and that of a
    batch removal schedules once for every object. *)
Definition protocol_labels : label_map :=
  server_labels request_mark ["server/flush.sm"; "server/batch-remove.sm"].

Definition response_mark (f : sid) : option request_event :=
  match request_mark f with Some Responded => Some Responded | _ => None end.

Definition response_labels : label_map := server_labels response_mark ["server/flush.sm"].

Definition labels_checked (mark : sid → option request_event) (lab : label_map) : bool :=
  forallb (λ '(st, d), check_events server_program mark (λ s, lab !! s) (in_set server_returns) st d)
    server_states.

Lemma protocol_labels_checked : labels_checked request_mark protocol_labels = true.
Proof. vm_compute. reflexivity. Qed.

Lemma response_labels_checked : labels_checked response_mark response_labels = true.
Proof. vm_compute. reflexivity. Qed.

Lemma states_lookup fs st d : state_of (program_of fs) st = Some d → In (st, d) (link fs).1.
Proof. intros Hd. by apply list_elem_of_In, tables_lookup. Qed.

Lemma server_states_lookup st d :
  state_of server_program st = Some d → In (st, d) server_states.
Proof. unfold server_program, server_states. apply states_lookup. Qed.

Lemma labels_right mark lab st tr res w :
  labels_checked mark lab = true → activation server_program st tr res → lab !! st = Some w →
  events server_program mark tr = w.
Proof.
  intros Hc Ha Hw.
  assert (∀ st d, state_of server_program st = Some d →
    check_events server_program mark (λ s, lab !! s) (in_set server_returns) st d = true) as Hck.
  { intros s d Hd. exact (proj1 (forallb_forall _ _) Hc _ (server_states_lookup _ _ Hd)). }
  destruct (labels_sound server_program mark _ _ Hck) as [Hs _].
  destruct (Hs st tr res Ha) as [_ Hl]. by apply Hl.
Qed.

(** What the block of a request does to it. *)
Definition protocol (op : Z) : list request_event :=
  if decide (op = PVFS_SERV_IO) then [Scheduled; Responded; Released]
  else if decide (op ∈ [PVFS_SERV_TREE_REMOVE; PVFS_SERV_TREE_GET_FILE_SIZE; PVFS_SERV_TREE_SETATTR;
                        PVFS_SERV_TREE_GETATTR]) then [Released; Responded]
  else [Scheduled; Released; Responded].

(** The requests that clients and other servers send, but for flushes and batch
    removals. *)
Definition request_ops : list Z :=
  [PVFS_SERV_CREATE; PVFS_SERV_REMOVE; PVFS_SERV_IO; PVFS_SERV_GETATTR; PVFS_SERV_SETATTR;
   PVFS_SERV_LOOKUP_PATH; PVFS_SERV_CRDIRENT; PVFS_SERV_RMDIRENT; PVFS_SERV_CHDIRENT;
   PVFS_SERV_TRUNCATE; PVFS_SERV_MKDIR; PVFS_SERV_READDIR; PVFS_SERV_GETCONFIG;
   PVFS_SERV_MGMT_SETPARAM; PVFS_SERV_MGMT_NOOP; PVFS_SERV_STATFS; PVFS_SERV_MGMT_PERF_MON;
   PVFS_SERV_MGMT_ITERATE_HANDLES; PVFS_SERV_MGMT_REMOVE_OBJECT; PVFS_SERV_MGMT_REMOVE_DIRENT;
   PVFS_SERV_MGMT_GET_DIRDATA_HANDLE; PVFS_SERV_GETEATTR; PVFS_SERV_SETEATTR; PVFS_SERV_DELEATTR;
   PVFS_SERV_LISTEATTR; PVFS_SERV_SMALL_IO; PVFS_SERV_LISTATTR; PVFS_SERV_BATCH_CREATE;
   PVFS_SERV_UNSTUFF; PVFS_SERV_MIRROR; PVFS_SERV_TREE_REMOVE; PVFS_SERV_TREE_GET_FILE_SIZE;
   PVFS_SERV_MGMT_GET_UID; PVFS_SERV_TREE_SETATTR; PVFS_SERV_MGMT_GET_DIRENT;
   PVFS_SERV_MGMT_SPLIT_DIRENT; PVFS_SERV_ATOMICEATTR; PVFS_SERV_TREE_GETATTR].

(** The first state of the machine of an operation. *)
Definition op_first (op : Z) : option sid :=
  match server_op_state_get_machine op with
  | Done (Some m) => first_state server_program m
  | _ => None
  end.

(** The machines of the operations [ops] have the labels [want]. *)
Definition first_labels (lab : label_map) (want : Z → list request_event) (ops : list Z) : bool :=
  forallb (λ op, match op_first op with
                 | Some st => bool_decide (lab !! st = Some (want op))
                 | None => false
                 end) ops.

Lemma first_labels_at lab want ops op st :
  first_labels lab want ops = true → op ∈ ops → op_first op = Some st → lab !! st = Some (want op).
Proof.
  intros Hc Hop%list_elem_of_In Hst. pose proof (proj1 (forallb_forall _ _) Hc op Hop) as Hl.
  cbv beta in Hl. rewrite Hst in Hl. by apply bool_decide_eq_true in Hl.
Qed.

Lemma protocol_first : first_labels protocol_labels protocol request_ops = true.
Proof. vm_compute. reflexivity. Qed.

Lemma response_first :
  first_labels response_labels (λ _, [Responded])
    (PVFS_SERV_BATCH_REMOVE :: PVFS_SERV_PROTO_ERROR :: request_ops) = true.
Proof. vm_compute. reflexivity. Qed.

(** * Theorems *)

Section any_actions.
Context {T U : Type}.
Context (func : sid → action_view → job_status_s → U → action_result U).
Context (term_func : T → PINT_smcb sid string T → job_status_s → U → bool * U).
Context (malloc : nat → bool).
Context (place : gset positive → positive).
Context (alloc_frame : Z → U → option positive * U).
Context (free_frame : positive → U → U).
Context (Hmalloc : ∀ n, malloc n = true) (Hplace : ∀ X, place X ∉ X).

Definition server_step : world sid string T U → world sid string T U → Prop :=
  sm_step server_program func term_func malloc place alloc_frame free_frame.
Definition server_event : nat → world sid string T U → sm_event → exec (world sid string T U) :=
  run_event server_program func term_func malloc place alloc_frame free_frame.
Definition client_step : world sid string T U → world sid string T U → Prop :=
  sm_step client_program func term_func malloc place alloc_frame free_frame.
Definition client_event : nat → world sid string T U → sm_event → exec (world sid string T U) :=
  run_event client_program func term_func malloc place alloc_frame free_frame.

(** The machines of the server cannot bring the engine down: with the tables
    that statecomp makes of the server's descriptions, whatever the actions
    return within their contract, and in whatever order their jobs complete,
    the engine fails no assertion and leaves no table, stack or list. *)
Theorem server_machines_safe w0 w fuel ev :
  well_behaved server_program func → initial w0 → rtc server_step w0 w → enabled server_program w ev →
  server_event fuel w ev = Fault OutOfFuel ∨ ∃ w', server_event fuel w ev = Done w'.
Proof using Hmalloc Hplace.
  intros Hact. destruct (check_wf_sound _ server_wf) as [Hwf Hfirst]. by apply (event_safe _ _ _ _ _ _ _ _ Hwf Hfirst).
Qed.

(** Nor can those of the client. *)
Theorem client_machines_safe w0 w fuel ev :
  well_behaved client_program func → initial w0 → rtc client_step w0 w → enabled client_program w ev →
  client_event fuel w ev = Fault OutOfFuel ∨ ∃ w', client_event fuel w ev = Done w'.
Proof using Hmalloc Hplace.
  intros Hact. destruct (check_wf_sound _ client_wf) as [Hwf Hfirst]. by apply (event_safe _ _ _ _ _ _ _ _ Hwf Hfirst).
Qed.

(** C2. The life of a request: when the block of a request has come to its end, its
    machine has gone once through the action that posts the request to the
    scheduler, then once through the one that releases it, and then once through
    the one that sends the response, in this order (an I/O request is answered
    before it is released; those that fan out over a tree of servers are not
    scheduled), on every path, however the actions of its states fail and
    whatever other blocks run in between. *)
Theorem request_protocol w0 w a st tr op :
  well_behaved server_program func → initial w0 → rtc server_step w0 w →
  (a, Some st, tr) ∈ finished w → op ∈ request_ops → op_first op = Some st →
  events server_program request_mark tr = protocol op.
Proof using Hmalloc Hplace.
  intros Hact H0 Hr Hin Hop Hst. destruct (check_wf_sound _ server_wf) as [Hwf Hfirst].
  destruct (finished_activation server_program func term_func malloc place alloc_frame free_frame _ Hwf Hfirst
    Hact Hmalloc Hplace w0 w a (Some st) tr H0 Hr Hin) as (st' & res & [= <-] & Ha).
  apply (labels_right _ _ _ _ _ _ protocol_labels_checked Ha).
  exact (first_labels_at _ _ _ _ _ protocol_first Hop Hst).
Qed.

(** Every block that has ended was answered exactly once (the action that sends
    the response has run once), of the requests of [request_protocol], of batch
    removals and of requests of another protocol version. *)
Theorem request_answered w0 w a st tr op :
  well_behaved server_program func → initial w0 → rtc server_step w0 w →
  (a, Some st, tr) ∈ finished w →
  op ∈ PVFS_SERV_BATCH_REMOVE :: PVFS_SERV_PROTO_ERROR :: request_ops → op_first op = Some st →
  events server_program response_mark tr = [Responded].
Proof using Hmalloc Hplace.
  intros Hact H0 Hr Hin Hop Hst. destruct (check_wf_sound _ server_wf) as [Hwf Hfirst].
  destruct (finished_activation server_program func term_func malloc place alloc_frame free_frame _ Hwf Hfirst
    Hact Hmalloc Hplace w0 w a (Some st) tr H0 Hr Hin) as (st' & res & [= <-] & Ha).
  apply (labels_right _ _ _ _ _ _ response_labels_checked Ha).
  exact (first_labels_at _ _ _ _ _ response_first Hop Hst).
Qed.

End any_actions.

(** * Flushes *)

(** Every action completes with the code 0, and pushes no frames. *)
Definition ok_func (f : sid) (v : action_view) (r : job_status_s) (u : unit) : action_result unit :=
  mkResult SM_ACTION_COMPLETE (with_error r 0) [] false u.

(** [server_state_machine_terminate]. *)
Definition server_state_machine_terminate {U} (t : unit) (s : PINT_smcb sid string unit)
    (r : job_status_s) (u : U) : bool * U := (true, u).

Definition world0 : world sid string unit unit := mkWorld ∅ [] tt 0 [].

Definition request_start (op : Z) : sm_event (M := string) (T := unit) :=
  EvNew op 8 0 server_op_state_get_machine tt status_zero.

(** The world after a block has been started for [op] and all its actions have
    completed. *)
Definition request_run (op : Z) : exec (world sid string unit unit) :=
  server_event ok_func server_state_machine_terminate (λ _, true) fresh
    (λ _ u, (Some 100%positive, u)) (λ _ u, u) 200 world0 (request_start op).

Definition request_world (op : Z) : world sid string unit unit :=
  match request_run op with Done w => w | Fault _ => world0 end.

(** A flush of an object that is neither a metafile nor a datafile is neither
    released nor answered: [flush_check_type] completes with 0, for which its
    state has no transition but the default, which ends the machine.  The client
    waits for its timeout, and the requests that are scheduled behind the flush
    wait for ever. *)
Theorem flush_unanswered :
  ∃ w tr, request_run PVFS_SERV_FLUSH = Done w ∧ smcbs w = ∅ ∧
    finished w = [(1%positive, op_first PVFS_SERV_FLUSH, tr)] ∧
    events server_program request_mark tr = [Scheduled].
Proof. do 2 eexists. do 3 (split; [vm_compute; reflexivity|]). vm_compute. reflexivity. Qed.

(** * Dispatch *)

(** The operations of the server that have no machine to run although the table
    has an entry for them. *)
Definition null_params : list Z :=
  [PVFS_SERV_INVALID; PVFS_SERV_WRITE_COMPLETION; PVFS_SERV_MGMT_DSPACE_INFO_LIST;
   PVFS_SERV_MGMT_EVENT_MON; PVFS_SERV_MGMT_GET_USER_CERT; PVFS_SERV_MGMT_GET_USER_CERT_KEYREQ].

Definition has_machine (prog : program sid string sid) (m : exec (option string)) : bool :=
  match m with
  | Done (Some name) => match first_state prog name with Some _ => true | None => false end
  | _ => false
  end.

Definition faults {A} (m : exec A) : bool := match m with Done _ => false | Fault _ => true end.

Lemma faults_spec {A} (m : exec A) : faults m = true → ∃ f, m = Fault f.
Proof. destruct m as [a|f]; [done|]. by exists f. Qed.

Lemma has_machine_spec prog m :
  has_machine prog m = true → ∃ name st, m = Done (Some name) ∧ first_state prog name = Some st.
Proof. destruct m as [[name|]|]; cbn; try done. destruct (first_state prog name) eqn:E; [by eauto|done]. Qed.

(** [f] tells of the numbers from [lo] on, [n] of them, as [g] does. *)
Definition agree (f g : Z → bool) (lo : Z) (n : nat) : bool :=
  forallb (λ i, eqb (f (lo + Z.of_nat i)) (g (lo + Z.of_nat i))) (seq 0 n).

Lemma agree_at f g lo n i : agree f g lo n = true → lo ≤ i < lo + Z.of_nat n → f i = g i.
Proof.
  intros Hc Hi. pose proof (proj1 (forallb_forall _ _) Hc (Z.to_nat (i - lo))) as H.
  cbv beta in H. replace (lo + Z.of_nat (Z.to_nat (i - lo))) with i in H by lia.
  apply eqb_prop, H, in_seq. lia.
Qed.

Lemma server_table_checked :
  agree (λ op, has_machine server_program (server_op_state_get_machine op))
        (λ op, negb (bool_decide (op ∈ null_params))) 0 52 = true ∧
  agree (λ op, faults (server_op_state_get_machine op))
        (λ op, bool_decide (op ∈ null_params)) 0 52 = true.
Proof. split; vm_compute; reflexivity. Qed.

Lemma client_table_checked :
  agree (λ op, has_machine client_program (client_op_state_get_machine op))
        (λ op, negb (PINT_smcb_invalid_op op) && negb (bool_decide (op = 83))) 0 401 = true.
Proof. vm_compute. reflexivity. Qed.

Lemma entry_outside tbl i :
  i < 0 ∨ Z.of_nat (length tbl) ≤ i → entry_at_index tbl i = Fault BadAccess.
Proof.
  intros Hi. unfold entry_at_index. case_decide; [done|]. by rewrite lookup_ge_None_2 by lia.
Qed.

Lemma client_invalid op :
  PINT_smcb_invalid_op op = true →
  client_op_state_get_machine op = if decide (op < 200) then Fault BadAccess else Done None.
Proof.
  unfold PINT_smcb_invalid_op, PINT_smcb_sys_op, PINT_smcb_mgmt_op, PINT_smcb_misc_op.
  rewrite <- !bool_decide_not, <- !bool_decide_and, bool_decide_eq_true.
  unfold client_op_state_get_machine, PVFS_OP_SYS_MAXVALID, PVFS_OP_SYS_MAXVAL, PVFS_OP_MGMT_MAXVALID,
    PVFS_OP_MGMT_MAXVAL, PVFS_SERVER_GET_CONFIG, PVFS_CLIENT_JOB_TIMER, PVFS_CLIENT_PERF_COUNT_TIMER,
    PVFS_DEV_UNEXPECTED. intros Hop.
  repeat (rewrite (decide_False (P := op = _)) by lia).
  destruct (decide (op <= 69)); [|destruct (decide (op <= 199))].
  - rewrite entry_outside, decide_True by (cbn [length PINT_client_sm_sys_table]; lia). done.
  - rewrite entry_outside, decide_True by (cbn [length PINT_client_sm_mgmt_table]; lia). done.
  - by rewrite decide_False by lia.
Qed.

Lemma valid_range op : PINT_smcb_invalid_op op = false → 0 ≤ op < 401.
Proof.
  unfold PINT_smcb_invalid_op, PINT_smcb_sys_op, PINT_smcb_mgmt_op, PINT_smcb_misc_op.
  rewrite <- !bool_decide_not, <- !bool_decide_and, bool_decide_eq_false.
  unfold PVFS_OP_SYS_MAXVALID, PVFS_OP_SYS_MAXVAL, PVFS_OP_MGMT_MAXVALID, PVFS_SERVER_GET_CONFIG,
    PVFS_CLIENT_JOB_TIMER, PVFS_CLIENT_PERF_COUNT_TIMER, PVFS_DEV_UNEXPECTED. lia.
Qed.

(** Every operation of the server's table has a machine that exists, but for
    six entries without parameters, for which the lookup follows a null pointer
    instead of reporting that there is no machine. *)
Theorem server_dispatch op :
  0 ≤ op < PVFS_SERV_NUM_OPS →
  if decide (op ∈ null_params) then ∃ f, server_op_state_get_machine op = Fault f
  else ∃ name st, server_op_state_get_machine op = Done (Some name) ∧
         first_state server_program name = Some st.
Proof.
  intros Hop. unfold PVFS_SERV_NUM_OPS in Hop. destruct server_table_checked as [Hm Hf].
  pose proof (agree_at _ _ _ _ op Hm ltac:(lia)) as Em. pose proof (agree_at _ _ _ _ op Hf ltac:(lia)) as Ef.
  cbv beta in Em, Ef. case_decide as Hin.
  - apply faults_spec. by rewrite Ef, bool_decide_true.
  - apply has_machine_spec. by rewrite Em, bool_decide_false.
Qed.

(** The client runs a machine that exists for every operation that
    [PINT_smcb_invalid_op] does not call invalid (the one that gets a user's
    certificate has none here); an invalid operation below 200 is an index
    outside of its table. *)
Theorem client_dispatch op :
  if PINT_smcb_invalid_op op then
    client_op_state_get_machine op = if decide (op < 200) then Fault BadAccess else Done None
  else op = 83 ∨ ∃ name st, client_op_state_get_machine op = Done (Some name) ∧
         first_state client_program name = Some st.
Proof.
  destruct (PINT_smcb_invalid_op op) eqn:E; [by apply client_invalid|].
  pose proof (agree_at _ _ _ _ op client_table_checked (valid_range op E)) as Em.
  cbv beta in Em. rewrite E in Em. destruct (decide (op = 83)); [by left|right].
  apply has_machine_spec. rewrite Em. by rewrite bool_decide_false.
Qed.

(** * Tables *)

(** No transition of a state is shadowed by an earlier one. *)
Definition selectable (tbl : list (PINT_tran_tbl_s sid)) : bool :=
  forallb (λ t, match find_transition tbl (return_value t) with
                | Done t' => bool_decide (return_value t' = return_value t ∧
                    tran_flag t' = tran_flag t ∧ next_state t' = next_state t)
                | Fault _ => false
                end) tbl.

Definition tables_selectable (fs : list sm_file) : bool :=
  forallb (λ '(_, d), match trtbl d with Some tbl => selectable tbl | None => false end) (link fs).1.

Lemma selectable_checked :
  tables_selectable (common_files ++ client_files) &&
  tables_selectable (common_files ++ server_files) = true.
Proof. vm_compute. reflexivity. Qed.

Lemma selectable_at tbl t : selectable tbl = true → t ∈ tbl → find_transition tbl (return_value t) = Done t.
Proof.
  intros Hs Ht%list_elem_of_In. pose proof (proj1 (forallb_forall _ _) Hs t Ht) as H. cbv beta in H.
  destruct (find_transition tbl (return_value t)) as [t'|]; [|done].
  apply bool_decide_eq_true in H as (H1 & H2 & H3). destruct t, t'; cbn in *. congruence.
Qed.

Lemma tables_selectable_at fs st d :
  tables_selectable fs = true → state_of (program_of fs) st = Some d →
  ∃ tbl, trtbl d = Some tbl ∧ selectable tbl = true.
Proof.
  intros Hc Hd%tables_lookup%list_elem_of_In.
  pose proof (proj1 (forallb_forall _ _) Hc _ Hd) as H. cbv beta iota in H.
  destruct (trtbl d) as [tbl|]; [by exists tbl|done].
Qed.

(** Every transition of every machine of the client and of the server can be
    taken: the engine finds it for its return code. *)
Theorem transitions_selectable prog st d :
  prog = client_program ∨ prog = server_program → state_of prog st = Some d →
  ∃ tbl, trtbl d = Some tbl ∧ ∀ t, t ∈ tbl → find_transition tbl (return_value t) = Done t.
Proof.
  pose proof (andb_prop _ _ selectable_checked) as [Hc Hs]. intros [-> | ->] Hd.
  - destruct (tables_selectable_at _ st d Hc Hd) as (tbl & E & Ht). exists tbl. eauto using selectable_at.
  - destruct (tables_selectable_at _ st d Hs Hd) as (tbl & E & Ht). exists tbl. eauto using selectable_at.
Qed.

(** The deepest nesting. *)
Definition nesting (fs : list sm_file) : nat := max_list (map_to_list (depths fs)).*2.

Lemma nesting_at fs st : (depth_in fs st ≤ nesting fs)%nat.
Proof.
  unfold depth_in, nesting. destruct (depths fs !! st) as [n|] eqn:E; cbn; [|lia].
  apply max_list_elem_of_le, list_elem_of_fmap. exists (st, n). split; [done|].
  by apply elem_of_map_to_list.
Qed.

Lemma machines_linked :
  linked (common_files ++ client_files) && linked (common_files ++ server_files) = true.
Proof. vm_compute. reflexivity. Qed.

Lemma machines_nesting :
  nesting (common_files ++ client_files) = 4%nat ∧ nesting (common_files ++ server_files) = 4%nat.
Proof. split; vm_compute; reflexivity. Qed.

(** * Examples *)

Lemma ok_behaved (prog : program sid string sid) : well_behaved prog ok_func.
Proof.
  split.
  - intros. right. by left.
  - intros st d f v r u _ _ _ [[=]|[=]].
  - intros st d f v r u tbl fr _ _ _ _ _ Hin%child_frames_sub. by apply elem_of_nil in Hin.
Qed.

Lemma world0_initial : initial world0.
Proof. done. Qed.

Definition first_trace (w : world sid string unit unit) : list sid :=
  match finished w with (_, _, tr) :: _ => tr | [] => [] end.

Definition getattr_trace : list sid := first_trace (request_world PVFS_SERV_GETATTR).
Definition batch_trace : list sid := first_trace (request_world PVFS_SERV_BATCH_REMOVE).

Lemma request_enabled op :
  has_machine server_program (server_op_state_get_machine op) = true → 0 ≤ op →
  enabled server_program world0 (request_start op).
Proof.
  intros (m & st & Hm & Hst)%has_machine_spec Hop.
  exact (conj Hop (ex_intro _ m (ex_intro _ st (conj Hm Hst)))).
Qed.

Lemma request_reached op :
  has_machine server_program (server_op_state_get_machine op) = true → 0 ≤ op →
  request_run op = Done (request_world op) →
  rtc (server_step ok_func server_state_machine_terminate (λ _, true) fresh
         (λ _ u, (Some 100%positive, u)) (λ _ u, u)) world0 (request_world op).
Proof.
  intros Hm Hop E. apply rtc_once. exists 200%nat, (request_start op). split; [by apply request_enabled|].
  exact E.
Qed.

Lemma server_machines_safe_witness :
  request_run PVFS_SERV_CREATE = Fault OutOfFuel ∨ ∃ w', request_run PVFS_SERV_CREATE = Done w'.
Proof.
  apply (server_machines_safe ok_func server_state_machine_terminate (λ _, true) fresh
    (λ _ u, (Some 100%positive, u)) (λ _ u, u) (λ _, eq_refl) fresh_new world0 world0 200
    (request_start PVFS_SERV_CREATE) (ok_behaved _) world0_initial (rtc_refl _ _)
    (request_enabled PVFS_SERV_CREATE ltac:(vm_compute; reflexivity) ltac:(done))).
Defined.

Lemma request_protocol_witness :
  events server_program request_mark getattr_trace = protocol PVFS_SERV_GETATTR.
Proof.
  apply (request_protocol ok_func server_state_machine_terminate (λ _, true) fresh
    (λ _ u, (Some 100%positive, u)) (λ _ u, u) (λ _, eq_refl) fresh_new world0
    (request_world PVFS_SERV_GETATTR) 1 ("server/get-attr.sm", "work") getattr_trace PVFS_SERV_GETATTR
    (ok_behaved _) world0_initial
    (request_reached PVFS_SERV_GETATTR ltac:(vm_compute; reflexivity) ltac:(done) ltac:(vm_compute; reflexivity))).
  - vm_compute. left.
  - vm_compute. repeat constructor.
  - vm_compute. reflexivity.
Defined.

Lemma request_answered_witness :
  events server_program response_mark batch_trace = [Responded].
Proof.
  apply (request_answered ok_func server_state_machine_terminate (λ _, true) fresh
    (λ _ u, (Some 100%positive, u)) (λ _ u, u) (λ _, eq_refl) fresh_new world0
    (request_world PVFS_SERV_BATCH_REMOVE) 1 ("server/batch-remove.sm", "setup_prelude") batch_trace
    PVFS_SERV_BATCH_REMOVE (ok_behaved _) world0_initial
    (request_reached PVFS_SERV_BATCH_REMOVE ltac:(vm_compute; reflexivity) ltac:(done)
       ltac:(vm_compute; reflexivity))).
  - vm_compute. left.
  - left.
  - vm_compute. reflexivity.
Defined.

Lemma server_dispatch_witness :
  ∃ name st, server_op_state_get_machine PVFS_SERV_IO = Done (Some name) ∧
    first_state server_program name = Some st.
Proof. exact (server_dispatch PVFS_SERV_IO ltac:(vm_compute; done)). Defined.

Lemma transitions_selectable_witness :
  ∃ d, state_of server_program ("server/io.sm", "send_positive_ack") = Some d ∧
  ∃ tbl, trtbl d = Some tbl ∧ ∀ t, t ∈ tbl → find_transition tbl (return_value t) = Done t.
Proof.
  eexists. split; [vm_compute; reflexivity|].
  apply (transitions_selectable server_program ("server/io.sm", "send_positive_ack"));
    [by right|vm_compute; reflexivity].
Defined.
