(* ===== verification/ServerStart.v ===== *)
(** Requests come to the server: src/src/server/pvfs2-server.c (the functions
    that post receives, start and complete the machines of requests) and
    src/src/server/unexpected.sm.

    A block of the operation [BMI_UNEXPECTED_OP] waits for a message that no
    receive was posted for.  When it has one, its action [unexpected_map] posts
    a block for the next message, decodes the message, and turns its own block
    over to the machine of the request.  [struct PINT_server_op] is the frame of
    the block; the lists of operations hold pointers to it. *)

From stdpp Require Import base list gmap strings.
From S2P Require Import Prelude Errors ServerOps StateMachine StateMachineSpec StateMachineRun.
From S2P Require Import Statecomp MachinesCommon MachinesServer Machines.
From S2P Require Import Wire DistTable WireTypes Hint WireReq WireResp LeBytefield LeBytefieldSpec.

#[local] Open Scope string_scope.
#[local] Open Scope Z_scope.

(** The frames that are allocated are the memory of the actions. *)
Abbreviation frame_set := (gset positive).
Abbreviation server_block := (PINT_smcb sid String.string unit).

(** The heap, the three lists of operations, and [req] of an operation. *)
Record server := mkServer {
  sw : world sid String.string unit frame_set;
  posted_sop_list : list positive;
  inprogress_sop_list : list positive;
  noreq_sop_list : list positive;
  sop_req : gmap positive PVFS_server_req }.

Definition post_unexpected : sid := ("server/unexpected.sm", "post_unexpected").
Definition map_request : sid := ("server/unexpected.sm", "map_request").
Definition unexpected_post : sid := ("server/unexpected.sm", "unexpected_post").

Definition with_world (sv : server) (w : world sid String.string unit frame_set) : server :=
  mkServer w (posted_sop_list sv) (inprogress_sop_list sv) (noreq_sop_list sv) (sop_req sv).

Definition set_block (sv : server) (a : positive) (s : server_block) : server :=
  with_world sv (store_smcb (sw sv) a s).

(** [qlist_del]: the operation is on at most one list. *)
Definition qlist_del (sv : server) (p : positive) : server :=
  mkServer (sw sv) (filter (.≠ p) (posted_sop_list sv)) (filter (.≠ p) (inprogress_sop_list sv))
    (filter (.≠ p) (noreq_sop_list sv)) (sop_req sv).

Definition add_posted (sv : server) (p : positive) : server :=
  mkServer (sw sv) (posted_sop_list sv ++ [p])%list (inprogress_sop_list sv) (noreq_sop_list sv)
    (sop_req sv).

Definition add_inprogress (sv : server) (p : positive) : server :=
  mkServer (sw sv) (posted_sop_list sv) (inprogress_sop_list sv ++ [p])%list (noreq_sop_list sv)
    (sop_req sv).

Definition add_noreq (sv : server) (p : positive) : server :=
  mkServer (sw sv) (posted_sop_list sv) (inprogress_sop_list sv) (noreq_sop_list sv ++ [p])%list
    (sop_req sv).

Definition set_req (sv : server) (p : positive) (q : PVFS_server_req) : server :=
  mkServer (sw sv) (posted_sop_list sv) (inprogress_sop_list sv) (noreq_sop_list sv)
    (<[p := q]> (sop_req sv)).

Section server.
Context (func : sid → action_view → job_status_s → frame_set → action_result frame_set).
Context (malloc : nat → bool) (place : gset positive → positive).
Context (t : list PINT_dist) (e : encoder).
Context (host_index sizeof_server_op server_job_context : Z).

Definition frame_malloc (size : Z) (live : frame_set) : option positive * frame_set :=
  (Some (place live), {[place live]} ∪ live).

Definition frame_free (p : positive) (live : frame_set) : frame_set := live ∖ {[p]}.

Abbreviation terminate_block :=
  (PINT_state_machine_terminate server_state_machine_terminate malloc frame_free).
Abbreviation invoke := (PINT_state_machine_invoke server_program func server_state_machine_terminate
  malloc place frame_malloc frame_free).
Abbreviation start := (PINT_state_machine_start server_program func server_state_machine_terminate
  malloc place frame_malloc frame_free).
Abbreviation continue := (PINT_state_machine_continue server_program func
  server_state_machine_terminate malloc place frame_malloc frame_free).
Abbreviation run_loop := (next_loop server_program func server_state_machine_terminate
  malloc place frame_malloc frame_free).
Abbreviation start_children := (PINT_sm_start_child_frames server_program func
  server_state_machine_terminate malloc place frame_malloc frame_free).

(** The operation of a block; it is used without a test for NULL. *)
Definition s_op_of (sv : server) (a : positive) : exec positive :=
  s ← smcb_at (sw sv) a;
  p ← PINT_sm_frame s 0;
  match p with Some p => Done p | None => Fault BadAccess end.

Definition alloc_block (sv : server) (op : Z) : exec (option positive * Z * server) :=
  '(a, ret, w) ← PINT_smcb_alloc server_program malloc place frame_malloc (sw sv) op
     sizeof_server_op (Some server_op_state_get_machine) (Some (user_terminate_fn tt))
     server_job_context;
  Done (a, ret, with_world sv w).

(** * Receives *)

Definition server_post_unexpected_recv (fuel : nat) (sv : server) : exec (Z * server) :=
  '(a, ret, sv) ← alloc_block sv BMI_UNEXPECTED_OP;
  match a with
  | None => Done (ret, sv)
  | Some a =>
      if decide (ret < 0) then Done (ret, sv) else
      s_op ← s_op_of sv a;
      (* Add an unexpected s_ops to the list *)
      let sv := add_posted sv s_op in
      '(ret, js, w) ← start fuel (sw sv) a status_zero;
      if decide (ret = SM_ACTION_TERMINATE) then
        (* error posting unexpected *)
        w ← PINT_smcb_free frame_free w a;
        Done (error_code js, with_world sv w)
      else Done (ret, with_world sv w)
  end.

(** * Requests *)

Definition set_op_of (sv : server) (a : positive) (op : Z) : exec (Z * server) :=
  s ← smcb_at (sw sv) a;
  '(ret, s) ← PINT_smcb_set_op server_program s op;
  Done (ret, set_block sv a s).

Definition le32 (z : Z) : list Z := Z_to_little_endian 4 8 z.

Definition with_server_hints (q : PVFS_server_req) : PVFS_server_req :=
  let hs := fst (PVFS_hint_add (req_hints q) (zs "pvfs.hint.server_id") (le32 host_index)) in
  let hs := fst (PVFS_hint_add hs (zs "pvfs.hint.op_id") (le32 (req_op (req_u q)))) in
  mk_server_req (req_capability q) hs (req_u q).

(** [act] is the call of [PINT_state_machine_invoke] at the end; [buf] is the
    message in [unexp_bmi_buff]. *)
Definition server_state_machine_start
    (act : server → job_status_s → exec (Z * job_status_s * server))
    (sv : server) (a : positive) (buf : list Z) (r : job_status_s)
    : exec (Z * job_status_s * server) :=
  s_op ← s_op_of sv a;
  '(ret, d) ← PINT_decode t e buf PINT_ENCODE_REQ;
  let found ret sv :=
    (* Remove s_op from posted_sop_list and move it to the inprogress_sop_list *)
    let sv := add_inprogress (qlist_del sv s_op) s_op in
    if decide (ret = 0) then Done (- PVFS_ENOSYS, r, sv) else act sv r in
  if decide (ret = - PVFS_EPROTONOSUPPORT) then
    '(ret, sv) ← set_op_of sv a PVFS_SERV_PROTO_ERROR;
    found ret sv
  else if decide (ret = 0) then
    match d_stub d with
    | Some (M_req q) =>
        '(ret, sv) ← set_op_of sv a (req_op (req_u q));
        found ret (set_req sv s_op (with_server_hints q))
    | _ => Fault BadAccess
    end
  else Done (ret, r, sv).

(** [PINT_state_machine_invoke] for a block in the state [map_request], whose
    action is [act]. *)
Definition invoke_map (fuel : nat) (act : server → job_status_s → exec (Z * job_status_s * server))
    (sv : server) (a : positive) (r : job_status_s) : exec (Z * job_status_s * server) :=
  s ← smcb_at (sw sv) a;
  let sv := set_block sv a (with_history s (h_root s) (h_trace s ++ [map_request]) (h_done s)) in
  '(retval, r, sv) ← act sv r;
  s ← smcb_at (sw sv) a;
  let s := if decide (retval = SM_ACTION_TERMINATE)
           then with_flags s 1 (op_cancelled s) (immediate s) else s in
  let sv := set_block sv a s in
  match current_state s with
  | None => Fault BadAccess
  | Some st =>
      d ← state_at server_program st;
      if decide (retval = SM_ACTION_COMPLETE ∧ flag d = SM_PJMP) then
        '(children_started, w) ← start_children fuel (sw sv) a;
        Done (if decide (children_started > 0) then SM_ACTION_DEFERRED else SM_ACTION_COMPLETE, r,
              with_world sv w)
      else Done (retval, r, sv)
  end.

(** [cancelled] is [op_cancelled] of the operation.  The machine that it starts
    can be its own: [PINT_state_machine_invoke] then calls it again. *)
Fixpoint unexpected_map (fuel : nat) (cancelled : bool) (buf : list Z) (a : positive)
    (sv : server) (r : job_status_s) {struct fuel} : exec (Z * job_status_s * server) :=
  match fuel with
  | O => Fault OutOfFuel
  | S fuel =>
      s_op ← s_op_of sv a;
      (* Remove s_op from posted_sop_list *)
      let sv := qlist_del sv s_op in
      (* If op was cancelled, kill the SM *)
      if cancelled then Done (SM_ACTION_TERMINATE, r, sv) else
      (* Else move it to the inprogress_sop_list *)
      let sv := add_inprogress sv s_op in
      (* start replacement unexpected recv *)
      '(_, sv) ← server_post_unexpected_recv fuel sv;
      (* restart as new request state machine *)
      '(ret, r, sv) ← server_state_machine_start
        (λ sv r,
          s ← smcb_at (sw sv) a;
          if decide (current_state s = Some map_request)
          then invoke_map fuel (unexpected_map fuel cancelled buf a) sv a r
          else '(ret, r, w) ← invoke fuel (sw sv) a r; Done (ret, r, with_world sv w))
        sv a buf status_zero;
      Done (if decide (ret < 0) then SM_ACTION_TERMINATE else ret, r, sv)
  end.

(** [PINT_state_machine_continue] for a block in the state [post_unexpected]
    whose job has completed. *)
Definition unexpected_done (fuel : nat) (cancelled : bool) (buf : list Z) (a : positive)
    (sv : server) (r : job_status_s) : exec server :=
  s ← smcb_at (sw sv) a;
  '(s, tr) ← return_loop server_program loop_fuel s (error_code r);
  '(ret, r, sv) ←
    match tr with
    | None => Done (SM_ACTION_TERMINATE, r, set_block sv a s)
    | Some tr =>
        s ← jump_loop server_program loop_fuel (with_current s (next_state tr));
        '(ret, r, sv) ← invoke_map fuel (unexpected_map fuel cancelled buf a) (set_block sv a s) a r;
        if decide (ret = SM_ACTION_COMPLETE ∨ ret = SM_ACTION_TERMINATE)
        then '(ret, r, w) ← run_loop fuel (sw sv) a r; Done (ret, r, with_world sv w)
        else Done (ret, r, sv)
    end;
  if decide (ret = SM_ACTION_TERMINATE)
  then '(_, _, w) ← terminate_block (sw sv) a r; Done (with_world sv w)
  else Done sv.

(** * The end of requests, and machines without one *)

(** The decoded message and the address are released too. *)
Definition server_state_machine_complete (sv : server) (a : positive) : exec (Z * server) :=
  s_op ← s_op_of sv a;
  Done (SM_ACTION_TERMINATE, qlist_del sv s_op).

Definition server_state_machine_complete_noreq (sv : server) (a : positive) : exec (Z * server) :=
  s_op ← s_op_of sv a;
  Done (SM_ACTION_TERMINATE, qlist_del sv s_op).

Definition server_state_machine_alloc_noreq (sv : server) (op : Z)
    : exec (Z * option positive * server) :=
  '(a, ret, sv) ← alloc_block sv op;
  if decide (ret < 0) then Done (ret, a, sv) else
  match a with
  | Some a => _ ← s_op_of sv a; Done (0, Some a, sv)
  | None => Fault BadAccess
  end.

(** [tmp_status] is not initialised but for its error code. *)
Definition server_state_machine_start_noreq (fuel : nat) (sv : server) (a : positive)
    (tmp_status : job_status_s) : exec (Z * server) :=
  s ← smcb_at (sw sv) a;
  p ← PINT_sm_frame s 0;
  match p with
  | Some p =>
      let sv := add_noreq sv p in
      (* execute first state *)
      '(ret, _, w) ← start fuel (sw sv) a (with_error tmp_status 0);
      Done (ret, with_world sv w)
  | None => Done (- PVFS_EINVAL, sv)
  end.

(** * Lemmas *)

Lemma unexpected_first : first_state server_program "pvfs2_unexpected_sm" = Some post_unexpected.
Proof. vm_compute. reflexivity. Qed.

Lemma post_state :
  state_of server_program post_unexpected =
    Some (mkStateS SM_RUN (action_func (Some unexpected_post)) None
            (Some [mkTran (-1) SM_NONE (Some map_request)])).
Proof. vm_compute. reflexivity. Qed.

Lemma map_state :
  state_of server_program map_request =
    Some (mkStateS SM_RUN (action_func (Some ("server/unexpected.sm", "unexpected_map"))) None
            (Some [mkTran (-1) SM_TERM None])).
Proof. vm_compute. reflexivity. Qed.

#[local] Opaque server_program.

(** A block that receives, with its operation: before it is started, and when
    it waits. *)
Record receives (st : sid) (s : server_block) (p : positive) : Prop := {
  rv_state : current_state s = Some st;
  rv_ptr : stackptr s = 0;
  rv_stack : length (state_stack s) = Z.to_nat PINT_STATE_STACK_SIZE;
  rv_terminate : op_terminate s = 0;
  rv_cancelled : op_cancelled s = 0;
  rv_getmach : op_get_state_machine s = Some server_op_state_get_machine;
  rv_frames : frames s = [mkFrame 0 (Some p) 0];
  rv_count : frame_count s = 1;
  rv_base : base_frame s = 0;
  rv_parent : parent_smcb s = None;
  rv_term : terminate_fn s = Some (user_terminate_fn tt) }.

Lemma receives_frame st s p : receives st s p → PINT_sm_frame s 0 = Done (Some p).
Proof.
  intros []. unfold PINT_sm_frame. rewrite rv_frames0, rv_base0, rv_count0. reflexivity.
Qed.

Lemma receives_op sv a st s p :
  smcbs (sw sv) !! a = Some s → receives st s p → s_op_of sv a = Done p.
Proof.
  intros Ha Hs. unfold s_op_of. rewrite (smcb_at_Some _ _ _ Ha). cbn [mbind exec_bind].
  by rewrite (receives_frame st s p Hs).
Qed.

Context (Hmalloc : ∀ n, malloc n = true) (Hplace : ∀ X, place X ∉ X).
Context (Hsize : sizeof_server_op > 0).

(** The block and the operation that an allocation takes. *)
Definition new_block (sv : server) : positive := place (dom (smcbs (sw sv))).
Definition new_op (sv : server) : positive := place (mem (sw sv)).

Lemma locate_unexpected (s : server_block) :
  op_get_state_machine s = Some server_op_state_get_machine → op s = BMI_UNEXPECTED_OP →
  PINT_state_machine_locate server_program s =
    Done (1, with_history (with_current s (Some post_unexpected)) (Some post_unexpected) [] false).
Proof.
  intros Hg Ho. unfold PINT_state_machine_locate. rewrite Hg, Ho.
  rewrite decide_False by (unfold BMI_UNEXPECTED_OP; lia).
  change (server_op_state_get_machine BMI_UNEXPECTED_OP) with (Done (Some "pvfs2_unexpected_sm")).
  cbn [mbind exec_bind]. unfold first_state_of. cbn [mbind option_bind]. rewrite unexpected_first.
  cbn [mbind exec_bind]. cbn [jump_loop loop_fuel current_state with_current with_control].
  unfold loop_fuel. cbn [jump_loop]. cbn [current_state with_current with_control].
  unfold state_at. rewrite post_state. cbn [mbind exec_bind flag].
  by rewrite decide_False by done.
Qed.

Lemma alloc_unexpected sv :
  ∃ s w, alloc_block sv BMI_UNEXPECTED_OP = Done (Some (new_block sv), 1, with_world sv w) ∧
    smcbs w = <[new_block sv := s]> (smcbs (sw sv)) ∧ mem w = {[new_op sv]} ∪ mem (sw sv) ∧
    receives post_unexpected s (new_op sv).
Proof.
  unfold alloc_block, PINT_smcb_alloc, do_malloc. rewrite Hmalloc. cbn [negb smcbs].
  rewrite decide_True by done. cbn [frame_malloc mem store_smcb with_smcbs smcbs].
  fold (new_block sv) (new_op sv). set (w := with_mem _ _).
  rewrite (push_frame_spec malloc Hmalloc w (new_block sv) smcb_zero) by (apply lookup_insert_eq).
  cbn [mbind exec_bind]. rewrite (smcb_at_Some _ (new_block sv) _ (lookup_insert_eq _ _ _)).
  cbn [mbind exec_bind]. rewrite (smcb_at_Some _ (new_block sv) _ (lookup_insert_eq _ _ _)).
  cbn [mbind exec_bind]. rewrite locate_unexpected by done. cbn [mbind exec_bind].
  do 2 eexists. split; [reflexivity|]. split; [cbn; by rewrite !insert_insert_eq|]. split; [done|].
  by split.
Qed.

(** The action of a state that is not parallel. *)
Lemma invoke_run fuel w a (s : server_block) st d f r :
  smcbs w !! a = Some s → current_state s = Some st → state_of server_program st = Some d →
  flag d = SM_RUN → action d = action_func (Some f) →
  let res := func f (mkView (op s) (frames s) (base_frame s)) r (mem w) in
  invoke (S fuel) w a r =
    let s := with_history s (h_root s) (h_trace s ++ [st]) (h_done s) in
    let s := after_action s res in
    let s := if decide (result_action res = SM_ACTION_TERMINATE)
             then with_flags s 1 (op_cancelled s) (immediate s) else s in
    Done (result_action res, result_status res, with_mem (store_smcb w a s) (result_mem res)).
Proof.
  intros Ha Hc Hd Hf Hact res. cbn [PINT_state_machine_invoke]. rewrite (smcb_at_Some _ _ _ Ha).
  cbn [mbind exec_bind]. rewrite Hc. unfold state_at. rewrite Hd. cbn [mbind exec_bind].
  rewrite Hf. rewrite (decide_True (P := SM_RUN = SM_RUN ∨ SM_RUN = SM_PJMP)) by (by left). rewrite Hact.
  rewrite (decide_False (P := _ = SM_ACTION_COMPLETE ∧ SM_RUN = SM_PJMP)) by (by intros [_ ?]).
  reflexivity.
Qed.

(** The action of the first state is run. *)
Lemma invoke_unexpected fuel w a s p r :
  smcbs w !! a = Some s → receives post_unexpected s p →
  let res := func unexpected_post (mkView (op s) (frames s) (base_frame s)) r (mem w) in
  invoke (S fuel) w a r =
    let s := with_history s (h_root s) (h_trace s ++ [post_unexpected]) (h_done s) in
    let s := after_action s res in
    let s := if decide (result_action res = SM_ACTION_TERMINATE)
             then with_flags s 1 (op_cancelled s) (immediate s) else s in
    Done (result_action res, result_status res, with_mem (store_smcb w a s) (result_mem res)).
Proof.
  intros Ha Hs.
  exact (invoke_run fuel w a s post_unexpected _ unexpected_post r Ha (rv_state _ _ _ Hs) post_state
    eq_refl eq_refl).
Qed.

Lemma start_S fuel w a r :
  start (S fuel) w a r =
    (s ← smcb_at w a;
     let s := with_flags s (op_terminate s) (op_cancelled s) 1 in
     let s := with_control s (stackptr s) (current_state s) (state_stack s) (frame_count s - 1) in
     '(ret, r, w) ← invoke fuel (store_smcb w a s) a r;
     '(ret, r, w) ←
       (if decide (ret = SM_ACTION_COMPLETE ∨ ret = SM_ACTION_TERMINATE)
        then continue fuel w a r else Done (ret, r, w));
     if decide (ret = SM_ACTION_DEFERRED) then
       s ← smcb_at w a;
       Done (ret, r, store_smcb w a (with_flags s (op_terminate s) (op_cancelled s) 0))
     else Done (ret, r, w)).
Proof. reflexivity. Qed.

(** What [unexpected_post] does when the job is posted. *)
Definition post_defers : Prop :=
  ∀ v r u, func unexpected_post v r u = mkResult SM_ACTION_DEFERRED r (view_frames v) false u.

Lemma start_unexpected fuel w a s p r :
  post_defers → smcbs w !! a = Some s → receives post_unexpected s p →
  ∃ s', start (S (S fuel)) w a r = Done (SM_ACTION_DEFERRED, r, store_smcb w a s') ∧
    receives post_unexpected s' p.
Proof.
  intros Hpost Ha Hs. rewrite start_S.
  rewrite (smcb_at_Some _ _ _ Ha). cbn [mbind exec_bind].
  set (s1 := with_control _ _ _ _ _).
  assert (receives post_unexpected s1 p) as Hs1 by (destruct Hs; split; try done; cbn; lia).
  rewrite (invoke_unexpected fuel _ a s1 p r) by (done || apply lookup_insert_eq).
  rewrite Hpost. cbn [result_action result_status result_mem mbind exec_bind].
  rewrite (decide_False (P := SM_ACTION_DEFERRED = _)) by done.
  rewrite (decide_False (P := SM_ACTION_DEFERRED = _ ∨ _)) by (by intros []).
  cbn [mbind exec_bind]. rewrite (decide_True (P := SM_ACTION_DEFERRED = SM_ACTION_DEFERRED)) by done.
  rewrite (smcb_at_Some _ a _ (lookup_insert_eq _ _ _)). cbn [mbind exec_bind]. eexists. split.
  - unfold with_mem, store_smcb, with_smcbs.
    cbn [smcbs null_jobs mem mallocs finished]. by rewrite !insert_insert_eq.
  - destruct Hs as [? ? ? ? ? ? Hf ? ? ? ?]. split; try done; cbn; rewrite ?Hf; done || lia.
Qed.

(** The server after a receive has been posted: there is one block more, which
    waits for a message, and its operation is on the list of those posted. *)
Record posts (sv : server) (s : server_block) (sv' : server) : Prop := {
  ps_fresh : smcbs (sw sv) !! new_block sv = None;
  ps_blocks : smcbs (sw sv') = <[new_block sv := s]> (smcbs (sw sv));
  ps_mem : mem (sw sv') = {[new_op sv]} ∪ mem (sw sv);
  ps_receives : receives post_unexpected s (new_op sv);
  ps_posted : posted_sop_list sv' = (posted_sop_list sv ++ [new_op sv])%list;
  ps_inprogress : inprogress_sop_list sv' = inprogress_sop_list sv;
  ps_noreq : noreq_sop_list sv' = noreq_sop_list sv;
  ps_req : sop_req sv' = sop_req sv }.

Lemma post_recv fuel sv :
  post_defers →
  ∃ s sv', server_post_unexpected_recv (S (S fuel)) sv = Done (SM_ACTION_DEFERRED, sv') ∧
    posts sv s sv'.
Proof.
  intros Hpost. destruct (alloc_unexpected sv) as (s & w & E & Hw & Hm & Hs).
  unfold server_post_unexpected_recv. rewrite E. cbn [mbind exec_bind]. rewrite decide_False by lia.
  assert (smcbs w !! new_block sv = Some s) as Ha by (by rewrite Hw, lookup_insert_eq).
  rewrite (receives_op (with_world sv w) _ _ _ _ Ha Hs). cbn [mbind exec_bind].
  destruct (start_unexpected fuel w (new_block sv) s (new_op sv) status_zero Hpost Ha Hs) as (s' & Es & Hs').
  cbn [sw add_posted with_world]. rewrite Es. cbn [mbind exec_bind].
  rewrite decide_False by done. do 2 eexists. split; [done|].
  split; cbn; try done; [|by rewrite Hw, insert_insert_eq].
  apply not_elem_of_dom, Hplace.
Qed.

Lemma continue_S fuel w a r :
  continue (S fuel) w a r =
    ('(ret, r, w) ← PINT_state_machine_next server_program func server_state_machine_terminate
        malloc place frame_malloc frame_free fuel w a r;
     if decide (ret = SM_ACTION_TERMINATE) then
       '(_, r, w) ← terminate_block w a r; Done (ret, r, w)
     else Done (ret, r, w)).
Proof. reflexivity. Qed.

Lemma next_S fuel w a r :
  PINT_state_machine_next server_program func server_state_machine_terminate malloc place
    frame_malloc frame_free (S fuel) w a r =
    (s ← smcb_at w a;
     if decide (op_cancelled s ≠ 0) then Done (SM_ACTION_TERMINATE, r, w) else run_loop fuel w a r).
Proof. reflexivity. Qed.

(** A block whose action has terminated it. *)
Lemma loop_ends fuel w a (s : server_block) st d tr r :
  smcbs w !! a = Some s → current_state s = Some st → state_of server_program st = Some d →
  trtbl d = Some [tr] → return_value tr = DEFAULT_ERROR → op_terminate s ≠ 0 →
  run_loop (S fuel) w a r =
    Done (SM_ACTION_TERMINATE, r, store_smcb w a (with_flags s 1 (op_cancelled s) (immediate s))).
Proof.
  intros Ha Hc Hd Ht Hv Hterm. cbn [next_loop]. rewrite (smcb_at_Some _ _ _ Ha). cbn [mbind exec_bind].
  unfold loop_fuel. cbn [return_loop]. rewrite Hc. unfold state_at. rewrite Hd. cbn [mbind exec_bind].
  rewrite Ht. cbn [find_transition]. rewrite (decide_False (P := return_value tr ≠ _)) by (by intros []).
  cbn [mbind exec_bind]. rewrite decide_True by (by right). done.
Qed.

Lemma terminate_receiver w a (s : server_block) p r :
  smcbs w !! a = Some s → parent_smcb s = None → terminate_fn s = Some (user_terminate_fn tt) →
  frames s = [mkFrame 0 (Some p) 0] →
  ∃ w', terminate_block w a r = Done (0, r, w') ∧ smcbs w' = delete a (smcbs w) ∧
    mem w' = mem w ∖ {[p]}.
Proof.
  intros Ha Hp Ht Hf. unfold PINT_state_machine_terminate. rewrite (smcb_at_Some _ _ _ Ha).
  cbn [mbind exec_bind]. rewrite Hp, Ht. cbn [mbind exec_bind].
  rewrite (smcb_at_Some _ a _ (lookup_insert_eq _ _ _)). cbn [mbind exec_bind server_state_machine_terminate].
  unfold PINT_smcb_free. rewrite (smcb_at_Some _ a _ (lookup_insert_eq _ _ _)). cbn [mbind exec_bind].
  eexists. split; [done|]. cbn. rewrite Hf. cbn. split; [by rewrite delete_insert_eq|done].
Qed.

(** What it does when the job cannot be posted. *)
Definition post_fails : Prop :=
  ∀ v r u, ∃ r', func unexpected_post v r u = mkResult SM_ACTION_TERMINATE r' (view_frames v) false u.

(** When the receive cannot be posted, the machine that was to wait for it is
    terminated, which frees its block; [server_post_unexpected_recv] then frees
    the block again. *)
Theorem failed_receive_freed_twice fuel sv :
  post_fails → server_post_unexpected_recv (S (S (S (S fuel)))) sv = Fault BadAccess.
Proof.
  intros Hpost. destruct (alloc_unexpected sv) as (s & w & E & Hw & Hm & Hs).
  unfold server_post_unexpected_recv. rewrite E. cbn [mbind exec_bind]. rewrite decide_False by lia.
  assert (smcbs w !! new_block sv = Some s) as Ha by (by rewrite Hw, lookup_insert_eq).
  rewrite (receives_op (with_world sv w) _ _ _ _ Ha Hs). cbn [mbind exec_bind].
  cbn [sw add_posted with_world]. rewrite start_S, (smcb_at_Some _ _ _ Ha). cbn [mbind exec_bind].
  set (s1 := with_control _ _ _ _ _).
  assert (receives post_unexpected s1 (new_op sv)) as Hs1 by (destruct Hs; split; try done; cbn; lia).
  rewrite (invoke_unexpected _ _ _ s1 (new_op sv)) by (done || apply lookup_insert_eq).
  edestruct Hpost as [r' ->]. cbn [result_action result_status result_mem mbind exec_bind].
  rewrite (decide_True (P := SM_ACTION_TERMINATE = _)) by done.
  rewrite (decide_True (P := SM_ACTION_TERMINATE = _ ∨ _)) by (by right).
  set (s2 := with_flags (after_action _ _) _ _ _). set (w2 := with_mem _ _).
  assert (smcbs w2 !! new_block sv = Some s2) as Ha2 by (apply lookup_insert_eq).
  rewrite continue_S, next_S, (smcb_at_Some _ _ _ Ha2). cbn [mbind exec_bind].
  rewrite (decide_False (P := op_cancelled s2 ≠ 0)) by (intros []; apply (rv_cancelled _ _ _ Hs)).
  erewrite (loop_ends _ w2 _ s2 post_unexpected); [|done|apply (rv_state _ _ _ Hs)|apply post_state|done..].
  cbn [mbind exec_bind]. rewrite decide_True by done. set (w3 := store_smcb w2 _ _).
  destruct (terminate_receiver w3 (new_block sv) (with_flags s2 1 (op_cancelled s2) (immediate s2))
    (new_op sv) r') as (w4 & -> & Hw4 & _);
    [apply lookup_insert_eq|apply (rv_parent _ _ _ Hs)|apply (rv_term _ _ _ Hs)|apply (rv_frames _ _ _ Hs)|].
  cbn [mbind exec_bind]. rewrite decide_False by done. cbn [mbind exec_bind]. rewrite decide_True by done.
  unfold PINT_smcb_free, smcb_at. by rewrite Hw4, lookup_delete_eq.
Qed.

(** * Messages that are no requests *)

(** The block of a message has been received and waits for its action. *)
Lemma done_map fuel cancelled buf a sv s p r :
  smcbs (sw sv) !! a = Some s → receives post_unexpected s p →
  let s' := with_current s (Some map_request) in
  receives map_request s' p ∧
    unexpected_done fuel cancelled buf a sv r =
      ('(ret, r, sv) ← invoke_map fuel (unexpected_map fuel cancelled buf a) (set_block sv a s') a r;
       '(ret, r, sv) ←
         (if decide (ret = SM_ACTION_COMPLETE ∨ ret = SM_ACTION_TERMINATE)
          then '(ret, r, w) ← run_loop fuel (sw sv) a r; Done (ret, r, with_world sv w)
          else Done (ret, r, sv));
       if decide (ret = SM_ACTION_TERMINATE)
       then '(_, _, w) ← terminate_block (sw sv) a r; Done (with_world sv w)
       else Done sv).
Proof.
  intros Ha Hs. split; [by destruct Hs|].
  unfold unexpected_done. rewrite (smcb_at_Some _ _ _ Ha). cbn [mbind exec_bind].
  unfold loop_fuel. cbn [return_loop]. rewrite (rv_state _ _ _ Hs). unfold state_at. rewrite post_state.
  cbn [mbind exec_bind trtbl find_transition return_value].
  rewrite (decide_False (P := -1 ≠ DEFAULT_ERROR)) by (by intros []). cbn [mbind exec_bind tran_flag].
  rewrite (decide_False (P := SM_NONE = SM_TERM ∨ _)) by (rewrite (rv_terminate _ _ _ Hs); by intros []).
  rewrite (decide_False (P := SM_NONE = SM_RETURN)) by done. cbn [mbind exec_bind jump_loop next_state].
  cbn [current_state with_current with_control]. unfold state_at. rewrite ?map_state.
  cbn [mbind exec_bind flag]. rewrite (decide_False (P := SM_RUN = SM_JUMP)) by done. cbn [mbind exec_bind].
  destruct (invoke_map _ _ _ _ _) as [[[ret r'] sv']|]; [|done]. cbn [mbind exec_bind].
  done.
Qed.

Lemma receives_trace st s p tr d :
  receives st s p → receives st (with_history s (h_root s) tr d) p.
Proof. by intros []. Qed.

(** Up to the decoding of the message, and with a function for the rest. *)
Lemma map_started fuel buf a sv s p r :
  post_defers → smcbs (sw sv) !! a = Some s → receives map_request s p →
  let sv0 := add_inprogress (qlist_del sv p) p in
  ∃ s' sv', smcbs (sw sv') !! a = Some s ∧
    server_post_unexpected_recv (S (S fuel)) sv0 = Done (SM_ACTION_DEFERRED, sv') ∧
    posts sv0 s' sv' ∧
    unexpected_map (S (S (S fuel))) false buf a sv r =
      ('(ret, r, sv) ← server_state_machine_start
         (λ sv r,
           s ← smcb_at (sw sv) a;
           if decide (current_state s = Some map_request)
           then invoke_map (S (S fuel)) (unexpected_map (S (S fuel)) false buf a) sv a r
           else '(ret, r, w) ← invoke (S (S fuel)) (sw sv) a r; Done (ret, r, with_world sv w))
         sv' a buf status_zero;
       Done (if decide (ret < 0) then SM_ACTION_TERMINATE else ret, r, sv)).
Proof.
  intros Hpost Ha Hs sv0.
  destruct (post_recv fuel sv0 Hpost) as (s' & sv' & E & Hp).
  exists s', sv'. split.
  { rewrite (ps_blocks _ _ _ Hp), lookup_insert_ne; [done|]. intros Heq.
    pose proof (ps_fresh _ _ _ Hp) as Hn. rewrite Heq in Hn. cbn in Hn. congruence. }
  split; [done|]. split; [done|].
  remember (S (S fuel)) as n eqn:En. cbn [unexpected_map]. rewrite (receives_op sv a _ _ _ Ha Hs).
  cbn [mbind exec_bind]. fold sv0. subst n. rewrite E. reflexivity.
Qed.

(** A message that is not understood, for another reason than its protocol
    version, ends its machine.  The operation is freed with the block, and it
    stays on the list of operations in progress, whose other members are then
    linked through memory that was freed. *)
Theorem rejected_message_dangles fuel buf a sv s p r ret d :
  post_defers → smcbs (sw sv) !! a = Some s → receives post_unexpected s p → p ∈ mem (sw sv) →
  PINT_decode t e buf PINT_ENCODE_REQ = Done (ret, d) → ret < 0 → ret ≠ - PVFS_EPROTONOSUPPORT →
  ∃ sv', unexpected_done (S (S (S fuel))) false buf a sv r = Done sv' ∧
    smcbs (sw sv') !! a = None ∧ p ∈ inprogress_sop_list sv' ∧ p ∉ mem (sw sv').
Proof.
  intros Hpost Ha Hs Hp Hdec Hret Hver.
  destruct (done_map (S (S (S fuel))) false buf a sv s p r Ha Hs) as (Hs1 & ->).
  set (s1 := with_current s (Some map_request)) in *.
  unfold invoke_map at 1. rewrite (smcb_at_Some _ a s1) by (apply lookup_insert_eq). cbn [mbind exec_bind].
  set (s2 := with_history _ _ _ _). set (sv1 := set_block _ a s2).
  assert (receives map_request s2 p) as Hs2 by (by apply receives_trace).
  destruct (map_started fuel buf a sv1 s2 p r Hpost) as (s' & sv2 & Ha2 & _ & Hp2 & ->);
    [apply lookup_insert_eq|done|].
  unfold server_state_machine_start at 1. rewrite (receives_op sv2 a _ _ _ Ha2 Hs2). cbn [mbind exec_bind].
  rewrite Hdec. cbn [mbind exec_bind]. rewrite (decide_False (P := ret = - PVFS_EPROTONOSUPPORT)) by done.
  rewrite (decide_False (P := ret = 0)) by lia. cbn [mbind exec_bind]. rewrite (decide_True (P := ret < 0)) by done.
  rewrite (smcb_at_Some _ _ _ Ha2). cbn [mbind exec_bind].
  rewrite (decide_True (P := SM_ACTION_TERMINATE = SM_ACTION_TERMINATE)) by done.
  set (s3 := with_flags s2 _ _ _). assert (current_state s3 = Some map_request) as -> by apply Hs2.
  unfold state_at. rewrite map_state. cbn [mbind exec_bind flag].
  rewrite (decide_False (P := SM_ACTION_TERMINATE = SM_ACTION_COMPLETE ∧ _)) by (by intros [? ?]).
  cbn [mbind exec_bind]. rewrite (decide_True (P := _ ∨ SM_ACTION_TERMINATE = SM_ACTION_TERMINATE)) by (by right).
  erewrite (loop_ends _ _ a s3 map_request); [|apply lookup_insert_eq|apply Hs2|apply map_state|done..].
  cbn [mbind exec_bind]. rewrite decide_True by done. set (w3 := sw (with_world _ _)).
  destruct (terminate_receiver w3 a (with_flags s3 1 (op_cancelled s3) (immediate s3)) p status_zero)
    as (w4 & -> & Hw4 & Hm4); [apply lookup_insert_eq|apply Hs2..|].
  cbn [mbind exec_bind]. eexists. split; [done|]. cbn. rewrite Hw4, Hm4, (ps_inprogress _ _ _ Hp2). cbn.
  split; [apply lookup_delete_eq|]. split; [|set_solver]. apply elem_of_app. right. by left.
Qed.

Lemma post_starved fuel sv :
  (fuel < 2)%nat → server_post_unexpected_recv fuel sv = Fault OutOfFuel.
Proof.
  intros Hf. destruct (alloc_unexpected sv) as (s & w & E & Hw & Hm & Hs).
  unfold server_post_unexpected_recv. rewrite E. cbn [mbind exec_bind]. rewrite decide_False by lia.
  assert (smcbs w !! new_block sv = Some s) as Ha by (by rewrite Hw, lookup_insert_eq).
  rewrite (receives_op (with_world sv w) _ _ _ _ Ha Hs). cbn [mbind exec_bind sw add_posted with_world].
  destruct fuel as [|[|]]; [done| |lia]. rewrite start_S, (smcb_at_Some _ _ _ Ha). done.
Qed.

Lemma map_starved fuel buf a sv s p r :
  (fuel < 3)%nat → smcbs (sw sv) !! a = Some s → receives map_request s p →
  unexpected_map fuel false buf a sv r = Fault OutOfFuel.
Proof.
  intros Hf Ha Hs. destruct fuel as [|fuel]; [done|]. cbn [unexpected_map].
  rewrite (receives_op sv a _ _ _ Ha Hs). cbn [mbind exec_bind]. by rewrite post_starved by lia.
Qed.

Lemma set_op_negative (s : server_block) o :
  o < 0 → PINT_smcb_set_op server_program s o =
    Done (- PVFS_EINVAL, with_op s o (op_get_state_machine s) (parent_smcb s) (context s) (terminate_fn s)).
Proof.
  intros Ho. unfold PINT_smcb_set_op, PINT_state_machine_locate. cbn [op_get_state_machine with_op op].
  destruct (op_get_state_machine s); [|done]. by rewrite decide_True.
Qed.

Lemma map_recurses fuel buf a q et :
  post_defers → PINT_decode t e buf PINT_ENCODE_REQ = Done (0, mkDecoded et (Some (M_req q))) →
  req_op (req_u q) < 0 →
  ∀ sv s p r, smcbs (sw sv) !! a = Some s → receives map_request s p →
    unexpected_map fuel false buf a sv r = Fault OutOfFuel.
Proof.
  intros Hpost Hdec Hop. induction fuel as [fuel IH] using lt_wf_ind. intros sv s p r Ha Hs.
  destruct (decide (fuel < 3)%nat) as [|Hf]; [by eapply map_starved|].
  destruct fuel as [|[|[|fuel]]]; [lia..|].
  destruct (map_started fuel buf a sv s p r Hpost Ha Hs) as (s' & sv2 & Ha2 & _ & _ & ->).
  unfold server_state_machine_start. rewrite (receives_op sv2 a _ _ _ Ha2 Hs). cbn [mbind exec_bind].
  rewrite Hdec. cbn [mbind exec_bind]. rewrite (decide_False (P := 0 = - PVFS_EPROTONOSUPPORT)) by done.
  rewrite (decide_True (P := 0 = 0)) by done. cbn [d_stub]. unfold set_op_of.
  rewrite (smcb_at_Some _ _ _ Ha2). cbn [mbind exec_bind]. rewrite set_op_negative by done.
  cbn [mbind exec_bind]. rewrite (decide_False (P := - PVFS_EINVAL = 0)) by done.
  set (s3 := with_op _ _ _ _ _ _). rewrite (smcb_at_Some _ a s3) by (apply lookup_insert_eq).
  cbn [mbind exec_bind]. rewrite decide_True by apply Hs.
  unfold invoke_map. rewrite (smcb_at_Some _ a s3) by (apply lookup_insert_eq). cbn [mbind exec_bind].
  erewrite (IH (S (S fuel))); [done|lia|apply lookup_insert_eq|].
  apply receives_trace. by destruct Hs.
Qed.

(** * Requests *)

Context (Hinit : PINT_encode_initialize t = Done (e, 0)).

Lemma received_op q : req_op (req_u (received_req q)) = req_op (req_u q).
Proof. by destruct q as [? ? []]. Qed.

(** C23. A request whose operation is a negative number is well formed.  It has no
    machine, and so [PINT_smcb_set_op] leaves the block in the state of the
    action that is being run, which [server_state_machine_start] runs again:
    the server calls itself with the same message until its stack is
    exhausted. *)
Theorem negative_operation_recurses q a sv s p :
  post_defers → req_ok t q = true → req_op (req_u q) < 0 → smcbs (sw sv) !! a = Some s →
  receives map_request s p →
  ∃ im, encode_PVFS_server_req t q = Done (im, 0) ∧
    (len (header_bytes ++ zeroed im) < B31 → ∀ fuel r,
     unexpected_map fuel false (header_bytes ++ zeroed im) a sv r = Fault OutOfFuel).
Proof.
  intros Hpost Hok Hop Ha Hs. destruct (request_decoded t e Hinit q Hok) as (im & Him & _ & Hdec).
  exists im. split; [done|]. intros Hl fuel r.
  eapply map_recurses; [done|by apply Hdec|by rewrite received_op|done|done].
Qed.

(** The start of a request that is decoded, up to the machine. *)
Lemma start_decoded act q a sv s p r buf et :
  smcbs (sw sv) !! a = Some s → receives map_request s p →
  PINT_decode t e buf PINT_ENCODE_REQ = Done (0, mkDecoded et (Some (M_req q))) →
  server_state_machine_start act sv a buf r =
    ('(ret, s) ← PINT_smcb_set_op server_program s (req_op (req_u q));
     let sv := set_req (set_block sv a s) p (with_server_hints q) in
     let sv := add_inprogress (qlist_del sv p) p in
     if decide (ret = 0) then Done (- PVFS_ENOSYS, r, sv) else act sv r).
Proof.
  intros Ha Hs Hdec. unfold server_state_machine_start. rewrite (receives_op sv a _ _ _ Ha Hs).
  cbn [mbind exec_bind]. rewrite Hdec. cbn [mbind exec_bind].
  rewrite (decide_False (P := 0 = - PVFS_EPROTONOSUPPORT)) by done.
  rewrite (decide_True (P := 0 = 0)) by done. cbn [d_stub]. unfold set_op_of.
  rewrite (smcb_at_Some _ _ _ Ha). cbn [mbind exec_bind].
  by destruct (PINT_smcb_set_op server_program s (req_op (req_u q))) as [[ret s']|].
Qed.

Lemma not_linked (p : positive) (l : list positive) : p ∉ filter (.≠ p) l.
Proof. rewrite list_elem_of_filter. by intros []. Qed.

Lemma linked_last (p : positive) (l : list positive) : p ∈ (l ++ [p])%list.
Proof. apply elem_of_app. right. by left. Qed.

(** A request that a client has encoded runs the machine of its operation: with
    the bytes of any well-formed request whose operation has a machine, the
    block of the message is turned over to the first state of that machine, its
    operation is in progress and no longer posted, it has the request as it
    arrives, with the hints of the server, and the first action is invoked. *)
Theorem request_started act q a sv s p r m first :
  req_ok t q = true → 0 ≤ req_op (req_u q) →
  server_op_state_get_machine (req_op (req_u q)) = Done (Some m) →
  first_state server_program m = Some first →
  smcbs (sw sv) !! a = Some s → receives map_request s p →
  ∃ im s' st stk sv', encode_PVFS_server_req t q = Done (im, 0) ∧
    h_root s' = Some first ∧ current_state s' = Some st ∧ is_leaf server_program st ∧
    enters server_program first [] (st, stk) ∧ op s' = req_op (req_u q) ∧ frames s' = frames s ∧
    smcbs (sw sv') !! a = Some s' ∧ (p ∉ posted_sop_list sv') ∧ p ∈ inprogress_sop_list sv' ∧
    sop_req sv' !! p = Some (with_server_hints (received_req q)) ∧
    (len (header_bytes ++ zeroed im) < B31 →
     server_state_machine_start act sv a (header_bytes ++ zeroed im) r = act sv' r).
Proof.
  intros Hok Hop Hm Hfs Ha Hs. destruct (request_decoded t e Hinit q Hok) as (im & Him & _ & Hdec).
  destruct (check_wf_sound _ server_wf) as [Hwf Hfirst].
  destruct (locate_spec server_program _ Hwf Hfirst
    (with_op s (req_op (req_u q)) (op_get_state_machine s) (parent_smcb s) (context s) (terminate_fn s))
    server_op_state_get_machine m first) as (s' & st & stk & E & [[Hctl _ Hleaf _ _] _] & Hfr & _ & _ &
    _ & _ & _ & Hroot & Hent & Ho'); [apply Hs|done|done|done|apply Hs..|].
  eexists im, s', st, stk, (add_inprogress (qlist_del (set_req (set_block sv a s') p
    (with_server_hints (received_req q))) p) p).
  split; [exact Him|]. split; [exact Hroot|]. split; [exact (ctl_cur _ _ _ Hctl)|].
  split; [exact Hleaf|]. split; [exact Hent|]. split; [exact Ho'|]. split; [exact Hfr|].
  split; [apply lookup_insert_eq|]. split; [apply not_linked|]. split; [apply linked_last|].
  split; [apply lookup_insert_eq|]. intros Hl.
  rewrite (start_decoded act _ a sv s p r _ _ Ha Hs (Hdec Hl)), received_op.
  unfold PINT_smcb_set_op. rewrite E. cbn [mbind exec_bind]. by rewrite decide_False by lia.
Qed.

(** ** The machine of an operation starts with an action *)

Fixpoint first_leaf (prog : program sid String.string sid) (n : nat) (st : sid) : option sid :=
  match n with
  | O => None
  | S n =>
      match state_of prog st with
      | Some d =>
          match flag d, action d with
          | SM_JUMP, action_nested (Some m) => first_state prog m ≫= first_leaf prog n
          | SM_JUMP, _ => None
          | _, _ => Some st
          end
      | None => None
      end
  end.

Lemma enters_first_leaf prog n st stk c x :
  enters prog st stk c → first_leaf prog n st = Some x → c.1 = x.
Proof.
  intros He. revert n. induction He as [st stk (d & Hd & Hl)|st f stk c (d & m & Hd & Hf & Ha & Hm) _ IH];
    (intros [|n]; [discriminate|]); cbn [first_leaf]; rewrite Hd.
  - destruct Hl as [-> | ->]; intros [= <-]; reflexivity.
  - rewrite Hf, Ha, Hm. exact (IH n).
Qed.

Definition starts_with_run (op : Z) : bool :=
  match op_first op ≫= first_leaf server_program 9 with
  | Some st => match state_of server_program st with
               | Some d => bool_decide (flag d = SM_RUN ∧ st ≠ map_request)
               | None => false
               end
  | None => false
  end.

(** The operations that fan out over a tree of servers start with a parallel
    state, all others with an action. *)
Lemma first_leaf_checked :
  agree starts_with_run
    (λ op, negb (bool_decide (op ∈ (null_params ++ [PVFS_SERV_TREE_REMOVE; PVFS_SERV_TREE_GET_FILE_SIZE;
                                PVFS_SERV_TREE_SETATTR; PVFS_SERV_TREE_GETATTR])%list))) 0 52 = true ∧
  starts_with_run BMI_UNEXPECTED_OP = true.
Proof. split; vm_compute; reflexivity. Qed.

Lemma first_runs op m first st stk :
  starts_with_run op = true → server_op_state_get_machine op = Done (Some m) →
  first_state server_program m = Some first → enters server_program first [] (st, stk) →
  st ≠ map_request ∧ ∃ d, state_of server_program st = Some d ∧ flag d = SM_RUN.
Proof.
  unfold starts_with_run, op_first. intros Hr Hm Hf He. rewrite Hm, Hf in Hr. cbn [mbind option_bind] in Hr.
  revert Hr. generalize 9%nat. intros n Hr.
  destruct (first_leaf server_program n first) as [x|] eqn:E; [|discriminate].
  pose proof (enters_first_leaf server_program n first [] (st, stk) x He E) as Hx. cbn [fst] in Hx. subst x.
  destruct (state_of server_program st) as [d|]; [|discriminate].
  apply bool_decide_eq_true in Hr as [Hr Hne]. split; [exact Hne|].
  exact (ex_intro _ d (conj eq_refl Hr)).
Qed.

(** What every action returns. *)
Definition action_codes : Prop :=
  ∀ f v r u, result_action (func f v r u) = SM_ACTION_DEFERRED ∨
    result_action (func f v r u) = SM_ACTION_COMPLETE ∨
    result_action (func f v r u) = SM_ACTION_TERMINATE.

(** [invoke_map] adds nothing to an action that has run the first action of
    another machine in its block. *)
Lemma invoke_map_ran fuel act sv sv' a (s : server_block) st d r r' ret :
  smcbs (sw sv) !! a = Some s →
  act (set_block sv a (with_history s (h_root s) (h_trace s ++ [map_request]) (h_done s))) r =
    Done (ret, r', sv') →
  ∀ s', smcbs (sw sv') !! a = Some s' → current_state s' = Some st →
  state_of server_program st = Some d → flag d = SM_RUN →
  (ret = SM_ACTION_TERMINATE → op_terminate s' = 1) →
  invoke_map fuel act sv a r = Done (ret, r', sv').
Proof.
  intros Ha Hact s' Ha' Hc Hd Hf Ht. unfold invoke_map. rewrite (smcb_at_Some _ _ _ Ha).
  cbn [mbind exec_bind]. rewrite Hact. cbn [mbind exec_bind]. rewrite (smcb_at_Some _ _ _ Ha').
  cbn [mbind exec_bind].
  assert ((if decide (ret = SM_ACTION_TERMINATE) then with_flags s' 1 (op_cancelled s') (immediate s')
           else s') = s') as ->.
  { case_decide as Hr; [|reflexivity]. specialize (Ht Hr). destruct s'. cbn in Ht. by rewrite Ht. }
  rewrite Hc. unfold state_at. rewrite Hd. cbn [mbind exec_bind].
  rewrite (decide_False (P := ret = SM_ACTION_COMPLETE ∧ flag d = SM_PJMP)) by (rewrite Hf; by intros [_ ?]).
  do 2 f_equal. destruct sv' as [w' ? ? ? ?]. unfold set_block, with_world, store_smcb, with_smcbs. cbn in Ha' |- *.
  rewrite insert_id by exact Ha'. by destruct w'.
Qed.

(** The action of a state that is not parallel, for any depth of the calls. *)
Lemma invoke_runs w a (s : server_block) st d f r :
  action_codes → smcbs w !! a = Some s → current_state s = Some st →
  state_of server_program st = Some d → flag d = SM_RUN → action d = action_func (Some f) →
  ∃ ret r' w' s', (∀ fuel, invoke (S fuel) w a r = Done (ret, r', w')) ∧
    (ret = SM_ACTION_DEFERRED ∨ ret = SM_ACTION_COMPLETE ∨ ret = SM_ACTION_TERMINATE) ∧
    smcbs w' !! a = Some s' ∧ current_state s' = Some st ∧ op_cancelled s' = op_cancelled s ∧
    (ret = SM_ACTION_TERMINATE → op_terminate s' = 1).
Proof.
  intros Hcodes Ha Hc Hd Hf Hact. do 4 eexists. split; [intros fuel; exact (invoke_run fuel w a s st d f r Ha Hc Hd Hf Hact)|].
  split; [apply Hcodes|]. split; [apply lookup_insert_eq|].
  set (res := func _ _ _ _). unfold after_action.
  split; [|split]; [destruct (decide _), (result_complete res); exact Hc|
    destruct (decide _), (result_complete res); reflexivity|].
  intros Ht. destruct (decide _) as [|Hn]; [reflexivity|contradiction].
Qed.

(** The server once [unexpected_map] has taken the message from the block
    [s], at [a], whose operation is [p] ... *)
Definition taken (sv : server) (a : positive) (s : server_block) (p : positive) : server :=
  add_inprogress (qlist_del (set_block sv a
    (with_history (with_current s (Some map_request)) (h_root s) (h_trace s ++ [map_request]) (h_done s)))
    p) p.

(** ... and once the request has been found in it. *)
Definition dispatched (sv : server) (p : positive) (q : PVFS_server_req) : server :=
  add_inprogress (qlist_del (set_req sv p (with_server_hints (received_req q))) p) p.

Lemma set_block_twice sv a s s' : set_block (set_block sv a s) a s' = set_block sv a s'.
Proof.
  unfold set_block, with_world, store_smcb, with_smcbs. cbn. by rewrite insert_insert_eq.
Qed.

(** C6. A message is an event of the engine.  When a block that receives gets the
    bytes of a well-formed request whose operation has a machine that starts
    with an action, and posting a receive succeeds, then what
    [PINT_state_machine_continue] does, all calls included, is this: the
    operation of the block is moved to those in progress, one new block is
    posted that receives the next message ([posts]), the request is stored
    with the operation, and the event is run that turns the block over to the
    machine of the operation. *)
Theorem message_is_event n q a sv s p r m first :
  post_defers → action_codes → req_ok t q = true → 0 ≤ req_op (req_u q) →
  starts_with_run (req_op (req_u q)) = true →
  server_op_state_get_machine (req_op (req_u q)) = Done (Some m) →
  first_state server_program m = Some first →
  smcbs (sw sv) !! a = Some s → receives post_unexpected s p → h_done s = false →
  ∃ im s1 sv1, encode_PVFS_server_req t q = Done (im, 0) ∧
    server_post_unexpected_recv (S (S n)) (taken sv a s p) = Done (SM_ACTION_DEFERRED, sv1) ∧
    posts (taken sv a s p) s1 sv1 ∧
    enabled server_program (sw sv1) (EvOp a (req_op (req_u q)) status_zero) ∧
    (len (header_bytes ++ zeroed im) < B31 →
     unexpected_done (S (S (S n))) false (header_bytes ++ zeroed im) a sv r =
       (w ← run_event server_program func server_state_machine_terminate malloc place frame_malloc
              frame_free (S (S (S (S (S n))))) (sw sv1) (EvOp a (req_op (req_u q)) status_zero);
        Done (with_world (dispatched sv1 p q) w))).
Proof.
  intros Hpost Hcodes Hok Hop Hrun Hm Hfs Ha Hs Hlive.
  destruct (request_decoded t e Hinit q Hok) as (im & Him & _ & Hdec). exists im.
  destruct (done_map (S (S (S n))) false (header_bytes ++ zeroed im) a sv s p r Ha Hs) as (Hs1 & Hdone).
  set (s1 := with_current s (Some map_request)) in *. set (s2 := with_history s1 (h_root s1) (h_trace s1 ++ [map_request]) (h_done s1)).
  assert (receives map_request s2 p) as Hs2 by (by apply receives_trace).
  destruct (map_started n (header_bytes ++ zeroed im) a (set_block (set_block sv a s1) a s2) s2 p r Hpost)
    as (s0 & sv1 & Ha1 & Hrecv & Hposts & Hmap); [apply lookup_insert_eq|exact Hs2|].
  rewrite set_block_twice in Hrecv, Hposts.
  destruct (check_wf_sound _ server_wf) as [Hwf Hfirst].
  destruct (locate_spec server_program _ Hwf Hfirst
    (with_op s2 (req_op (req_u q)) (op_get_state_machine s2) (parent_smcb s2) (context s2) (terminate_fn s2))
    server_op_state_get_machine m first) as (s' & st & stk & E & [[Hctl _ Hleaf _ _] _] & Hfr & _ & Hca &
    _ & _ & _ & Hroot & Hent & Ho'); [apply Hs2|exact Hop|exact Hm|exact Hfs|apply Hs2..|].
  destruct (first_runs _ m first st stk Hrun Hm Hfs Hent) as (Hne & d & Hd & Hf).
  destruct (wf_action _ _ _ _ (Hwf st d Hd)) as [[_ [f Hact]]|[Hj _]]; [|rewrite Hf in Hj; discriminate Hj].
  set (sv2 := add_inprogress (qlist_del (set_req (set_block sv1 a s') p
    (with_server_hints (received_req q))) p) p).
  assert (smcbs (sw sv2) !! a = Some s') as Ha2 by apply lookup_insert_eq.
  exists s0, sv1. split; [exact Him|]. split; [exact Hrecv|]. split; [exact Hposts|]. split.
  { split; [exact Hop|]. exists s2, map_request. do 4 eexists. split; [exact Ha1|].
    split; [exact Hlive|]. split; [apply Hs2|]. split; [exact map_state|]. split; [reflexivity|].
    split; [apply Hs2|]. split; [apply Hs2|]. split; [apply Hs2|]. split; [exact Hm|exact Hfs]. }
  intros Hl. rewrite Hdone.
  destruct (invoke_runs (sw sv2) a s' st d f status_zero Hcodes Ha2
    (ctl_cur _ _ _ Hctl) Hd Hf Hact) as (ret & r' & w4 & s4 & Hinv & Hret & Ha4 & Hc4 & Hca4 & Ht4).
  assert (smcbs (sw (set_block sv a s1)) !! a = Some s1) as Hab by apply lookup_insert_eq.
  rewrite (invoke_map_ran (S (S (S n))) _ (set_block sv a s1) (with_world sv2 w4) a s1 st d r r' ret Hab)
    with (s' := s4).
  2: { fold s2. rewrite Hmap, (start_decoded _ _ a sv1 s2 p _ _ _ Ha1 Hs2 (Hdec Hl)), received_op.
       unfold PINT_smcb_set_op. rewrite E. cbn [mbind exec_bind]. rewrite (decide_False (P := 1 = 0)) by lia.
       fold sv2. rewrite (smcb_at_Some _ _ _ Ha2). cbn [mbind exec_bind].
       rewrite (ctl_cur _ _ _ Hctl). rewrite (decide_False (P := Some st = Some map_request)) by congruence.
       rewrite Hinv. cbn [mbind exec_bind]. rewrite decide_False; [reflexivity|].
       destruct Hret as [->|[->| ->]]; discriminate. }
  2-6: assumption.
  cbn [run_event]. rewrite (smcb_at_Some _ _ _ Ha1). cbn [mbind exec_bind]. unfold PINT_smcb_set_op.
  rewrite E. cbn [mbind exec_bind]. rewrite (decide_True (P := 1 = 1)) by reflexivity.
  change (store_smcb (sw sv1) a s') with (sw sv2). rewrite Hinv. cbn [mbind exec_bind].
  destruct (decide (ret = SM_ACTION_COMPLETE ∨ ret = SM_ACTION_TERMINATE)) as [Hct|Hct].
  - rewrite continue_S, next_S. change (sw (with_world sv2 w4)) with w4. rewrite (smcb_at_Some _ _ _ Ha4).
    cbn [mbind exec_bind]. rewrite (decide_False (P := op_cancelled s4 ≠ 0)).
    2: { rewrite Hca4, Hca. intros Hx. apply Hx, Hs2. }
    destruct (run_loop _ w4 a r') as [[[ret5 r5] w5]|]; [|reflexivity]. cbn [mbind exec_bind].
    destruct (decide (ret5 = SM_ACTION_TERMINATE)); [|reflexivity]. cbn [sw with_world].
    destruct (terminate_block w5 a r5) as [[[? ?] w6]|]; reflexivity.
  - cbn [mbind exec_bind]. rewrite decide_False; [reflexivity|]. intros Hx. apply Hct. by right.
Qed.

Lemma null_params_fault op : op ∈ null_params → 0 ≤ op ∧ server_op_state_get_machine op = Fault BadAccess.
Proof.
  unfold null_params. intros Hop.
  repeat (apply elem_of_cons in Hop as [->|Hop]; [split; [discriminate|reflexivity]|]).
  by apply elem_of_nil in Hop.
Qed.

(** A request for an operation that is in the table without parameters, which a
    client can send, brings the server down. *)
Theorem unimplemented_request_crashes act q a sv s p r :
  req_ok t q = true → req_op (req_u q) ∈ null_params → smcbs (sw sv) !! a = Some s →
  receives map_request s p →
  ∃ im, encode_PVFS_server_req t q = Done (im, 0) ∧
    (len (header_bytes ++ zeroed im) < B31 →
     server_state_machine_start act sv a (header_bytes ++ zeroed im) r = Fault BadAccess).
Proof.
  intros Hok Hop Ha Hs. destruct (request_decoded t e Hinit q Hok) as (im & Him & _ & Hdec).
  exists im. split; [exact Him|]. intros Hl. destruct (null_params_fault _ Hop) as [H0 Hnull].
  rewrite (start_decoded act _ a sv s p r _ _ Ha Hs (Hdec Hl)), received_op.
  unfold PINT_smcb_set_op, PINT_state_machine_locate. cbn [op_get_state_machine with_op op].
  rewrite (rv_getmach _ _ _ Hs), decide_False by lia. rewrite Hnull. reflexivity.
Qed.

(** An operation that is not in the table is refused, and its operation dangles
    as that of a message that is not understood. *)
Theorem unknown_request_refused act q a sv s p r :
  req_ok t q = true → PVFS_SERV_NUM_OPS ≤ req_op (req_u q) → req_op (req_u q) ≠ BMI_UNEXPECTED_OP →
  smcbs (sw sv) !! a = Some s → receives map_request s p →
  ∃ im, encode_PVFS_server_req t q = Done (im, 0) ∧
    (len (header_bytes ++ zeroed im) < B31 →
     ∃ sv', server_state_machine_start act sv a (header_bytes ++ zeroed im) r =
              Done (- PVFS_ENOSYS, r, sv') ∧ p ∈ inprogress_sop_list sv').
Proof.
  intros Hok Hop Hne Ha Hs. destruct (request_decoded t e Hinit q Hok) as (im & Him & _ & Hdec).
  exists im. split; [exact Him|]. intros Hl. unfold PVFS_SERV_NUM_OPS in Hop.
  rewrite (start_decoded act _ a sv s p r _ _ Ha Hs (Hdec Hl)), received_op.
  unfold PINT_smcb_set_op, PINT_state_machine_locate. cbn [op_get_state_machine with_op op].
  rewrite (rv_getmach _ _ _ Hs), decide_False by lia. unfold server_op_state_get_machine.
  rewrite decide_False, decide_False by (unfold PVFS_SERV_NUM_OPS; lia || exact Hne).
  cbn [mbind exec_bind]. eexists. split; [reflexivity|]. apply linked_last.
Qed.

End server.

(** * Examples *)

(** Receives are posted, or cannot be posted; other actions complete. *)
Definition recv_func (f : sid) (v : action_view) (r : job_status_s) (u : frame_set)
    : action_result frame_set :=
  if decide (f = unexpected_post) then mkResult SM_ACTION_DEFERRED r (view_frames v) false u
  else mkResult SM_ACTION_COMPLETE (with_error r 0) [] false u.

Definition fail_func (f : sid) (v : action_view) (r : job_status_s) (u : frame_set)
    : action_result frame_set :=
  mkResult SM_ACTION_TERMINATE (with_error r (- PVFS_ENOMEM)) (view_frames v) false u.

Lemma recv_defers : post_defers recv_func.
Proof. intros v r u. unfold recv_func. rewrite decide_True by reflexivity. reflexivity. Qed.

Lemma recv_codes : action_codes recv_func.
Proof. intros f v r u. unfold recv_func. case_decide; [by left|by right; left]. Qed.

Lemma fail_fails : post_fails fail_func.
Proof. intros v r u. eexists. reflexivity. Qed.

Definition recv_block (st : sid) : server_block :=
  mkSmcb 0 (Some st) (replicate 8 (None, 0)) [mkFrame 0 (Some 1%positive) 0] 0 1
    (Some server_op_state_get_machine) BMI_UNEXPECTED_OP None 0 0 0 0 (Some (user_terminate_fn tt)) 0
    (Some post_unexpected) [post_unexpected] false.

Lemma recv_receives st : receives st (recv_block st) 1.
Proof. split; reflexivity. Qed.

(** A server with one block, which has received a message. *)
Definition recv_server (st : sid) : server :=
  mkServer (mkWorld {[1%positive := recv_block st]} [] {[1%positive]} 0 []) [1%positive] [] [] ∅.

Lemma recv_at st : smcbs (sw (recv_server st)) !! 1%positive = Some (recv_block st).
Proof. apply lookup_singleton_eq. Qed.

Definition sample_negative : PVFS_server_req := mk_server_req sample_capability [] (Rq_none (-1)).
Definition sample_event_mon : PVFS_server_req :=
  mk_server_req sample_capability [] (Rq_mgmt_event_mon (mk_servreq_mgmt_event_mon 5)).
Definition sample_unknown : PVFS_server_req := mk_server_req sample_capability [] (Rq_none 77).

Lemma always_malloc : ∀ n : nat, (λ _, true) n = true.
Proof. reflexivity. Qed.

Lemma failed_receive_freed_twice_witness :
  server_post_unexpected_recv fail_func (λ _, true) fresh 8 0 4 (recv_server post_unexpected) =
    Fault BadAccess.
Proof.
  apply (failed_receive_freed_twice fail_func (λ _, true) fresh 8 0 always_malloc ltac:(reflexivity) 0
    (recv_server post_unexpected) fail_fails).
Defined.

Lemma rejected_message_dangles_witness :
  ∃ sv', unexpected_done recv_func (λ _, true) fresh standard_dists standard_encoder 0 8 0 3 false
           (header_bytes ++ zeroed sample_noop_image ++ [0])%list 1 (recv_server post_unexpected)
           status_zero = Done sv' ∧
    smcbs (sw sv') !! 1%positive = None ∧ 1%positive ∈ inprogress_sop_list sv' ∧
    1%positive ∉ mem (sw sv').
Proof.
  eapply (rejected_message_dangles recv_func (λ _, true) fresh standard_dists standard_encoder 0 8 0
    always_malloc fresh_new ltac:(reflexivity) 0 _ 1 (recv_server post_unexpected)
    (recv_block post_unexpected) 1 status_zero (- PVFS_EPROTO) _ recv_defers (recv_at _) (recv_receives _)).
  - by apply elem_of_singleton.
  - vm_compute. reflexivity.
  - reflexivity.
  - discriminate.
Defined.

Lemma negative_operation_recurses_witness :
  ∃ im, encode_PVFS_server_req standard_dists sample_negative = Done (im, 0) ∧
    (len (header_bytes ++ zeroed im) < B31 → ∀ fuel r,
     unexpected_map recv_func (λ _, true) fresh standard_dists standard_encoder 0 8 0 fuel false
       (header_bytes ++ zeroed im)%list 1 (recv_server map_request) r = Fault OutOfFuel).
Proof.
  apply (negative_operation_recurses recv_func (λ _, true) fresh standard_dists standard_encoder 0 8 0
    always_malloc fresh_new ltac:(reflexivity) standard_initialize sample_negative 1
    (recv_server map_request) (recv_block map_request) 1 recv_defers ltac:(vm_compute; reflexivity)
    ltac:(reflexivity) (recv_at _) (recv_receives _)).
Defined.

Lemma unimplemented_request_crashes_witness :
  ∃ im, encode_PVFS_server_req standard_dists sample_event_mon = Done (im, 0) ∧
    (len (header_bytes ++ zeroed im) < B31 →
     server_state_machine_start standard_dists standard_encoder 0 (λ sv r, Done (0, r, sv))
       (recv_server map_request) 1 (header_bytes ++ zeroed im)%list status_zero = Fault BadAccess).
Proof.
  apply (unimplemented_request_crashes standard_dists standard_encoder 0 standard_initialize _
    sample_event_mon 1 (recv_server map_request) (recv_block map_request) 1 status_zero
    ltac:(vm_compute; reflexivity)); [|apply recv_at|apply recv_receives].
  vm_compute. repeat constructor.
Defined.

Lemma unknown_request_refused_witness :
  ∃ im, encode_PVFS_server_req standard_dists sample_unknown = Done (im, 0) ∧
    (len (header_bytes ++ zeroed im) < B31 →
     ∃ sv', server_state_machine_start standard_dists standard_encoder 0 (λ sv r, Done (0, r, sv))
              (recv_server map_request) 1 (header_bytes ++ zeroed im)%list status_zero =
              Done (- PVFS_ENOSYS, status_zero, sv') ∧ 1%positive ∈ inprogress_sop_list sv').
Proof.
  apply (unknown_request_refused standard_dists standard_encoder 0 standard_initialize _
    sample_unknown 1 (recv_server map_request) (recv_block map_request) 1 status_zero
    ltac:(vm_compute; reflexivity)); [discriminate|discriminate|apply recv_at|apply recv_receives].
Defined.

Lemma request_started_witness :
  ∃ im s' st stk sv', encode_PVFS_server_req standard_dists sample_noop = Done (im, 0) ∧
    h_root s' = Some ("server/noop.sm", "prelude") ∧ current_state s' = Some st ∧
    is_leaf server_program st ∧ enters server_program ("server/noop.sm", "prelude") [] (st, stk) ∧
    op s' = PVFS_SERV_MGMT_NOOP ∧ frames s' = [mkFrame 0 (Some 1%positive) 0] ∧
    smcbs (sw sv') !! 1%positive = Some s' ∧ (1%positive ∉ posted_sop_list sv') ∧
    1%positive ∈ inprogress_sop_list sv' ∧
    sop_req sv' !! 1%positive = Some (with_server_hints 0 (received_req sample_noop)) ∧
    (len (header_bytes ++ zeroed im) < B31 →
     server_state_machine_start standard_dists standard_encoder 0 (λ sv r, Done (0, r, sv))
       (recv_server map_request) 1 (header_bytes ++ zeroed im)%list status_zero =
       Done (0, status_zero, sv')).
Proof.
  apply (request_started standard_dists standard_encoder 0 standard_initialize (λ sv r, Done (0, r, sv))
    sample_noop 1 (recv_server map_request) (recv_block map_request) 1 status_zero "pvfs2_noop_sm"
    ("server/noop.sm", "prelude") ltac:(vm_compute; reflexivity) ltac:(discriminate)
    ltac:(vm_compute; reflexivity) ltac:(vm_compute; reflexivity) (recv_at _) (recv_receives _)).
Defined.

Lemma message_is_event_witness :
  let sv0 := taken (recv_server post_unexpected) 1 (recv_block post_unexpected) 1 in
  ∃ im s1 sv1, encode_PVFS_server_req standard_dists sample_noop = Done (im, 0) ∧
    server_post_unexpected_recv recv_func (λ _, true) fresh 8 0 52 sv0 = Done (SM_ACTION_DEFERRED, sv1) ∧
    posts fresh sv0 s1 sv1 ∧
    enabled server_program (sw sv1) (EvOp 1 PVFS_SERV_MGMT_NOOP status_zero) ∧
    (len (header_bytes ++ zeroed im) < B31 →
     unexpected_done recv_func (λ _, true) fresh standard_dists standard_encoder 0 8 0 53 false
       (header_bytes ++ zeroed im)%list 1 (recv_server post_unexpected) status_zero =
       (w ← run_event server_program recv_func server_state_machine_terminate (λ _, true) fresh
              (frame_malloc fresh) frame_free 55 (sw sv1) (EvOp 1 PVFS_SERV_MGMT_NOOP status_zero);
        Done (with_world (dispatched 0 sv1 1 sample_noop) w))).
Proof.
  apply (message_is_event recv_func (λ _, true) fresh standard_dists standard_encoder 0 8 0
    always_malloc fresh_new ltac:(reflexivity) standard_initialize 50 sample_noop 1
    (recv_server post_unexpected) (recv_block post_unexpected) 1 status_zero "pvfs2_noop_sm"
    ("server/noop.sm", "prelude") recv_defers recv_codes ltac:(vm_compute; reflexivity)
    ltac:(discriminate) ltac:(vm_compute; reflexivity) ltac:(vm_compute; reflexivity)
    ltac:(vm_compute; reflexivity) (recv_at _) (recv_receives _) ltac:(reflexivity)).
Defined.
