(* ===== verification/Security.v ===== *)
(** Capabilities and credentials: src/src/common/security/security-util.c,
    security-hash.c, pint-uid-map.c, and the two implementations of signing
    and verification, security-stubs.c (a server built without security) and
    pint-security.c (a server built with keys).

    The structs are those that travel in requests, [WireTypes.PVFS_capability]
    and [WireTypes.PVFS_credential].  A pointer to an array is NULL when the
    list is empty: so it is after decoding, and [PINT_init_capability]
    allocates a signature that is not empty.  The clock is read once per call
    and is an argument, [now].  OpenSSL is a parameter: [EVP_sign] stands for
    the calls from EVP_SignInit_ex to EVP_SignFinal, [EVP_verify] for those
    from EVP_VerifyInit_ex to EVP_VerifyFinal. *)

From stdpp Require Import base tactics numbers list list_numbers.
From S2P Require Import Prelude Errors Wire WireTypes Quickhash.

(** * Operation masks (pint-security.h) *)

Definition PINT_CAP_EXEC : Z := 2 ^ 0.
Definition PINT_CAP_WRITE : Z := 2 ^ 1.
Definition PINT_CAP_READ : Z := 2 ^ 2.
Definition PINT_CAP_SETATTR : Z := 2 ^ 3.
Definition PINT_CAP_CREATE : Z := 2 ^ 4.
Definition PINT_CAP_ADMIN : Z := 2 ^ 5.
Definition PINT_CAP_REMOVE : Z := 2 ^ 6.
Definition PINT_CAP_BATCH_CREATE : Z := 2 ^ 7.
Definition PINT_CAP_BATCH_REMOVE : Z := 2 ^ 8.

(** [~((uint32_t)0)]. *)
Definition ALL_CAPS : Z := 2 ^ 32 - 1.

(** The fields of the server's configuration that the functions read. *)
Record security_config := mk_security_config {
  server_alias : list Z;
  capability_timeout : Z;       (* int: seconds *)
  credential_timeout : Z;       (* int: seconds *)
  bypass_timeout_check : bool;
}.

(** "S:" and the alias of this server. *)
Definition server_issuer (config : security_config) : list Z :=
  [83; 58] ++ server_alias config.

(** * security-util.c *)

Definition PINT_null_capability : PVFS_capability := mk_capability (Some []) 0 0 [] 0 0 0 [].

(** strcmp reads the issuer. *)
Definition PINT_capability_is_null (cap : PVFS_capability) : exec bool :=
  match cap_issuer cap with
  | Some issuer => Done (bool_decide (issuer = []) && (cap_op_mask cap =? 0))
  | None => Fault BadAccess
  end.

(** [memcpy] of [n] elements of an array into a new one; [n = 0] leaves it NULL. *)
Definition copy_array (l : list Z) (n : Z) : exec (list Z) :=
  if decide (n = 0) then Done [] else
  if decide (0 ≤ n ≤ len l) then Done (take (Z.to_nat n) l) else Fault BadAccess.

(** The deep copies; [alloc] says which of the allocations succeed, and an
    allocation that is not asked for does not fail. *)
Definition PINT_copy_capability (alloc : nat → bool) (src : PVFS_capability)
    : exec (Z + PVFS_capability) :=
  match cap_issuer src with
  | None => Fault AssertFailed
  | Some issuer =>
      if negb (alloc 0%nat) then Done (inl (- PVFS_ENOMEM)) else
      if negb (cap_sig_size src =? 0) && negb (alloc 1%nat) then Done (inl (- PVFS_ENOMEM)) else
      signature ← copy_array (cap_signature src) (cap_sig_size src);
      if negb (cap_num_handles src =? 0) && negb (alloc 2%nat)
      then Done (inl (- PVFS_ENOMEM)) else
      handles ← copy_array (cap_handle_array src) (cap_num_handles src);
      Done (inr (mk_capability (Some issuer) (cap_fsid src) (cap_sig_size src) signature
                   (cap_timeout src) (cap_op_mask src) (cap_num_handles src) handles))
  end.

Definition PINT_copy_credential (alloc : nat → bool) (src : PVFS_credential)
    : exec (Z + PVFS_credential) :=
  match cred_issuer src with
  | None => Fault AssertFailed
  | Some issuer =>
      if negb (alloc 0%nat) then Done (inl (- PVFS_ENOMEM)) else
      if negb (cred_sig_size src =? 0) && negb (alloc 1%nat)
      then Done (inl (- PVFS_ENOMEM)) else
      signature ← copy_array (cred_signature src) (cred_sig_size src);
      if negb (cred_num_groups src =? 0) && negb (alloc 2%nat)
      then Done (inl (- PVFS_ENOMEM)) else
      groups ← copy_array (cred_group_array src) (cred_num_groups src);
      Done (inr (mk_credential (cred_userid src) (cred_num_groups src) groups (Some issuer)
                   (cred_timeout src) (cred_sig_size src) signature (cred_certificate src)))
  end.

(** [PINT_print_op_mask]: nine codes, the leftmost for bit 8. *)
Definition PINT_print_op_mask (op_mask : Z) : list Z :=
  let codes := [109; 101; 118; 97; 99; 115; 114; 119; 120] in   (* "mevacsrwx" *)
  imap (λ i code, if Z.testbit op_mask (8 - Z.of_nat i) then code else 45) codes.

(** * pint-uid-map.c, without ENABLE_SECURITY_CERT *)

Definition PVFS_REQ_LIMIT_GROUPS : Z := PVFS_SYS_LIMIT_GROUPS.

(** The user and the groups of a credential.  [memcpy] fills an array of the
    caller's that has PVFS_REQ_LIMIT_GROUPS elements. *)
Definition PINT_map_credential (cred : PVFS_credential) : exec (Z * list Z) :=
  groups ← copy_array (cred_group_array cred) (cred_num_groups cred);
  if decide (cred_num_groups cred ≤ PVFS_REQ_LIMIT_GROUPS)
  then Done (cred_userid cred, groups)
  else Fault BadAccess.

(** * What is signed *)

Definition le (n x : Z) : list Z := Z_to_little_endian n 8 x.

Definition capability_message (cap : PVFS_capability) : exec (list Z) :=
  match cap_issuer cap with
  | None => Fault BadAccess
  | Some issuer =>
      handles ← copy_array (cap_handle_array cap) (cap_num_handles cap);
      Done (issuer ++ le 4 (cap_fsid cap) ++ le 8 (cap_timeout cap) ++ le 4 (cap_op_mask cap)
              ++ le 4 (cap_num_handles cap) ++ (handles ≫= le 8))
  end.

Definition credential_message (cred : PVFS_credential) : exec (list Z) :=
  groups ← copy_array (cred_group_array cred) (cred_num_groups cred);
  Done (le 4 (cred_userid cred) ++ le 4 (cred_num_groups cred) ++ (groups ≫= le 4)
          ++ default [] (cred_issuer cred) ++ le 8 (cred_timeout cred)).

(** ** Updates of the structs *)

Definition set_cap_timeout (t : Z) (cap : PVFS_capability) : PVFS_capability :=
  mk_capability (cap_issuer cap) (cap_fsid cap) (cap_sig_size cap) (cap_signature cap)
    t (cap_op_mask cap) (cap_num_handles cap) (cap_handle_array cap).

Definition set_cap_signature (s : list Z) (cap : PVFS_capability) : PVFS_capability :=
  mk_capability (cap_issuer cap) (cap_fsid cap) (len s) s
    (cap_timeout cap) (cap_op_mask cap) (cap_num_handles cap) (cap_handle_array cap).

Definition set_cred_signed (issuer : list Z) (t : Z) (s : list Z) (cred : PVFS_credential)
    : PVFS_credential :=
  mk_credential (cred_userid cred) (cred_num_groups cred) (cred_group_array cred) (Some issuer)
    t (len s) s (cred_certificate cred).

(** [cap->timeout] of a new capability: [force_timeout] or the configured one. *)
Definition new_timeout (config : security_config) (now : Z) (force_timeout : option Z) : Z :=
  u64 (now + default (capability_timeout config) force_timeout).

(** A capability for every operation on the given handles, not yet signed. *)
Definition server_capability (config : security_config) (now fs_id : Z) (handles : list Z)
    (signature : list Z) : PVFS_capability :=
  mk_capability (Some (server_issuer config)) fs_id 0 signature
    (u64 (now + capability_timeout config)) ALL_CAPS (len handles) handles.

(** * A server without security: security-stubs.c *)

Module Stubs.

Definition PINT_sign_capability (config : security_config) (now : Z) (force_timeout : option Z)
    (cap : PVFS_capability) : PVFS_capability :=
  set_cap_signature [] (set_cap_timeout (new_timeout config now force_timeout) cap).

Definition PINT_server_to_server_capability (config : security_config) (now fs_id : Z)
    (handles : list Z) : PVFS_capability :=
  PINT_sign_capability config now None (server_capability config now fs_id handles []).

Definition PINT_verify_capability (config : security_config) (now : Z) (cap : PVFS_capability)
    : exec bool :=
  null ← PINT_capability_is_null cap;
  if (null : bool) then Done true else
  if negb (bypass_timeout_check config) && (now >? cap_timeout cap) then Done false else
  Done true.

(** [strcpy] and [strcat] write into the buffer the issuer is in: in a
    decoded request that is the message, where the string of length [n] takes
    [roundup8 (4 + n + 1)] bytes, four of them before it. *)
Definition PINT_sign_credential (config : security_config) (now : Z) (cred : PVFS_credential)
    : exec (Z * PVFS_credential) :=
  match cred_issuer cred with
  | None => Done (- PVFS_ENOMEM, cred)
  | Some issuer =>
      if decide (len (server_issuer config) + 1 ≤ roundup8 (4 + len issuer + 1) - 4) then
        Done (0, set_cred_signed (server_issuer config)
                   (u64 (now + credential_timeout config)) [] cred)
      else Fault BadAccess
  end.

Definition PINT_verify_credential (config : security_config) (now : Z) (cred : PVFS_credential)
    : exec bool :=
  Done (negb (negb (bypass_timeout_check config) && (now >? cred_timeout cred))).

End Stubs.

(** * The public keys of all hosts: security-hash.c *)

Section keystore.
Context {EVP_PKEY : Type}.

Definition pubkey_entry : Type := list Z * EVP_PKEY.

Definition DEFAULT_SECURITY_TABLE_SIZE : Z := 1009.

(** [!strcmp]. *)
Definition pubkey_compare (key : list Z) (e : pubkey_entry) : bool := bool_decide (e.1 = key).

Definition SECURITY_hash_initialize (alloc : nat → bool)
    (table : option (qhash_table (V := pubkey_entry)))
    : Z * option (qhash_table (V := pubkey_entry)) :=
  match table with
  | Some _ => (- PVFS_EALREADY, table)
  | None =>
      match qhash_init alloc DEFAULT_SECURITY_TABLE_SIZE with
      | Some t => (0, Some t)
      | None => (- PVFS_ENOMEM, None)
      end
  end.

(** A key that is there already is replaced. *)
Definition SECURITY_add_pubkey (table : qhash_table (V := pubkey_entry)) (hash_key : list Z)
    (pubkey : EVP_PKEY) : exec (qhash_table (V := pubkey_entry)) :=
  '(_, table) ← qhash_search_and_remove pubkey_compare quickhash_string_hash table hash_key;
  qhash_add quickhash_string_hash table hash_key (hash_key, pubkey).

Definition SECURITY_lookup_pubkey (table : qhash_table (V := pubkey_entry)) (hash_key : list Z)
    : exec (option EVP_PKEY) :=
  temp ← qhash_search pubkey_compare quickhash_string_hash table hash_key;
  Done (match temp with Some entry => Some entry.2 | None => None end).

End keystore.

(** * A server with keys: pint-security.c, ENABLE_SECURITY_KEY *)

Module Keys.
Section keys.
Context {pubkey privkey : Type}.
(** [EVP_PKEY_base_id(key) == EVP_PKEY_RSA], and [EVP_PKEY_size]. *)
Context (pub_is_rsa : pubkey → bool) (priv_is_rsa : privkey → bool) (pkey_size : privkey → Z).
Context (EVP_sign : privkey → list Z → option (list Z)).
Context (EVP_verify : pubkey → list Z → list Z → bool).
Context (table : qhash_table (V := list Z * pubkey)) (security_privkey : privkey).

Definition PINT_init_capability (alloc : nat → bool) : Z + PVFS_capability :=
  if alloc 0%nat
  then inr (mk_capability None 0 0 (replicate (Z.to_nat (pkey_size security_privkey)) 0) 0 0 0 [])
  else inl (- PVFS_ENOMEM).

(** The test that precedes signing and verification. *)
Definition missing_fields (cap : PVFS_capability) : bool :=
  bool_decide (cap_issuer cap = None) || bool_decide (cap_signature cap = [])
  || (negb (cap_num_handles cap =? 0) && bool_decide (cap_handle_array cap = [])).

(** The status and the capability, whose timeout is set even if signing
    fails. *)
Definition PINT_sign_capability (config : security_config) (now : Z) (force_timeout : option Z)
    (cap : PVFS_capability) : exec (Z * PVFS_capability) :=
  if missing_fields cap then Done (-1, cap) else
  let cap := set_cap_timeout (new_timeout config now force_timeout) cap in
  if negb (priv_is_rsa security_privkey) then Done (-1, cap) else
  m ← capability_message cap;
  match EVP_sign security_privkey m with
  | Some s => Done (0, set_cap_signature s cap)
  | None => Done (-1, cap)
  end.

Definition PINT_server_to_server_capability (alloc : nat → bool) (config : security_config)
    (now fs_id : Z) (handles : list Z) : exec (Z + PVFS_capability) :=
  match PINT_init_capability alloc with
  | inl _ => Done (inl (- PVFS_ENOMEM))
  | inr cap =>
      if negb (alloc 1%nat) then Done (inl (- PVFS_ENOMEM)) else
      '(ret, cap) ← PINT_sign_capability config now None
                      (server_capability config now fs_id handles (cap_signature cap));
      if decide (ret < 0) then Done (inl (- PVFS_EINVAL)) else Done (inr cap)
  end.

Definition PINT_verify_capability (config : security_config) (now : Z) (cap : PVFS_capability)
    : exec bool :=
  if missing_fields cap then Done false else
  null ← PINT_capability_is_null cap;
  if (null : bool) then Done true else
  if negb (bypass_timeout_check config) && (now >? cap_timeout cap) then Done false else
  pubkey ← SECURITY_lookup_pubkey table (default [] (cap_issuer cap));
  match pubkey with
  | None => Done false
  | Some pk =>
      if negb (pub_is_rsa pk) then Done false else
      m ← capability_message cap;
      s ← copy_array (cap_signature cap) (cap_sig_size cap);
      Done (EVP_verify pk m s)
  end.

(** The issuer is replaced by this server's, the signature is allocated if
    it is not there. *)
Definition PINT_sign_credential (alloc : nat → bool) (config : security_config) (now : Z)
    (cred : PVFS_credential) : exec (Z * PVFS_credential) :=
  if negb (cred_num_groups cred =? 0) && bool_decide (cred_group_array cred = [])
  then Done (-1, cred) else
  if negb (alloc 0%nat) then Done (- PVFS_ENOMEM, cred) else
  if bool_decide (cred_signature cred = []) && negb (alloc 1%nat) then Done (-1, cred) else
  let signature := if bool_decide (cred_signature cred = [])
                   then replicate (Z.to_nat (pkey_size security_privkey)) 0
                   else cred_signature cred in
  let cred := mk_credential (cred_userid cred) (cred_num_groups cred) (cred_group_array cred)
                (Some (server_issuer config)) (u64 (now + credential_timeout config))
                (cred_sig_size cred) signature (cred_certificate cred) in
  if negb (priv_is_rsa security_privkey) then Done (-1, cred) else
  m ← credential_message cred;
  match EVP_sign security_privkey m with
  | Some s => Done (0, set_cred_signed (server_issuer config)
                         (u64 (now + credential_timeout config)) s cred)
  | None => Done (-1, cred)
  end.

Definition PINT_verify_credential (config : security_config) (now : Z) (cred : PVFS_credential)
    : exec bool :=
  if (negb (cred_sig_size cred =? 0) && bool_decide (cred_signature cred = []))
     || (negb (cred_num_groups cred =? 0) && bool_decide (cred_group_array cred = []))
  then Done false else
  if negb (bypass_timeout_check config) && (now >? cred_timeout cred) then Done false else
  match cred_issuer cred with
  | None => Fault BadAccess
  | Some issuer =>
      pubkey ← SECURITY_lookup_pubkey table issuer;
      match pubkey with
      | None => Done false
      | Some pk =>
          if negb (pub_is_rsa pk) then Done false else
          m ← credential_message cred;
          s ← copy_array (cred_signature cred) (cred_sig_size cred);
          Done (EVP_verify pk m s)
      end
  end.

End keys.
End Keys.

(** * Specification *)

(** Numbers in their ranges and arrays as long as their counts. *)
Definition cap_ok (cap : PVFS_capability) : Prop :=
  - 2 ^ 31 ≤ cap_fsid cap < 2 ^ 31 ∧ 0 ≤ cap_timeout cap < 2 ^ 64 ∧
  0 ≤ cap_op_mask cap < 2 ^ 32 ∧ 0 ≤ cap_num_handles cap < 2 ^ 32 ∧
  len (cap_handle_array cap) = cap_num_handles cap ∧
  Forall (λ h, 0 ≤ h < 2 ^ 64) (cap_handle_array cap).

(** Everything a capability says apart from its signature. *)
Definition same_rights (c c' : PVFS_capability) : Prop :=
  cap_issuer c = cap_issuer c' ∧ cap_fsid c = cap_fsid c' ∧ cap_timeout c = cap_timeout c' ∧
  cap_op_mask c = cap_op_mask c' ∧ cap_num_handles c = cap_num_handles c' ∧
  cap_handle_array c = cap_handle_array c'.

(** * Proofs *)

Lemma le_length n x : 0 ≤ n → len (le n x) = n.
Proof. intros Hn. unfold le. rewrite length_Z_to_little_endian; lia. Qed.

Lemma le_value n x : 0 ≤ n → 0 ≤ x < 2 ^ (8 * n) → little_endian_to_Z 8 (le n x) = x.
Proof.
  intros Hn Hx. unfold le. rewrite little_endian_to_Z_to_little_endian by lia.
  apply Z.mod_small. by rewrite (Z.mul_comm n 8).
Qed.

Lemma le_mod n x : 0 ≤ n → little_endian_to_Z 8 (le n x) = x mod 2 ^ (8 * n).
Proof.
  intros Hn. unfold le. rewrite little_endian_to_Z_to_little_endian by lia.
  by rewrite (Z.mul_comm n 8).
Qed.

(** Two numbers of one width with the same bytes, followed by anything. *)
Lemma le_app_inj n x y l l' :
  0 ≤ n → le n x ++ l = le n y ++ l' → x mod 2 ^ (8 * n) = y mod 2 ^ (8 * n) ∧ l = l'.
Proof.
  intros Hn H. apply app_inj_1 in H as [H ->].
  2: { apply Nat2Z.inj. by rewrite !le_length. }
  split; [|done]. by rewrite <- !le_mod, H.
Qed.

Lemma le_bind_inj n l l' :
  0 < n → Forall (λ h, 0 ≤ h < 2 ^ (8 * n)) l → Forall (λ h, 0 ≤ h < 2 ^ (8 * n)) l' →
  length l = length l' → l ≫= le n = l' ≫= le n → l = l'.
Proof.
  intros Hn Hl. revert l'. induction Hl as [|h l Hh Hl IH]; intros [|h' l'] Hl' Hlen; try done.
  apply Forall_cons in Hl' as [Hh' Hl']. cbn [mbind list_bind]. intros H.
  apply le_app_inj in H as [Hm H]; [|lia]. rewrite !Z.mod_small in Hm by done.
  f_equal; [done|]. apply IH; [done|simpl in Hlen; lia|done].
Qed.

Lemma copy_array_full l n : len l = n → copy_array l n = Done l.
Proof.
  intros H. unfold copy_array. case_decide as H0; [destruct l; simpl in *; [done|lia]|].
  rewrite decide_True by lia. rewrite take_ge; [done|lia].
Qed.

Lemma capability_message_ok cap issuer :
  cap_ok cap → cap_issuer cap = Some issuer →
  capability_message cap = Done (issuer ++ le 4 (cap_fsid cap) ++ le 8 (cap_timeout cap)
    ++ le 4 (cap_op_mask cap) ++ le 4 (cap_num_handles cap) ++ (cap_handle_array cap ≫= le 8)).
Proof.
  intros (_ & _ & _ & _ & Hn & _) Hi. unfold capability_message.
  by rewrite Hi, copy_array_full.
Qed.

Lemma signed_mod_inj x y :
  - 2 ^ 31 ≤ x < 2 ^ 31 → - 2 ^ 31 ≤ y < 2 ^ 31 → x mod 2 ^ 32 = y mod 2 ^ 32 → x = y.
Proof.
  intros Hx Hy H. pose proof (Z.div_mod x (2 ^ 32) ltac:(lia)).
  pose proof (Z.div_mod y (2 ^ 32) ltac:(lia)). lia.
Qed.

(** What is signed determines the rights. *)
Lemma capability_message_inj c c' issuer m :
  cap_ok c → cap_ok c' → cap_issuer c = Some issuer → cap_issuer c' = Some issuer →
  capability_message c = Done m → capability_message c' = Done m → same_rights c c'.
Proof.
  intros Hok Hok' Hi Hi'. rewrite (capability_message_ok c issuer) by done.
  rewrite (capability_message_ok c' issuer) by done. intros <-%Done_inj Heq%Done_inj.
  apply app_inv_head in Heq. destruct Hok as (? & ? & ? & ? & Hl & Hh).
  destruct Hok' as (? & ? & ? & ? & Hl' & Hh').
  apply le_app_inj in Heq as [Hf Heq]; [|lia]. apply le_app_inj in Heq as [Ht Heq]; [|lia].
  apply le_app_inj in Heq as [Hm Heq]; [|lia]. apply le_app_inj in Heq as [Hn Heq]; [|lia].
  change (8 * 4) with 32 in *. change (8 * 8) with 64 in *.
  rewrite !Z.mod_small in Ht, Hm, Hn by done. symmetry in Hf. apply signed_mod_inj in Hf; [|done..].
  unfold same_rights. rewrite Hi, Hi'. split_and!; try done.
  apply (le_bind_inj 8); [lia|done..|lia|done].
Qed.

(** ** The keystore *)

Lemma string_hash_range s n : 0 < n < B31 → 0 ≤ quickhash_string_hash s n < n.
Proof.
  intros Hn. unfold quickhash_string_hash. pose proof (hash_mask n Hn) as [Hr Hu]. rewrite Hu.
  pose proof (land_range (foldl string_hash_step 0 s) (i32 (n - 1)) ltac:(lia)).
  rewrite i32_id; lia.
Qed.

Lemma pubkey_compare_key {K} k (e : list Z * K) : pubkey_compare k e = true ↔ e.1 = k.
Proof. unfold pubkey_compare. by rewrite bool_decide_eq_true. Qed.

(** Tables that [SECURITY_add_pubkey] builds: no host has two keys. *)
Definition keystore_ok {K} (table : qhash_table (V := list Z * K)) : Prop :=
  table_ok quickhash_string_hash fst table ∧ NoDup (entries table).*1.

Lemma lookup_pubkey_spec {K} (table : qhash_table (V := list Z * K)) host :
  keystore_ok table →
  ∃ r, SECURITY_lookup_pubkey table host = Done r ∧
    match r with
    | Some pk => (host, pk) ∈ entries table
    | None => host ∉ (entries table).*1
    end.
Proof.
  intros [Hok _]. unfold SECURITY_lookup_pubkey.
  destruct (search_spec pubkey_compare quickhash_string_hash fst pubkey_compare_key
    string_hash_range table host Hok) as (r & -> & Hr).
  cbn [mbind exec_bind]. destruct r as [[h pk]|]; eexists; (split; [done|]).
  - destruct Hr as [Hr Hh]. simpl in *. by subst.
  - intros (e & -> & He)%list_elem_of_fmap. by apply (Hr e).
Qed.

Lemma lookup_pubkey_in {K} (table : qhash_table (V := list Z * K)) host pk :
  keystore_ok table → (host, pk) ∈ entries table →
  SECURITY_lookup_pubkey table host = Done (Some pk).
Proof.
  intros Hok Hin. destruct (lookup_pubkey_spec table host Hok) as ([pk'|] & Hl & Hr).
  - rewrite Hl. do 2 f_equal. destruct Hok as [_ Hnd]. revert Hnd Hin Hr.
    generalize (entries table). intros l. induction l as [|[h k] l IH]; [by intros _ ?%elem_of_nil|].
    cbn [fmap list_fmap fst]. rewrite NoDup_cons, !elem_of_cons. intros [Hh Hnd] [[= -> ->]|H1] [[=]|H2];
      subst; try done; try (by apply IH); destruct Hh; apply list_elem_of_fmap; by eexists (_, _).
  - destruct Hr. by apply list_elem_of_fmap_2' with (host, pk).
Qed.

Lemma lookup_pubkey_out {K} (table : qhash_table (V := list Z * K)) host :
  keystore_ok table → host ∉ (entries table).*1 → SECURITY_lookup_pubkey table host = Done None.
Proof.
  intros Hok Hout. destruct (lookup_pubkey_spec table host Hok) as ([pk'|] & Hl & Hr); [|done].
  destruct Hout. by apply list_elem_of_fmap_2' with (host, pk').
Qed.

(** Two tables, where the entries of one host may differ. *)
Lemma lookup_pubkey_agree {K} (t t' : qhash_table (V := list Z * K)) h :
  keystore_ok t → keystore_ok t' →
  (∀ pk, (h, pk) ∈ entries t ↔ (h, pk) ∈ entries t') →
  SECURITY_lookup_pubkey t h = SECURITY_lookup_pubkey t' h.
Proof.
  intros Hok Hok' Heq. destruct (lookup_pubkey_spec t h Hok) as ([pk|] & -> & Hr).
  - symmetry. apply lookup_pubkey_in; [done|]. by apply Heq.
  - symmetry. apply lookup_pubkey_out; [done|]. intros ([h' k] & -> & Hk)%list_elem_of_fmap.
    apply Hr, list_elem_of_fmap. exists (h', k). split; [done|]. by apply Heq.
Qed.

(** The keystore is a map from host names to keys: adding a key succeeds,
    the host then has that key, whether it had one or not, and every other
    host keeps its own. *)
Theorem keystore_map {K} (table : qhash_table (V := list Z * K)) host pk :
  keystore_ok table →
  ∃ table', SECURITY_add_pubkey table host pk = Done table' ∧ keystore_ok table' ∧
    ∀ h, SECURITY_lookup_pubkey table' h
         = if decide (h = host) then Done (Some pk) else SECURITY_lookup_pubkey table h.
Proof.
  intros Hks. pose proof Hks as [Hok Hnd]. unfold SECURITY_add_pubkey.
  destruct (remove_entry_spec pubkey_compare quickhash_string_hash fst pubkey_compare_key
    string_hash_range table host Hok) as (r & t1 & -> & Hs & Hok1 & Hr).
  cbn [mbind exec_bind].
  destruct (add_spec pubkey_compare quickhash_string_hash fst pubkey_compare_key
    string_hash_range t1 (host, pk) Hok1) as (t2 & Hadd & Hok2 & He2 & _).
  simpl in Hadd. exists t2. split; [done|].
  destruct (search_spec pubkey_compare quickhash_string_hash fst pubkey_compare_key
    string_hash_range table host Hok) as (r' & Hs' & Hr'). rewrite Hs in Hs'. apply Done_inj in Hs' as <-.
  assert (NoDup (entries t1).*1 ∧ (host ∉ (entries t1).*1) ∧
    ∀ e, e.1 ≠ host → e ∈ entries table ↔ e ∈ entries t1) as (Hnd1 & Hh1 & Hsame).
  { destruct r as [[h k]|].
    - destruct Hr' as [_ Hk]. simpl in Hk. subst h. rewrite Hr in Hnd. simpl in Hnd.
      apply NoDup_cons in Hnd as [Hh Hnd]. split_and!; [done..|]. intros e He.
      rewrite Hr, elem_of_cons. split; [intros [->|]; [by destruct He|done]|auto].
    - subst t1. split_and!; [done| |done]. intros (e & -> & He)%list_elem_of_fmap. by apply (Hr' e). }
  assert (keystore_ok t2) as Hks2.
  { split; [done|]. rewrite He2. simpl. by apply NoDup_cons. }
  split; [done|]. intros h. case_decide as Hh.
  - subst h. apply lookup_pubkey_in; [done|]. rewrite He2. by left.
  - apply lookup_pubkey_agree; [done..|]. intros k. rewrite He2, elem_of_cons.
    rewrite (Hsame (h, k)) by done. split; [intros [[= -> ->]|]; [by destruct Hh|done]|auto].
Qed.

(** ** Signatures *)

Definition cred_ok (cred : PVFS_credential) : Prop :=
  0 ≤ cred_userid cred < 2 ^ 32 ∧ 0 ≤ cred_timeout cred < 2 ^ 64 ∧
  0 ≤ cred_num_groups cred < 2 ^ 32 ∧ len (cred_group_array cred) = cred_num_groups cred ∧
  Forall (λ g, 0 ≤ g < 2 ^ 32) (cred_group_array cred).

Definition same_identity (c c' : PVFS_credential) : Prop :=
  cred_userid c = cred_userid c' ∧ cred_group_array c = cred_group_array c' ∧
  cred_timeout c = cred_timeout c'.

Lemma le_bind_length n l : 0 ≤ n → len (l ≫= le n) = n * len l.
Proof.
  intros Hn. induction l as [|x l IH]; [simpl; lia|]. cbn [mbind list_bind length].
  rewrite length_app, Nat2Z.inj_add, le_length, IH by done. lia.
Qed.

Lemma credential_message_inj c c' issuer m :
  cred_ok c → cred_ok c' → cred_issuer c = Some issuer → cred_issuer c' = Some issuer →
  credential_message c = Done m → credential_message c' = Done m → same_identity c c'.
Proof.
  intros (? & ? & ? & Hl & Hg) (? & ? & ? & Hl' & Hg') Hi Hi'. unfold credential_message.
  rewrite !copy_array_full, Hi, Hi' by done. cbn [mbind exec_bind].
  intros <-%Done_inj Heq%Done_inj.
  apply le_app_inj in Heq as [Hu Heq]; [|lia]. apply le_app_inj in Heq as [Hn Heq]; [|lia].
  change (8 * 4) with 32 in *. rewrite !Z.mod_small in Hu, Hn by done.
  pose proof (le_bind_length 4 (cred_group_array c) ltac:(lia)).
  pose proof (le_bind_length 4 (cred_group_array c') ltac:(lia)).
  apply app_inj_1 in Heq as [Hgs Heq]; [|lia]. apply app_inv_head in Heq.
  rewrite <- (app_nil_r (le 8 (cred_timeout c'))) in Heq.
  rewrite <- (app_nil_r (le 8 (cred_timeout c))) in Heq. apply le_app_inj in Heq as [Ht _]; [|lia].
  change (8 * 8) with 64 in *. rewrite !Z.mod_small in Ht by done.
  split_and!; [done| |done]. apply (le_bind_inj 4); [lia|done..|lia|done].
Qed.

(** ** Telling the two apart

    A capability message begins with the name of the host, a credential
    message with the id of the user: where they agree, the bytes of the id are
    the first four characters of the name (all of it, if it is shorter). *)
Definition spells (host : list Z) (uid : Z) : Prop := take 4 host `prefix_of` le 4 uid.

Lemma capability_spells cap cred host m :
  cap_issuer cap = Some host → capability_message cap = Done m → credential_message cred = Done m →
  spells host (cred_userid cred).
Proof.
  unfold capability_message, credential_message. intros ->.
  destruct (copy_array (cap_handle_array cap) _) as [hs|]; cbn [mbind exec_bind]; [|done].
  destruct (copy_array (cred_group_array cred) _) as [gs|]; cbn [mbind exec_bind]; [|done].
  intros <-%Done_inj Heq%Done_inj. apply (f_equal (take 4)) in Heq. unfold spells.
  assert (length (le 4 (cred_userid cred)) = 4%nat) as Hlen
    by (pose proof (le_length 4 (cred_userid cred)); lia).
  rewrite take_app_le in Heq by lia. rewrite (take_ge (le 4 _)) in Heq by lia.
  rewrite Heq, take_app. by apply prefix_app_r.
Qed.

Lemma lor_ge a b : 0 ≤ a → 0 ≤ b → b ≤ Z.lor a b.
Proof.
  intros Ha Hb.
  assert (Z.land b (Z.lor a b) = b) as Hab.
  { apply Z.bits_inj'. intros n _. rewrite Z.land_spec, Z.lor_spec.
    by destruct (Z.testbit a n), (Z.testbit b n). }
  assert (0 ≤ Z.lor a b) as Hn by (by apply Z.lor_nonneg).
  rewrite <- Hab at 1. apply (land_range b (Z.lor a b) Hn).
Qed.

(** Such an id is large: names are strings without a zero byte, and those of
    four characters or more are spelled by ids from 2^24 on only. *)
Lemma spelled_uid host uid :
  Forall (λ b, 0 < b < 256) host → (4 ≤ length host)%nat → 0 ≤ uid < 2 ^ 32 → spells host uid →
  2 ^ 24 ≤ uid.
Proof.
  intros Hb Hlen Hu Hs. destruct host as [|a [|b [|c [|d host]]]]; simpl in Hlen; try lia.
  rewrite !Forall_cons in Hb. destruct Hb as (? & ? & ? & ? & _). unfold spells in Hs. simpl in Hs.
  assert (le 4 uid = [a; b; c; d]) as Hle.
  { symmetry. apply (prefix_length_eq _ _ Hs). pose proof (le_length 4 uid). simpl. lia. }
  rewrite <- (le_value 4 uid) by (change (2 ^ (8 * 4)) with (2 ^ 32); lia). rewrite Hle.
  cbn [little_endian_to_Z]. rewrite Z.shiftl_0_l, Z.lor_0_r, !Z.shiftl_mul_pow2 by lia.
  assert (d * 2 ^ 8 ≤ Z.lor c (d * 2 ^ 8)) by (apply lor_ge; lia).
  assert (Z.lor c (d * 2 ^ 8) * 2 ^ 8 ≤ Z.lor b (Z.lor c (d * 2 ^ 8) * 2 ^ 8)) by (apply lor_ge; lia).
  assert (Z.lor b (Z.lor c (d * 2 ^ 8) * 2 ^ 8) * 2 ^ 8
          ≤ Z.lor a (Z.lor b (Z.lor c (d * 2 ^ 8) * 2 ^ 8) * 2 ^ 8)) by (apply lor_ge; lia).
  lia.
Qed.

Section signatures.
Context {pubkey privkey : Type}.
Context (pub_is_rsa : pubkey → bool) (priv_is_rsa : privkey → bool).
Context (EVP_sign : privkey → list Z → option (list Z)).
Context (EVP_verify : pubkey → list Z → list Z → bool).
Context (table : qhash_table (V := list Z * pubkey)).

#[local] Abbreviation sign := (Keys.PINT_sign_capability priv_is_rsa EVP_sign).
#[local] Abbreviation verify := (Keys.PINT_verify_capability pub_is_rsa EVP_verify table).

Lemma timeout_test b now t :
  (negb b && (now >? t)) = negb (b || (now <=? t)).
Proof. rewrite Z.gtb_ltb, Z.leb_antisym. by destruct b, (t <? now). Qed.

Lemma set_timeout_message t s cap m :
  capability_message (set_cap_timeout t cap) = Done m →
  capability_message (set_cap_signature s (set_cap_timeout t cap)) = Done m.
Proof. done. Qed.

(** What a server signs, every server verifies that has its key: for as
    long as the timeout lasts, and for ever where timeouts are turned off. *)
Theorem capability_roundtrip sk pk issuer config config' now now' force_timeout cap cap' :
  (∀ m s, EVP_sign sk m = Some s → s ≠ [] ∧ EVP_verify pk m s = true) →
  pub_is_rsa pk = true → SECURITY_lookup_pubkey table issuer = Done (Some pk) →
  cap_issuer cap = Some issuer → issuer ≠ [] →
  sign sk config now force_timeout cap = Done (0, cap') →
  verify config' now' cap'
  = Done (bypass_timeout_check config' || (now' <=? new_timeout config now force_timeout)).
Proof.
  intros Hevp Hrsa Hkey Hi Hne. unfold Keys.PINT_sign_capability.
  destruct (Keys.missing_fields cap) eqn:Hmiss; [by intros [= ?]|].
  destruct (priv_is_rsa sk); [simpl negb; cbv iota|by intros [= ?]].
  set (cap1 := set_cap_timeout _ cap).
  destruct (capability_message cap1) as [m|] eqn:Hm; [cbn [mbind exec_bind]|done].
  destruct (EVP_sign sk m) as [s|] eqn:Hs; [|by intros [= ?]].
  intros Heq%Done_inj. assert (cap' = set_cap_signature s cap1) as -> by congruence.
  destruct (Hevp _ _ Hs) as [Hsne Hver].
  unfold Keys.PINT_verify_capability.
  assert (Keys.missing_fields (set_cap_signature s cap1) = false) as ->.
  { unfold Keys.missing_fields in *. simpl. rewrite (bool_decide_eq_false_2 (s = [])) by done.
    destruct (bool_decide (cap_issuer cap = None)); [done|].
    by destruct (bool_decide (cap_signature cap = [])). }
  unfold PINT_capability_is_null. cbn [cap_issuer set_cap_signature cap1 set_cap_timeout].
  rewrite Hi. cbn [mbind exec_bind]. rewrite bool_decide_eq_false_2 by done. cbn [andb].
  cbn [cap_timeout]. rewrite timeout_test.
  destruct (bypass_timeout_check config' || _); cbn [negb]; [|done].
  cbn [from_option id]. rewrite Hkey. cbn [mbind exec_bind]. rewrite Hrsa. cbn [negb].
  change (capability_message _) with (capability_message cap1). rewrite Hm. cbn [mbind exec_bind].
  cbn [cap_signature cap_sig_size set_cap_signature]. rewrite copy_array_full by done.
  cbn [mbind exec_bind]. by rewrite Hver.
Qed.

(** The messages that the holder of the private key to [pk] has signed. *)
Context (signed : pubkey → list Z → Prop).

Lemma verify_signed config now cap :
  (∀ pk m s, EVP_verify pk m s = true → signed pk m) →
  PINT_capability_is_null cap = Done false → verify config now cap = Done true →
  (bypass_timeout_check config = true ∨ now ≤ cap_timeout cap) ∧
  ∃ issuer pk m, cap_issuer cap = Some issuer ∧
    SECURITY_lookup_pubkey table issuer = Done (Some pk) ∧ capability_message cap = Done m ∧
    signed pk m.
Proof.
  intros Hevp Hnull. unfold Keys.PINT_verify_capability.
  destruct (Keys.missing_fields cap); [done|]. rewrite Hnull. cbn [mbind exec_bind].
  rewrite timeout_test. destruct (bypass_timeout_check config || _) eqn:Ht; [|done].
  cbn [negb]. unfold PINT_capability_is_null in Hnull.
  destruct (cap_issuer cap) as [issuer|]; [|done]. cbn [from_option id].
  destruct (SECURITY_lookup_pubkey table issuer) as [[pk|]|] eqn:Hk; cbn [mbind exec_bind]; [|done..].
  destruct (pub_is_rsa pk); [cbn [negb]|done].
  destruct (capability_message cap) as [m|] eqn:Hm; cbn [mbind exec_bind]; [|done].
  destruct (copy_array _ _) as [s|]; cbn [mbind exec_bind]; [|done].
  intros Hv%Done_inj. apply orb_true_iff in Ht. rewrite Z.leb_le in Ht.
  split; [done|]. exists issuer, pk, m. split_and!; [done..|]. by eapply Hevp.
Qed.

Lemma verify_credential_signed config now cred :
  (∀ pk m s, EVP_verify pk m s = true → signed pk m) →
  Keys.PINT_verify_credential pub_is_rsa EVP_verify table config now cred = Done true →
  (bypass_timeout_check config = true ∨ now ≤ cred_timeout cred) ∧
  ∃ issuer pk m, cred_issuer cred = Some issuer ∧
    SECURITY_lookup_pubkey table issuer = Done (Some pk) ∧ credential_message cred = Done m ∧
    signed pk m.
Proof.
  intros Hevp. unfold Keys.PINT_verify_credential. destruct (_ || _); [done|].
  rewrite timeout_test. destruct (bypass_timeout_check config || _) eqn:Ht; [|done].
  cbn [negb]. destruct (cred_issuer cred) as [issuer|]; [|done].
  destruct (SECURITY_lookup_pubkey table issuer) as [[pk|]|] eqn:Hk; cbn [mbind exec_bind]; [|done..].
  destruct (pub_is_rsa pk); [cbn [negb]|done].
  destruct (credential_message cred) as [m|] eqn:Hm; cbn [mbind exec_bind]; [|done].
  destruct (copy_array _ _) as [s|]; cbn [mbind exec_bind]; [|done].
  intros Hv%Done_inj. apply orb_true_iff in Ht. rewrite Z.leb_le in Ht.
  split; [done|]. exists issuer, pk, m. split_and!; [done..|]. by eapply Hevp.
Qed.

(** What the hosts whose keys are in the table sign: capabilities and
    credentials, both with the same key and both in their own name.  Clients
    are such hosts, too; the code does not tell their keys from those of
    servers. *)
Definition hosts_sign (capabilities : list Z → list PVFS_capability)
    (credentials : list Z → list PVFS_credential) : Prop :=
  ∀ host pk m, SECURITY_lookup_pubkey table host = Done (Some pk) → signed pk m →
    (∃ c, c ∈ capabilities host ∧ cap_ok c ∧ cap_issuer c = Some host ∧
       capability_message c = Done m) ∨
    (∃ c, c ∈ credentials host ∧ cred_ok c ∧ cred_issuer c = Some host ∧
       credential_message c = Done m).

Context (capabilities : list Z → list PVFS_capability).
Context (credentials : list Z → list PVFS_credential).

Lemma verified_capability config now cap :
  (∀ pk m s, EVP_verify pk m s = true → signed pk m) → hosts_sign capabilities credentials →
  cap_ok cap → PINT_capability_is_null cap = Done false → verify config now cap = Done true →
  (bypass_timeout_check config = true ∨ now ≤ cap_timeout cap) ∧
  ∃ host, cap_issuer cap = Some host ∧
    ((∃ c, c ∈ capabilities host ∧ same_rights cap c) ∨
     (∃ c, c ∈ credentials host ∧ credential_message c = capability_message cap ∧
        spells host (cred_userid c))).
Proof.
  intros Hevp Hhosts Hok Hnull Hv.
  destruct (verify_signed _ _ _ Hevp Hnull Hv) as (Ht & issuer & pk & m & Hi & Hk & Hm & Hs).
  split; [done|]. exists issuer. split; [done|].
  destruct (Hhosts _ _ _ Hk Hs) as [(c & Hc & Hcok & Hci & Hcm)|(c & Hc & Hcok & Hci & Hcm)].
  - left. exists c. split; [done|]. by eapply capability_message_inj.
  - right. exists c. rewrite Hcm, Hm. split_and!; [done..|]. by eapply capability_spells.
Qed.

(** C31. A capability that verifies, and is not null, has not expired unless
    timeouts are turned off, and one of two things holds.  Either the host it
    names as its issuer has issued a capability with the same file system, the
    same timeout, the same operations and the same handles; or that host has
    signed a credential that has the same bytes as the capability, which takes
    a user id whose bytes are the first characters of the name of the host. *)
Theorem verified_capability_genuine config now cap :
  (∀ pk m s, EVP_verify pk m s = true → signed pk m) → hosts_sign capabilities credentials →
  cap_ok cap → PINT_capability_is_null cap = Done false → verify config now cap = Done true →
  (bypass_timeout_check config = true ∨ now ≤ cap_timeout cap) ∧
  ∃ host, cap_issuer cap = Some host ∧
    ((∃ c, c ∈ capabilities host ∧ same_rights cap c) ∨
     (∃ c, c ∈ credentials host ∧ credential_message c = capability_message cap ∧
        spells host (cred_userid c))).
Proof. apply verified_capability. Qed.

(** The counterpart for credentials. *)
Lemma verified_credential_genuine config now cred :
  (∀ pk m s, EVP_verify pk m s = true → signed pk m) → hosts_sign capabilities credentials →
  cred_ok cred →
  Keys.PINT_verify_credential pub_is_rsa EVP_verify table config now cred = Done true →
  (bypass_timeout_check config = true ∨ now ≤ cred_timeout cred) ∧
  ∃ host, cred_issuer cred = Some host ∧
    ((∃ c, c ∈ credentials host ∧ same_identity cred c) ∨ spells host (cred_userid cred)).
Proof.
  intros Hevp Hhosts Hok Hv.
  destruct (verify_credential_signed _ _ _ Hevp Hv) as (Ht & issuer & pk & m & Hi & Hk & Hm & Hs).
  split; [done|]. exists issuer. split; [done|].
  destruct (Hhosts _ _ _ Hk Hs) as [(c & Hc & Hcok & Hci & Hcm)|(c & Hc & Hcok & Hci & Hcm)].
  - right. by eapply capability_spells.
  - left. exists c. split; [done|]. by eapply credential_message_inj.
Qed.

(** A null capability as it is received, that is without a signature, does
    not verify, although the comment says that it always does. *)
Theorem null_capability_rejected config now :
  PINT_capability_is_null PINT_null_capability = Done true ∧
  verify config now PINT_null_capability = Done false.
Proof. done. Qed.

End signatures.

(** ** One signature, two meanings *)

(** "C:x". *)
Definition sample_issuer : list Z := [67; 58; 120].

(** A credential of a user in five groups, and a capability for every
    operation on two handles, whose signed bytes are the same. *)
Definition sample_cred (s : list Z) : PVFS_credential :=
  mk_credential 7879235 5 [0; 4278190336; 50331647; 16777216; 2] (Some sample_issuer)
    (2 ^ 40) (len s) s (mk_certificate 0 []).
Definition sample_cap (s : list Z) : PVFS_capability :=
  mk_capability (Some sample_issuer) 1280 (len s) s (2 ^ 48) ALL_CAPS 2
    [1 + 2 * 2 ^ 8 + (67 + 58 * 2 ^ 8 + 120 * 2 ^ 16) * 2 ^ 40; 2 ^ 40].

(** C40. The messages that are signed do not say what they are: a host that
    signs the one credential above has signed the one capability, with the
    same signature, and whoever verifies the one verifies the other. *)
Theorem signature_of_credential_reused {pubkey : Type} (pub_is_rsa : pubkey → bool)
    (EVP_verify : pubkey → list Z → list Z → bool) table config now s :
  s ≠ [] → now ≤ 2 ^ 40 →
  credential_message (sample_cred s) = capability_message (sample_cap s) ∧
  Keys.PINT_verify_capability pub_is_rsa EVP_verify table config now (sample_cap s)
  = Keys.PINT_verify_credential pub_is_rsa EVP_verify table config now (sample_cred s).
Proof.
  intros Hs Hnow.
  assert (credential_message (sample_cred s) = capability_message (sample_cap s)) as Hm
    by reflexivity.
  split; [done|]. unfold Keys.PINT_verify_capability, Keys.PINT_verify_credential.
  assert (Keys.missing_fields (sample_cap s) = false) as ->.
  { unfold Keys.missing_fields. simpl. by rewrite bool_decide_eq_false_2. }
  rewrite Hm. cbn [cap_signature cap_sig_size cap_timeout cap_issuer sample_cap
    cred_signature cred_sig_size cred_timeout cred_issuer cred_num_groups cred_group_array
    sample_cred PINT_capability_is_null mbind exec_bind from_option id].
  rewrite !timeout_test, (proj2 (Z.leb_le now (2 ^ 40))), (proj2 (Z.leb_le now (2 ^ 48))),
    (bool_decide_eq_false_2 (s = [])), (bool_decide_eq_false_2 (sample_issuer = [])) by (done || lia).
  by rewrite orb_true_r, !andb_false_r.
Qed.

(** ** Copies *)

Lemma copy_capability_same alloc cap issuer :
  (∀ i, alloc i = true) → cap_issuer cap = Some issuer →
  len (cap_signature cap) = cap_sig_size cap → len (cap_handle_array cap) = cap_num_handles cap →
  PINT_copy_capability alloc cap = Done (inr cap).
Proof.
  intros Ha Hi Hs Hh. unfold PINT_copy_capability. rewrite Hi, !Ha, !andb_false_r. simpl negb.
  cbv iota. rewrite !copy_array_full by done. destruct cap. simpl in *. by subst.
Qed.

(** ** Witnesses *)

(** A scheme in which the signature is the message behind a one: host "S:a"
    has issued a capability to read handle 5. *)
Definition sample_granted : PVFS_capability :=
  mk_capability (Some [83; 58; 97]) 9 1 [0] 0 PINT_CAP_READ 1 [5].
Definition sample_table : qhash_table (V := list Z * unit) :=
  mkQhash 1 [[([83; 58; 97], ())]].
Definition sample_config : security_config := mk_security_config [97] 600 600 false.
Definition sample_sign (_ : unit) (m : list Z) : option (list Z) := Some (1 :: m).
Definition sample_verify (_ : unit) (m s : list Z) : bool := bool_decide (s = 1 :: m).

Lemma sample_table_ok : keystore_ok sample_table.
Proof.
  split; [|repeat constructor; by apply not_elem_of_nil]. split_and!; simpl; try lia.
  intros i l v Hi Hv. destruct i as [|[|i]]; simpl in Hi; simplify_eq.
  by apply list_elem_of_singleton in Hv as ->.
Qed.

Lemma sample_granted_ok : cap_ok (set_cap_timeout 700 sample_granted).
Proof. split_and!; try done. by apply Forall_singleton. Qed.

Lemma keystore_map_witness :
  ∃ table', SECURITY_add_pubkey (mkQhash 1 [[]]) [83] tt = Done table' ∧
    SECURITY_lookup_pubkey table' [83] = Done (Some tt) ∧
    SECURITY_lookup_pubkey table' [84] = Done None.
Proof.
  destruct (keystore_map (K := unit) (mkQhash 1 [[]]) [83] tt) as (t & Ha & _ & Hl).
  - split; [|apply NoDup_nil_2]. split_and!; simpl; try lia. intros i l v Hi Hv.
    destruct i as [|[|i]]; simpl in Hi; simplify_eq. by apply not_elem_of_nil in Hv.
  - exists t. split; [done|]. by rewrite !Hl.
Defined.

Lemma capability_roundtrip_witness :
  ∃ cap', Keys.PINT_sign_capability (λ _, true) sample_sign () sample_config 100 None
            sample_granted = Done (0, cap') ∧
    Keys.PINT_verify_capability (λ _, true) sample_verify sample_table sample_config 700 cap'
      = Done true ∧
    Keys.PINT_verify_capability (λ _, true) sample_verify sample_table sample_config 701 cap'
      = Done false.
Proof.
  eexists. split; [reflexivity|]. split.
  - refine (capability_roundtrip (λ _, true) (λ _, true) sample_sign sample_verify sample_table ()
      () [83; 58; 97] sample_config sample_config 100 700 None sample_granted _ _ _ _ _ _ _);
      try reflexivity; try done.
    intros m s [= <-]. split; [done|]. by apply bool_decide_eq_true.
  - refine (capability_roundtrip (λ _, true) (λ _, true) sample_sign sample_verify sample_table ()
      () [83; 58; 97] sample_config sample_config 100 701 None sample_granted _ _ _ _ _ _ _);
      try reflexivity; try done.
    intros m s [= <-]. split; [done|]. by apply bool_decide_eq_true.
Defined.

Definition sample_message : list Z :=
  [83; 58; 97; 9; 0; 0; 0; 188; 2; 0; 0; 0; 0; 0; 0; 4; 0; 0; 0; 1; 0; 0; 0;
   5; 0; 0; 0; 0; 0; 0; 0].

(** The same host has signed a credential for user 7. *)
Definition sample_user : PVFS_credential :=
  mk_credential 7 1 [8] (Some [83; 58; 97]) 1000 1 [0] (mk_certificate 0 []).
Definition sample_user_message : list Z :=
  [7; 0; 0; 0; 1; 0; 0; 0; 8; 0; 0; 0; 83; 58; 97; 232; 3; 0; 0; 0; 0; 0; 0].
Definition sample_signed (_ : unit) (m : list Z) : Prop := m ∈ [sample_message; sample_user_message].

Lemma sample_user_ok : cred_ok sample_user.
Proof. split_and!; try done. by apply Forall_singleton. Qed.

Lemma sample_host host pk :
  SECURITY_lookup_pubkey sample_table host = Done (Some pk) → host = [83; 58; 97].
Proof.
  intros Hk. destruct (lookup_pubkey_spec sample_table host sample_table_ok) as (r & Hr & Hin).
  rewrite Hk in Hr. apply Done_inj in Hr as <-. apply list_elem_of_singleton in Hin.
  by injection Hin as ->.
Qed.

Lemma sample_hosts_sign :
  hosts_sign sample_table sample_signed (λ _, [set_cap_timeout 700 sample_granted])
    (λ _, [sample_user]).
Proof.
  intros host pk m Hk Hm. apply sample_host in Hk as ->. unfold sample_signed in Hm.
  rewrite !elem_of_cons in Hm. destruct Hm as [->|[->|[]%elem_of_nil]].
  - left. exists (set_cap_timeout 700 sample_granted). split; [by apply list_elem_of_singleton|].
    split; [apply sample_granted_ok|done].
  - right. exists sample_user. split; [by apply list_elem_of_singleton|].
    split; [apply sample_user_ok|done].
Qed.

Lemma verified_capability_genuine_witness :
  ∃ host, Some [83; 58; 97] = Some host ∧
    ((∃ c, c ∈ [set_cap_timeout 700 sample_granted] ∧
        same_rights (set_cap_signature (1 :: sample_message) (set_cap_timeout 700 sample_granted)) c) ∨
     (∃ c, c ∈ [sample_user] ∧ credential_message c = capability_message
             (set_cap_signature (1 :: sample_message) (set_cap_timeout 700 sample_granted)) ∧
        spells host (cred_userid c))).
Proof.
  refine (proj2 (verified_capability_genuine (λ _, true)
    (λ pk m s, sample_verify pk m s && bool_decide (m ∈ [sample_message; sample_user_message]))
    sample_table sample_signed
    (λ _, [set_cap_timeout 700 sample_granted]) (λ _, [sample_user]) sample_config 650
    (set_cap_signature (1 :: sample_message) (set_cap_timeout 700 sample_granted)) _ _ _ _ _)).
  - intros pk m s [_ H]%andb_true_iff. by apply bool_decide_eq_true in H.
  - apply sample_hosts_sign.
  - apply sample_granted_ok.
  - done.
  - vm_compute. reflexivity.
Defined.

Lemma signature_of_credential_reused_witness :
  credential_message (sample_cred [1]) = capability_message (sample_cap [1]).
Proof.
  by apply (signature_of_credential_reused (λ _ : unit, true) (λ _ _ _, true)
    (mkQhash 1 [[]]) sample_config 1000 [1]).
Defined.
