(* ===== verification/AccessCheck.v ===== *)
(** Modes, ACLs and the operation mask of a capability:
    [PINT_get_capabilities], [check_mode] and [check_acls] of
    src/src/server/check.c.

    The object is described by the header of its attributes.  The ACL is the
    value of the key system.posix_acl_access as it is stored, a list of bytes;
    the groups of the user are a list, whose length is [num_groups].  The
    model is that of a little-endian host, where bmitoh32 is the identity. *)

From stdpp Require Import base tactics numbers list list_numbers.
From S2P Require Import Prelude Errors Wire WireTypes Security.

(** * Constants *)

Definition PVFS_ATTR_COMMON_UID : Z := 2 ^ 0.
Definition PVFS_ATTR_COMMON_GID : Z := 2 ^ 1.
Definition PVFS_ATTR_COMMON_PERM : Z := 2 ^ 2.

Definition PVFS_TYPE_DIRECTORY : Z := 4.

Definition PVFS_O_EXECUTE : Z := 2 ^ 0.
Definition PVFS_O_WRITE : Z := 2 ^ 1.
Definition PVFS_O_READ : Z := 2 ^ 2.
Definition PVFS_G_EXECUTE : Z := 2 ^ 3.
Definition PVFS_G_WRITE : Z := 2 ^ 4.
Definition PVFS_G_READ : Z := 2 ^ 5.
Definition PVFS_U_EXECUTE : Z := 2 ^ 6.
Definition PVFS_U_WRITE : Z := 2 ^ 7.
Definition PVFS_U_READ : Z := 2 ^ 8.

Definition PVFS2_ACL_USER_OBJ : Z := 1.
Definition PVFS2_ACL_USER : Z := 2.
Definition PVFS2_ACL_GROUP_OBJ : Z := 4.
Definition PVFS2_ACL_GROUP : Z := 8.
Definition PVFS2_ACL_MASK : Z := 16.
Definition PVFS2_ACL_OTHER : Z := 32.

Definition PVFS2_ACL_READ : Z := 4.
Definition PVFS2_ACL_WRITE : Z := 2.
Definition PVFS2_ACL_EXECUTE : Z := 1.

(** * [check_mode] *)

Inductive access_type := READ_ACCESS | WRITE_ACCESS | EXEC_ACCESS.

Definition user_bit (access : access_type) : Z :=
  match access with
  | READ_ACCESS => PVFS_U_READ | WRITE_ACCESS => PVFS_U_WRITE | EXEC_ACCESS => PVFS_U_EXECUTE
  end.
Definition group_bit (access : access_type) : Z :=
  match access with
  | READ_ACCESS => PVFS_G_READ | WRITE_ACCESS => PVFS_G_WRITE | EXEC_ACCESS => PVFS_G_EXECUTE
  end.
Definition other_bit (access : access_type) : Z :=
  match access with
  | READ_ACCESS => PVFS_O_READ | WRITE_ACCESS => PVFS_O_WRITE | EXEC_ACCESS => PVFS_O_EXECUTE
  end.

(** The mask says that owner, group and permissions are there. *)
Definition mode_mask (mask : Z) : bool :=
  has mask PVFS_ATTR_COMMON_UID && has mask PVFS_ATTR_COMMON_GID
  && has mask PVFS_ATTR_COMMON_PERM.

Definition check_mode (access : access_type) (userid group : Z) (attr : attr_header) : Z :=
  if negb (mode_mask (ah_mask attr)) then - PVFS_EINVAL else
  let mask := if ah_owner attr =? userid then user_bit access else other_bit access in
  let user_other_access := Z.land (ah_perms attr) mask in
  let mask := if ah_group attr =? group then group_bit access else 0 in
  let group_access := Z.land (ah_perms attr) mask in
  Z.b2z (negb (user_other_access =? 0) || negb (group_access =? 0)).

(** * [check_acls] *)

Record pvfs2_acl_entry := mk_acl_entry {
  p_tag : Z;    (* int16_t *)
  p_perm : Z;   (* uint16_t *)
  p_id : Z;     (* uint32_t *)
}.

(** [ph->p_entries[i]]: the entries follow the version, eight bytes each. *)
Definition acl_entry (buf : list Z) (i : Z) : exec pvfs2_acl_entry :=
  bs ← peek buf (4 + 8 * i) 8;
  Done (mk_acl_entry (signed 2 (little_endian_to_Z 8 (take 2 bs)))
          (little_endian_to_Z 8 (take 2 (drop 2 bs)))
          (little_endian_to_Z 8 (drop 4 bs))).

Definition grants (perm want : Z) : bool := Z.land perm want =? want.

Definition check_perm (pe : pvfs2_acl_entry) (want : Z) : Z :=
  if grants (p_perm pe) want then 0 else - PVFS_EACCES.

(** What the switch does with an entry: it goes on to the next one, with the
    flag [found], or to one of the two labels, or returns. *)
Inductive acl_verdict :=
  | Acl_next (found : bool)
  | Acl_mask
  | Acl_check_perm
  | Acl_return (ret : Z).

Definition in_groups (gid : Z) (group_array : list Z) : bool := existsb (Z.eqb gid) group_array.

Definition acl_switch (attr : attr_header) (uid : Z) (group_array : list Z) (want : Z)
    (found : bool) (pe : pvfs2_acl_entry) : acl_verdict :=
  let group gid :=
    if in_groups gid group_array then
      if grants (p_perm pe) want then Acl_mask else Acl_next true
    else Acl_next found in
  if p_tag pe =? PVFS2_ACL_USER_OBJ then
    if ah_owner attr =? uid then Acl_check_perm else Acl_next found
  else if p_tag pe =? PVFS2_ACL_USER then
    if p_id pe =? uid then Acl_mask else Acl_next found
  else if p_tag pe =? PVFS2_ACL_GROUP_OBJ then group (ah_group attr)
  else if p_tag pe =? PVFS2_ACL_GROUP then group (p_id pe)
  else if p_tag pe =? PVFS2_ACL_MASK then Acl_next found
  else if p_tag pe =? PVFS2_ACL_OTHER then
    if found then Acl_return (- PVFS_EINVAL) else Acl_check_perm
  else Acl_return (- PVFS_EINVAL).

(** [n] entries remain, [i] is the next. *)
Fixpoint acl_mask_loop (buf : list Z) (pe : pvfs2_acl_entry) (want i : Z) (n : nat) : exec Z :=
  match n with
  | O => Done (check_perm pe want)
  | S n =>
      me ← acl_entry buf i;
      if p_tag me =? PVFS2_ACL_MASK
      then Done (if grants (Z.land (p_perm pe) (p_perm me)) want then 0 else - PVFS_EACCES)
      else acl_mask_loop buf pe want (i + 1) n
  end.

Fixpoint acl_loop (buf : list Z) (attr : attr_header) (uid : Z) (group_array : list Z)
    (want : Z) (found : bool) (i : Z) (n : nat) : exec Z :=
  match n with
  | O => Done (- PVFS_EINVAL)
  | S n =>
      pe ← acl_entry buf i;
      match acl_switch attr uid group_array want found pe with
      | Acl_next found => acl_loop buf attr uid group_array want found (i + 1) n
      | Acl_mask => acl_mask_loop buf pe want (i + 1) n
      | Acl_check_perm => Done (check_perm pe want)
      | Acl_return ret => Done ret
      end
  end.

(** [acl_size] is a size_t, [count] an int. *)
Definition check_acls (acl_buf : option (list Z)) (acl_size : Z) (attr : attr_header) (uid : Z)
    (group_array : list Z) (want : Z) : exec Z :=
  match acl_buf with
  | None => Done (- PVFS_EINVAL)
  | Some buf =>
      if negb (mode_mask (ah_mask attr)) || bool_decide (group_array = []) || (acl_size =? 0)
      then Done (- PVFS_EINVAL) else
      let acl_size := u64 (acl_size - 4) in
      if negb (acl_size mod 8 =? 0) then Done (- PVFS_EINVAL) else
      let count := i32 (acl_size / 8) in
      acl_loop buf attr uid group_array want false 0 (Z.to_nat count)
  end.

(** * [PINT_get_capabilities] *)

(** Adds a bit if the test succeeded, or gives up with the test's error. *)
Definition add_mode_bit (ret bit op_mask : Z) : Z * Z :=
  if ret >? 0 then (0, Z.lor op_mask bit) else if ret <? 0 then (ret, op_mask) else (0, op_mask).

(** The group that [check_mode] is given: the object's if the user is in it. *)
Definition active_group (attr : attr_header) (group_array : list Z) : option Z :=
  match group_array with
  | [] => None
  | g :: _ => Some (if in_groups (ah_group attr) group_array then ah_group attr else g)
  end.

(** The three calls of [check_mode], the first error ends it. *)
Definition mode_capabilities (userid group : Z) (attr : attr_header) (op_mask : Z) : Z * Z :=
  let '(ret, op_mask) :=
    add_mode_bit (check_mode READ_ACCESS userid group attr) PINT_CAP_READ op_mask in
  if ret <? 0 then (ret, op_mask) else
  let '(ret, op_mask) :=
    add_mode_bit (check_mode WRITE_ACCESS userid group attr) PINT_CAP_WRITE op_mask in
  if ret <? 0 then (ret, op_mask) else
  add_mode_bit (check_mode EXEC_ACCESS userid group attr) PINT_CAP_EXEC op_mask.

Definition add_acl_bit (ret bit op_mask : Z) : Z :=
  if ret =? 0 then Z.lor op_mask bit else op_mask.

(** The three calls of [check_acls]. *)
Definition acl_capabilities (acl_buf : option (list Z)) (acl_size : Z) (attr : attr_header)
    (userid : Z) (group_array : list Z) : exec Z :=
  r ← check_acls acl_buf acl_size attr userid group_array PVFS2_ACL_READ;
  w ← check_acls acl_buf acl_size attr userid group_array PVFS2_ACL_WRITE;
  x ← check_acls acl_buf acl_size attr userid group_array PVFS2_ACL_EXECUTE;
  Done (add_acl_bit x PINT_CAP_EXEC (add_acl_bit w PINT_CAP_WRITE
          (add_acl_bit r PINT_CAP_READ 0))).

(** The status and [*op_mask]. *)
Definition PINT_get_capabilities (acl_buf : option (list Z)) (acl_size : Z) (userid : Z)
    (group_array : list Z) (attr : attr_header) : exec (Z * Z) :=
  if userid =? 0 then
    Done (0, if negb (ah_objtype attr =? PVFS_TYPE_DIRECTORY)
             then Z.ldiff ALL_CAPS (Z.lor PINT_CAP_CREATE PINT_CAP_REMOVE) else ALL_CAPS)
  else if (0 <? acl_size) && bool_decide (acl_buf = None) then Done (- PVFS_EINVAL, 0)
  else
    op_mask ← (if 0 <? acl_size
               then acl_capabilities acl_buf acl_size attr userid group_array else Done 0);
    match active_group attr group_array with
    | None => Done (- PVFS_EINVAL, op_mask)
    | Some group =>
        if negb (has (ah_mask attr) PVFS_ATTR_COMMON_GID) then Done (- PVFS_EINVAL, op_mask) else
        let '(ret, op_mask) := mode_capabilities userid group attr op_mask in
        if ret <? 0 then Done (ret, op_mask) else
        let op_mask := if userid =? ah_owner attr then Z.lor op_mask PINT_CAP_SETATTR
                       else op_mask in
        let op_mask := if (ah_objtype attr =? PVFS_TYPE_DIRECTORY)
                          && has op_mask PINT_CAP_WRITE && has op_mask PINT_CAP_EXEC
                       then Z.lor op_mask (Z.lor PINT_CAP_CREATE PINT_CAP_REMOVE)
                       else op_mask in
        Done (0, op_mask)
    end.

(** * Specification *)

(** ** POSIX access control lists

    An ACL that has been checked by the system: its entries in their order,
    the mask optional, named users and groups with their ids. *)
Record posix_acl := mk_posix_acl {
  acl_user_obj : Z;
  acl_users : list (Z * Z);     (* id, permissions *)
  acl_group_obj : Z;
  acl_groups : list (Z * Z);
  acl_mask : option Z;
  acl_other : Z;
}.

(** The access check of POSIX.1e: the first of the following that applies
    decides - the owner, a named user, the groups of the user, others; the
    mask limits all but the owner and others. *)
Definition masked (a : posix_acl) (want perm : Z) : bool :=
  grants perm want && match acl_mask a with Some m => grants m want | None => true end.

Definition group_perms (a : posix_acl) (group : Z) (group_array : list Z) : list Z :=
  (if in_groups group group_array then [acl_group_obj a] else [])
  ++ (snd <$> filter (λ e, in_groups e.1 group_array = true) (acl_groups a)).

Definition posix_access (a : posix_acl) (attr : attr_header) (uid : Z) (group_array : list Z)
    (want : Z) : bool :=
  if ah_owner attr =? uid then grants (acl_user_obj a) want else
  match find (λ e, e.1 =? uid) (acl_users a) with
  | Some e => masked a want e.2
  | None =>
      match group_perms a (ah_group attr) group_array with
      | [] => grants (acl_other a) want
      | perms => existsb (masked a want) perms
      end
  end.

(** ** Their representation *)

Definition user_entry (e : Z * Z) : pvfs2_acl_entry := mk_acl_entry PVFS2_ACL_USER e.2 e.1.
Definition group_entry (e : Z * Z) : pvfs2_acl_entry := mk_acl_entry PVFS2_ACL_GROUP e.2 e.1.

Definition undefined_id : Z := 2 ^ 32 - 1.

Definition tail_entries (a : posix_acl) : list pvfs2_acl_entry :=
  match acl_mask a with
  | Some m => [mk_acl_entry PVFS2_ACL_MASK m undefined_id]
  | None => []
  end ++ [mk_acl_entry PVFS2_ACL_OTHER (acl_other a) undefined_id].

Definition group_entries (a : posix_acl) : list pvfs2_acl_entry :=
  mk_acl_entry PVFS2_ACL_GROUP_OBJ (acl_group_obj a) undefined_id
    :: (group_entry <$> acl_groups a) ++ tail_entries a.

Definition acl_entries (a : posix_acl) : list pvfs2_acl_entry :=
  mk_acl_entry PVFS2_ACL_USER_OBJ (acl_user_obj a) undefined_id
    :: (user_entry <$> acl_users a) ++ group_entries a.

Definition encode_entry (e : pvfs2_acl_entry) : list Z :=
  le 2 (p_tag e) ++ le 2 (p_perm e) ++ le 4 (p_id e).

Definition PVFS2_ACL_VERSION : Z := 2.

Definition encode_acl (es : list pvfs2_acl_entry) : list Z :=
  le 4 PVFS2_ACL_VERSION ++ (es ≫= encode_entry).

Definition entry_ok (e : pvfs2_acl_entry) : bool :=
  (0 <=? p_tag e) && (p_tag e <? 2 ^ 15) && (0 <=? p_perm e) && (p_perm e <? 2 ^ 16)
  && (0 <=? p_id e) && (p_id e <? 2 ^ 32).

(** ** Modes *)

(** Standard UNIX semantics: one of the three classes decides. *)
Definition unix_access (access : access_type) (attr : attr_header) (userid : Z)
    (group_array : list Z) : bool :=
  has (ah_perms attr)
    (if ah_owner attr =? userid then user_bit access
     else if in_groups (ah_group attr) group_array then group_bit access
     else other_bit access).

(** What the code gives to the members of the group of the object: to the
    owner what the group has, to the others of the group what others have. *)
Definition excess_access (access : access_type) (attr : attr_header) (userid : Z)
    (group_array : list Z) : bool :=
  in_groups (ah_group attr) group_array
  && has (ah_perms attr) (if ah_owner attr =? userid then group_bit access else other_bit access).

(** * Proofs *)

Lemma land_grants p m want : grants (Z.land p m) want = grants p want && grants m want.
Proof.
  unfold grants. apply eq_true_iff_eq. rewrite andb_true_iff, !Z.eqb_eq. split.
  - intros H. split; apply Z.bits_inj'; intros n Hn;
      apply (f_equal (λ z, Z.testbit z n)) in H; rewrite !Z.land_spec in *;
      destruct (Z.testbit p n), (Z.testbit m n), (Z.testbit want n); done.
  - intros [Hp Hm]. by rewrite <- Z.land_assoc, Hm, Hp.
Qed.

Lemma encode_entry_length e : length (encode_entry e) = 8%nat.
Proof.
  unfold encode_entry. rewrite !length_app.
  pose proof (le_length 2 (p_tag e) ltac:(lia)). pose proof (le_length 2 (p_perm e) ltac:(lia)).
  pose proof (le_length 4 (p_id e) ltac:(lia)). lia.
Qed.

Lemma entries_length es : length (es ≫= encode_entry) = (8 * length es)%nat.
Proof.
  induction es as [|e es IH]; [done|]. cbn [mbind list_bind]. 
  rewrite length_app, encode_entry_length, IH. simpl. lia.
Qed.

Lemma acl_entry_encoded es i e :
  es !! i = Some e → entry_ok e = true → acl_entry (encode_acl es) (Z.of_nat i) = Done e.
Proof.
  intros Hi He. apply take_drop_middle in Hi as Hes. apply lookup_lt_Some in Hi.
  unfold entry_ok in He. rewrite !andb_true_iff, !Z.leb_le, !Z.ltb_lt in He.
  destruct He as [[[[[? ?] ?] ?] ?] ?].
  assert (take 8 (drop (4 + 8 * i) (encode_acl es)) = encode_entry e) as Hview.
  { unfold encode_acl. rewrite drop_app_ge by (rewrite <- (Nat2Z.id (length _)), le_length; lia).
    rewrite <- Hes at 1. rewrite bind_app. cbn [mbind list_bind].
    rewrite drop_app_ge by (rewrite entries_length, length_take,
      <- (Nat2Z.id (length (le _ _))), le_length; lia).
    rewrite entries_length, length_take, <- (Nat2Z.id (length (le _ _))), le_length by lia.
    replace (4 + 8 * i - Z.to_nat 4 - 8 * (i `min` length es))%nat with 0%nat by lia.
    rewrite drop_0. apply take_app_length'. by rewrite encode_entry_length. }
  unfold acl_entry, peek, view. rewrite decide_True.
  - replace (Z.to_nat (4 + 8 * Z.of_nat i)) with (4 + 8 * i)%nat by lia.
    change (Z.to_nat 8) with 8%nat. rewrite Hview. cbn [mbind exec_bind]. unfold encode_entry.
    pose proof (le_length 2 (p_tag e) ltac:(lia)). pose proof (le_length 2 (p_perm e) ltac:(lia)).
    rewrite take_app_length' by lia. rewrite drop_app_length' by lia.
    rewrite take_app_length' by lia. rewrite (app_assoc (le 2 _)), drop_app_length'
      by (rewrite length_app; lia).
    rewrite !le_value by lia. destruct e as [t p d]. simpl in *. do 2 f_equal.
    unfold signed. rewrite Z.mod_small; lia.
  - apply (f_equal length) in Hview. rewrite length_take, length_drop, encode_entry_length in Hview.
    lia.
Qed.

(** The loops on the list of the entries. *)
Fixpoint mask_list (pe : pvfs2_acl_entry) (want : Z) (es : list pvfs2_acl_entry) : Z :=
  match es with
  | [] => check_perm pe want
  | me :: es =>
      if p_tag me =? PVFS2_ACL_MASK
      then if grants (Z.land (p_perm pe) (p_perm me)) want then 0 else - PVFS_EACCES
      else mask_list pe want es
  end.

Fixpoint acl_list (attr : attr_header) (uid : Z) (group_array : list Z) (want : Z)
    (found : bool) (es : list pvfs2_acl_entry) : Z :=
  match es with
  | [] => - PVFS_EINVAL
  | pe :: es =>
      match acl_switch attr uid group_array want found pe with
      | Acl_next found => acl_list attr uid group_array want found es
      | Acl_mask => mask_list pe want es
      | Acl_check_perm => check_perm pe want
      | Acl_return ret => ret
      end
  end.

Lemma mask_loop_list pre es pe want :
  Forall (λ e, entry_ok e = true) es →
  acl_mask_loop (encode_acl (pre ++ es)) pe want (Z.of_nat (length pre)) (length es)
  = Done (mask_list pe want es).
Proof.
  revert pre. induction es as [|e es IH]; intros pre Hok; [done|].
  apply Forall_cons in Hok as [He Hok]. cbn [acl_mask_loop length mask_list].
  rewrite (acl_entry_encoded _ _ e); [|by apply list_lookup_middle|done].
  cbn [mbind exec_bind]. destruct (p_tag e =? PVFS2_ACL_MASK); [done|].
  rewrite (cons_middle e), app_assoc. replace (Z.of_nat (length pre) + 1)
    with (Z.of_nat (length (pre ++ [e]))) by (rewrite length_app; simpl; lia). by apply IH.
Qed.

Lemma acl_loop_list pre es attr uid group_array want found :
  Forall (λ e, entry_ok e = true) es →
  acl_loop (encode_acl (pre ++ es)) attr uid group_array want found
    (Z.of_nat (length pre)) (length es)
  = Done (acl_list attr uid group_array want found es).
Proof.
  revert pre found. induction es as [|e es IH]; intros pre found Hok; [done|].
  apply Forall_cons in Hok as [He Hok]. cbn [acl_loop length acl_list].
  rewrite (acl_entry_encoded _ _ e); [|by apply list_lookup_middle|done].
  cbn [mbind exec_bind].
  rewrite (cons_middle e), app_assoc. replace (Z.of_nat (length pre) + 1)
    with (Z.of_nat (length (pre ++ [e]))) by (rewrite length_app; simpl; lia).
  destruct (acl_switch _ _ _ _ _ _); [by apply IH|by apply mask_loop_list|done..].
Qed.

(** An entry that the mask applies to, before entries without a mask. *)
Lemma mask_list_skip pe want es es' :
  Forall (λ e, p_tag e ≠ PVFS2_ACL_MASK) es → mask_list pe want (es ++ es') = mask_list pe want es'.
Proof.
  induction 1 as [|e es He _ IH]; [done|]. simpl. by rewrite (proj2 (Z.eqb_neq _ _) He).
Qed.

Lemma mask_list_tail a pe want es :
  Forall (λ e, p_tag e ≠ PVFS2_ACL_MASK) es →
  mask_list pe want (es ++ tail_entries a)
  = if masked a want (p_perm pe) then 0 else - PVFS_EACCES.
Proof.
  intros He. rewrite mask_list_skip by done. unfold tail_entries, masked, check_perm.
  destruct (acl_mask a) as [m|]; simpl; unfold check_perm.
  - by rewrite land_grants.
  - by rewrite andb_true_r.
Qed.

Lemma not_mask_users us : Forall (λ e, p_tag e ≠ PVFS2_ACL_MASK) (user_entry <$> us).
Proof. apply Forall_fmap, Forall_true. done. Qed.
Lemma not_mask_groups gs : Forall (λ e, p_tag e ≠ PVFS2_ACL_MASK) (group_entry <$> gs).
Proof. apply Forall_fmap, Forall_true. done. Qed.

(** The named users. *)
Lemma acl_list_users a attr uid group_array want us :
  acl_list attr uid group_array want false ((user_entry <$> us) ++ group_entries a)
  = match find (λ e, e.1 =? uid) us with
    | Some e => if masked a want e.2 then 0 else - PVFS_EACCES
    | None => acl_list attr uid group_array want false (group_entries a)
    end.
Proof.
  induction us as [|u us IH]; [done|]. cbn [fmap list_fmap app acl_list find].
  unfold acl_switch. simpl. destruct (u.1 =? uid); [|done].
  unfold group_entries. rewrite app_comm_cons, app_assoc. apply mask_list_tail.
  apply Forall_app. split; [apply not_mask_users|]. constructor; [done|apply not_mask_groups].
Qed.

(** The last entry: others, unless a group entry has been found. *)
Lemma acl_list_other a attr uid group_array want found :
  acl_list attr uid group_array want found (tail_entries a)
  = if found then - PVFS_EINVAL
    else if grants (acl_other a) want then 0 else - PVFS_EACCES.
Proof.
  unfold tail_entries. by destruct (acl_mask a); simpl; unfold acl_switch; simpl; destruct found.
Qed.

(** What the groups decide: [found] says that an entry before matched, and
    none of those that matched allows the access without the mask. *)
Definition groups_decide (a : posix_acl) (want : Z) (found : bool) (perms : list Z) : Z :=
  match find (λ p, grants p want) perms with
  | Some p => if masked a want p then 0 else - PVFS_EACCES
  | None =>
      if found || negb (bool_decide (perms = [])) then - PVFS_EINVAL
      else if grants (acl_other a) want then 0 else - PVFS_EACCES
  end.

Lemma acl_list_groups a attr uid group_array want found gs :
  acl_list attr uid group_array want found ((group_entry <$> gs) ++ tail_entries a)
  = groups_decide a want found (snd <$> filter (λ e, in_groups e.1 group_array = true) gs).
Proof.
  revert found. induction gs as [|g gs IH]; intros found.
  { simpl. rewrite acl_list_other. unfold groups_decide. simpl. by rewrite orb_false_r. }
  cbn [fmap list_fmap app acl_list]. unfold acl_switch. simpl.
  destruct (in_groups g.1 group_array) eqn:Hg.
  - rewrite filter_cons_True by done. cbn [fmap list_fmap]. unfold groups_decide. simpl.
    destruct (grants g.2 want) eqn:Hp.
    + apply mask_list_tail, not_mask_groups.
    + rewrite IH. unfold groups_decide.
      rewrite orb_true_r. by destruct (find _ _).
  - rewrite filter_cons_False by (by rewrite Hg). apply IH.
Qed.

Lemma acl_list_group_entries a attr uid group_array want :
  acl_list attr uid group_array want false (group_entries a)
  = groups_decide a want false (group_perms a (ah_group attr) group_array).
Proof.
  unfold group_entries, group_perms. cbn [acl_list]. unfold acl_switch. simpl.
  destruct (in_groups (ah_group attr) group_array); simpl.
  - unfold groups_decide. simpl. destruct (grants (acl_group_obj a) want).
    + apply mask_list_tail, not_mask_groups.
    + rewrite acl_list_groups. unfold groups_decide. by destruct (find _ _).
  - apply acl_list_groups.
Qed.

Lemma groups_decide_posix a want perms :
  groups_decide a want false perms
  = if match perms with [] => grants (acl_other a) want | _ => existsb (masked a want) perms end
    then 0 else if bool_decide (perms = []) || existsb (λ p, grants p want) perms
    then - PVFS_EACCES else - PVFS_EINVAL.
Proof.
  unfold groups_decide.
  assert (∀ l, existsb (masked a want) l
    = match find (λ p, grants p want) l with Some p => masked a want p | None => false end) as Hex.
  { unfold masked. generalize (match acl_mask a with Some m => grants m want | None => true end).
    intros b. induction l as [|p l IH]; [done|]. simpl.
    destruct (grants p want) eqn:Hp; simpl; [|done]. rewrite IH, Hp.
    destruct (find _ l) as [q|] eqn:Hq; [|by destruct b].
    apply find_some in Hq as [_ Hq]. rewrite Hq. by destruct b. }
  assert (∀ l, existsb (λ p, grants p want) l
    = match find (λ p, grants p want) l with Some p => true | None => false end) as Hfind.
  { induction l as [|p l IH]; [done|]. simpl. by destruct (grants p want). }
  destruct perms as [|p perms]; [done|]. rewrite Hex, Hfind, bool_decide_eq_false_2 by done.
  by destruct (find _ _).
Qed.

Lemma acl_list_posix a attr uid group_array want :
  acl_list attr uid group_array want false (acl_entries a)
  = if posix_access a attr uid group_array want then 0
    else if (ah_owner attr =? uid) || present (find (λ e, e.1 =? uid) (acl_users a))
            || bool_decide (group_perms a (ah_group attr) group_array = [])
            || existsb (λ p, grants p want) (group_perms a (ah_group attr) group_array)
    then - PVFS_EACCES else - PVFS_EINVAL.
Proof.
  unfold acl_entries, posix_access. cbn [acl_list]. unfold acl_switch. simpl.
  destruct (ah_owner attr =? uid); [done|]. rewrite acl_list_users.
  destruct (find _ (acl_users a)) as [e|]; [by destruct (masked a want e.2)|].
  rewrite acl_list_group_entries, groups_decide_posix.
  by destruct (group_perms a (ah_group attr) group_array).
Qed.

Lemma mode_mask_all attr : mode_mask (ah_mask attr) = true →
  has (ah_mask attr) PVFS_ATTR_COMMON_GID = true.
Proof. unfold mode_mask. rewrite !andb_true_iff. tauto. Qed.

Lemma encode_acl_length es : len (encode_acl es) = 4 + 8 * len es.
Proof.
  unfold encode_acl. rewrite length_app, entries_length.
  pose proof (le_length 4 PVFS2_ACL_VERSION ltac:(lia)). lia.
Qed.

Lemma acl_entries_ne a : 0 < len (acl_entries a).
Proof. unfold acl_entries. simpl. lia. Qed.

Lemma check_acls_list a attr uid group_array want :
  Forall (λ e, entry_ok e = true) (acl_entries a) → len (acl_entries a) < B31 →
  mode_mask (ah_mask attr) = true → group_array ≠ [] →
  check_acls (Some (encode_acl (acl_entries a))) (len (encode_acl (acl_entries a)))
    attr uid group_array want
  = Done (acl_list attr uid group_array want false (acl_entries a)).
Proof.
  intros Hok Hlen Hmask Hgs. pose proof (acl_entries_ne a) as Hne. unfold check_acls.
  rewrite encode_acl_length, Hmask, bool_decide_eq_false_2 by done.
  rewrite (proj2 (Z.eqb_neq _ _)) by lia. cbn [negb orb].
  replace (4 + 8 * len (acl_entries a) - 4) with (len (acl_entries a) * 8) by lia.
  rewrite u64_id by lia.
  rewrite Z.mod_mul, Z.div_mul by lia. simpl negb. cbv iota.
  rewrite i32_id by lia. rewrite Nat2Z.id.
  exact (acl_loop_list [] _ _ _ _ _ _ Hok).
Qed.

(** ** Modes *)

Lemma in_groups_active attr group_array g :
  active_group attr group_array = Some g →
  (ah_group attr =? g) = in_groups (ah_group attr) group_array.
Proof.
  destruct group_array as [|x gs]; [done|]. unfold active_group. intros Ha.
  apply (inj Some) in Ha as <-.
  destruct (in_groups (ah_group attr) (x :: gs)) eqn:Hin; [apply Z.eqb_refl|].
  simpl in Hin. by destruct (ah_group attr =? x).
Qed.

(** Whether the mode of an object gives an access to a user. *)
Definition mode_access (access : access_type) (attr : attr_header) (userid : Z)
    (group_array : list Z) : bool :=
  has (ah_perms attr) (if ah_owner attr =? userid then user_bit access else other_bit access)
  || (in_groups (ah_group attr) group_array && has (ah_perms attr) (group_bit access)).

Lemma check_mode_access access userid group_array g attr :
  mode_mask (ah_mask attr) = true → active_group attr group_array = Some g →
  check_mode access userid g attr = Z.b2z (mode_access access attr userid group_array).
Proof.
  intros Hm Hg. unfold check_mode, mode_access. rewrite Hm. simpl.
  rewrite (in_groups_active _ _ _ Hg). unfold has.
  by destruct (in_groups _ _); rewrite ?Z.land_0_r; simpl; rewrite ?orb_false_r.
Qed.

(** What the mode gives: everything that UNIX semantics gives; beyond it
    the owner who is in the group gets what the group gets, and a member of
    the group gets what others get. *)
Lemma mode_exceeds_unix access attr userid group_array :
  mode_access access attr userid group_array
  = unix_access access attr userid group_array || excess_access access attr userid group_array.
Proof.
  unfold mode_access, unix_access, excess_access.
  destruct (ah_owner attr =? userid), (in_groups (ah_group attr) group_array); simpl;
    rewrite ?orb_false_r; try done. apply orb_comm.
Qed.

(** ** Operation masks *)

(** The bits of a mask that is put together bit by bit. *)
Definition cap_mask (r w x s c : bool) : Z :=
  Z.lor (Z.lor (Z.lor (if r then PINT_CAP_READ else 0) (if w then PINT_CAP_WRITE else 0))
           (Z.lor (if x then PINT_CAP_EXEC else 0) (if s then PINT_CAP_SETATTR else 0)))
    (if c then Z.lor PINT_CAP_CREATE PINT_CAP_REMOVE else 0).

(** What the ACL adds: nothing if there is none. *)
Definition acl_access (acl : option posix_acl) (attr : attr_header) (uid : Z)
    (group_array : list Z) (want : Z) : bool :=
  match acl with Some a => posix_access a attr uid group_array want | None => false end.

(** The value of the key, and its size. *)
Definition stored_acl (acl : option posix_acl) : option (list Z) * Z :=
  match acl with
  | Some a => (Some (encode_acl (acl_entries a)), len (encode_acl (acl_entries a)))
  | None => (None, 0)
  end.

Definition acl_ok (acl : option posix_acl) : Prop :=
  match acl with
  | Some a => Forall (λ e, entry_ok e = true) (acl_entries a) ∧ len (acl_entries a) < B31
  | None => True
  end.

Lemma check_acls_granted a attr uid group_array want :
  acl_ok (Some a) → mode_mask (ah_mask attr) = true → group_array ≠ [] →
  ∃ ret, check_acls (Some (encode_acl (acl_entries a))) (len (encode_acl (acl_entries a)))
      attr uid group_array want = Done ret ∧
    (ret =? 0) = posix_access a attr uid group_array want.
Proof.
  intros [Hok Hlen] Hm Hg. rewrite check_acls_list by done. eexists. split; [done|].
  rewrite acl_list_posix. destruct (posix_access _ _ _ _ _); [done|].
  by destruct (_ || _).
Qed.

Lemma acl_capabilities_spec acl attr uid group_array :
  acl_ok acl → mode_mask (ah_mask attr) = true → group_array ≠ [] →
  let '(buf, size) := stored_acl acl in
  let access := acl_access acl attr uid group_array in
  (0 <? size) && bool_decide (buf = None) = false ∧
  (if 0 <? size then acl_capabilities buf size attr uid group_array else Done 0)
  = Done (cap_mask (access PVFS2_ACL_READ) (access PVFS2_ACL_WRITE)
            (access PVFS2_ACL_EXECUTE) false false).
Proof.
  destruct acl as [a|]; [|done]. intros Hok Hm Hg. cbn [stored_acl].
  split; [by rewrite bool_decide_eq_false_2, andb_false_r|].
  rewrite (proj2 (Z.ltb_lt _ _)) by (rewrite encode_acl_length; lia).
  unfold acl_capabilities, acl_access.
  destruct (check_acls_granted a attr uid group_array PVFS2_ACL_READ Hok Hm Hg) as (r & -> & Hr).
  destruct (check_acls_granted a attr uid group_array PVFS2_ACL_WRITE Hok Hm Hg) as (w & -> & Hw).
  destruct (check_acls_granted a attr uid group_array PVFS2_ACL_EXECUTE Hok Hm Hg)
    as (x & -> & Hx).
  cbn [mbind exec_bind]. unfold add_acl_bit. rewrite Hr, Hw, Hx.
  by destruct (posix_access _ _ _ _ PVFS2_ACL_READ), (posix_access _ _ _ _ PVFS2_ACL_WRITE),
    (posix_access _ _ _ _ PVFS2_ACL_EXECUTE).
Qed.

Lemma mode_capabilities_spec userid group_array g attr r w x :
  mode_mask (ah_mask attr) = true → active_group attr group_array = Some g →
  let access a := mode_access a attr userid group_array in
  mode_capabilities userid g attr (cap_mask r w x false false)
  = (0, cap_mask (r || access READ_ACCESS) (w || access WRITE_ACCESS)
          (x || access EXEC_ACCESS) false false).
Proof.
  intros Hm Hg. cbv zeta. unfold mode_capabilities. rewrite !(check_mode_access _ _ _ _ _ Hm Hg).
  by destruct r, w, x, (mode_access READ_ACCESS attr userid group_array),
    (mode_access WRITE_ACCESS attr userid group_array),
    (mode_access EXEC_ACCESS attr userid group_array).
Qed.

(** C29. The operation mask a user other than root is given, on every object
    whose owner, group and permissions are known, without an ACL or with one
    that is stored with its entries well-formed and in their order.  READ,
    WRITE and EXEC are given if the ACL allows it, or the mode by UNIX
    semantics, or, against UNIX semantics, to a member of the group of the
    object: the owner if the group has the permission, the other members if
    others have it.  SETATTR is given if the user owns the object, CREATE and
    REMOVE if it is a directory that may be written and searched, and nothing
    else - not ADMIN, and no batch operation. *)
Theorem capabilities_exact acl userid group_array attr :
  userid ≠ 0 → group_array ≠ [] → mode_mask (ah_mask attr) = true → acl_ok acl →
  let '(buf, size) := stored_acl acl in
  let may want access := acl_access acl attr userid group_array want
                         || (unix_access access attr userid group_array
                             || excess_access access attr userid group_array) in
  let r := may PVFS2_ACL_READ READ_ACCESS in
  let w := may PVFS2_ACL_WRITE WRITE_ACCESS in
  let x := may PVFS2_ACL_EXECUTE EXEC_ACCESS in
  PINT_get_capabilities buf size userid group_array attr
  = Done (0, cap_mask r w x (userid =? ah_owner attr)
               ((ah_objtype attr =? PVFS_TYPE_DIRECTORY) && w && x)).
Proof.
  intros Hu Hg Hm Hacl. pose proof (acl_capabilities_spec acl attr userid group_array Hacl Hm Hg)
    as Hspec. destruct (stored_acl acl) as [buf size]. destruct Hspec as [Hnull Hcaps].
  cbv beta zeta. rewrite <- !mode_exceeds_unix. unfold PINT_get_capabilities.
  rewrite (proj2 (Z.eqb_neq _ _) Hu), Hnull, Hcaps.
  cbn [mbind exec_bind]. destruct (active_group attr group_array) as [g|] eqn:Ha.
  2: { by destruct group_array. }
  rewrite (mode_mask_all _ Hm). simpl negb. cbv iota.
  rewrite (mode_capabilities_spec _ group_array _ _ _ _ _ Hm Ha). simpl.
  destruct (acl_access acl attr userid group_array PVFS2_ACL_READ
            || mode_access READ_ACCESS attr userid group_array),
    (acl_access acl attr userid group_array PVFS2_ACL_WRITE
     || mode_access WRITE_ACCESS attr userid group_array),
    (acl_access acl attr userid group_array PVFS2_ACL_EXECUTE
     || mode_access EXEC_ACCESS attr userid group_array),
    (userid =? ah_owner attr), (ah_objtype attr =? PVFS_TYPE_DIRECTORY); reflexivity.
Qed.

(** A user in the group of an object that the group may not read reads it
    all the same if others may: [check_mode] adds the bits of others to those
    of the group, where UNIX semantics, which the comment promises, takes the
    group's alone. *)
Theorem group_denial_ineffective attr userid group_array :
  mode_mask (ah_mask attr) = true → ah_owner attr ≠ userid →
  in_groups (ah_group attr) group_array = true →
  has (ah_perms attr) PVFS_G_READ = false → has (ah_perms attr) PVFS_O_READ = true →
  unix_access READ_ACCESS attr userid group_array = false ∧
  ∃ g, active_group attr group_array = Some g ∧ check_mode READ_ACCESS userid g attr = 1.
Proof.
  intros Hm Ho Hg Hgr Hor. split.
  - unfold unix_access. by rewrite (proj2 (Z.eqb_neq _ _) Ho), Hg.
  - destruct (active_group attr group_array) as [g|] eqn:Ha.
    2: { by destruct group_array. }
    exists g. split; [done|]. rewrite (check_mode_access _ _ _ _ _ Hm Ha).
    unfold mode_access. rewrite (proj2 (Z.eqb_neq _ _) Ho). simpl. by rewrite Hor.
Qed.

(** C30. [check_acls] decides a stored ACL as POSIX.1e does: it returns 0
    exactly if the ACL allows the access.  Access that the groups of the user
    deny is reported as -PVFS_EINVAL, which the comment of the function keeps
    for an ACL that is invalid, every other denial as -PVFS_EACCES. *)
Theorem check_acls_posix a attr uid group_array want :
  Forall (λ e, entry_ok e = true) (acl_entries a) → len (acl_entries a) < B31 →
  mode_mask (ah_mask attr) = true → group_array ≠ [] →
  check_acls (Some (encode_acl (acl_entries a))) (len (encode_acl (acl_entries a)))
    attr uid group_array want
  = Done (if posix_access a attr uid group_array want then 0
          else if (ah_owner attr =? uid) || present (find (λ e, e.1 =? uid) (acl_users a))
                  || bool_decide (group_perms a (ah_group attr) group_array = [])
                  || existsb (λ p, grants p want) (group_perms a (ah_group attr) group_array)
          then - PVFS_EACCES else - PVFS_EINVAL).
Proof. intros. rewrite check_acls_list by done. by rewrite acl_list_posix. Qed.

(** ** Witnesses *)

(** A file of user 7 and group 8, which others may read; its ACL lets the
    named user 12 read and write, and the mask keeps the writing away. *)
Definition sample_attr : attr_header := mk_attr_header_codec 7 8 260 0 0 0 7 PVFS_TYPE_METAFILE.
Definition sample_acl : posix_acl := mk_posix_acl 6 [(12, 6)] 0 [(9, 4)] (Some 4) 0.

Lemma check_acls_posix_witness :
  check_acls (Some (encode_acl (acl_entries sample_acl))) 52 sample_attr 12 [8] PVFS2_ACL_READ
    = Done 0 ∧
  check_acls (Some (encode_acl (acl_entries sample_acl))) 52 sample_attr 12 [8] PVFS2_ACL_WRITE
    = Done (- PVFS_EACCES).
Proof.
  split; [refine (check_acls_posix sample_acl sample_attr 12 [8] PVFS2_ACL_READ _ _ _ _)
         |refine (check_acls_posix sample_acl sample_attr 12 [8] PVFS2_ACL_WRITE _ _ _ _)];
    repeat first [apply Forall_cons; split | apply Forall_nil]; done.
Defined.

Lemma sample_acl_ok : acl_ok (Some sample_acl).
Proof. split; [|done]. repeat first [apply Forall_cons; split | apply Forall_nil]; done. Qed.

(** The named user reads by the ACL; a member of the group, which has no
    permission, reads because others may. *)
Lemma capabilities_exact_witness :
  PINT_get_capabilities (Some (encode_acl (acl_entries sample_acl))) 52 12 [1] sample_attr
    = Done (0, PINT_CAP_READ) ∧
  PINT_get_capabilities (Some (encode_acl (acl_entries sample_acl))) 52 13 [8] sample_attr
    = Done (0, PINT_CAP_READ) ∧
  unix_access READ_ACCESS sample_attr 13 [8] = false.
Proof.
  split; [|split; [|done]].
  - by refine (capabilities_exact (Some sample_acl) 12 [1] sample_attr _ _ _ sample_acl_ok).
  - by refine (capabilities_exact (Some sample_acl) 13 [8] sample_attr _ _ _ sample_acl_ok).
Defined.

Lemma group_denial_ineffective_witness :
  ∃ g, active_group sample_attr [8] = Some g ∧ check_mode READ_ACCESS 12 g sample_attr = 1.
Proof. by apply (group_denial_ineffective sample_attr 12 [8]). Defined.
