(* ===== verification/ServerParams.v ===== *)
(** The parameters of the server's operations: what every state machine file
    of src/src/server says about its request in its
    [struct PINT_server_req_params] - the permission function, the type of
    access, the scheduling policy, the object reference and the credential -
    the functions of pvfs2-server-req.c that look them up, and
    [PINT_perm_check] of check.c.

    A request is [LeBytefield.PVFS_server_req]: its union is the constructor
    of [req_u], its operation is [req_op].  A function that reads the member
    of another operation than the request's reads what it must not. *)

From stdpp Require Import base tactics numbers list list_numbers strings.
From S2P Require Import Prelude Errors ServerOps ReqSched Wire DistTable WireTypes Hint.
From S2P Require Import WireReq LeBytefield Security AccessCheck.

(** * The request being serviced *)

Definition PVFS_HANDLE_NULL : Z := 0.
Definition PVFS_FS_ID_NULL : Z := 0.

(** The attributes stored for a data space (pvfs2-storage.h). *)
Record PVFS_ds_attributes := mk_ds_attributes {
  ds_type : Z; ds_uid : Z; ds_gid : Z; ds_mode : Z;
  ds_ctime : Z; ds_mtime : Z; ds_atime : Z;
  ds_dfile_count : Z;   (* u.metafile.dfile_count: uint32_t *)
  ds_dist_size : Z;     (* u.metafile.dist_size: uint32_t *)
}.

(** [s_op->attr] as far as the prelude fills it in; [sa_dist] says whether
    [u.meta.dist] is set. *)
Record server_attr := mk_server_attr {
  sa_header : attr_header;
  sa_dfile_count : Z;
  sa_dist_size : Z;
  sa_dist : bool;
}.

(** The fields of [struct PINT_server_op] that the prelude uses. *)
Record PINT_server_op := mk_server_op {
  s_req : PVFS_server_req;
  s_addr : Z;                                   (* PVFS_BMI_addr_t *)
  s_target_fs_id : Z;
  s_target_handle : Z;
  s_access_type : PINT_server_req_access_type;
  s_sched_policy : PINT_server_sched_policy;
  s_ds_attr : PVFS_ds_attributes;
  s_attr : server_attr;
  s_perm_check_done : bool;                     (* PRELUDE_PERM_CHECK_DONE *)
}.

Definition s_mask (s_op : PINT_server_op) : Z := cap_op_mask (req_capability (s_req s_op)).

(** * Permission functions *)

Definition perm_fun : Type := PINT_server_op → exec Z.

Definition allow : perm_fun := λ _, Done 0.

(** 0 if the test holds, -PVFS_EACCES otherwise. *)
Definition allow_if (b : bool) : exec Z := Done (if b then 0 else - PVFS_EACCES).

Definition allow_mask (mask : Z) : perm_fun := λ s_op, allow_if (has (s_mask s_op) mask).

Definition perm_chdirent : perm_fun := λ s_op,
  allow_if (has (s_mask s_op) PINT_CAP_WRITE && has (s_mask s_op) PINT_CAP_EXEC).
Definition perm_crdirent : perm_fun := λ s_op,
  allow_if (has (s_mask s_op) PINT_CAP_WRITE && has (s_mask s_op) PINT_CAP_EXEC).
Definition perm_rmdirent : perm_fun := λ s_op,
  allow_if (has (s_mask s_op) PINT_CAP_WRITE && has (s_mask s_op) PINT_CAP_EXEC).
Definition perm_deleattr : perm_fun := allow_mask PINT_CAP_SETATTR.
Definition perm_seteattr : perm_fun := allow_mask PINT_CAP_SETATTR.
Definition perm_atomiceattr : perm_fun := allow_mask PINT_CAP_SETATTR.
Definition perm_create : perm_fun := allow_mask PINT_CAP_CREATE.
Definition perm_mkdir : perm_fun := allow_mask PINT_CAP_CREATE.
Definition perm_lookup : perm_fun := allow_mask PINT_CAP_EXEC.
Definition perm_readdir : perm_fun := allow_mask PINT_CAP_READ.
Definition perm_remove : perm_fun := allow_mask PINT_CAP_REMOVE.
Definition perm_tree_remove : perm_fun := allow_mask PINT_CAP_REMOVE.
Definition perm_truncate : perm_fun := allow_mask PINT_CAP_WRITE.
Definition perm_unstuff : perm_fun := allow_mask PINT_CAP_WRITE.
Definition perm_job_timer : perm_fun := allow_mask PINT_CAP_ADMIN.
Definition perm_precreate_pool_refiller : perm_fun := λ _, Done (- PVFS_EINVAL).
Definition perm_copies : perm_fun := allow.
Definition perm_flush : perm_fun := allow.
Definition perm_getattr : perm_fun := allow.
Definition perm_getconfig : perm_fun := allow.
Definition perm_geteattr : perm_fun := allow.
Definition perm_iterate_handles : perm_fun := allow.
Definition perm_listattr : perm_fun := allow.
Definition perm_listeattr : perm_fun := allow.
Definition perm_mgmt_create_root_dir : perm_fun := allow.
Definition perm_mgmt_get_dirdata_handle : perm_fun := allow.
Definition perm_mgmt_get_dirent : perm_fun := allow.
Definition perm_mgmt_get_uid : perm_fun := allow.
Definition perm_mgmt_remove_dirent : perm_fun := allow.
Definition perm_mgmt_remove_object : perm_fun := allow.
Definition perm_mgmt_split_dirent : perm_fun := allow.
Definition perm_mirror : perm_fun := allow.
Definition perm_noop : perm_fun := allow.
Definition perm_perf_mon : perm_fun := allow.
Definition perm_perf_update : perm_fun := allow.
Definition perm_proto_error : perm_fun := allow.
Definition perm_setparam : perm_fun := allow.
Definition perm_statfs : perm_fun := allow.
Definition perm_tree_setattr : perm_fun := allow.
Definition perm_tree_get_file_size : perm_fun := allow.
Definition perm_tree_getattr : perm_fun := allow.

(** The mask that an I/O request needs; of neither type it is 0. *)
Definition io_mask (io_type : Z) : Z :=
  if io_type =? PVFS_IO_READ then PINT_CAP_READ
  else if io_type =? PVFS_IO_WRITE then PINT_CAP_WRITE else 0.

Definition perm_io : perm_fun := λ s_op,
  match req_u (s_req s_op) with
  | Rq_io x => allow_mask (io_mask (rq_io_io_type x)) s_op
  | _ => Fault BadAccess
  end.

Definition perm_small_io : perm_fun := λ s_op,
  match req_u (s_req s_op) with
  | Rq_small_io x => allow_mask (io_mask (rq_small_io_io_type x)) s_op
  | _ => Fault BadAccess
  end.

(** CREATE allows one object, BATCH_CREATE any number; so with REMOVE. *)
Definition perm_batch_create : perm_fun := λ s_op,
  match req_u (s_req s_op) with
  | Rq_batch_create x =>
      allow_if (has (s_mask s_op) PINT_CAP_BATCH_CREATE
                || (has (s_mask s_op) PINT_CAP_CREATE && (rq_batch_create_object_count x =? 1)))
  | _ => Fault BadAccess
  end.

Definition perm_batch_remove : perm_fun := λ s_op,
  match req_u (s_req s_op) with
  | Rq_batch_remove x =>
      allow_if (has (s_mask s_op) PINT_CAP_BATCH_REMOVE
                || (has (s_mask s_op) PINT_CAP_REMOVE && (rq_batch_remove_handle_count x =? 1)))
  | _ => Fault BadAccess
  end.

(** ** [perm_setattr] of set-attr.sm *)

Definition PVFS_ATTR_COMMON_ATIME : Z := 2 ^ 3.
Definition PVFS_ATTR_COMMON_CTIME : Z := 2 ^ 4.
Definition PVFS_ATTR_COMMON_MTIME : Z := 2 ^ 5.
Definition PVFS_ATTR_COMMON_TYPE : Z := 2 ^ 6.
Definition PVFS_ATTR_COMMON_ATIME_SET : Z := 2 ^ 7.
Definition PVFS_ATTR_COMMON_MTIME_SET : Z := 2 ^ 8.
Definition PVFS_ATTR_SYMLNK_ALL : Z := PVFS_ATTR_SYMLNK_TARGET.

Definition PERM_STATIC : Z := 16711680.   (* 0x00FF0000 *)
Definition PERM_SETATTR : Z := PINT_CAP_SETATTR.
Definition PERM_RWS : Z := Z.lor PINT_CAP_READ (Z.lor PINT_CAP_WRITE PINT_CAP_SETATTR).
Definition PERM_WS : Z := Z.lor PINT_CAP_WRITE PINT_CAP_SETATTR.

Definition perm_table : list (Z * Z) := [
  (PVFS_ATTR_COMMON_UID, PERM_SETATTR);
  (PVFS_ATTR_COMMON_GID, PERM_SETATTR);
  (PVFS_ATTR_COMMON_PERM, PERM_SETATTR);
  (PVFS_ATTR_META_DFILES, PERM_STATIC);
  (PVFS_ATTR_META_DIST, PERM_STATIC);
  (PVFS_ATTR_DISTDIR_ATTR, PERM_STATIC);
  (PVFS_ATTR_SYMLNK_ALL, PERM_SETATTR);
  (PVFS_ATTR_COMMON_ATIME, PERM_RWS);
  (PVFS_ATTR_COMMON_ATIME_SET, PERM_SETATTR);
  (PVFS_ATTR_COMMON_MTIME, PERM_WS);
  (PVFS_ATTR_COMMON_MTIME_SET, PERM_WS);
  (PVFS_ATTR_COMMON_CTIME, PERM_WS) ].

(** An attribute that is static is only reported. *)
Definition perm_entry (op_mask req_mask : Z) (e : Z * Z) : bool :=
  negb (has req_mask e.1) || (e.2 =? PERM_STATIC) || has op_mask e.2.

(** The checks of a change of ownership without admin rights. *)
Definition perm_owner (attr : server_attr) (req_attr : attr_header) (cred : PVFS_credential)
    : exec Z :=
  '(uid, group_array) ← PINT_map_credential cred;
  if negb (ah_owner (sa_header attr) =? uid) then Done (- PVFS_EPERM) else
  if has (ah_mask req_attr) PVFS_ATTR_COMMON_UID && negb (uid =? ah_owner req_attr)
  then Done (- PVFS_EPERM) else
  if has (ah_mask req_attr) PVFS_ATTR_COMMON_GID
     && negb (ah_group (sa_header attr) =? ah_group req_attr)
     && negb (in_groups (ah_group req_attr) group_array)
  then Done (- PVFS_EPERM) else Done 0.

Definition perm_setattr : perm_fun := λ s_op,
  match req_u (s_req s_op) with
  | Rq_setattr x =>
      let attr := s_attr s_op in
      let req_attr := at_header (rq_setattr_attr x) in
      (* attrs may always be set for a file with uninitialized metadata *)
      if (sa_dfile_count attr =? 0) && negb (sa_dist attr) && (ah_owner (sa_header attr) =? 0)
      then Done 0 else
      if negb (forallb (perm_entry (s_mask s_op) (ah_mask req_attr)) perm_table)
      then Done (- PVFS_EACCES) else
      if has (ah_mask req_attr) (Z.lor PVFS_ATTR_COMMON_UID PVFS_ATTR_COMMON_GID)
         && negb (has (s_mask s_op) PINT_CAP_ADMIN)
      then perm_owner attr req_attr (rq_setattr_credential x)
      else Done 0
  | _ => Fault BadAccess
  end.

(** * Object references and credentials *)

Definition object_ref_fun : Type := servreq → exec (Z * Z).

(** PINT_GET_OBJECT_REF_DEFINE, and the functions that are written out: a
    request without a handle of its own has PVFS_HANDLE_NULL. *)
Definition get_object_ref (u : servreq) : exec (Z * Z) :=
  match u with
  | Rq_atomiceattr x => Done (rq_atomiceattr_fs_id x, rq_atomiceattr_handle x)
  | Rq_chdirent x => Done (rq_chdirent_fs_id x, rq_chdirent_handle x)
  | Rq_deleattr x => Done (rq_deleattr_fs_id x, rq_deleattr_handle x)
  | Rq_flush x => Done (rq_flush_fs_id x, rq_flush_handle x)
  | Rq_getattr x => Done (rq_getattr_fs_id x, rq_getattr_handle x)
  | Rq_geteattr x => Done (rq_geteattr_fs_id x, rq_geteattr_handle x)
  | Rq_io x => Done (rq_io_fs_id x, rq_io_handle x)
  | Rq_listeattr x => Done (rq_listeattr_fs_id x, rq_listeattr_handle x)
  | Rq_lookup_path x => Done (rq_lookup_path_fs_id x, rq_lookup_path_handle x)
  | Rq_mgmt_create_root_dir x =>
      Done (rq_mgmt_create_root_dir_fs_id x, rq_mgmt_create_root_dir_handle x)
  | Rq_mgmt_get_dirdata_handle x =>
      Done (rq_mgmt_get_dirdata_handle_fs_id x, rq_mgmt_get_dirdata_handle_handle x)
  | Rq_mgmt_get_dirent x => Done (rq_mgmt_get_dirent_fs_id x, rq_mgmt_get_dirent_handle x)
  | Rq_mgmt_remove_dirent x =>
      Done (rq_mgmt_remove_dirent_fs_id x, rq_mgmt_remove_dirent_handle x)
  | Rq_mgmt_remove_object x =>
      Done (rq_mgmt_remove_object_fs_id x, rq_mgmt_remove_object_handle x)
  | Rq_readdir x => Done (rq_readdir_fs_id x, rq_readdir_handle x)
  | Rq_remove x => Done (rq_remove_fs_id x, rq_remove_handle x)
  | Rq_rmdirent x => Done (rq_rmdirent_fs_id x, rq_rmdirent_handle x)
  | Rq_setattr x => Done (rq_setattr_fs_id x, rq_setattr_handle x)
  | Rq_seteattr x => Done (rq_seteattr_fs_id x, rq_seteattr_handle x)
  | Rq_small_io x => Done (rq_small_io_fs_id x, rq_small_io_handle x)
  | Rq_truncate x => Done (rq_truncate_fs_id x, rq_truncate_handle x)
  | Rq_unstuff x => Done (rq_unstuff_fs_id x, rq_unstuff_handle x)
  | Rq_crdirent x => Done (rq_crdirent_fs_id x, rq_crdirent_dirent_handle x)
  | Rq_mgmt_split_dirent x =>
      Done (rq_mgmt_split_dirent_fs_id x, rq_mgmt_split_dirent_dest_dirent_handle x)
  | Rq_mirror x => Done (rq_mirror_fs_id x, rq_mirror_src_handle x)
  | Rq_create x => Done (rq_create_fs_id x, PVFS_HANDLE_NULL)
  | Rq_mgmt_iterate_handles x => Done (rq_mgmt_iterate_handles_fs_id x, PVFS_HANDLE_NULL)
  | Rq_listattr x => Done (rq_listattr_fs_id x, PVFS_HANDLE_NULL)
  | Rq_mkdir x => Done (rq_mkdir_fs_id x, PVFS_HANDLE_NULL)
  | Rq_mgmt_setparam x => Done (rq_mgmt_setparam_fs_id x, PVFS_HANDLE_NULL)
  | Rq_statfs x => Done (rq_statfs_fs_id x, PVFS_HANDLE_NULL)
  | Rq_tree_remove x => Done (rq_tree_remove_fs_id x, PVFS_HANDLE_NULL)
  | Rq_tree_get_file_size x => Done (rq_tree_get_file_size_fs_id x, PVFS_HANDLE_NULL)
  | Rq_tree_getattr x => Done (rq_tree_getattr_fs_id x, PVFS_HANDLE_NULL)
  | Rq_tree_setattr x =>
      (* handle_array[0] *)
      match rq_tree_setattr_handle_array x with
      | h :: _ => Done (rq_tree_setattr_fs_id x, h)
      | [] => Fault BadAccess
      end
  | _ => Fault BadAccess
  end.

(** The object reference of immutable copies is that of a seteattr request;
    a request of this operation that comes from a client has no body, and
    the memory it is decoded into is zero. *)
Definition get_object_ref_copies (u : servreq) : exec (Z * Z) :=
  match u with
  | Rq_seteattr x => Done (rq_seteattr_fs_id x, rq_seteattr_handle x)
  | Rq_none _ => Done (0, 0)
  | _ => Fault BadAccess
  end.

(** PINT_GET_CREDENTIAL_DEFINE. *)
Definition get_credential (u : servreq) : exec PVFS_credential :=
  match u with
  | Rq_create x => Done (rq_create_credential x)
  | Rq_getattr x => Done (rq_getattr_credential x)
  | Rq_lookup_path x => Done (rq_lookup_path_credential x)
  | Rq_mkdir x => Done (rq_mkdir_credential x)
  | Rq_setattr x => Done (rq_setattr_credential x)
  | Rq_tree_setattr x => Done (rq_tree_setattr_credential x)
  | Rq_tree_remove x => Done (rq_tree_remove_credential x)
  | Rq_unstuff x => Done (rq_unstuff_credential x)
  | _ => Fault BadAccess
  end.

(** * Types of access *)

Definition access_fun : Type := servreq → exec PINT_server_req_access_type.

Definition PINT_server_req_readonly : access_fun := λ _, Done PINT_SERVER_REQ_READONLY.
Definition PINT_server_req_modify : access_fun := λ _, Done PINT_SERVER_REQ_MODIFY.

Definition io_access (io_type : Z) : PINT_server_req_access_type :=
  if io_type =? PVFS_IO_READ then PINT_SERVER_REQ_READONLY else PINT_SERVER_REQ_MODIFY.

Definition PINT_server_req_access_io : access_fun := λ u,
  match u with Rq_io x => Done (io_access (rq_io_io_type x)) | _ => Fault BadAccess end.

(** This one reads [u.io.io_type], which lies where [u.small_io.io_type]
    does. *)
Definition PINT_server_req_access_small_io : access_fun := λ u,
  match u with
  | Rq_small_io x => Done (io_access (rq_small_io_io_type x))
  | _ => Fault BadAccess
  end.

(** * The table *)

Record PINT_server_req_params := mk_params {
  pm_perm : perm_fun;
  pm_access_type : option access_fun;
  pm_sched_policy : PINT_server_sched_policy;
  pm_get_object_ref : option object_ref_fun;
  pm_get_credential : bool;
}.

#[local] Abbreviation ro := (Some PINT_server_req_readonly).
#[local] Abbreviation rw := (Some PINT_server_req_modify).
#[local] Abbreviation sched := PINT_SERVER_REQ_SCHEDULE.
#[local] Abbreviation bypass := PINT_SERVER_REQ_BYPASS.
#[local] Abbreviation obj := (Some get_object_ref).

Definition PINT_server_req_params_table : list (option PINT_server_req_params) := [
  (* 0 *) None;
  (* 1: create *) Some (mk_params perm_create rw bypass obj true);
  (* 2: remove *) Some (mk_params perm_remove rw sched obj false);
  (* 3: io *) Some (mk_params perm_io (Some PINT_server_req_access_io) sched obj false);
  (* 4: get_attr *) Some (mk_params perm_getattr ro sched obj true);
  (* 5: set_attr *) Some (mk_params perm_setattr rw sched obj true);
  (* 6: lookup *) Some (mk_params perm_lookup None sched obj true);
  (* 7: crdirent *) Some (mk_params perm_crdirent rw sched obj false);
  (* 8: rmdirent *) Some (mk_params perm_rmdirent rw sched obj false);
  (* 9: chdirent *) Some (mk_params perm_chdirent rw sched obj false);
  (* 10: truncate *) Some (mk_params perm_truncate rw sched obj false);
  (* 11: mkdir *) Some (mk_params perm_mkdir rw bypass obj true);
  (* 12: readdir *) Some (mk_params perm_readdir None bypass obj false);
  (* 13: get_config *) Some (mk_params perm_getconfig None bypass None false);
  (* 14: write_completion *) None;
  (* 15: flush *) Some (mk_params perm_flush rw sched obj false);
  (* 16: mgmt_setparam *) Some (mk_params perm_setparam rw bypass obj false);
  (* 17: mgmt_noop *) Some (mk_params perm_noop ro bypass None false);
  (* 18: statfs *) Some (mk_params perm_statfs None sched obj false);
  (* 19: perf_update *) Some (mk_params perm_perf_update None bypass None false);
  (* 20: mgmt_perf_mon *) Some (mk_params perm_perf_mon None bypass None false);
  (* 21: mgmt_iterate_handles *) Some (mk_params perm_iterate_handles None bypass obj false);
  (* 22: mgmt_dspace_info_list *) None;
  (* 23: mgmt_event_mon *) None;
  (* 24: mgmt_remove_object *) Some (mk_params perm_mgmt_remove_object rw sched obj false);
  (* 25: mgmt_remove_dirent *) Some (mk_params perm_mgmt_remove_dirent rw sched obj false);
  (* 26: mgmt_get_dirdata_handle *)
    Some (mk_params perm_mgmt_get_dirdata_handle None sched obj false);
  (* 27: job_timer *) Some (mk_params perm_job_timer None bypass None false);
  (* 28: proto_error *) Some (mk_params perm_proto_error None bypass None false);
  (* 29: get_eattr *) Some (mk_params perm_geteattr None sched obj false);
  (* 30: set_eattr *) Some (mk_params perm_seteattr rw sched obj false);
  (* 31: del_eattr *) Some (mk_params perm_deleattr rw sched obj false);
  (* 32: list_eattr *) Some (mk_params perm_listeattr None sched obj false);
  (* 33: small_io *)
    Some (mk_params perm_small_io (Some PINT_server_req_access_small_io) sched obj false);
  (* 34: list_attr *) Some (mk_params perm_listattr ro sched obj false);
  (* 35: batch_create *) Some (mk_params perm_batch_create rw bypass None false);
  (* 36: batch_remove *) Some (mk_params perm_batch_remove rw bypass None false);
  (* 37: precreate_pool_refiller *)
    Some (mk_params perm_precreate_pool_refiller None bypass None false);
  (* 38: unstuff *) Some (mk_params perm_unstuff rw sched obj true);
  (* 39: mirror *) Some (mk_params perm_mirror rw sched obj false);
  (* 40: imm_copies *)
    Some (mk_params perm_copies rw sched (Some get_object_ref_copies) false);
  (* 41: tree_remove *) Some (mk_params perm_tree_remove rw bypass obj true);
  (* 42: tree_get_file_size *) Some (mk_params perm_tree_get_file_size ro bypass obj false);
  (* 43: mgmt_get_uid *) Some (mk_params perm_mgmt_get_uid None bypass None false);
  (* 44: tree_setattr *) Some (mk_params perm_tree_setattr rw bypass obj true);
  (* 45: mgmt_get_dirent *) Some (mk_params perm_mgmt_get_dirent ro sched obj false);
  (* 46: mgmt_create_root_dir *) Some (mk_params perm_mgmt_create_root_dir rw sched obj false);
  (* 47: mgmt_split_dirent *) Some (mk_params perm_mgmt_split_dirent rw sched obj false);
  (* 48: atomic_eattr *) Some (mk_params perm_atomiceattr rw sched obj false);
  (* 49: tree_getattr *) Some (mk_params perm_tree_getattr ro bypass obj false);
  (* 50: mgmt_get_user_cert *) None;
  (* 51: mgmt_get_user_cert_keyreq *) None ].

(** [PINT_server_req_table[req->op].params], which is not tested for NULL
    before it is used. *)
Definition req_params (op : Z) : exec PINT_server_req_params :=
  if decide (0 ≤ op) then
    match PINT_server_req_params_table !! Z.to_nat op with
    | Some (Some p) => Done p
    | _ => Fault BadAccess
    end
  else Fault BadAccess.

Definition PINT_server_req_get_perm_fun (req : PVFS_server_req) : exec perm_fun :=
  p ← req_params (req_op (req_u req));
  Done (pm_perm p).

Definition PINT_server_req_get_access_type (req : PVFS_server_req)
    : exec PINT_server_req_access_type :=
  p ← req_params (req_op (req_u req));
  match pm_access_type p with
  | Some f => f (req_u req)
  | None => Done PINT_SERVER_REQ_READONLY
  end.

Definition PINT_server_req_get_sched_policy (req : PVFS_server_req)
    : exec PINT_server_sched_policy :=
  p ← req_params (req_op (req_u req));
  Done (pm_sched_policy p).

Definition PINT_server_req_get_object_ref (req : PVFS_server_req) : exec (Z * Z) :=
  p ← req_params (req_op (req_u req));
  match pm_get_object_ref p with
  | Some f => f (req_u req)
  | None => Done (0, 0)
  end.

Definition PINT_server_req_get_credential (req : PVFS_server_req)
    : exec (option PVFS_credential) :=
  p ← req_params (req_op (req_u req));
  if pm_get_credential p then cred ← get_credential (req_u req); Done (Some cred)
  else Done None.

(** * [PINT_perm_check] of check.c *)

(** [strcmp] with a constant: whether the strings differ. *)
Definition strcmp (buffer s : list Z) : bool := negb (bool_decide (until_nul buffer = s)).

Definition is_dir_hint_key (key : list Z) : bool :=
  strcmp key (zs "user.pvfs2.num_dfiles") || strcmp key (zs "user.pvfs2.dist_name")
  || strcmp key (zs "user.pvfs2.dist_params").

(** The loop over [key[i]], [n] keys. *)
Fixpoint dir_hint_loop (keys : list PVFS_ds_keyval) (n : nat) : exec bool :=
  match n, keys with
  | O, _ => Done true
  | S n, key :: keys =>
      if is_dir_hint_key (kv_buffer key) then Done false else dir_hint_loop keys n
  | S _, [] => Fault BadAccess
  end.

Definition check_seteattr_dir_hint (x : PVFS_servreq_seteattr) : exec bool :=
  if rq_seteattr_nkey x =? 0 then Done false
  else dir_hint_loop (rq_seteattr_key x) (Z.to_nat (rq_seteattr_nkey x)).

(** PINT_HINT_GET_HANDLE reads eight bytes. *)
Definition PINT_HINT_GET_HANDLE (hints : list PINT_hint) : exec Z :=
  match PINT_hint_get_value_by_type hints PINT_HINT_HANDLE with
  | Some v => bs ← peek v 0 8; Done (little_endian_to_Z 8 bs)
  | None => Done 0
  end.

(** The operations whose capability is for another object than the target:
    its handle is that of the hint. *)
Definition handle_from_hint (u : servreq) : exec bool :=
  match u with
  | Rq_remove _ | Rq_tree_remove _ | Rq_small_io _ | Rq_io _ => Done true
  | Rq_seteattr x => check_seteattr_dir_hint x
  | _ => Done false
  end.

Definition PINT_perm_check (s_op : PINT_server_op) : exec Z :=
  let cap := req_capability (s_req s_op) in
  perm_fun ← PINT_server_req_get_perm_fun (s_req s_op);
  null ← PINT_capability_is_null cap;
  (* do not check handles for null caps *)
  if (null : bool) then perm_fun s_op else
  hint ← handle_from_hint (req_u (s_req s_op));
  handle ← (if (hint : bool) then PINT_HINT_GET_HANDLE (req_hints (s_req s_op))
            else Done (s_target_handle s_op));
  if hint && (handle =? PVFS_HANDLE_NULL) then Done (- PVFS_EINVAL) else
  if handle =? PVFS_HANDLE_NULL then perm_fun s_op else
  (* ensure we have a capability for the target handle *)
  handles ← copy_array (cap_handle_array cap) (cap_num_handles cap);
  if existsb (Z.eqb handle) handles then perm_fun s_op else Done (- PVFS_EACCES).

(** * Specification *)

(** The operations that any client may perform: their permission functions
    allow everything. *)
Definition open_operations : list Z := [
  PVFS_SERV_GETATTR; PVFS_SERV_GETCONFIG; PVFS_SERV_FLUSH; PVFS_SERV_MGMT_SETPARAM;
  PVFS_SERV_MGMT_NOOP; PVFS_SERV_STATFS; PVFS_SERV_PERF_UPDATE; PVFS_SERV_MGMT_PERF_MON;
  PVFS_SERV_MGMT_ITERATE_HANDLES; PVFS_SERV_MGMT_REMOVE_OBJECT; PVFS_SERV_MGMT_REMOVE_DIRENT;
  PVFS_SERV_MGMT_GET_DIRDATA_HANDLE; PVFS_SERV_PROTO_ERROR; PVFS_SERV_GETEATTR;
  PVFS_SERV_LISTEATTR; PVFS_SERV_LISTATTR; PVFS_SERV_MIRROR; PVFS_SERV_IMM_COPIES;
  PVFS_SERV_TREE_GET_FILE_SIZE; PVFS_SERV_MGMT_GET_UID; PVFS_SERV_TREE_SETATTR;
  PVFS_SERV_MGMT_GET_DIRENT; PVFS_SERV_MGMT_CREATE_ROOT_DIR; PVFS_SERV_MGMT_SPLIT_DIRENT;
  PVFS_SERV_TREE_GETATTR ].

(** Stored metadata that counts as not yet initialised. *)
Definition uninitialized (attr : server_attr) : bool :=
  (sa_dfile_count attr =? 0) && negb (sa_dist attr) && (ah_owner (sa_header attr) =? 0).

(** Setting attributes that need no permission, or on such an object. *)
Definition open_setattr (s_op : PINT_server_op) : bool :=
  match req_u (s_req s_op) with
  | Rq_setattr x =>
      uninitialized (s_attr s_op)
      || forallb (perm_entry 0 (ah_mask (at_header (rq_setattr_attr x)))) perm_table
  | _ => false
  end.

Definition set_target (fs_id handle : Z) (s_op : PINT_server_op) : PINT_server_op :=
  mk_server_op (s_req s_op) (s_addr s_op) fs_id handle (s_access_type s_op)
    (s_sched_policy s_op) (s_ds_attr s_op) (s_attr s_op) (s_perm_check_done s_op).

(** * Proofs *)

Lemma has_0_l mask : has 0 mask = false.
Proof. done. Qed.

Lemma allow_if_0 b : allow_if b = Done 0 ↔ b = true.
Proof. unfold allow_if. by destruct b. Qed.

Lemma null_capability_mask cap : PINT_capability_is_null cap = Done true → cap_op_mask cap = 0.
Proof.
  unfold PINT_capability_is_null. destruct (cap_issuer cap); [|done].
  intros H%Done_inj. apply andb_true_iff in H as [_ H]. by apply Z.eqb_eq in H.
Qed.

Lemma owner_bits_guarded m :
  forallb (perm_entry 0 m) perm_table = true →
  has m (Z.lor PVFS_ATTR_COMMON_UID PVFS_ATTR_COMMON_GID) = false.
Proof.
  unfold perm_table. cbn [forallb]. unfold perm_entry. cbn [fst snd].
  rewrite !has_0_l. rewrite !andb_true_iff. intros (Hu & Hg & _).
  rewrite orb_false_r in Hu, Hg.
  apply orb_true_iff in Hu as [Hu|Hu]; [|done]. apply orb_true_iff in Hg as [Hg|Hg]; [|done].
  unfold has in *. rewrite Z.land_lor_distr_r.
  apply negb_true_iff, negb_false_iff, Z.eqb_eq in Hu, Hg. by rewrite Hu, Hg.
Qed.

Lemma perm_setattr_null s_op x :
  req_u (s_req s_op) = Rq_setattr x → s_mask s_op = 0 →
  perm_setattr s_op = Done 0 ↔ open_setattr s_op = true.
Proof.
  intros Hx Hm. unfold perm_setattr, open_setattr. rewrite Hx, Hm.
  change ((sa_dfile_count (s_attr s_op) =? 0) && negb (sa_dist (s_attr s_op))
    && (ah_owner (sa_header (s_attr s_op)) =? 0)) with (uninitialized (s_attr s_op)).
  destruct (uninitialized (s_attr s_op)); [done|]. cbn [orb].
  destruct (forallb _ perm_table) eqn:Hp; simpl negb; cbv iota; [|done].
  by rewrite (owner_bits_guarded _ Hp).
Qed.

(** A request without a member: its operation is one of the table. *)
Lemma table_null n p s_op :
  PINT_server_req_params_table !! n = Some (Some p) → s_mask s_op = 0 →
  req_u (s_req s_op) = Rq_none (Z.of_nat n) →
  pm_perm p s_op = Done 0 ↔ bool_decide (Z.of_nat n ∈ open_operations) = true.
Proof.
  intros Hn Hm Hu. unfold PINT_server_req_params_table in Hn.
  do 52 (destruct n as [|n]; [simpl in Hn; first [discriminate Hn | injection Hn as <-];
    cbn [pm_perm];
    unfold perm_chdirent, perm_crdirent, perm_rmdirent, perm_io, perm_small_io,
      perm_batch_create, perm_batch_remove, perm_setattr; rewrite ?Hu;
    try (unfold perm_deleattr, perm_seteattr, perm_atomiceattr, perm_create, perm_mkdir,
      perm_lookup, perm_readdir, perm_remove, perm_tree_remove, perm_truncate, perm_unstuff,
      perm_job_timer, allow_mask; rewrite ?Hm); by vm_compute|]).
  done.
Qed.

(** What the null capability, which everybody has, gives access to: the
    operations whose permission function allows everything, and setattr where
    it asks for nothing - among them removing an object or a directory entry,
    splitting a directory, mirroring, and changing the server's parameters. *)
Theorem null_capability_allows s_op p :
  PINT_capability_is_null (req_capability (s_req s_op)) = Done true →
  req_params (req_op (req_u (s_req s_op))) = Done p →
  PINT_perm_check s_op = Done 0 ↔
  bool_decide (req_op (req_u (s_req s_op)) ∈ open_operations) || open_setattr s_op = true.
Proof.
  intros Hnull Hp. pose proof (null_capability_mask _ Hnull) as Hm.
  change (s_mask s_op = 0) in Hm. unfold PINT_perm_check, PINT_server_req_get_perm_fun.
  rewrite Hp. cbn [mbind exec_bind]. rewrite Hnull. cbn [mbind exec_bind].
  destruct (req_u (s_req s_op)) as [| | | | | | | | | | | | | |x| | | | | | | | | | | | | | | | |
    | | | | | | | | | | | |o] eqn:Hu.
  15: { apply Done_inj in Hp as <-. rewrite (perm_setattr_null s_op x Hu Hm).
    by destruct (open_setattr s_op). }
  43: { replace (open_setattr s_op) with false by (unfold open_setattr; by rewrite Hu).
    rewrite orb_false_r. unfold req_params in Hp. case_decide as Ho; [|done].
    cbn [req_op] in *. destruct (_ !! Z.to_nat o) as [[q|]|] eqn:Hq; [|done..].
    apply Done_inj in Hp as ->. rewrite <- (Z2Nat.id o Ho) in Hu |- *. by apply table_null. }
  all: first [apply Done_inj in Hp as <- | by exfalso; revert Hp; vm_compute]; cbn [pm_perm];
    replace (open_setattr s_op) with false by (unfold open_setattr; by rewrite Hu);
    unfold perm_chdirent, perm_crdirent, perm_rmdirent, perm_io, perm_small_io,
      perm_batch_create, perm_batch_remove, perm_deleattr, perm_seteattr, perm_atomiceattr,
      perm_create, perm_mkdir, perm_lookup, perm_readdir, perm_remove, perm_tree_remove,
      perm_truncate, perm_unstuff, perm_job_timer, allow_mask; rewrite ?Hu, ?Hm, ?has_0_l;
    by vm_compute.
Qed.

(** The handle a capability has to name; [None] if none is looked for. *)
Definition required_handle (s_op : PINT_server_op) : exec (option Z) :=
  hint ← handle_from_hint (req_u (s_req s_op));
  handle ← (if (hint : bool) then PINT_HINT_GET_HANDLE (req_hints (s_req s_op))
            else Done (s_target_handle s_op));
  Done (if negb hint && (handle =? PVFS_HANDLE_NULL) then None else Some handle).

Lemma copy_array_take l n l' : copy_array l n = Done l' → ∀ x, x ∈ l' → x ∈ l.
Proof.
  unfold copy_array. case_decide; [intros <-%Done_inj x Hx; by apply not_elem_of_nil in Hx|].
  case_decide; [|done]. intros <-%Done_inj x Hx. by eapply elem_of_take in Hx as (i & Hx & _);
    apply list_elem_of_lookup; eexists.
Qed.

Lemma existsb_eqb h l : existsb (Z.eqb h) l = true → h ∈ l.
Proof. intros (x & Hx & ->%Z.eqb_eq)%existsb_exists. by apply list_elem_of_In. Qed.

(** The search for a handle in the capability. *)
Lemma handle_search cap h (r : exec Z) :
  (handles ← copy_array (cap_handle_array cap) (cap_num_handles cap);
   if existsb (Z.eqb h) handles then r else Done (- PVFS_EACCES)) = Done 0 →
  r = Done 0 ∧ h ∈ cap_handle_array cap.
Proof.
  destruct (copy_array _ _) as [l|] eqn:Hl; cbn [mbind exec_bind]; [|done].
  destruct (existsb (Z.eqb h) l) eqn:He; [|done]. intros Hr. split; [done|].
  eapply copy_array_take; [done|]. by apply existsb_eqb.
Qed.

(** A capability that is not null is good for its own handles only: a
    request that passes is for a handle of the capability, or for none, and
    the permission function of the operation has accepted it. *)
Lemma perm_check_handle s_op :
  PINT_capability_is_null (req_capability (s_req s_op)) = Done false →
  PINT_perm_check s_op = Done 0 →
  ∃ perm h, PINT_server_req_get_perm_fun (s_req s_op) = Done perm ∧ perm s_op = Done 0 ∧
    required_handle s_op = Done h ∧
    match h with
    | Some h => h ≠ PVFS_HANDLE_NULL ∧ h ∈ cap_handle_array (req_capability (s_req s_op))
    | None => True
    end.
Proof.
  intros Hnull. unfold PINT_perm_check, required_handle.
  destruct (PINT_server_req_get_perm_fun _) as [perm|]; cbn [mbind exec_bind]; [|done].
  rewrite Hnull. cbn [mbind exec_bind].
  destruct (handle_from_hint _) as [hint|]; cbn [mbind exec_bind]; [|done].
  destruct (if hint then _ else _) as [h|]; cbn [mbind exec_bind]; [|done].
  destruct hint, (h =? PVFS_HANDLE_NULL) eqn:Hh; cbn [andb negb]; try done.
  2: { intros Hp. by exists perm, None. }
  all: apply Z.eqb_neq in Hh; intros [Hp Hin]%handle_search; by exists perm, (Some h).
Qed.

(** Nothing of the check looks at the target of an operation that has its
    handle from the hint, or at the file system of any. *)
Lemma perm_fun_target perm fs_id h s_op :
  PINT_server_req_get_perm_fun (s_req s_op) = Done perm →
  perm (set_target fs_id h s_op) = perm s_op.
Proof.
  unfold PINT_server_req_get_perm_fun, req_params. case_decide as Ho; [|done].
  destruct (PINT_server_req_params_table !! _) as [[p|]|] eqn:Hp; [|done..].
  cbn [mbind exec_bind]. intros <-%Done_inj. revert Hp. generalize (Z.to_nat (req_op (req_u (s_req s_op)))).
  intros n Hp. do 52 (destruct n as [|n];
    [simpl in Hp; first [discriminate Hp | injection Hp as <-]; reflexivity|]). done.
Qed.

(** C36. The capability that comes with a read, a write or a removal is not
    compared with the object that is read, written or removed: the check
    looks for the handle of the hint, which the client chooses, so that it
    has the same outcome whatever the target is. *)
Theorem target_handle_unchecked s_op fs_id h :
  handle_from_hint (req_u (s_req s_op)) = Done true →
  PINT_perm_check (set_target fs_id h s_op) = PINT_perm_check s_op.
Proof.
  intros Hh. unfold PINT_perm_check. cbn [s_req set_target].
  destruct (PINT_server_req_get_perm_fun _) as [perm|] eqn:Hp; cbn [mbind exec_bind]; [|done].
  rewrite (perm_fun_target perm fs_id h s_op Hp), Hh. cbn [mbind exec_bind]. done.
Qed.

(** Nor is the file system: a capability for handles of one file system
    is good for the objects with these handles of every other. *)
Theorem file_system_unchecked s_op fs_id :
  PINT_perm_check (set_target fs_id (s_target_handle s_op) s_op) = PINT_perm_check s_op.
Proof.
  unfold PINT_perm_check. cbn [s_req set_target s_target_handle].
  destruct (PINT_server_req_get_perm_fun _) as [perm|] eqn:Hp; cbn [mbind exec_bind]; [|done].
  by rewrite (perm_fun_target perm fs_id _ s_op Hp).
Qed.

Lemma is_dir_hint_key_true key : is_dir_hint_key key = true.
Proof.
  unfold is_dir_hint_key, strcmp.
  destruct (decide (until_nul key = zs "user.pvfs2.num_dfiles")) as [->|Hn].
  - reflexivity.
  - by rewrite bool_decide_eq_false_2.
Qed.

(** The test for hints on directories never succeeds for a request with
    keys, not even if all of them are the hints it looks for: a key cannot be
    equal to three different strings. *)
Theorem dir_hint_never x :
  0 ≤ rq_seteattr_nkey x → len (rq_seteattr_key x) = rq_seteattr_nkey x →
  check_seteattr_dir_hint x = Done false.
Proof.
  intros Hn Hl. unfold check_seteattr_dir_hint. destruct (_ =? 0) eqn:H0; [done|].
  apply Z.eqb_neq in H0. destruct (rq_seteattr_key x) as [|k keys]; [simpl in Hl; lia|].
  destruct (Z.to_nat (rq_seteattr_nkey x)) eqn:He; [lia|]. simpl.
  by rewrite is_dir_hint_key_true.
Qed.

Lemma perm_owner_ok attr req_attr cred :
  perm_owner attr req_attr cred = Done 0 →
  ah_owner (sa_header attr) = cred_userid cred ∧
  (has (ah_mask req_attr) PVFS_ATTR_COMMON_UID = true → ah_owner req_attr = cred_userid cred) ∧
  (has (ah_mask req_attr) PVFS_ATTR_COMMON_GID = true →
     ah_group req_attr = ah_group (sa_header attr) ∨ ah_group req_attr ∈ cred_group_array cred).
Proof.
  unfold perm_owner, PINT_map_credential.
  destruct (copy_array _ _) as [gs|] eqn:Hgs; cbn [mbind exec_bind]; [|done].
  case_decide; cbn [mbind exec_bind]; [|done].
  destruct (_ =? cred_userid cred) eqn:Ho; cbn [negb]; [|done]. apply Z.eqb_eq in Ho.
  destruct (has _ PVFS_ATTR_COMMON_UID && _) eqn:Hu; [done|].
  destruct (has _ PVFS_ATTR_COMMON_GID && _ && _) eqn:Hg; [done|]. intros _. split_and!; [done|..].
  - intros Hum. rewrite Hum in Hu. by apply negb_false_iff, Z.eqb_eq in Hu.
  - intros Hgm. rewrite Hgm in Hg. simpl in Hg.
    apply andb_false_iff in Hg as [Hg%negb_false_iff%Z.eqb_eq|Hg%negb_false_iff]; [by left|right].
    eapply copy_array_take; [done|]. by apply existsb_eqb.
Qed.

(** A bit of a mask is a reason to look at the mask. *)
Lemma has_lor m a b : has m (Z.lor a b) = has m a || has m b.
Proof.
  unfold has. rewrite Z.land_lor_distr_r. apply eq_true_iff_eq.
  rewrite orb_true_iff, !negb_true_iff, !Z.eqb_neq, Z.lor_eq_0_iff. lia.
Qed.

(** Changing the owner or the group: without admin rights, on an object
    whose metadata are initialised, a request that is permitted comes from
    the owner, leaves the owner as it is and sets a group that the owner is a
    member of or that the object has already. *)
Theorem chown_restricted s_op x :
  req_u (s_req s_op) = Rq_setattr x → perm_setattr s_op = Done 0 →
  uninitialized (s_attr s_op) = false → has (s_mask s_op) PINT_CAP_ADMIN = false →
  let req_attr := at_header (rq_setattr_attr x) in
  let attr := sa_header (s_attr s_op) in
  let cred := rq_setattr_credential x in
  (has (ah_mask req_attr) PVFS_ATTR_COMMON_UID = true →
     ah_owner req_attr = cred_userid cred ∧ ah_owner attr = cred_userid cred) ∧
  (has (ah_mask req_attr) PVFS_ATTR_COMMON_GID = true →
     ah_owner attr = cred_userid cred ∧
     (ah_group req_attr = ah_group attr ∨ ah_group req_attr ∈ cred_group_array cred)).
Proof.
  intros Hx. unfold perm_setattr. rewrite Hx.
  change ((sa_dfile_count (s_attr s_op) =? 0) && negb (sa_dist (s_attr s_op))
    && (ah_owner (sa_header (s_attr s_op)) =? 0)) with (uninitialized (s_attr s_op)).
  intros Hp Hun Hadm. rewrite Hun, Hadm in Hp. cbv zeta.
  destruct (negb (forallb _ perm_table)); [done|]. rewrite andb_true_r in Hp.
  set (m := ah_mask (at_header (rq_setattr_attr x))) in *.
  rewrite has_lor in Hp. split.
  - intros Hu. rewrite Hu in Hp. simpl in Hp. apply perm_owner_ok in Hp as (? & Hu' & _). auto.
  - intros Hg. rewrite Hg, orb_true_r in Hp. apply perm_owner_ok in Hp as (? & _ & Hg'). auto.
Qed.

(** Everybody may set every attribute of an object that belongs to root
    and has no data files: the test that is meant for metadata that are not
    initialised holds for it.  A directory is such an object. *)
Theorem root_objects_open s_op x :
  req_u (s_req s_op) = Rq_setattr x →
  ah_owner (sa_header (s_attr s_op)) = 0 → sa_dfile_count (s_attr s_op) = 0 →
  sa_dist (s_attr s_op) = false →
  PINT_capability_is_null (req_capability (s_req s_op)) = Done true →
  PINT_perm_check s_op = Done 0.
Proof.
  intros Hx Ho Hd Hdist Hnull. unfold PINT_perm_check, PINT_server_req_get_perm_fun.
  rewrite Hx. change (req_params _) with (Done (mk_params perm_setattr
    (Some PINT_server_req_modify) PINT_SERVER_REQ_SCHEDULE (Some get_object_ref) true)).
  cbn [mbind exec_bind]. rewrite Hnull. cbn [mbind exec_bind pm_perm].
  unfold perm_setattr. by rewrite Hx, Ho, Hd, Hdist.
Qed.

(** ** Witnesses *)

Definition sample_header (owner group perms mask : Z) : attr_header :=
  mk_attr_header_codec owner group perms 0 0 0 mask PVFS_TYPE_METAFILE.
Definition sample_object_attr (h : attr_header) : PVFS_object_attr :=
  mk_object_attr h None None None None None None None None None.
Definition sample_ds_attr : PVFS_ds_attributes := mk_ds_attributes 1 7 8 420 0 0 0 4 0.

(** A request on handle 5 of file system 9; the object belongs to [owner]. *)
Definition sample_op (cap : PVFS_capability) (hints : list PINT_hint) (u : servreq)
    (owner dfile_count : Z) : PINT_server_op :=
  mk_server_op (mk_server_req cap hints u) 1 9 5 PINT_SERVER_REQ_MODIFY PINT_SERVER_REQ_SCHEDULE
    sample_ds_attr (mk_server_attr (sample_header owner 8 420 7) dfile_count 0 false) false.

Definition sample_credential (uid : Z) (groups : list Z) : PVFS_credential :=
  mk_credential uid (len groups) groups (Some []) 1000 0 [] (mk_certificate 0 []).

Definition sample_setattr (uid : Z) (h : attr_header) : servreq :=
  Rq_setattr (mk_servreq_setattr 5 9 (sample_object_attr h) (sample_credential uid [8; 30])).

Definition remove_object : servreq := Rq_mgmt_remove_object (mk_servreq_mgmt_remove_object 5 9).
Definition truncate : servreq := Rq_truncate (mk_servreq_truncate 5 9 0 0).

Lemma null_capability_allows_witness :
  PINT_perm_check (sample_op PINT_null_capability [] remove_object 7 4) = Done 0 ∧
  PINT_perm_check (sample_op PINT_null_capability [] truncate 7 4) ≠ Done 0.
Proof.
  split.
  - by apply (null_capability_allows (sample_op PINT_null_capability [] remove_object 7 4)
      (mk_params perm_mgmt_remove_object (Some PINT_server_req_modify) PINT_SERVER_REQ_SCHEDULE
         (Some get_object_ref) false)).
  - intros H%(null_capability_allows (sample_op PINT_null_capability [] truncate 7 4)
      (mk_params perm_truncate (Some PINT_server_req_modify) PINT_SERVER_REQ_SCHEDULE
         (Some get_object_ref) false)); [by vm_compute in H|done..].
Defined.

Definition write_cap (handles : list Z) : PVFS_capability :=
  mk_capability (Some [83; 58; 97]) 9 1 [0] 1000 PINT_CAP_WRITE (len handles) handles.

Lemma perm_check_handle_witness :
  ∃ perm h, PINT_server_req_get_perm_fun (mk_server_req (write_cap [5]) [] truncate) = Done perm ∧
    required_handle (sample_op (write_cap [5]) [] truncate 7 4) = Done h ∧
    h = Some 5.
Proof.
  destruct (perm_check_handle (sample_op (write_cap [5]) [] truncate 7 4)) as (p & h & Hp & _ & Hh & _);
    [reflexivity..|]. exists p, h. split_and!; [exact Hp|exact Hh|].
  by apply Done_inj in Hh as <-.
Defined.

(** The hint names handle 5, which the capability is for. *)
Definition handle_hint : list PINT_hint :=
  [mkHint PINT_HINT_HANDLE None [5; 0; 0; 0; 0; 0; 0; 0] F_uint64_t PINT_HINT_TRANSFER].
Definition write_data (handle : Z) : servreq :=
  Rq_io (mk_servreq_io handle 9 PVFS_IO_WRITE 0 0 1
    (mkDist (zs "basic_dist") 16 0 P_basic M_basic) None 0 0).

(** The target is another object, 77. *)
Lemma target_handle_unchecked_witness :
  PINT_perm_check (set_target 9 77 (sample_op (write_cap [5]) handle_hint (write_data 77) 7 4))
  = Done 0.
Proof.
  etrans; [by apply (target_handle_unchecked
    (sample_op (write_cap [5]) handle_hint (write_data 77) 7 4) 9 77)|]. reflexivity.
Defined.

Lemma dir_hint_never_witness :
  check_seteattr_dir_hint (mk_servreq_seteattr 5 9 0 1
    [mkKeyval (zs "user.pvfs2.num_dfiles" ++ [0])%list 22] []) = Done false.
Proof. by apply dir_hint_never. Defined.

(** The owner, 7, gives the object to group 30. *)
Lemma chown_restricted_witness :
  let h := sample_header 7 30 420 (Z.lor PVFS_ATTR_COMMON_UID PVFS_ATTR_COMMON_GID) in
  let cap := mk_capability (Some [83]) 9 1 [0] 1000 PINT_CAP_SETATTR 1 [5] in
  ah_owner h = 7 ∧ (30 = 8 ∨ 30 ∈ [8; 30]).
Proof.
  pose proof (chown_restricted (sample_op
    (mk_capability (Some [83]) 9 1 [0] 1000 PINT_CAP_SETATTR 1 [5]) []
    (sample_setattr 7 (sample_header 7 30 420 (Z.lor PVFS_ATTR_COMMON_UID PVFS_ATTR_COMMON_GID)))
    7 4) _ eq_refl eq_refl eq_refl eq_refl) as [Hu Hg].
  split; [by apply Hu|by apply Hg].
Defined.

(** User 12 changes the owner of an object of root. *)
Lemma root_objects_open_witness :
  PINT_perm_check (sample_op PINT_null_capability []
    (sample_setattr 12 (sample_header 12 30 511 7)) 0 0) = Done 0.
Proof. by eapply root_objects_open. Defined.
