(* ===== verification/ServerPrelude.v ===== *)
(** The prelude of the server's state machines: the actions of
    src/src/server/prelude.sm, which every request goes through before its own
    machine does anything, and the action of get-attr.sm that issues
    capabilities.

    The model is that of a server built without ENABLE_SECURITY_CERT,
    ENABLE_CREDCACHE and ENABLE_CAPCACHE.  What the prelude calls of the
    security code is a record of operations, with two instances: the stubs
    and the keys of [Security].  [BMI_query_addr_range], which compares the
    address of a client with a pattern, and the storage are parameters.  An
    action gets and returns the error code of [js_p]. *)

From stdpp Require Import base tactics numbers list list_numbers.
From S2P Require Import Prelude Errors ServerOps ReqSched Wire WireTypes Hint WireReq LeBytefield.
From S2P Require Import Quickhash Security AccessCheck ServerParams.

(** * Exports (struct filesystem_configuration_s) *)

Definition TROVE_EXP_ROOT_SQUASH : Z := 1.
Definition TROVE_EXP_READ_ONLY : Z := 2.
Definition TROVE_EXP_ALL_SQUASH : Z := 4.

(** The hosts of an export option with their netmasks. *)
Definition host_list : Type := list (list Z * Z).

Record filesystem_configuration := mk_fs_config {
  exp_flags : Z;
  ro_hosts : host_list;
  root_squash_hosts : host_list;
  root_squash_exceptions : host_list;
  all_squash_hosts : host_list;
  exp_anon_uid : Z;
  exp_anon_gid : Z;
}.

(** * The security operations *)

Record security_ops := mk_security_ops {
  verify_credential : PVFS_credential → exec bool;
  sign_credential : PVFS_credential → exec (Z * PVFS_credential);
  verify_capability : PVFS_capability → exec bool;
}.

Definition stub_security (config : security_config) (now : Z) : security_ops :=
  mk_security_ops (Stubs.PINT_verify_credential config now) (Stubs.PINT_sign_credential config now)
    (Stubs.PINT_verify_capability config now).

Definition key_security {pubkey privkey : Type} (pub_is_rsa : pubkey → bool)
    (priv_is_rsa : privkey → bool) (pkey_size : privkey → Z)
    (EVP_sign : privkey → list Z → option (list Z))
    (EVP_verify : pubkey → list Z → list Z → bool) table security_privkey
    (alloc : nat → bool) (config : security_config) (now : Z) : security_ops :=
  mk_security_ops (Keys.PINT_verify_credential pub_is_rsa EVP_verify table config now)
    (Keys.PINT_sign_credential priv_is_rsa pkey_size EVP_sign security_privkey alloc config now)
    (Keys.PINT_verify_capability pub_is_rsa EVP_verify table config now).

(** * Updates of the request *)

Definition set_req (req : PVFS_server_req) (s_op : PINT_server_op) : PINT_server_op :=
  mk_server_op req (s_addr s_op) (s_target_fs_id s_op) (s_target_handle s_op)
    (s_access_type s_op) (s_sched_policy s_op) (s_ds_attr s_op) (s_attr s_op)
    (s_perm_check_done s_op).

Definition set_attr (attr : server_attr) (s_op : PINT_server_op) : PINT_server_op :=
  mk_server_op (s_req s_op) (s_addr s_op) (s_target_fs_id s_op) (s_target_handle s_op)
    (s_access_type s_op) (s_sched_policy s_op) (s_ds_attr s_op) attr (s_perm_check_done s_op).

Definition set_ds_attr (ds : PVFS_ds_attributes) (s_op : PINT_server_op) : PINT_server_op :=
  mk_server_op (s_req s_op) (s_addr s_op) (s_target_fs_id s_op) (s_target_handle s_op)
    (s_access_type s_op) (s_sched_policy s_op) ds (s_attr s_op) (s_perm_check_done s_op).

Definition set_owner (uid gid : Z) (attr : PVFS_object_attr) : PVFS_object_attr :=
  let h := at_header attr in
  mk_object_attr (mk_attr_header_codec uid gid (ah_perms h) (ah_atime h) (ah_mtime h) (ah_ctime h)
      (ah_mask h) (ah_objtype h))
    (at_capability attr) (at_stuffed_size attr) (at_dist attr) (at_dfiles attr) (at_mirror attr)
    (at_size attr) (at_sym attr) (at_distdir attr) (at_dir attr).

(** Stores the credential that [get_credential] points to. *)
Definition put_credential (cred : PVFS_credential) (u : servreq) : servreq :=
  match u with
  | Rq_create x => Rq_create (mk_servreq_create (rq_create_fs_id x) cred (rq_create_attr x)
                                (rq_create_num_dfiles_req x) (rq_create_layout x))
  | Rq_getattr x => Rq_getattr (mk_servreq_getattr (rq_getattr_handle x) (rq_getattr_fs_id x)
                                  (rq_getattr_attrmask x) cred)
  | Rq_lookup_path x =>
      Rq_lookup_path (mk_servreq_lookup_path (rq_lookup_path_path x) (rq_lookup_path_fs_id x)
                        (rq_lookup_path_handle x) (rq_lookup_path_attrmask x) cred)
  | Rq_mkdir x => Rq_mkdir (mk_servreq_mkdir (rq_mkdir_fs_id x) cred (rq_mkdir_attr x)
                              (rq_mkdir_handle_extent_array x)
                              (rq_mkdir_distr_dir_servers_initial x)
                              (rq_mkdir_distr_dir_servers_max x)
                              (rq_mkdir_distr_dir_split_size x) (rq_mkdir_layout x))
  | Rq_setattr x => Rq_setattr (mk_servreq_setattr (rq_setattr_handle x) (rq_setattr_fs_id x)
                                  (rq_setattr_attr x) cred)
  | Rq_tree_setattr x =>
      Rq_tree_setattr (mk_servreq_tree_setattr (rq_tree_setattr_fs_id x) cred
                         (rq_tree_setattr_objtype x) (rq_tree_setattr_attr x)
                         (rq_tree_setattr_caller_handle_index x)
                         (rq_tree_setattr_handle_count x) (rq_tree_setattr_handle_array x))
  | Rq_tree_remove x =>
      Rq_tree_remove (mk_servreq_tree_remove (rq_tree_remove_fs_id x) cred
                        (rq_tree_remove_caller_handle_index x) (rq_tree_remove_handle_count x)
                        (rq_tree_remove_handle_array x))
  | Rq_unstuff x => Rq_unstuff (mk_servreq_unstuff (rq_unstuff_handle x) (rq_unstuff_fs_id x)
                                  (rq_unstuff_attrmask x) cred)
  | u => u
  end.

(** The requests whose attributes have to name the translated user. *)
Definition put_owner (uid gid : Z) (u : servreq) : servreq :=
  match u with
  | Rq_setattr x => Rq_setattr (mk_servreq_setattr (rq_setattr_handle x) (rq_setattr_fs_id x)
                                  (set_owner uid gid (rq_setattr_attr x))
                                  (rq_setattr_credential x))
  | Rq_mkdir x => Rq_mkdir (mk_servreq_mkdir (rq_mkdir_fs_id x) (rq_mkdir_credential x)
                              (set_owner uid gid (rq_mkdir_attr x))
                              (rq_mkdir_handle_extent_array x)
                              (rq_mkdir_distr_dir_servers_initial x)
                              (rq_mkdir_distr_dir_servers_max x)
                              (rq_mkdir_distr_dir_split_size x) (rq_mkdir_layout x))
  | Rq_create x => Rq_create (mk_servreq_create (rq_create_fs_id x) (rq_create_credential x)
                                (set_owner uid gid (rq_create_attr x))
                                (rq_create_num_dfiles_req x) (rq_create_layout x))
  | u => u
  end.

Definition set_u (u : servreq) (req : PVFS_server_req) : PVFS_server_req :=
  mk_server_req (req_capability req) (req_hints req) u.

(** * The actions *)

Section prelude.
(** [BMI_query_addr_range(addr, host, netmask) == 1]. *)
Context (BMI_query_addr_range : Z → list Z → Z → bool).
(** [PINT_config_find_fs_id]. *)
Context (find_fs_id : Z → option filesystem_configuration).
Context (sec : security_ops) (now : Z).
(** What is on the stack where a group array has not been filled in. *)
Context (junk : Z).

Definition iterate_wildcards (hosts : host_list) (client_addr : Z) : bool :=
  existsb (λ h, BMI_query_addr_range client_addr h.1 h.2) hosts.

Definition iterate_all_squash_wildcards (fs : filesystem_configuration) (client_addr : Z) : bool :=
  iterate_wildcards (all_squash_hosts fs) client_addr.

(** Exceptions come first. *)
Definition iterate_root_squash_wildcards (fs : filesystem_configuration) (client_addr : Z)
    : bool :=
  if iterate_wildcards (root_squash_exceptions fs) client_addr then false
  else iterate_wildcards (root_squash_hosts fs) client_addr.

Definition iterate_ro_wildcards (fs : filesystem_configuration) (client_addr : Z) : bool :=
  iterate_wildcards (ro_hosts fs) client_addr.

(** The translated user and group, if there is a translation. *)
Definition translate_ids (fsid uid gid client_addr : Z) : option (Z * Z) :=
  match find_fs_id fsid with
  | None => None
  | Some fs =>
      if has (exp_flags fs) TROVE_EXP_ALL_SQUASH && iterate_all_squash_wildcards fs client_addr
      then Some (exp_anon_uid fs, exp_anon_gid fs)
      else if has (exp_flags fs) TROVE_EXP_ROOT_SQUASH && ((uid =? 0) || (gid =? 0))
              && iterate_root_squash_wildcards fs client_addr
      then Some (exp_anon_uid fs, exp_anon_gid fs)
      else None
  end.

(** Whether the operation is allowed. *)
Definition permit_operation (fsid : Z) (access_type : PINT_server_req_access_type)
    (client_addr : Z) : bool :=
  match access_type, find_fs_id fsid with
  | PINT_SERVER_REQ_READONLY, _ => true
  | _, None => true
  | _, Some fs =>
      negb (has (exp_flags fs) TROVE_EXP_READ_ONLY && iterate_ro_wildcards fs client_addr)
  end.

Definition prelude_setup (s_op : PINT_server_op) (error_code : Z) : exec (PINT_server_op * Z) :=
  '(fs_id, handle) ← PINT_server_req_get_object_ref (s_req s_op);
  access ← PINT_server_req_get_access_type (s_req s_op);
  policy ← PINT_server_req_get_sched_policy (s_req s_op);
  Done (mk_server_op (s_req s_op) (s_addr s_op) fs_id handle access policy (s_ds_attr s_op)
          (s_attr s_op) (s_perm_check_done s_op), error_code).

(** [PVFS_ds_attr_to_object_attr], and [attr.mask = PVFS_ATTR_COMMON_ALL]. *)
Definition PVFS_ATTR_COMMON_ALL : Z := 2 ^ 7 - 1.

Definition PVFS_ds_attr_to_object_attr (ds : PVFS_ds_attributes) (attr : server_attr)
    : server_attr :=
  mk_server_attr
    (mk_attr_header_codec (ds_uid ds) (ds_gid ds) (ds_mode ds) (ds_atime ds) (ds_mtime ds)
       (ds_ctime ds) PVFS_ATTR_COMMON_ALL (ds_type ds))
    (ds_dfile_count ds) (ds_dist_size ds) (sa_dist attr).

(** The credential in the name of the translated user, signed again. *)
Definition squash_credential (uid gid : Z) (cred : PVFS_credential)
    : exec (Z * PVFS_credential) :=
  match cred_group_array cred with
  | [] => Fault BadAccess
  | _ :: gs =>
      sign_credential sec
        (mk_credential uid 1 (gid :: gs) (cred_issuer cred) (cred_timeout cred)
           (cred_sig_size cred) [] (cred_certificate cred))
  end.

(** The part of [prelude_validate] for a request with a credential and a file
    system: the request it leaves, or an error. *)
Definition validate_ids (s_op : PINT_server_op) (cred : PVFS_credential)
    : exec (Z + PINT_server_op) :=
  '(uid, group_array) ← PINT_map_credential cred;
  match translate_ids (s_target_fs_id s_op) uid (default junk (head group_array)) (s_addr s_op)
  with
  | None => Done (inr s_op)
  | Some (uid', gid') =>
      '(ret, cred') ← squash_credential uid' gid' cred;
      if negb (ret =? 0) then Done (inl (- PVFS_ENOMEM)) else
      let u := put_owner uid' gid' (put_credential cred' (req_u (s_req s_op))) in
      Done (inr (set_req (set_u u (s_req s_op)) s_op))
  end.

(** The error for something that does not verify. *)
Definition expired (timeout : Z) : Z := if now >? timeout then - PVFS_EAGAIN else - PVFS_EPERM.

Definition PVFS_ERROR_CODE (e : Z) : Z := Z.land e (Z.lor 127 PVFS_ERROR_BIT).

(** The last part: the capability and the permissions. *)
Definition validate_capability (s_op : PINT_server_op) (error_code : Z)
    : exec (PINT_server_op * Z) :=
  let cap := req_capability (s_req s_op) in
  ok ← verify_capability sec cap;
  if negb ok then Done (s_op, expired (cap_timeout cap)) else
  ret ← PINT_perm_check s_op;
  (* anything else we treat as a real error *)
  if negb (error_code =? 0) then Done (s_op, - PVFS_ERROR_CODE (- error_code))
  else Done (s_op, ret).

Definition prelude_validate (s_op : PINT_server_op) (error_code : Z)
    : exec (PINT_server_op * Z) :=
  let s_op := set_attr (PVFS_ds_attr_to_object_attr (s_ds_attr s_op) (s_attr s_op)) s_op in
  if s_perm_check_done s_op then Done (s_op, error_code) else
  match cap_issuer (req_capability (s_req s_op)) with
  | None => Fault BadAccess                     (* PINT_debug_capability *)
  | Some _ =>
      if negb (s_target_fs_id s_op =? PVFS_FS_ID_NULL)
         && negb (permit_operation (s_target_fs_id s_op) (s_access_type s_op) (s_addr s_op))
      then Done (s_op, - PVFS_EROFS) else
      cred ← PINT_server_req_get_credential (s_req s_op);
      match cred with
      | None => validate_capability s_op error_code
      | Some cred =>
          ok ← verify_credential sec cred;
          if negb ok then Done (s_op, expired (cred_timeout cred)) else
          if s_target_fs_id s_op =? PVFS_FS_ID_NULL then validate_capability s_op error_code else
          r ← validate_ids s_op cred;
          match r with
          | inl e => Done (s_op, e)
          | inr s_op => validate_capability s_op error_code
          end
      end
  end.

(** [job_req_sched_post]: [Some] error code if the job completes at once. *)
Definition prelude_req_sched (alloc : option positive) (alloc' : bool) (uptr : Z)
    (s_op : PINT_server_op) (st : ReqSched.sched)
    : exec (option Z * option positive * ReqSched.sched) :=
  '(ret, id, st) ← PINT_req_sched_post alloc alloc' (req_op (req_u (s_req s_op)))
                     (s_target_handle s_op) (s_access_type s_op) (s_sched_policy s_op) uptr st;
  Done (if ret <? 0 then Some ret else if ret =? 1 then Some 0 else None, id, st).

(** [dspace_getattr] is what the storage answers: an error code and the
    attributes, which are zero if there is an error. *)
Definition prelude_getattr_if_needed (dspace_getattr : Z → Z → Z * PVFS_ds_attributes)
    (s_op : PINT_server_op) : PINT_server_op * Z :=
  if s_target_handle s_op =? PVFS_HANDLE_NULL then (s_op, 0) else
  let '(error_code, ds) := dspace_getattr (s_target_fs_id s_op) (s_target_handle s_op) in
  (set_ds_attr ds s_op, error_code).

(** The two nested machines: [pvfs2_prelude_sm] runs [setup] and jumps to
    [pvfs2_prelude_work_sm], whose first state goes on if it succeeds and
    returns otherwise, whose second goes on in any case.  [sched_status] is
    the status of a scheduler job that does not complete at once. *)
Definition prelude (dspace_getattr : Z → Z → Z * PVFS_ds_attributes) (sched_status : Z)
    (alloc : option positive) (alloc' : bool) (uptr : Z) (s_op : PINT_server_op)
    (st : ReqSched.sched) : exec (PINT_server_op * Z * ReqSched.sched) :=
  '(s_op, _) ← prelude_setup s_op 0;
  '(r, _, st) ← prelude_req_sched alloc alloc' uptr s_op st;
  let error_code := default sched_status r in
  if negb (error_code =? 0) then Done (s_op, error_code, st) else
  let '(s_op, error_code) := prelude_getattr_if_needed dspace_getattr s_op in
  '(s_op, error_code) ← prelude_validate s_op error_code;
  Done (s_op, error_code, st).

End prelude.

(** * Issuing capabilities: [getattr_create_capability] of get-attr.sm *)


(** The handles a capability is for: the object, the data files of a file,
    the directory data of a directory, as far as the attributes name them. *)
Definition capability_handles (handle : Z) (attr : PVFS_object_attr) : exec (list Z) :=
  let h := at_header attr in
  dfiles ← (if (ah_objtype h =? PVFS_TYPE_METAFILE) && has (ah_mask h) PVFS_ATTR_META_DFILES then
              match at_dfiles attr with
              | Some d => copy_array (md_dfile_array d) (md_dfile_count d)
              | None => Fault BadAccess
              end
            else Done []);
  dirdata ← (if (ah_objtype h =? PVFS_TYPE_DIRECTORY) && has (ah_mask h) PVFS_ATTR_DISTDIR_ATTR then
               match at_distdir attr with
               | Some d => copy_array (ddir_dirdata_handles d) (dd_num_servers (ddir_attr d))
               | None => Fault BadAccess
               end
             else Done []);
  Done (handle :: dfiles ++ dirdata).

(** [init] and [sign] are [PINT_init_capability] and [PINT_sign_capability].
    The error code of the state before says whether there is an ACL. *)
Definition getattr_create_capability (init : Z + PVFS_capability)
    (sign : PVFS_capability → exec (Z * PVFS_capability)) (config : security_config)
    (error_code : Z) (acl : list Z) (fs_id handle : Z) (cred : PVFS_credential)
    (resp_attr : PVFS_object_attr) : exec (Z * option PVFS_capability) :=
  let no_acl := error_code =? - TROVE_ENOENT in
  if negb no_acl && (error_code <? 0) then Done (error_code, None) else
  let acl_buf := if no_acl then None else Some acl in
  let acl_size := if no_acl then 0 else len acl in
  match init with
  | inl e => Done (e, None)
  | inr cap =>
      handles ← capability_handles handle resp_attr;
      '(uid, group_array) ← PINT_map_credential cred;
      '(ret, op_mask) ← PINT_get_capabilities acl_buf acl_size uid group_array
                          (at_header resp_attr);
      if ret <? 0 then Done (ret, None) else
      '(ret, cap) ← sign (mk_capability (Some (server_issuer config)) fs_id (cap_sig_size cap)
                            (cap_signature cap) (cap_timeout cap) op_mask (len handles) handles);
      if ret <? 0 then Done (- PVFS_EINVAL, None)
      else Done (if no_acl then 0 else error_code, Some cap)
  end.

(** * Specification *)

(** What the prelude relies on: signing a credential again does not change
    whose it is. *)
Class SecurityLaws (sec : security_ops) : Prop := {
  sign_identity c c' : sign_credential sec c = Done (0, c') →
    cred_userid c' = cred_userid c ∧ cred_num_groups c' = cred_num_groups c ∧
    cred_group_array c' = cred_group_array c;
}.

#[export] Instance stub_security_laws config now : SecurityLaws (stub_security config now).
Proof.
  constructor. intros c c'. simpl. unfold Stubs.PINT_sign_credential.
  destruct (cred_issuer c); [|done]. case_decide; [|done]. by intros [= <-].
Qed.

#[export] Instance key_security_laws {pubkey privkey : Type} (pub_is_rsa : pubkey → bool)
    (priv_is_rsa : privkey → bool) pkey_size EVP_sign EVP_verify table sk alloc config now :
  SecurityLaws (key_security pub_is_rsa priv_is_rsa pkey_size EVP_sign EVP_verify table sk alloc
    config now).
Proof.
  constructor. intros c c'. simpl. unfold Keys.PINT_sign_credential.
  destruct (_ && _); [done|]. destruct (negb (alloc 0%nat)); [done|].
  destruct (_ && _); [done|]. destruct (negb (priv_is_rsa sk)); [done|].
  destruct (credential_message _) as [m|]; cbn [mbind exec_bind]; [|done].
  destruct (EVP_sign sk m); [|done]. by intros [= <-].
Qed.

(** The attributes a request brings along, all requests that have some. *)
Definition request_attr (u : servreq) : option PVFS_object_attr :=
  match u with
  | Rq_setattr x => Some (rq_setattr_attr x)
  | Rq_mkdir x => Some (rq_mkdir_attr x)
  | Rq_create x => Some (rq_create_attr x)
  | Rq_tree_setattr x => Some (rq_tree_setattr_attr x)
  | _ => None
  end.

(** The users that an export makes anonymous: all users of the hosts of
    AllSquash, and root and its group on the hosts of RootSquash that are not
    excepted. *)
Definition squashed (BMI_query_addr_range : Z → list Z → Z → bool) (fs : filesystem_configuration)
    (uid gid client_addr : Z) : Prop :=
  let listed hosts := ∃ h, h ∈ hosts ∧ BMI_query_addr_range client_addr h.1 h.2 = true in
  (has (exp_flags fs) TROVE_EXP_ALL_SQUASH = true ∧ listed (all_squash_hosts fs)) ∨
  (has (exp_flags fs) TROVE_EXP_ROOT_SQUASH = true ∧ (uid = 0 ∨ gid = 0) ∧
   listed (root_squash_hosts fs) ∧ ¬ listed (root_squash_exceptions fs)).

(** * Proofs *)

Lemma get_put_credential u cred cred' uid gid :
  get_credential u = Done cred →
  get_credential (put_owner uid gid (put_credential cred' u)) = Done cred' ∧
  request_attr (put_owner uid gid (put_credential cred' u))
  = if decide (req_op u = PVFS_SERV_TREE_SETATTR) then request_attr u
    else set_owner uid gid <$> request_attr u.
Proof. by destruct u. Qed.

Section prelude_spec.
Context (BMI_query_addr_range : Z → list Z → Z → bool).
Context (find_fs_id : Z → option filesystem_configuration).
Context (sec : security_ops) (now junk : Z).

#[local] Abbreviation permit := (permit_operation BMI_query_addr_range find_fs_id).
#[local] Abbreviation translate := (translate_ids BMI_query_addr_range find_fs_id).
#[local] Abbreviation validate :=
  (prelude_validate BMI_query_addr_range find_fs_id sec now junk).

(** The error codes of the storage are PVFS errors. *)
Definition pvfs_error (e : Z) : Prop := e = 0 ∨ Z.testbit (- e) 30 = true.

Lemma error_code_ne e : pvfs_error e → e ≠ 0 → - PVFS_ERROR_CODE (- e) ≠ 0.
Proof.
  intros [?|Hb] He; [done|]. intros H0.
  assert (Z.testbit (PVFS_ERROR_CODE (- e)) 30 = true) as H1.
  { unfold PVFS_ERROR_CODE. by rewrite Z.land_spec, Hb. }
  replace (PVFS_ERROR_CODE (- e)) with 0 in H1 by lia. done.
Qed.

Lemma validate_capability_0 s_op ec s_op' :
  pvfs_error ec → validate_capability sec now s_op ec = Done (s_op', 0) →
  s_op' = s_op ∧ ec = 0 ∧ verify_capability sec (req_capability (s_req s_op)) = Done true ∧
  PINT_perm_check s_op = Done 0.
Proof.
  intros Hec. unfold validate_capability.
  destruct (verify_capability sec _) as [[]|]; cbn [mbind exec_bind negb]; [| |done].
  2: { unfold expired. intros H%Done_inj. by destruct (now >? _). }
  destruct (PINT_perm_check s_op) as [ret|]; cbn [mbind exec_bind]; [|done].
  destruct (ec =? 0) eqn:He; cbn [negb]; intros H%Done_inj.
  - apply Z.eqb_eq in He. by simplify_eq.
  - exfalso. injection H as _ H. apply Z.eqb_neq in He. by apply (error_code_ne ec Hec He).
Qed.

(** What [validate_ids] changes of a request, if it does. *)
Definition same_target (s s' : PINT_server_op) : Prop :=
  req_capability (s_req s') = req_capability (s_req s) ∧ req_hints (s_req s') = req_hints (s_req s) ∧
  s_target_fs_id s' = s_target_fs_id s ∧ s_target_handle s' = s_target_handle s ∧
  req_op (req_u (s_req s')) = req_op (req_u (s_req s)).

Lemma put_op uid gid cred u : req_op (put_owner uid gid (put_credential cred u)) = req_op u.
Proof. by destruct u. Qed.

Lemma validate_ids_inr s_op cred s_op' :
  validate_ids BMI_query_addr_range find_fs_id sec junk s_op cred = Done (inr s_op') →
  same_target s_op s_op'.
Proof.
  unfold validate_ids. destruct (PINT_map_credential cred) as [[uid gs]|]; cbn [mbind exec_bind]; [|done].
  destruct (translate _ _ _ _) as [[u g]|]; [|by intros [= <-]].
  destruct (squash_credential sec u g cred) as [[ret cred']|]; cbn [mbind exec_bind]; [|done].
  destruct (negb _); [done|]. intros [= <-]. unfold same_target. simpl.
  by rewrite put_op.
Qed.

Lemma validate_ids_inl s_op cred e :
  validate_ids BMI_query_addr_range find_fs_id sec junk s_op cred = Done (inl e) →
  e = - PVFS_ENOMEM.
Proof.
  unfold validate_ids. destruct (PINT_map_credential cred) as [[uid gs]|]; cbn [mbind exec_bind]; [|done].
  destruct (translate _ _ _ _) as [[u g]|]; [|done].
  destruct (squash_credential sec u g cred) as [[ret cred']|]; cbn [mbind exec_bind]; [|done].
  destruct (negb _); [by intros [= <-]|done].
Qed.

(** What has been established about a request that validation accepts. *)
Record validated (s_op s_op' : PINT_server_op) : Prop := mk_validated {
  v_export : s_target_fs_id s_op ≠ PVFS_FS_ID_NULL →
    permit (s_target_fs_id s_op) (s_access_type s_op) (s_addr s_op) = true;
  v_cred : ∀ cred, PINT_server_req_get_credential (s_req s_op) = Done (Some cred) →
    verify_credential sec cred = Done true;
  v_cap : verify_capability sec (req_capability (s_req s_op)) = Done true;
  v_perm : PINT_perm_check s_op' = Done 0;
  v_target : same_target s_op s_op';
}.

Lemma validate_0 s_op ec s_op' :
  pvfs_error ec → s_perm_check_done s_op = false →
  validate s_op ec = Done (s_op', 0) → ec = 0 ∧ validated s_op s_op'.
Proof.
  intros Hec Hdone. unfold prelude_validate. cbn [s_perm_check_done set_attr]. rewrite Hdone.
  set (s1 := set_attr _ s_op).
  destruct (cap_issuer _) as [issuer|]; [|done].
  destruct (negb _ && negb _) eqn:Hro; [by intros [= ?]|].
  assert (s_target_fs_id s_op ≠ PVFS_FS_ID_NULL →
    permit (s_target_fs_id s_op) (s_access_type s_op) (s_addr s_op) = true) as Hexp.
  { intros Hfs. apply Z.eqb_neq in Hfs. cbn [s_target_fs_id s1 set_attr] in Hro. rewrite Hfs in Hro.
    by apply negb_false_iff in Hro. }
  destruct (PINT_server_req_get_credential (s_req s1)) as [cred|] eqn:Hcred;
    cbn [mbind exec_bind]; [|done].
  destruct cred as [cred|].
  2: { intros (-> & -> & Hcap & Hperm)%validate_capability_0; [|done]. split; [done|].
    split; [done| |done..]. intros cred Hc. change (s_req s1) with (s_req s_op) in Hcred. congruence. }
  destruct (verify_credential sec cred) as [[]|] eqn:Hv; cbn [mbind exec_bind negb]; [| |done].
  2: { unfold expired. intros [= _ H]. by destruct (now >? _). }
  assert (∀ c, PINT_server_req_get_credential (s_req s_op) = Done (Some c) →
    verify_credential sec c = Done true) as Hc.
  { intros c Hc. change (s_req s1) with (s_req s_op) in Hcred. congruence. }
  destruct (s_target_fs_id s1 =? PVFS_FS_ID_NULL).
  - intros (-> & -> & Hcap & Hperm)%validate_capability_0; [|done]. by split; [done|split].
  - destruct (validate_ids _ _ _ _ _ _) as [[e|s2]|] eqn:Hids; cbn [mbind exec_bind]; [| |done].
    + apply validate_ids_inl in Hids as ->. by intros [= ?].
    + intros (-> & -> & Hcap & Hperm)%validate_capability_0; [|done].
      apply validate_ids_inr in Hids as Hsame. split; [done|].
      destruct Hsame as (Hcp & ? & ? & ? & ?). rewrite Hcp in Hcap. by split.
Qed.

Lemma prelude_setup_inv s_op ec s_op' ec' :
  prelude_setup s_op ec = Done (s_op', ec') →
  s_req s_op' = s_req s_op ∧ s_addr s_op' = s_addr s_op ∧
  s_perm_check_done s_op' = s_perm_check_done s_op ∧
  PINT_server_req_get_object_ref (s_req s_op)
    = Done (s_target_fs_id s_op', s_target_handle s_op') ∧
  PINT_server_req_get_access_type (s_req s_op) = Done (s_access_type s_op') ∧
  PINT_server_req_get_sched_policy (s_req s_op) = Done (s_sched_policy s_op').
Proof.
  unfold prelude_setup.
  destruct (PINT_server_req_get_object_ref _) as [[f h]|]; cbn [mbind exec_bind]; [|done].
  destruct (PINT_server_req_get_access_type _) as [a|]; cbn [mbind exec_bind]; [|done].
  destruct (PINT_server_req_get_sched_policy _) as [p|]; cbn [mbind exec_bind]; [|done].
  by intros [= <- <-].
Qed.

#[local] Abbreviation run :=
  (prelude BMI_query_addr_range find_fs_id sec now junk).

(** What a request has been checked for when the prelude lets it through
    to the machine of its operation: the file system is not exported
    read-only to the client if the operation modifies it, the credential of
    the request, if it has one, verifies, the capability verifies, the
    permission check accepts it for the target of the request, and the target
    exists. *)
Lemma prelude_accepts dspace_getattr sched_status alloc alloc' uptr s_op st s_op' st' :
  (∀ f h, pvfs_error (dspace_getattr f h).1) → s_perm_check_done s_op = false →
  run dspace_getattr sched_status alloc alloc' uptr s_op st = Done (s_op', 0, st') →
  ∃ fs_id h access,
    PINT_server_req_get_object_ref (s_req s_op) = Done (fs_id, h) ∧
    s_target_fs_id s_op' = fs_id ∧ s_target_handle s_op' = h ∧
    PINT_server_req_get_access_type (s_req s_op) = Done access ∧
    (fs_id ≠ PVFS_FS_ID_NULL → permit fs_id access (s_addr s_op) = true) ∧
    (∀ cred, PINT_server_req_get_credential (s_req s_op) = Done (Some cred) →
       verify_credential sec cred = Done true) ∧
    verify_capability sec (req_capability (s_req s_op)) = Done true ∧
    req_capability (s_req s_op') = req_capability (s_req s_op) ∧
    PINT_perm_check s_op' = Done 0 ∧
    (h ≠ PVFS_HANDLE_NULL → (dspace_getattr fs_id h).1 = 0).
Proof.
  intros Hds Hdone. unfold prelude.
  destruct (prelude_setup s_op 0) as [[s1 ec]|] eqn:Hsetup; cbn [mbind exec_bind]; [|done].
  apply prelude_setup_inv in Hsetup as (Hreq & Haddr & Hd & Href & Hacc & _).
  destruct (prelude_req_sched _ _ _ _ _) as [[[r id] st1]|]; cbn [mbind exec_bind]; [|done].
  destruct (default sched_status r =? 0) eqn:Hr; cbn [negb].
  2: { intros [= _ H _]. by apply Z.eqb_neq in Hr. }
  unfold prelude_getattr_if_needed.
  set (q := if s_target_handle s1 =? PVFS_HANDLE_NULL then _ else _).
  destruct q as [s2 ec2] eqn:Hq. subst q.
  destruct (validate s2 ec2) as [[s3 ec3]|] eqn:Hv; cbn [mbind exec_bind]; [|done].
  intros [= -> -> ->].
  assert (pvfs_error ec2 ∧ s_req s2 = s_req s1 ∧ s_addr s2 = s_addr s1 ∧
    s_perm_check_done s2 = s_perm_check_done s1 ∧ s_target_fs_id s2 = s_target_fs_id s1 ∧
    s_target_handle s2 = s_target_handle s1 ∧ s_access_type s2 = s_access_type s1 ∧
    (s_target_handle s1 ≠ PVFS_HANDLE_NULL →
       ec2 = (dspace_getattr (s_target_fs_id s1) (s_target_handle s1)).1))
    as (Hec & Hr2 & Ha2 & Hd2 & Hf2 & Hh2 & Hacc2 & Hds2).
  { destruct (_ =? PVFS_HANDLE_NULL) eqn:Hh.
    - injection Hq as <- <-. apply Z.eqb_eq in Hh. by split_and!; [left|..].
    - pose proof (Hds (s_target_fs_id s1) (s_target_handle s1)) as He.
      destruct (dspace_getattr _ _) as [e ds]. by injection Hq as <- <-. }
  apply validate_0 in Hv as [-> [Hexp Hcred Hcap Hperm (Hcp & _ & Hf & Hh & _)]];
    [|done|congruence].
  exists (s_target_fs_id s1), (s_target_handle s1), (s_access_type s1).
  rewrite Hr2, Hreq in *. rewrite Hf2 in *. rewrite Ha2, Haddr, Hacc2 in *.
  split_and!; try done; [congruence|..]. intros Hne. by rewrite <- Hds2.
Qed.

Lemma squash_credential_map `{!SecurityLaws sec} uid gid cred cred' :
  squash_credential sec uid gid cred = Done (0, cred') →
  PINT_map_credential cred' = Done (uid, [gid]).
Proof.
  unfold squash_credential. destruct (cred_group_array cred) as [|g gs]; [done|].
  intros (Hu & Hn & Hg)%sign_identity. simpl in *. unfold PINT_map_credential.
  rewrite Hu, Hn, Hg. unfold copy_array. rewrite decide_False, decide_True by (simpl; lia).
  done.
Qed.

Lemma wildcards_listed hosts client_addr :
  iterate_wildcards BMI_query_addr_range hosts client_addr = true ↔
  ∃ h, h ∈ hosts ∧ BMI_query_addr_range client_addr h.1 h.2 = true.
Proof.
  unfold iterate_wildcards. rewrite existsb_exists. split; intros (h & Hh & Hq); exists h;
    (split; [by apply list_elem_of_In|done]).
Qed.

Lemma squashed_wildcards fs uid gid client_addr :
  squashed BMI_query_addr_range fs uid gid client_addr ↔
  has (exp_flags fs) TROVE_EXP_ALL_SQUASH
    && iterate_wildcards BMI_query_addr_range (all_squash_hosts fs) client_addr
  || has (exp_flags fs) TROVE_EXP_ROOT_SQUASH && ((uid =? 0) || (gid =? 0))
    && iterate_wildcards BMI_query_addr_range (root_squash_hosts fs) client_addr
    && negb (iterate_wildcards BMI_query_addr_range (root_squash_exceptions fs) client_addr) = true.
Proof.
  unfold squashed. cbv zeta.
  rewrite <- !wildcards_listed, orb_true_iff, !andb_true_iff, orb_true_iff, negb_true_iff,
    !Z.eqb_eq, not_true_iff_false.
  clear find_fs_id sec now junk. tauto.
Qed.

(** [translate_ids] applies the policy of the export. *)
Lemma translate_squashed fsid uid gid client_addr :
  match translate fsid uid gid client_addr with
  | Some ids => ∃ fs, find_fs_id fsid = Some fs ∧ ids = (exp_anon_uid fs, exp_anon_gid fs) ∧
      squashed BMI_query_addr_range fs uid gid client_addr
  | None => ∀ fs, find_fs_id fsid = Some fs → ¬ squashed BMI_query_addr_range fs uid gid client_addr
  end.
Proof.
  unfold translate_ids. destruct (find_fs_id fsid) as [fs|]; [|done].
  generalize (squashed_wildcards fs uid gid client_addr).
  unfold iterate_all_squash_wildcards, iterate_root_squash_wildcards.
  repeat match goal with
  | |- context [has ?x ?y] => destruct (has x y)
  | |- context [iterate_wildcards ?q ?l ?x] => destruct (iterate_wildcards q l x)
  end; destruct ((uid =? 0) || (gid =? 0)); cbn [andb orb negb]; intros Hs;
    first [exists fs; split_and!; [done|done|by apply Hs]|intros fs' [= <-]; by rewrite Hs].
Qed.

(** C32. Squashing.  If the export makes the user of the credential anonymous,
    the request goes on with a credential of the anonymous user in the
    anonymous group alone, and the attributes it brings along name these as
    owner and group and are the same otherwise - but for a tree_setattr,
    whose attributes keep the owner that the client has put there.  If not,
    the request is unchanged. *)
Theorem squash_applied `{!SecurityLaws sec} s_op cred uid gs s_op' :
  PINT_server_req_get_credential (s_req s_op) = Done (Some cred) →
  PINT_map_credential cred = Done (uid, gs) →
  validate_ids BMI_query_addr_range find_fs_id sec junk s_op cred = Done (inr s_op') →
  (∃ fs cred', find_fs_id (s_target_fs_id s_op) = Some fs ∧
     squashed BMI_query_addr_range fs uid (default junk (head gs)) (s_addr s_op) ∧
     get_credential (req_u (s_req s_op')) = Done cred' ∧
     PINT_map_credential cred' = Done (exp_anon_uid fs, [exp_anon_gid fs]) ∧
     request_attr (req_u (s_req s_op'))
     = if decide (req_op (req_u (s_req s_op)) = PVFS_SERV_TREE_SETATTR)
       then request_attr (req_u (s_req s_op))
       else set_owner (exp_anon_uid fs) (exp_anon_gid fs) <$> request_attr (req_u (s_req s_op))) ∨
  (s_op' = s_op ∧ ∀ fs, find_fs_id (s_target_fs_id s_op) = Some fs →
     ¬ squashed BMI_query_addr_range fs uid (default junk (head gs)) (s_addr s_op)).
Proof.
  intros Hget Hmap. unfold validate_ids. rewrite Hmap. cbn [mbind exec_bind].
  pose proof (translate_squashed (s_target_fs_id s_op) uid (default junk (head gs)) (s_addr s_op)) as Ht.
  destruct (translate _ _ _ _) as [[u g]|]; [|intros [= <-]; by right].
  destruct Ht as (fs & Hfs & [= -> ->] & Hsquash).
  destruct (squash_credential sec _ _ cred) as [[ret cred']|] eqn:Hsq; cbn [mbind exec_bind]; [|done].
  destruct (ret =? 0) eqn:Hret; cbn [negb]; [|done]. apply Z.eqb_eq in Hret as ->.
  intros [= <-]. left. exists fs, cred'. simpl.
  assert (get_credential (req_u (s_req s_op)) = Done cred) as Hc.
  { unfold PINT_server_req_get_credential in Hget. destruct (req_params _) as [p|]; [|done].
    cbn [mbind exec_bind] in Hget. destruct (pm_get_credential p); [|done].
    destruct (get_credential _) as [c|]; cbn [mbind exec_bind] in Hget; [|done]. congruence. }
  destruct (get_put_credential _ _ cred' (exp_anon_uid fs) (exp_anon_gid fs) Hc) as [Hc' Ho].
  split_and!; [done|done|done|by eapply squash_credential_map|done].
Qed.

(** C37. A request whose credential verifies and has more groups than the array
    on the stack has room for makes the server write beyond it, if the file
    system is exported for the access.  (The decoder has no limit either.) *)
Theorem group_array_overflow s_op ec cred :
  s_perm_check_done s_op = false → cap_issuer (req_capability (s_req s_op)) ≠ None →
  s_target_fs_id s_op ≠ PVFS_FS_ID_NULL →
  permit (s_target_fs_id s_op) (s_access_type s_op) (s_addr s_op) = true →
  PINT_server_req_get_credential (s_req s_op) = Done (Some cred) →
  verify_credential sec cred = Done true →
  len (cred_group_array cred) = cred_num_groups cred → PVFS_REQ_LIMIT_GROUPS < cred_num_groups cred →
  prelude_validate BMI_query_addr_range find_fs_id sec now junk s_op ec = Fault BadAccess.
Proof.
  intros Hd Hi Hfs Hp Hc Hv Hlen Hn. unfold prelude_validate.
  cbn [s_perm_check_done set_attr s_req s_target_fs_id s_access_type s_addr].
  rewrite Hd. destruct (cap_issuer _); [|done]. apply Z.eqb_neq in Hfs. rewrite Hfs, Hp. cbn [negb andb].
  rewrite Hc. cbn [mbind exec_bind]. rewrite Hv. cbn [mbind exec_bind negb].
  unfold validate_ids, PINT_map_credential. rewrite copy_array_full by done.
  cbn [mbind exec_bind]. by rewrite decide_False by lia.
Qed.
End prelude_spec.

(** ** From the request back to the user *)

Section authorization.
Context {pubkey privkey : Type}.
Context (pub_is_rsa : pubkey → bool) (priv_is_rsa : privkey → bool) (pkey_size : privkey → Z).
Context (EVP_sign : privkey → list Z → option (list Z)).
Context (EVP_verify : pubkey → list Z → list Z → bool).
Context (table : qhash_table (V := list Z * pubkey)) (sk : privkey).

(** A run of [getattr_create_capability] on some server: what it was given,
    and the capability it made. *)
Record issuance := mk_issuance {
  i_alloc : nat → bool;
  i_key : privkey;
  i_config : security_config;
  i_now : Z;
  i_error_code : Z;
  i_acl : list Z;
  i_fs_id : Z;
  i_handle : Z;
  i_cred : PVFS_credential;
  i_attr : PVFS_object_attr;
  i_cap : PVFS_capability;
}.

Definition issuance_ok (i : issuance) : Prop :=
  ∃ ec, getattr_create_capability (Keys.PINT_init_capability pkey_size (i_key i) (i_alloc i))
    (Keys.PINT_sign_capability priv_is_rsa EVP_sign (i_key i) (i_config i) (i_now i) None)
    (i_config i) (i_error_code i) (i_acl i) (i_fs_id i) (i_handle i) (i_cred i) (i_attr i)
  = Done (ec, Some (i_cap i)).

(** The rights of the user on the object, at that server and at that time. *)
Definition user_rights (i : issuance) (op_mask : Z) : Prop :=
  ∃ uid group_array ret, PINT_map_credential (i_cred i) = Done (uid, group_array) ∧
    PINT_get_capabilities
      (if i_error_code i =? - TROVE_ENOENT then None else Some (i_acl i))
      (if i_error_code i =? - TROVE_ENOENT then 0 else len (i_acl i))
      uid group_array (at_header (i_attr i)) = Done (ret, op_mask) ∧ 0 ≤ ret.

Lemma sign_capability_rights k config now force cap ret cap' :
  Keys.PINT_sign_capability priv_is_rsa EVP_sign k config now force cap = Done (ret, cap') →
  cap_op_mask cap' = cap_op_mask cap ∧ cap_handle_array cap' = cap_handle_array cap ∧
  cap_fsid cap' = cap_fsid cap.
Proof.
  unfold Keys.PINT_sign_capability. destruct (Keys.missing_fields cap); [by intros [= <- <-]|].
  destruct (negb _); [by intros [= <- <-]|].
  destruct (capability_message _) as [m|]; cbn [mbind exec_bind]; [|done].
  destruct (EVP_sign k m); by intros [= <- <-].
Qed.

(** A capability says what its user may do, and for which handles. *)
Lemma issuance_rights i :
  issuance_ok i →
  user_rights i (cap_op_mask (i_cap i)) ∧ cap_fsid (i_cap i) = i_fs_id i ∧
  capability_handles (i_handle i) (i_attr i) = Done (cap_handle_array (i_cap i)).
Proof.
  intros [ec H]. unfold getattr_create_capability in H. unfold user_rights.
  destruct (negb _ && _); [done|].
  destruct (Keys.PINT_init_capability _ _ _) as [e|cap0]; [done|].
  destruct (capability_handles _ _) as [hs|]; cbn [mbind exec_bind] in H; [|done].
  destruct (PINT_map_credential _) as [[uid gs]|]; cbn [mbind exec_bind] in H; [|done].
  destruct (PINT_get_capabilities _ _ _ _ _) as [[ret m]|] eqn:Hcaps; cbn [mbind exec_bind] in H; [|done].
  destruct (ret <? 0) eqn:Hret; [done|]. apply Z.ltb_ge in Hret.
  destruct (Keys.PINT_sign_capability _ _ _ _ _ _ _) as [[ret' cap']|] eqn:Hs;
    cbn [mbind exec_bind] in H; [|done].
  destruct (ret' <? 0); [done|]. injection H as _ H. subst cap'.
  apply sign_capability_rights in Hs as (Hm & Hh & Hf). simpl in *. rewrite Hm, Hh, Hf.
  split_and!; [|done..]. by exists uid, gs, ret.
Qed.

Context (BMI_query_addr_range : Z → list Z → Z → bool).
Context (find_fs_id : Z → option filesystem_configuration).
(** The messages signed with the private key to a public key. *)
Context (signed : pubkey → list Z → Prop).
(** The capabilities a host has issued to users, those it has made for its
    own requests to other servers, and the credentials it has signed. *)
Context (issued : list Z → list issuance) (internal : list Z → list PVFS_capability).
Context (credentials : list Z → list PVFS_credential).

End authorization.

(** ** Witnesses *)

(** Server "S:a" gives user 7, who owns file 5 of file system 9 and may read
    and write it, a capability that lasts until 700. *)
Definition sample_all (_ : unit) : bool := true.
Definition sample_size (_ : unit) : Z := 1.
Definition sample_file : PVFS_object_attr := sample_object_attr (sample_header 7 8 384 7).
Definition granted_message : list Z :=
  [83; 58; 97] ++ [9; 0; 0; 0] ++ [188; 2; 0; 0; 0; 0; 0; 0] ++ [14; 0; 0; 0] ++ [1; 0; 0; 0]
  ++ [5; 0; 0; 0; 0; 0; 0; 0].
Definition granted_cap : PVFS_capability :=
  mk_capability (Some [83; 58; 97]) 9 32 (1 :: granted_message) 700 14 1 [5].
Definition sample_issuance : issuance :=
  mk_issuance (privkey := unit) (λ _, true) () sample_config 100 (- TROVE_ENOENT) [] 9 5
    (sample_credential 7 [8]) sample_file granted_cap.

Lemma granted_cap_ok : cap_ok granted_cap.
Proof. split_and!; try done. by apply Forall_singleton. Qed.

Lemma sample_issuance_ok : issuance_ok sample_all sample_size sample_sign sample_issuance.
Proof. exists 0. reflexivity. Qed.

(** The user's credential, which the same server has signed. *)
Definition user_cred : PVFS_credential :=
  mk_credential 7 1 [8] (Some [83; 58; 97]) 1000 24 (1 :: sample_user_message) (mk_certificate 0 []).
Definition granted_signed (_ : unit) (m : list Z) : Prop :=
  m ∈ [granted_message; sample_user_message].
Definition sample_evp (pk : unit) (m s : list Z) : bool :=
  sample_verify pk m s && bool_decide (m ∈ [granted_message; sample_user_message]).
Definition sample_storage (_ _ : Z) : Z * PVFS_ds_attributes := (0, sample_ds_attr).
Definition setattr_op : PINT_server_op :=
  sample_op granted_cap []
    (Rq_setattr (mk_servreq_setattr 5 9 (sample_object_attr (sample_header 7 8 420 7)) user_cred)) 7 4.

Definition user_creds (host : list Z) : list PVFS_credential :=
  if bool_decide (host = [83; 58; 97]) then [user_cred] else [].

Lemma user_cred_ok : cred_ok user_cred.
Proof. split_and!; try done. by apply Forall_singleton. Qed.

Lemma granted_hosts_sign :
  hosts_sign sample_table granted_signed
    (λ host, (i_cap <$> (λ _ : list Z, [sample_issuance]) host) ++ (λ _ : list Z, []) host)
    user_creds.
Proof.
  intros host pk m Hk Hm. apply sample_host in Hk as ->. unfold granted_signed in Hm.
  rewrite !elem_of_cons in Hm. destruct Hm as [->|[->|[]%elem_of_nil]].
  - left. exists granted_cap. split; [by apply list_elem_of_singleton|].
    split; [apply granted_cap_ok|done].
  - right. exists user_cred. split; [by apply list_elem_of_singleton|].
    split; [apply user_cred_ok|done].
Qed.

Definition idle_sched : ReqSched.sched := mkSched ∅ ∅ [] [] [] 0 1.


(** Root, from a host that is squashed to user 65534, creates a file. *)
Definition squash_config : filesystem_configuration :=
  mk_fs_config TROVE_EXP_ROOT_SQUASH [] [([42], 0)] [] [] 65534 65533.
Definition create_op : PINT_server_op :=
  set_target 9 0 (sample_op granted_cap []
    (Rq_create (mk_servreq_create 9
       (mk_credential 0 2 [0; 4] (Some [83; 58; 98]) 1000 0 [] (mk_certificate 0 []))
       (sample_object_attr (sample_header 0 0 420 7)) 1 (mk_sys_layout 0 0 [])))
    0 0).

Lemma squash_applied_witness :
  ∃ s_op' cred', validate_ids (λ _ _ _, true)
      (λ _, Some squash_config) (stub_security sample_config 650) 0 create_op
      (mk_credential 0 2 [0; 4] (Some [83; 58; 98]) 1000 0 [] (mk_certificate 0 []))
    = Done (inr s_op') ∧
    get_credential (req_u (s_req s_op')) = Done cred' ∧
    PINT_map_credential cred' = Done (65534, [65533]) ∧
    request_attr (req_u (s_req s_op')) = Some (sample_object_attr (sample_header 65534 65533 420 7)).
Proof.
  eexists.
  destruct (squash_applied (λ _ _ _, true) (λ _, Some squash_config)
    (stub_security sample_config 650) 0 create_op
    (mk_credential 0 2 [0; 4] (Some [83; 58; 98]) 1000 0 [] (mk_certificate 0 [])) 0 [0; 4] _
    eq_refl eq_refl eq_refl) as [(fs & cred' & [= <-] & _ & Hc & Hm & Ho)|[[=] _]].
  exists cred'. split; [reflexivity|]. split; [exact Hc|]. split; [exact Hm|exact Ho].
Defined.

(** A getattr request whose credential has 33 groups. *)
Definition many_groups : PVFS_credential := sample_credential 7 (replicate 33 8).
Lemma group_array_overflow_witness :
  prelude_validate (λ _ _ _, false) (λ _, None) (stub_security sample_config 650) 650 0
    (sample_op PINT_null_capability [] (Rq_getattr (mk_servreq_getattr 5 9 0 many_groups)) 7 4) 0
  = Fault BadAccess.
Proof. by eapply group_array_overflow. Defined.
