(* ===== verification/DistDir.v ===== *)
(** Distributed directories (src/src/common/misc/dist-dir-utils.c): the entries
    of a directory are spread over servers by the low bits of a hash of their
    names, and a bitmap says which servers take part.  A server that gets too
    full is split: half of its entries move to a server that did not take part
    before.  The theorems show that every hash always belongs to exactly one
    server, and that a split moves entries from the split server to the new
    one and none else. *)

From Stdlib Require Import ZifyBool.
From stdpp Require Import base list numbers.
From S2P Require Import Prelude.
From S2P Require Import Wire WireTypes.

#[local] Open Scope Z_scope.
#[local] Open Scope cint_scope.

(** * Bitmaps *)

(** A bitmap is an array of [uint32_t]. *)
Definition TST_BIT (i_bitfield : list Z) (bitnum : Z) : exec bool :=
  w ← array_get (Some i_bitfield) (Z.shiftr bitnum 5);
  Done (Z.testbit w (Z.land bitnum 31)).

Definition SET_BIT (i_bitfield : list Z) (bitnum : Z) : exec (list Z) :=
  w ← array_get (Some i_bitfield) (Z.shiftr bitnum 5);
  a ← array_set (Some i_bitfield) (Z.shiftr bitnum 5)
        (Z.lor w (Z.shiftl 1 (Z.land bitnum 31)));
  Done (default [] a).

(** [1l << n], undefined for a negative [n] and for one that reaches the sign. *)
Definition shift1 (n : Z) : exec Z :=
  if decide (0 ≤ n < 63) then Done (2 ^ n) else Fault BadAccess.

(** * Helper functions *)

(** The number of bits above which all bits of the number are zero. *)
Fixpoint bits_loop (fuel : nat) (server_no level : Z) : exec Z :=
  match fuel with
  | O => Fault OutOfFuel
  | S fuel =>
      if decide (Z.shiftr server_no level ≠ 0) then bits_loop fuel server_no (level + 1)
      else Done level
  end.

(** Until no splitting node is set. *)
Fixpoint branch_loop (fuel : nat) (bitmap : list Z) (server_no level : Z) : exec Z :=
  match fuel with
  | O => Fault OutOfFuel
  | S fuel =>
      k ← shift1 level;
      b ← TST_BIT bitmap (server_no +ₗ k);
      if (b : bool) then branch_loop fuel bitmap server_no (level + 1) else Done level
  end.

Definition dist_dir_calc_branch_level (dist_dir_attr : PVFS_dist_dir_attr) (bitmap : list Z)
    : exec Z :=
  let server_no := dd_server_no dist_dir_attr in
  let num_servers := dd_num_servers dist_dir_attr in
  if decide (server_no >= 0 ∧ server_no < num_servers) then
    b ← TST_BIT bitmap server_no;
    if negb b then Done (-1)
    else
      level ← bits_loop 33 server_no 0;
      branch_loop 64 bitmap server_no level
  else Fault AssertFailed.

(** * Operations *)

Definition with_branch_level (a : PVFS_dist_dir_attr) (l : Z) : PVFS_dist_dir_attr :=
  mk_dist_dir_attr (dd_tree_height a) (dd_num_servers a) (dd_bitmap_size a) (dd_split_size a)
    (dd_server_no a) l.

Fixpoint set_bits (bitmap : list Z) (n : nat) : exec (list Z) :=
  match n with
  | O => Done bitmap
  | S i => bitmap ← SET_BIT bitmap (Z.of_nat i); set_bits bitmap i
  end.

(** [ceil_log2] is [(int)ceil(log((double)n) / log(2.0))], and [alloc] tells
    whether the allocation succeeds. *)
Definition PINT_init_dist_dir_state (ceil_log2 : Z → Z) (alloc : bool)
    (num_servers server_no pre_dsg_num_server split_size : Z)
    : exec (option (PVFS_dist_dir_attr * list Z)) :=
  if decide (num_servers > 0 ∧ server_no >= -1 ∧ server_no < num_servers) then
    let pre_dsg_num_server :=
      if decide (pre_dsg_num_server <= 0 ∨ pre_dsg_num_server > num_servers) then num_servers
      else pre_dsg_num_server in
    let tree_height := ceil_log2 num_servers in
    leaves ← shift1 tree_height;
    let bitmap_size := if decide (leaves > 32) then i32 (Z.shiftr leaves 5) else 1 in
    if negb alloc then Done None
    else
      bitmap ← set_bits (replicate (Z.to_nat bitmap_size) 0) (Z.to_nat pre_dsg_num_server);
      let attr :=
        mk_dist_dir_attr tree_height num_servers bitmap_size split_size server_no (-1) in
      branch_level ← (if decide (server_no > -1) then dist_dir_calc_branch_level attr bitmap
                      else Done (-1));
      Done (Some (with_branch_level attr branch_level, bitmap))
  else Fault AssertFailed.

Definition PINT_is_dist_dir_bucket_active (dist_dir_attr_p : PVFS_dist_dir_attr)
    (bitmap : list Z) (server_no : Z) : exec Z :=
  if decide (server_no < 0 ∨ server_no >= dd_num_servers dist_dir_attr_p) then Done 0
  else
    b ← TST_BIT bitmap server_no;
    Done (if (b : bool) then 1 else 0).

(** The loop uses fewer and fewer bits of the hash; beyond level 0 it shifts
    by -1, which is undefined. *)
Fixpoint bucket_loop (bitmap : list Z) (level : nat) (node_val : Z) : exec Z :=
  b ← TST_BIT bitmap node_val;
  if (b : bool) then Done node_val
  else
    match level with
    | O => Fault BadAccess
    | S level => bucket_loop bitmap level (Z.land node_val (2 ^ Z.of_nat level - 1))
    end.

Definition PINT_find_dist_dir_bucket (hash : Z) (dist_dir_attr : PVFS_dist_dir_attr)
    (bitmap : list Z) : exec Z :=
  let level := dd_tree_height dist_dir_attr in
  if decide (level < 0) then Done (-1)
  else
    k ← shift1 level;
    node_val ← bucket_loop bitmap (Z.to_nat level) (Z.land hash (k - 1));
    Done (i32 node_val).

(** The new node, or -1, and what has become of the attributes and the bitmap. *)
Definition PINT_find_dist_dir_split_node (dist_dir_attr : PVFS_dist_dir_attr) (bitmap : list Z)
    : exec (Z * PVFS_dist_dir_attr * list Z) :=
  if decide (dd_server_no dist_dir_attr > -1) then
    let branch_level := dd_branch_level dist_dir_attr in
    if decide (branch_level > -1) then
      if decide (branch_level >= dd_tree_height dist_dir_attr)
      then Done (-1, dist_dir_attr, bitmap)
      else
        k ← shift1 branch_level;
        let new_node_val := i32 (dd_server_no dist_dir_attr +ₗ k) in
        if decide (new_node_val >= dd_num_servers dist_dir_attr)
        then Done (-1, dist_dir_attr, bitmap)
        else
          b ← TST_BIT bitmap new_node_val;
          if (b : bool) then Fault AssertFailed
          else
            bitmap ← SET_BIT bitmap new_node_val;
            level ← dist_dir_calc_branch_level dist_dir_attr bitmap;
            Done (new_node_val, with_branch_level dist_dir_attr level, bitmap)
    else Fault AssertFailed
  else Fault AssertFailed.

(** [to_dir_bitmap[i] |= from_dir_bitmap[i]], from the last word to the first. *)
Fixpoint or_words (to_dir_bitmap from_dir_bitmap : list Z) (n : nat) : exec (list Z) :=
  match n with
  | O => Done to_dir_bitmap
  | S i =>
      t ← array_get (Some to_dir_bitmap) (Z.of_nat i);
      f ← array_get (Some from_dir_bitmap) (Z.of_nat i);
      a ← array_set (Some to_dir_bitmap) (Z.of_nat i) (Z.lor t f);
      or_words (default [] a) from_dir_bitmap i
  end.

Definition PINT_update_dist_dir_bitmap_from_bitmap (to_dir_attr : PVFS_dist_dir_attr)
    (to_dir_bitmap from_dir_bitmap : list Z) : exec (PVFS_dist_dir_attr * list Z) :=
  bitmap ← or_words to_dir_bitmap from_dir_bitmap (Z.to_nat (dd_bitmap_size to_dir_attr));
  if decide (dd_server_no to_dir_attr > -1) then
    level ← dist_dir_calc_branch_level to_dir_attr bitmap;
    Done (with_branch_level to_dir_attr level, bitmap)
  else Done (to_dir_attr, bitmap).

Definition PINT_dist_dir_set_serverno (server_no : Z) (ddattr : PVFS_dist_dir_attr)
    (ddbitmap : list Z) : exec PVFS_dist_dir_attr :=
  if decide (server_no >= -1 ∧ server_no < dd_num_servers ddattr) then
    let ddattr := mk_dist_dir_attr (dd_tree_height ddattr) (dd_num_servers ddattr)
      (dd_bitmap_size ddattr) (dd_split_size ddattr) server_no (dd_branch_level ddattr) in
    level ← dist_dir_calc_branch_level ddattr ddbitmap;
    Done (with_branch_level ddattr level)
  else Fault AssertFailed.

(** * Trees of servers *)

Definition active (bm : list Z) (i : Z) : bool :=
  match bm !! Z.to_nat (i / 32) with Some w => Z.testbit w (i mod 32) | None => false end.

(** The servers that take part are a tree whose root is server 0: the node
    of a server is a number of low bits of the hash, its ancestors have fewer
    bits ([tree_suffix]), and its children, which have one more bit that is
    set, come one after the other ([tree_order]). *)
Record tree (n : Z) (bm : list Z) : Prop := mk_tree {
  tree_in i : 0 ≤ i → active bm i = true → i < n;
  tree_root : active bm 0 = true;
  tree_suffix i k : 0 ≤ i → 0 ≤ k → active bm i = true → active bm (i mod 2 ^ k) = true;
  tree_order s l l' : 0 ≤ s < 2 ^ l → 0 ≤ l ≤ l' → active bm (s + 2 ^ l') = true →
                      active bm (s + 2 ^ l) = true;
}.

(** The attributes fit the number of servers, and the bitmap the attributes. *)
Record dist_dir_ok (a : PVFS_dist_dir_attr) (bm : list Z) : Prop := mk_ok {
  ok_height : 0 ≤ dd_tree_height a ≤ 30;
  ok_servers : 0 < dd_num_servers a ≤ 2 ^ dd_tree_height a;
  ok_size : len bm = dd_bitmap_size a;
  ok_bits : 2 ^ dd_tree_height a ≤ 32 * dd_bitmap_size a;
  ok_tree : tree (dd_num_servers a) bm;
}.

(** Bits above the tree, which [dist_dir_calc_branch_level] reads. *)
Definition roomy (a : PVFS_dist_dir_attr) : Prop :=
  2 ^ (dd_tree_height a + 1) ≤ 32 * dd_bitmap_size a.

(** How many bits of a hash have to agree with server [s] to belong there. *)
Definition branch (bm : list Z) (s l : Z) : Prop :=
  0 ≤ l ∧ s < 2 ^ l ∧ (∀ k, 0 ≤ k < l → s < 2 ^ k → active bm (s + 2 ^ k) = true) ∧
  active bm (s + 2 ^ l) = false.

(** The server of a hash: the longest tail of it that is a server. *)
Definition bucket (ht : Z) (bm : list Z) (h b : Z) : Prop :=
  ∃ L, 0 ≤ L ≤ ht ∧ b = h mod 2 ^ L ∧ active bm b = true ∧
       ∀ L', L < L' ≤ ht → active bm (h mod 2 ^ L') = false.

(** ** Bits *)

Lemma bit_index i : 0 ≤ i → Z.shiftr i 5 = i / 32 ∧ Z.land i 31 = i mod 32.
Proof.
  intros. split; [by rewrite Z.shiftr_div_pow2|].
  change 31 with (Z.ones 5). by rewrite Z.land_ones.
Qed.

Lemma word_at (bm : list Z) i : 0 ≤ i < 32 * len bm → ∃ w, bm !! Z.to_nat (i / 32) = Some w.
Proof. intros. apply lookup_lt_is_Some_2. zify; Z.to_euclidean_division_equations; lia. Qed.

Lemma TST_BIT_active bm i : 0 ≤ i < 32 * len bm → TST_BIT bm i = Done (active bm i).
Proof.
  intros Hi. destruct (bit_index i) as [H1 H2]; [lia|]. destruct (word_at bm i Hi) as [w Hw].
  unfold TST_BIT, active. rewrite H1, H2, Hw. rewrite (array_get_Some _ _ w); [done| |done].
  apply Z.div_pos; lia.
Qed.

Lemma active_out bm i : 32 * len bm ≤ i → active bm i = false.
Proof.
  intros. unfold active. rewrite lookup_ge_None_2; [done|].
  zify; Z.to_euclidean_division_equations; lia.
Qed.

Lemma TST_BIT_out bm i : 32 * len bm ≤ i → TST_BIT bm i = Fault BadAccess.
Proof.
  intros. unfold TST_BIT. destruct (bit_index i) as [-> _]; [lia|]. unfold array_get.
  case_decide; [|done]. rewrite lookup_ge_None_2; [done|].
  zify; Z.to_euclidean_division_equations; lia.
Qed.

Lemma SET_BIT_active bm i :
  0 ≤ i < 32 * len bm →
  ∃ bm', SET_BIT bm i = Done bm' ∧ length bm' = length bm ∧
    ∀ j, 0 ≤ j → active bm' j = (j =? i) || active bm j.
Proof.
  intros Hi. destruct (bit_index i) as [H1 H2]; [lia|]. destruct (word_at bm i Hi) as [w Hw].
  assert (0 ≤ i / 32) by (apply Z.div_pos; lia). pose proof (lookup_lt_Some _ _ _ Hw) as Hlt.
  exists (<[Z.to_nat (i / 32) := Z.lor w (Z.shiftl 1 (i mod 32))]> bm). split_and!.
  - unfold SET_BIT. rewrite H1, H2, (array_get_Some _ _ w) by done. cbn [mbind exec_bind].
    rewrite array_set_Some; [done|]. apply Z2Nat.inj_lt in Hlt || (split; [done|lia]).
  - by rewrite length_insert.
  - intros j Hj. unfold active. destruct (decide (j / 32 = i / 32)) as [He|Hne].
    + rewrite He, list_lookup_insert_eq, Hw by done. rewrite Z.lor_spec, Z.shiftl_1_l, Z.pow2_bits_eqb
        by (apply Z.mod_pos_bound; lia).
      rewrite orb_comm. f_equal. apply eq_true_iff_eq. rewrite !Z.eqb_eq.
      pose proof (Z.div_mod i 32). pose proof (Z.div_mod j 32). lia.
    + rewrite list_lookup_insert_ne. 2: { intros ?%Z2Nat.inj; [congruence|lia|]. apply Z.div_pos; lia. }
      replace (j =? i) with false; [done|]. symmetry. apply Z.eqb_neq. congruence.
Qed.

Lemma shift1_ok n : 0 ≤ n < 63 → shift1 n = Done (2 ^ n).
Proof. intros. unfold shift1. by rewrite decide_True. Qed.

(** ** Servers of a hash *)

Lemma mod_mod_pow h k l : 0 ≤ k ≤ l → (h mod 2 ^ l) mod 2 ^ k = h mod 2 ^ k.
Proof.
  intros. apply Z.mod_mod_divide.
  exists (2 ^ (l - k)). rewrite <- Z.pow_add_r by lia. f_equal. lia.
Qed.

Lemma mod_pow_succ h l : 0 ≤ l → h mod 2 ^ (l + 1) = h mod 2 ^ l + (if Z.testbit h l then 2 ^ l else 0).
Proof.
  intros. rewrite Z.pow_add_r, Z.pow_1_r by lia.
  rewrite Z.rem_mul_r by lia. rewrite <- Z.bit0_mod, <- Z.shiftr_div_pow2, Z.shiftr_spec by lia.
  replace (0 + l) with l by lia. destruct (Z.testbit h l); simpl; lia.
Qed.

Lemma land_pow h l : 0 ≤ l → Z.land h (2 ^ l - 1) = h mod 2 ^ l.
Proof. intros. rewrite <- Z.land_ones by done. f_equal. rewrite Z.ones_equiv. lia. Qed.

Lemma bucket_loop_spec bm h (level : nat) :
  active bm 0 = true → 2 ^ Z.of_nat level ≤ 32 * len bm →
  ∃ b, bucket_loop bm level (h mod 2 ^ Z.of_nat level) = Done b ∧ bucket (Z.of_nat level) bm h b.
Proof.
  intros H0. induction level as [|level IH]; intros Hsz.
  - exists (h mod 2 ^ 0). change (2 ^ Z.of_nat 0) with 1. rewrite Z.mod_1_r. simpl.
    rewrite TST_BIT_active by (change (2 ^ Z.of_nat 0) with 1 in Hsz; lia). cbn [mbind exec_bind].
    rewrite H0. split; [by rewrite Z.mod_1_r|].
    exists 0. split; [lia|]. split_and!; [done|by rewrite Z.mod_1_r|lia].
  - pose proof (Z.mod_pos_bound h (2 ^ Z.of_nat (S level)) ltac:(lia)).
    cbn [bucket_loop]. rewrite TST_BIT_active by lia. cbn [mbind exec_bind].
    destruct (active bm (h mod 2 ^ Z.of_nat (S level))) eqn:Ha.
    + eexists. split; [done|]. exists (Z.of_nat (S level)). split; [lia|]. split_and!; [done|done|lia].
    + rewrite land_pow, mod_mod_pow by lia.
      destruct IH as (b & -> & L & HL & Hb & Hab & Hmax).
      { rewrite Nat2Z.inj_succ, Z.pow_succ_r in Hsz by lia. lia. }
      exists b. split; [done|]. exists L. split; [lia|]. split_and!; [done|done|]. intros L' HL'.
      destruct (decide (L' = Z.of_nat (S level))) as [->|]; [done|]. apply Hmax. lia.
Qed.

Lemma bucket_unique ht bm h b b' : bucket ht bm h b → bucket ht bm h b' → b = b'.
Proof.
  intros (L & HL & -> & Ha & Hm) (L' & HL' & -> & Ha' & Hm').
  destruct (Z.lt_trichotomy L L') as [Hlt|[->|Hlt]]; [|done|].
  - rewrite Hm in Ha' by lia. done.
  - rewrite Hm' in Ha by lia. done.
Qed.

Lemma bucket_range ht bm h b : bucket ht bm h b → active bm b = true ∧ 0 ≤ b < 2 ^ ht.
Proof.
  intros (L & HL & -> & Ha & _). split; [done|].
  pose proof (Z.mod_pos_bound h (2 ^ L) ltac:(lia)).
  pose proof (Z.pow_le_mono_r 2 L ht ltac:(lia) ltac:(lia)). lia.
Qed.

Lemma find_bucket_spec a bm h :
  dist_dir_ok a bm →
  ∃ b, PINT_find_dist_dir_bucket h a bm = Done b ∧ bucket (dd_tree_height a) bm h b ∧
    active bm b = true ∧ 0 ≤ b < dd_num_servers a.
Proof.
  intros [Hh Hn Hsz Hbits Ht]. destruct (bucket_loop_spec bm h (Z.to_nat (dd_tree_height a)))
    as (b & Hb & Hbk); [apply Ht|rewrite Z2Nat.id by lia; lia|].
  rewrite Z2Nat.id in Hb, Hbk by lia. destruct (bucket_range _ _ _ _ Hbk) as [Ha Hr].
  pose proof (tree_in _ _ Ht b ltac:(lia) Ha).
  assert (2 ^ dd_tree_height a ≤ 2 ^ 30) by (apply Z.pow_le_mono_r; lia).
  exists b. split_and!; [|done..|lia|lia]. unfold PINT_find_dist_dir_bucket.
  rewrite decide_False by lia. rewrite shift1_ok by lia. cbn [mbind exec_bind].
  rewrite land_pow, Hb by lia. cbn [mbind exec_bind]. by rewrite i32_id by (change (2 ^ 30) with 1073741824 in *; lia).
Qed.

Lemma find_bucket_iff a bm h b :
  dist_dir_ok a bm →
  PINT_find_dist_dir_bucket h a bm = Done b ↔ bucket (dd_tree_height a) bm h b.
Proof.
  intros Hok. destruct (find_bucket_spec a bm h Hok) as (b' & -> & Hb' & _).
  split; [by intros <-%Done_inj|]. intros Hb. f_equal. by eapply bucket_unique.
Qed.

(** ** Branch levels *)

Lemma bits_loop_spec (fuel : nat) s level :
  0 ≤ s < 2 ^ (level + Z.of_nat fuel - 1) → 0 ≤ level → (0 < fuel)%nat →
  (level = 0 ∨ 2 ^ (level - 1) ≤ s) →
  ∃ l, bits_loop fuel s level = Done l ∧ level ≤ l ∧ s < 2 ^ l ∧ (l = 0 ∨ 2 ^ (l - 1) ≤ s).
Proof.
  revert level. induction fuel as [|fuel IH]; intros level Hs Hl Hf Hlow; [lia|]. simpl.
  rewrite Z.shiftr_div_pow2 by done. case_decide as Hd.
  - assert (2 ^ level ≤ s).
    { apply Z.nlt_ge. intros ?. apply Hd. apply Z.div_small. lia. }
    destruct fuel as [|fuel].
    { replace (level + Z.of_nat 1 - 1) with level in Hs by lia. lia. }
    destruct (IH (level + 1)) as (l & Hb & Hle & Hup & Hlo).
    + split; [lia|]. eapply Z.lt_le_trans; [apply Hs|]. apply Z.pow_le_mono_r; lia.
    + lia.
    + lia.
    + right. by replace (level + 1 - 1) with level by lia.
    + exists l. split_and!; [done|lia|done|done].
  - exists level. split_and!; [done|lia| |done]. apply Z.div_small_iff in Hd; lia.
Qed.

Lemma branch_loop_spec bm s ht (fuel : nat) level :
  0 ≤ s < 2 ^ ht → 0 ≤ ht ≤ 30 → 2 ^ (ht + 1) ≤ 32 * len bm → active bm (s + 2 ^ ht) = false →
  0 ≤ level ≤ ht → ht - level < Z.of_nat fuel → s < 2 ^ level →
  (∀ k, 0 ≤ k < level → s < 2 ^ k → active bm (s + 2 ^ k) = true) →
  ∃ l, branch_loop fuel bm s level = Done l ∧ level ≤ l ≤ ht ∧ branch bm s l.
Proof.
  intros Hs Hht Hsz Hlast. revert level.
  induction fuel as [|fuel IH]; intros level Hl Hf Hsl Hall; [lia|]. simpl.
  rewrite shift1_ok by lia. cbn [mbind exec_bind].
  assert (2 ^ level ≤ 2 ^ ht) by (apply Z.pow_le_mono_r; lia).
  assert (2 ^ ht ≤ 2 ^ 30) by (apply Z.pow_le_mono_r; lia). change (2 ^ 30) with 1073741824 in *.
  rewrite Z.pow_add_r in Hsz by lia.
  rewrite i64_id by lia. rewrite TST_BIT_active by lia. cbn [mbind exec_bind].
  destruct (active bm (s + 2 ^ level)) eqn:Ha.
  - destruct (decide (level = ht)) as [->|]; [congruence|].
    destruct (IH (level + 1)) as (l & Hb & Hr & Hbr); [lia|lia| | |].
    + rewrite Z.pow_add_r by lia. lia.
    + intros k Hk Hsk. destruct (decide (k = level)) as [->|]; [done|]. apply Hall; [lia|done].
    + exists l. split_and!; [done|lia|lia|done].
  - exists level. split_and!; [done|lia|lia|]. split_and!; [lia|done|done|done].
Qed.

Lemma branch_loop_overrun bm s ht (fuel : nat) level :
  0 ≤ s → 0 ≤ level ≤ ht → ht ≤ 30 → ht - level < Z.of_nat fuel → s < 2 ^ ht → 32 * len bm ≤ s + 2 ^ ht →
  (∀ k, level ≤ k < ht → active bm (s + 2 ^ k) = true) →
  branch_loop fuel bm s level = Fault BadAccess.
Proof.
  intros Hs Hl Hht. revert level Hl. induction fuel as [|fuel IH]; intros level Hl Hf Hsl Hout Hall; [lia|].
  simpl. rewrite shift1_ok by lia. cbn [mbind exec_bind].
  assert (2 ^ level ≤ 2 ^ ht) by (apply Z.pow_le_mono_r; lia).
  assert (2 ^ ht ≤ 2 ^ 30) by (apply Z.pow_le_mono_r; lia). change (2 ^ 30) with 1073741824 in *.
  rewrite i64_id by lia. destruct (decide (level = ht)) as [->|].
  { by rewrite TST_BIT_out by lia. }
  assert (s + 2 ^ level < 32 * len bm).
  { apply Z.nle_gt. intros Hge. pose proof (active_out bm _ Hge) as Hno. rewrite Hall in Hno by lia. done. }
  rewrite TST_BIT_active by lia. cbn [mbind exec_bind]. rewrite Hall by lia.
  apply IH; [lia..|]. intros. apply Hall. lia.
Qed.

Lemma branch_loop_found bm s l (fuel : nat) level :
  0 ≤ s → 0 ≤ level ≤ l → l ≤ 30 → l - level < Z.of_nat fuel → s < 2 ^ level →
  branch bm s l → s + 2 ^ l < 32 * len bm → branch_loop fuel bm s level = Done l.
Proof.
  intros Hs Hl Hl30. revert level Hl.
  induction fuel as [|fuel IH]; intros level Hl Hf Hsl Hbr Hin; [lia|].
  pose proof Hbr as (_ & _ & Hall & Hno). simpl. rewrite shift1_ok by lia. cbn [mbind exec_bind].
  assert (2 ^ level ≤ 2 ^ l) by (apply Z.pow_le_mono_r; lia).
  assert (2 ^ l ≤ 2 ^ 30) by (apply Z.pow_le_mono_r; lia). change (2 ^ 30) with 1073741824 in *.
  rewrite i64_id by lia. rewrite TST_BIT_active by lia. cbn [mbind exec_bind].
  destruct (decide (level = l)) as [->|]; [by rewrite Hno|].
  rewrite Hall by lia. apply IH; [lia..| |done|done]. rewrite Z.pow_add_r by lia. lia.
Qed.

Lemma active_high a bm s : dist_dir_ok a bm → 0 ≤ s → active bm (s + 2 ^ dd_tree_height a) = false.
Proof.
  intros [Hh Hn _ _ Ht] Hs. destruct (active bm _) eqn:Ha; [|done].
  apply (tree_in _ _ Ht) in Ha; lia.
Qed.

Lemma calc_branch_level_spec a bm :
  dist_dir_ok a bm → roomy a → 0 ≤ dd_server_no a < dd_num_servers a →
  ∃ l, dist_dir_calc_branch_level a bm = Done l ∧
    if active bm (dd_server_no a) then branch bm (dd_server_no a) l ∧ l ≤ dd_tree_height a else l = -1.
Proof.
  intros Hok Hroom Hs. pose proof Hok as [Hh Hn Hsz Hbits Ht]. unfold roomy in Hroom.
  unfold dist_dir_calc_branch_level. rewrite decide_True by lia. rewrite TST_BIT_active by lia.
  cbn [mbind exec_bind]. destruct (active bm (dd_server_no a)); cbn [negb]; [|by eexists].
  assert (2 ^ dd_tree_height a ≤ 2 ^ 30) by (apply Z.pow_le_mono_r; lia).
  destruct (bits_loop_spec 33 (dd_server_no a) 0) as (l0 & -> & Hl0 & Hup & Hlow);
    [change (2 ^ (0 + Z.of_nat 33 - 1)) with 4294967296; change (2 ^ 30) with 1073741824 in *; lia|lia..|].
  cbn [mbind exec_bind].
  assert (l0 ≤ dd_tree_height a).
  { destruct Hlow as [->|Hlow]; [lia|]. apply Z.nlt_ge. intros ?.
    assert (2 ^ dd_tree_height a ≤ 2 ^ (l0 - 1)) by (apply Z.pow_le_mono_r; lia). lia. }
  destruct (branch_loop_spec bm (dd_server_no a) (dd_tree_height a) 64 l0) as (l & -> & Hl & Hb).
  - lia.
  - lia.
  - lia.
  - by apply active_high; [|lia].
  - lia.
  - lia.
  - done.
  - intros k Hk Hsk. destruct Hlow as [->|Hlow]; [lia|].
    assert (2 ^ k ≤ 2 ^ (l0 - 1)) by (apply Z.pow_le_mono_r; lia). lia.
  - exists l. split; [done|]. split; [done|lia].
Qed.

(** ** Which hashes a server has *)

Lemma branch_height a bm s l :
  dist_dir_ok a bm → 0 ≤ s < 2 ^ dd_tree_height a → branch bm s l → l ≤ dd_tree_height a.
Proof.
  intros Hok Hs (Hl & _ & Hall & _). apply Z.nlt_ge. intros Hlt.
  pose proof (active_high a bm s Hok ltac:(lia)) as Hno.
  rewrite Hall in Hno; [done| |lia]. pose proof (ok_height _ _ Hok). lia.
Qed.

Lemma bucket_agrees a bm h b l :
  dist_dir_ok a bm → branch bm b l → bucket (dd_tree_height a) bm h b → h mod 2 ^ l = b.
Proof.
  intros Hok (Hl & Hbl & Hall & _) Hb. pose proof (bucket_range _ _ _ _ Hb) as [Hab Hbr].
  destruct Hb as (L & HL & Hb & _ & Hmax).
  destruct (decide (l ≤ L)) as [Hle|Hnle].
  { rewrite <- (mod_mod_pow h l L), <- Hb by lia. apply Z.mod_small. lia. }
  assert (∀ k, L ≤ k → k ≤ l → h mod 2 ^ k = b) as Hind.
  { apply (Z.le_ind (λ k, k ≤ l → h mod 2 ^ k = b)); [by intros ?? ->|done|].
    intros k Hk IH Hkl. rewrite <- Z.add_1_r, mod_pow_succ, IH by lia.
    destruct (Z.testbit h k) eqn:Hbit; [|lia]. exfalso.
    assert (b < 2 ^ k).
    { rewrite <- IH by lia. by apply Z.mod_pos_bound; lia. }
    assert (active bm (b + 2 ^ k) = true) as Ha by (apply Hall; lia).
    assert (h mod 2 ^ (k + 1) = b + 2 ^ k) as Hk1 by (rewrite mod_pow_succ, IH, Hbit by lia; done).
    destruct (decide (k < dd_tree_height a)) as [Hlt|Hge].
    - rewrite <- Hk1, Hmax in Ha by lia. done.
    - apply (tree_in _ _ (ok_tree _ _ Hok)) in Ha; [|lia].
      pose proof (ok_servers _ _ Hok). pose proof (ok_height _ _ Hok).
      assert (2 ^ dd_tree_height a ≤ 2 ^ k) by (apply Z.pow_le_mono_r; lia). lia. }
  apply Hind; lia.
Qed.

(** Going up from [b], either all further bits are zero or there is a first
    one that is not. *)
Lemma first_bit h b l L :
  0 ≤ l → h mod 2 ^ l = b → l ≤ L →
  h mod 2 ^ L = b ∨ ∃ j, l ≤ j < L ∧ h mod 2 ^ (j + 1) = b + 2 ^ j.
Proof.
  intros Hl Hb. revert L. apply (Z.le_ind (λ L, h mod 2 ^ L = b ∨ _)); [by intros ?? ->|by left|].
  intros k Hk [IH|(j & Hj & Hj')]; [|right; exists j; split; [lia|done]].
  rewrite <- Z.add_1_r, mod_pow_succ, IH by lia. destruct (Z.testbit h k) eqn:Hbit; [|left; lia].
  right. exists k. split; [lia|]. by rewrite mod_pow_succ, IH, Hbit by lia.
Qed.

Lemma agrees_bucket a bm h b l b' :
  dist_dir_ok a bm → active bm b = true → 0 ≤ b → branch bm b l → h mod 2 ^ l = b →
  bucket (dd_tree_height a) bm h b' → b' = b.
Proof.
  intros Hok Hab Hb0 Hbr Hh (L & HL & -> & Ha & Hmax).
  pose proof (ok_tree _ _ Hok) as Ht. pose proof (tree_in _ _ Ht _ Hb0 Hab).
  pose proof (ok_servers _ _ Hok).
  pose proof (branch_height a bm b l Hok ltac:(lia) Hbr) as Hlh.
  destruct Hbr as (Hl & Hbl & Hall & Hno).
  destruct (Z.lt_trichotomy L l) as [Hlt|[->|Hlt]]; [|done|].
  - specialize (Hmax l ltac:(lia)). congruence.
  - destruct (first_bit h b l L) as [Hd|(j & Hj & Hj')]; [done|done|lia|done|].
    exfalso. apply (tree_suffix _ _ Ht _ (j + 1)) in Ha; [|apply Z.mod_pos_bound; lia|lia].
    rewrite mod_mod_pow, Hj' in Ha by lia.
    apply (tree_order _ _ Ht b l j) in Ha; [congruence|lia|lia].
Qed.

(** Every hash belongs to one server that takes part, namely to the one
    with which it agrees in as many bits as the branch level of that server
    says.  Whatever the tree is like, the buckets are disjoint and leave
    nothing out. *)
Theorem bucket_partition a bm h :
  dist_dir_ok a bm →
  ∃ b, PINT_find_dist_dir_bucket h a bm = Done b ∧ active bm b = true ∧
    0 ≤ b < dd_num_servers a ∧
    ∀ b' l, 0 ≤ b' → active bm b' = true → branch bm b' l → h mod 2 ^ l = b' ↔ b' = b.
Proof.
  intros Hok. destruct (find_bucket_spec a bm h Hok) as (b & Hf & Hb & Hab & Hr).
  exists b. split_and!; [done|done|lia|lia|]. intros b' l Hb' Ha' Hbr. split.
  - intros Hh. symmetry. by eapply agrees_bucket.
  - intros ->. by eapply bucket_agrees.
Qed.

(** ** Splits *)

Definition adds (bm bm' : list Z) (n : Z) : Prop :=
  ∀ j, 0 ≤ j → active bm' j = (j =? n) || active bm j.

Lemma add_child n bm bm' s l :
  tree n bm → 0 ≤ s → active bm s = true → branch bm s l → s + 2 ^ l < n →
  adds bm bm' (s + 2 ^ l) → tree n bm'.
Proof.
  intros Ht Hs Ha (Hl & Hsl & Hall & Hno) Hn Hadd. split.
  - intros i Hi. rewrite Hadd by done. intros [->%Z.eqb_eq|H]%orb_true_iff; [done|].
    by apply (tree_in _ _ Ht).
  - rewrite Hadd by done. by rewrite (tree_root _ _ Ht), orb_true_r.
  - intros i k Hi Hk. pose proof (Z.mod_pos_bound i (2 ^ k) ltac:(lia)).
    rewrite !Hadd by lia. intros [->%Z.eqb_eq|H']%orb_true_iff.
    2: { apply orb_true_iff. right. by apply (tree_suffix _ _ Ht). }
    destruct (decide (l < k)) as [Hlk|Hkl].
    + assert (2 ^ (l + 1) ≤ 2 ^ k) by (apply Z.pow_le_mono_r; lia).
      rewrite Z.pow_add_r in * by lia. rewrite Z.mod_small by lia. by rewrite Z.eqb_refl.
    + apply orb_true_iff. right. replace (2 ^ l) with (2 ^ (l - k) * 2 ^ k)
        by (rewrite <- Z.pow_add_r by lia; f_equal; lia).
      rewrite Z.mod_add by lia. by apply (tree_suffix _ _ Ht).
  - intros s' k k' Hs' Hk. rewrite !Hadd by lia.
    intros [He%Z.eqb_eq|H]%orb_true_iff; apply orb_true_iff.
    2: { right. by apply (tree_order _ _ Ht s' k k'). }
    assert (2 ^ k ≤ 2 ^ k') by (apply Z.pow_le_mono_r; lia).
    assert (k' = l) as ->.
    { assert (Z.log2 (s' + 2 ^ k') = k').
      { apply Z.log2_unique; [lia|]. rewrite <- Z.add_1_r, Z.pow_add_r by lia. lia. }
      assert (Z.log2 (s + 2 ^ l) = l).
      { apply Z.log2_unique; [lia|]. rewrite <- Z.add_1_r, Z.pow_add_r by lia. lia. }
      congruence. }
    assert (s' = s) as -> by lia.
    destruct (decide (k = l)) as [->|]; [left; by rewrite Z.eqb_refl|].
    right. apply Hall; lia.
Qed.

Lemma bucket_split a bm a' bm' h b b' s l :
  dist_dir_ok a bm → dd_tree_height a' = dd_tree_height a → 0 ≤ s → active bm s = true →
  branch bm s l → s + 2 ^ l < dd_num_servers a → adds bm bm' (s + 2 ^ l) →
  bucket (dd_tree_height a) bm h b → bucket (dd_tree_height a') bm' h b' →
  b' = if (b =? s) && Z.testbit h l then s + 2 ^ l else b.
Proof.
  intros Hok -> Hs Ha Hbr Hn Hadd Hb (L & HL & -> & Ha' & Hmax).
  pose proof (ok_tree _ _ Hok) as Ht. pose proof (ok_servers _ _ Hok).
  pose proof (ok_height _ _ Hok). pose proof Hbr as (Hl & Hsl & _ & Hno).
  assert (l < dd_tree_height a).
  { apply Z.nle_gt. intros Hle. assert (2 ^ dd_tree_height a ≤ 2 ^ l) by (apply Z.pow_le_mono_r; lia). lia. }
  pose proof (Z.mod_pos_bound h (2 ^ L) ltac:(lia)). rewrite Hadd in Ha' by lia.
  assert (∀ k, 0 ≤ k → 0 ≤ h mod 2 ^ k) as Hpos by (intros; apply Z.mod_pos_bound; lia).
  destruct ((b =? s) && Z.testbit h l) eqn:Hc.
  - apply andb_true_iff in Hc as [->%Z.eqb_eq Hbit].
    pose proof (bucket_agrees _ _ _ _ _ Hok Hbr Hb) as Hh.
    assert (h mod 2 ^ (l + 1) = s + 2 ^ l) as Hh1 by (rewrite mod_pow_succ, Hh, Hbit by lia; done).
    apply orb_true_iff in Ha' as [He%Z.eqb_eq|Ha']; [done|]. exfalso.
    assert (l + 1 ≤ L).
    { apply Z.nlt_ge. intros Hlt. specialize (Hmax (l + 1) ltac:(lia)).
      rewrite Hadd, Hh1, Z.eqb_refl in Hmax by (apply Hpos; lia). done. }
    apply (tree_suffix _ _ Ht _ (l + 1)) in Ha'; [|lia|lia].
    rewrite mod_mod_pow, Hh1 in Ha' by lia. congruence.
  - apply orb_true_iff in Ha' as [He%Z.eqb_eq|Ha'].
    + exfalso. assert (l + 1 ≤ L).
      { apply Z.nlt_ge. intros Hlt. assert (2 ^ L ≤ 2 ^ l) by (apply Z.pow_le_mono_r; lia). lia. }
      assert (h mod 2 ^ (l + 1) = s + 2 ^ l) as Hh1.
      { rewrite <- (mod_mod_pow h (l + 1) L), He by lia. apply Z.mod_small.
        rewrite Z.pow_add_r by lia. lia. }
      rewrite mod_pow_succ in Hh1 by lia. pose proof (Z.mod_pos_bound h (2 ^ l) ltac:(lia)).
      destruct (Z.testbit h l) eqn:Hbit; [|lia].
      assert (b = s) as -> by (eapply agrees_bucket; [done..| |done]; lia).
      by rewrite Z.eqb_refl in Hc.
    + eapply bucket_unique; [|done]. exists L. split_and!; [lia..|done|done|].
      intros L' HL'. specialize (Hmax L' HL'). rewrite Hadd in Hmax by (apply Hpos; lia).
      by apply orb_false_iff in Hmax as [_ ?].
Qed.

Lemma with_branch_level_ok a bm l : dist_dir_ok a bm → dist_dir_ok (with_branch_level a l) bm.
Proof. by intros [? ? ? ? ?]; split. Qed.

(** The attributes of a server that takes part, as [dist_dir_calc_branch_level]
    leaves them. *)
Record server_ok (a : PVFS_dist_dir_attr) (bm : list Z) : Prop := mk_server_ok {
  server_dir : dist_dir_ok a bm;
  server_no_range : 0 ≤ dd_server_no a < dd_num_servers a;
  server_active : active bm (dd_server_no a) = true;
  server_level : branch bm (dd_server_no a) (dd_branch_level a);
}.

(** The branch level is found if its bit lies in the bitmap, which is read
    beyond its end otherwise. *)
Lemma calc_branch_level_exact a bm l :
  dist_dir_ok a bm → 0 ≤ dd_server_no a < dd_num_servers a → active bm (dd_server_no a) = true →
  branch bm (dd_server_no a) l →
  dist_dir_calc_branch_level a bm =
    if decide (32 * dd_bitmap_size a ≤ dd_server_no a + 2 ^ l) then Fault BadAccess else Done l.
Proof.
  intros Hok Hs Ha Hbr. pose proof Hok as [Hh Hn Hsz Hbits Ht]. pose proof Hbr as (Hl & Hsl & Hall & Hno).
  pose proof (branch_height a bm (dd_server_no a) l Hok ltac:(lia) Hbr) as Hlh.
  unfold dist_dir_calc_branch_level. rewrite decide_True by lia. rewrite TST_BIT_active by lia.
  cbn [mbind exec_bind]. rewrite Ha. cbn [negb].
  assert (2 ^ dd_tree_height a ≤ 2 ^ 30) by (apply Z.pow_le_mono_r; lia).
  destruct (bits_loop_spec 33 (dd_server_no a) 0) as (l0 & -> & Hl0 & Hup & Hlow);
    [change (2 ^ (0 + Z.of_nat 33 - 1)) with 4294967296; change (2 ^ 30) with 1073741824 in *; lia|lia..|].
  cbn [mbind exec_bind].
  assert (l0 ≤ l).
  { destruct Hlow as [->|Hlow]; [lia|]. apply Z.nlt_ge. intros ?.
    assert (2 ^ l ≤ 2 ^ (l0 - 1)) by (apply Z.pow_le_mono_r; lia). lia. }
  case_decide as Hin.
  - apply (branch_loop_overrun bm _ l); [lia..|]. intros k Hk.
    assert (2 ^ l0 ≤ 2 ^ k) by (apply Z.pow_le_mono_r; lia). apply Hall; lia.
  - apply branch_loop_found; [lia..|done|lia].
Qed.

(** The next bit of the split server. *)
Lemma branch_next n bm bm' s l :
  tree n bm → 0 ≤ s → branch bm s l → adds bm bm' (s + 2 ^ l) → branch bm' s (l + 1).
Proof.
  intros Ht Hs (Hl & Hsl & Hall & Hno) Hadd.
  pose proof (Z.pow_add_r 2 l 1 ltac:(lia) ltac:(lia)) as Hp. change (2 ^ 1) with 2 in Hp.
  split_and!; [lia|lia| |].
  - intros k Hk Hsk. rewrite Hadd by lia. destruct (decide (k = l)) as [->|]; [by rewrite Z.eqb_refl|].
    by rewrite Hall, orb_true_r by lia.
  - rewrite Hadd by lia. replace (s + 2 ^ (l + 1) =? s + 2 ^ l) with false by lia. rewrite orb_false_l.
    destruct (active bm (s + 2 ^ (l + 1))) eqn:Ha; [|done].
    apply (tree_order _ _ Ht s l) in Ha; [congruence|lia|lia].
Qed.

(** With bits above the tree, as a directory on up to 16 servers has, no split
    reads beyond the bitmap. *)
Lemma roomy_split a bm :
  server_ok a bm → roomy a → dd_server_no a + 2 ^ dd_branch_level a < dd_num_servers a →
  dd_server_no a + 2 ^ (dd_branch_level a + 1) < 32 * dd_bitmap_size a.
Proof.
  intros [[Hh Hn _ _ _] Hs _ (Hl & _)] Hr Hlt. unfold roomy in Hr.
  rewrite Z.pow_add_r in * by lia. lia.
Qed.

(** C27. What a split does, for every server of every directory.  It gives back
    -1 and changes nothing if the next child of the server would be beyond the
    last server.  Otherwise the child is a server that does not take part; if
    the bit of the child after it lies in the bitmap, the split succeeds: the
    child is added, the branch level grows by one, and what belongs to the
    new server are exactly the hashes that belonged to the split server and
    whose next bit is set, every other hash stays where it was.  If that bit
    lies beyond the end of the bitmap it is read nevertheless; this happens
    at the last level of the tree alone, and not on up to 16 servers
    ([roomy_split]). *)
Theorem split_moves a bm :
  server_ok a bm →
  let s := dd_server_no a in
  let l := dd_branch_level a in
  let new := s + 2 ^ l in
  if decide (dd_num_servers a ≤ new) then PINT_find_dist_dir_split_node a bm = Done (-1, a, bm)
  else active bm new = false ∧
    if decide (32 * dd_bitmap_size a ≤ s + 2 ^ (l + 1))
    then l + 1 = dd_tree_height a ∧ PINT_find_dist_dir_split_node a bm = Fault BadAccess
    else ∃ bm', PINT_find_dist_dir_split_node a bm = Done (new, with_branch_level a (l + 1), bm') ∧
      adds bm bm' new ∧ server_ok (with_branch_level a (l + 1)) bm' ∧
      ∀ h b, PINT_find_dist_dir_bucket h a bm = Done b →
        PINT_find_dist_dir_bucket h (with_branch_level a (l + 1)) bm'
        = Done (if (b =? s) && Z.testbit h l then new else b).
Proof.
  intros [Hok Hs Ha Hbr] s l new. unfold PINT_find_dist_dir_split_node.
  pose proof Hbr as (Hl & Hsl & _ & Hno). pose proof Hok as [Hh Hn Hsz Hbits Ht].
  assert (2 ^ dd_tree_height a ≤ 2 ^ 30) by (apply Z.pow_le_mono_r; lia). change (2 ^ 30) with 1073741824 in *.
  pose proof (branch_height a bm (dd_server_no a) (dd_branch_level a) Hok ltac:(lia) Hbr) as Hlh.
  fold s l in Hs, Hl, Hsl, Hlh, Ha, Hno, Hbr |- *. fold new in Hno.
  assert (2 ^ l ≤ 2 ^ dd_tree_height a) by (apply Z.pow_le_mono_r; lia).
  rewrite !(decide_True (P := _ > -1)) by lia. destruct (decide (l >= dd_tree_height a)) as [Hfull|Hfull].
  { rewrite decide_True; [done|]. unfold new. assert (l = dd_tree_height a) as -> by lia. lia. }
  rewrite shift1_ok by lia. cbn [mbind exec_bind].
  rewrite i64_id, i32_id by lia. fold new. assert (new = s + 2 ^ l) as Hnew by done. clearbody new.
  destruct (decide (new >= dd_num_servers a)) as [Hbig|Hsmall]; [by rewrite decide_True by lia|].
  rewrite decide_False by lia. split; [done|].
  rewrite TST_BIT_active by lia. cbn [mbind exec_bind]. rewrite Hno.
  destruct (SET_BIT_active bm new) as (bm' & -> & Hlen & Hadd); [lia|]. cbn [mbind exec_bind].
  assert (active bm' s = true) as Ha' by (rewrite Hadd by lia; by rewrite Ha, orb_true_r).
  rewrite Hnew in Hadd.
  assert (dist_dir_ok a bm') as Hok'.
  { split; [done..|by rewrite Hlen|done|]. eapply add_child; [exact Ht|apply Hs|exact Ha|exact Hbr|lia|exact Hadd]. }
  pose proof (branch_next _ _ _ _ _ Ht (proj1 Hs) Hbr Hadd) as Hbr'.
  rewrite (calc_branch_level_exact a bm' (l + 1) Hok' Hs Ha' Hbr'). fold s. rewrite <- Hnew in Hadd.
  case_decide as Hover.
  { split; [|done]. pose proof (branch_height a bm' s (l + 1) Hok' ltac:(lia) Hbr').
    apply Z.le_antisymm; [done|]. apply Z.nlt_ge. intros Hlt.
    assert (2 ^ (l + 2) ≤ 2 ^ dd_tree_height a) by (apply Z.pow_le_mono_r; lia).
    rewrite !Z.pow_add_r in * by lia. lia. }
  cbn [mbind exec_bind]. exists bm'. split; [done|].
  assert (server_ok (with_branch_level a (l + 1)) bm') as Hsv
    by (split; [by apply with_branch_level_ok|done..]).
  split_and!; [done..|]. intros h b Hb. apply (find_bucket_iff _ _ _ _ Hok) in Hb.
  destruct (find_bucket_spec _ _ h (server_dir _ _ Hsv)) as (b' & Hf & Hb' & _).
  rewrite Hf. f_equal. rewrite Hnew in *. eapply (bucket_split a bm);
    [exact Hok| |apply Hs|exact Ha|exact Hbr|lia|exact Hadd|exact Hb|exact Hb']; done.
Qed.

(** ** Other operations *)

Lemma set_bits_active n bm :
  Z.of_nat n ≤ 32 * len bm →
  ∃ bm', set_bits bm n = Done bm' ∧ length bm' = length bm ∧
    ∀ j, 0 ≤ j → active bm' j = (j <? Z.of_nat n) || active bm j.
Proof.
  revert bm. induction n as [|n IH]; intros bm Hn; simpl.
  - exists bm. split_and!; [done|done|]. intros j Hj.
    destruct (Z.ltb_spec j (Z.of_nat 0)); [lia|done].
  - destruct (SET_BIT_active bm (Z.of_nat n)) as (bm1 & -> & Hlen & Hadd); [lia|].
    cbn [mbind exec_bind]. destruct (IH bm1) as (bm' & -> & Hlen' & Hadd'); [rewrite Hlen; lia|].
    exists bm'. split_and!; [done|by rewrite Hlen'|]. intros j Hj. rewrite Hadd', Hadd, orb_assoc by done.
    f_equal. lia.
Qed.

Lemma active_replicate n j : active (replicate n 0) j = false.
Proof.
  unfold active. destruct (replicate n 0 !! _) eqn:Hl; [|done].
  apply lookup_replicate in Hl as [-> _]. apply Z.bits_0.
Qed.

Lemma initial_tree n k bm :
  0 < k ≤ n → (∀ j, 0 ≤ j → active bm j = (j <? k)) → tree n bm.
Proof.
  intros Hk Hb. split.
  - intros i Hi. rewrite Hb by done. lia.
  - rewrite Hb by done. lia.
  - intros i l Hi Hl. rewrite !Hb by (try apply Z.mod_pos_bound; lia).
    pose proof (Z.mod_le i (2 ^ l) ltac:(lia) ltac:(lia)). lia.
  - intros s l l' Hs Hl. assert (2 ^ l ≤ 2 ^ l') by (apply Z.pow_le_mono_r; lia).
    rewrite !Hb by lia. lia.
Qed.

Section init.
Context (ceil_log2 : Z → Z) (num_servers : Z).
(** What the rounding of the floating point logarithms has to give. *)
Hypothesis ceil_log2_spec : ceil_log2 num_servers = Z.log2_up num_servers.
Hypothesis num_servers_range : 0 < num_servers ≤ 2 ^ 30.

Lemma init_size :
  let ht := ceil_log2 num_servers in
  let size := if decide (2 ^ ht > 32) then i32 (Z.shiftr (2 ^ ht) 5) else 1 in
  0 ≤ ht ≤ 30 ∧ num_servers ≤ 2 ^ ht ≤ 32 * size ∧ 0 < size ∧
  (num_servers ≤ 16 → 2 ^ (ht + 1) ≤ 32 * size) ∧ (16 < num_servers → 32 * size = 2 ^ ht).
Proof.
  cbv zeta. rewrite ceil_log2_spec.
  assert (0 ≤ Z.log2_up num_servers ≤ 30) as Hht.
  { split; [apply Z.log2_up_nonneg|]. rewrite <- (Z.log2_up_pow2 30) by lia. apply Z.log2_up_le_mono. lia. }
  assert (num_servers ≤ 2 ^ Z.log2_up num_servers) as Hle.
  { destruct (decide (num_servers = 1)) as [->|]; [done|]. apply Z.log2_up_spec. lia. }
  assert (16 < num_servers ↔ 4 < Z.log2_up num_servers) as H16.
  { change 16 with (2 ^ 4) at 1. apply Z.log2_up_lt_pow2. lia. }
  assert (2 ^ Z.log2_up num_servers ≤ 2 ^ 30) by (apply Z.pow_le_mono_r; lia).
  change (2 ^ 30) with 1073741824 in *.
  case_decide as Hd.
  - assert (5 < Z.log2_up num_servers) as Hlt.
    { apply Z.nle_gt. intros ?. assert (2 ^ Z.log2_up num_servers ≤ 2 ^ 5) by (apply Z.pow_le_mono_r; lia). lia. }
    rewrite Z.shiftr_div_pow2 by lia. change (2 ^ 5) with 32.
    assert (2 ^ Z.log2_up num_servers = 2 ^ (Z.log2_up num_servers - 5) * 32) as Hp.
    { change 32 with (2 ^ 5) at 1. rewrite <- Z.pow_add_r by lia. f_equal. lia. }
    rewrite Hp, Z.div_mul by lia. rewrite i32_id by lia.
    assert (0 < 2 ^ (Z.log2_up num_servers - 5)) by lia. split_and!; lia.
  - split_and!; try lia.
    + intros ?. assert (2 ^ (Z.log2_up num_servers + 1) ≤ 2 ^ 5) by (apply Z.pow_le_mono_r; lia). lia.
    + intros ?. assert (2 ^ 5 ≤ 2 ^ Z.log2_up num_servers) by (apply Z.pow_le_mono_r; lia). lia.
Qed.

Definition initial_servers (pre : Z) : Z :=
  if decide (pre <= 0 ∨ pre > num_servers) then num_servers else pre.

Lemma init_bitmap pre size :
  num_servers ≤ 32 * size →
  ∃ bm, set_bits (replicate (Z.to_nat size) 0) (Z.to_nat (initial_servers pre)) = Done bm ∧
    len bm = size ∧ (∀ j, 0 ≤ j → active bm j = (j <? initial_servers pre)) ∧
    0 < initial_servers pre ≤ num_servers.
Proof.
  intros Hs. assert (0 < initial_servers pre ≤ num_servers) as Hi.
  { unfold initial_servers. case_decide; lia. }
  destruct (set_bits_active (Z.to_nat (initial_servers pre)) (replicate (Z.to_nat size) 0))
    as (bm & Hbm & Hlen & Hact); [rewrite length_replicate; lia|].
  rewrite length_replicate in Hlen. exists bm. split_and!; [done|lia| |lia|lia].
  intros j Hj. rewrite Hact, active_replicate, orb_false_r by done. by rewrite Z2Nat.id by lia.
Qed.

(** A new directory on up to 16 servers: the first [pre] servers take part. *)
Theorem init_correct server_no pre split_size :
  num_servers ≤ 16 → -1 ≤ server_no < num_servers →
  ∃ a bm, PINT_init_dist_dir_state ceil_log2 true num_servers server_no pre split_size
    = Done (Some (a, bm)) ∧
    dist_dir_ok a bm ∧ roomy a ∧ dd_num_servers a = num_servers ∧ dd_server_no a = server_no ∧
    (∀ j, 0 ≤ j → active bm j = (j <? initial_servers pre)) ∧
    (0 ≤ server_no < initial_servers pre → server_ok a bm).
Proof.
  intros H16 Hsn. pose proof init_size as Hsize. cbv zeta in Hsize.
  destruct Hsize as (Hh & Hsz & Hpos & Hroom & _).
  unfold PINT_init_dist_dir_state. rewrite decide_True by lia.
  rewrite shift1_ok by lia. cbn [mbind exec_bind negb].
  set (size := if decide (2 ^ _ > 32) then _ else 1) in *.
  destruct (init_bitmap pre size) as (bm & Hset & Hlen & Hact & Hi); [lia|].
  change (if decide (pre <= 0 ∨ pre > num_servers) then num_servers else pre)
    with (initial_servers pre). rewrite Hset. cbn [mbind exec_bind].
  set (a := mk_dist_dir_attr _ _ _ _ _ _).
  assert (dist_dir_ok a bm) as Hok.
  { split; simpl; [lia|lia|done|lia|]. by eapply initial_tree. }
  assert (roomy a) as Hr by (unfold roomy; simpl; apply Hroom; lia).
  destruct (decide (server_no > -1)) as [Hs|Hs].
  - destruct (calc_branch_level_spec a bm Hok Hr) as (l & -> & Hl); [simpl; lia|]. cbn [mbind exec_bind].
    do 2 eexists. split; [done|]. split_and!; [by apply with_branch_level_ok|done..|].
    intros Hin. rewrite (Hact (dd_server_no a)) in Hl by (simpl; lia). simpl in Hl.
    replace (server_no <? initial_servers pre) with true in Hl by lia.
    split; [by apply with_branch_level_ok|simpl; lia| |apply Hl]. simpl. rewrite Hact by lia. lia.
  - cbn [mbind exec_bind]. do 2 eexists. split; [done|]. split_and!; [by apply with_branch_level_ok|done..|lia].
Qed.

(** C38. A new directory on more than 16 servers: if more than half of the tree
    takes part, the branch level of server 0 is looked for beyond the end of
    the bitmap. *)
Theorem init_overrun pre split_size :
  16 < num_servers → 2 ^ (Z.log2_up num_servers - 1) < initial_servers pre →
  PINT_init_dist_dir_state ceil_log2 true num_servers 0 pre split_size = Fault BadAccess.
Proof.
  intros H16 Hpre. pose proof init_size as Hsize. cbv zeta in Hsize.
  destruct Hsize as (Hh & Hsz & Hpos & _ & Hover). specialize (Hover H16).
  unfold PINT_init_dist_dir_state. rewrite decide_True by lia.
  rewrite shift1_ok by lia. cbn [mbind exec_bind negb].
  set (size := if decide (2 ^ _ > 32) then _ else 1) in *.
  destruct (init_bitmap pre size) as (bm & Hset & Hlen & Hact & Hi); [lia|].
  change (if decide (pre <= 0 ∨ pre > num_servers) then num_servers else pre)
    with (initial_servers pre). rewrite Hset. cbn [mbind exec_bind]. rewrite decide_True by lia.
  unfold dist_dir_calc_branch_level. cbn [dd_server_no dd_num_servers]. rewrite decide_True by lia.
  rewrite TST_BIT_active by lia. cbn [mbind exec_bind]. rewrite Hact by lia.
  replace (0 <? initial_servers pre) with true by lia. cbn [negb].
  change (bits_loop 33 0 0) with (Done 0). cbn [mbind exec_bind].
  rewrite (branch_loop_overrun bm 0 (ceil_log2 num_servers)); [done|lia..|].
  intros k Hk. rewrite Z.add_0_l, Hact by lia. apply Z.ltb_lt. eapply Z.le_lt_trans; [|done].
  rewrite <- ceil_log2_spec. apply Z.pow_le_mono_r; lia.
Qed.
End init.

(** * Examples *)

(** Servers 0, 1 and 2 of four take part, seen by server 1. *)
Definition sample_attr : PVFS_dist_dir_attr := mk_dist_dir_attr 2 4 1 100 1 1.

Lemma ones_active k j : 0 ≤ k ≤ 32 → 0 ≤ j → active [Z.ones k] j = (j <? k).
Proof.
  intros Hk Hj. unfold active. destruct (decide (j < 32)) as [Hj32|Hj32].
  - rewrite Z.div_small, Z.mod_small by lia. change (Z.to_nat 0) with O. simpl.
    destruct (Z.ltb_spec j k); [apply Z.ones_spec_low|apply Z.ones_spec_high]; lia.
  - rewrite lookup_ge_None_2; [lia|]. simpl. zify; Z.to_euclidean_division_equations; lia.
Qed.

Lemma sample_server_ok : server_ok sample_attr [7].
Proof.
  assert (dist_dir_ok sample_attr [7]).
  { split; [done..|]. apply (initial_tree 4 3); [done|]. intros. apply (ones_active 3); lia. }
  split; [done..|]. split_and!; [done|done| |done]. intros k Hk Hlt.
  assert (k = 0) as -> by (simpl in Hk; lia). by compute in Hlt.
Qed.

Lemma bucket_partition_witness :
  ∃ b, PINT_find_dist_dir_bucket 7 sample_attr [7] = Done b ∧ b = 1.
Proof.
  destruct (bucket_partition sample_attr [7] 7 (server_dir _ _ sample_server_ok))
    as (b & Hb & _ & _ & Hu).
  exists b. split; [done|]. symmetry. by apply (Hu 1 1); [..|apply sample_server_ok|].
Defined.

(** Sixteen of 17 servers, seen by server 0: the bitmap has 32 bits, and the
    split that adds the last server reads bit 32. *)
Definition wide_attr : PVFS_dist_dir_attr := mk_dist_dir_attr 5 17 1 100 0 4.

Lemma wide_server_ok : server_ok wide_attr [Z.ones 16].
Proof.
  split; [|done|done|].
  - split; [done..|]. apply (initial_tree 17 16); [done|]. intros. apply ones_active; lia.
  - split_and!; [done|done| |done]. intros k Hk _. simpl in *. rewrite ones_active by lia.
    assert (2 ^ k ≤ 2 ^ 3) by (apply Z.pow_le_mono_r; lia). change (2 ^ 3) with 8 in *. lia.
Qed.

Lemma split_moves_witness :
  (∃ a' bm', PINT_find_dist_dir_split_node sample_attr [7] = Done (3, a', bm') ∧
     PINT_find_dist_dir_bucket 7 a' bm' = Done 3) ∧
  PINT_find_dist_dir_split_node wide_attr [Z.ones 16] = Fault BadAccess.
Proof.
  split.
  - destruct (split_moves sample_attr [7] sample_server_ok) as (_ & bm' & Hs & _ & _ & Hm).
    exists (with_branch_level sample_attr 2), bm'. split; [done|]. by apply (Hm 7 1).
  - apply (split_moves wide_attr [Z.ones 16] wide_server_ok).
Defined.

Lemma init_correct_witness :
  ∃ a bm, PINT_init_dist_dir_state Z.log2_up true 5 1 2 100 = Done (Some (a, bm)) ∧ server_ok a bm.
Proof.
  destruct (init_correct Z.log2_up 5 eq_refl ltac:(lia) 1 2 100 ltac:(lia) ltac:(lia))
    as (a & bm & Hi & _ & _ & _ & _ & _ & Hok).
  exists a, bm. split; [done|]. apply Hok. vm_compute. split; congruence.
Defined.

Lemma init_overrun_witness :
  PINT_init_dist_dir_state Z.log2_up true 17 0 0 100 = Fault BadAccess.
Proof. apply (init_overrun Z.log2_up 17 eq_refl); [lia..|done]. Defined.
