(* ===== verification/Keyval.v ===== *)
(** The storage of keys and values (src/src/io/trove/trove-dbpf/dbpf-keyval.c
    over dbpf-db-lmdb.c): attributes, directory entries and the number of
    directory entries of every object.  The database is a map ordered by
    [keyval_compare]; a transaction of it may fail.  The theorems show that
    directory entries behave as a map from names to handles that is counted,
    and that iterating page by page lists each of them once. *)

From Stdlib Require Import ZifyBool.
From stdpp Require Import base sorting gmap numbers list.
From S2P Require Import Prelude Errors.
From S2P Require Import Wire.

#[local] Open Scope Z_scope.
#[local] Open Scope cint_scope.

(** * Keys *)

Definition DBPF_MAX_KEY_LENGTH : Z := 256.

(** [enum dbpf_key_type]. *)
Definition DBPF_DIRECTORY_ENTRY_TYPE : Z := 100.
Definition DBPF_ATTRIBUTE_TYPE : Z := 97.
Definition DBPF_COUNT_TYPE : Z := 99.

(** [struct dbpf_keyval_db_entry]; the length of the key is known from the
    length of the database key. *)
Record dbpf_keyval_db_entry := mk_entry { ke_handle : Z; ke_type : Z; ke_key : list Z }.

#[export] Instance db_entry_eq_dec : EqDecision dbpf_keyval_db_entry.
Proof. solve_decision. Defined.

#[export] Instance db_entry_countable : Countable dbpf_keyval_db_entry.
Proof.
  apply (inj_countable' (λ e, (ke_handle e, ke_type e, ke_key e))
    (λ '(h, t, k), mk_entry h t k)). by intros [].
Defined.

Definition DBPF_KEYVAL_DB_ENTRY_TOTAL_SIZE (size : Z) : Z := 8 + 1 + size.

Fixpoint memcmp (a b : list Z) : Z :=
  match a, b with
  | x :: a, y :: b => if x <? y then -1 else if y <? x then 1 else memcmp a b
  | _, _ => 0
  end.

Definition keyval_compare (a b : dbpf_keyval_db_entry) : Z :=
  let size e := DBPF_KEYVAL_DB_ENTRY_TOTAL_SIZE (len (ke_key e)) in
  if negb (ke_handle a =? ke_handle b) then (if ke_handle a <? ke_handle b then -1 else 1)
  else if negb (ke_type a =? ke_type b) then (if ke_type a <? ke_type b then -1 else 1)
  else if size a >? size b then 1
  else if size a <? size b then -1
  else memcmp (ke_key a) (ke_key b).

(** * The database *)

Abbreviation entries_map := (gmap dbpf_keyval_db_entry (list Z)).

(** What is stored, and the errors of the transactions to come; when there is
    none left they succeed. *)
Record dbpf_db := mk_db { db_map : entries_map; db_errors : list Z }.

Definition with_map (db : dbpf_db) (m : entries_map) : dbpf_db :=
  mk_db m (db_errors db).

(** [mdb_txn_begin] to [mdb_txn_commit]. *)
Definition transaction {A} (db : dbpf_db) (failed : A)
    (body : entries_map → Z * A * entries_map)
    : Z * A * dbpf_db :=
  match db_errors db with
  | [] => let '(r, a, m) := body (db_map db) in (r, a, mk_db m [])
  | e :: es =>
      if e =? 0 then let '(r, a, m) := body (db_map db) in (r, a, mk_db m es)
      else (e, failed, mk_db (db_map db) es)
  end.

(** [val->len] is set to the length of the value in the database.  As many
    bytes as the buffer has room for are copied from there; the model has the
    value alone, without what lies behind it in the database. *)
Definition dbpf_db_get (db : dbpf_db) (key : dbpf_keyval_db_entry) : Z * list Z * dbpf_db :=
  transaction db [] (λ m, match m !! key with Some v => (0, v, m) | None => (TROVE_ENOENT, [], m) end).

Definition dbpf_db_put (db : dbpf_db) (key : dbpf_keyval_db_entry) (val : list Z) : Z * dbpf_db :=
  let '(r, _, db) := transaction db tt (λ m, (0, tt, <[key := val]> m)) in (r, db).

Definition dbpf_db_putonce (db : dbpf_db) (key : dbpf_keyval_db_entry) (val : list Z)
    : Z * dbpf_db :=
  let '(r, _, db) := transaction db tt (λ m,
    match m !! key with Some _ => (TROVE_EEXIST, tt, m) | None => (0, tt, <[key := val]> m) end) in
  (r, db).

Definition dbpf_db_del (db : dbpf_db) (key : dbpf_keyval_db_entry) : Z * dbpf_db :=
  let '(r, _, db) := transaction db tt (λ m,
    match m !! key with Some _ => (0, tt, delete key m) | None => (TROVE_ENOENT, tt, m) end) in
  (r, db).

(** ** Cursors *)

Definition key_le (a b : dbpf_keyval_db_entry) : Prop := keyval_compare a b ≤ 0.

#[export] Instance key_le_dec : RelDecision key_le.
Proof. intros a b. unfold key_le. apply _. Defined.

Definition entry_le (a b : dbpf_keyval_db_entry * list Z) : Prop := key_le a.1 b.1.

#[export] Instance entry_le_dec : RelDecision entry_le.
Proof. intros a b. unfold entry_le. apply _. Defined.

Definition sorted_entries (m : entries_map)
    : list (dbpf_keyval_db_entry * list Z) :=
  merge_sort entry_le (map_to_list m).

(** MDB_SET_RANGE, the first entry that is not before the key; MDB_NEXT,
    the first one behind it, where the key may have been deleted meanwhile. *)
Definition cursor_set_range (m : entries_map) (key : dbpf_keyval_db_entry)
    : option (dbpf_keyval_db_entry * list Z) :=
  find (λ e, keyval_compare key e.1 <=? 0) (sorted_entries m).

Definition cursor_next (m : entries_map) (key : dbpf_keyval_db_entry)
    : option (dbpf_keyval_db_entry * list Z) :=
  find (λ e, keyval_compare key e.1 <? 0) (sorted_entries m).

(** * Operations *)

(** The flags of trove.h. *)
Definition TROVE_NOOVERWRITE : Z := 2 ^ 3.
Definition TROVE_ONLYOVERWRITE : Z := 2 ^ 4.
Definition TROVE_KEYVAL_HANDLE_COUNT : Z := 2 ^ 7.
Definition TROVE_KEYVAL_ITERATE_REMOVE : Z := 2 ^ 9.
Definition TROVE_KEYVAL_DIRECTORY_ENTRY : Z := 2 ^ 10.

Definition flag (flags bit : Z) : bool := negb (Z.land flags bit =? 0).

Definition DBPF_OP_COMPLETE : Z := 1.

Definition key_type (flags : Z) : Z :=
  if flag flags TROVE_KEYVAL_DIRECTORY_ENTRY then DBPF_DIRECTORY_ENTRY_TYPE
  else DBPF_ATTRIBUTE_TYPE.

(** [memcpy(key_entry.key, ...)] into the array of the entry. *)
Definition make_key (handle type : Z) (key : list Z) : exec dbpf_keyval_db_entry :=
  if decide (len key ≤ DBPF_MAX_KEY_LENGTH) then Done (mk_entry handle type key)
  else Fault BadAccess.

(** [TROVE_keyval_handle_info], a [uint32_t]. *)
Definition encode_info (count : Z) : list Z := Z_to_little_endian 4 8 count.
Definition decode_info (v : list Z) : Z := little_endian_to_Z 8 (take 4 v).

Definition count_key (handle : Z) : dbpf_keyval_db_entry := mk_entry handle DBPF_COUNT_TYPE [].

Inductive dbpf_handle_info_action :=
  DBPF_KEYVAL_HANDLE_COUNT_INCREMENT | DBPF_KEYVAL_HANDLE_COUNT_DECREMENT.

Definition dbpf_keyval_handle_info_ops (db : dbpf_db) (handle flags : Z)
    (action : dbpf_handle_info_action) : exec (Z * dbpf_db) :=
  if negb (flag flags TROVE_KEYVAL_HANDLE_COUNT) then Done (0, db)
  else
    let '(ret, v, db) := dbpf_db_get db (count_key handle) in
    if negb (ret =? TROVE_ENOENT) && negb (ret =? 0) then Done (- ret, db)
    else
      let count := if ret =? 0 then decode_info v else 0 in
      match action with
      | DBPF_KEYVAL_HANDLE_COUNT_INCREMENT =>
          let '(ret, db) := dbpf_db_put db (count_key handle) (encode_info (count +ᵤ 1)) in
          Done (if ret =? 0 then 0 else - ret, db)
      | DBPF_KEYVAL_HANDLE_COUNT_DECREMENT =>
          if decide (count > 0) then
            let count := count -ᵤ 1 in
            if count =? 0 then
              let '(ret, db) := dbpf_db_del db (count_key handle) in
              Done (if ret =? 0 then 0 else - ret, db)
            else
              let '(ret, db) := dbpf_db_put db (count_key handle) (encode_info count) in
              Done (if ret =? 0 then 0 else - ret, db)
          else Fault AssertFailed
      end.

(** The result, and what is written to the buffer of [val] and to
    [read_sz].  When the read fails [data.len] is still the size of the
    buffer. *)
Definition dbpf_keyval_read_op_svc (db : dbpf_db) (handle : Z) (key : list Z) (buffer_sz flags : Z)
    : exec (Z * option (list Z * Z) * dbpf_db) :=
  k ← make_key handle (key_type flags) key;
  let '(ret, v, db) := dbpf_db_get db k in
  if negb (ret =? 0) then Done (- ret, None, db)
  else Done (1, Some (take (Z.to_nat buffer_sz) v, len v), db).

Definition dbpf_keyval_write_op_svc (db : dbpf_db) (handle : Z) (key val : list Z) (flags : Z)
    : exec (Z * dbpf_db) :=
  if decide (len key ≤ DBPF_MAX_KEY_LENGTH) then
    k ← make_key handle (key_type flags) key;
    let '(ret, db) :=
      if flag flags TROVE_ONLYOVERWRITE then
        let '(ret, _, db) := dbpf_db_get db k in (- ret, db)
      else (0, db) in
    if negb (ret =? 0) then Done (ret, db)
    else
      let '(ret, db) := if flag flags TROVE_NOOVERWRITE then dbpf_db_putonce db k val
                        else dbpf_db_put db k val in
      if negb (ret =? 0) then Done (- ret, db)
      else if flag flags TROVE_NOOVERWRITE then
        '(ret, db) ← dbpf_keyval_handle_info_ops db handle flags DBPF_KEYVAL_HANDLE_COUNT_INCREMENT;
        Done (if negb (ret =? 0) then ret else DBPF_OP_COMPLETE, db)
      else Done (DBPF_OP_COMPLETE, db)
  else Fault AssertFailed.

(** The result, and the value that was there if there is a buffer for it and
    it could be read. *)
Definition dbpf_keyval_do_remove (db : dbpf_db) (handle type : Z) (key : list Z) (buffer : bool)
    : exec (Z * option (list Z) * dbpf_db) :=
  k ← make_key handle type key;
  let '(val, db) :=
    if buffer then
      let '(ret, v, db) := dbpf_db_get db k in (if ret =? 0 then Some v else None, db)
    else (None, db) in
  let '(ret, db) := dbpf_db_del db k in
  Done (- ret, val, db).

Definition dbpf_keyval_remove_op_svc (db : dbpf_db) (handle : Z) (key : list Z) (buffer : bool)
    (flags : Z) : exec (Z * option (list Z) * dbpf_db) :=
  '(ret, val, db) ← dbpf_keyval_do_remove db handle (key_type flags) key buffer;
  if negb (ret =? 0) then Done (ret, val, db)
  else
    '(ret, db) ← dbpf_keyval_handle_info_ops db handle flags DBPF_KEYVAL_HANDLE_COUNT_DECREMENT;
    Done (if negb (ret =? 0) then ret else DBPF_OP_COMPLETE, val, db).

(** [remove_count], and the errors; there are buffers for the values. *)
Fixpoint remove_loop (db : dbpf_db) (handle type : Z) (keys : list (list Z))
    : exec (Z * list Z * dbpf_db) :=
  match keys with
  | [] => Done (0, [], db)
  | key :: keys =>
      '(ret, _, db) ← dbpf_keyval_do_remove db handle type key true;
      '(n, errors, db) ← remove_loop db handle type keys;
      Done (if ret =? 0 then n + 1 else n, ret :: errors, db)
  end.

Definition dbpf_keyval_remove_list_op_svc (db : dbpf_db) (handle : Z) (keys : list (list Z))
    (flags : Z) : exec (Z * list Z * dbpf_db) :=
  '(remove_count, errors, db) ← remove_loop db handle (key_type flags) keys;
  if flag flags TROVE_KEYVAL_HANDLE_COUNT then
    let '(ret, v, db) := dbpf_db_get db (count_key handle) in
    if negb (ret =? TROVE_ENOENT) && negb (ret =? 0) then Done (- ret, errors, db)
    else
      let count := (if ret =? 0 then decode_info v else 0) -ᵤ remove_count in
      let '(ret, db) := dbpf_db_put db (count_key handle) (encode_info count) in
      Done (if negb (ret =? 0) then - ret else DBPF_OP_COMPLETE, errors, db)
  else Done (DBPF_OP_COMPLETE, errors, db).

(** The first loop: a key that is absent is an error only for
    TROVE_ONLYOVERWRITE without TROVE_NOOVERWRITE, one that is present never
    is. *)
Fixpoint write_list_check (db : dbpf_db) (handle : Z) (keys : list (list Z)) (flags : Z)
    : exec (Z * dbpf_db) :=
  match keys with
  | [] => Done (0, db)
  | key :: keys =>
      k ← make_key handle (key_type flags) key;
      let '(ret, _, db) := dbpf_db_get db k in
      if (ret =? 0) || ((ret =? TROVE_ENOENT) && (flag flags TROVE_NOOVERWRITE
                                                  || negb (flag flags TROVE_ONLYOVERWRITE)))
      then write_list_check db handle keys flags
      else Done (- ret, db)
  end.

Fixpoint write_list_put (db : dbpf_db) (handle : Z) (kvs : list (list Z * list Z)) (flags : Z)
    : exec (Z * dbpf_db) :=
  match kvs with
  | [] => Done (DBPF_OP_COMPLETE, db)
  | (key, val) :: kvs =>
      k ← make_key handle (key_type flags) key;
      let '(ret, db) := dbpf_db_put db k val in
      if negb (ret =? 0) then Done (- ret, db)
      else
        '(ret, db) ← (if flag flags TROVE_NOOVERWRITE then
                        dbpf_keyval_handle_info_ops db handle flags DBPF_KEYVAL_HANDLE_COUNT_INCREMENT
                      else Done (0, db));
        if negb (ret =? 0) then Done (ret, db) else write_list_put db handle kvs flags
  end.

Definition dbpf_keyval_write_list_op_svc (db : dbpf_db) (handle : Z)
    (kvs : list (list Z * list Z)) (flags : Z) : exec (Z * dbpf_db) :=
  '(ret, db) ← write_list_check db handle kvs.*1 flags;
  if negb (ret =? 0) then Done (ret, db) else write_list_put db handle kvs flags.

(** The values that were read, with the errors of the others. *)
Fixpoint read_list_loop (db : dbpf_db) (handle : Z) (keys : list (list Z * Z)) (flags : Z)
    : exec (list (Z * option (list Z * Z)) * dbpf_db) :=
  match keys with
  | [] => Done ([], db)
  | (key, buffer_sz) :: keys =>
      k ← make_key handle (key_type flags) key;
      let '(ret, v, db) := dbpf_db_get db k in
      '(rest, db) ← read_list_loop db handle keys flags;
      Done ((if negb (ret =? 0) then (- ret, None)
             else (0, Some (take (Z.to_nat buffer_sz) v, len v))) :: rest, db)
  end.

Definition dbpf_keyval_read_list_op_svc (db : dbpf_db) (handle : Z) (keys : list (list Z * Z))
    (flags : Z) : exec (Z * list (Z * option (list Z * Z)) * dbpf_db) :=
  '(vals, db) ← read_list_loop db handle keys flags;
  if existsb (λ r, r.1 =? 0) vals then Done (1, vals, db)
  else match vals with
       | (e, _) :: _ => Done (e, vals, db)
       | [] => Fault BadAccess
       end.

Definition dbpf_keyval_get_handle_info_op_svc (db : dbpf_db) (handle : Z)
    : Z * option Z * dbpf_db :=
  let '(ret, v, db) := dbpf_db_get db (count_key handle) in
  if negb (ret =? 0) then (- ret, None, db) else (1, Some (decode_info v), db).

(** ** Iterating *)

Definition TROVE_ITERATE_START : Z := 2147483646.
Definition TROVE_ITERATE_END : Z := 2147483645.
Definition DBPF_ITERATE_CURRENT_POSITION : Z := 1.

Section iterate.
(** What the cache of positions has for a handle and a position. *)
Context (PINT_dbpf_keyval_pcache_lookup : Z → Z → option (list Z)).
Context (handle type : Z).

(** [dbpf_keyval_iterate_cursor_get]: where the cursor has come to counts
    only if the entry is one of the handle and of the type.  The buffers for
    keys and values are taken to be large enough. *)
Definition dbpf_keyval_iterate_cursor_get (e : option (dbpf_keyval_db_entry * list Z))
    : Z * option (dbpf_keyval_db_entry * list Z) :=
  match e with
  | None => (- TROVE_ENOENT, None)
  | Some (k, v) =>
      if negb (ke_handle k =? handle) || negb (ke_type k =? type) then (- TROVE_ENOENT, None)
      else (0, Some (k, v))
  end.

(** The results below have the entry the cursor is at. *)
Definition dbpf_keyval_iterate_get_first_entry (m : entries_map)
    : Z * option (dbpf_keyval_db_entry * list Z) :=
  match dbpf_keyval_iterate_cursor_get (cursor_set_range m (mk_entry handle type [])) with
  | (ret, Some (k, v)) =>
      if len (ke_key k) =? 0 then (0, cursor_next m k) else (0, Some (k, v))
  | (ret, None) => (ret, None)
  end.

Fixpoint step_loop (m : entries_map) (n : nat) (at_ : option (dbpf_keyval_db_entry * list Z))
    : Z * option (dbpf_keyval_db_entry * list Z) :=
  match n with
  | O => (0, at_)
  | S n =>
      match at_ with
      | Some (k, _) =>
          match dbpf_keyval_iterate_cursor_get (cursor_next m k) with
          | (ret, Some e) => step_loop m n (Some e)
          | (ret, None) => (ret, None)
          end
      | None => (- TROVE_ENOENT, None)
      end
  end.

Definition dbpf_keyval_iterate_step_to_position (m : entries_map) (pos : Z)
    : exec (Z * option (dbpf_keyval_db_entry * list Z)) :=
  if decide (pos = TROVE_ITERATE_START) then Fault AssertFailed
  else
    let '(ret, e) := dbpf_keyval_iterate_get_first_entry m in
    if negb (ret =? 0) then Done (ret, e) else Done (step_loop m (Z.to_nat pos) e).

(** [key.buffer] is the key in the cache itself.  Where the entry is gone the
    key that is found is copied over it, as much as there is room for: the
    last result is what has become of the key in the cache. *)
Definition dbpf_keyval_iterate_skip_to_position (m : entries_map) (pos : Z)
    : exec (Z * option (dbpf_keyval_db_entry * list Z) * option (list Z)) :=
  if decide (pos = TROVE_ITERATE_START) then Fault AssertFailed
  else
    match PINT_dbpf_keyval_pcache_lookup handle pos with
    | None =>
        '(ret, e) ← dbpf_keyval_iterate_step_to_position m (Z.land pos 4294967295);
        Done (ret, e, None)
    | Some key =>
        let k := mk_entry handle type key in
        match m !! k with
        | Some v => Done (0, Some (k, v), Some key)
        | None =>
            match dbpf_keyval_iterate_cursor_get (cursor_set_range m k) with
            | (ret, Some e) =>
                Done (DBPF_ITERATE_CURRENT_POSITION, Some e,
                      Some (take (length key) (ke_key e.1) ++ drop (length (ke_key e.1)) key))
            | (ret, None) => Done (ret, None, Some key)
            end
        end
    end.

(** The entries that are read behind the cursor, and the database, from
    which they are deleted if they are to be removed. *)
Fixpoint iterate_loop (m : entries_map) (n : nat) (at_ : option (dbpf_keyval_db_entry * list Z))
    (remove : bool) : Z * list (dbpf_keyval_db_entry * list Z) * entries_map :=
  match n with
  | O => (0, [], m)
  | S n =>
      match at_ with
      | Some (k, _) =>
          match dbpf_keyval_iterate_cursor_get (cursor_next m k) with
          | (ret, Some (k', v')) =>
              let '(ret, es, m) :=
                iterate_loop (if remove then delete k' m else m) n (Some (k', v')) remove in
              (ret, (k', v') :: es, m)
          | (ret, None) => (ret, [], m)
          end
      | None => (- TROVE_ENOENT, [], m)
      end
  end.

(** A count of 0 asks for the number of entries.  The third result is the key
    in the cache, where it has been looked up. *)
Definition PINT_dbpf_keyval_iterate (db : dbpf_db) (count pos : Z) (remove : bool)
    : exec (Z * list (dbpf_keyval_db_entry * list Z) * option (list Z) * dbpf_db) :=
  let '(ret, _, db) := transaction db tt (λ m, (0, tt, m)) in
  if negb (ret =? 0) then Done (- ret, [], None, db)
  else
    let m := db_map db in
    '(ret, e, key) ← (if decide (pos = TROVE_ITERATE_START) then
                        let '(ret, e) := dbpf_keyval_iterate_get_first_entry m in
                        Done (if negb (ret =? 0) then ret else DBPF_ITERATE_CURRENT_POSITION, e, None)
                      else dbpf_keyval_iterate_skip_to_position m pos);
    if negb (ret =? 0) && negb (ret =? DBPF_ITERATE_CURRENT_POSITION) then Done (ret, [], key, db)
    else
      let n := if count =? 0 then S (size m) else Z.to_nat count in
      if ret =? DBPF_ITERATE_CURRENT_POSITION then
        match dbpf_keyval_iterate_cursor_get e with
        | (ret, Some (k, v)) =>
            let '(ret, es, m) :=
              iterate_loop (if remove then delete k m else m) (pred n) (Some (k, v)) remove in
            Done (ret, (k, v) :: es, key, with_map db m)
        | (ret, None) => Done (ret, [], key, db)
        end
      else
        let '(ret, es, m) := iterate_loop m n e remove in Done (ret, es, key, with_map db m).
End iterate.

Fixpoint decrement_loop (db : dbpf_db) (handle flags : Z) (n : nat) : exec (Z * dbpf_db) :=
  match n with
  | O => Done (0, db)
  | S n =>
      '(ret, db) ← dbpf_keyval_handle_info_ops db handle flags DBPF_KEYVAL_HANDLE_COUNT_DECREMENT;
      if decide (ret < 0) then Done (ret, db) else decrement_loop db handle flags n
  end.

(** The new position, the entries, what has become of the key that the cache
    has for the old position, what is inserted into the cache, the next session
    and the database. *)
Definition dbpf_keyval_iterate_op_svc (pcache : Z → Z → option (list Z)) (session : Z)
    (db : dbpf_db) (handle count pos flags : Z)
    : exec (Z * Z * list (list Z * list Z) * option (list Z) * option (Z * list Z) * Z * dbpf_db) :=
  if decide (count > 0) then
    if decide (pos = TROVE_ITERATE_END) then Done (1, pos, [], None, None, session, db)
    else
      let remove := flag flags TROVE_KEYVAL_ITERATE_REMOVE in
      '(ret, es, key, db) ← PINT_dbpf_keyval_iterate pcache handle (key_type flags) db count pos remove;
      let kvs : list (list Z * list Z) := (λ e, (ke_key e.1, e.2)) <$> es in
      if ret =? - TROVE_ENOENT then Done (1, TROVE_ITERATE_END, kvs, key, None, session, db)
      else if negb (ret =? 0) then Done (ret, pos, kvs, key, None, session, db)
      else
        let n := len kvs in
        let '(pos, session) :=
          if decide (pos = TROVE_ITERATE_START)
          then (u64 (n - 1 + Z.shiftl session 32), (session + 1) mod 65536)
          else (u64 (pos + n), session) in
        let cached := match head (rev kvs) with Some (k, _) => Some (pos, k) | None => None end in
        if remove then
          '(ret, db) ← decrement_loop db handle flags (Z.to_nat n);
          if decide (ret < 0) then Done (ret, pos, kvs, key, cached, session, db)
          else Done (1, pos, kvs, key, cached, session, db)
        else Done (1, pos, kvs, key, cached, session, db)
  else Fault AssertFailed.

(** * The order of the keys *)

Lemma memcmp_opp a b : memcmp b a = - memcmp a b.
Proof.
  revert b. induction a as [|x a IH]; intros [|y b]; [done..|]. simpl.
  destruct (Z.ltb_spec x y), (Z.ltb_spec y x); [lia|done..|apply IH].
Qed.

Lemma memcmp_0 a b : length a = length b → memcmp a b = 0 → a = b.
Proof.
  revert b. induction a as [|x a IH]; intros [|y b] Hl; [done..|]. simpl.
  destruct (Z.ltb_spec x y), (Z.ltb_spec y x); [done..|]. intros Hm.
  f_equal; [lia|]. apply IH; [by injection Hl|done].
Qed.

Lemma memcmp_trans a b c :
  length a = length b → length b = length c →
  memcmp a b < 0 → memcmp b c < 0 → memcmp a c < 0.
Proof.
  revert b c. induction a as [|x a IH]; intros [|y b] [|z c] Hab Hbc; try done. simpl.
  destruct (Z.ltb_spec x y), (Z.ltb_spec y x), (Z.ltb_spec y z), (Z.ltb_spec z y),
    (Z.ltb_spec x z), (Z.ltb_spec z x); try lia.
  intros. apply (IH b c); [by injection Hab|by injection Hbc|done..].
Qed.

Definition key_before (a b : dbpf_keyval_db_entry) : Prop :=
  ke_handle a < ke_handle b ∨ (ke_handle a = ke_handle b ∧
  (ke_type a < ke_type b ∨ (ke_type a = ke_type b ∧
  (len (ke_key a) < len (ke_key b) ∨ (length (ke_key a) = length (ke_key b) ∧
  memcmp (ke_key a) (ke_key b) < 0))))).

Lemma compare_before a b : keyval_compare a b < 0 ↔ key_before a b.
Proof.
  unfold keyval_compare, key_before, DBPF_KEYVAL_DB_ENTRY_TOTAL_SIZE.
  destruct (Z.eqb_spec (ke_handle a) (ke_handle b)); cbn [negb]; [|case_match; lia].
  destruct (Z.eqb_spec (ke_type a) (ke_type b)); cbn [negb]; [|case_match; lia].
  case_match; [lia|]. case_match; lia.
Qed.

Lemma compare_opp a b : keyval_compare b a = - keyval_compare a b.
Proof.
  unfold keyval_compare, DBPF_KEYVAL_DB_ENTRY_TOTAL_SIZE. rewrite (memcmp_opp (ke_key a)).
  rewrite (Z.eqb_sym (ke_handle b)), (Z.eqb_sym (ke_type b)).
  destruct (Z.eqb_spec (ke_handle a) (ke_handle b)); cbn [negb]; [|repeat case_match; lia].
  destruct (Z.eqb_spec (ke_type a) (ke_type b)); cbn [negb]; [|repeat case_match; lia].
  repeat case_match; lia.
Qed.

Lemma compare_0 a b : keyval_compare a b = 0 ↔ a = b.
Proof.
  split.
  - unfold keyval_compare, DBPF_KEYVAL_DB_ENTRY_TOTAL_SIZE.
    destruct (Z.eqb_spec (ke_handle a) (ke_handle b)); cbn [negb]; [|case_match; lia].
    destruct (Z.eqb_spec (ke_type a) (ke_type b)); cbn [negb]; [|case_match; lia].
    case_match; [lia|]. case_match; [lia|]. intros Hk%memcmp_0; [|lia].
    destruct a, b; simpl in *. congruence.
  - intros ->. pose proof (compare_opp b b). lia.
Qed.

Lemma before_trans a b c : key_before a b → key_before b c → key_before a c.
Proof.
  unfold key_before. intros H1 H2.
  destruct H1 as [?|[? [?|[? [?|[Hl1 Hm1]]]]]], H2 as [?|[? [?|[? [?|[Hl2 Hm2]]]]]]; try lia.
  do 2 (right; split; [lia|]). right. split; [lia|]. by eapply (memcmp_trans _ (ke_key b)).
Qed.

#[export] Instance key_le_trans : Transitive key_le.
Proof.
  intros a b c H1 H2. unfold key_le in *.
  destruct (decide (keyval_compare a b = 0)) as [->%compare_0|]; [done|].
  destruct (decide (keyval_compare b c = 0)) as [->%compare_0|]; [done|].
  apply Z.lt_le_incl, compare_before. apply (before_trans a b c); apply compare_before; lia.
Qed.

#[export] Instance key_le_total : Total key_le.
Proof. intros a b. unfold key_le. pose proof (compare_opp a b). lia. Qed.

(** [keyval_compare] is a total order on keys, and only equal keys compare
    as equal: what the database asks of a comparison function. *)
Theorem keyval_compare_order a b c :
  (keyval_compare a b = 0 ↔ a = b) ∧ keyval_compare b a = - keyval_compare a b ∧
  (keyval_compare a b ≤ 0 → keyval_compare b c ≤ 0 → keyval_compare a c ≤ 0).
Proof. split_and!; [apply compare_0|apply compare_opp|apply key_le_trans]. Qed.

(** * Directory entries *)

Definition dirent_key (h : Z) (name : list Z) : dbpf_keyval_db_entry :=
  mk_entry h DBPF_DIRECTORY_ENTRY_TYPE name.

Definition is_dirent (h : Z) (k : dbpf_keyval_db_entry) : Prop :=
  ke_handle k = h ∧ ke_type k = DBPF_DIRECTORY_ENTRY_TYPE.

#[export] Instance is_dirent_dec h k : Decision (is_dirent h k).
Proof. unfold is_dirent. apply _. Defined.

Definition dirent_count (m : entries_map) (h : Z) : Z :=
  Z.of_nat (size (filter (λ kv, is_dirent h kv.1) m)).

(** The number that is stored for a handle is that of its directory entries. *)
Definition counted (m : entries_map) (h : Z) : Prop :=
  match m !! count_key h with
  | Some v => v = encode_info (dirent_count m h)
  | None => dirent_count m h = 0
  end.

(** The directory entries of [h] become [g], and nothing else changes but
    their number. *)
Record updates (m m' : entries_map) (h : Z) (g : list Z → option (list Z)) : Prop := mk_updates {
  updates_entries name : m' !! dirent_key h name = g name;
  updates_counted : counted m' h;
  updates_other k : ¬ is_dirent h k → k ≠ count_key h → m' !! k = m !! k;
}.

(** TROVE_SYNC with the flags for writing and for removing entries. *)
Definition write_flags : Z := 1 + TROVE_NOOVERWRITE + TROVE_KEYVAL_HANDLE_COUNT + TROVE_KEYVAL_DIRECTORY_ENTRY.
Definition remove_flags : Z := 1 + TROVE_KEYVAL_HANDLE_COUNT + TROVE_KEYVAL_DIRECTORY_ENTRY.

Lemma decode_encode n : 0 ≤ n < B32 → decode_info (encode_info n) = n.
Proof.
  intros. unfold decode_info, encode_info.
  rewrite take_ge by (apply Nat2Z.inj_le; rewrite length_Z_to_little_endian; lia).
  rewrite little_endian_to_Z_to_little_endian by lia. apply Z.mod_small. by change (2 ^ (4 * 8)) with B32.
Qed.

Lemma count_nonneg m h : 0 ≤ dirent_count m h.
Proof. unfold dirent_count. lia. Qed.

Lemma is_dirent_key h name : is_dirent h (dirent_key h name).
Proof. done. Qed.

Lemma count_key_ne h h' name : count_key h ≠ dirent_key h' name.
Proof. done. Qed.

Lemma count_insert_dirent m h name v :
  dirent_count (<[dirent_key h name := v]> m) h
  = dirent_count m h + (match m !! dirent_key h name with Some _ => 0 | None => 1 end).
Proof.
  unfold dirent_count. rewrite map_filter_insert_True by done.
  destruct (m !! dirent_key h name) as [v'|] eqn:Hm.
  - rewrite map_size_insert_Some; [lia|]. exists v'. by apply map_lookup_filter_Some_2.
  - rewrite map_size_insert_None; [lia|]. apply map_lookup_filter_None. by left.
Qed.

Lemma count_insert_other m h k v : ¬ is_dirent h k → dirent_count (<[k := v]> m) h = dirent_count m h.
Proof.
  intros Hk. unfold dirent_count. rewrite map_filter_insert_False by done.
  rewrite map_filter_delete. rewrite delete_id; [done|].
  apply map_lookup_filter_None. right. by intros ? _.
Qed.

Lemma count_delete_dirent m h name :
  dirent_count (delete (dirent_key h name) m) h
  = dirent_count m h - (match m !! dirent_key h name with Some _ => 1 | None => 0 end).
Proof.
  unfold dirent_count. rewrite map_filter_delete.
  destruct (m !! dirent_key h name) as [v'|] eqn:Hm.
  - assert (filter (λ kv, is_dirent h kv.1) m !! dirent_key h name = Some v') as Hf
      by (by apply map_lookup_filter_Some_2).
    rewrite map_size_delete_Some by (by eexists).
    assert (0 < size (filter (λ kv, is_dirent h kv.1) m))%nat; [|lia].
    apply Nat.neq_0_lt_0. intros H0%map_size_empty_inv. rewrite H0 in Hf. by rewrite lookup_empty in Hf.
  - rewrite delete_id; [lia|]. apply map_lookup_filter_None. by left.
Qed.

Lemma count_delete_other m h k : ¬ is_dirent h k → dirent_count (delete k m) h = dirent_count m h.
Proof.
  intros Hk. unfold dirent_count. rewrite map_filter_delete, delete_id; [done|].
  apply map_lookup_filter_None. right. by intros ? _.
Qed.

Lemma not_dirent_count h h' : ¬ is_dirent h (count_key h').
Proof. by intros [_ ?]. Qed.

#[local] Hint Resolve not_dirent_count is_dirent_key : core.

Lemma db_get_ok m k :
  dbpf_db_get (mk_db m []) k
  = (match m !! k with Some _ => 0 | None => TROVE_ENOENT end, default [] (m !! k), mk_db m []).
Proof. unfold dbpf_db_get, transaction. simpl. by destruct (m !! k). Qed.

(** The stored number, when it is right, and when it is one too small. *)
Lemma increment_ok m h n :
  (match m !! count_key h with Some v => v = encode_info n | None => n = 0 end) →
  0 ≤ n < B32 - 1 →
  dbpf_keyval_handle_info_ops (mk_db m []) h write_flags DBPF_KEYVAL_HANDLE_COUNT_INCREMENT
  = Done (0, mk_db (<[count_key h := encode_info (n + 1)]> m) []).
Proof.
  intros Hc Hn. unfold dbpf_keyval_handle_info_ops.
  change (flag write_flags TROVE_KEYVAL_HANDLE_COUNT) with true. cbn [negb].
  rewrite db_get_ok. destruct (m !! count_key h) as [v|]; subst; cbn [default].
  - simpl. rewrite decode_encode by lia. by rewrite u32_id by lia.
  - simpl. by rewrite u32_id by lia.
Qed.

Lemma make_key_ok h t k : len k ≤ DBPF_MAX_KEY_LENGTH → make_key h t k = Done (mk_entry h t k).
Proof. intros. unfold make_key. by rewrite decide_True. Qed.

(** Writing one entry and counting it. *)
Lemma insert_updates m h name v :
  counted m h → m !! dirent_key h name = None →
  updates m (<[count_key h := encode_info (dirent_count m h + 1)]> (<[dirent_key h name := v]> m)) h
    (λ name', if decide (name' = name) then Some v else m !! dirent_key h name').
Proof.
  intros Hc Hno. split.
  - intros name'. rewrite lookup_insert_ne by done. case_decide as Hd.
    + subst. by rewrite lookup_insert_eq.
    + rewrite lookup_insert_ne by (by intros [= ->]). done.
  - unfold counted. rewrite lookup_insert_eq. rewrite count_insert_other by done.
    by rewrite count_insert_dirent, Hno.
  - intros k Hk Hck. rewrite lookup_insert_ne by done. rewrite lookup_insert_ne; [done|].
    intros <-. by apply Hk.
Qed.

(** A directory entry is written only if there is none of that name, which
    is reported as TROVE_EEXIST. *)
Theorem dirent_write m h name v :
  counted m h → len name ≤ DBPF_MAX_KEY_LENGTH → dirent_count m h < B32 - 1 →
  match m !! dirent_key h name with
  | Some _ => dbpf_keyval_write_op_svc (mk_db m []) h name v write_flags
              = Done (- TROVE_EEXIST, mk_db m [])
  | None => ∃ m', dbpf_keyval_write_op_svc (mk_db m []) h name v write_flags
                  = Done (DBPF_OP_COMPLETE, mk_db m' []) ∧
              updates m m' h (λ name', if decide (name' = name) then Some v else m !! dirent_key h name')
  end.
Proof.
  intros Hc Hlen Hn. unfold dbpf_keyval_write_op_svc. rewrite decide_True by done.
  rewrite make_key_ok by done. cbn [mbind exec_bind].
  change (flag write_flags TROVE_ONLYOVERWRITE) with false.
  change (flag write_flags TROVE_NOOVERWRITE) with true.
  change (mk_entry h (key_type write_flags) name) with (dirent_key h name).
  unfold dbpf_db_putonce, transaction. cbn [db_errors db_map negb Z.eqb].
  pose proof (insert_updates m h name v Hc) as Hu.
  destruct (m !! dirent_key h name) as [v'|] eqn:Hm; [done|].
  cbn [negb Z.eqb]. rewrite (increment_ok _ _ (dirent_count m h)).
  - cbn [mbind exec_bind]. eexists. split; [done|]. by apply Hu.
  - rewrite lookup_insert_ne by done. exact Hc.
  - pose proof (count_nonneg m h). lia.
Qed.

Lemma counted_some m h name v :
  counted m h → m !! dirent_key h name = Some v → dirent_count m h < B32 →
  m !! count_key h = Some (encode_info (dirent_count m h)) ∧ 0 < dirent_count m h.
Proof.
  intros Hc Hm Hn. assert (0 < dirent_count m h) as Hpos.
  { pose proof (count_delete_dirent m h name) as Hd. rewrite Hm in Hd.
    pose proof (count_nonneg (delete (dirent_key h name) m) h). lia. }
  unfold counted in Hc. destruct (m !! count_key h); [by subst|lia].
Qed.

Lemma decrement_ok m h n :
  m !! count_key h = Some (encode_info n) → 0 < n < B32 →
  dbpf_keyval_handle_info_ops (mk_db m []) h remove_flags DBPF_KEYVAL_HANDLE_COUNT_DECREMENT
  = Done (0, mk_db (if n =? 1 then delete (count_key h) m
                    else <[count_key h := encode_info (n - 1)]> m) []).
Proof.
  intros Hc Hn. unfold dbpf_keyval_handle_info_ops.
  change (flag remove_flags TROVE_KEYVAL_HANDLE_COUNT) with true. cbn [negb].
  rewrite db_get_ok, Hc. cbn [from_option id]. simpl (0 =? _). cbn [negb andb].
  rewrite decode_encode by lia. rewrite decide_True by lia. rewrite u32_id by lia.
  destruct (Z.eqb_spec n 1) as [->|]; [simpl|].
  - unfold dbpf_db_del, transaction. simpl. by rewrite Hc.
  - destruct (Z.eqb_spec (n - 1) 0); [lia|done].
Qed.

Lemma dirent_key_inj h : Inj (=) (=) (dirent_key h).
Proof. by intros ?? [= ->]. Qed.

Lemma delete_updates m h name n :
  counted m h → m !! dirent_key h name ≠ None → n = dirent_count m h →
  let m1 := delete (dirent_key h name) m in
  updates m (if n =? 1 then delete (count_key h) m1 else <[count_key h := encode_info (n - 1)]> m1) h
    (λ name', if decide (name' = name) then None else m !! dirent_key h name').
Proof.
  intros Hc Hm -> m1.
  assert (dirent_count m1 h = dirent_count m h - 1) as Hn1.
  { unfold m1. rewrite count_delete_dirent. by destruct (m !! dirent_key h name). }
  assert (∀ name', m1 !! dirent_key h name' = if decide (name' = name) then None else m !! dirent_key h name')
    as Hl.
  { intros name'. unfold m1. case_decide as Hd; [subst; by rewrite lookup_delete_eq|].
    rewrite lookup_delete_ne; [done|]. by intros [= ->]. }
  assert (∀ k, ¬ is_dirent h k → m1 !! k = m !! k) as Ho.
  { intros k Hk. unfold m1. rewrite lookup_delete_ne; [done|]. intros <-. by apply Hk. }
  destruct (Z.eqb_spec (dirent_count m h) 1) as [H1|H1]; split.
  - intros name'. by rewrite lookup_delete_ne.
  - unfold counted. rewrite lookup_delete_eq, count_delete_other by done. lia.
  - intros k Hk Hck. rewrite lookup_delete_ne by done. by apply Ho.
  - intros name'. by rewrite lookup_insert_ne.
  - unfold counted. rewrite lookup_insert_eq, count_insert_other by done. by rewrite Hn1.
  - intros k Hk Hck. rewrite lookup_insert_ne by done. by apply Ho.
Qed.

Lemma do_remove_ok m h name :
  len name ≤ DBPF_MAX_KEY_LENGTH →
  dbpf_keyval_do_remove (mk_db m []) h DBPF_DIRECTORY_ENTRY_TYPE name true
  = match m !! dirent_key h name with
    | Some v => Done (0, Some v, mk_db (delete (dirent_key h name) m) [])
    | None => Done (- TROVE_ENOENT, None, mk_db m [])
    end.
Proof.
  intros Hlen. unfold dbpf_keyval_do_remove. rewrite make_key_ok by done. cbn [mbind exec_bind].
  rewrite db_get_ok. change (mk_entry h DBPF_DIRECTORY_ENTRY_TYPE name) with (dirent_key h name).
  unfold dbpf_db_del, transaction. cbn [db_errors db_map].
  by destruct (m !! dirent_key h name).
Qed.

(** A directory entry that is removed was there, and its value is given
    back; otherwise there is TROVE_ENOENT. *)
Theorem dirent_remove m h name :
  counted m h → len name ≤ DBPF_MAX_KEY_LENGTH → dirent_count m h < B32 →
  match m !! dirent_key h name with
  | None => dbpf_keyval_remove_op_svc (mk_db m []) h name true remove_flags
            = Done (- TROVE_ENOENT, None, mk_db m [])
  | Some v => ∃ m', dbpf_keyval_remove_op_svc (mk_db m []) h name true remove_flags
                    = Done (DBPF_OP_COMPLETE, Some v, mk_db m' []) ∧
              updates m m' h (λ name', if decide (name' = name) then None else m !! dirent_key h name')
  end.
Proof.
  intros Hc Hlen Hn. unfold dbpf_keyval_remove_op_svc.
  change (key_type remove_flags) with DBPF_DIRECTORY_ENTRY_TYPE. rewrite do_remove_ok by done.
  destruct (m !! dirent_key h name) as [v|] eqn:Hm; [|done]. cbn [mbind exec_bind negb Z.eqb].
  destruct (counted_some m h name v Hc Hm Hn) as [Hck Hpos].
  rewrite (decrement_ok _ _ (dirent_count m h)); [|by rewrite lookup_delete_ne|lia].
  cbn [mbind exec_bind]. eexists. split; [done|]. by apply delete_updates; [|rewrite Hm|].
Qed.

(** What a loop of removals leaves. *)
Lemma remove_loop_ok m h names :
  Forall (λ name : list Z, len name ≤ DBPF_MAX_KEY_LENGTH) names →
  ∃ n errors m', remove_loop (mk_db m []) h DBPF_DIRECTORY_ENTRY_TYPE names
    = Done (n, errors, mk_db m' []) ∧
    n = dirent_count m h - dirent_count m' h ∧
    (∀ name, m' !! dirent_key h name = if decide (name ∈ names) then None else m !! dirent_key h name) ∧
    (∀ k, ¬ is_dirent h k → m' !! k = m !! k).
Proof.
  revert m. induction names as [|name names IH]; intros m Hlen.
  - exists 0, [], m. split_and!; [done|lia| |done]. intros name.
    rewrite decide_False; [done|]. apply not_elem_of_nil.
  - apply Forall_cons in Hlen as [Hl Hlen]. simpl. rewrite do_remove_ok by done.
    destruct (m !! dirent_key h name) as [v|] eqn:Hm; cbn [mbind exec_bind].
    + destruct (IH (delete (dirent_key h name) m) Hlen) as (n & errors & m' & -> & -> & Hin & Hout).
      cbn [mbind exec_bind]. do 3 eexists. split; [done|]. split_and!.
      * simpl. rewrite count_delete_dirent, Hm. lia.
      * intros name'. rewrite Hin. destruct (decide (name' ∈ names)) as [Hi|Hi].
        { rewrite decide_True; [done|by right]. }
        destruct (decide (name' = name)) as [->|Hne].
        { rewrite lookup_delete_eq, decide_True; [done|by left]. }
        rewrite lookup_delete_ne by (by intros [= ->]). rewrite decide_False; [done|].
        intros [->|?]%elem_of_cons; done.
      * intros k Hk. rewrite Hout by done. rewrite lookup_delete_ne; [done|]. intros <-. by apply Hk.
    + destruct (IH m Hlen) as (n & errors & m' & -> & -> & Hin & Hout).
      cbn [mbind exec_bind]. do 3 eexists. split; [done|]. split_and!; [done| |done].
      intros name'. rewrite Hin. destruct (decide (name' ∈ names)) as [Hi|Hi].
      { rewrite decide_True; [done|by right]. }
      destruct (decide (name' = name)) as [->|Hne].
      { rewrite decide_True; [done|by left]. }
      rewrite decide_False; [done|]. intros [->|?]%elem_of_cons; done.
Qed.

(** All entries of a list are removed at once, and counted. *)
Theorem dirent_remove_list m h names :
  counted m h → Forall (λ name : list Z, len name ≤ DBPF_MAX_KEY_LENGTH) names → dirent_count m h < B32 →
  ∃ errors m', dbpf_keyval_remove_list_op_svc (mk_db m []) h names remove_flags
    = Done (DBPF_OP_COMPLETE, errors, mk_db m' []) ∧
    updates m m' h (λ name, if decide (name ∈ names) then None else m !! dirent_key h name).
Proof.
  intros Hc Hlen Hn. unfold dbpf_keyval_remove_list_op_svc.
  change (key_type remove_flags) with DBPF_DIRECTORY_ENTRY_TYPE.
  destruct (remove_loop_ok m h names Hlen) as (n & errors & m' & -> & -> & Hin & Hout).
  cbn [mbind exec_bind]. change (flag remove_flags TROVE_KEYVAL_HANDLE_COUNT) with true. cbv iota.
  rewrite db_get_ok, Hout by done.
  assert (decode_info (default [] (m !! count_key h)) = dirent_count m h ∨
          m !! count_key h = None ∧ dirent_count m h = 0) as Hd.
  { unfold counted in Hc. destruct (m !! count_key h); [left|by right]. subst. simpl.
    apply decode_encode. pose proof (count_nonneg m h). lia. }
  pose proof (count_nonneg m' h).
  assert (dirent_count m' h ≤ dirent_count m h).
  { unfold dirent_count. apply Nat2Z.inj_le, map_subseteq_size, map_subseteq_spec.
    intros k v [Hk Hi]%map_lookup_filter_Some. apply map_lookup_filter_Some. split; [|done].
    destruct k as [kh kt kk]. destruct Hi as [Hi1 Hi2]. simpl in *. subst.
    change (m' !! dirent_key h kk = Some v) in Hk. change (m !! dirent_key h kk = Some v).
    rewrite Hin in Hk. by case_decide. }
  assert (∃ n0, (n0 = dirent_count m h) ∧
    (if (match m !! count_key h with Some _ => 0 | None => TROVE_ENOENT end) =? 0
     then decode_info (default [] (m !! count_key h)) else 0) = n0) as (n0 & -> & He).
  { eexists. split; [done|]. destruct Hd as [Hd|[Hd ->]]; [|by rewrite Hd].
    unfold counted in Hc. by destruct (m !! count_key h). }
  replace (negb _ && negb _) with false by (by destruct (m !! count_key h)).
  rewrite He. rewrite u32_id by lia. do 2 eexists. split; [done|]. split.
  - intros name. by rewrite lookup_insert_ne.
  - unfold counted. rewrite lookup_insert_eq, count_insert_other by done. f_equal. cbn [db_map]. lia.
  - intros k Hk Hck. rewrite lookup_insert_ne by done. by apply Hout.
Qed.

Lemma write_list_check_ok m h names :
  Forall (λ name : list Z, len name ≤ DBPF_MAX_KEY_LENGTH) names →
  write_list_check (mk_db m []) h names write_flags = Done (0, mk_db m []).
Proof.
  induction 1 as [|name names Hl Hls IH]; [done|]. simpl. rewrite make_key_ok by done.
  cbn [mbind exec_bind]. rewrite db_get_ok. by destruct (m !! _).
Qed.

Lemma write_list_put_ok m h kvs :
  counted m h → Forall (λ kv : list Z * list Z, len kv.1 ≤ DBPF_MAX_KEY_LENGTH) kvs → NoDup kvs.*1 →
  Forall (λ kv, m !! dirent_key h kv.1 = None) kvs → dirent_count m h + len kvs < B32 →
  ∃ m', write_list_put (mk_db m []) h kvs write_flags = Done (DBPF_OP_COMPLETE, mk_db m' []) ∧
    updates m m' h (λ name, match (list_to_map kvs : gmap (list Z) (list Z)) !! name with
                            | Some v => Some v | None => m !! dirent_key h name end).
Proof.
  revert m. induction kvs as [|[name v] kvs IH]; intros m Hc Hlen Hnd Hno Hn.
  - exists m. split; [done|]. split; [|done..]. intros name. simpl. by rewrite lookup_empty.
  - apply Forall_cons in Hlen as [Hl Hlen]. apply NoDup_cons in Hnd as [Hni Hnd].
    apply Forall_cons in Hno as [Hn1 Hno]. simpl in *. rewrite make_key_ok by done.
    cbn [mbind exec_bind]. unfold dbpf_db_put, transaction. cbn [db_errors db_map negb Z.eqb].
    change (flag write_flags TROVE_NOOVERWRITE) with true. cbv iota.
    change (mk_entry h (key_type write_flags) name) with (dirent_key h name).
    pose proof (count_nonneg m h). rewrite (increment_ok _ _ (dirent_count m h));
      [|by rewrite lookup_insert_ne|lia]. cbn [mbind exec_bind negb Z.eqb].
    destruct (insert_updates m h name v Hc Hn1) as [He Hc' Ho].
    set (m1 := <[count_key h := _]> _) in *.
    destruct (IH m1 Hc' Hlen Hnd) as (m' & -> & [He' Hc'' Ho']).
    + apply Forall_forall. intros [name' v'] Hin. rewrite He. rewrite decide_False.
      * rewrite Forall_forall in Hno. by apply (Hno (name', v')).
      * simpl. intros ->. apply Hni. apply list_elem_of_fmap. by exists (name, v').
    + unfold m1. rewrite count_insert_other, count_insert_dirent, Hn1 by done. lia.
    + exists m'. split; [done|]. split; [|done|].
      * intros name'. rewrite He', He. destruct (decide (name' = name)) as [->|Hne].
        { rewrite lookup_insert_eq. rewrite not_elem_of_list_to_map_1; done. }
        by rewrite lookup_insert_ne.
      * intros k Hk Hck. rewrite Ho' by done. by apply Ho.
Qed.

(** A list of new entries is written and counted. *)
Theorem dirent_write_list m h kvs :
  counted m h → Forall (λ kv : list Z * list Z, len kv.1 ≤ DBPF_MAX_KEY_LENGTH) kvs → NoDup kvs.*1 →
  Forall (λ kv, m !! dirent_key h kv.1 = None) kvs → dirent_count m h + len kvs < B32 →
  ∃ m', dbpf_keyval_write_list_op_svc (mk_db m []) h kvs write_flags
    = Done (DBPF_OP_COMPLETE, mk_db m' []) ∧
    updates m m' h (λ name, match (list_to_map kvs : gmap (list Z) (list Z)) !! name with
                            | Some v => Some v | None => m !! dirent_key h name end).
Proof.
  intros Hc Hlen. unfold dbpf_keyval_write_list_op_svc. rewrite write_list_check_ok.
  - cbn [mbind exec_bind negb Z.eqb]. by apply write_list_put_ok.
  - apply Forall_fmap. done.
Qed.

(** C39. But a list that has an entry which is there already is accepted in spite
    of TROVE_NOOVERWRITE: the entry is overwritten and counted once more, so
    that the number is wrong from then on. *)
Theorem write_list_overcounts m h name v v' :
  counted m h → len name ≤ DBPF_MAX_KEY_LENGTH → dirent_count m h < B32 - 1 →
  m !! dirent_key h name = Some v →
  ∃ m', dbpf_keyval_write_list_op_svc (mk_db m []) h [(name, v')] write_flags
    = Done (DBPF_OP_COMPLETE, mk_db m' []) ∧
    m' !! dirent_key h name = Some v' ∧ dirent_count m' h = dirent_count m h ∧
    dbpf_keyval_get_handle_info_op_svc (mk_db m' []) h
    = (1, Some (dirent_count m' h + 1), mk_db m' []).
Proof.
  intros Hc Hlen Hn Hm. unfold dbpf_keyval_write_list_op_svc. rewrite write_list_check_ok.
  2: { apply Forall_cons. split; [done|]. apply Forall_nil_2. }
  cbn [mbind exec_bind negb Z.eqb write_list_put]. rewrite make_key_ok by done. cbn [mbind exec_bind].
  unfold dbpf_db_put, transaction. cbn [db_errors db_map negb Z.eqb].
  change (flag write_flags TROVE_NOOVERWRITE) with true. cbv iota.
  change (mk_entry h (key_type write_flags) name) with (dirent_key h name).
  destruct (counted_some m h name v Hc Hm) as [Hck Hpos]; [lia|].
  rewrite (increment_ok _ _ (dirent_count m h)); [|by rewrite lookup_insert_ne, Hck|lia].
  cbn [mbind exec_bind negb Z.eqb].
  assert (∀ v0, dirent_count (<[count_key h := v0]> (<[dirent_key h name := v']> m)) h = dirent_count m h) as Hcnt.
  { intros v0. rewrite count_insert_other, count_insert_dirent, Hm by done. lia. }
  eexists. split; [done|]. split_and!; [by rewrite lookup_insert_ne, lookup_insert_eq|apply Hcnt|].
  unfold dbpf_keyval_get_handle_info_op_svc. rewrite db_get_ok, lookup_insert_eq. cbn [from_option id].
  simpl (0 =? 0). cbn [negb]. by rewrite decode_encode, Hcnt by lia.
Qed.

(** * Iterating *)

Lemma sandwich a b c :
  key_before a b → key_le b c → ke_handle a = ke_handle c → ke_type a = ke_type c →
  ke_handle b = ke_handle a ∧ ke_type b = ke_type a.
Proof.
  intros Hab Hbc Hh Ht. unfold key_le in Hbc.
  assert (key_before b c ∨ b = c) as [Hbc'| ->].
  { destruct (decide (keyval_compare b c = 0)) as [?%compare_0|]; [by right|].
    left. apply compare_before. lia. }
  - unfold key_before in *. lia.
  - done.
Qed.

Lemma sandwich_le a b c :
  key_le a b → key_le b c → ke_handle a = ke_handle c → ke_type a = ke_type c →
  ke_handle b = ke_handle a ∧ ke_type b = ke_type a.
Proof.
  intros Hab. unfold key_le in Hab.
  destruct (decide (keyval_compare a b = 0)) as [->%compare_0|]; [done|].
  apply sandwich, compare_before. lia.
Qed.

#[local] Instance entry_le_trans : Transitive entry_le.
Proof. intros a b c. apply key_le_trans. Qed.

#[local] Instance entry_le_total : Total entry_le.
Proof. intros a b. apply key_le_total. Qed.

Section listing.
Context (h t : Z).

(** The entries of a handle and a type, in the order of the database. *)
Definition of_kind (e : dbpf_keyval_db_entry * list Z) : Prop :=
  ke_handle e.1 = h ∧ ke_type e.1 = t.

#[local] Instance of_kind_dec e : Decision (of_kind e).
Proof. unfold of_kind. apply _. Defined.

Definition listing (m : entries_map) : list (dbpf_keyval_db_entry * list Z) :=
  filter of_kind (sorted_entries m).

Lemma sorted_sorted m : StronglySorted entry_le (sorted_entries m).
Proof. apply (StronglySorted_merge_sort _). Qed.

Lemma sorted_nodup m : NoDup (sorted_entries m).*1.
Proof.
  unfold sorted_entries. rewrite merge_sort_Permutation. apply NoDup_fst_map_to_list.
Qed.

Lemma elem_of_sorted m k v : (k, v) ∈ sorted_entries m ↔ m !! k = Some v.
Proof. unfold sorted_entries. rewrite merge_sort_Permutation. apply elem_of_map_to_list. Qed.

Lemma elem_of_listing m k v :
  (k, v) ∈ listing m ↔ m !! k = Some v ∧ ke_handle k = h ∧ ke_type k = t.
Proof. unfold listing. rewrite list_elem_of_filter, elem_of_sorted. unfold of_kind. simpl. tauto. Qed.

Lemma filter_sorted l : StronglySorted entry_le l → StronglySorted entry_le (filter of_kind l).
Proof.
  induction 1 as [|a l Hs IH Ha]; [constructor|]. rewrite filter_cons. case_decide; [|done].
  constructor; [done|]. rewrite Forall_forall in *. intros x [_ Hx]%list_elem_of_filter. by apply Ha.
Qed.

Lemma listing_sorted m : StronglySorted entry_le (listing m).
Proof. apply filter_sorted, sorted_sorted. Qed.

Lemma filter_nodup l : NoDup l.*1 → NoDup (filter of_kind l).*1.
Proof.
  induction l as [|a l IH]; [done|]. rewrite fmap_cons. intros [Hn Hd]%NoDup_cons.
  rewrite filter_cons. case_decide; [|by apply IH]. rewrite fmap_cons. apply NoDup_cons.
  split; [|by apply IH]. intros (x & Hx & [_ Hin]%list_elem_of_filter)%list_elem_of_fmap.
  apply Hn. apply list_elem_of_fmap. by exists x.
Qed.

Lemma listing_nodup m : NoDup (listing m).*1.
Proof. apply filter_nodup, sorted_nodup. Qed.

(** Whatever the cursor is sent to, it comes to the same entry of the listing. *)
Lemma cursor_in_listing l (k : dbpf_keyval_db_entry) (P : Z → bool) :
  StronglySorted entry_le l → ke_handle k = h → ke_type k = t → (∀ x, P x = true → x ≤ 0) →
  dbpf_keyval_iterate_cursor_get h t (find (λ e, P (keyval_compare k e.1)) l)
  = match find (λ e, P (keyval_compare k e.1)) (filter of_kind l) with
    | Some e => (0, Some e) | None => (- TROVE_ENOENT, None) end.
Proof.
  intros Hs Hh Ht HP. induction Hs as [|a l Hs IH Ha]; [done|]. simpl find at 1.
  destruct (P (keyval_compare k a.1)) eqn:Hp.
  - rewrite filter_cons. destruct a as [ka va]. simpl in *. case_decide as Hk.
    + simpl. rewrite Hp. destruct Hk as [Hk1 Hk2]. simpl in Hk1, Hk2. rewrite Hk1, Hk2.
      by rewrite !Z.eqb_refl.
    + destruct (find _ (filter of_kind l)) as [e|] eqn:Hf.
      * exfalso. apply find_some in Hf as [Hin Hpe]. apply list_elem_of_In in Hin.
        apply list_elem_of_filter in Hin as [[He1 He2] Hin]. rewrite Forall_forall in Ha.
        specialize (Ha e Hin). unfold entry_le in Ha. simpl in Ha.
        destruct (sandwich_le k ka e.1) as [H1 H2]; [by apply HP|done|congruence..|].
        apply Hk. split; simpl; congruence.
      * unfold of_kind in Hk. simpl in Hk. destruct (Z.eqb_spec (ke_handle ka) h), (Z.eqb_spec (ke_type ka) t);
          simpl; try done. tauto.
  - rewrite filter_cons. case_decide; [|done]. simpl. by rewrite Hp.
Qed.

Lemma next_index l i x :
  StronglySorted entry_le l → NoDup l.*1 → l !! i = Some x →
  find (λ e, keyval_compare x.1 e.1 <? 0) l = l !! S i.
Proof.
  intros Hs. revert i. induction Hs as [|a l Hs IH Ha]; intros i Hd Hi; [done|].
  rewrite fmap_cons in Hd. apply NoDup_cons in Hd as [Hn Hd]. destruct i as [|i].
  - injection Hi as ->. simpl. replace (keyval_compare x.1 x.1) with 0 by (symmetry; by apply compare_0).
    simpl. destruct l as [|y l]; [done|]. apply Forall_cons in Ha as [Hy _]. simpl.
    unfold entry_le, key_le in Hy. destruct (decide (keyval_compare x.1 y.1 = 0)) as [He%compare_0|].
    { exfalso. apply Hn. rewrite He. by left. }
    by replace (keyval_compare x.1 y.1 <? 0) with true by lia.
  - simpl in Hi |- *. rewrite Forall_forall in Ha. pose proof (Ha x) as Hax.
    unfold entry_le, key_le in Hax. rewrite compare_opp.
    specialize (Hax (list_elem_of_lookup_2 _ _ _ Hi)).
    replace (- keyval_compare a.1 x.1 <? 0) with false by lia. by apply IH.
Qed.

Lemma next_entry m i x :
  listing m !! i = Some x →
  dbpf_keyval_iterate_cursor_get h t (cursor_next m x.1)
  = match listing m !! S i with Some e => (0, Some e) | None => (- TROVE_ENOENT, None) end.
Proof.
  intros Hx. destruct x as [k v]. pose proof (list_elem_of_lookup_2 _ _ _ Hx) as (_ & Hh & Ht)%elem_of_listing.
  unfold cursor_next. rewrite (cursor_in_listing _ _ (λ x, x <? 0)); [|apply sorted_sorted|done..|lia].
  fold (listing m). by rewrite (next_index _ i (k, v)); [|apply listing_sorted|apply listing_nodup|].
Qed.

Lemma null_key_first k : keyval_compare (mk_entry (ke_handle k) (ke_type k) []) k ≤ 0.
Proof.
  unfold keyval_compare, DBPF_KEYVAL_DB_ENTRY_TOTAL_SIZE. cbn [ke_handle ke_type ke_key].
  rewrite !Z.eqb_refl. cbn [negb]. case_match; [simpl in *; lia|]. case_match; simpl; lia.
Qed.

Lemma first_entry m :
  dbpf_keyval_iterate_cursor_get h t (cursor_set_range m (mk_entry h t []))
  = match head (listing m) with Some e => (0, Some e) | None => (- TROVE_ENOENT, None) end.
Proof.
  unfold cursor_set_range. rewrite (cursor_in_listing _ _ (λ x, x <=? 0)); [|apply sorted_sorted|done..|lia].
  fold (listing m). destruct (listing m) as [|[k v] l] eqn:Hl; [done|].
  assert ((k, v) ∈ listing m) as (_ & <- & <-)%elem_of_listing by (rewrite Hl; by left).
  cbn [find fst]. by rewrite (proj2 (Z.leb_le _ _) (null_key_first k)).
Qed.

(** Names are never empty, as they end with a NUL character. *)
Definition named (m : entries_map) : Prop := Forall (λ e, ke_key e.1 ≠ []) (listing m).

Lemma first_entry_named m :
  named m →
  dbpf_keyval_iterate_get_first_entry h t m
  = match head (listing m) with Some e => (0, Some e) | None => (- TROVE_ENOENT, None) end.
Proof.
  intros Hn. unfold dbpf_keyval_iterate_get_first_entry. rewrite first_entry.
  destruct (listing m) as [|[k v] l] eqn:Hl; [done|]. simpl. unfold named in Hn. rewrite Hl in Hn.
  apply Forall_cons in Hn as [Hk _]. simpl in Hk. by destruct (ke_key k).
Qed.

Lemma step_loop_index m n i :
  (i + n < length (listing m))%nat →
  step_loop h t m n (listing m !! i) = (0, listing m !! (i + n)%nat).
Proof.
  revert i. induction n as [|n IH]; intros i Hi; [simpl; by rewrite Nat.add_0_r|].
  destruct (lookup_lt_is_Some_2 (listing m) i) as [[k v] Hk]; [lia|].
  simpl. rewrite Hk. simpl. change k with ((k, v).1) at 1. rewrite (next_entry m i (k, v)) by done.
  destruct (lookup_lt_is_Some_2 (listing m) (S i)) as [e He]; [lia|]. rewrite He, <- He.
  rewrite IH by lia. f_equal. f_equal. lia.
Qed.

Definition end_code (l : list (dbpf_keyval_db_entry * list Z)) (n : nat) : Z :=
  if decide (n ≤ length l)%nat then 0 else - TROVE_ENOENT.

Lemma iterate_loop_index m n i x :
  listing m !! i = Some x →
  iterate_loop h t m n (Some x) false
  = (end_code (drop (S i) (listing m)) n, take n (drop (S i) (listing m)), m).
Proof.
  revert i x. induction n as [|n IH]; intros i [k v] Hx; [done|]. simpl.
  change k with ((k, v).1) at 1. rewrite (next_entry m i (k, v)) by done.
  destruct (listing m !! S i) as [[k' v']|] eqn:Hnx.
  - rewrite (IH (S i) (k', v')) by done. rewrite (drop_S _ (k', v') (S i)) by done. simpl.
    unfold end_code. simpl. f_equal. f_equal. case_decide; case_decide; lia || done.
  - apply lookup_ge_None in Hnx. rewrite drop_ge by done. done.
Qed.

(** Reading [n] entries behind the first [i]. *)
Lemma iterate_page (pcache : Z → Z → option (list Z)) m count pos (i : nat) :
  named m → 0 < count →
  match i with
  | O => pos = TROVE_ITERATE_START
  | S j => pos ≠ TROVE_ITERATE_START ∧ Z.land pos 4294967295 = Z.of_nat j ∧
           Z.of_nat j < TROVE_ITERATE_END ∧
           ∃ x, listing m !! j = Some x ∧
             (pcache h pos = None ∨ pcache h pos = Some (ke_key x.1))
  end →
  PINT_dbpf_keyval_iterate pcache h t (mk_db m []) count pos false
  = Done (end_code (drop i (listing m)) (Z.to_nat count), take (Z.to_nat count) (drop i (listing m)),
          match i with O => None | S _ => pcache h pos end, mk_db m []).
Proof.
  intros Hn Hc Hpos. unfold PINT_dbpf_keyval_iterate, transaction. cbn [db_errors db_map negb Z.eqb].
  replace (count =? 0) with false by lia. destruct (Z.to_nat count) as [|n] eqn:Hcn; [lia|].
  destruct i as [|j].
  - subst pos. rewrite decide_True by done. rewrite first_entry_named by done. rewrite drop_0.
    destruct (listing m) as [|[k v] l] eqn:Hl; [done|]. cbn [head mbind exec_bind negb Z.eqb andb].
    assert ((k, v) ∈ listing m) as (_ & Hh & Ht)%elem_of_listing by (rewrite Hl; by left).
    simpl. rewrite Hh, Ht, !Z.eqb_refl. simpl.
    rewrite (iterate_loop_index m n 0 (k, v)) by (by rewrite Hl). rewrite Hl.
    unfold end_code. simpl. rewrite drop_0. f_equal. f_equal. f_equal.
    case_decide; case_decide; lia || done.
  - destruct Hpos as (Hp & Hj & Hjs & [k v] & Hx & Hpc). rewrite decide_False by done.
    pose proof (list_elem_of_lookup_2 _ _ _ Hx) as (Hk & Hh & Ht)%elem_of_listing.
    assert (dbpf_keyval_iterate_skip_to_position pcache h t m pos
            = Done (0, Some (k, v), pcache h pos)) as ->.
    { unfold dbpf_keyval_iterate_skip_to_position. rewrite decide_False by done.
      destruct Hpc as [-> | ->].
      - unfold dbpf_keyval_iterate_step_to_position.
        rewrite Hj, decide_False by (unfold TROVE_ITERATE_START, TROVE_ITERATE_END in *; lia).
        rewrite first_entry_named by done. rewrite Nat2Z.id.
        pose proof (lookup_lt_Some _ _ _ Hx). destruct (head (listing m)) as [e|] eqn:He.
        + cbn [negb Z.eqb]. rewrite head_lookup in He. rewrite <- He, step_loop_index by lia.
          by rewrite Nat.add_0_l, Hx.
        + apply head_None in He. rewrite He in Hx. done.
      - simpl. replace (mk_entry h t (ke_key k)) with k by (destruct k; simpl in *; congruence).
        by rewrite Hk. }
    cbn [mbind exec_bind negb Z.eqb andb]. by rewrite (iterate_loop_index m (S n) j (k, v)).
Qed.
End listing.

(** Listing a directory: page after page of [count] entries, until the end.
    The cache of positions may have forgotten ([keep]) where the last page
    ended. *)
Fixpoint list_pages (keep : nat → bool) (fuel : nat) (session : Z) (m : entries_map)
    (h count pos : Z) (cached : option (Z * list Z)) : exec (list (list Z * list Z)) :=
  match fuel with
  | O => Fault OutOfFuel
  | S fuel =>
      let pcache (_ p : Z) : option (list Z) :=
        '(p', k) ← cached; if keep fuel && (p =? p') then Some k else None in
      '(ret, pos, kvs, _, cached, session, db) ←
        dbpf_keyval_iterate_op_svc pcache session (mk_db m []) h count pos TROVE_KEYVAL_DIRECTORY_ENTRY;
      if decide (pos = TROVE_ITERATE_END) then Done kvs
      else
        rest ← list_pages keep fuel session (db_map db) h count pos cached;
        Done (kvs ++ rest)
  end.

Definition dirents (m : entries_map) (h : Z) : list (list Z * list Z) :=
  (λ e, (ke_key e.1, e.2)) <$> listing h DBPF_DIRECTORY_ENTRY_TYPE m.

(** Where the iteration is after [i] entries. *)
Definition position_at (m : entries_map) (h pos : Z) (cached : option (Z * list Z)) (i : nat) : Prop :=
  match i with
  | O => pos = TROVE_ITERATE_START
  | S j => ∃ session x, 0 ≤ session < 65536 ∧ pos = session * B32 + Z.of_nat j ∧
      listing h DBPF_DIRECTORY_ENTRY_TYPE m !! j = Some x ∧ cached = Some (pos, ke_key x.1)
  end.

Lemma position_low session j :
  0 ≤ session < 65536 → 0 ≤ j < TROVE_ITERATE_END →
  Z.land (session * B32 + j) 4294967295 = j ∧ session * B32 + j ≠ TROVE_ITERATE_START ∧
  session * B32 + j ≠ TROVE_ITERATE_END ∧ 0 ≤ session * B32 + j < 65536 * B32.
Proof.
  intros Hs Hj. unfold TROVE_ITERATE_START, TROVE_ITERATE_END in *. split_and!; try lia.
  change 4294967295 with (Z.ones 32). rewrite Z.land_ones by lia. change (2 ^ 32) with B32.
  rewrite Z.add_comm, Z.mod_add by lia. apply Z.mod_small. lia.
Qed.

Lemma head_rev_take {A} (l : list A) (n : nat) :
  (0 < n ≤ length l)%nat → head (rev (take n l)) = l !! pred n.
Proof.
  intros Hn. destruct n as [|n]; [lia|]. destruct (lookup_lt_is_Some_2 l n) as [x Hx]; [lia|].
  rewrite (take_S_r _ _ x) by done. rewrite rev_app_distr. simpl. by rewrite Hx.
Qed.

Lemma list_pages_from keep (fuel : nat) session m h count pos cached (i : nat) :
  named h DBPF_DIRECTORY_ENTRY_TYPE m → 0 < count → 0 ≤ session < 65536 →
  len (listing h DBPF_DIRECTORY_ENTRY_TYPE m) < TROVE_ITERATE_END →
  position_at m h pos cached i → (length (listing h DBPF_DIRECTORY_ENTRY_TYPE m) < i + fuel)%nat →
  list_pages keep fuel session m h count pos cached = Done (drop i (dirents m h)).
Proof.
  intros Hn Hc Hses Hlen. unfold dirents. set (L := listing h DBPF_DIRECTORY_ENTRY_TYPE m) in *.
  revert session pos cached i Hses. induction fuel as [|fuel IH]; intros session pos cached i Hses Hp Hf.
  { exfalso. destruct i as [|j]; [lia|]. destruct Hp as (s & x & _ & _ & Hx & _).
    apply lookup_lt_Some in Hx. unfold L in Hf. lia. }
  cbn [list_pages]. unfold dbpf_keyval_iterate_op_svc. rewrite decide_True by lia.
  change (flag TROVE_KEYVAL_DIRECTORY_ENTRY TROVE_KEYVAL_ITERATE_REMOVE) with false.
  change (key_type TROVE_KEYVAL_DIRECTORY_ENTRY) with DBPF_DIRECTORY_ENTRY_TYPE.
  rewrite decide_False.
  2: { destruct i as [|j]; [simpl in Hp; by subst|]. destruct Hp as (s & x & Hs & -> & Hx & _).
       apply lookup_lt_Some in Hx. apply position_low; unfold L in *; lia. }
  rewrite (iterate_page h DBPF_DIRECTORY_ENTRY_TYPE _ m count pos i); [|done|done|].
  2: { destruct i as [|j]; [done|]. destruct Hp as (s & x & Hs & -> & Hx & ->).
       pose proof (lookup_lt_Some _ _ _ Hx). destruct (position_low s (Z.of_nat j)) as (H1 & H2 & _);
         [done|unfold L in *; lia|]. split_and!; [done|done|unfold L in *; lia|].
       exists x. split; [done|]. simpl. destruct (keep fuel); [|by left]. right. simpl. by rewrite Z.eqb_refl. }
  cbn [mbind exec_bind]. fold L. unfold end_code. destruct (decide (Z.to_nat count ≤ length (drop i L))%nat) as [Hd|Hd].
  2: { simpl. f_equal. rewrite <- fmap_drop. f_equal. apply take_ge. lia. }
  rewrite length_drop in Hd. simpl (0 =? _). cbn [negb].
  rewrite length_fmap, length_take, length_drop.
  assert (Z.of_nat (Z.to_nat count `min` (length L - i)) = count) as -> by lia.
  assert (∃ s, 0 ≤ s < 65536 ∧ (if decide (pos = TROVE_ITERATE_START)
      then (u64 (count - 1 + Z.shiftl session 32), (session + 1) mod 65536) else (u64 (pos + count), session))
    = (s * B32 + Z.of_nat (pred (i + Z.to_nat count)),
       if decide (pos = TROVE_ITERATE_START) then (session + 1) mod 65536 else session)) as (s & Hs & ->).
  { destruct i as [|j].
    - simpl in Hp. subst pos. rewrite !decide_True by done. exists session. split; [done|].
      rewrite Z.shiftl_mul_pow2 by lia. change (2 ^ 32) with B32. f_equal.
      unfold TROVE_ITERATE_END in *. rewrite u64_id by lia. lia.
    - destruct Hp as (s & x & Hs & -> & Hx & _). apply lookup_lt_Some in Hx.
      destruct (position_low s (Z.of_nat j)) as (_ & H2 & _); [done|unfold L in *; lia|].
      rewrite !decide_False by done. exists s. split; [done|]. f_equal.
      unfold TROVE_ITERATE_END in *. rewrite u64_id by lia. lia. }
  destruct (position_low s (Z.of_nat (pred (i + Z.to_nat count)))) as (_ & _ & H3 & _); [done|lia|].
  assert (∃ x, L !! pred (i + Z.to_nat count) = Some x) as [x Hx].
  { apply lookup_lt_is_Some_2. lia. }
  assert (head (rev ((λ e : dbpf_keyval_db_entry * list Z, (ke_key e.1, e.2)) <$> take (Z.to_nat count) (drop i L)))
    = Some (ke_key x.1, x.2)) as ->.
  { rewrite fmap_take. rewrite head_rev_take by (rewrite length_fmap, length_drop; lia).
    rewrite list_lookup_fmap, lookup_drop. replace (i + pred (Z.to_nat count))%nat with (pred (i + Z.to_nat count)) by lia.
    by rewrite Hx. }
  cbn [mbind exec_bind db_map]. rewrite decide_False by done.
  rewrite (IH _ _ _ (i + Z.to_nat count)%nat).
  - cbn [mbind exec_bind]. f_equal. rewrite <- fmap_drop, <- fmap_drop, <- drop_drop, <- fmap_app, take_drop. done.
  - case_decide; [|done]. apply Z.mod_pos_bound. lia.
  - destruct (i + Z.to_nat count)%nat as [|j'] eqn:Hj; [lia|]. exists s, x. simpl in Hx. done.
  - lia.
Qed.

(** C28. Listing a directory page by page gives each of its entries once, in
    order, whatever the size of the pages and whatever the cache has forgotten. *)
Theorem pages_complete keep (fuel : nat) session m h count :
  named h DBPF_DIRECTORY_ENTRY_TYPE m → 0 < count → 0 ≤ session < 65536 →
  len (dirents m h) < TROVE_ITERATE_END → (length (dirents m h) < fuel)%nat →
  list_pages keep fuel session m h count TROVE_ITERATE_START None = Done (dirents m h) ∧
  NoDup (dirents m h).*1 ∧ (∀ name v, (name, v) ∈ dirents m h ↔ m !! dirent_key h name = Some v).
Proof.
  unfold dirents. rewrite !length_fmap. intros Hn Hc Hs Hl Hf. split_and!.
  - by rewrite (list_pages_from keep fuel session m h count _ _ 0).
  - rewrite <- list_fmap_compose. apply (NoDup_fmap_1 (dirent_key h)). rewrite <- list_fmap_compose.
    replace ((dirent_key h ∘ (fst ∘ (λ e, (ke_key e.1, e.2))) : dbpf_keyval_db_entry * list Z → _)
      <$> listing h DBPF_DIRECTORY_ENTRY_TYPE m) with (listing h DBPF_DIRECTORY_ENTRY_TYPE m).*1;
      [apply listing_nodup|].
    apply list_fmap_ext. intros j [k v] Hj. apply list_elem_of_lookup_2, elem_of_listing in Hj as (_ & Hh & Ht).
    simpl. destruct k as [kh kt kk]. simpl in *. by subst.
  - intros name v. rewrite list_elem_of_fmap. split.
    + intros ([k v'] & [= -> ->] & Hin). apply elem_of_listing in Hin as (Hm & Hh & Ht).
      simpl. destruct k as [kh kt kk]. simpl in *. by subst.
    + intros Hm. exists (dirent_key h name, v). split; [done|]. apply elem_of_listing. done.
Qed.

(** ** Witnesses *)

Definition sample_name (c : Z) : list Z := [c; 0].
(** Object 7 has the entries b and a. *)
Definition sample_map : entries_map :=
  {[dirent_key 7 (sample_name 97) := [1]; dirent_key 7 (sample_name 98) := [2];
    count_key 7 := encode_info 2; mk_entry 8 DBPF_ATTRIBUTE_TYPE [104; 0] := [3]]}.

Lemma sample_counted : counted sample_map 7.
Proof. by vm_compute. Qed.

(** Removing the entries of a directory while iterating, up to the end:
    they are gone, but they are still counted. *)
Theorem iterate_remove_uncounted :
  ∃ m' session, dbpf_keyval_iterate_op_svc (λ _ _, None) 0 (mk_db sample_map []) 7 3 TROVE_ITERATE_START
      (TROVE_KEYVAL_ITERATE_REMOVE + TROVE_KEYVAL_HANDLE_COUNT + TROVE_KEYVAL_DIRECTORY_ENTRY)
    = Done (1, TROVE_ITERATE_END, dirents sample_map 7, None, None, session, mk_db m' []) ∧
    dirents m' 7 = [] ∧
    dbpf_keyval_get_handle_info_op_svc (mk_db m' []) 7 = (1, Some 2, mk_db m' []).
Proof. eexists _, _. split; [vm_compute; reflexivity|]. split; vm_compute; reflexivity. Qed.

(** The entry that the cache has for a position was removed: finding the next
    one overwrites the key in the cache, which then is a name that comes
    later. *)
Theorem removed_position_overwritten :
  ∃ session db, dbpf_keyval_iterate_op_svc (λ _ _, Some (sample_name 97)) 0
      (mk_db (delete (dirent_key 7 (sample_name 97)) sample_map) []) 7 1 0 TROVE_KEYVAL_DIRECTORY_ENTRY
    = Done (1, 1, [(sample_name 98, [2])], Some (sample_name 98), Some (1, sample_name 98), session, db).
Proof. eexists _, _. vm_compute. reflexivity. Qed.

Lemma dirent_write_witness :
  match sample_map !! dirent_key 7 (sample_name 99) with
  | Some _ => False
  | None => ∃ m', dbpf_keyval_write_op_svc (mk_db sample_map []) 7 (sample_name 99) [4] write_flags
                  = Done (DBPF_OP_COMPLETE, mk_db m' []) ∧
              updates sample_map m' 7 (λ name', if decide (name' = sample_name 99) then Some [4]
                                                else sample_map !! dirent_key 7 name')
  end.
Proof.
  refine (dirent_write sample_map 7 (sample_name 99) [4] sample_counted _ _); [|by vm_compute].
  by vm_compute.
Defined.

Lemma dirent_remove_witness :
  ∃ m', dbpf_keyval_remove_op_svc (mk_db sample_map []) 7 (sample_name 98) true remove_flags
    = Done (DBPF_OP_COMPLETE, Some [2], mk_db m' []) ∧
    updates sample_map m' 7 (λ name', if decide (name' = sample_name 98) then None
                                      else sample_map !! dirent_key 7 name').
Proof.
  refine (dirent_remove sample_map 7 (sample_name 98) sample_counted _ _); [|by vm_compute].
  by vm_compute.
Defined.

Lemma dirent_remove_list_witness :
  ∃ errors m', dbpf_keyval_remove_list_op_svc (mk_db sample_map []) 7 [sample_name 98; sample_name 99] remove_flags
    = Done (DBPF_OP_COMPLETE, errors, mk_db m' []) ∧
    updates sample_map m' 7 (λ name, if decide (name ∈ [sample_name 98; sample_name 99]) then None
                                     else sample_map !! dirent_key 7 name).
Proof.
  apply (dirent_remove_list sample_map 7 _ sample_counted); [|by vm_compute].
  repeat constructor; by vm_compute.
Defined.

Lemma dirent_write_list_witness :
  ∃ m', dbpf_keyval_write_list_op_svc (mk_db sample_map []) 7 [(sample_name 99, [4]); (sample_name 100, [5])] write_flags
    = Done (DBPF_OP_COMPLETE, mk_db m' []) ∧
    updates sample_map m' 7 (λ name,
      match (list_to_map [(sample_name 99, [4]); (sample_name 100, [5])] : gmap (list Z) (list Z)) !! name with
      | Some v => Some v | None => sample_map !! dirent_key 7 name end).
Proof.
  apply (dirent_write_list sample_map 7 _ sample_counted).
  - repeat constructor; by vm_compute.
  - by apply (bool_decide_unpack _).
  - repeat constructor; by vm_compute.
  - by vm_compute.
Defined.

Lemma write_list_overcounts_witness :
  ∃ m', dbpf_keyval_write_list_op_svc (mk_db sample_map []) 7 [(sample_name 98, [2])] write_flags
    = Done (DBPF_OP_COMPLETE, mk_db m' []) ∧
    m' !! dirent_key 7 (sample_name 98) = Some [2] ∧ dirent_count m' 7 = dirent_count sample_map 7 ∧
    dbpf_keyval_get_handle_info_op_svc (mk_db m' []) 7 = (1, Some (dirent_count m' 7 + 1), mk_db m' []).
Proof. apply (write_list_overcounts sample_map 7 (sample_name 98) [2] [2] sample_counted); by vm_compute. Defined.

Lemma pages_complete_witness :
  list_pages (λ n, Nat.even n) 4 0 sample_map 7 1 TROVE_ITERATE_START None
  = Done [(sample_name 97, [1]); (sample_name 98, [2])].
Proof.
  destruct (pages_complete (λ n, Nat.even n) 4 0 sample_map 7 1) as [-> _];
    [|done|lia|by vm_compute|vm_compute; lia|by vm_compute].
  apply (bool_decide_unpack _). by vm_compute.
Defined.
