(* ===== verification/SmWalk.v ===== *)
(** Walking through the states of one machine of a .sm file: the next state
    is found as [PINT_state_machine_next] of
    src/src/common/misc/state-machine-fns.c finds it, by the first transition
    whose return value is that of the action or the default.  For machines
    whose actions are modelled, and that are run on their own. *)

From stdpp Require Import base numbers strings list.
From S2P Require Import Prelude StateMachine Statecomp.

#[local] Open Scope Z_scope.

Fixpoint next_target (codes : list (string * Z)) (ts : list transition) (error_code : Z)
    : option target :=
  match ts with
  | [] => None
  | t :: ts =>
      let found :=
        match t_return_code t with
        | SUCCESS => error_code =? 0
        | DEFAULT => true
        | CODE c => match assoc c codes with Some v => error_code =? v | None => false end
        end in
      if found then Some (t_target t) else next_target codes ts error_code
  end.

Definition find_state (f : sm_file) (m s : string) : option sm_state :=
  m ← list_find (λ m', m_name m' = m) (f_machines f);
  snd <$> list_find (λ s', st_name s' = s) (m_states m.2).

Section walk.
(** The actions, by their names, and the machines that are jumped to; the
    state holds the frames. *)
Context {St : Type} (run_action jump_to : string → Z → St → exec (Z * St)).
Context (f : sm_file) (m : string).

(** One state: its action, and the state after it, or [None] when the machine
    returns or terminates. *)
Definition walk_state (s : string) (error_code : Z) (x : St) : exec (option string * Z * St) :=
  match find_state f m s with
  | None => Fault BadAccess
  | Some s =>
      '(error_code, x) ← (match st_action s with
                          | ACTION_RUN a => run_action a error_code x
                          | ACTION_JUMP m => jump_to m error_code x
                          | ACTION_PJMP _ _ => Fault BadAccess
                          end);
      match next_target (f_codes f) (st_transitions s) error_code with
      | None => Fault BadAccess
      | Some (NEXT_STATE s) => Done (Some s, error_code, x)
      | Some _ => Done (None, error_code, x)
      end
  end.

Fixpoint walk (fuel : nat) (s : string) (error_code : Z) (x : St) : exec (Z * St) :=
  match fuel with
  | O => Fault OutOfFuel
  | S fuel =>
      '(s, error_code, x) ← walk_state s error_code x;
      match s with
      | None => Done (error_code, x)
      | Some s => walk fuel s error_code x
      end
  end.

(** The transitions of a state with the values of their codes, for reading a
    machine off its description. *)
Definition resolve_transition (codes : list (string * Z)) (t : transition)
    : option (option Z * option string) :=
  let tgt := match t_target t with NEXT_STATE s => Some s | _ => None end in
  match t_return_code t with
  | SUCCESS => Some (Some 0, tgt)
  | DEFAULT => Some (None, tgt)
  | CODE c => (λ v, (Some v, tgt)) <$> assoc c codes
  end.

Definition resolved (s : string) : option (state_action * list (option Z * option string)) :=
  s ← find_state f m s;
  Some (st_action s, omap (resolve_transition (f_codes f)) (st_transitions s)).

Fixpoint pick (l : list (option Z * option string)) (error_code : Z) : option (option string) :=
  match l with
  | [] => None
  | (None, tgt) :: _ => Some tgt
  | (Some v, tgt) :: l => if error_code =? v then Some tgt else pick l error_code
  end.

Lemma next_target_pick codes ts error_code :
  (λ t, match t with NEXT_STATE s => Some s | _ => None end) <$> next_target codes ts error_code
  = pick (omap (resolve_transition codes) ts) error_code.
Proof.
  induction ts as [|[rc tgt] ts IH]; [done|].
  cbn [next_target t_return_code t_target omap list_omap]. unfold resolve_transition at 1.
  cbn [t_return_code t_target]. destruct rc as [| |c].
  - simpl. by destruct (error_code =? 0).
  - done.
  - destruct (assoc c codes) as [v|]; simpl; [|done]. by destruct (error_code =? v).
Qed.

Lemma walk_eq (fuel : nat) s error_code x act l :
  resolved s = Some (act, l) →
  walk (S fuel) s error_code x
  = ('(error_code, x) ← (match act with
                         | ACTION_RUN a => run_action a error_code x
                         | ACTION_JUMP m => jump_to m error_code x
                         | ACTION_PJMP _ _ => Fault BadAccess
                         end);
     match pick l error_code with
     | None => Fault BadAccess
     | Some None => Done (error_code, x)
     | Some (Some s) => walk fuel s error_code x
     end).
Proof.
  unfold resolved. intros Hr. cbn [walk]. unfold walk_state.
  destruct (find_state f m s) as [[n a ts]|]; [|done]. simpl in Hr. injection Hr as -> <-.
  cbn [st_action st_transitions].
  destruct act as [a|m'|];
    [destruct (run_action a error_code x) as [[c x']|]
    |destruct (jump_to m' error_code x) as [[c x']|]|]; try done;
    cbn [mbind exec_bind]; rewrite <- next_target_pick;
    by destruct (next_target (f_codes f) ts c) as [[]|].
Qed.

(** A machine that reached its end with some fuel does so with more. *)
Lemma walk_fuel (fuel fuel' : nat) s error_code x r :
  walk fuel s error_code x = Done r → (fuel ≤ fuel')%nat → walk fuel' s error_code x = Done r.
Proof.
  revert fuel' s error_code x. induction fuel as [|fuel IH]; intros fuel' s error_code x Hw Hle.
  { done. }
  destruct fuel' as [|fuel']; [lia|]. revert Hw. simpl.
  destruct (walk_state s error_code x) as [[[[s'|] c'] x']|]; [|done..].
  simpl. intros Hw. apply IH; [done|lia].
Qed.
End walk.
