(* ===== verification/Msgpair.v ===== *)
(** Arrays of messages (src/src/common/misc/msgpairarray.sm): the machine by
    which servers and clients send requests, wait for the answers and send
    those again that were lost.  The states and transitions are those of
    [msgpairarray_sm]; the actions are modelled here, the jobs of the network
    are a list of what becomes of every message. *)

From Stdlib Require Import ZifyBool.
From stdpp Require Import base numbers strings list.
From S2P Require Import Prelude Errors StateMachine Statecomp.
From S2P Require Import MachinesCommon.
From S2P Require Import SmWalk.
From S2P Require Import Wire.

#[local] Open Scope Z_scope.

Definition PVFS_ERROR_BMI : Z := Z.shiftl 1 7.
Definition BMI_ECANCEL : Z :=
  Z.lor (Z.lor 1 (Z.lor PVFS_NON_ERRNO_ERROR_BIT PVFS_ERROR_BIT)) PVFS_ERROR_BMI.

Definition PVFS_ERROR_CLASS (error : Z) : Z :=
  Z.land error (Z.lnot (Z.lor 127 (Z.lor PVFS_ERROR_BIT PVFS_NON_ERRNO_ERROR_BIT))).

Definition PVFS_MSGPAIR_RETRY : Z := 254.
Definition PVFS_MSGPAIR_NO_RETRY : Z := 255.

Definition MSGPAIRS_COMPLETE : Z := 190.
Definition MSGPAIRS_RETRY : Z := 191.
Definition MSGPAIRS_RETRY_NODELAY : Z := 192.

Section msgpair.
(** [X] is what the caller and the servers have: their frames, their storage
    and the like; [R] is a response. *)
Context {X R : Type} (resp_status : R → Z).
(** What the server does with message [i], and what decoding its response
    gives: an error or 0, and the response. *)
Context (serve : Z → X → exec (Z * R * X)).

(** * Data *)

(** [mp_encoded] is whether [encoded_resp_p] is set, [mp_resp] what that
    buffer was filled with. *)
Record PINT_sm_msgpair_state := mk_msgpair {
  mp_retry_flag : Z;
  mp_retry_count : Z;
  mp_comp_fn : option (X → R → Z → exec (Z * X));
  mp_encoded : bool;
  mp_resp : option (Z * R);
  mp_op_status : Z;
  mp_complete : bool;
}.

Definition set_status (m : PINT_sm_msgpair_state) (e : Z) : PINT_sm_msgpair_state :=
  mk_msgpair (mp_retry_flag m) (mp_retry_count m) (mp_comp_fn m) (mp_encoded m) (mp_resp m) e
    (mp_complete m).

Definition set_encoded (m : PINT_sm_msgpair_state) (b : bool) : PINT_sm_msgpair_state :=
  mk_msgpair (mp_retry_flag m) (mp_retry_count m) (mp_comp_fn m) b (mp_resp m) (mp_op_status m)
    (mp_complete m).

Definition set_count (m : PINT_sm_msgpair_state) (n : Z) : PINT_sm_msgpair_state :=
  mk_msgpair (mp_retry_flag m) n (mp_comp_fn m) (mp_encoded m) (mp_resp m) (mp_op_status m)
    (mp_complete m).

(** A job of the network that has ended: the receives have the numbers of
    the messages as tags, the sends those beyond. *)
Record job_done := mk_done { jd_tag : Z; jd_error : Z; jd_resp : option (Z * R) }.

(** What becomes of a message: it is served and answered; it is served, but
    the receive fails; the send fails, and the receive that was cancelled with
    it; the send cannot be posted; the receive cannot be posted, or fails at
    once.  [now] tells whether the send completes at once. *)
Inductive way :=
  | Answered (now : bool)
  | Unanswered (now : bool) (e : Z)
  | Lost (e r : Z)
  | SendFailed (e r : Z)
  | RecvFailed (posted : bool) (e : Z).

(** Together with the results of encoding it and of the allocation. *)
Record fate := mk_fate { f_encode : Z; f_alloc : bool; f_way : way }.

Definition delivered : fate := mk_fate 0 true (Answered false).

(** [PINT_sm_msgarray_op] with the surroundings of the machine: the job status
    it was continued with, what becomes of the messages to come, and the jobs
    that are still to end, in that order. *)
Record msgarray := mk_array {
  ma_msgs : list PINT_sm_msgpair_state;
  ma_comp_ct : Z;
  ma_retry_limit : Z;
  ma_js : job_done;
  ma_fates : list fate;
  ma_jobs : list job_done;
  ma_x : X;
}.

(** * Actions *)

(** [SM_ACTION_DEFERRED]: the machine goes on when a job ends.  Without a job
    it waits forever. *)
Definition deferred (a : msgarray) : exec (Z * msgarray) :=
  match ma_jobs a with
  | [] => Fault OutOfFuel
  | j :: js => Done (jd_error j, mk_array (ma_msgs a) (ma_comp_ct a) (ma_retry_limit a) j
                                   (ma_fates a) js (ma_x a))
  end.

Definition msgpairarray_init (a : msgarray) : exec (Z * msgarray) :=
  if decide (len (ma_msgs a) > 0) then
    if forallb (λ m, (mp_retry_flag m =? PVFS_MSGPAIR_RETRY)
                     || (mp_retry_flag m =? PVFS_MSGPAIR_NO_RETRY)) (ma_msgs a) then
      let fresh m := mk_msgpair (mp_retry_flag m) 0 (mp_comp_fn m) false (mp_resp m)
                       (mp_op_status m) false in
      Done (0, mk_array (fresh <$> ma_msgs a) (2 * len (ma_msgs a)) (ma_retry_limit a) (ma_js a)
                 (ma_fates a) (ma_jobs a) (ma_x a))
    else Fault AssertFailed
  else Fault AssertFailed.

(** What posting the messages one after the other changes; [local] is
    [local_enc_and_alloc]. *)
Record posting := mk_posting {
  po_comp_ct : Z; po_local : bool; po_fates : list fate; po_jobs : list job_done; po_x : X }.

Definition next_fate (fs : list fate) : fate * list fate :=
  match fs with [] => (delivered, []) | f :: fs => (f, fs) end.

(** The jobs of a message whose receive was posted, the status it has until
    they end, and by how much they are fewer than two. *)
Definition send_message (count i : Z) (w : way) (x : X) : exec (Z * Z * list job_done * X) :=
  let sent (now : bool) e := if now then [] else [mk_done (count + i) e None] in
  match w with
  | Answered now =>
      '(ret, r, x) ← serve i x;
      Done (0, (if now then 1 else 0), sent now 0 ++ [mk_done i 0 (Some (ret, r))], x)
  | Unanswered now e =>
      '(_, _, x) ← serve i x;
      Done (0, (if now then 1 else 0), sent now 0 ++ [mk_done i e None], x)
  | Lost e r => Done (0, 0, [mk_done (count + i) e None; mk_done i r None], x)
  | SendFailed e r => Done (e, 1, [mk_done i r None], x)
  | RecvFailed _ _ => Fault BadAccess
  end.

(** The first result is the error that ends the loop. *)
Definition post_message (count i : Z) (m : PINT_sm_msgpair_state) (p : posting)
    : exec (option Z * PINT_sm_msgpair_state * posting) :=
  if mp_complete m then Done (None, m, p)
  else
    let '(f, fs) := next_fate (po_fates p) in
    let p := mk_posting (po_comp_ct p) (po_local p) fs (po_jobs p) (po_x p) in
    let m := set_status m 0 in
    if negb (mp_encoded m) && negb (f_encode f =? 0) then Done (Some (f_encode f), m, p)
    else if negb (mp_encoded m) && negb (f_alloc f) then Done (Some (- PVFS_ENOMEM), m, p)
    else
      let local := negb (mp_encoded m) || po_local p in
      let m := set_encoded m true in
      match f_way f with
      | RecvFailed posted e =>
          if negb posted || negb (e =? 0) then
            let m := set_status (if local then set_encoded m false else m) e in
            Done (None, m, mk_posting (po_comp_ct p - 2) false (po_fates p) (po_jobs p) (po_x p))
          else Fault AssertFailed
      | w =>
          '(e, n, jobs, x) ← send_message count i w (po_x p);
          Done (None, set_status m e,
                mk_posting (po_comp_ct p - n) local (po_fates p) (po_jobs p ++ jobs) x)
      end.

Fixpoint post_loop (count i : Z) (msgs : list PINT_sm_msgpair_state) (p : posting)
    : exec (option Z * list PINT_sm_msgpair_state * posting) :=
  match msgs with
  | [] => Done (None, [], p)
  | m :: msgs =>
      '(stop, m, p) ← post_message count i m p;
      match stop with
      | Some e => Done (Some e, m :: msgs, p)
      | None =>
          '(stop, msgs, p) ← post_loop count (i + 1) msgs p;
          Done (stop, m :: msgs, p)
      end
  end.

Definition msgpairarray_post (a : msgarray) : exec (Z * msgarray) :=
  if decide (len (ma_msgs a) > 0 ∧ ma_comp_ct a >= 2) then
    '(stop, msgs, p) ← post_loop (len (ma_msgs a)) 0 (ma_msgs a)
      (mk_posting (ma_comp_ct a) false (ma_fates a) (ma_jobs a) (ma_x a));
    let a := mk_array msgs (po_comp_ct p) (ma_retry_limit a) (ma_js a) (po_fates p) (po_jobs p)
               (po_x p) in
    match stop with
    | Some e => Done (e, a)
    | None => if po_comp_ct p =? 0 then Done (MSGPAIRS_COMPLETE, a) else deferred a
    end
  else Fault AssertFailed.

(** The timer ends without an error. *)
Definition msgpairarray_post_retry (a : msgarray) : exec (Z * msgarray) := Done (0, a).

(** A receive or a send of message [m] has ended with [e]; the cancelled jobs
    end as the list of jobs says. *)
Definition end_job (j : job_done) (m : PINT_sm_msgpair_state) : PINT_sm_msgpair_state :=
  mk_msgpair (mp_retry_flag m) (mp_retry_count m) (mp_comp_fn m) (mp_encoded m)
    (match jd_resp j with Some r => Some r | None => mp_resp m end)
    (if mp_op_status m =? 0 then jd_error j else mp_op_status m) (mp_complete m).

Definition msgpairarray_complete (a : msgarray) : exec (Z * msgarray) :=
  let j := ma_js a in
  let count := len (ma_msgs a) in
  if decide (0 ≤ jd_tag j ∧ jd_tag j < count * 2) then
    let i := if decide (jd_tag j < count) then jd_tag j else jd_tag j - count in
    let comp_ct := ma_comp_ct a - 1 in
    let a := mk_array (alter (end_job j) (Z.to_nat i) (ma_msgs a)) comp_ct (ma_retry_limit a) j
               (ma_fates a) (ma_jobs a) (ma_x a) in
    if decide (comp_ct > 0) then deferred a
    else if decide (comp_ct = 0) then Done (MSGPAIRS_COMPLETE, a)
    else Fault AssertFailed
  else Fault AssertFailed.

(** The status of a message is known: its resources are freed. *)
Definition completed (m : PINT_sm_msgpair_state) (status : Z) : PINT_sm_msgpair_state :=
  mk_msgpair (mp_retry_flag m) (mp_retry_count m) (mp_comp_fn m) false (mp_resp m) status true.

(** The messages, [js_p->error_code] and [need_retry]. *)
Fixpoint completion_loop (i : Z) (msgs : list PINT_sm_msgpair_state) (error_code need_retry : Z)
    (x : X) : exec (list PINT_sm_msgpair_state * Z * Z * X) :=
  match msgs with
  | [] => Done ([], error_code, need_retry, x)
  | m :: msgs =>
      '(m, error_code, need_retry, x) ←
        (if mp_complete m then Done (m, error_code, need_retry, x)
         else if negb (mp_op_status m =? 0) then Done (m, error_code, need_retry + 1, x)
         else
           match mp_resp m with
           | None => Fault BadAccess
           | Some (ret, r) =>
               if negb (ret =? 0) then Done (completed m ret, ret, need_retry, x)
               else
                 match mp_comp_fn m with
                 | None =>
                     Done (completed m (resp_status r),
                           (if resp_status r =? 0 then error_code else resp_status r),
                           need_retry, x)
                 | Some f =>
                     '(status, x) ← f x r i;
                     Done (completed m status,
                           (if status =? 0 then error_code else status), need_retry, x)
                 end
           end);
      '(msgs, error_code, need_retry, x) ← completion_loop (i + 1) msgs error_code need_retry x;
      Done (m :: msgs, error_code, need_retry, x)
  end.

Definition retryable (retry_limit : Z) (m : PINT_sm_msgpair_state) : bool :=
  (mp_retry_flag m =? PVFS_MSGPAIR_RETRY)
  && (PVFS_ERROR_CLASS (- mp_op_status m) =? PVFS_ERROR_BMI)
  && (mp_retry_count m <? retry_limit).

Fixpoint retry_loop (retry_limit : Z) (msgs : list PINT_sm_msgpair_state) (error_code comp_ct : Z)
    : list PINT_sm_msgpair_state * Z * Z :=
  match msgs with
  | [] => ([], error_code, comp_ct)
  | m :: msgs =>
      let '(m, error_code, comp_ct) :=
        if mp_complete m then (m, error_code, comp_ct)
        else if retryable retry_limit m then
          (set_count m (mp_retry_count m + 1),
           (if mp_op_status m =? - BMI_ECANCEL then MSGPAIRS_RETRY_NODELAY else MSGPAIRS_RETRY),
           comp_ct + 2)
        else (m, (if error_code =? 0 then mp_op_status m else error_code), comp_ct) in
      let '(msgs, error_code, comp_ct) := retry_loop retry_limit msgs error_code comp_ct in
      (m :: msgs, error_code, comp_ct)
  end.

Definition msgpairarray_completion_fn (a : msgarray) : exec (Z * msgarray) :=
  '(msgs, error_code, need_retry, x) ← completion_loop 0 (ma_msgs a) 0 0 (ma_x a);
  let '(msgs, error_code, comp_ct) :=
    if need_retry =? 0 then (msgs, error_code, ma_comp_ct a)
    else retry_loop (ma_retry_limit a) msgs error_code 0 in
  Done (error_code, mk_array msgs comp_ct (ma_retry_limit a) (ma_js a) (ma_fates a) (ma_jobs a) x).

Definition msgpairarray_action (name : String.string) (error_code : Z) (a : msgarray)
    : exec (Z * msgarray) :=
  if decide (name = "msgpairarray_init"%string) then msgpairarray_init a
  else if decide (name = "msgpairarray_post"%string) then msgpairarray_post a
  else if decide (name = "msgpairarray_post_retry"%string) then msgpairarray_post_retry a
  else if decide (name = "msgpairarray_complete"%string) then msgpairarray_complete a
  else if decide (name = "msgpairarray_completion_fn"%string) then msgpairarray_completion_fn a
  else if decide (name = "msgpairarray_done"%string) then Done (error_code, a)
  else Fault BadAccess.

Definition pvfs2_msgpairarray_walk (fuel : nat) (s : String.string) (error_code : Z) (a : msgarray)
    : exec (Z * msgarray) :=
  walk msgpairarray_action (λ _ _ _, Fault BadAccess) msgpairarray_sm "pvfs2_msgpairarray_sm"%string
    fuel s error_code a.

(** Enough for [retry_limit] trips of at most two jobs for every message. *)
Definition array_fuel (count retry_limit : Z) : nat :=
  Z.to_nat (3 + (retry_limit + 1) * (2 * count + 4)).

Definition pvfs2_msgpairarray_sm (a : msgarray) : exec (Z * msgarray) :=
  pvfs2_msgpairarray_walk (array_fuel (len (ma_msgs a)) (ma_retry_limit a)) "init"%string 0 a.

Definition PINT_msgarray_status (msgs : list PINT_sm_msgpair_state) : Z :=
  match find (λ m, negb (mp_op_status m =? 0)) msgs with Some m => mp_op_status m | None => 0 end.

(** * Walking *)

Ltac fold_codes :=
  change 190 with MSGPAIRS_COMPLETE; change 191 with MSGPAIRS_RETRY;
  change 192 with MSGPAIRS_RETRY_NODELAY.

Lemma walk_init n c a :
  pvfs2_msgpairarray_walk (S n) "init" c a
  = ('(c, a) ← msgpairarray_init a; pvfs2_msgpairarray_walk n "post" c a).
Proof. unfold pvfs2_msgpairarray_walk. by erewrite walk_eq by (vm_compute; reflexivity). Qed.

Lemma walk_post n c a :
  pvfs2_msgpairarray_walk (S n) "post" c a
  = ('(c, a) ← msgpairarray_post a;
     pvfs2_msgpairarray_walk n
       (if c =? MSGPAIRS_COMPLETE then "completion_fn" else "complete") c a).
Proof.
  unfold pvfs2_msgpairarray_walk. erewrite walk_eq by (vm_compute; reflexivity).
  cbv match. change (msgpairarray_action _ c a) with (msgpairarray_post a).
  destruct (msgpairarray_post a) as [[c' a']|]; [|done]. cbn -[walk Z.eqb]; fold_codes. by destruct (c' =? MSGPAIRS_COMPLETE).
Qed.

Lemma walk_post_retry n c a :
  pvfs2_msgpairarray_walk (S n) "post_retry" c a = pvfs2_msgpairarray_walk n "post" 0 a.
Proof. unfold pvfs2_msgpairarray_walk. by erewrite walk_eq by (vm_compute; reflexivity). Qed.

Lemma walk_complete n c a :
  pvfs2_msgpairarray_walk (S n) "complete" c a
  = ('(c, a) ← msgpairarray_complete a;
     pvfs2_msgpairarray_walk n
       (if c =? MSGPAIRS_COMPLETE then "completion_fn" else "complete") c a).
Proof.
  unfold pvfs2_msgpairarray_walk. erewrite walk_eq by (vm_compute; reflexivity).
  cbv match. change (msgpairarray_action _ c a) with (msgpairarray_complete a).
  destruct (msgpairarray_complete a) as [[c' a']|]; [|done]. cbn -[walk Z.eqb]; fold_codes. by destruct (c' =? MSGPAIRS_COMPLETE).
Qed.

Lemma walk_completion_fn n c a :
  pvfs2_msgpairarray_walk (S n) "completion_fn" c a
  = ('(c, a) ← msgpairarray_completion_fn a;
     pvfs2_msgpairarray_walk n
       (if c =? MSGPAIRS_RETRY then "post_retry"
        else if c =? MSGPAIRS_RETRY_NODELAY then "post" else "done") c a).
Proof.
  unfold pvfs2_msgpairarray_walk. erewrite walk_eq by (vm_compute; reflexivity).
  cbv match. change (msgpairarray_action _ c a) with (msgpairarray_completion_fn a).
  destruct (msgpairarray_completion_fn a) as [[c' a']|]; [|done]. cbn -[walk Z.eqb]; fold_codes.
  destruct (c' =? MSGPAIRS_RETRY); [done|]. by destruct (c' =? MSGPAIRS_RETRY_NODELAY).
Qed.

Lemma walk_done n c a : pvfs2_msgpairarray_walk (S n) "done" c a = Done (c, a).
Proof. unfold pvfs2_msgpairarray_walk. by erewrite walk_eq by (vm_compute; reflexivity). Qed.

(** * One trip *)

(** A message that was not lost has no error; the others have errors, which
    are negative. *)
Definition way_ok (w : way) : Prop :=
  match w with
  | Answered _ => True
  | Unanswered _ e | RecvFailed _ e => e < 0
  | Lost e r | SendFailed e r => e < 0 ∧ r ≤ 0
  end.

Definition fate_ok (f : fate) : Prop := f_encode f = 0 ∧ f_alloc f = true ∧ way_ok (f_way f).

(** What a trip comes to for the messages that are not complete. *)
Definition settle (m : PINT_sm_msgpair_state) (encoded : bool) (resp : option (Z * R)) (e : Z)
    : PINT_sm_msgpair_state :=
  mk_msgpair (mp_retry_flag m) (mp_retry_count m) (mp_comp_fn m) encoded
    (match resp with Some r => Some r | None => mp_resp m end) e (mp_complete m).

Definition settle_way (i : Z) (m : PINT_sm_msgpair_state) (w : way) (local : bool) (x : X)
    : exec (PINT_sm_msgpair_state * bool * X) :=
  match w with
  | Answered _ => '(ret, r, x) ← serve i x; Done (settle m true (Some (ret, r)) 0, local, x)
  | Unanswered _ e => '(_, _, x) ← serve i x; Done (settle m true None e, local, x)
  | Lost e _ | SendFailed e _ => Done (settle m true None e, local, x)
  | RecvFailed _ e => Done (settle m (negb local) None e, false, x)
  end.

Fixpoint trip (i : Z) (msgs : list PINT_sm_msgpair_state) (local : bool) (fs : list fate) (x : X)
    : exec (list PINT_sm_msgpair_state * list fate * X) :=
  match msgs with
  | [] => Done ([], fs, x)
  | m :: msgs =>
      if mp_complete m then
        '(msgs, fs, x) ← trip (i + 1) msgs local fs x; Done (m :: msgs, fs, x)
      else
        let '(f, fs) := next_fate fs in
        '(m, local, x) ← settle_way i m (f_way f) (negb (mp_encoded m) || local) x;
        '(msgs, fs, x) ← trip (i + 1) msgs local fs x; Done (m :: msgs, fs, x)
  end.

Definition incomplete (msgs : list PINT_sm_msgpair_state) : Z :=
  len (filter (λ m, mp_complete m = false) msgs).

Definition end_in (count : Z) (msgs : list PINT_sm_msgpair_state) (j : job_done)
    : list PINT_sm_msgpair_state :=
  alter (end_job j) (Z.to_nat (if decide (jd_tag j < count) then jd_tag j else jd_tag j - count)) msgs.

(** The jobs that are posted for the message at [i]. *)
Definition jobs_of (count i : Z) (js : list job_done) : Prop :=
  Forall (λ j, (jd_tag j = i ∨ jd_tag j = count + i) ∧ jd_error j ≤ 0) js.

Lemma jobs_end count (pre rest : list PINT_sm_msgpair_state) m js :
  len pre < count → jobs_of count (len pre) js →
  foldl (end_in count) (pre ++ m :: rest) js = pre ++ foldl (λ m j, end_job j m) m js :: rest.
Proof.
  intros Hlt Hjs. revert m. induction Hjs as [|j js [Hj _] Hjs IH]; intros m; [done|]. simpl.
  assert (end_in count (pre ++ m :: rest) j = pre ++ end_job j m :: rest) as ->; [|apply IH].
  unfold end_in. replace (Z.to_nat _) with (length pre + 0)%nat.
  - by rewrite alter_app_r.
  - case_decide; lia.
Qed.

(** Posting a message gives the jobs whose end settles it. *)
Lemma post_message_trip count i m p f :
  0 ≤ i → mp_complete m = false → (next_fate (po_fates p)).1 = f → fate_ok f →
  match settle_way i m (f_way f) (negb (mp_encoded m) || po_local p) (po_x p) with
  | Fault e => post_message count i m p = Fault e
  | Done (m', local', x') => ∃ m1 js,
      post_message count i m p
      = Done (None, m1, mk_posting (po_comp_ct p - 2 + len js) local' (next_fate (po_fates p)).2
                          (po_jobs p ++ js) x') ∧
      jobs_of count i js ∧ len js ≤ 2 ∧ foldl (λ m j, end_job j m) m1 js = m'
  end.
Proof.
  intros Hi Hc Hf (He & Ha & Hw). unfold post_message, settle_way. rewrite Hc.
  destruct (next_fate (po_fates p)) as [f' fs]. cbn [fst snd] in *. subst f'.
  rewrite He, Ha. cbn [Z.eqb negb]. rewrite !andb_false_r. cbn [po_x po_comp_ct po_local po_jobs po_fates].
  assert (mp_encoded (set_status m 0) = mp_encoded m) as -> by done.
  destruct (f_way f) as [now|now e|e r|e r|posted e]; cbn [way_ok] in Hw; cbn [send_message].
  - destruct (serve i (po_x p)) as [[[ret r] x]|]; cbn [mbind exec_bind]; [|done].
    eexists _, _. split; [f_equal; f_equal; f_equal; destruct now; simpl; lia|]. split_and!.
    + unfold jobs_of. destruct now; simpl; repeat constructor; simpl; lia.
    + destruct now; simpl; lia.
    + unfold settle. destruct now; simpl; unfold end_job; simpl; by rewrite Hc.
  - destruct (serve i (po_x p)) as [[[ret r] x]|]; cbn [mbind exec_bind]; [|done].
    eexists _, _. split; [f_equal; f_equal; f_equal; destruct now; simpl; lia|]. split_and!.
    + unfold jobs_of. destruct now; simpl; repeat constructor; simpl; lia.
    + destruct now; simpl; lia.
    + unfold settle. destruct now; simpl; unfold end_job; simpl; by rewrite Hc.
  - cbn [mbind exec_bind]. eexists _, _. split; [f_equal; f_equal; f_equal; simpl; lia|]. split_and!.
    + repeat constructor; simpl; lia.
    + simpl; lia.
    + unfold settle, end_job. simpl. replace (e =? 0) with false by lia. by rewrite Hc.
  - cbn [mbind exec_bind]. eexists _, _. split; [f_equal; f_equal; f_equal; simpl; lia|]. split_and!.
    + repeat constructor; simpl; lia.
    + simpl; lia.
    + unfold settle, end_job. simpl. replace (e =? 0) with false by lia. by rewrite Hc.
  - replace (e =? 0) with false by lia. rewrite orb_true_r.
    eexists _, []. rewrite app_nil_r. split; [f_equal; f_equal; f_equal; simpl; lia|]. split; [constructor|]. split; [simpl; lia|].
    unfold settle. simpl. by destruct (mp_encoded m), (po_local p).
Qed.

Lemma next_fate_ok fs : Forall fate_ok fs → fate_ok (next_fate fs).1 ∧ Forall fate_ok (next_fate fs).2.
Proof. by destruct 1. Qed.

Lemma incomplete_cons m msgs :
  incomplete (m :: msgs) = (if mp_complete m then 0 else 1) + incomplete msgs.
Proof.
  unfold incomplete. rewrite filter_cons. destruct (mp_complete m).
  - by rewrite decide_False.
  - rewrite decide_True by done. simpl. lia.
Qed.

Lemma app_cons_shift {A} (pre l : list A) a : pre ++ a :: l = (pre ++ [a]) ++ l.
Proof. by rewrite <- app_assoc. Qed.

Lemma post_loop_trip count i msgs p :
  0 ≤ i → i + len msgs ≤ count → Forall fate_ok (po_fates p) →
  match trip i msgs (po_local p) (po_fates p) (po_x p) with
  | Fault e => post_loop count i msgs p = Fault e
  | Done (msgs', fs', x') => ∃ msgs1 js l,
      post_loop count i msgs p
      = Done (None, msgs1, mk_posting (po_comp_ct p - 2 * incomplete msgs + len js) l fs'
                             (po_jobs p ++ js) x') ∧
      Forall fate_ok fs' ∧ Forall (λ j, 0 ≤ jd_tag j < 2 * count ∧ jd_error j ≤ 0) js ∧
      len js ≤ 2 * incomplete msgs ∧ length msgs1 = length msgs ∧
      ∀ pre, len pre = i → foldl (end_in count) (pre ++ msgs1) js = pre ++ msgs'
  end.
Proof.
  revert i p. induction msgs as [|m msgs IH]; intros i p Hi Hle Hfs.
  { exists [], [], (po_local p). destruct p. rewrite app_nil_r. split_and!; try done.
    unfold incomplete. simpl. repeat f_equal. lia. }
  cbn [trip post_loop length] in *. rewrite incomplete_cons. destruct (mp_complete m) eqn:Hc.
  - specialize (IH (i + 1) p ltac:(lia) ltac:(lia) Hfs).
    destruct (trip (i + 1) msgs _ _ _) as [[[msgs' fs'] x']|e]; cbn [mbind exec_bind].
    + destruct IH as (msgs1 & js & l & Hp & Hfs' & Hjs & Hn & Hlen1 & Hfold).
      unfold post_message. rewrite Hc. cbn [mbind exec_bind]. rewrite Hp. cbn [mbind exec_bind].
      exists (m :: msgs1), js, l. split_and!; [by rewrite Z.add_0_l|done|done|lia|simpl; lia|].
      intros pre Hpre. rewrite (app_cons_shift pre msgs1), (app_cons_shift pre msgs'). apply Hfold.
      rewrite length_app. simpl. lia.
    + unfold post_message. rewrite Hc. cbn [mbind exec_bind]. by rewrite IH.
  - destruct (next_fate_ok _ Hfs) as [Hok Hfs1].
    pose proof (post_message_trip count i m p _ Hi Hc eq_refl Hok) as Hm.
    destruct (next_fate (po_fates p)) as [f fs1]. cbn [fst snd] in *.
    destruct (settle_way i m (f_way f) _ (po_x p)) as [[[m' l'] x1]|e]; cbn [mbind exec_bind].
    2: { by rewrite Hm. }
    destruct Hm as (m1 & js1 & Hp1 & Hj1 & Hn1 & Hf1). rewrite Hp1. cbn [mbind exec_bind].
    specialize (IH (i + 1) (mk_posting (po_comp_ct p - 2 + len js1) l' fs1 (po_jobs p ++ js1) x1)
      ltac:(lia) ltac:(lia) Hfs1). cbn [po_local po_fates po_x po_comp_ct po_jobs] in IH.
    destruct (trip (i + 1) msgs l' fs1 x1) as [[[msgs' fs'] x']|e]; cbn [mbind exec_bind];
      [|by rewrite IH].
    destruct IH as (msgs1 & js & l & Hp & Hfs' & Hjs & Hn & Hlen1 & Hfold). rewrite Hp. cbn [mbind exec_bind].
    exists (m1 :: msgs1), (js1 ++ js), l. rewrite !length_app, app_assoc. split_and!; [|done| |lia|simpl; lia|].
    + f_equal; f_equal; f_equal; lia.
    + apply Forall_app. split; [|done]. eapply Forall_impl; [done|]. simpl. lia.
    + intros pre Hpre. rewrite foldl_app, jobs_end by (try rewrite Hpre; done || lia). rewrite Hf1.
      rewrite (app_cons_shift pre msgs1), (app_cons_shift pre msgs'). apply Hfold.
      rewrite length_app. simpl. lia.
Qed.

(** The jobs end one after the other. *)
Lemma walk_jobs js msgs limit j fs x c :
  Forall (λ j, 0 ≤ jd_tag j < 2 * len msgs ∧ jd_error j ≤ 0) (j :: js) →
  ∃ j', ∀ k, pvfs2_msgpairarray_walk (length (j :: js) + k) "complete" c
    (mk_array msgs (len (j :: js)) limit j fs js x)
  = pvfs2_msgpairarray_walk k "completion_fn" MSGPAIRS_COMPLETE
      (mk_array (foldl (end_in (len msgs)) msgs (j :: js)) 0 limit j' fs [] x).
Proof.
  revert j msgs c. induction js as [|j2 js IH]; intros j msgs c Hjs;
    inversion Hjs as [|? ? [Htag Herr] Hjs' Heq]; subst.
  - exists j. intros k. change (length [j] + k)%nat with (S k). rewrite walk_complete.
    unfold msgpairarray_complete. cbn [ma_js ma_msgs ma_comp_ct ma_retry_limit ma_fates ma_jobs ma_x].
    rewrite decide_True by lia. by rewrite !decide_False by (simpl; lia).
  - assert (len (end_in (len msgs) msgs j) = len msgs) as Hlen.
    { unfold end_in. by rewrite length_alter. }
    destruct (IH j2 (end_in (len msgs) msgs j) (jd_error j2)) as [j' Hj']; [by rewrite Hlen|].
    exists j'. intros k. specialize (Hj' k). rewrite Hlen in Hj'. cbn [foldl]. cbn [foldl] in Hj'.
    rewrite <- Hj'.
    change (length (j :: j2 :: js) + k)%nat with (S (length (j2 :: js) + k)). rewrite walk_complete.
    unfold msgpairarray_complete. cbn [ma_js ma_msgs ma_comp_ct ma_retry_limit ma_fates ma_jobs ma_x].
    rewrite decide_True by lia. rewrite decide_True by (simpl; lia). cbn [deferred ma_jobs mbind exec_bind].
    inversion Hjs' as [|? ? [_ Herr2] _]; subst.
    replace (jd_error j2 =? MSGPAIRS_COMPLETE) with false by (unfold MSGPAIRS_COMPLETE; lia).
    f_equal. f_equal. simpl. lia.
Qed.

(** A trip ends with the messages settled and no job left. *)
Lemma walk_trip msgs limit js0 fs x c :
  0 < incomplete msgs → Forall fate_ok fs →
  match trip 0 msgs false fs x with
  | Fault e => ∀ n, pvfs2_msgpairarray_walk (S n) "post" c
      (mk_array msgs (2 * incomplete msgs) limit js0 fs [] x) = Fault e
  | Done (msgs', fs', x') => Forall fate_ok fs' ∧ ∃ n j', (n ≤ 2 * length msgs)%nat ∧ ∀ k,
      pvfs2_msgpairarray_walk (S n + k) "post" c
        (mk_array msgs (2 * incomplete msgs) limit js0 fs [] x)
      = pvfs2_msgpairarray_walk k "completion_fn" MSGPAIRS_COMPLETE
          (mk_array msgs' 0 limit j' fs' [] x')
  end.
Proof.
  intros Hi Hfs. assert (incomplete msgs ≤ len msgs) as Hle.
  { unfold incomplete. pose proof (length_filter (λ m, mp_complete m = false) msgs). lia. }
  pose proof (post_loop_trip (len msgs) 0 msgs (mk_posting (2 * incomplete msgs) false fs [] x)
    ltac:(lia) ltac:(lia) Hfs) as Hp. cbn [po_local po_fates po_x po_comp_ct po_jobs] in Hp.
  assert (∀ n, pvfs2_msgpairarray_walk (S n) "post" c
      (mk_array msgs (2 * incomplete msgs) limit js0 fs [] x) =
      ('(stop, msgs, p) ← post_loop (len msgs) 0 msgs (mk_posting (2 * incomplete msgs) false fs [] x);
       '(c, a) ← (let a := mk_array msgs (po_comp_ct p) limit js0 (po_fates p) (po_jobs p) (po_x p) in
         match stop with
         | Some e => Done (e, a)
         | None => if po_comp_ct p =? 0 then Done (MSGPAIRS_COMPLETE, a) else deferred a
         end);
       pvfs2_msgpairarray_walk n (if c =? MSGPAIRS_COMPLETE then "completion_fn" else "complete") c a))
    as Hw.
  { intros n. rewrite walk_post. unfold msgpairarray_post.
    cbn [ma_js ma_msgs ma_comp_ct ma_retry_limit ma_fates ma_jobs ma_x].
    rewrite decide_True by lia. by destruct (post_loop _ _ _ _) as [[[stop msgs1] p]|]. }
  destruct (trip 0 msgs false fs x) as [[[msgs' fs'] x']|e].
  2: { intros n. by rewrite Hw, Hp. }
  destruct Hp as (msgs1 & js & l & Hp & Hfs' & Hjs & Hn & Hlen1 & Hfold). split; [done|].
  specialize (Hfold [] eq_refl). simpl in Hfold.
  replace (2 * incomplete msgs - 2 * incomplete msgs + len js) with (len js) in Hp by lia.
  rewrite app_nil_l in Hp. destruct js as [|j js].
  - exists 0%nat, js0. split; [lia|]. intros k. rewrite Hw, Hp. by rewrite <- Hfold.
  - rewrite <- Hlen1 in Hjs, Hfold. destruct (walk_jobs js msgs1 limit j fs' x' (jd_error j) Hjs) as [j' Hj'].
    exists (length (j :: js)), j'. split; [lia|]. intros k. rewrite Nat.add_succ_l, Hw, Hp.
    cbn [mbind exec_bind po_comp_ct po_fates po_jobs po_x].
    replace (len (j :: js) =? 0) with false by (simpl; lia). cbn [deferred ma_jobs mbind exec_bind].
    inversion Hjs as [|? ? [_ Herr] _]; subst.
    replace (jd_error j =? MSGPAIRS_COMPLETE) with false by (unfold MSGPAIRS_COMPLETE; lia).
    apply Hj'.
Qed.

(** * All messages are answered *)

Fixpoint serve_all (i : Z) (n : nat) (x : X) : exec (list (Z * R) * X) :=
  match n with
  | O => Done ([], x)
  | S n =>
      '(ret, r, x) ← serve i x;
      '(rs, x) ← serve_all (i + 1) n x;
      Done ((ret, r) :: rs, x)
  end.

Definition answered (msgs : list PINT_sm_msgpair_state) (rs : list (Z * R))
    : list PINT_sm_msgpair_state :=
  zip_with (λ m r, settle m true (Some r) 0) msgs rs.

Definition fresh (m : PINT_sm_msgpair_state) : PINT_sm_msgpair_state :=
  mk_msgpair (mp_retry_flag m) 0 (mp_comp_fn m) false (mp_resp m) (mp_op_status m) false.

Lemma trip_answered i msgs l x :
  trip i (fresh <$> msgs) l [] x
  = ('(rs, x) ← serve_all i (length msgs) x; Done (answered (fresh <$> msgs) rs, [], x)).
Proof.
  revert i l x. induction msgs as [|m msgs IH]; intros i l x; [done|]. simpl.
  destruct (serve i x) as [[[ret r] x']|]; [|done]. simpl. rewrite IH.
  by destruct (serve_all (i + 1) (length msgs) x') as [[rs x'']|].
Qed.

Lemma incomplete_fresh msgs : incomplete (fresh <$> msgs) = len msgs.
Proof.
  induction msgs as [|m msgs IH]; [done|]. rewrite fmap_cons, incomplete_cons, IH. simpl. lia.
Qed.

Definition flags_ok (msgs : list PINT_sm_msgpair_state) : bool :=
  forallb (λ m, (mp_retry_flag m =? PVFS_MSGPAIR_RETRY)
                || (mp_retry_flag m =? PVFS_MSGPAIR_NO_RETRY)) msgs.

Lemma walk_init_ok n c msgs ct limit js fs jobs x :
  msgs ≠ [] → flags_ok msgs = true →
  pvfs2_msgpairarray_walk (S n) "init" c (mk_array msgs ct limit js fs jobs x)
  = pvfs2_msgpairarray_walk n "post" 0
      (mk_array (fresh <$> msgs) (2 * incomplete (fresh <$> msgs)) limit js fs jobs x).
Proof.
  intros Hne Hf. rewrite walk_init. unfold msgpairarray_init.
  cbn [ma_js ma_msgs ma_comp_ct ma_retry_limit ma_fates ma_jobs ma_x].
  rewrite decide_True by (destruct msgs; [done|simpl; lia]). unfold flags_ok in Hf. rewrite Hf.
  by rewrite incomplete_fresh.
Qed.

(** When every message is answered the machine calls the completion functions
    in the order of the messages, once each, and gives back the last error. *)
Lemma array_answered msgs ct limit js x rs x1 msgs' c x' :
  msgs ≠ [] → flags_ok msgs = true → 0 ≤ limit →
  serve_all 0 (length msgs) x = Done (rs, x1) →
  completion_loop 0 (answered (fresh <$> msgs) rs) 0 0 x1 = Done (msgs', c, 0, x') → c ≤ 0 →
  ∃ js', pvfs2_msgpairarray_sm (mk_array msgs ct limit js [] [] x)
    = Done (c, mk_array msgs' 0 limit js' [] [] x').
Proof.
  intros Hne Hf Hlim Hs Hcomp Hc. unfold pvfs2_msgpairarray_sm. cbn [ma_msgs ma_retry_limit].
  assert (0 < len msgs) by (destruct msgs; [done|simpl; lia]).
  pose proof (walk_trip (fresh <$> msgs) limit js [] x 0) as Ht.
  rewrite incomplete_fresh, trip_answered, Hs in Ht. cbn [mbind exec_bind] in Ht.
  destruct Ht as (_ & n & j' & Hn & Hw); [lia|constructor|]. rewrite length_fmap in Hn.
  exists j'. remember (array_fuel (len msgs) limit) as fuel eqn:Hfuel.
  assert ((S n + 2 < fuel)%nat) as Hlt.
  { subst fuel. unfold array_fuel. nia. }
  replace fuel with (S (S n + S (S (fuel - n - 4)))) by lia.
  rewrite walk_init_ok by done. rewrite incomplete_fresh, Hw, walk_completion_fn.
  unfold msgpairarray_completion_fn. cbn [ma_js ma_msgs ma_comp_ct ma_retry_limit ma_fates ma_jobs ma_x].
  rewrite Hcomp. cbn [mbind exec_bind Z.eqb].
  replace (c =? MSGPAIRS_RETRY) with false by (unfold MSGPAIRS_RETRY; lia).
  replace (c =? MSGPAIRS_RETRY_NODELAY) with false by (unfold MSGPAIRS_RETRY_NODELAY; lia).
  apply walk_done.
Qed.

(** * Messages that are sent again *)

Definition bmi (e : Z) : Prop := PVFS_ERROR_CLASS (- e) = PVFS_ERROR_BMI.

Lemma bmi_nonzero e : bmi e → e ≠ 0.
Proof. by intros H ->. Qed.

Definition way_error (w : way) : option Z :=
  match w with
  | Answered _ => None
  | Unanswered _ e | Lost e _ | SendFailed e _ | RecvFailed _ e => Some e
  end.

(** All errors are those of the network. *)
Definition fate_bmi (f : fate) : Prop :=
  fate_ok f ∧ match way_error (f_way f) with Some e => bmi e | None => True end.

Definition msg_ok (m : PINT_sm_msgpair_state) : Prop :=
  mp_retry_flag m = PVFS_MSGPAIR_RETRY ∧
  ∀ f, mp_comp_fn m = Some f → ∀ x r i, ∃ st x', f x r i = Done (st, x') ∧ st ≤ 0.

Section returns.
(** Servers answer, and their errors are negative. *)
Hypothesis serve_ok : ∀ i x, ∃ ret r x',
  serve i x = Done (ret, r, x') ∧ ret ≤ 0 ∧ resp_status r ≤ 0.

(** A message before and after a trip. *)
Definition tripped (m m' : PINT_sm_msgpair_state) : Prop :=
  if mp_complete m then m' = m
  else mp_retry_flag m' = mp_retry_flag m ∧ mp_retry_count m' = mp_retry_count m ∧
       mp_comp_fn m' = mp_comp_fn m ∧ mp_complete m' = false ∧
       ((mp_op_status m' = 0 ∧ ∃ ret r, mp_resp m' = Some (ret, r) ∧ ret ≤ 0 ∧ resp_status r ≤ 0)
        ∨ (bmi (mp_op_status m') ∧ mp_op_status m' < 0)).

Lemma trip_total i msgs l fs x :
  Forall fate_bmi fs →
  ∃ msgs' fs' x', trip i msgs l fs x = Done (msgs', fs', x') ∧ Forall fate_bmi fs' ∧
    Forall2 tripped msgs msgs'.
Proof.
  revert i l fs x. induction msgs as [|m msgs IH]; intros i l fs x Hfs.
  { eexists _, _, _. split_and!; [done|done|constructor]. }
  cbn [trip]. destruct (mp_complete m) eqn:Hc.
  - destruct (IH (i + 1) l fs x Hfs) as (msgs' & fs' & x' & -> & Hfs' & Ht).
    eexists _, _, _. split_and!; [done|done|]. constructor; [|done]. unfold tripped. by rewrite Hc.
  - assert (fate_bmi (next_fate fs).1 ∧ Forall fate_bmi (next_fate fs).2) as [Hf Hfs1].
    { destruct Hfs; [|done]. done. }
    destruct (next_fate fs) as [f fs1]. cbn [fst snd] in *. destruct Hf as [(_ & _ & Hw) Hb].
    assert (∀ l, ∃ m' l' x', settle_way i m (f_way f) l x = Done (m', l', x') ∧ tripped m m') as Hs.
    { intros l'. unfold tripped. rewrite Hc. destruct (serve_ok i x) as (ret & r & x' & Hs & Hret & Hr).
      destruct (f_way f) as [now|now e|e r'|e r'|posted e]; cbn [settle_way way_ok way_error] in *;
        rewrite ?Hs; cbn [mbind exec_bind]; eexists _, _, _; split_and!; try done;
        first [left; split; [done|]; by exists ret, r | right; split; [exact Hb|simpl; lia]]. }
    destruct (Hs (negb (mp_encoded m) || l)) as (m' & l' & x1 & -> & Ht). cbn [mbind exec_bind].
    destruct (IH (i + 1) l' fs1 x1 Hfs1) as (msgs' & fs' & x' & -> & Hfs' & Ht').
    eexists _, _, _. split_and!; [done|done|]. by constructor.
Qed.
(** A message that is ready for [msgpairarray_completion_fn], and after it. *)
Definition ready (m : PINT_sm_msgpair_state) : Prop :=
  mp_complete m = true ∨ (msg_ok m ∧
    ((mp_op_status m = 0 ∧ ∃ ret r, mp_resp m = Some (ret, r) ∧ ret ≤ 0 ∧ resp_status r ≤ 0)
     ∨ (bmi (mp_op_status m) ∧ mp_op_status m < 0))).

Definition concluded (c : Z) (m m' : PINT_sm_msgpair_state) : Prop :=
  if mp_complete m then m' = m
  else (mp_complete m' = true ∧ (c = 0 → mp_op_status m' = 0))
       ∨ (m' = m ∧ bmi (mp_op_status m) ∧ mp_op_status m < 0).

Lemma completion_one i m c n x :
  ready m → c ≤ 0 → ∃ m' c' n' x',
    (∀ msgs, completion_loop i (m :: msgs) c n x
      = ('(msgs, c, n, x) ← completion_loop (i + 1) msgs c' n' x'; Done (m' :: msgs, c, n, x))) ∧
    c' ≤ 0 ∧ n' = n + (if mp_complete m' then 0 else 1) ∧ concluded c' m m' ∧
    (c' = c ∨ (c' ≠ 0 ∧ mp_op_status m' = c')).
Proof.
  intros Hr Hc. unfold concluded. cbn [completion_loop]. destruct (mp_complete m) eqn:Hm.
  { exists m, c, n, x. rewrite Hm. split_and!; [done|done|lia|done|by left]. }
  destruct Hr as [Hr|[[_ Hf] [(H0 & ret & r & Hresp & Hret & Hst)|[Hb Hneg]]]]; [congruence| |].
  2: { exists m, c, (n + 1), x. rewrite Hm. replace (mp_op_status m =? 0) with false by lia.
       split_and!; [done|done|done|by right|by left]. }
  rewrite H0, Hresp. cbn [Z.eqb negb]. destruct (Z.eqb_spec ret 0) as [->|Hne]; cbn [negb].
  2: { exists (completed m ret), ret, n, x. split_and!; [done|done|simpl; lia|left; done|by right]. }
  destruct (mp_comp_fn m) as [f|] eqn:Hcf.
  - destruct (Hf f eq_refl x r i) as (st & x1 & -> & Hst'). cbn [mbind exec_bind].
    exists (completed m st), (if st =? 0 then c else st), n, x1. split_and!; [done|case_match; lia|simpl; lia| |].
    + left. split; [done|]. simpl. destruct (Z.eqb_spec st 0); [done|lia].
    + destruct (Z.eqb_spec st 0); [by left|by right].
  - exists (completed m (resp_status r)), (if resp_status r =? 0 then c else resp_status r), n, x.
    split_and!; [done|case_match; lia|simpl; lia| |].
    + left. split; [done|]. simpl. destruct (Z.eqb_spec (resp_status r) 0); [done|lia].
    + destruct (Z.eqb_spec (resp_status r) 0); [by left|by right].
Qed.

Lemma completion_total i msgs c n x :
  Forall ready msgs → c ≤ 0 → ∃ msgs' c' x',
    completion_loop i msgs c n x = Done (msgs', c', n + incomplete msgs', x') ∧
    c' ≤ 0 ∧ Forall2 (concluded c') msgs msgs' ∧
    (c' = c ∨ (c' ≠ 0 ∧ ∃ m', m' ∈ msgs' ∧ mp_op_status m' = c')).
Proof.
  revert i c n x. induction msgs as [|m msgs IH]; intros i c n x Hr Hc.
  { exists [], c, x. unfold incomplete. simpl. rewrite Z.add_0_r. split_and!; [done|done|constructor|by left]. }
  inversion Hr as [|? ? Hm Hr' Heq]; subst.
  destruct (completion_one i m c n x Hm Hc) as (m' & c1 & n1 & x1 & -> & Hc1 & -> & Hcon & Hcase).
  destruct (IH (i + 1) c1 (n + (if mp_complete m' then 0 else 1)) x1 Hr' Hc1)
    as (msgs' & c' & x' & -> & Hc' & Hcon' & Hcase').
  exists (m' :: msgs'), c', x'. cbn [mbind exec_bind]. rewrite incomplete_cons. split_and!.
  - f_equal. f_equal. f_equal. lia.
  - done.
  - constructor; [|done]. unfold concluded in *. destruct (mp_complete m); [done|].
    destruct Hcon as [[Hcm Hst]|?]; [left|by right]. split; [done|]. intros Hc0. apply Hst.
    destruct Hcase' as [<-|[? _]]; [done|lia].
  - destruct Hcase' as [->|(Hne & m2 & Hin & Hst)].
    + destruct Hcase as [->|[Hne Hst]]; [by left|]. right. split; [done|]. exists m'. split; [left|done].
    + right. split; [done|]. exists m2. split; [by right|done].
Qed.

(** At the limit nothing is sent again: an error is left. *)
Lemma retry_limit_reached limit msgs c ct :
  Forall (λ m, mp_complete m = true ∨ (mp_retry_count m = limit ∧ mp_op_status m < 0)) msgs → c ≤ 0 →
  ∃ c', retry_loop limit msgs c ct = (msgs, c', ct) ∧ c' ≤ 0 ∧ (0 < incomplete msgs → c' ≠ 0) ∧
    (c' = c ∨ (c' ≠ 0 ∧ ∃ m', m' ∈ msgs ∧ mp_op_status m' = c')).
Proof.
  revert c. induction msgs as [|m msgs IH]; intros c Hm Hc.
  { exists c. unfold incomplete. simpl. split_and!; [done|done|lia|by left]. }
  inversion Hm as [|? ? Hm1 Hm' Heq]; subst. cbn [retry_loop]. rewrite incomplete_cons.
  destruct (mp_complete m) eqn:Hcm.
  - destruct (IH c Hm' Hc) as (c' & -> & Hc' & Hi & Hcase). exists c'. split_and!; [done|done|intros; apply Hi; lia|].
    destruct Hcase as [?|(? & m' & ? & ?)]; [by left|right]. split; [done|]. exists m'. split; [by right|done].
  - destruct Hm1 as [?|[Hl Hneg]]; [done|].
    unfold retryable. rewrite Hl, Z.ltb_irrefl, andb_false_r.
    destruct (IH (if c =? 0 then mp_op_status m else c) Hm' ltac:(case_match; lia)) as (c' & -> & Hc' & Hi & Hcase).
    exists c'. split_and!; [done|done| |].
    + intros _. destruct Hcase as [->|[? _]]; [|done]. destruct (Z.eqb_spec c 0); lia.
    + destruct Hcase as [->|(? & m' & ? & ?)].
      * destruct (Z.eqb_spec c 0); [|by left]. right. split; [lia|]. exists m. split; [left|done].
      * right. split; [done|]. exists m'. split; [by right|done].
Qed.

(** Before it everything that is not complete is sent again. *)
Lemma retry_all limit t msgs c ct :
  Forall (λ m, mp_complete m = true ∨ (mp_retry_flag m = PVFS_MSGPAIR_RETRY ∧
               mp_retry_count m = t ∧ bmi (mp_op_status m))) msgs → t < limit →
  ∃ msgs' c', retry_loop limit msgs c ct = (msgs', c', ct + 2 * incomplete msgs) ∧
    Forall2 (λ m m', if mp_complete m then m' = m
                     else m' = set_count m (t + 1)) msgs msgs' ∧
    incomplete msgs' = incomplete msgs ∧
    (0 < incomplete msgs → c' = MSGPAIRS_RETRY ∨ c' = MSGPAIRS_RETRY_NODELAY) ∧
    (c' = c ∨ c' = MSGPAIRS_RETRY ∨ c' = MSGPAIRS_RETRY_NODELAY).
Proof.
  intros Hm Hlt. revert c ct Hm. induction msgs as [|m msgs IH]; intros c ct Hm.
  { exists [], c. unfold incomplete. simpl. rewrite Z.add_0_r. split_and!; [done|constructor|done|lia|by left]. }
  inversion Hm as [|? ? Hm1 Hm' Heq]; subst. cbn [retry_loop]. rewrite incomplete_cons.
  destruct (mp_complete m) eqn:Hcm.
  - destruct (IH c ct Hm') as (msgs' & c' & -> & Hf & Hi & Hpos & Hcase). exists (m :: msgs'), c'.
    rewrite incomplete_cons, Hcm, Hi, Z.add_0_l. split_and!; [done| |done|done|done].
    constructor; [|done]. by rewrite Hcm.
  - destruct Hm1 as [?|(Hflag & Ht & Hb)]; [done|].
    unfold retryable. rewrite Hflag, Ht, Hb, !Z.eqb_refl. replace (t <? limit) with true by lia. cbn [andb].
    edestruct IH as (msgs' & c' & -> & Hf & Hi & Hpos & Hcase); [done|].
    exists (set_count m (t + 1) :: msgs'), c'. rewrite incomplete_cons. cbn [set_count mp_complete].
    rewrite Hcm, Hi. split_and!.
    + f_equal. lia.
    + constructor; [|done]. by rewrite Hcm.
    + done.
    + intros _. destruct Hcase as [->|?]; [|done]. case_match; auto.
    + right. destruct Hcase as [->|?]; [|done]. case_match; auto.
Qed.
Definition waiting (t : Z) (m : PINT_sm_msgpair_state) : Prop :=
  mp_complete m = true ∨ (msg_ok m ∧ mp_retry_count m = t).

Lemma trip_ready t msgs msgs' :
  Forall (waiting t) msgs → Forall2 tripped msgs msgs' →
  Forall ready msgs' ∧ Forall (waiting t) msgs'.
Proof.
  intros Hw Ht. revert Hw. induction Ht as [|m m' msgs msgs' Hm _ IH]; intros Hw; [done|].
  inversion Hw as [|? ? Hw1 Hw' Heq]; subst. destruct (IH Hw') as [Hr Hw2].
  unfold tripped in Hm. destruct (mp_complete m) eqn:Hc.
  - subst m'. split; constructor; try done; by left.
  - destruct Hm as (Hfl & Hn & Hf & Hc' & Hcase). destruct Hw1 as [?|[[Hfl1 Hf1] Hn1]]; [congruence|].
    assert (msg_ok m') by (unfold msg_ok; rewrite Hfl, Hf; done).
    split; constructor; try done; right; split; [done|done|done|congruence].
Qed.

Lemma concluded_waiting t c msgs msgs' :
  Forall (waiting t) msgs → Forall2 (concluded c) msgs msgs' →
  Forall (λ m, mp_complete m = true
               ∨ (msg_ok m ∧ mp_retry_count m = t ∧ bmi (mp_op_status m) ∧ mp_op_status m < 0)) msgs'.
Proof.
  intros Hw Hc. revert Hw. induction Hc as [|m m' msgs msgs' Hm _ IH]; intros Hw; [done|].
  inversion Hw as [|? ? Hw1 Hw' Heq]; subst. constructor; [|auto]. unfold concluded in Hm.
  destruct (mp_complete m) eqn:Hcm; [subst m'; by left|].
  destruct Hm as [[? _]|(-> & Hb & Hneg)]; [by left|right].
  destruct Hw1 as [?|[? ?]]; [congruence|done].
Qed.

Lemma incomplete_0 msgs : incomplete msgs = 0 → Forall (λ m, mp_complete m = true) msgs.
Proof.
  induction msgs as [|m msgs IH]; [done|]. rewrite incomplete_cons. intros Hi.
  assert (0 ≤ incomplete msgs) by (unfold incomplete; lia).
  destruct (mp_complete m) eqn:Hc; [|lia]. constructor; [done|]. apply IH. lia.
Qed.

(** What the result says of the messages. *)
Record concludes (c : Z) (a : msgarray) (n : nat) : Prop := mk_concludes {
  concludes_jobs : ma_jobs a = [];
  concludes_count : length (ma_msgs a) = n;
  concludes_neg : c ≤ 0;
  concludes_complete : c = 0 → Forall (λ m, mp_complete m = true) (ma_msgs a);
  concludes_error : c ≠ 0 → ∃ m, m ∈ ma_msgs a ∧ mp_op_status m = c;
  concludes_single : n = 1%nat → c = 0 → Forall (λ m, mp_op_status m = 0) (ma_msgs a);
}.

(** Trip [t] was not the last: the next one starts. *)
Definition sent_again (t limit : Z) (fs : list fate) (n : nat) (c : Z) (a : msgarray) : Prop :=
  t < limit ∧ (c = MSGPAIRS_RETRY ∨ c = MSGPAIRS_RETRY_NODELAY) ∧ ∃ msgs js x,
    a = mk_array msgs (2 * incomplete msgs) limit js fs [] x ∧ 0 < incomplete msgs ∧
    Forall (waiting (t + 1)) msgs ∧ length msgs = n ∧
    (n = 1%nat → Forall (λ m, mp_complete m = false) msgs).

Lemma completion_step msgs limit js fs x t :
  Forall ready msgs → Forall (waiting t) msgs → 0 ≤ t ≤ limit →
  (length msgs = 1%nat → Forall (λ m, mp_complete m = false) msgs) →
  ∃ c a, (∀ k c0, pvfs2_msgpairarray_walk (S k) "completion_fn" c0
            (mk_array msgs 0 limit js fs [] x)
          = pvfs2_msgpairarray_walk k
              (if c =? MSGPAIRS_RETRY then "post_retry"
               else if c =? MSGPAIRS_RETRY_NODELAY then "post" else "done") c a) ∧
    (concludes c a (length msgs) ∨ sent_again t limit fs (length msgs) c a).
Proof.
  intros Hr Hw Ht H1. destruct (completion_total 0 msgs 0 0 x Hr ltac:(lia))
    as (msgs' & c & x' & Hc & Hneg & Hcon & Hcase).
  pose proof (concluded_waiting t c msgs msgs' Hw Hcon) as Hw'.
  pose proof (Forall2_length _ _ _ Hcon) as Hlen.
  assert (0 ≤ incomplete msgs') by (unfold incomplete; lia).
  assert (∀ c1, length msgs = 1%nat → c1 = 0 → c = 0 → incomplete msgs' = 0 →
          Forall (λ m, mp_op_status m = 0) msgs') as Hone.
  { intros c1 Hl _ Hc0 Hi. specialize (H1 Hl). pose proof (incomplete_0 _ Hi) as Hall. clear -Hcon Hc0 H1 Hall.
    induction Hcon as [|m m' ms ms' Hm _ IH]; [done|].
    inversion H1 as [|? ? Hm1 H1' Heq]; subst. inversion Hall as [|? ? Ha1 Ha' Heq]; subst.
    constructor; [|auto]. unfold concluded in Hm. rewrite Hm1 in Hm.
    destruct Hm as [[_ ?]|[-> _]]; [auto|congruence]. }
  destruct (decide (incomplete msgs' = 0)) as [H0|Hne].
  { eexists c, _. split.
    - intros k c0. rewrite walk_completion_fn. unfold msgpairarray_completion_fn.
      cbn [ma_js ma_msgs ma_comp_ct ma_retry_limit ma_fates ma_jobs ma_x]. rewrite Hc, H0.
      cbn [mbind exec_bind Z.eqb Z.add]. reflexivity.
    - left. split; cbn [ma_jobs ma_msgs]; [done|done|done|by intros; apply incomplete_0| |eauto].
      intros Hnz. destruct Hcase as [?|(_ & m & ? & ?)]; [congruence|by exists m]. }
  assert (∀ k c0, pvfs2_msgpairarray_walk (S k) "completion_fn" c0 (mk_array msgs 0 limit js fs [] x)
    = let '(msgs, c, ct) := retry_loop limit msgs' c 0 in
      pvfs2_msgpairarray_walk k
        (if c =? MSGPAIRS_RETRY then "post_retry"
         else if c =? MSGPAIRS_RETRY_NODELAY then "post" else "done") c
        (mk_array msgs ct limit js fs [] x')) as Hstep.
  { intros k c0. rewrite walk_completion_fn. unfold msgpairarray_completion_fn.
    cbn [ma_js ma_msgs ma_comp_ct ma_retry_limit ma_fates ma_jobs ma_x]. rewrite Hc.
    cbn [mbind exec_bind]. replace (0 + incomplete msgs' =? 0) with false by lia.
    by destruct (retry_loop limit msgs' c 0) as [[msgs2 c2] ct2]. }
  destruct (decide (t = limit)) as [->|Htl].
  - destruct (retry_limit_reached limit msgs' c 0) as (c' & Hrl & Hc' & Hnz & Hcase'); [|done|].
    { eapply Forall_impl; [exact Hw'|]. intros m [?|(? & ? & ? & ?)]; [by left|by right]. }
    rewrite Hrl in Hstep. eexists c', _. split; [exact Hstep|]. left.
    split; cbn [ma_jobs ma_msgs]; [done|done|done|intros ->; by destruct Hnz; [lia|]| |].
    + intros Hnz'. destruct Hcase' as [->|(_ & m & ? & ?)]; [|by exists m].
      destruct Hcase as [?|(_ & m & ? & ?)]; [congruence|by exists m].
    + intros _ ->. by destruct Hnz; [lia|].
  - destruct (retry_all limit t msgs' c 0) as (msgs2 & c' & Hra & Hf2 & Hi & Hpos & _); [|lia|].
    { eapply Forall_impl; [exact Hw'|]. intros m [?|([? _] & ? & ? & ?)]; [by left|by right]. }
    rewrite Hra in Hstep. eexists c', _. split; [exact Hstep|]. right. split; [lia|].
    split; [apply Hpos; lia|]. exists msgs2, js, x'. rewrite Hi. split_and!; [done|lia| | |].
    + clear -Hf2 Hw'. induction Hf2 as [|m m' ms ms' Hm _ IH]; [done|].
      inversion Hw' as [|? ? Hw1 Hw2 Heq]; subst. constructor; [|auto].
      destruct (mp_complete m) eqn:Hcm; [subst m'; by left|]. subst m'. right.
      destruct Hw1 as [?|(Hok & _)]; [congruence|]. done.
    + rewrite Hlen. symmetry. by eapply Forall2_length.
    + intros Hl. rewrite Hl in Hlen. destruct msgs' as [|m1 [|??]]; [done| |done].
      inversion Hf2 as [|? m2 ? ? Hm Hnil Heq]; subst. inversion Hnil; subst. constructor; [|done].
      rewrite incomplete_cons in Hne. unfold incomplete in Hne. simpl in Hne.
      destruct (mp_complete m1) eqn:Hcm; [simpl in Hne; lia|]. by subst m2.
Qed.

Lemma array_round t msgs limit js fs x c0 :
  0 ≤ t ≤ limit → Forall (waiting t) msgs → 0 < incomplete msgs → Forall fate_bmi fs →
  (length msgs = 1%nat → Forall (λ m, mp_complete m = false) msgs) →
  ∃ (n : nat) c a fs', (n ≤ 2 * length msgs + 2)%nat ∧ Forall fate_bmi fs' ∧
    (∀ k, pvfs2_msgpairarray_walk (n + k) "post" c0
            (mk_array msgs (2 * incomplete msgs) limit js fs [] x)
          = pvfs2_msgpairarray_walk k
              (if c =? MSGPAIRS_RETRY then "post_retry"
               else if c =? MSGPAIRS_RETRY_NODELAY then "post" else "done") c a) ∧
    (concludes c a (length msgs) ∨ sent_again t limit fs' (length msgs) c a).
Proof.
  intros Ht Hw Hi Hfs H1.
  destruct (trip_total 0 msgs false fs x Hfs) as (msgs1 & fs1 & x1 & Htrip & Hfs1 & Htr).
  destruct (trip_ready t msgs msgs1 Hw Htr) as [Hr1 Hw1].
  pose proof (Forall2_length _ _ _ Htr) as Hlen.
  assert (length msgs1 = 1%nat → Forall (λ m, mp_complete m = false) msgs1) as H11.
  { intros Hl. rewrite Hl in Hlen. specialize (H1 Hlen). clear -Htr H1.
    induction Htr as [|m m' ms ms' Hm _ IHt]; [done|].
    inversion H1 as [|? ? Hc1 H1' Heq]; subst. constructor; [|auto].
    unfold tripped in Hm. rewrite Hc1 in Hm. tauto. }
  pose proof (walk_trip msgs limit js fs x c0 Hi) as Hwt. rewrite Htrip in Hwt.
  destruct Hwt as (_ & n & j' & Hn & Hwalk).
  { eapply Forall_impl; [exact Hfs|]. by intros f [? _]. }
  destruct (completion_step msgs1 limit j' fs1 x1 t Hr1 Hw1 Ht H11) as (c & a & Hstep & Hres).
  exists (S n + 1)%nat, c, a, fs1. rewrite Hlen. split_and!; [lia|done| |done].
  intros k. replace (S n + 1 + k)%nat with (S n + S k)%nat by lia. rewrite Hwalk. apply Hstep.
Qed.

Lemma array_rounds (d : nat) t msgs limit js fs x c0 :
  Z.of_nat d = limit - t → 0 ≤ t → Forall (waiting t) msgs → 0 < incomplete msgs →
  Forall fate_bmi fs → (length msgs = 1%nat → Forall (λ m, mp_complete m = false) msgs) →
  ∃ (n : nat) c a, (n ≤ (d + 1) * (2 * length msgs + 4))%nat ∧
    pvfs2_msgpairarray_walk n "post" c0
      (mk_array msgs (2 * incomplete msgs) limit js fs [] x) = Done (c, a) ∧
    concludes c a (length msgs).
Proof.
  revert t msgs js fs x c0. induction d as [|d IH]; intros t msgs js fs x c0 Hd Ht Hw Hi Hfs H1.
  all: destruct (array_round t msgs limit js fs x c0 ltac:(lia) Hw Hi Hfs H1)
    as (n & c & a & fs' & Hn & Hfs' & Hwalk & [Hres|Hres]).
  1, 3: exists (n + 1)%nat, c, a; split_and!; [lia| |done]; rewrite Hwalk;
    pose proof (concludes_neg _ _ _ Hres) as Hneg;
    replace (c =? MSGPAIRS_RETRY) with false by (unfold MSGPAIRS_RETRY; lia);
    replace (c =? MSGPAIRS_RETRY_NODELAY) with false by (unfold MSGPAIRS_RETRY_NODELAY; lia);
    apply walk_done.
  { destruct Hres as [? _]. lia. }
  destruct Hres as (Hlt & Hc & msgs' & js' & x' & -> & Hi' & Hw' & Hlen & H1').
  destruct (IH (t + 1) msgs' js' fs' x' (if c =? MSGPAIRS_RETRY then 0 else c) ltac:(lia) ltac:(lia) Hw' Hi' Hfs')
    as (n' & c' & a & Hn' & Hwalk' & Hres); [by rewrite Hlen|].
  rewrite Hlen in Hn', Hres. destruct Hc as [->| ->].
  - exists (n + S n')%nat, c', a. split_and!; [nia| |done]. rewrite Hwalk. cbn [Z.eqb Pos.eqb MSGPAIRS_RETRY].
    rewrite walk_post_retry. exact Hwalk'.
  - exists (n + n')%nat, c', a. split_and!; [nia| |done]. rewrite Hwalk. exact Hwalk'.
Qed.

(** C26. Whatever the network does, if its errors are errors of the network, the
    machine returns: no job is left, a nonzero result is the status of a
    message, and 0 says that every message was answered in the end.  The
    status of a single message is the result. *)
Theorem array_returns msgs ct limit js fs x :
  msgs ≠ [] → Forall msg_ok msgs → 0 ≤ limit → Forall fate_bmi fs →
  ∃ c a, pvfs2_msgpairarray_sm (mk_array msgs ct limit js fs [] x) = Done (c, a) ∧
    ma_jobs a = [] ∧ c ≤ 0 ∧
    (c = 0 → Forall (λ m, mp_complete m = true) (ma_msgs a)) ∧
    (c ≠ 0 → ∃ m, m ∈ ma_msgs a ∧ mp_op_status m = c) ∧
    (length msgs = 1%nat → PINT_msgarray_status (ma_msgs a) = c).
Proof.
  intros Hne Hok Hlim Hfs. assert (0 < len msgs) by (destruct msgs; [done|simpl; lia]).
  destruct (array_rounds (Z.to_nat limit) 0 (fresh <$> msgs) limit js fs x 0)
    as (n & c & a & Hn & Hw & [Hj Hl Hneg Hc Hnz H1]); [lia|done| |by rewrite incomplete_fresh|done| |].
  { apply Forall_fmap. eapply Forall_impl; [exact Hok|]. intros m [? ?]. right. done. }
  { intros _. apply Forall_fmap. by apply Forall_true. }
  rewrite length_fmap in Hn, Hl, H1. exists c, a. split_and!; [|done..|].
  - unfold pvfs2_msgpairarray_sm, pvfs2_msgpairarray_walk in *.
    cbn [ma_msgs ma_retry_limit]. apply (walk_fuel _ _ _ _ (S n)).
    + fold (pvfs2_msgpairarray_walk (S n) "init" 0 (mk_array msgs ct limit js fs [] x)).
      rewrite walk_init_ok; [exact Hw|done|]. unfold flags_ok. apply forallb_forall. intros m Hm%list_elem_of_In.
      rewrite Forall_forall in Hok. destruct (Hok m Hm) as [-> _]. done.
    + unfold array_fuel. nia.
  - intros Hone. destruct (ma_msgs a) as [|m [|??]]; cbn [length] in Hl; [congruence| |congruence].
    unfold PINT_msgarray_status. simpl. destruct (decide (c = 0)) as [->|Hnz'].
    + specialize (H1 Hone eq_refl). inversion H1 as [|? ? Hm _]; subst. by rewrite Hm.
    + destruct (Hnz Hnz') as (m' & ->%list_elem_of_singleton & Hst). rewrite Hst.
      by replace (c =? 0) with false by lia.
Qed.
End returns.

(** * Messages that are lost *)

(** The message does not get to its server, because of an error of the
    network. *)
Definition fate_lost (f : fate) : Prop :=
  fate_bmi f ∧ match f_way f with Answered _ | Unanswered _ _ => False | _ => True end.

Definition unsent (t : Z) (m : PINT_sm_msgpair_state) : Prop :=
  mp_complete m = false ∧ mp_retry_flag m = PVFS_MSGPAIR_RETRY ∧ mp_retry_count m = t.

Definition failed (m : PINT_sm_msgpair_state) : Prop := bmi (mp_op_status m) ∧ mp_op_status m < 0.

Lemma unsent_incomplete t msgs : Forall (unsent t) msgs → incomplete msgs = len msgs.
Proof.
  induction 1 as [|m msgs [Hc _] _ IH]; [done|]. rewrite incomplete_cons, IH, Hc. simpl. lia.
Qed.

Lemma trip_lost t i msgs l fs x :
  Forall (unsent t) msgs → Forall fate_lost fs → (length msgs ≤ length fs)%nat →
  ∃ msgs', trip i msgs l fs x = Done (msgs', drop (length msgs) fs, x) ∧
    length msgs' = length msgs ∧ Forall (unsent t) msgs' ∧ Forall failed msgs'.
Proof.
  intros Hm. revert i l fs. induction Hm as [|m msgs (Hc & Hfl & Ht) _ IH]; intros i l fs Hfs Hlen.
  { exists []. by rewrite drop_0. }
  destruct Hfs as [|f fs Hf Hfs]; simpl in Hlen; [lia|]. cbn [trip next_fate]. rewrite Hc.
  destruct Hf as [[(_ & _ & Hw) Hb] Hl].
  assert (∀ l, ∃ m' l', settle_way i m (f_way f) l x = Done (m', l', x) ∧ unsent t m' ∧ failed m') as Hs.
  { intros l'. destruct (f_way f); cbn [settle_way way_ok way_error] in *; try done;
      eexists _, _; (split; [done|split; [done|split; [exact Hb|simpl; lia]]]). }
  destruct (Hs (negb (mp_encoded m) || l)) as (m' & l' & -> & Hm' & Hfm). cbn [mbind exec_bind].
  destruct (IH (i + 1) l' fs Hfs ltac:(lia)) as (msgs' & -> & Hlen' & Hun & Hfa).
  exists (m' :: msgs'). cbn [mbind exec_bind]. split_and!; [done|simpl; lia|by constructor|by constructor].
Qed.

Lemma completion_lost t i msgs c n x :
  Forall (unsent t) msgs → Forall failed msgs →
  completion_loop i msgs c n x = Done (msgs, c, n + len msgs, x).
Proof.
  intros Hm. revert i n. induction Hm as [|m msgs (Hc & _) _ IH]; intros i n Hf.
  { simpl. by rewrite Z.add_0_r. }
  inversion Hf as [|? ? [_ Hneg] Hf']; subst. cbn [completion_loop]. rewrite Hc.
  replace (mp_op_status m =? 0) with false by lia. cbn [negb mbind exec_bind].
  rewrite (IH _ _ Hf'). cbn [mbind exec_bind]. do 3 f_equal. simpl. lia.
Qed.

Lemma lost_rounds (d : nat) t msgs limit js fs x c0 :
  Z.of_nat d = limit - t → 0 ≤ t → msgs ≠ [] → Forall (unsent t) msgs → Forall fate_lost fs →
  ((d + 1) * length msgs ≤ length fs)%nat →
  ∃ (n : nat) c a, (n ≤ (d + 1) * (2 * length msgs + 4))%nat ∧
    pvfs2_msgpairarray_walk n "post" c0
      (mk_array msgs (2 * incomplete msgs) limit js fs [] x) = Done (c, a) ∧ c < 0 ∧ ma_x a = x.
Proof.
  revert t msgs js fs c0. induction d as [|d IH]; intros t msgs js fs c0 Hd Ht Hne Hun Hfs Hlen.
  all: assert (0 < len msgs) as Hpos by (destruct msgs; [done|simpl; lia]).
  all: destruct (trip_lost t 0 msgs false fs x Hun Hfs ltac:(lia)) as (msgs' & Htrip & Hl & Hun' & Hfa).
  all: pose proof (walk_trip msgs limit js fs x c0) as Hw; rewrite Htrip in Hw;
    destruct Hw as (_ & n & j' & Hn & Hw);
    [by rewrite (unsent_incomplete t)|eapply Forall_impl; [exact Hfs|]; by intros f [[? _] _]|].
  all: assert (∀ k, pvfs2_msgpairarray_walk (S n + S k) "post" c0
      (mk_array msgs (2 * incomplete msgs) limit js fs [] x)
    = let '(msgs, c, ct) := retry_loop limit msgs' 0 0 in
      pvfs2_msgpairarray_walk k
        (if c =? MSGPAIRS_RETRY then "post_retry"
         else if c =? MSGPAIRS_RETRY_NODELAY then "post" else "done") c
        (mk_array msgs ct limit j' (drop (length msgs') fs) [] x)) as Hstep
    by (intros k; rewrite Hw, walk_completion_fn; unfold msgpairarray_completion_fn;
        cbn [ma_js ma_msgs ma_comp_ct ma_retry_limit ma_fates ma_jobs ma_x];
        rewrite (completion_lost t) by done; cbn [mbind exec_bind];
        replace (0 + len msgs' =? 0) with false by lia; rewrite <- Hl;
        by destruct (retry_loop limit msgs' 0 0) as [[? ?] ?]).
  - destruct (retry_limit_reached limit msgs' 0 0) as (c' & Hrl & Hc' & Hnz & _); [|lia|].
    { apply Forall_forall. intros m Hm. right. rewrite Forall_forall in Hun', Hfa.
      destruct (Hun' m Hm) as (_ & _ & ?), (Hfa m Hm). split; [lia|done]. }
    rewrite (unsent_incomplete t) in Hnz by done. rewrite Hrl in Hstep.
    eexists (S n + 2)%nat, c', _. rewrite Hstep.
    replace (c' =? MSGPAIRS_RETRY) with false by (unfold MSGPAIRS_RETRY; lia).
    replace (c' =? MSGPAIRS_RETRY_NODELAY) with false by (unfold MSGPAIRS_RETRY_NODELAY; lia).
    rewrite walk_done. split_and!; [lia|done|lia|done].
  - destruct (retry_all limit t msgs' 0 0) as (msgs2 & c' & Hra & Hf2 & Hi & Hcase & _); [|lia|].
    { apply Forall_forall. intros m Hm. right. rewrite Forall_forall in Hun', Hfa.
      destruct (Hun' m Hm) as (_ & ? & ?), (Hfa m Hm). done. }
    rewrite Hra, (unsent_incomplete t msgs' Hun') in Hstep.
    rewrite (unsent_incomplete t msgs' Hun') in Hi, Hcase.
    assert (Forall (unsent (t + 1)) msgs2) as Hun2.
    { clear -Hf2 Hun'. induction Hf2 as [|m m' ms ms' Hm _ IH]; [done|].
      inversion Hun' as [|? ? (Hc & Hfl & _) Hun2]; subst. rewrite Hc in Hm. subst m'.
      constructor; [done|auto]. }
    pose proof (Forall2_length _ _ _ Hf2) as Hl2.
    destruct (IH (t + 1) msgs2 j' (drop (length msgs') fs)
                (if c' =? MSGPAIRS_RETRY then 0 else c') ltac:(lia) ltac:(lia))
      as (n' & c & a & Hn' & Hwalk & Hres); [by destruct msgs2; simpl in *; [lia|]|done|
        by apply Forall_drop|rewrite length_drop; nia|].
    rewrite Z.add_0_l, <- Hi in Hstep. specialize (Hcase ltac:(lia)). destruct Hcase as [->| ->].
    + exists (S n + S (S n'))%nat, c, a. rewrite Hstep. cbn [Z.eqb Pos.eqb MSGPAIRS_RETRY].
      rewrite walk_post_retry. split_and!; [nia|exact Hwalk|apply Hres..].
    + exists (S n + S n')%nat, c, a. rewrite Hstep. split_and!; [nia|exact Hwalk|apply Hres..].
Qed.

(** If no message gets through, however often it is sent again, the machine
    returns an error, and no server and no completion function has run. *)
Lemma array_lost msgs ct limit js fs x :
  msgs ≠ [] → Forall (λ m, mp_retry_flag m = PVFS_MSGPAIR_RETRY) msgs → 0 ≤ limit →
  Forall fate_lost fs → (limit + 1) * len msgs ≤ len fs →
  ∃ c a, pvfs2_msgpairarray_sm (mk_array msgs ct limit js fs [] x) = Done (c, a) ∧ c < 0 ∧ ma_x a = x.
Proof.
  intros Hne Hfl Hlim Hfs Hlen.
  destruct (lost_rounds (Z.to_nat limit) 0 (fresh <$> msgs) limit js fs x 0)
    as (n & c & a & Hn & Hw & Hres); [lia|done|by destruct msgs| |done|rewrite length_fmap; nia|].
  { apply Forall_fmap. eapply Forall_impl; [exact Hfl|]. by intros m ?. }
  rewrite length_fmap in Hn. exists c, a. split; [|done].
  unfold pvfs2_msgpairarray_sm, pvfs2_msgpairarray_walk in *.
  cbn [ma_msgs ma_retry_limit]. apply (walk_fuel _ _ _ _ (S n)).
  - fold (pvfs2_msgpairarray_walk (S n) "init" 0 (mk_array msgs ct limit js fs [] x)).
    rewrite walk_init_ok; [exact Hw|done|]. unfold flags_ok. apply forallb_forall.
    intros m Hm%list_elem_of_In. rewrite Forall_forall in Hfl. by rewrite (Hfl m Hm).
  - unfold array_fuel. nia.
Qed.
End msgpair.

(** * Errors that get lost *)

(** Two requests to servers, the first of which is refused with [st]. *)
Definition refusing (st : Z) (i : Z) (x : unit) : exec (Z * Z * unit) :=
  Done (0, if decide (i = 0) then st else 0, x).

Definition plain : PINT_sm_msgpair_state (X := unit) (R := Z) :=
  mk_msgpair PVFS_MSGPAIR_RETRY 0 None false None 0 false.

Definition two_messages (fs : list fate) : msgarray (X := unit) (R := Z) :=
  mk_array [plain; plain] 0 5 (mk_done 0 0 None) fs [] tt.

(** C35. The first request is refused; the second is lost, and sent again with
    success.  The machine gives back 0: the trip that sent the second again
    has forgotten the error of the first. *)
Theorem retry_forgets_error st e r :
  st < 0 → e < 0 → bmi e → r ≤ 0 →
  ∃ a, pvfs2_msgpairarray_sm id (refusing st) (two_messages [delivered; mk_fate 0 true (Lost e r)])
    = Done (0, a) ∧ PINT_msgarray_status (ma_msgs a) = st.
Proof.
  intros Hst He Hb Hr. set (a0 := two_messages _).
  assert (∃ (n : nat) a, pvfs2_msgpairarray_walk id (refusing st) n "init" 0 a0 = Done (0, a) ∧
    (n ≤ array_fuel 2 5)%nat ∧ PINT_msgarray_status (ma_msgs a) = st) as (n & a & Hw & Hn & Hs).
  2: { exists a. split; [|done]. eapply walk_fuel; [exact Hw|exact Hn]. }
  set (c1 := if e =? - BMI_ECANCEL then MSGPAIRS_RETRY_NODELAY else MSGPAIRS_RETRY).
  set (m0 := mk_msgpair (X := unit) PVFS_MSGPAIR_RETRY 0 None true (Some (0, st)) 0 false).
  set (m1 := completed m0 st).
  set (m2 := mk_msgpair (X := unit) (R := Z) PVFS_MSGPAIR_RETRY 0 None true None e false).
  set (m3 := mk_msgpair (X := unit) PVFS_MSGPAIR_RETRY 1 None true (Some (0, 0)) 0 false).
  destruct (walk_trip id (refusing st) [fresh plain; fresh plain] 5 (mk_done 0 0 None)
    [delivered; mk_fate 0 true (Lost e r)] tt 0) as (_ & n1 & j1 & Hn1 & Hw1); [done| |].
  { repeat constructor; simpl; lia. }
  destruct (walk_trip id (refusing st) [m1; set_count m2 1] 5 j1 [] tt (if c1 =? MSGPAIRS_RETRY then 0 else c1))
    as (_ & n2 & j2 & Hn2 & Hw2); [done|constructor|]. simpl in Hn1, Hn2.
  assert (msgpairarray_completion_fn id (mk_array [m0; m2] 0 5 j1 [] [] tt)
    = Done (c1, mk_array [m1; set_count m2 1] 2 5 j1 [] [] tt)) as Hc1.
  { unfold msgpairarray_completion_fn. cbn -[retryable Z.eqb MSGPAIRS_RETRY MSGPAIRS_RETRY_NODELAY BMI_ECANCEL].
    replace (e =? 0) with false by lia. cbn -[retryable MSGPAIRS_RETRY MSGPAIRS_RETRY_NODELAY BMI_ECANCEL].
    assert (retryable 5 m2 = true) as Hre.
    { unfold retryable. cbn [m2 mp_retry_flag mp_op_status mp_retry_count]. rewrite Hb. done. }
    rewrite Hre. done. }
  assert (∀ k, pvfs2_msgpairarray_walk id (refusing st) (S (S n1 + S k)) "init" 0 a0
    = pvfs2_msgpairarray_walk id (refusing st) k (if c1 =? MSGPAIRS_RETRY then "post_retry" else "post") c1
        (mk_array [m1; set_count m2 1] 2 5 j1 [] [] tt)) as Hfirst.
  { intros k. unfold a0, two_messages. rewrite walk_init_ok by done.
    cbn [fmap list_fmap]. rewrite Hw1, walk_completion_fn. change (settle _ true (Some _) 0) with m0.
    change (settle _ true None e) with m2. rewrite Hc1. cbn [mbind exec_bind].
    unfold c1. by destruct (e =? - BMI_ECANCEL). }
  assert (∀ k, pvfs2_msgpairarray_walk id (refusing st) (S n2 + S (S k)) "post"
      (if c1 =? MSGPAIRS_RETRY then 0 else c1) (mk_array [m1; set_count m2 1] 2 5 j1 [] [] tt)
    = Done (0, mk_array [m1; completed m3 0] 0 5 j2 [] [] tt)) as Hsecond.
  { intros k. change 2 with (2 * incomplete [m1; set_count m2 1]) at 1. rewrite Hw2, walk_completion_fn. done. }
  exists (S (S n1 + S (S (S n2 + 2)))), (mk_array [m1; completed m3 0] 0 5 j2 [] [] tt).
  split_and!; [|unfold array_fuel; simpl; lia|].
  - rewrite Hfirst. unfold c1 in *. destruct (e =? - BMI_ECANCEL).
    + cbn [Z.eqb Pos.eqb MSGPAIRS_RETRY MSGPAIRS_RETRY_NODELAY].
      replace (S (S n2 + 2)) with (S n2 + S (S 1))%nat by lia. apply Hsecond.
    + cbn [Z.eqb Pos.eqb MSGPAIRS_RETRY]. rewrite walk_post_retry. apply (Hsecond 0%nat).
  - unfold PINT_msgarray_status. simpl. by replace (st =? 0) with false by lia.
Qed.

Lemma retry_forgets_error_witness :
  ∃ a, pvfs2_msgpairarray_sm id (refusing (- PVFS_EACCES))
    (two_messages [delivered; mk_fate 0 true (Lost (- BMI_ECANCEL) (- BMI_ECANCEL))]) = Done (0, a) ∧
    PINT_msgarray_status (ma_msgs a) = - PVFS_EACCES.
Proof. by apply retry_forgets_error. Defined.

(** Two errors of different kinds: the machine counts the jobs of the message
    that it sends again, but posts those of both, so that it goes on when the
    first two have ended and decodes a response that has not come. *)
Theorem mixed_errors_decode_early :
  pvfs2_msgpairarray_sm id (refusing 0)
    (two_messages [mk_fate 0 true (Lost (- PVFS_EIO) (- PVFS_EIO));
                   mk_fate 0 true (Lost (- BMI_ECANCEL) (- BMI_ECANCEL))]) = Fault BadAccess.
Proof. vm_compute. reflexivity. Qed.

(** A message that cannot be encoded: the machine takes the error for the end
    of a job of the first message and waits for jobs that were never posted. *)
Theorem encode_failure_hangs (fuel : nat) :
  pvfs2_msgpairarray_walk id (refusing 0) fuel "init" 0
    (two_messages [mk_fate (- PVFS_EINVAL) true (Answered false)]) = Fault OutOfFuel.
Proof. do 3 (destruct fuel as [|fuel]; [done|]). vm_compute. reflexivity. Qed.

Lemma array_returns_witness :
  ∃ c a, pvfs2_msgpairarray_sm id (refusing (- PVFS_EACCES))
    (mk_array [plain] 0 1 (mk_done 0 0 None) [mk_fate 0 true (Lost (- BMI_ECANCEL) 0)] [] tt)
    = Done (c, a) ∧ PINT_msgarray_status (ma_msgs a) = c.
Proof.
  destruct (array_returns id (refusing (- PVFS_EACCES))
    ltac:(intros i []; eexists _, _, _; split_and!; [done|done|]; unfold id; case_decide; done)
    [plain] 0 1 (mk_done 0 0 None) [mk_fate 0 true (Lost (- BMI_ECANCEL) 0)] tt)
    as (c & a & Ha & _ & _ & _ & _ & H1); [done|repeat constructor; done|done|repeat constructor; done|].
  exists c, a. split; [exact Ha|by apply H1].
Defined.
