(* ===== verification/Tree.v ===== *)
(** Messages to many servers (src/src/server/tree-communicate.sm): the server
    that gets a list of handles does what is asked for its own handles,
    divides the others among servers that do the same, and joins the results.
    The model is that of TREE_SETATTR and TREE_REMOVE, whose results are a
    status for every handle. *)

From Stdlib Require Import ZifyBool.
From stdpp Require Import base numbers strings sets list.
From S2P Require Import Prelude Errors.
From S2P Require Import SmWalk Msgpair.
From S2P Require Import Wire.

#[local] Open Scope Z_scope.

(** The response: [status], [caller_handle_index] and the array of states. *)
Record PVFS_servresp_tree := mk_tree_resp {
  tr_status : Z; tr_caller_handle_index : Z; tr_statuses : list Z }.

(** A message of the array: [caller_handle_index], the handle whose server it
    goes to, and its handles. *)
Record tree_message := mk_tree_message {
  tm_caller_handle_index : Z; tm_handle : Z; tm_handle_array : list Z }.

Section tree.
Context {X : Type}.
(** The server of a handle, from the configuration. *)
Context (server_of : Z → Z).
Context (tree_width tree_threshold retry_limit : Z).
(** The machine a local handle is given to, and its error code. *)
Context (local_operation : Z → X → exec (Z * X)).
(** What becomes of the messages that a server sends for some handles. *)
Context (fates_of : Z → list Z → list fate).

(** * Dividing the handles *)

(** [handle_array_local] with [local_join_size], and [handle_array_remote]
    with [remote_join_size]: the handles and their indexes. *)
Fixpoint separate (self i : Z) (handle_array : list Z) : list (Z * Z) * list (Z * Z) :=
  match handle_array with
  | [] => ([], [])
  | h :: hs =>
      let '(local, remote) := separate self (i + 1) hs in
      if decide (server_of h = self) then ((h, i) :: local, remote) else (local, (h, i) :: remote)
  end.

(** [num_partitions] and [num_files_per_server]. *)
Definition partition_sizes (handle_array_remote_count : Z) : exec (Z * Z) :=
  if decide (handle_array_remote_count > tree_threshold) then
    if decide (tree_width = 0) then Fault DivByZero
    else
      let num_files_per_server := handle_array_remote_count `quot` tree_width in
      Done (tree_width,
            if decide (tree_width * num_files_per_server < handle_array_remote_count)
            then num_files_per_server + 1 else num_files_per_server)
  else Done (handle_array_remote_count, 1).

(** Message [i].  The count is reduced until it fits, below 0 if need be: as
    an unsigned [handle_count] it makes the encoder read far beyond the array.
    The handle the message is for is read from an array of [num_data_files]
    elements, which are 0 beyond the remote handles. *)
Definition partition_message (num_data_files num_files_per_server : Z)
    (handle_array_remote : list Z) (i : Z) : exec tree_message :=
  let start := i * num_files_per_server in
  let count := Z.min num_files_per_server (len handle_array_remote - start) in
  if decide (count < 0) then Fault BadAccess
  else if decide (0 ≤ start < num_data_files) then
    Done (mk_tree_message start (default 0 (handle_array_remote !! Z.to_nat start))
            (take (Z.to_nat count) (drop (Z.to_nat start) handle_array_remote)))
  else Fault BadAccess.

Fixpoint partition_loop (num_data_files num_files_per_server : Z) (handle_array_remote : list Z)
    (i : Z) (n : nat) : exec (list tree_message) :=
  match n with
  | O => Done []
  | S n =>
      m ← partition_message num_data_files num_files_per_server handle_array_remote i;
      ms ← partition_loop num_data_files num_files_per_server handle_array_remote (i + 1) n;
      Done (m :: ms)
  end.

Definition tree_communicate_partition_handles (num_data_files : Z) (handle_array_remote : list Z)
    : exec (list tree_message) :=
  if decide (len handle_array_remote > 0) then
    '(num_partitions, num_files_per_server) ← partition_sizes (len handle_array_remote);
    partition_loop num_data_files num_files_per_server handle_array_remote 0 (Z.to_nat num_partitions)
  else Done [].

(** * Joining the results *)

Definition set_status (statuses : list Z) (i e : Z) : exec (list Z) :=
  a ← array_set (Some statuses) i e;
  Done (default [] a).

(** The loop of [tree_setattr_comp_fn] over the states of a response. *)
Fixpoint stash_loop (remote_join_size : list Z) (statuses : list Z) (i : Z) (m_status : list Z)
    : exec (list Z) :=
  match m_status with
  | [] => Done statuses
  | e :: es =>
      status_array_index ← array_get (Some remote_join_size) i;
      statuses ← set_status statuses status_array_index e;
      stash_loop remote_join_size statuses (i + 1) es
  end.

Definition tree_setattr_comp_fn (remote_join_size : list Z) (s : list Z * X)
    (r : PVFS_servresp_tree) (index : Z) : exec (Z * (list Z * X)) :=
  if negb (tr_status r =? 0) then Done (tr_status r, s)
  else
    statuses ← stash_loop remote_join_size s.1 (tr_caller_handle_index r) (tr_statuses r);
    Done (0, (statuses, s.2)).

(** The frame of the messages failed: every handle of every message gets the
    error. *)
Fixpoint fail_handles (statuses : list Z) (index : Z) (n : nat) (error_code : Z)
    : exec (list Z) :=
  match n with
  | O => Done statuses
  | S n =>
      statuses ← set_status statuses index error_code;
      fail_handles statuses (index + 1) n error_code
  end.

Fixpoint fail_messages (handle_array_local_count : Z) (statuses : list Z) (ms : list tree_message)
    (error_code : Z) : exec (list Z) :=
  match ms with
  | [] => Done statuses
  | m :: ms =>
      statuses ← fail_handles statuses (tm_caller_handle_index m + handle_array_local_count)
                   (length (tm_handle_array m)) error_code;
      fail_messages handle_array_local_count statuses ms error_code
  end.

(** The frames of the local handles, the last one first. *)
Fixpoint join_locals (statuses : list Z) (local : list (Z * Z)) : exec (list Z) :=
  match local with
  | [] => Done statuses
  | (error_code, i) :: local =>
      statuses ← join_locals statuses local;
      set_status statuses i error_code
  end.

Definition tree_setattr_work_cleanup (statuses : list Z) (local : list (Z * Z))
    (ms : list tree_message) (remote_error : Z) : exec (list Z) :=
  statuses ← (if negb (remote_error =? 0) then fail_messages (len local) statuses ms remote_error
              else Done statuses);
  join_locals statuses local.

(** * The machine *)

Fixpoint run_locals (local : list (Z * Z)) (x : X) : exec (list (Z * Z) * X) :=
  match local with
  | [] => Done ([], x)
  | (h, i) :: local =>
      '(e, x) ← local_operation h x;
      '(es, x) ← run_locals local x;
      Done ((e, i) :: es, x)
  end.

(** A message is served by the tree of the server it goes to. *)
Definition serve_tree (tree : Z → Z → list Z → X → exec (PVFS_servresp_tree * X))
    (ms : list tree_message) (i : Z) (s : list Z * X)
    : exec (Z * PVFS_servresp_tree * (list Z * X)) :=
  match ms !! Z.to_nat i with
  | None => Fault BadAccess
  | Some m =>
      '(r, x) ← tree (server_of (tm_handle m)) (tm_caller_handle_index m) (tm_handle_array m) s.2;
      Done (0, r, (s.1, x))
  end.

Definition tree_array (self : Z) (handle_array remote_join_size statuses : list Z)
    (ms : list tree_message) (x : X)
    : msgarray (X := list Z * X) (R := PVFS_servresp_tree) :=
  mk_array (replicate (length ms)
              (mk_msgpair PVFS_MSGPAIR_RETRY 0 (Some (tree_setattr_comp_fn remote_join_size))
                 false None 0 false))
    0 retry_limit (mk_done 0 0 None) (fates_of self handle_array) [] (statuses, x).

(** The whole of a TREE_SETATTR or TREE_REMOVE at server [self].  The local
    handles and the messages are run by parallel children, here one after the
    other. *)
Fixpoint pvfs2_tree_sm (fuel : nat) (self caller_handle_index : Z) (handle_array : list Z) (x : X)
    : exec (PVFS_servresp_tree * X) :=
  match fuel with
  | O => Fault OutOfFuel
  | S fuel =>
      let '(local, remote) := separate self 0 handle_array in
      let statuses := replicate (length handle_array) 0 in
      ms ← tree_communicate_partition_handles (len handle_array) remote.*1;
      '(local, x) ← run_locals local x;
      '(remote_error, statuses, x) ←
        (match ms with
         | [] => Done (0, statuses, x)
         | _ =>
             '(c, a) ← pvfs2_msgpairarray_sm tr_status (serve_tree (pvfs2_tree_sm fuel) ms)
                         (tree_array self handle_array remote.*2 statuses ms x);
             Done (c, (ma_x a).1, (ma_x a).2)
         end);
      statuses ← tree_setattr_work_cleanup statuses local ms remote_error;
      Done (mk_tree_resp 0 caller_handle_index statuses, x)
  end.

(** * The messages *)

(** The messages hold the handles one part after the other, none of them is
    empty, and each goes to the server of its first handle. *)
Fixpoint covers (off : Z) (handles : list Z) (ms : list tree_message) : Prop :=
  match ms with
  | [] => handles = []
  | m :: ms =>
      tm_caller_handle_index m = off ∧ ∃ rest,
        handles = tm_handle_array m ++ rest ∧ head (tm_handle_array m) = Some (tm_handle m) ∧
        covers (off + len (tm_handle_array m)) rest ms
  end.

Lemma part_head (l : list Z) (start count : nat) :
  (start < length l)%nat → (0 < count)%nat →
  head (take count (drop start l)) = Some (default 0 (l !! start)).
Proof.
  intros Hs Hc. destruct (lookup_lt_is_Some_2 _ _ Hs) as [x Hx]. rewrite Hx. simpl.
  rewrite (drop_S _ _ _ Hx). by destruct count; [lia|].
Qed.

Lemma partition_loop_covers num per handles i n :
  0 ≤ i → 0 < per → len handles ≤ num → len handles ≤ (i + Z.of_nat n) * per →
  (i + Z.of_nat n - 1) * per < len handles →
  ∃ ms, partition_loop num per handles i n = Done ms ∧
    covers (i * per) (drop (Z.to_nat (i * per)) handles) ms.
Proof.
  intros Hi Hper Hnum. revert i Hi. induction n as [|n IH]; intros i Hi Hup Hlow.
  { exists []. split; [done|]. simpl. apply drop_ge. rewrite Z.add_0_r in Hup. lia. }
  assert (i * per < len handles) as Hlt by nia.
  set (start := i * per) in *. assert (0 ≤ start) by (unfold start; nia).
  set (count := Z.min per (len handles - start)).
  cbn [partition_loop]. unfold partition_message. fold start. fold count.
  rewrite decide_False by lia. rewrite decide_True by lia. cbn [mbind exec_bind].
  destruct n as [|n].
  - eexists. split; [done|]. cbn [covers tm_caller_handle_index tm_handle_array tm_handle].
    split; [done|]. exists []. rewrite app_nil_r, part_head by lia. split_and!; [|done|done].
    symmetry. apply take_ge. rewrite length_drop. nia.
  - destruct (IH (i + 1)) as (ms & -> & Hms); [lia|nia|nia|].
    eexists. split; [done|]. cbn [covers tm_caller_handle_index tm_handle_array tm_handle].
    assert (count = per) as -> by nia. assert (start + per ≤ len handles) by nia.
    split; [done|]. exists (drop (Z.to_nat ((i + 1) * per)) handles). split_and!.
    + replace (Z.to_nat ((i + 1) * per)) with (Z.to_nat start + Z.to_nat per)%nat by nia.
      by rewrite <- drop_drop, take_drop.
    + by rewrite part_head by lia.
    + rewrite length_take, length_drop, Nat.min_l by lia.
      replace (start + Z.of_nat (Z.to_nat per)) with ((i + 1) * per) by (unfold start; lia). done.
Qed.

Lemma partition_loop_overrun num per handles i n :
  0 ≤ i → 0 < per → (0 < n)%nat → len handles < (i + Z.of_nat n - 1) * per →
  partition_loop num per handles i n = Fault BadAccess.
Proof.
  intros Hi Hper. revert i Hi. induction n as [|n IH]; intros i Hi Hn Hlow; [lia|].
  cbn [partition_loop]. unfold partition_message.
  case_decide; [done|]. case_decide; [|done]. cbn [mbind exec_bind].
  rewrite IH; [done|lia| |]; destruct n; nia.
Qed.

Definition files_per_server (n : Z) : Z := (n + tree_width - 1) / tree_width.

Lemma partition_sizes_above n :
  0 < tree_width → tree_threshold < n → 0 < n →
  partition_sizes n = Done (tree_width, files_per_server n).
Proof.
  intros Hw Ht Hn. unfold partition_sizes, files_per_server. rewrite decide_True by lia.
  rewrite decide_False by lia. f_equal. f_equal. rewrite Z.quot_div_nonneg by lia.
  pose proof (Z.div_mod n tree_width). pose proof (Z.mod_pos_bound n tree_width).
  pose proof (Z.div_mod (n + tree_width - 1) tree_width).
  pose proof (Z.mod_pos_bound (n + tree_width - 1) tree_width). case_decide; nia.
Qed.

(** C33. Above the threshold the handles are divided exactly if the last of the
    [tree_width] parts still begins within them; if the parts before it reach
    beyond them, its count is negative and memory is read out of bounds. *)
Theorem partition_correct num handles :
  0 < tree_width → tree_threshold < len handles → 0 < len handles ≤ num →
  ((tree_width - 1) * files_per_server (len handles) < len handles →
     ∃ ms, tree_communicate_partition_handles num handles = Done ms ∧ covers 0 handles ms) ∧
  (len handles < (tree_width - 1) * files_per_server (len handles) →
     tree_communicate_partition_handles num handles = Fault BadAccess).
Proof.
  intros Hw Ht Hn. unfold tree_communicate_partition_handles. rewrite decide_True by lia.
  rewrite partition_sizes_above by lia. cbn [mbind exec_bind].
  pose proof (Z.div_mod (len handles + tree_width - 1) tree_width).
  pose proof (Z.mod_pos_bound (len handles + tree_width - 1) tree_width).
  assert (0 < files_per_server (len handles)) by (unfold files_per_server; nia).
  assert (len handles ≤ tree_width * files_per_server (len handles)) by (unfold files_per_server; nia).
  split; intros Hlast.
  - destruct (partition_loop_covers num (files_per_server (len handles)) handles 0 (Z.to_nat tree_width))
      as (ms & -> & Hms); [lia..| | |]; [rewrite Z2Nat.id by lia; lia..|]. exists ms. split; [done|].
    by rewrite Z.mul_0_l in Hms.
  - apply partition_loop_overrun; [lia|done|lia|]. rewrite Z2Nat.id by lia. lia.
Qed.

(** The configured width divides every number of handles. *)
Definition width_ok : Prop :=
  0 < tree_width ∧ ∀ n, tree_threshold < n → 0 < n → (tree_width - 1) * files_per_server n < n.

Lemma width_2_ok : tree_width = 2 → 1 ≤ tree_threshold → width_ok.
Proof.
  intros Hw Ht. split; [lia|]. intros n Hn _. unfold files_per_server. rewrite Hw.
  pose proof (Z.div_mod (n + 2 - 1) 2). pose proof (Z.mod_pos_bound (n + 2 - 1) 2). lia.
Qed.

Lemma partition_covers num handles :
  width_ok → len handles ≤ num →
  ∃ ms, tree_communicate_partition_handles num handles = Done ms ∧ covers 0 handles ms.
Proof.
  intros [Hw Hok] Hn. unfold tree_communicate_partition_handles. case_decide as Hpos.
  2: { exists []. split; [done|]. destruct handles; [done|]. simpl in Hpos. lia. }
  destruct (decide (tree_threshold < len handles)) as [Ht|Ht].
  - specialize (Hok _ Ht ltac:(lia)).
    pose proof (Z.div_mod (len handles + tree_width - 1) tree_width).
    pose proof (Z.mod_pos_bound (len handles + tree_width - 1) tree_width).
    rewrite partition_sizes_above by lia. cbn [mbind exec_bind].
    destruct (partition_loop_covers num (files_per_server (len handles)) handles 0 (Z.to_nat tree_width))
      as (ms & -> & Hms); [lia| |lia| | |]; [unfold files_per_server; nia|rewrite Z2Nat.id by lia..|].
    + unfold files_per_server; nia.
    + lia.
    + exists ms. split; [done|]. by rewrite Z.mul_0_l in Hms.
  - unfold partition_sizes. rewrite decide_False by lia. cbn [mbind exec_bind].
    destruct (partition_loop_covers num 1 handles 0 (Z.to_nat (len handles)))
      as (ms & -> & Hms); [lia..|]. exists ms. split; [done|]. by rewrite Z.mul_0_l in Hms.
Qed.

(** * The results *)

Lemma set_status_ok statuses i e :
  0 ≤ i < len statuses → set_status statuses i e = Done (<[Z.to_nat i := e]> statuses).
Proof. intros. unfold set_status. by rewrite array_set_Some. Qed.

Fixpoint indexed (i : Z) (handles : list Z) : list (Z * Z) :=
  match handles with [] => [] | h :: hs => (h, i) :: indexed (i + 1) hs end.

Lemma separate_perm self i handles :
  (separate self i handles).1 ++ (separate self i handles).2 ≡ₚ indexed i handles.
Proof.
  revert i. induction handles as [|h hs IH]; intros i; [done|]. simpl. specialize (IH (i + 1)).
  destruct (separate self (i + 1) hs) as [l r]. simpl in IH. case_decide; simpl.
  - by rewrite IH.
  - by rewrite <- Permutation_middle, IH.
Qed.

Lemma indexed_fst i handles : (indexed i handles).*1 = handles.
Proof. revert i. induction handles as [|h hs IH]; intros i; [done|]. simpl. by rewrite IH. Qed.

Lemma indexed_length i handles : length (indexed i handles) = length handles.
Proof. by rewrite <- (length_fmap fst), indexed_fst. Qed.

Lemma indexed_range i handles h j : (h, j) ∈ indexed i handles → i ≤ j < i + len handles.
Proof.
  revert i. induction handles as [|h' hs IH]; intros i; simpl; [by intros []%not_elem_of_nil|].
  intros [[= -> ->]|Hin]%elem_of_cons; [lia|]. specialize (IH _ Hin). lia.
Qed.

Lemma indexed_nodup i handles : NoDup (indexed i handles).*2.
Proof.
  revert i. induction handles as [|h' hs IH]; intros i; simpl; constructor; [|done].
  intros ([h j] & Hj & Hin)%list_elem_of_fmap. simpl in Hj. subst j. apply indexed_range in Hin. lia.
Qed.

(** The local operations in some order; their results carry the indexes. *)
Lemma run_locals_app l1 l2 x :
  run_locals (l1 ++ l2) x
  = ('(r1, x) ← run_locals l1 x; '(r2, x) ← run_locals l2 x; Done (r1 ++ r2, x)).
Proof.
  revert x. induction l1 as [|[h i] l1 IH]; intros x; simpl.
  - by destruct (run_locals l2 x) as [[r x']|].
  - destruct (local_operation h x) as [[e x1]|]; [|done]. simpl. rewrite IH.
    destruct (run_locals l1 x1) as [[r1 x2]|]; [|done]. simpl.
    by destruct (run_locals l2 x2) as [[r2 x3]|].
Qed.

Definition reindex (f : Z → Z) (l : list (Z * Z)) : list (Z * Z) := (λ p, (p.1, f p.2)) <$> l.

Lemma run_locals_map (f : Z → Z) l x :
  run_locals (reindex f l) x = ('(r, x) ← run_locals l x; Done (reindex f r, x)).
Proof.
  revert x. induction l as [|[h i] l IH]; intros x; [done|]. simpl.
  destruct (local_operation h x) as [[e x1]|]; [|done]. simpl. rewrite IH.
  by destruct (run_locals l x1) as [[r x2]|].
Qed.

Lemma run_locals_indexes l x r x' : run_locals l x = Done (r, x') → r.*2 = l.*2.
Proof.
  revert x r. induction l as [|[h i] l IH]; intros x r; simpl.
  { by intros [= <- _]. }
  destruct (local_operation h x) as [[e x1]|]; [|done]. simpl.
  destruct (run_locals l x1) as [[r1 x2]|] eqn:Hr; [|done]. simpl.
  intros [= <- <-]. simpl. f_equal. by eapply IH.
Qed.

(** What a tree comes to: the operation is run once for every handle, in some
    order, and the status of a handle is the result for it. *)
Definition tree_result (handles : list Z) (x : X) (statuses : list Z) (x' : X) : Prop :=
  ∃ order results, order ≡ₚ indexed 0 handles ∧ run_locals order x = Done (results, x') ∧
    length statuses = length handles ∧
    ∀ e i, (e, i) ∈ results → statuses !! Z.to_nat i = Some e.

(** [stash_loop] puts the values where the handles came from. *)
Lemma stash_app join statuses i a b :
  stash_loop join statuses i (a ++ b)
  = (statuses ← stash_loop join statuses i a; stash_loop join statuses (i + len a) b).
Proof.
  revert statuses i. induction a as [|e a IH]; intros statuses i; simpl.
  { by rewrite Z.add_0_r. }
  destruct (array_get _ i) as [j|]; [|done]. simpl. destruct (set_status _ j e) as [st|]; [|done]. simpl.
  rewrite IH. by replace (i + 1 + len a) with (i + Z.of_nat (S (length a))) by lia.
Qed.

Lemma stash_ok join statuses vals (i : nat) :
  NoDup join → Forall (λ j, 0 ≤ j < len statuses) join → (i + length vals ≤ length join)%nat →
  ∃ st, stash_loop join statuses (Z.of_nat i) vals = Done st ∧ length st = length statuses ∧
    (∀ k e j, vals !! k = Some e → join !! (i + k)%nat = Some j → st !! Z.to_nat j = Some e) ∧
    (∀ j, 0 ≤ j → j ∉ take (length vals) (drop i join) → st !! Z.to_nat j = statuses !! Z.to_nat j).
Proof.
  intros Hnd. revert statuses i. induction vals as [|e vals IH]; intros statuses i Hr Hle.
  { exists statuses. split_and!; [done|done|done|done]. }
  simpl in Hle. destruct (lookup_lt_is_Some_2 join i) as [j Hj]; [lia|].
  assert (0 ≤ j < len statuses) as Hjr by (by eapply Forall_lookup_1 in Hr).
  cbn [stash_loop]. rewrite (array_get_Some _ _ j) by (rewrite ?Nat2Z.id; done || lia).
  cbn [mbind exec_bind]. rewrite set_status_ok by done. cbn [mbind exec_bind].
  replace (Z.of_nat i + 1) with (Z.of_nat (S i)) by lia.
  destruct (IH (<[Z.to_nat j := e]> statuses) (S i)) as (st & Hst & Hlen & Hin & Hout).
  { by rewrite length_insert. } { lia. }
  rewrite length_insert in Hlen. exists st. split_and!; [done|done| |].
  - intros [|k] e' j' Hv Hk; simpl in Hv.
    + rewrite Nat.add_0_r in Hk. injection Hv as ->. rewrite Hj in Hk. injection Hk as ->.
      rewrite Hout; [|lia|].
      * rewrite list_lookup_insert_eq by lia. done.
      * intros Hbad%list_elem_of_lookup_1. destruct Hbad as [k Hk].
        apply lookup_take_Some in Hk as [Hk _]. rewrite lookup_drop in Hk.
        pose proof (NoDup_lookup _ _ _ _ Hnd Hj Hk). lia.
    + eapply Hin; [done|]. by replace (S i + k)%nat with (i + S k)%nat by lia.
  - intros j' Hj' Hn. rewrite (drop_S _ _ _ Hj) in Hn. simpl in Hn.
    rewrite Hout; [|done|set_solver]. rewrite list_lookup_insert_ne; [done|].
    intros ?%Z2Nat.inj; [|lia|lia]. subst. set_solver.
Qed.

Lemma join_locals_ok statuses (local : list (Z * Z)) :
  NoDup local.*2 → Forall (λ j, 0 ≤ j < len statuses) local.*2 →
  ∃ st, join_locals statuses local = Done st ∧ length st = length statuses ∧
    (∀ e j, (e, j) ∈ local → st !! Z.to_nat j = Some e) ∧
    (∀ j, 0 ≤ j → j ∉ local.*2 → st !! Z.to_nat j = statuses !! Z.to_nat j).
Proof.
  induction local as [|[e j] local IH]; intros Hnd Hr.
  { exists statuses. split_and!; [done|done|by intros ?? []%not_elem_of_nil|done]. }
  inversion Hnd as [|? ? Hni Hnd' Heq]; subst. inversion Hr as [|? ? Hj Hr' Heq]; subst.
  destruct (IH Hnd' Hr') as (st & Hst & Hlen & Hin & Hout). cbn [snd] in *.
  cbn [join_locals]. rewrite Hst. cbn [mbind exec_bind]. rewrite set_status_ok by lia.
  eexists. split; [done|]. rewrite length_insert. split_and!; [done| |].
  - intros e' j' [[= -> ->]|Hin']%elem_of_cons.
    + rewrite list_lookup_insert_eq by lia. done.
    + assert (j' ∈ local.*2) by (apply list_elem_of_fmap; by exists (e', j')).
      rewrite list_lookup_insert_ne; [by apply Hin|]. intros ?%Z2Nat.inj; [|lia|].
      * by subst.
      * rewrite Forall_forall in Hr'. specialize (Hr' _ H). lia.
  - intros j' Hj' Hn. simpl in Hn. rewrite list_lookup_insert_ne; [apply Hout; set_solver|].
    intros ?%Z2Nat.inj; [|lia|lia]. subst. set_solver.
Qed.

Lemma reindex_indexed (l : list (Z * Z)) :
  reindex (λ i, default 0 (l.*2 !! Z.to_nat i)) (indexed 0 l.*1) = l.
Proof.
  assert (∀ pre, reindex (λ i, default 0 ((pre ++ l.*2) !! Z.to_nat i)) (indexed (len pre) l.*1) = l) as Hp.
  2: { apply (Hp []). }
  induction l as [|[h j] l IH]; intros pre; [done|]. simpl. f_equal.
  - rewrite Nat2Z.id, lookup_app_r, Nat.sub_diag by lia. done.
  - specialize (IH (pre ++ [j])). rewrite <- app_assoc in IH. simpl in IH. rewrite <- IH at 2.
    by rewrite length_app, Nat2Z.inj_add.
Qed.

(** The responses of the messages are the values of the handles in order. *)
Fixpoint responses (off : Z) (ms : list tree_message) (rs : list (Z * PVFS_servresp_tree))
    (vals : list Z) : Prop :=
  match ms, rs with
  | [], [] => vals = []
  | m :: ms, r :: rs => ∃ sts rest,
      r = (0, mk_tree_resp 0 off sts) ∧ vals = sts ++ rest ∧
      responses (off + len sts) ms rs rest
  | _, _ => False
  end.

Definition tree_ok (tree : Z → Z → list Z → X → exec (PVFS_servresp_tree * X)) (m : tree_message) : Prop :=
  ∀ x, ∃ sts x', tree (server_of (tm_handle m)) (tm_caller_handle_index m) (tm_handle_array m) x
    = Done (mk_tree_resp 0 (tm_caller_handle_index m) sts, x') ∧
    tree_result (tm_handle_array m) x sts x'.

(** The result of a tree, for handles that have other indexes in the whole. *)
Lemma tree_result_part (part : list (Z * Z)) x sts x' :
  tree_result part.*1 x sts x' →
  ∃ order results, order ≡ₚ part ∧ run_locals order x = Done (results, x') ∧
    length sts = length part ∧
    ∀ e i, (e, i) ∈ results → ∃ k h, part !! k = Some (h, i) ∧ sts !! k = Some e.
Proof.
  intros (order & results & Hperm & Hrun & Hlen & Hres). rewrite length_fmap in Hlen.
  set (f := λ i, default 0 (part.*2 !! Z.to_nat i)).
  exists (reindex f order), (reindex f results). split_and!.
  - rewrite <- (reindex_indexed part). unfold reindex. by rewrite Hperm.
  - by rewrite run_locals_map, Hrun.
  - done.
  - intros e i ([e' i'] & [= -> ->] & Hin)%list_elem_of_fmap. simpl. specialize (Hres _ _ Hin).
    assert (i' ∈ order.*2) as Hi.
    { rewrite <- (run_locals_indexes _ _ _ _ Hrun). apply list_elem_of_fmap. by exists (e', i'). }
    rewrite Hperm in Hi. apply list_elem_of_fmap in Hi as ([h j] & -> & Hj%indexed_range). simpl in *.
    rewrite length_fmap in Hj. destruct (lookup_lt_is_Some_2 part (Z.to_nat j)) as [[h' i'] Hp]; [lia|].
    exists (Z.to_nat j), h'. split; [|done]. rewrite Hp. f_equal. f_equal. unfold f.
    by rewrite list_lookup_fmap, Hp.
Qed.

Lemma serve_messages tree pre ms off rem st x :
  Forall (tree_ok tree) ms → covers off rem.*1 ms →
  ∃ rs vals order results x',
    serve_all (serve_tree tree (pre ++ ms)) (len pre) (length ms) (st, x) = Done (rs, (st, x')) ∧
    order ≡ₚ rem ∧ run_locals order x = Done (results, x') ∧ length vals = length rem ∧
    responses off ms rs vals ∧
    ∀ e i, (e, i) ∈ results → ∃ k h, rem !! k = Some (h, i) ∧ vals !! k = Some e.
Proof.
  intros Hok. revert pre off rem x. induction Hok as [|m ms Hm _ IH]; intros pre off rem x Hcov; simpl in Hcov.
  { apply fmap_nil_inv in Hcov. subst rem. exists [], [], [], [], x.
    split_and!; [done..|]. by intros ?? []%not_elem_of_nil. }
  destruct Hcov as (Hoff & rest & Hrem & Hhd & Hcov).
  apply fmap_app_inv in Hrem as (rem1 & rem2 & Hr1 & -> & ->).
  destruct (Hm x) as (sts & x1 & Ht & Hres). rewrite Hr1 in Hres at 1.
  apply tree_result_part in Hres as (order1 & results1 & Hp1 & Hrun1 & Hl1 & Hin1).
  rewrite Hr1, length_fmap in Hcov.
  destruct (IH (pre ++ [m]) (off + len rem1) rem2 x1 Hcov)
    as (rs & vals & order2 & results2 & x' & Hs & Hp2 & Hrun2 & Hl2 & Hresp & Hin2).
  exists ((0, mk_tree_resp 0 off sts) :: rs), (sts ++ vals), (order1 ++ order2), (results1 ++ results2), x'.
  rewrite <- app_assoc in Hs. simpl in Hs. rewrite length_app in Hs. split_and!.
  - assert (serve_tree tree (pre ++ m :: ms) (len pre) (st, x)
      = Done (0, mk_tree_resp 0 (tm_caller_handle_index m) sts, (st, x1))) as Hserve.
    { unfold serve_tree. rewrite Nat2Z.id, lookup_app_r, Nat.sub_diag by lia. simpl. by rewrite Ht. }
    cbn [length serve_all]. rewrite Hserve. cbn [mbind exec_bind]. replace (len pre + 1) with (Z.of_nat (length pre + length [m])) by (simpl; lia).
    rewrite Hs. cbn [mbind exec_bind]. by rewrite Hoff.
  - by rewrite Hp1, Hp2.
  - rewrite run_locals_app, Hrun1. cbn [mbind exec_bind]. by rewrite Hrun2.
  - rewrite !length_app. lia.
  - exists sts, vals. split_and!; [done|done|]. by rewrite Hl1.
  - intros e i [Hin|Hin]%elem_of_app.
    + destruct (Hin1 _ _ Hin) as (k & h & Hk & Hv). exists k, h. by rewrite !lookup_app, Hk, Hv.
    + destruct (Hin2 _ _ Hin) as (k & h & Hk & Hv). exists (length rem1 + k)%nat, h.
      rewrite !lookup_app_r by lia. rewrite Hl1.
      by replace (length rem1 + k - length rem1)%nat with k by lia.
Qed.

Lemma complete_messages join ms i off rs vals st x st' :
  responses off ms rs vals → stash_loop join st off vals = Done st' →
  ∃ msgs', completion_loop tr_status i
    (answered (fresh <$> replicate (length ms)
       (mk_msgpair PVFS_MSGPAIR_RETRY 0 (Some (tree_setattr_comp_fn join)) false None 0 false)) rs)
    0 0 (st, x) = Done (msgs', 0, 0, (st', x)).
Proof.
  revert i off rs vals st. induction ms as [|m ms IH]; intros i off [|r rs] vals st Hr Hst; try done.
  - simpl in Hr. subst vals. injection Hst as ->. by exists [].
  - destruct Hr as (sts & rest & -> & -> & Hr). rewrite stash_app in Hst.
    destruct (stash_loop join st off sts) as [st1|] eqn:H1; [|done]. cbn [mbind exec_bind] in Hst.
    destruct (IH (i + 1) _ rs rest st1 Hr Hst) as (msgs' & Hc).
    eexists. cbn [length replicate fmap list_fmap]. unfold answered in *. cbn [zip_with completion_loop].
    cbn [settle fresh mp_complete mp_op_status Z.eqb negb mp_resp mp_comp_fn].
    assert (tree_setattr_comp_fn join (st, x) (mk_tree_resp 0 off sts) i = Done (0, (st1, x))) as ->.
    { unfold tree_setattr_comp_fn. simpl. by rewrite H1. }
    cbn [mbind exec_bind Z.eqb]. rewrite Hc. cbn [mbind exec_bind]. reflexivity.
Qed.

Section delivered.
(** Operations return, every message is delivered and answered. *)
Hypothesis operation_total : ∀ h x, ∃ e x', local_operation h x = Done (e, x').
Hypothesis all_delivered : ∀ self handles, fates_of self handles = [].
Hypothesis width : width_ok.
Hypothesis limit : 0 ≤ retry_limit.

Lemma run_locals_total l x : ∃ r x', run_locals l x = Done (r, x').
Proof.
  revert x. induction l as [|[h i] l IH]; intros x; [by eexists _, _|]. simpl.
  destruct (operation_total h x) as (e & x1 & ->). simpl. destruct (IH x1) as (r & x' & ->).
  by eexists _, _.
Qed.

Lemma separate_remote_local self i handles h :
  head handles = Some h → server_of h = self →
  (length (separate self i handles).2 < length handles)%nat.
Proof.
  intros Hh Hs. destruct handles as [|h' hs]; [done|]. injection Hh as ->. simpl.
  pose proof (Permutation_length (separate_perm self (i + 1) hs)) as Hp.
  rewrite length_app, indexed_length in Hp.
  destruct (separate self (i + 1) hs) as [l r]. simpl in Hp. rewrite decide_True by done. simpl. lia.
Qed.

Lemma covers_parts off handles ms :
  covers off handles ms → Forall (λ m, head (tm_handle_array m) = Some (tm_handle m) ∧
    (length (tm_handle_array m) ≤ length handles)%nat) ms.
Proof.
  revert off handles. induction ms as [|m ms IH]; intros off handles; [done|].
  intros (_ & rest & -> & Hh & Hc). specialize (IH _ _ Hc). rewrite length_app.
  constructor; [split; [done|lia]|]. eapply Forall_impl; [exact IH|]. intros m' [? ?]. split; [done|lia].
Qed.

Lemma run_messages tree self handles join ms st x rs vals st' x' :
  serve_all (serve_tree tree ms) 0 (length ms) (st, x) = Done (rs, (st, x')) →
  responses 0 ms rs vals → stash_loop join st 0 vals = Done st' →
  (match ms with
   | [] => Done (0, st, x)
   | _ => '(c, a) ← pvfs2_msgpairarray_sm tr_status (serve_tree tree ms)
             (tree_array self handles join st ms x);
          Done (c, (ma_x a).1, (ma_x a).2)
   end) = Done (0, st', x').
Proof.
  intros Hserve Hresp Hstash. destruct (complete_messages join ms 0 0 rs vals st x' st' Hresp Hstash)
    as (msgs' & Hc). destruct ms as [|m ms].
  { injection Hserve as <- <-. simpl in Hresp. subst vals. by injection Hstash as ->. }
  unfold tree_array. rewrite all_delivered.
  edestruct (array_answered tr_status (serve_tree tree (m :: ms))) as (js' & ->);
    [| | | |exact Hc|done|by cbn [mbind exec_bind ma_x fst snd]].
  - done.
  - unfold flags_ok. apply forallb_forall. intros m' [-> _]%list_elem_of_In%elem_of_replicate. done.
  - done.
  - rewrite length_replicate. exact Hserve.
Qed.

Lemma tree_run (fuel : nat) self caller_handle_index handles x :
  (length (separate self 0 handles).2 < fuel)%nat →
  ∃ statuses x', pvfs2_tree_sm fuel self caller_handle_index handles x
    = Done (mk_tree_resp 0 caller_handle_index statuses, x') ∧ tree_result handles x statuses x'.
Proof.
  revert self caller_handle_index handles x.
  induction fuel as [|fuel IH]; intros self index handles x Hfuel; [lia|].
  cbn [pvfs2_tree_sm]. pose proof (separate_perm self 0 handles) as Hperm.
  destruct (separate self 0 handles) as [local remote]. cbn [fst snd] in *.
  pose proof (Permutation_length Hperm) as Hlen. rewrite length_app, indexed_length in Hlen.
  destruct (partition_covers (len handles) remote.*1 width) as (ms & -> & Hcov).
  { rewrite length_fmap. lia. }
  cbn [mbind exec_bind]. destruct (run_locals_total local x) as (lres & x1 & Hrun). rewrite Hrun.
  cbn [mbind exec_bind].
  assert (Forall (tree_ok (pvfs2_tree_sm fuel)) ms) as Hok.
  { eapply Forall_impl; [exact (covers_parts _ _ _ Hcov)|]. intros m [Hh Hl] y. apply IH.
    rewrite length_fmap in Hl. pose proof (separate_remote_local _ 0 _ _ Hh eq_refl). lia. }
  set (st0 := replicate (length handles) 0).
  destruct (serve_messages (pvfs2_tree_sm fuel) [] ms 0 remote st0 x1 Hok Hcov)
    as (rs & vals & order & rres & x' & Hserve & Horder & Hrrun & Hvals & Hresp & Hin).
  assert (NoDup (local.*2 ++ remote.*2)) as Hnd.
  { rewrite <- fmap_app, Hperm. apply indexed_nodup. }
  apply NoDup_app in Hnd as (Hnd1 & Hdisj & Hnd2).
  assert (∀ j, j ∈ local.*2 ∨ j ∈ remote.*2 → 0 ≤ j < len st0) as Hrange.
  { intros j Hj. assert (j ∈ (indexed 0 handles).*2) as Hi.
    { rewrite <- Hperm, fmap_app. by apply elem_of_app. }
    apply list_elem_of_fmap in Hi as ([h j'] & -> & Hi%indexed_range). unfold st0. rewrite length_replicate. done. }
  destruct (stash_ok remote.*2 st0 vals 0 Hnd2) as (st1 & Hstash & Hlen1 & Hin1 & Hout1).
  { apply Forall_forall. auto. } { rewrite length_fmap. lia. }
  destruct (join_locals_ok st1 lres) as (st2 & Hjoin & Hlen2 & Hin2 & Hout2).
  { by rewrite (run_locals_indexes _ _ _ _ Hrun). }
  { rewrite (run_locals_indexes _ _ _ _ Hrun), Hlen1. apply Forall_forall. auto. }
  exists st2, x'. split.
  - rewrite (run_messages _ self handles remote.*2 ms st0 x1 rs vals st1 x') by done.
    cbn [mbind exec_bind]. unfold tree_setattr_work_cleanup. cbn [Z.eqb negb mbind exec_bind].
    by rewrite Hjoin.
  - exists (local ++ order), (lres ++ rres). split_and!.
    + by rewrite Horder.
    + rewrite run_locals_app, Hrun. cbn [mbind exec_bind]. by rewrite Hrrun.
    + rewrite Hlen2, Hlen1. apply length_replicate.
    + intros e i [Hi|Hi]%elem_of_app; [by apply Hin2|].
      destruct (Hin _ _ Hi) as (k & h & Hk & Hv).
      assert (remote.*2 !! k = Some i) as Hki by (by rewrite list_lookup_fmap, Hk).
      assert (i ∈ remote.*2) as Hir by (by eapply list_elem_of_lookup_2).
      rewrite Hout2; [by eapply Hin1| |].
      * specialize (Hrange i ltac:(by right)). lia.
      * rewrite (run_locals_indexes _ _ _ _ Hrun). intros Hil. by eapply Hdisj.
Qed.

(** C25. If operations return, every message is delivered and answered, and the
    width of the tree is such that the last of its parts always begins within
    the handles ([width_ok]; a width of 2 is), then the machine returns: the
    operation is run once for every handle, on whatever server, and the states
    are those of the handles. *)
Theorem tree_correct self caller_handle_index handles x :
  ∃ statuses x', pvfs2_tree_sm (S (length handles)) self caller_handle_index handles x
    = Done (mk_tree_resp 0 caller_handle_index statuses, x') ∧ tree_result handles x statuses x'.
Proof.
  apply tree_run. pose proof (Permutation_length (separate_perm self 0 handles)) as Hlen.
  rewrite length_app, indexed_length in Hlen. lia.
Qed.
End delivered.

(** * Messages that are lost *)

Lemma fail_handles_ok statuses index n e :
  0 ≤ index → index + Z.of_nat n ≤ len statuses →
  ∃ st, fail_handles statuses index n e = Done st ∧ length st = length statuses ∧
    ∀ j, 0 ≤ j → st !! Z.to_nat j
      = if decide (index ≤ j < index + Z.of_nat n) then Some e else statuses !! Z.to_nat j.
Proof.
  revert statuses index. induction n as [|n IH]; intros statuses index Hi Hle.
  { exists statuses. split_and!; [done|done|]. intros j Hj. by rewrite decide_False by lia. }
  cbn [fail_handles]. rewrite set_status_ok by lia. cbn [mbind exec_bind].
  destruct (IH (<[Z.to_nat index := e]> statuses) (index + 1)) as (st & -> & Hlen & Hst);
    [lia|rewrite length_insert; lia|].
  rewrite length_insert in Hlen. exists st. split_and!; [done|done|]. intros j Hj. rewrite Hst by done.
  destruct (decide (j = index)) as [->|Hne].
  - rewrite decide_False, decide_True by lia. apply list_lookup_insert_eq. lia.
  - rewrite list_lookup_insert_ne by lia.
    destruct (decide (index + 1 ≤ j < _)); [by rewrite decide_True by lia|by rewrite decide_False by lia].
Qed.

(** The error is stored for as many handles as the messages have, one after
    the other from the number of the local handles on. *)
Lemma fail_messages_ok off count statuses handles ms e :
  covers off handles ms → 0 ≤ off + count → off + count + len handles ≤ len statuses →
  ∃ st, fail_messages count statuses ms e = Done st ∧ length st = length statuses ∧
    ∀ j, 0 ≤ j → st !! Z.to_nat j
      = if decide (off + count ≤ j < off + count + len handles) then Some e
        else statuses !! Z.to_nat j.
Proof.
  revert off statuses handles. induction ms as [|m ms IH]; intros off statuses handles Hcov H0 Hle.
  { simpl in Hcov. subst. exists statuses. split_and!; [done|done|]. intros j Hj.
    by rewrite decide_False by (simpl; lia). }
  destruct Hcov as (Hoff & rest & -> & _ & Hcov). rewrite length_app, Nat2Z.inj_add in *.
  cbn [fail_messages]. rewrite Hoff. destruct (fail_handles_ok statuses (off + count) (length (tm_handle_array m)) e)
    as (st1 & -> & Hlen1 & Hst1); [lia..|]. cbn [mbind exec_bind].
  destruct (IH (off + len (tm_handle_array m)) st1 rest Hcov) as (st & -> & Hlen & Hst); [lia..|].
  exists st. split_and!; [done|lia|]. intros j Hj. rewrite Hst, Hst1 by done.
  repeat case_decide; done || lia.
Qed.

Lemma covers_length off handles ms : covers off handles ms → (length ms ≤ length handles)%nat.
Proof.
  revert off handles. induction ms as [|m ms IH]; intros off handles; simpl; [lia|].
  intros (_ & rest & -> & Hh & Hc). specialize (IH _ _ Hc). rewrite length_app.
  destruct (tm_handle_array m); simpl in *; [done|lia].
Qed.

(** The machine of the messages when none of them gets through. *)
Lemma tree_array_lost tree self handles join statuses ms x :
  ms ≠ [] → 0 ≤ retry_limit → Forall fate_lost (fates_of self handles) →
  (retry_limit + 1) * len ms ≤ len (fates_of self handles) →
  ∃ c a, pvfs2_msgpairarray_sm tr_status (serve_tree tree ms)
      (tree_array self handles join statuses ms x) = Done (c, a) ∧ c < 0 ∧ ma_x a = (statuses, x).
Proof.
  intros Hne Hlim Hfs Hlen. apply array_lost; [by destruct ms|by apply Forall_replicate|done|done|].
  by rewrite length_replicate.
Qed.

End tree.

(** * Examples *)

(** Every handle is on a server of its own, and the operation records it. *)
Definition record_handle (h : Z) (log : list Z) : exec (Z * list Z) := Done (0, log ++ [h]).

Definition all_lost (self : Z) (handles : list Z) : list fate :=
  replicate 4 (mk_fate 0 true (Lost (- BMI_ECANCEL) 0)).

Lemma partition_correct_witness :
  tree_communicate_partition_handles 4 2 5 [1; 2; 3; 4; 5] = Fault BadAccess.
Proof. by apply (partition_correct 4 2 5 [1; 2; 3; 4; 5]). Defined.

Lemma tree_correct_witness :
  ∃ statuses log, pvfs2_tree_sm id 2 2 5 record_handle (λ _ _, []) 6 1 0 [1; 2; 3; 4; 5] []
    = Done (mk_tree_resp 0 0 statuses, log) ∧
    tree_result record_handle [1; 2; 3; 4; 5] [] statuses log.
Proof.
  apply (tree_correct id 2 2 5 record_handle (λ _ _, [])
    ltac:(intros; by eexists _, _) ltac:(done) ltac:(by apply width_2_ok) ltac:(done) 1 0 [1; 2; 3; 4; 5] []).
Defined.

